(* ===== verification/_CoqProject ===== *)
-Q . S2P
Prelude.v
Intrusive.v
Config.v
Tiling.v
Buddy.v
BuddyInv.v
BuddyOps.v
BuddyWf.v
BuddyFree.v
BuddyReach.v
BuddyInit.v
BuddySpec.v
BuddyProps.v
Tlsf.v
TlsfClass.v
TlsfInv.v
TlsfOps.v
TlsfFind.v
TlsfWf.v
TlsfSpec.v
TlsfProps.v
Tcache.v
Mpsc.v
VaReserve.v
Owner.v
External.v
Tier.v
Predict.v
Harden.v
Stats.v
Hooks.v
Book.v
BuddyBook.v
TlsfBook.v
Sheet.v
TlsfSheet.v
SheetProps.v
Kernel.v
Ledger.v
LedgerInv.v
LedgerOps.v
Doctor.v
DoctorProps.v
Walk.v
TlsfWalk.v
BuddyWalk.v
Meta.v
Bucket.v
Arena.v
ArenaApi.v
Client.v
BucketInv.v
Ground.v
Enlist.v
BucketProps.v
BucketFree.v
MetaGrow.v
BucketGrow.v
BucketRun.v
BucketDemo.v
ArenaInv.v
ArenaProps.v
ArenaGrow.v
ArenaStart.v
ArenaRun.v
ArenaPublic.v
ArenaRemote.v
DoctorArena.v
DoctorSweep.v
Tapi.v
Malloc.v
MallocProps.v
ArenaDemo.v
RemoteDemo.v
DoctorDemo.v
