(* ===== verification/Prelude.v ===== *)
(** * abcmalloc: a verification library

    abcmalloc (src/src) is a header-only memory allocator.  A thread allocates
    from its own arena; an arena has five tiers by size; a tier is an index of
    sheets, chunks of kernel memory, each divided by a book: a two-level
    segregated list (cache_list.hpp) below 4 KiB, a buddy list (free_list.hpp)
    above.  Freed blocks wait in a cache before they return to their sheet,
    emptied sheets return to the kernel, blocks of other threads arrive through
    a queue.  The library follows config_amd64.hpp; switches the arena branches
    on are fields of the classes [Hardening] and [Settings].

    ** Files and source

    - [Prelude]: machine words as [Z] with explicit wrap-around ([u8], [u32],
      [u64]), bit operations, memory as a map from address to word ([zmap],
      [rd], [wr]), sums over maps, tactics and hints.
    - [Intrusive]: lists threaded through memory ([chain], [dlist]), as the
      books and tiers keep them.
    - [Config]: constants of config_amd64.hpp and metadata.hpp; the predicates
      on a [micron::__chunk], which is not in the repository, as the class
      [ChunkOps] with the laws [ChunkLaws].
    - The buddy list: [Buddy] (free_list.hpp), [Tiling] (how blocks tile a
      region), [BuddyInv], [BuddyOps], [BuddyWf], [BuddyFree], [BuddyReach],
      [BuddyInit], [BuddySpec] (the invariant and what each operation does to
      it), [BuddyProps] (its properties).
    - The two-level list: [Tlsf] (cache_list.hpp), [TlsfClass] (the class
      arithmetic), [TlsfInv], [TlsfOps], [TlsfFind], [TlsfWf], [TlsfSpec],
      [TlsfProps].
    - [Tcache]: the three caches of freed blocks (tcache.hpp).
    - [Mpsc]: the queue of frees from other threads (mpsc_free.hpp), as a step
      relation with one step for an atomic operation.
    - [VaReserve], [Owner], [Hooks]: the address-space reservation
      (va_reserve.hpp), which arena owns an address (sheet_header.hpp), getting
      and releasing kernel chunks (hooks.hpp, __sys.hpp).
    - [Book]: the interface between a sheet and its book, operations and laws;
      [BuddyBook] and [TlsfBook] prove the laws.  [Sheet], [TlsfSheet],
      [SheetProps]: the class templates of book.hpp over that interface.
    - [Tier]: the index of sheets of arena.hpp ([__tier]).
    - [Predict], [Harden], [Stats], [External]: prediction.hpp, harden.hpp,
      stats.hpp, external.hpp.
    - [Kernel], [Meta], [Bucket], [Arena], [ArenaApi]: the rest of arena.hpp:
      outcomes and the process, the arena's metadata, what is a template over
      the tier, the functions that choose a tier, and the public members with
      constructor and destructor.
    - A tier at work: [Client] (what it means to own blocks), [BucketInv]
      (sheets behind an index, with the cache), [Ground] (the run of the
      reservation under each sheet), [Enlist] (a sheet enters the index),
      [BucketProps], [BucketFree] (serving and taking back), [MetaGrow] (blocks
      for nodes and sheet objects), [BucketGrow] (a tier gets a sheet),
      [BucketRun] (runs of a client), [BucketDemo] (a concrete tier, which
      witnesses them).
    - The arena at work: [ArenaInv] (five tiers over one metadata and one
      reservation; [focus] and [unfocus] move between the arena and a tier with
      a frame), [ArenaProps] (requests and frees find their tier), [ArenaGrow]
      ([__buf_expand_exact]), [ArenaStart] (the constructor), [ArenaRun] (runs of
      requests, frees and growth), [ArenaPublic] ([push], [pop], [ts_pop] and [resize]
      with predictor, hardening options and statistics), [ArenaRemote] (frees of other
      threads interleaved with the owner's calls), [RemoteDemo] (such a run).
    - [Tapi]: which thread has which arena (tapi.hpp), as a step relation with
      one step for an access to shared memory.
    - The doctor (doctor.hpp): [Ledger] (the table of records and the ring of
      events), [LedgerInv] (the table represents a map), [LedgerOps] (its
      operations on the map); [Doctor] (hooks, sweep, repair and fault handlers,
      over the interface [Allocator]), [DoctorProps] (histories of hooks, over
      [AllocatorLaws]); [Walk], [TlsfWalk], [BuddyWalk] (the walks over the
      books); [DoctorArena] (the members of the arena it calls, and the arena as
      an [Allocator]), [DoctorSweep] (what [fsck] answers), [DoctorDemo] (a
      doctor that runs).
    - [Malloc]: routing (tapi.hpp) and the public functions (malloc.hpp,
      malloc-c.hpp) over the arenas, one call at a time; [MallocProps];
      [ArenaDemo]: a whole heap that runs, from the first [malloc] on.

    ** State and outcomes

    A class is a record of its data members; a member function takes the record
    and returns it with the result.  Free memory that carries headers, links or
    tags is part of the record.  [None] (in a sheet and below) and [Abort] (in
    the arena) are a deliberate end of the process; [Stuck] is a null or
    dangling pointer that is followed.  The kernel's answers are arguments, in
    the arena a function from the number of the call ([Platform]).

    The memory of a book (headers, links, tags: [mem] of [buddy] and [tlsf]) and
    the bytes of the clients ([a_bytes] of [arena]) are separate maps.  So "no
    byte of a chunk is written" says that copies, scrubs, canaries and
    sanitizing stay out of it; that headers and links stay out of the chunks is
    what the theorems about the books say (their clients' bytes are kept in
    [mem]: [BuddyProps.allocate_correct], [TlsfProps.tlsf_allocate_correct]).
    And [Malloc.read_prefix] finds the bytes of clients in front of a pointer,
    where the source finds a book's header when the block is not over-aligned.

    ** What is shown

    - A book refines its abstract state: a map from blocks (or user pointers) to
      size and use.  A request gets a fresh, disjoint chunk or fails for a
      stated reason; a return takes exactly its block; what was split merges
      again; every reachable list is well formed.  Counters are exact until a
      tombstoned block is returned, which takes its bytes off twice
      ([BuddyProps.byte_counts_exact]).  A two-level list refuses the start of a
      free block; a pointer it has merged away it does not
      ([TlsfProps.tlsf_double_free_unnoticed]).
    - A sheet, proved once against [BookLaws]: marking, returning, tombstoning,
      and the way from the reservation and back.
    - A tier, proved against [BookLaws] and [FreeCacheLaws]: the index stays
      sorted and in step with its bitmap; requests are served and blocks taken
      back whatever path they take (cache, sheet, release of an emptied sheet,
      sweep of tombstones, return of the node to the metadata); a second free is
      caught when the block is cached or tombstoned; and in every run the chunks
      of the client never overlap ([BucketRun.tier_run_safe]).  A temporal block
      freed with its size goes to the cache while its sheet still shares it
      ([BucketFree.sized_free_shares_temporal]).
    - The arena: in a process that holds its reservation or gets it at its first
      request for memory, the constructor ends the process or returns a
      well-formed arena; where the reservation is refused it ends the process
      ([ArenaStart.arena_starts]); the retry of [__mark_arena] ends
      ([MetaGrow.mark_arena_returns]); whatever tiers serve and grow, chunks
      never overlap and every one is found and taken back
      ([ArenaRun.arena_run_safe]), through the public members as well, those
      that leave a tombstone included, which moreover write no byte of another
      chunk, keep the bytes of a resized one and answer what they are asked about
      a chunk truthfully ([ArenaPublic.arena_calls_safe]).  Assumed: the kernel
      refuses mappings outside the reservation ([Reserved]), laundering, canaries
      and the test of alignment are off, and the platform's curves give sizes a
      sheet may have ([initial_ok], [start_ok], [growable]: below 4 GiB for the
      tiers that keep sizes in 32 bits).
    - Frees by any number of threads, their accesses interleaved with the owner's
      calls in any way: a block on its way back is known to the arena and never
      handed out before it is back, and a drain removes every one of them, once
      and with the answer true ([ArenaRemote.remote_frees_safe]).  This covers
      [__remote_push], [__remote_release] and [__remote_drain] over the queue, for
      2^62 pushes.  A thread goes to the overflow list when its
      push found the ring full; the model lets it go there at any time.  The two
      words the list keeps in each of its blocks are not bytes of the model: they
      lie in blocks nobody holds.
    - Under sequential consistency no two living threads have one arena, and a
      claim on its own returns, in any interleaving of claims, exits, deaths and
      births in which no new thread gets the number of a dead one that another
      thread is about to exchange ([Tapi.harmless]); with such a birth the first
      fails ([Tapi.reused_number_shares_arena]).
    - An aligned block is aligned, long enough and found again from its prefix
      ([MallocProps.aligned_roundtrip]); the two [calloc] are the same.
    - The doctor, without rescue: its walks over books and arenas change nothing
      and report nothing exactly when the structure is sound, which what the
      operations leave is ([TlsfWalk.tlsf_walk_exact],
      [BuddyWalk.buddy_walk_exact], [DoctorArena.arena_walk_exact]); [fsck]
      answers 0 exactly when every record is true of its block
      ([DoctorSweep.fsck_exact]); through any history of hooks its hash table is
      a map that knows the live pointers ([DoctorProps.doctor_knows_live]).
      Assumed: canaries of the arena off, one thread, that the owner table has
      the granules of the sheets as the arena's ([granules_owned]).
    - The queue delivers every push once and in order in all interleavings; the
      caches are bags; ownership and the external registry are exact; canaries
      notice every changed byte; predictions cover the request.
    - Where the code does something else than it means to, a theorem says when,
      or an example computes it on a concrete input.

    ** Bounds and fuel

    Loops over orders, classes, words or slots recurse on the number of orders,
    classes, words or slots.  Loops along a list recurse on a bound for its
    length; the theorems show that the result is reached: [find_range] with one
    more than the number of entries, the scan of a bitmap word with 65 rounds
    (64 bits), [__mark_arena] with as many rounds as the metadata can have
    sheets and two.  The queue is modelled with its instance of 64 cells.

    ** Not modelled

    - Calls of several threads at once into the arenas, their frees onto the queue
      of another's arena apart: [Malloc] runs one call at a time and takes the choice of the pool as a parameter ([pick]), [Tapi]
      shows that the arenas of two threads differ.
    - Theorems about arenas whose sheets lie outside the reservation: the
      fallback of [__get_kernel_chunk] is modelled, and has its theorem
      ([Hooks.kernel_chunk_get]), but the theorems about tiers and arenas assume
      that it fails ([Reserved]).
    - Theorems about freezing, whole-sheet reset and the destructor of the arena:
      these are modelled in [ArenaApi] and their parts have theorems (the sheet's
      operations), their composition has none.
    - Of the doctor: what it prints and the reports that are text only, the
      signal handler and the reads it guards (a read that faults has no answer
      here), colours, thread names and the list of signals.
    - The inspector (inspect.hpp), which publishes object layouts; printing;
      debug output.
    - The floating-point growth curves of hooks.hpp and the shares of check_oom,
      computed with a library outside the repository: parameters.
    - The other configurations, and the third-party benchmark harness. *)

From stdpp Require Export base gmap list numbers fin_maps relations.
From Stdlib Require Export ZArith Lia.

#[export] Set Default Goal Selector "!".
#[global] Open Scope Z_scope.

(** ** Machine integers

    A w-bit unsigned integer is a [Z]; arithmetic that can leave the range is
    wrapped explicitly with [u8], [u32] or [u64]. *)

Definition u8 (z : Z) : Z := z mod 2 ^ 8.
Definition u32 (z : Z) : Z := z mod 2 ^ 32.
Definition u64 (z : Z) : Z := z mod 2 ^ 64.

(** [numeric_limits<usize>::max()] on a 64-bit target *)
Definition usize_max : Z := 2 ^ 64 - 1.

Lemma u64_small z : 0 <= z < 2 ^ 64 -> u64 z = z.
Proof. apply Z.mod_small. Qed.

Lemma u64_wrapped z r : r = z + 2 ^ 64 -> 0 <= r < 2 ^ 64 -> u64 z = r.
Proof. intros -> Hr. unfold u64. symmetry. apply Z.mod_unique with (-1); lia. Qed.

Lemma u32_small z : 0 <= z < 2 ^ 32 -> u32 z = z.
Proof. apply Z.mod_small. Qed.

Lemma u8_small z : 0 <= z < 2 ^ 8 -> u8 z = z.
Proof. apply Z.mod_small. Qed.

Lemma u64_range z : 0 <= u64 z < 2 ^ 64.
Proof. apply Z.mod_pos_bound. lia. Qed.

Lemma u32_range z : 0 <= u32 z < 2 ^ 32.
Proof. apply Z.mod_pos_bound. lia. Qed.

(** [abc]: facts of the library that close side conditions; the words that
    cannot wrap are rewritten with [autorewrite]. *)
Create HintDb abc.
#[export] Hint Resolve u64_range u32_range : abc.
#[export] Hint Rewrite u64_small u32_small u8_small using (unfold usize_max in *; lia) : abc.

(** ** Bit operations

    [__builtin_clzll], [__builtin_ctzll] and [__builtin_ctz]; the C builtins
    are undefined at 0, where these return 64 (resp. 0): no caller below uses
    that value. *)

Definition clzll (v : Z) : Z := if v =? 0 then 64 else 63 - Z.log2 v.

Fixpoint ctz_pos (p : positive) : Z :=
  match p with
  | xO q => 1 + ctz_pos q
  | _ => 0
  end.

Definition ctz (v : Z) : Z :=
  match v with
  | Zpos p => ctz_pos p
  | _ => 0
  end.

(** [x |= 1 << i] and [x &= ~(1 << i)] *)
Definition bit_set (x i : Z) : Z := Z.lor x (Z.shiftl 1 i).
Definition bit_clr (x i : Z) : Z := Z.ldiff x (Z.shiftl 1 i).

(** [(v + a - 1) & ~(a - 1)] on [usize] *)
Definition align_up (v a : Z) : Z := Z.ldiff (u64 (v + a - 1)) (a - 1).

Lemma testbit_one_shiftl i j :
  0 <= i -> 0 <= j -> Z.testbit (Z.shiftl 1 i) j = (i =? j).
Proof.
  intros Hi Hj. rewrite Z.shiftl_1_l by lia.
  destruct (Z.eqb_spec i j) as [->|Hne].
  - by apply Z.pow2_bits_true.
  - by apply Z.pow2_bits_false.
Qed.

Lemma testbit_bit_set x i j :
  0 <= i -> 0 <= j -> Z.testbit (bit_set x i) j = (Z.testbit x j || (i =? j)).
Proof. intros. unfold bit_set. by rewrite Z.lor_spec, testbit_one_shiftl. Qed.

Lemma testbit_bit_clr x i j :
  0 <= i -> 0 <= j ->
  Z.testbit (bit_clr x i) j = (Z.testbit x j && negb (i =? j)).
Proof. intros. unfold bit_clr. by rewrite Z.ldiff_spec, testbit_one_shiftl. Qed.

Lemma nonneg_bits_below x n :
  0 <= x -> 0 <= n -> (forall i, n <= i -> Z.testbit x i = false) -> x < 2 ^ n.
Proof.
  intros Hx Hn Hb. destruct (Z.eq_dec x 0) as [->|Hz].
  { apply Z.pow_pos_nonneg; lia. }
  apply Z.log2_lt_pow2; [lia|].
  destruct (Z.lt_ge_cases (Z.log2 x) n) as [|Hge]; [done|].
  specialize (Hb (Z.log2 x) Hge).
  rewrite Z.bit_log2 in Hb by lia. done.
Qed.

Lemma testbit_above x n i :
  0 <= x < 2 ^ n -> n <= i -> Z.testbit x i = false.
Proof.
  intros [H0 H1] Hi.
  destruct (Z.eq_dec x 0) as [->|Hz]; [apply Z.bits_0|].
  destruct (Z.lt_ge_cases n 0) as [Hn|Hn].
  { rewrite Z.pow_neg_r in H1 by done. lia. }
  apply Z.bits_above_log2; [done|].
  assert (Z.log2 x < n); [|lia]. apply Z.log2_lt_pow2; lia.
Qed.

Lemma bit_set_range x i n : 0 <= x < 2 ^ n -> 0 <= i < n -> 0 <= bit_set x i < 2 ^ n.
Proof.
  intros Hx Hi. unfold bit_set.
  assert (0 <= Z.shiftl 1 i) by (apply Z.shiftl_nonneg; lia).
  assert (0 <= Z.lor x (Z.shiftl 1 i)) by (apply Z.lor_nonneg; lia).
  split; [done|]. apply nonneg_bits_below; [done|lia|].
  intros j Hj. rewrite Z.lor_spec, testbit_one_shiftl by lia.
  rewrite (testbit_above x n) by lia. apply Z.eqb_neq. lia.
Qed.

Lemma bit_clr_range x i n : 0 <= x < 2 ^ n -> 0 <= i -> 0 <= n -> 0 <= bit_clr x i < 2 ^ n.
Proof.
  intros Hx Hi Hn. unfold bit_clr.
  assert (0 <= Z.ldiff x (Z.shiftl 1 i)) by (apply Z.ldiff_nonneg; lia).
  split; [done|]. apply nonneg_bits_below; [done|lia|].
  intros j Hj. rewrite Z.ldiff_spec, (testbit_above x n) by lia. done.
Qed.

Lemma ctz_pos_spec p :
  0 <= ctz_pos p /\ Z.testbit (Zpos p) (ctz_pos p) = true /\
  forall i, 0 <= i < ctz_pos p -> Z.testbit (Zpos p) i = false.
Proof.
  induction p as [p IH|p IH|].
  - repeat split; [done|]. intros i Hi. simpl in Hi. lia.
  - destruct IH as (Hnn & Ht & Hlo). cbn [ctz_pos].
    repeat split; [lia| |].
    + replace (1 + ctz_pos p) with (Z.succ (ctz_pos p)) by lia.
      change (Zpos (xO p)) with (2 * Zpos p).
      rewrite Z.double_bits_succ. done.
    + intros i Hi. change (Zpos (xO p)) with (2 * Zpos p).
      destruct (Z.eq_dec i 0) as [->|Hi0].
      { apply Z.testbit_even_0. }
      replace i with (Z.succ (i - 1)) by lia.
      rewrite Z.double_bits_succ. apply Hlo. lia.
  - repeat split; [done|]. intros i Hi. simpl in Hi. lia.
Qed.

Lemma ctz_spec v :
  0 < v ->
  0 <= ctz v /\ Z.testbit v (ctz v) = true /\
  forall i, 0 <= i < ctz v -> Z.testbit v i = false.
Proof. intros Hv. destruct v as [|p|p]; try lia. apply ctz_pos_spec. Qed.

Lemma ctz_lt v n : 0 < v < 2 ^ n -> ctz v < n.
Proof.
  intros [H0 H1]. destruct (ctz_spec v H0) as (? & Ht & _).
  destruct (Z.lt_ge_cases (ctz v) n) as [|Hge]; [done|].
  rewrite (testbit_above v n) in Ht by lia. done.
Qed.

Lemma nonzero_has_bit v : 0 <= v -> v <> 0 -> exists i, 0 <= i /\ Z.testbit v i = true.
Proof.
  intros Hv Hne. exists (Z.log2 v). split; [apply Z.log2_nonneg|].
  apply Z.bit_log2. lia.
Qed.

Lemma zero_of_bits v : 0 <= v -> (forall i, 0 <= i -> Z.testbit v i = false) -> v = 0.
Proof.
  intros Hv Hb. destruct (Z.eq_dec v 0) as [|Hne]; [done|].
  destruct (nonzero_has_bit v Hv Hne) as (i & Hi & Ht). by rewrite Hb in Ht.
Qed.

(** Rounding: [x & ~(2^k - 1)] clears the low [k] bits, [x & (2^k - 1)] keeps
    them. *)
Lemma land_mask x k : 0 <= k -> Z.land x (2 ^ k - 1) = x mod 2 ^ k.
Proof.
  intros Hk. rewrite <- Z.land_ones by done. f_equal. rewrite Z.ones_equiv. lia.
Qed.

Lemma ldiff_mask x k : 0 <= k -> Z.ldiff x (2 ^ k - 1) = 2 ^ k * (x / 2 ^ k).
Proof.
  intros Hk. replace (2 ^ k - 1) with (Z.ones k) by (rewrite Z.ones_equiv; lia).
  rewrite Z.ldiff_ones_r, Z.shiftl_mul_pow2, Z.shiftr_div_pow2 by done. lia.
Qed.

Lemma align_up_pow2 v k :
  0 <= k -> 0 <= v -> v + 2 ^ k - 1 < 2 ^ 64 ->
  align_up v (2 ^ k) = 2 ^ k * ((v + 2 ^ k - 1) / 2 ^ k).
Proof.
  intros Hk Hv Hlt. unfold align_up.
  assert (0 < 2 ^ k) by (apply Z.pow_pos_nonneg; lia).
  rewrite u64_small by lia. by apply ldiff_mask.
Qed.

Lemma align_up_bounds v k :
  0 <= k -> 0 <= v -> v + 2 ^ k - 1 < 2 ^ 64 ->
  v <= align_up v (2 ^ k) < v + 2 ^ k /\ align_up v (2 ^ k) mod 2 ^ k = 0.
Proof.
  intros Hk Hv Hlt. rewrite align_up_pow2 by done.
  assert (0 < 2 ^ k) by (apply Z.pow_pos_nonneg; lia).
  pose proof (Z.div_mod (v + 2 ^ k - 1) (2 ^ k) ltac:(lia)).
  pose proof (Z.mod_pos_bound (v + 2 ^ k - 1) (2 ^ k) ltac:(lia)).
  split; [lia|]. rewrite Z.mul_comm. apply Z.mod_mul. lia.
Qed.

Lemma clzll_pos v : 0 < v -> clzll v = 63 - Z.log2 v.
Proof. intros. unfold clzll. destruct (Z.eqb_spec v 0); lia. Qed.

(** Case analysis on the integer comparisons of the goal and the context *)
Ltac case_b :=
  match goal with
  | |- context [?x =? ?y] => destruct (Z.eqb_spec x y)
  | |- context [?x <? ?y] => destruct (Z.ltb_spec x y)
  | |- context [?x <=? ?y] => destruct (Z.leb_spec x y)
  | H : context [?x =? ?y] |- _ => destruct (Z.eqb_spec x y)
  | H : context [?x <? ?y] |- _ => destruct (Z.ltb_spec x y)
  | H : context [?x <=? ?y] |- _ => destruct (Z.leb_spec x y)
  end; try lia; cbn [andb orb negb] in *.

(** The same for the goal only *)
Ltac case_g :=
  match goal with
  | |- context [?x =? ?y] => destruct (Z.eqb_spec x y)
  | |- context [?x <? ?y] => destruct (Z.ltb_spec x y)
  | |- context [?x <=? ?y] => destruct (Z.leb_spec x y)
  end; try lia; cbn [andb orb negb].

(** [~0u << n], the mask of the bits from [n] of a 32-bit word *)
Definition ones_from (n : Z) : Z := u32 (Z.shiftl (2 ^ 32 - 1) n).

Lemma testbit_ones_from n i :
  0 <= n <= 32 -> 0 <= i -> Z.testbit (ones_from n) i = (n <=? i) && (i <? 32).
Proof.
  intros Hn Hi. unfold ones_from, u32. rewrite <- Z.land_ones by lia.
  rewrite Z.land_spec, Z.shiftl_spec by lia.
  replace (2 ^ 32 - 1) with (Z.ones 32) by done. rewrite !Z.testbit_ones by lia.
  repeat case_g; done.
Qed.

Lemma masked_zero x n i :
  0 <= x -> 0 <= n <= 32 -> Z.land x (ones_from n) = 0 -> n <= i < 32 -> Z.testbit x i = false.
Proof.
  intros Hx Hn E Hi. assert (H : Z.testbit (Z.land x (ones_from n)) i = false)
    by (by rewrite E, Z.bits_0).
  rewrite Z.land_spec, testbit_ones_from in H by lia. revert H.
  repeat case_g; cbn [andb]. by rewrite andb_true_r.
Qed.

Lemma masked_ctz x n :
  0 <= x -> 0 <= n <= 32 -> Z.land x (ones_from n) <> 0 ->
  let c := ctz (Z.land x (ones_from n)) in n <= c < 32 /\ Z.testbit x c = true.
Proof.
  intros Hx Hn Hne c. assert (H0 : 0 <= Z.land x (ones_from n)) by (apply Z.land_nonneg; lia).
  destruct (ctz_spec (Z.land x (ones_from n)) ltac:(lia)) as (Hc0 & Hc & _). fold c in Hc0, Hc.
  rewrite Z.land_spec, testbit_ones_from in Hc by lia.
  apply andb_true_iff in Hc as [Hx' Hc]. split; [lia|done].
Qed.

(** ** Total cell maps

    [zmap] is both a region of memory, keyed by the byte address at which a
    field starts, and a C array, keyed by the index.  A cell never written
    reads 0, which is what an anonymous mapping and a zero-initialised array
    hold. *)

Abbreviation zmap := (gmap Z Z).

Definition rd (m : zmap) (a : Z) : Z := default 0 (m !! a).
Definition wr (m : zmap) (a v : Z) : zmap := <[a := v]> m.

Lemma rd_wr m a v b : rd (wr m a v) b = if a =? b then v else rd m b.
Proof.
  unfold rd, wr. destruct (Z.eqb_spec a b) as [->|Hne].
  - by rewrite lookup_insert_eq.
  - by rewrite lookup_insert_ne.
Qed.

Lemma rd_wr_eq m a v : rd (wr m a v) a = v.
Proof. by rewrite rd_wr, Z.eqb_refl. Qed.

Lemma rd_wr_ne m a v b : a <> b -> rd (wr m a v) b = rd m b.
Proof. intros Hne. rewrite rd_wr. by apply Z.eqb_neq in Hne as ->. Qed.

Lemma rd_empty a : rd ∅ a = 0.
Proof. done. Qed.

(** [memset(a, v, n)] over byte cells *)
Fixpoint fill (m : zmap) (a : Z) (n : nat) (v : Z) : zmap :=
  match n with
  | O => m
  | S n' => fill (wr m a v) (a + 1) n' v
  end.

Lemma rd_fill n : forall m a v b,
  rd (fill m a n v) b = if (a <=? b) && (b <? a + Z.of_nat n) then v else rd m b.
Proof.
  induction n as [|n IH]; intros m a v b; cbn [fill].
  - repeat case_b; done.
  - rewrite IH, rd_wr. repeat case_b; done.
Qed.

(** Read-over-write: rewrite every read of a written cell whose address is
    decided by [lia]. *)
Ltac cells :=
  repeat first
    [ rewrite rd_wr_eq
    | rewrite rd_wr_ne by lia ].


(** [memcpy(dst, src, n)] between disjoint ranges, cell by cell *)
Fixpoint memcpy (m : zmap) (dst src : Z) (n : nat) : zmap :=
  match n with
  | O => m
  | S n' => wr (memcpy m dst src n') (dst + Z.of_nat n') (rd m (src + Z.of_nat n'))
  end.

Lemma rd_memcpy n : forall m d s a,
  rd (memcpy m d s n) a = if (d <=? a) && (a <? d + Z.of_nat n) then rd m (s + (a - d)) else rd m a.
Proof.
  induction n as [|n IH]; intros m d s a; cbn [memcpy].
  - repeat case_b; done.
  - rewrite rd_wr, IH. repeat case_b; try done. f_equal. lia.
Qed.

(** ** Sums over finite maps

    [msum w B] adds the weights of the entries of [B]: the blocks of a region
    keyed by position, weighed by their size. *)

Section Msum.
Context {X : Type}.
Implicit Types (w : X -> Z) (B : gmap Z X).

Definition msum w B : Z := map_fold (fun _ x acc => w x + acc) 0 B.

Lemma msum_insert w B i x : B !! i = None -> msum w (<[i := x]> B) = w x + msum w B.
Proof.
  intros Hi. unfold msum. rewrite map_fold_insert_L; [done| |done]. intros. lia.
Qed.

Lemma msum_delete w B i x : B !! i = Some x -> msum w B = w x + msum w (delete i B).
Proof.
  intros Hi. rewrite <- (msum_insert w (delete i B) i x) by apply lookup_delete_eq.
  by rewrite insert_delete_id.
Qed.

Lemma msum_update w B i x y :
  B !! i = Some x -> msum w (<[i := y]> B) = msum w B - w x + w y.
Proof.
  intros Hi. rewrite <- insert_delete_eq, msum_insert by apply lookup_delete_eq.
  rewrite (msum_delete w B i x) by done. lia.
Qed.

Lemma msum_mono w w' B :
  (forall i x, B !! i = Some x -> 0 <= w x <= w' x) -> 0 <= msum w B <= msum w' B.
Proof.
  induction B as [|i x B Hi IH] using map_ind; intros Hw; [done|].
  rewrite !msum_insert by done. pose proof (Hw i x (lookup_insert_eq _ _ _)).
  assert (0 <= msum w B <= msum w' B); [|lia].
  apply IH. intros j y Hj. apply (Hw j y). rewrite lookup_insert_ne; [done|]. congruence.
Qed.

Lemma msum_ext w w' B : (forall i x, B !! i = Some x -> w x = w' x) -> msum w B = msum w' B.
Proof.
  induction B as [|i x B Hi IH] using map_ind; intros Hw; [done|]. rewrite !msum_insert by done.
  rewrite (Hw i x) by apply lookup_insert_eq. f_equal. apply IH. intros j y Hj. apply (Hw j).
  rewrite lookup_insert_ne; [done|congruence].
Qed.

Lemma msum_nonneg w B : (forall i x, B !! i = Some x -> 0 <= w x) -> 0 <= msum w B.
Proof.
  induction B as [|i x B Hi IH] using map_ind; intros Hw; [done|]. rewrite msum_insert by done.
  pose proof (Hw i x (lookup_insert_eq _ _ _)).
  assert (0 <= msum w B); [|lia]. apply IH. intros j y Hj. apply (Hw j). rewrite lookup_insert_ne by congruence. done.
Qed.

(** A sum of nonnegative weights is 0 only when every weight is. *)
Lemma msum_zero w B i x :
  (forall i x, B !! i = Some x -> 0 <= w x) -> msum w B = 0 -> B !! i = Some x -> w x = 0.
Proof.
  intros Hw H0 Hi. rewrite (msum_delete _ _ _ _ Hi) in H0. pose proof (Hw i x Hi).
  assert (0 <= msum w (delete i B)); [|lia]. apply msum_nonneg. intros j y [_ Hj]%lookup_delete_Some. by apply (Hw j).
Qed.

Lemma msum_add w w' B : msum (fun x => w x + w' x) B = msum w B + msum w' B.
Proof.
  induction B as [|i x B Hi IH] using map_ind; [done|]. rewrite !msum_insert by done. lia.
Qed.

(** Two maps that agree on the entries of non-zero weight have the same sum. *)
Lemma msum_agree w B B' :
  (forall i x, w x <> 0 -> B !! i = Some x <-> B' !! i = Some x) -> msum w B = msum w B'.
Proof.
  assert (Hf : forall C, msum w C = msum w (filter (fun ix => w ix.2 <> 0) C)).
  { intros C. induction C as [|i x C Hi IH] using map_ind; [done|].
    rewrite msum_insert by done. destruct (decide (w x = 0)) as [Hz|Hz].
    - rewrite map_filter_insert_not'; [rewrite <- IH; lia|cbn; by intros []|].
      intros y Hy. congruence.
    - rewrite map_filter_insert_True by done. rewrite msum_insert; [lia|].
      apply map_lookup_filter_None. by left. }
  intros H. rewrite (Hf B), (Hf B'). f_equal. apply map_eq. intros i. apply option_eq. intros x.
  rewrite !map_lookup_filter_Some. cbn. split; intros [Hi Hx]; (split; [|done]); by apply (H i x Hx).
Qed.

(** Pieces that cover [lo, hi) exactly and do not overlap add up to it. *)
Lemma msum_cover (sz : X -> Z) lo hi : lo <= hi -> forall B,
  (forall i x, B !! i = Some x -> lo <= i /\ 0 < sz x /\ i + sz x <= hi) ->
  (forall i x i' x', B !! i = Some x -> B !! i' = Some x' -> i <> i' ->
    i + sz x <= i' \/ i' + sz x' <= i) ->
  (forall j, lo <= j < hi -> exists i x, B !! i = Some x /\ i <= j < i + sz x) ->
  msum sz B = hi - lo.
Proof.
  intros Hle. assert (Hn : 0 <= hi - lo) by lia. revert Hle.
  replace hi with (lo + (hi - lo)) by lia. generalize dependent (hi - lo).
  intros n Hn. pattern n. apply Zlt_0_ind; [|done]. clear n Hn.
  intros n IH Hn _ B Hr Hd Hc. destruct (Z.eq_dec n 0) as [->|Hn0].
  - destruct (map_eq_dec_empty B) as [->|Hne]; [unfold msum; rewrite map_fold_empty; lia|].
    apply map_choose in Hne as (i & x & Hi). destruct (Hr _ _ Hi). lia.
  - destruct (Hc (lo + n - 1)) as (i & x & Hi & Hj); [lia|].
    destruct (Hr _ _ Hi) as (Hi0 & Hs & Hend). rewrite (msum_delete _ B i x Hi).
    assert (Hlk : forall j y, delete i B !! j = Some y -> B !! j = Some y /\ j + sz y <= i).
    { intros j y [Hij Hj']%lookup_delete_Some. split; [done|].
      destruct (Hr _ _ Hj') as (? & ? & ?). destruct (Hd _ _ _ _ Hi Hj' Hij); lia. }
    rewrite (IH (i - lo)); [lia|lia|lia| | |].
    + intros j y Hj'. destruct (Hlk _ _ Hj'). destruct (Hr j y) as (? & ? & _); [done|]. lia.
    + intros j1 y1 j2 y2 H1 H2. apply Hd; by apply Hlk.
    + intros j Hj'. destruct (Hc j ltac:(lia)) as (a & y & Ha & Hra).
      exists a, y. split; [|done]. rewrite lookup_delete_ne; [done|]. intros <-. lia.
Qed.
End Msum.
