(* ===== verification/Intrusive.v ===== *)
(** * Intrusive linked lists in a cell memory

    The allocators thread their free lists through the free memory itself: a
    node is an address, the link is the cell at a fixed offset from it.  This
    file holds the list predicates both allocators use and the lemmas for the
    three updates they make: push at the head, pop the head, unlink inside. *)

From S2P Require Import Prelude.

(** [lseg m off h l t]: following the [off]-links from [h] visits exactly the
    nodes [l] and arrives at [t]. *)
Fixpoint lseg (m : zmap) (off h : Z) (l : list Z) (t : Z) : Prop :=
  match l with
  | [] => h = t
  | x :: l' => h = x /\ x <> 0 /\ lseg m off (rd m (x + off)) l' t
  end.

(** A null-terminated list. *)
Definition chain (m : zmap) (off h : Z) (l : list Z) : Prop := lseg m off h l 0.

(** [backs m off p l]: the [off]-link of each node of [l] points at the node
    before it, [p] being before the first. *)
Fixpoint backs (m : zmap) (off p : Z) (l : list Z) : Prop :=
  match l with
  | [] => True
  | x :: l' => rd m (x + off) = p /\ backs m off x l'
  end.

(** The node before what follows [l], when [p] precedes [l]. *)
Fixpoint last_of (p : Z) (l : list Z) : Z :=
  match l with
  | [] => p
  | x :: l' => last_of x l'
  end.

Lemma lseg_app m off h l1 l2 t :
  lseg m off h (l1 ++ l2) t <-> exists u, lseg m off h l1 u /\ lseg m off u l2 t.
Proof.
  revert h. induction l1 as [|x l1 IH]; intros h; simpl.
  - split; [eauto|]. intros (u & -> & H). done.
  - rewrite IH. naive_solver.
Qed.

Lemma lseg_frame m m' off h l t :
  (forall x, x ∈ l -> rd m' (x + off) = rd m (x + off)) ->
  lseg m off h l t -> lseg m' off h l t.
Proof.
  revert h. induction l as [|x l IH]; intros h Hf; simpl; [done|].
  intros (-> & Hx & Hl). split; [done|]. split; [done|].
  rewrite Hf by set_solver. apply IH; [|done]. set_solver.
Qed.

Lemma backs_frame m m' off p l :
  (forall x, x ∈ l -> rd m' (x + off) = rd m (x + off)) ->
  backs m off p l -> backs m' off p l.
Proof.
  revert p. induction l as [|x l IH]; intros p Hf; simpl; [done|].
  intros (Hp & Hl). rewrite Hf by set_solver. split; [done|].
  apply IH; [|done]. set_solver.
Qed.

Lemma backs_app m off p l1 l2 :
  backs m off p (l1 ++ l2) <-> backs m off p l1 /\ backs m off (last_of p l1) l2.
Proof.
  revert p. induction l1 as [|x l1 IH]; intros p; simpl; [tauto|].
  rewrite IH. tauto.
Qed.

Lemma last_of_snoc p l x : last_of p (l ++ [x]) = x.
Proof. revert p. induction l as [|y l IH]; intros p; simpl; auto. Qed.

Lemma last_of_in p l : last_of p l = p \/ last_of p l ∈ l.
Proof.
  revert p. induction l as [|y l IH]; intros p; simpl; [by left|].
  destruct (IH y) as [->|H]; right; set_solver.
Qed.

Lemma lseg_nonzero m off h l t x : lseg m off h l t -> x ∈ l -> x <> 0.
Proof.
  revert h. induction l as [|y l IH]; intros h; simpl; [set_solver|].
  intros (-> & Hy & Hl) [->|Hx]%elem_of_cons; [done|]. eauto.
Qed.

Lemma chain_nil m off l : chain m off 0 l -> l = [].
Proof. destruct l as [|x l]; [done|]. intros (<- & Hx & _). done. Qed.

Lemma chain_cons m off h l :
  chain m off h l -> h <> 0 -> exists l', l = h :: l' /\ chain m off (rd m (h + off)) l'.
Proof.
  destruct l as [|x l']; [intros Hc Hh; by cbn in Hc|].
  intros (-> & Hx & Hl) _. eauto.
Qed.

Lemma chain_head_in m off h l : chain m off h l -> h <> 0 -> h ∈ l.
Proof. intros Hc Hh. destruct (chain_cons _ _ _ _ Hc Hh) as (l' & -> & _). set_solver. Qed.

(** The nodes reached from a head are determined by the memory. *)
Lemma chain_inj m off h l l' : chain m off h l -> chain m off h l' -> l = l'.
Proof.
  revert h l'. induction l as [|x l IH]; intros h l' Hl Hl'.
  - cbn in Hl. subst. symmetry. by eapply chain_nil.
  - destruct Hl as (-> & Hx & Hl). destruct l' as [|y l'].
    + cbn in Hl'. done.
    + destruct Hl' as (<- & _ & Hl'). f_equal. by eapply IH.
Qed.

(** Unlinking: if the predecessor's link (or the head) now skips [x], the
    rest is unchanged. *)
Lemma chain_unlink m m' off h p l1 x l2 :
  chain m off h (l1 ++ p :: x :: l2) -> p ∉ l1 -> p ∉ l2 ->
  rd m' (p + off) = rd m (x + off) ->
  (forall y, y ∈ l1 ++ l2 -> rd m' (y + off) = rd m (y + off)) ->
  chain m' off h (l1 ++ p :: l2).
Proof.
  unfold chain. rewrite !lseg_app. intros (u & H1 & H2) Hp1 Hp2 Hlink Hf.
  exists u. split.
  - apply lseg_frame with m; [|done]. intros y Hy. apply Hf. set_solver.
  - destruct H2 as (-> & Hp & Hx & Hx0 & H2). simpl. split; [done|]. split; [done|].
    rewrite Hlink. apply lseg_frame with m; [|done]. intros y Hy. apply Hf. set_solver.
Qed.

Lemma backs_unlink m m' off q l1 x l2 :
  backs m off q (l1 ++ x :: l2) ->
  (forall y l3, l2 = y :: l3 -> rd m' (y + off) = last_of q l1) ->
  (forall y, y ∈ l1 \/ y ∈ tail l2 -> rd m' (y + off) = rd m (y + off)) ->
  backs m' off q (l1 ++ l2).
Proof.
  rewrite !backs_app. intros [H1 H2] Hy Hf. split.
  - apply backs_frame with m; [|done]. intros y Hy1. apply Hf. by left.
  - destruct l2 as [|y l3]; [done|]. destruct H2 as (_ & _ & H2). simpl.
    split; [by eapply Hy|]. apply backs_frame with m; [|done].
    intros z Hz. apply Hf. by right.
Qed.

(** The back link of an inner node is the node before it, and that node's
    forward link is the inner node. *)
Lemma lseg_next_of m off h l1 p x l2 t :
  lseg m off h (l1 ++ p :: x :: l2) t -> rd m (p + off) = x.
Proof.
  rewrite lseg_app. intros (u & _ & H). destruct H as (_ & _ & H & _). done.
Qed.

Lemma lseg_next_last m off h l1 x l2 t :
  lseg m off h (l1 ++ x :: l2) t ->
  rd m (x + off) = match l2 with [] => t | y :: _ => y end.
Proof.
  rewrite lseg_app. intros (u & _ & -> & _ & H). destruct l2; simpl in H; [done|].
  by destruct H.
Qed.

Lemma backs_of m off p l1 x l2 :
  backs m off p (l1 ++ x :: l2) -> rd m (x + off) = last_of p l1.
Proof. rewrite backs_app. intros [_ [H _]]. done. Qed.

(** Any member of a list splits it. *)
Lemma elem_split (x : Z) l : x ∈ l -> NoDup l ->
  exists l1 l2, l = l1 ++ x :: l2 /\ x ∉ l1 /\ x ∉ l2.
Proof.
  intros Hx Hnd. apply list_elem_of_split in Hx as (l1 & l2 & ->).
  exists l1, l2. apply NoDup_app in Hnd as (_ & Hd & Hnd).
  apply NoDup_cons in Hnd as [Hx2 _]. split; [done|]. split; [|done].
  intros Hx1. eapply Hd; [done|]. set_solver.
Qed.

(** ** Lists as sets of nodes

    The doubly linked list from [h] (next at offset 0, prev at offset 8) holds
    exactly the addresses that satisfy [P].  The back link of the head is
    never read and is left unconstrained. *)

Definition hbacks (m : zmap) (l : list Z) : Prop :=
  match l with [] => True | x :: t => backs m 8 x t end.

Definition flist (m : zmap) (h : Z) (P : Z -> Prop) : Prop :=
  exists l, chain m 0 h l /\ NoDup l /\ hbacks m l /\ forall a, a ∈ l <-> P a.

(** The singly linked list from [h] holds exactly the [n] addresses of [P]. *)
Definition slist (m : zmap) (h n : Z) (P : Z -> Prop) : Prop :=
  exists l, chain m 0 h l /\ NoDup l /\ Z.of_nat (length l) = n /\ forall a, a ∈ l <-> P a.

Lemma flist_frame m m' h (P P' : Z -> Prop) :
  flist m h P -> (forall a, P a <-> P' a) ->
  (forall a, P a -> rd m' (a + 0) = rd m (a + 0)) ->
  (forall a, P a -> rd m' (a + 8) = rd m (a + 8)) ->
  flist m' h P'.
Proof.
  intros (l & Hc & Hnd & Hb & HP) HPP H0 H8. exists l. split; [|split; [done|split]].
  - apply lseg_frame with m; [|done]. intros x Hx. by apply H0, HP.
  - destruct l as [|x t]; [done|]. apply backs_frame with m; [|done].
    intros y Hy. apply H8, HP. set_solver.
  - intros a. by rewrite HP.
Qed.

Lemma slist_frame m m' h n (P P' : Z -> Prop) :
  slist m h n P -> (forall a, P a <-> P' a) ->
  (forall a, P a -> rd m' (a + 0) = rd m (a + 0)) ->
  slist m' h n P'.
Proof.
  intros (l & Hc & Hnd & Hn & HP) HPP H0. exists l. repeat split; try done.
  - apply lseg_frame with m; [|done]. intros x Hx. by apply H0, HP.
  - intros Ha. by apply HPP, HP.
  - intros Ha. by apply HP, HPP.
Qed.

Lemma flist_nonzero m h P a : flist m h P -> P a -> a <> 0.
Proof. intros (l & Hc & _ & _ & HP) Ha. eapply lseg_nonzero; [exact Hc|]. by apply HP. Qed.

Lemma flist_head m h P : flist m h P -> h <> 0 -> P h.
Proof. intros (l & Hc & _ & _ & HP) Hh. apply HP. by eapply chain_head_in. Qed.

Lemma flist_empty m h P a : flist m h P -> P a -> h <> 0.
Proof.
  intros (l & Hc & _ & _ & HP) Ha ->. apply chain_nil in Hc as ->.
  apply HP in Ha. set_solver.
Qed.

Lemma flist_null m P : (forall a, ~ P a) -> flist m 0 P.
Proof.
  intros H. exists []. repeat split; try done; [by apply NoDup_nil|set_solver|].
  intros Ha. by destruct (H a).
Qed.

(** Push: the new node links to the old head, which links back. *)
Lemma flist_push m m' h a P :
  flist m h P -> a <> 0 -> ~ P a ->
  rd m' (a + 0) = h -> (h <> 0 -> rd m' (h + 8) = a) ->
  (forall x, P x -> rd m' (x + 0) = rd m (x + 0)) ->
  (forall x, P x -> x <> h -> rd m' (x + 8) = rd m (x + 8)) ->
  flist m' a (fun x => x = a \/ P x).
Proof.
  intros (l & Hc & Hnd & Hb & HP) Ha HPa Hn Hp H0 H8. exists (a :: l).
  split; [|split; [|split]].
  - simpl. split; [done|]. split; [done|]. rewrite Hn.
    apply lseg_frame with m; [|done]. intros x Hx. by apply H0, HP.
  - apply NoDup_cons. split; [|done]. by rewrite HP.
  - destruct l as [|y t]; [done|]. destruct Hc as (-> & Hy & _). simpl.
    split; [by apply Hp|]. apply NoDup_cons in Hnd as [Hy' _].
    apply backs_frame with m; [|done]. intros x Hx. apply H8; [apply HP; set_solver|].
    set_solver.
  - intros x. rewrite elem_of_cons, HP. done.
Qed.

(** Pop: the successor of the head becomes the head. *)
Lemma flist_pop m h P :
  flist m h P -> h <> 0 -> flist m (rd m (h + 0)) (fun x => P x /\ x <> h).
Proof.
  intros (l & Hc & Hnd & Hb & HP) Hh.
  destruct (chain_cons _ _ _ _ Hc Hh) as (t & -> & Hc'). exists t.
  apply NoDup_cons in Hnd as [Hh' Hnd]. split; [done|]. split; [done|]. split.
  - destruct t as [|y t]; [done|]. by destruct Hb.
  - intros a. rewrite <- HP, elem_of_cons. set_solver.
Qed.

(** The neighbours of an inner node. *)
Lemma flist_inner m h P a :
  flist m h P -> P a -> h <> a ->
  let p := rd m (a + 8) in
  let n := rd m (a + 0) in
  (P p /\ p <> a /\ rd m (p + 0) = a) /\
  (n <> 0 -> P n /\ n <> a /\ n <> p /\ n <> h /\ rd m (n + 8) = a).
Proof.
  intros (l & Hc & Hnd & Hb & HP) Ha Hne p n. apply HP in Ha.
  destruct (elem_split a l Ha Hnd) as (l1 & l2 & -> & Hl1 & Hl2).
  destruct l1 as [|x l1 _] using rev_ind.
  { destruct Hc as (-> & _). done. }
  rewrite <- (assoc_L (++)) in *. cbn in *.
  assert (Hp : p = x).
  { subst p. destruct l1 as [|y l1]; cbn in Hb; [by destruct Hb|].
    replace (l1 ++ x :: a :: l2) with ((l1 ++ [x]) ++ a :: l2) in Hb
      by (by rewrite <- (assoc_L (++))).
    apply backs_of in Hb. by rewrite last_of_snoc in Hb. }
  assert (Hx : rd m (x + 0) = a) by (by eapply lseg_next_of).
  assert (Hn : n = match l2 with [] => 0 | y :: _ => y end).
  { subst n. eapply (lseg_next_last m 0 h (l1 ++ [x])). rewrite <- (assoc_L (++)). exact Hc. }
  split.
  - rewrite Hp. split; [apply HP; set_solver|]. split; [set_solver|done].
  - intros Hn0. destruct l2 as [|y l2]; [done|]. rewrite Hn, Hp.
    split; [apply HP; set_solver|]. split; [set_solver|].
    assert (Hyx : y <> x).
    { intros ->. apply NoDup_app in Hnd as (_ & _ & Hnd).
      rewrite !NoDup_cons in Hnd. set_solver. }
    split; [done|]. split.
    + intros ->. destruct l1 as [|z l1]; destruct Hc as (Hz & _); cbn in *; [done|].
      subst z. rewrite NoDup_cons in Hnd. set_solver.
    + destruct l1 as [|z l1]; cbn in Hb; [tauto|].
      replace (l1 ++ x :: a :: y :: l2) with ((l1 ++ [x; a]) ++ y :: l2) in Hb
        by (by rewrite <- (assoc_L (++))).
      apply backs_of in Hb. by replace (l1 ++ [x; a]) with ((l1 ++ [x]) ++ [a]) in Hb
        by (by rewrite <- (assoc_L (++))); rewrite last_of_snoc in Hb.
Qed.

(** Unlink an inner node: its neighbours are linked to each other. *)
Lemma flist_unlink m m' h P a :
  flist m h P -> P a -> h <> a ->
  let p := rd m (a + 8) in
  let n := rd m (a + 0) in
  rd m' (p + 0) = n -> (n <> 0 -> rd m' (n + 8) = p) ->
  (forall x, P x -> x <> a -> x <> p -> rd m' (x + 0) = rd m (x + 0)) ->
  (forall x, P x -> x <> a -> x <> n -> rd m' (x + 8) = rd m (x + 8)) ->
  flist m' h (fun x => P x /\ x <> a).
Proof.
  intros HF Ha Hne p n Hp' Hn' H0 H8.
  destruct (flist_inner m h P a HF Ha Hne) as ((Hpp & Hpa & Hpn) & Hnn).
  fold p in Hpp, Hpa, Hpn. fold n in Hnn. fold p in Hnn.
  destruct HF as (l & Hc & Hnd & Hb & HP).
  pose proof (proj2 (HP a) Ha) as Hain. destruct (elem_split a l Hain Hnd) as (l1 & l2 & -> & Hl1 & Hl2).
  destruct l1 as [|x l1 _] using rev_ind; [destruct Hc as (-> & _); done|].
  assert (Hn : n = match l2 with [] => 0 | y :: _ => y end)
    by (subst n; eapply (lseg_next_last m 0 h (l1 ++ [x])); exact Hc).
  rewrite <- (assoc_L (++)) in *. cbn in *.
  assert (Hx : x = p).
  { subst p. destruct l1 as [|z l1]; cbn in Hb; [by destruct Hb|].
    replace (l1 ++ x :: a :: l2) with ((l1 ++ [x]) ++ a :: l2) in Hb
      by (by rewrite <- (assoc_L (++))).
    apply backs_of in Hb. by rewrite last_of_snoc in Hb. }
  subst x.
  assert (Hmem : forall y, y ∈ l1 \/ y ∈ l2 -> P y /\ y <> a /\ y <> p).
  { intros y Hy. split; [apply HP; set_solver|].
    apply NoDup_app in Hnd as (_ & Hd & Hnd). rewrite !NoDup_cons in Hnd.
    split; [set_solver|]. intros ->. destruct Hy; [|set_solver].
    apply (Hd p); set_solver. }
  assert (Hnd2 : NoDup (l1 ++ p :: l2)).
  { apply NoDup_app in Hnd as (Hnd1 & Hd & Hnd). rewrite !NoDup_cons in Hnd.
    apply NoDup_app. split; [done|]. split; [set_solver|].
    apply NoDup_cons. set_solver. }
  exists (l1 ++ p :: l2). split; [|split; [done|split]].
  - apply chain_unlink with m a; try done.
    + intros Hy. by destruct (Hmem p (or_introl Hy)) as (_ & _ & []).
    + intros Hy. by destruct (Hmem p (or_intror Hy)) as (_ & _ & []).
    + intros y Hy. apply elem_of_app in Hy. apply H0; by apply Hmem.
  - (* the back links after [p] *)
    assert (Hb2 : forall q l0, l1 ++ [p] = q :: l0 -> backs m 8 q (l0 ++ a :: l2) ->
      backs m' 8 q (l0 ++ l2)).
    { intros q l0 El0 Hbq. apply backs_unlink with m a; [done| |].
      - intros y l3 ->. rewrite Hn in Hn'. rewrite Hn'.
        + destruct l0 as [|w l0 _] using rev_ind; [destruct l1 as [|? [|]]; cbn in El0 |- *; congruence|].
          rewrite last_of_snoc.
          assert (Hl : last (l1 ++ [p]) = last (q :: l0 ++ [w])) by (by rewrite El0).
          rewrite last_snoc in Hl. change (q :: l0 ++ [w]) with ((q :: l0) ++ [w]) in Hl.
          rewrite last_snoc in Hl. congruence.
        + eapply lseg_nonzero; [exact Hc|]. set_solver.
      - intros y Hy.
        assert (Hyn : P y /\ y <> a /\ y <> n).
        { destruct Hy as [Hy|Hy].
          - assert (y ∈ q :: l0) as Hy1 by set_solver. rewrite <- El0 in Hy1.
            split; [apply HP; set_solver|]. split.
            { intros ->. apply NoDup_app in Hnd as (_ & Hd & Hnd). rewrite !NoDup_cons in Hnd.
              apply elem_of_app in Hy1 as [Hy1|Hy1]; [apply (Hd a); set_solver|set_solver]. }
            rewrite Hn. destruct l2 as [|w l2].
            { intros ->. eapply (lseg_nonzero _ _ _ _ _ 0 Hc); [set_solver|done]. }
            intros ->. apply NoDup_app in Hnd2 as (_ & Hd & Hnd2). rewrite !NoDup_cons in Hnd2.
            apply elem_of_app in Hy1 as [Hy1|Hy1]; [apply (Hd w); set_solver|set_solver].
          - destruct l2 as [|w l2]; [set_solver|]. cbn in Hy.
            destruct (Hmem y) as (? & ? & _); [set_solver|]. split; [done|]. split; [done|].
            rewrite Hn. intros ->. apply NoDup_app in Hnd2 as (_ & _ & Hnd2).
            rewrite !NoDup_cons in Hnd2. set_solver. }
        apply H8; apply Hyn. }
    destruct l1 as [|z l1]; cbn in Hb |- *.
    + by apply (Hb2 p []).
    + replace (l1 ++ p :: l2) with ((l1 ++ [p]) ++ l2) by (by rewrite <- (assoc_L (++))).
      apply (Hb2 z); [done|]. rewrite <- (assoc_L (++)). exact Hb.
  - intros y. rewrite <- HP. split.
    + intros Hy. split; [set_solver|]. apply elem_of_app in Hy as [Hy|Hy]; [by apply Hmem; left|].
      apply elem_of_cons in Hy as [->|Hy]; [done|]. by apply Hmem; right.
    + set_solver.
Qed.

Lemma slist_push m m' h n a P :
  slist m h n P -> a <> 0 -> ~ P a -> rd m' (a + 0) = h ->
  (forall x, P x -> rd m' (x + 0) = rd m (x + 0)) ->
  slist m' a (n + 1) (fun x => x = a \/ P x).
Proof.
  intros (l & Hc & Hnd & Hn & HP) Ha HPa Hh H0. exists (a :: l).
  split; [|split; [|split]].
  - simpl. split; [done|]. split; [done|]. rewrite Hh.
    apply lseg_frame with m; [|done]. intros x Hx. by apply H0, HP.
  - apply NoDup_cons. by rewrite HP.
  - cbn [length]. lia.
  - intros x. by rewrite elem_of_cons, HP.
Qed.

Lemma slist_pop m h n P :
  slist m h n P -> h <> 0 ->
  P h /\ 0 < n /\ slist m (rd m (h + 0)) (n - 1) (fun x => P x /\ x <> h).
Proof.
  intros (l & Hc & Hnd & Hn & HP) Hh.
  destruct (chain_cons _ _ _ _ Hc Hh) as (t & -> & Hc').
  apply NoDup_cons in Hnd as [Hh' Hnd]. cbn [length] in Hn.
  split; [apply HP; set_solver|]. split; [lia|]. exists t.
  split; [done|]. split; [done|]. split; [lia|].
  intros a. rewrite <- HP, elem_of_cons. set_solver.
Qed.

Lemma slist_zero m h n P : slist m h n P -> (h = 0 <-> n = 0).
Proof.
  intros (l & Hc & Hnd & Hn & HP). split.
  - intros ->. apply chain_nil in Hc as ->. done.
  - intros ->. destruct l; cbn in *; [by symmetry|lia].
Qed.

Lemma slist_null m P : (forall a, ~ P a) -> slist m 0 0 P.
Proof.
  intros H. exists []. repeat split; try done; [by apply NoDup_nil|set_solver|].
  intros Ha. by destruct (H a).
Qed.

Lemma slist_nonneg m h n P : slist m h n P -> 0 <= n.
Proof. intros (l & _ & _ & <- & _). lia. Qed.

(** The number of nodes is determined by the nodes. *)
Lemma slist_count m h n P m' h' n' P' :
  slist m h n P -> slist m' h' n' P' -> (forall a, P a <-> P' a) -> n = n'.
Proof.
  intros (l & _ & Hnd & <- & HP) (l' & _ & Hnd' & <- & HP') HPP. f_equal.
  apply Permutation_length, NoDup_Permutation; [done|done|].
  intros a. by rewrite HP, HP', HPP.
Qed.

(** ** Doubly linked lists with a null back link at the head

    [dlist m fwd bck h P]: the list from [h], linked by the cells at offset
    [fwd] and back-linked by those at [bck], holds exactly the addresses of
    [P]; the head's back link is null. *)

Definition dlist (m : zmap) (fwd bck h : Z) (P : Z -> Prop) : Prop :=
  exists l, chain m fwd h l /\ NoDup l /\ backs m bck 0 l /\ forall a, a ∈ l <-> P a.

Section Dlist.
Context (fwd bck : Z).

Lemma dlist_frame m m' h (P P' : Z -> Prop) :
  dlist m fwd bck h P -> (forall a, P a <-> P' a) ->
  (forall a, P a -> rd m' (a + fwd) = rd m (a + fwd) /\ rd m' (a + bck) = rd m (a + bck)) ->
  dlist m' fwd bck h P'.
Proof.
  intros (l & Hc & Hnd & Hb & HP) HPP H. exists l. split_and!; try done.
  - apply lseg_frame with m; [|done]. intros x Hx. by apply H, HP.
  - apply backs_frame with m; [|done]. intros x Hx. by apply H, HP.
  - intros a. by rewrite HP.
Qed.

Lemma dlist_head m h P : dlist m fwd bck h P -> h <> 0 -> P h /\ rd m (h + bck) = 0.
Proof.
  intros (l & Hc & _ & Hb & HP) Hh. destruct (chain_cons _ _ _ _ Hc Hh) as (t & -> & _).
  split; [apply HP; set_solver|]. by destruct Hb.
Qed.

Lemma dlist_empty m h P a : dlist m fwd bck h P -> P a -> h <> 0.
Proof.
  intros (l & Hc & _ & _ & HP) Ha ->. apply chain_nil in Hc as ->.
  apply HP in Ha. set_solver.
Qed.

Lemma dlist_nonzero m h P a : dlist m fwd bck h P -> P a -> a <> 0.
Proof. intros (l & Hc & _ & _ & HP) Ha. eapply lseg_nonzero; [exact Hc|]. by apply HP. Qed.

Lemma dlist_null m P : (forall a, ~ P a) -> dlist m fwd bck 0 P.
Proof.
  intros H. exists []. split_and!; try done; [by apply NoDup_nil|].
  intros a. split; [set_solver|]. intros Ha. by destruct (H a).
Qed.

Lemma dlist_push m m' h a P :
  dlist m fwd bck h P -> a <> 0 -> ~ P a ->
  rd m' (a + fwd) = h -> rd m' (a + bck) = 0 -> (h <> 0 -> rd m' (h + bck) = a) ->
  (forall x, P x -> rd m' (x + fwd) = rd m (x + fwd)) ->
  (forall x, P x -> x <> h -> rd m' (x + bck) = rd m (x + bck)) ->
  dlist m' fwd bck a (fun x => x = a \/ P x).
Proof.
  intros (l & Hc & Hnd & Hb & HP) Ha HPa Hn Hz Hp H0 H8. exists (a :: l).
  split; [|split; [|split]].
  - simpl. split; [done|]. split; [done|]. rewrite Hn.
    apply lseg_frame with m; [|done]. intros x Hx. by apply H0, HP.
  - apply NoDup_cons. split; [|done]. by rewrite HP.
  - simpl. split; [done|]. destruct l as [|y t]; [done|]. destruct Hc as (-> & Hy & _).
    destruct Hb as [_ Hb]. split; [by apply Hp|]. apply NoDup_cons in Hnd as [Hy' _].
    apply backs_frame with m; [|done]. intros x Hx. apply H8; [apply HP; set_solver|].
    set_solver.
  - intros x. by rewrite elem_of_cons, HP.
Qed.

(** Linking a node behind the last one, [tl] *)
Lemma dlist_append m m' h tl a P :
  dlist m fwd bck h P -> P tl -> rd m (tl + fwd) = 0 -> a <> 0 -> ~ P a ->
  rd m' (tl + fwd) = a -> rd m' (a + fwd) = 0 -> rd m' (a + bck) = tl ->
  (forall x, P x -> x <> tl -> rd m' (x + fwd) = rd m (x + fwd)) ->
  (forall x, P x -> rd m' (x + bck) = rd m (x + bck)) ->
  dlist m' fwd bck h (fun x => x = a \/ P x).
Proof.
  intros (l & Hc & Hnd & Hb & HP) Htl Hlast Ha HPa Hn Hz Hp H0 H8.
  apply HP in Htl. destruct (elem_split tl l Htl Hnd) as (l1 & l2 & -> & Hl1 & Hl2).
  assert (l2 = []) as ->.
  { pose proof (lseg_next_last _ _ _ _ _ _ _ Hc) as E. rewrite Hlast in E. destruct l2 as [|y l2]; [done|].
    exfalso. apply (lseg_nonzero _ _ _ _ _ y Hc); [set_solver|done]. }
  unfold chain in Hc. rewrite lseg_app in Hc. destruct Hc as (u & Hc & -> & Ht0 & _). rewrite backs_app in Hb. destruct Hb as [Hb [Hbt _]].
  assert (Hmem : forall x, x ∈ l1 -> P x /\ x <> tl) by (intros x Hx; split; [apply HP; set_solver|by intros ->]).
  exists ((l1 ++ [tl]) ++ [a]). split_and!.
  - unfold chain. rewrite lseg_app. exists a. split.
    + rewrite lseg_app. exists tl. split; [apply lseg_frame with m; [|done]; intros x Hx; by apply H0; apply Hmem|]. by split_and!.
    + by split_and!.
  - apply NoDup_app. split_and!; [done| |by apply NoDup_singleton]. intros x Hx Hxa. apply list_elem_of_singleton in Hxa as ->. by apply HPa, HP.
  - rewrite !backs_app. split; [split|].
    + apply backs_frame with m; [|done]. intros x Hx. by apply H8, Hmem.
    + split; [|done]. by rewrite H8 by (apply HP; set_solver).
    + rewrite last_of_snoc. by split.
  - intros x. rewrite elem_of_app, HP, list_elem_of_singleton. tauto.
Qed.

(** Popping the head: its successor becomes the head and loses its back link. *)
Lemma dlist_pop m m' h P :
  dlist m fwd bck h P -> h <> 0 ->
  let n := rd m (h + fwd) in
  (n <> 0 -> rd m' (n + bck) = 0) ->
  (forall x, P x -> x <> h -> rd m' (x + fwd) = rd m (x + fwd)) ->
  (forall x, P x -> x <> h -> x <> n -> rd m' (x + bck) = rd m (x + bck)) ->
  dlist m' fwd bck n (fun x => P x /\ x <> h).
Proof.
  intros (l & Hc & Hnd & Hb & HP) Hh n Hn H0 H8.
  destruct (chain_cons _ _ _ _ Hc Hh) as (t & -> & Hc'). exists t.
  apply NoDup_cons in Hnd as [Hh' Hnd].
  assert (Ht : forall x, x ∈ t -> P x /\ x <> h).
  { intros x Hx. split; [apply HP; set_solver|]. intros ->. done. }
  split; [|split; [done|split]].
  - apply lseg_frame with m; [|done]. intros x Hx. by apply H0; apply Ht.
  - destruct Hb as [_ Hb]. destruct t as [|y t]; [done|]. destruct Hc' as (En & Hy & _).
    destruct Hb as [_ Hb]. split; [subst n; rewrite En in Hn; by apply Hn|].
    apply NoDup_cons in Hnd as [Hy' _].
    apply backs_frame with m; [|done]. intros x Hx. destruct (Ht x ltac:(set_solver)).
    apply H8; try done. subst n. rewrite En. intros ->. done.
  - intros a. rewrite <- HP, elem_of_cons. split; [intros Ha|].
    + destruct (Ht a Ha). auto.
    + by intros [[->|] ?].
Qed.

(** A member's back link is null exactly at the head; elsewhere it is the
    member before, whose forward link is the node. *)
Lemma dlist_inner m h P a :
  dlist m fwd bck h P -> P a ->
  let p := rd m (a + bck) in
  let n := rd m (a + fwd) in
  (p = 0 -> h = a) /\
  (p <> 0 -> h <> a /\ P p /\ p <> a /\ rd m (p + fwd) = a) /\
  (n <> 0 -> P n /\ n <> a /\ n <> p /\ n <> h /\ rd m (n + bck) = a).
Proof.
  intros (l & Hc & Hnd & Hb & HP) Ha p n. apply HP in Ha.
  destruct (elem_split a l Ha Hnd) as (l1 & l2 & -> & Hl1 & Hl2).
  assert (Hp : p = last_of 0 l1) by (by eapply backs_of).
  assert (Hn : n = match l2 with [] => 0 | y :: _ => y end) by (by eapply lseg_next_last).
  assert (Hnz : forall x, x ∈ l1 ++ a :: l2 -> x <> 0) by (intros x; by eapply lseg_nonzero).
  assert (Hh : forall x t, l1 = x :: t -> h = x).
  { intros x t ->. by destruct Hc as (-> & _). }
  split; [|split].
  - intros Hz. destruct l1 as [|x l1 _] using rev_ind; [by destruct Hc as (-> & _)|].
    rewrite last_of_snoc in Hp. exfalso. apply (Hnz x); [set_solver|congruence].
  - intros Hpz. destruct l1 as [|x l1 _] using rev_ind; [by cbn in Hp|].
    rewrite last_of_snoc in Hp. rewrite Hp. split; [|split; [|split]].
    + destruct l1 as [|z l1]; [rewrite (Hh x []) by done|rewrite (Hh z (l1 ++ [x])) by done]; set_solver.
    + apply HP. set_solver.
    + set_solver.
    + rewrite <- (assoc_L (++)) in Hc. cbn in Hc. by eapply lseg_next_of.
  - intros Hnz'. destruct l2 as [|y l2]; [done|]. rewrite Hn.
    apply NoDup_app in Hnd as (_ & Hd & Hnd). rewrite !NoDup_cons in Hnd.
    split; [apply HP; set_solver|]. split; [set_solver|]. split; [|split].
    + rewrite Hp. destruct l1 as [|x l1 _] using rev_ind; [cbn; apply Hnz; set_solver|].
      rewrite last_of_snoc. intros <-. apply (Hd y); set_solver.
    + destruct l1 as [|z l1]; [destruct Hc as (-> & _); set_solver|].
      rewrite (Hh z l1) by done. intros <-. apply (Hd y); set_solver.
    + replace (l1 ++ a :: y :: l2) with ((l1 ++ [a]) ++ y :: l2) in Hb by (by rewrite <- (assoc_L (++))).
      apply backs_of in Hb. by rewrite last_of_snoc in Hb.
Qed.

(** Unlinking any member: the head moves if the member was the head. *)
Lemma dlist_remove m m' h P a :
  dlist m fwd bck h P -> P a ->
  let p := rd m (a + bck) in
  let n := rd m (a + fwd) in
  (p <> 0 -> rd m' (p + fwd) = n) -> (n <> 0 -> rd m' (n + bck) = p) ->
  (forall x, P x -> x <> a -> x <> p -> rd m' (x + fwd) = rd m (x + fwd)) ->
  (forall x, P x -> x <> a -> x <> n -> rd m' (x + bck) = rd m (x + bck)) ->
  dlist m' fwd bck (if p =? 0 then n else h) (fun x => P x /\ x <> a).
Proof.
  intros HD Ha p n Hp' Hn' H0 H8.
  destruct (dlist_inner m h P a HD Ha) as (Hz & Hnz & _). fold p in Hz, Hnz.
  destruct (Z.eqb_spec p 0) as [Ep|Ep].
  - rewrite (Hz Ep) in HD. pose proof (dlist_nonzero _ _ _ _ HD Ha) as Ha0.
    apply (dlist_pop m m' a P HD Ha0).
    + intros Hn. etransitivity; [by apply Hn'|done].
    + intros x Hx Hxa. apply H0; [done|done|]. rewrite Ep. by eapply dlist_nonzero.
    + intros x Hx Hxa Hxn. by apply H8.
  - destruct (Hnz Ep) as (Hne & HPp & Hpa & Hpn).
    destruct HD as (l & Hc & Hnd & Hb & HP). pose proof (proj2 (HP a) Ha) as Hain.
    destruct (elem_split a l Hain Hnd) as (l1 & l2 & -> & Hl1 & Hl2).
    assert (El : last_of 0 l1 = p) by (symmetry; by eapply backs_of).
    assert (En : n = match l2 with [] => 0 | y :: _ => y end) by (by eapply lseg_next_last).
    assert (En0 : n = rd m (a + fwd)) by done. clearbody p n.
    destruct l1 as [|x l1 _] using rev_ind; [cbn in El; congruence|].
    rewrite last_of_snoc in El. rewrite El in *. clear El x.
    assert (Hoth : forall y, y ∈ l1 \/ y ∈ l2 -> P y /\ y <> a /\ y <> p).
    { intros y Hy. split; [apply HP; set_solver|]. split; [set_solver|].
      apply NoDup_app in Hnd as (Hnd1 & Hd & Hnd). apply NoDup_app in Hnd1 as (_ & Hd1 & _).
      rewrite NoDup_cons in Hnd. intros ->. destruct Hy; [apply (Hd1 p)|apply (Hd p)]; set_solver. }
    exists ((l1 ++ [p]) ++ l2). split; [|split; [|split]].
    + rewrite <- (assoc_L (++)) in *. apply chain_unlink with m a; try done.
      * intros Hy. by destruct (Hoth p (or_introl Hy)) as (_ & _ & []).
      * intros Hy. by destruct (Hoth p (or_intror Hy)) as (_ & _ & []).
      * rewrite <- En0. by apply Hp'.
      * intros y Hy. apply elem_of_app in Hy. by apply H0; apply Hoth.
    + apply NoDup_app in Hnd as (Hnd1 & Hd & Hnd). apply NoDup_cons in Hnd as [_ Hnd].
      apply NoDup_app. split; [done|]. split; [|done]. intros y Hy Hy2. apply (Hd y); set_solver.
    + apply backs_unlink with m a; [done| |].
      * intros y l3 ->. rewrite last_of_snoc. rewrite <- En. apply Hn'. rewrite En.
        eapply lseg_nonzero; [exact Hc|]. set_solver.
      * intros y Hy. assert (Hya : P y /\ y <> a).
        { destruct Hy as [Hy|Hy].
          - apply elem_of_app in Hy as [Hy|Hy%list_elem_of_singleton]; [|by subst].
            by split; apply Hoth; left.
          - assert (y ∈ l2) as Hy2 by (destruct l2; set_solver). by split; apply Hoth; right. }
        apply H8; [apply Hya|apply Hya|]. rewrite En. destruct l2 as [|w l2].
        { intros ->. eapply (lseg_nonzero _ _ _ _ _ 0 Hc); [|done].
          destruct Hy as [Hy|Hy]; [set_solver|set_solver]. }
        intros ->. apply NoDup_app in Hnd as (_ & Hd & Hnd). rewrite !NoDup_cons in Hnd.
        destruct Hy as [Hy|Hy]; [apply (Hd w); set_solver|cbn in Hy; set_solver].
    + intros y. rewrite <- HP. split.
      * intros Hy. split; [set_solver|]. apply elem_of_app in Hy as [Hy|Hy].
        -- apply elem_of_app in Hy as [Hy|Hy%list_elem_of_singleton]; [by apply Hoth; left|by subst].
        -- by apply Hoth; right.
      * set_solver.
Qed.
End Dlist.
