(* ===== verification/Config.v ===== *)
(** * Compile-time configuration and shared metadata

    The constants of src/src/config_amd64.hpp and src/src/metadata.hpp, and
    the boundary with the micron library: the memory chunk type
    [micron::__chunk<byte>], whose predicates are not part of this
    repository and are therefore operations of a class with the documented
    behaviour as laws. *)

From S2P Require Import Prelude.

(** ** Size classes *)

Definition __class_arena_internal : Z := 1024.
Definition __class_precise_shift : Z := 8.
Definition __class_small_shift : Z := 9.
Definition __class_medium_shift : Z := 12.
Definition __class_large_shift : Z := 15.
Definition __class_huge_shift : Z := 18.
Definition __class_1mb_shift : Z := 20.
Definition __class_gb_shift : Z := 29.
Definition __class_precise : Z := Z.shiftl 1 __class_precise_shift.
Definition __class_small : Z := Z.shiftl 1 __class_small_shift.
Definition __class_medium : Z := Z.shiftl 1 __class_medium_shift.
Definition __class_large : Z := Z.shiftl 1 __class_large_shift.
Definition __class_huge : Z := Z.shiftl 1 __class_huge_shift.
Definition __class_1mb : Z := Z.shiftl 1 __class_1mb_shift.
Definition __class_gb : Z := Z.shiftl 1 __class_gb_shift.

(** [__system_pagesize] is [micron::page_size]; the configuration documents
    it as 4096 ("each page is 4096"). *)
Definition __system_pagesize : Z := 4096.

(** ** Block metadata (metadata.hpp) *)

(** [__hdr_offset = sizeof(micron::simd::i256)], a 256-bit vector *)
Definition __hdr_offset : Z := 32.

(** [enum block_flags : i32] *)
Definition __block_free : Z := 0.
Definition __block_alloc : Z := 1.
Definition __block_tombstone : Z := 2.
Definition __block_temporal : Z := 4.

(** [ret_flag]: a [micron::sentinel_pointer] is used as the [uintptr_t] it wraps *)
Abbreviation ret_flag := Z (only parsing).
Definition __flag_invalid : ret_flag := 0.
Definition __flag_failure : ret_flag := u64 (-1).
Definition __flag_out_of_space : ret_flag := u64 (-2).
Definition __flag_tombstoned : ret_flag := u64 (-3).
Definition __flag_ok : ret_flag := 1.

(** A flag test [flags & f] as the boolean C makes of it *)
Definition has_flag (flags f : Z) : bool := negb (Z.land flags f =? 0).

(** ** Memory chunks: [micron::__chunk<byte>] *)

Record chunk := Chunk { ptr : Z; len : Z }.

#[export] Instance chunk_eq_dec : EqDecision chunk.
Proof. solve_decision. Defined.

(** [{ nullptr, 0 }] *)
Definition null_chunk : chunk := Chunk 0 0.

(** [{ numeric_limits<byte *>::max(), 0xFF }], the loud failure of [try_mark] *)
Definition max_chunk : chunk := Chunk usize_max 255.

(** The predicates of [micron::__chunk] the allocator calls. *)
Class ChunkOps := {
  chunk_zero : chunk -> bool;
  chunk_invalid : chunk -> bool;
  chunk_failed_allocation : chunk -> bool
}.

(** What the allocator relies on: a null chunk is zero, a chunk with an
    address inside the address space and a length is neither zero nor invalid
    nor a failed allocation, and the loud failure value is recognised. *)
Class ChunkLaws `{ChunkOps} := {
  chunk_zero_null : chunk_zero null_chunk = true;
  chunk_valid_not_zero c : 0 < ptr c < usize_max -> 0 < len c -> chunk_zero c = false;
  chunk_valid_not_invalid c : 0 < ptr c < usize_max -> 0 < len c -> chunk_invalid c = false;
  chunk_valid_not_failed c :
    0 < ptr c < usize_max -> 0 < len c -> chunk_failed_allocation c = false;
  chunk_max_failed : chunk_failed_allocation max_chunk = true
}.

(** A concrete choice of the predicates, which witnesses that the laws are
    satisfiable and lets the examples compute. *)
Module PlainChunk.
#[export] Instance ops : ChunkOps := {|
  chunk_zero := fun c => (ptr c =? 0) || (len c =? 0);
  chunk_invalid := fun c => ptr c =? usize_max;
  chunk_failed_allocation := fun c => (ptr c =? usize_max) && (len c =? 255)
|}.

#[export] Instance laws : ChunkLaws.
Proof.
  split; cbn; try done; intros c Hp Hl.
  all: destruct (Z.eqb_spec (ptr c) 0), (Z.eqb_spec (len c) 0),
         (Z.eqb_spec (ptr c) usize_max); try lia; done.
Qed.
End PlainChunk.
