(* ===== verification/Tiling.v ===== *)
(** * Buddy tilings

    The ghost state of the buddy list: which power-of-two blocks the managed
    region is cut into and what each is used for.  Positions and sizes count
    smallest blocks; a block of order [o] at [i] covers [i, i + 2^o). *)

From S2P Require Import Prelude.

(** What a block is used for.  [BHole] is a block held by an operation in
    progress: taken off its list and not yet handed over. *)
Inductive bkind :=
  | BFree                       (* on the free list of its order *)
  | BAlloc (temporal : bool)    (* handed out by allocate / temporal_allocate *)
  | BTomb                       (* tombstoned *)
  | BCached                     (* parked in the temporal cache of its order *)
  | BHole.

#[export] Instance bkind_eq_dec : EqDecision bkind.
Proof. solve_decision. Defined.

Abbreviation blocks := (gmap Z (Z * bkind)).

(** The blocks [B] cut [0, 2^(mo-1)) into aligned power-of-two pieces. *)
Record tiling (mo : Z) (B : blocks) : Prop := {
  tl_mo : 1 <= mo;
  tl_range i o k : B !! i = Some (o, k) ->
    0 <= i /\ 0 <= o < mo /\ (2 ^ o | i) /\ i + 2 ^ o <= 2 ^ (mo - 1);
  tl_disj i o k i' o' k' : B !! i = Some (o, k) -> B !! i' = Some (o', k') ->
    i <> i' -> i + 2 ^ o <= i' \/ i' + 2 ^ o' <= i;
  tl_cover j : 0 <= j < 2 ^ (mo - 1) ->
    exists i o k, B !! i = Some (o, k) /\ i <= j < i + 2 ^ o
}.

(** The buddy of block [i] of order [o] *)
Definition buddy_ix (i o : Z) : Z := Z.lxor i (2 ^ o).

Lemma pow2_pos n : 0 <= n -> 0 < 2 ^ n.
Proof. intros. apply Z.pow_pos_nonneg; lia. Qed.

Lemma pow2_succ n : 0 <= n -> 2 ^ (n + 1) = 2 * 2 ^ n.
Proof. intros. rewrite Z.pow_add_r by lia. lia. Qed.

Lemma pow2_le a b : 0 <= a <= b -> 2 ^ a <= 2 ^ b.
Proof. intros. apply Z.pow_le_mono_r; lia. Qed.

Lemma pow2_divide a b : 0 <= a <= b -> (2 ^ a | 2 ^ b).
Proof.
  intros. exists (2 ^ (b - a)). rewrite <- Z.pow_add_r by lia. f_equal. lia.
Qed.

Lemma lxor_one q : Z.lxor q 1 = if Z.odd q then q - 1 else q + 1.
Proof.
  destruct (Z.odd q) eqn:E.
  - rewrite (Z.odd_spec q) in E. destruct E as [h ->].
    replace (2 * h + 1 - 1) with (2 * h) by lia.
    replace (2 * h + 1) with (Z.lxor (2 * h) 1); [by rewrite Z.lxor_assoc, Z.lxor_nilpotent, Z.lxor_0_r|].
    symmetry. rewrite <- Z.add_nocarry_lxor; [done|].
    apply Z.bits_inj'. intros n Hn. rewrite Z.land_spec, Z.bits_0.
    destruct (Z.eq_dec n 0) as [->|Hz]; [by rewrite Z.testbit_even_0|].
    rewrite (testbit_above 1 1) by lia. by rewrite andb_false_r.
  - rewrite <- Z.negb_even in E. apply negb_false_iff in E.
    apply Z.even_spec in E as [h ->].
    rewrite <- Z.add_nocarry_lxor; [done|].
    apply Z.bits_inj'. intros n Hn. rewrite Z.land_spec, Z.bits_0.
    destruct (Z.eq_dec n 0) as [->|Hz]; [by rewrite Z.testbit_even_0|].
    rewrite (testbit_above 1 1) by lia. by rewrite andb_false_r.
Qed.

Lemma lxor_mul_pow2 a b n : 0 <= n -> Z.lxor (a * 2 ^ n) (b * 2 ^ n) = Z.lxor a b * 2 ^ n.
Proof. intros. rewrite <- !Z.shiftl_mul_pow2 by lia. symmetry. apply Z.shiftl_lxor. Qed.

(** The buddy is the other half of the enclosing block of order [o + 1]. *)
Lemma buddy_cases i o :
  0 <= o -> (2 ^ o | i) ->
  ((2 ^ (o + 1) | i) /\ buddy_ix i o = i + 2 ^ o) \/
  ((2 ^ (o + 1) | i - 2 ^ o) /\ buddy_ix i o = i - 2 ^ o).
Proof.
  intros Ho [q ->]. unfold buddy_ix.
  replace (2 ^ o) with (1 * 2 ^ o) at 3 by lia.
  replace (Z.lxor (q * 2 ^ o) (2 ^ o)) with (Z.lxor (q * 2 ^ o) (1 * 2 ^ o)) by (f_equal; lia).
  rewrite lxor_mul_pow2, lxor_one by lia. rewrite pow2_succ by lia.
  destruct (Z.odd q) eqn:E.
  - right. apply Z.odd_spec in E as [h ->]. split; [exists h; lia|lia].
  - left. rewrite <- Z.negb_even in E. apply negb_false_iff in E.
    apply Z.even_spec in E as [h ->]. split; [exists h; lia|lia].
Qed.

Lemma buddy_ix_invol i o : buddy_ix (buddy_ix i o) o = i.
Proof. unfold buddy_ix. by rewrite Z.lxor_assoc, Z.lxor_nilpotent, Z.lxor_0_r. Qed.

(** Multiples of [2^o] that are closer than [2^o] coincide. *)
Lemma divide_close d a b : 0 < d -> (d | a) -> (d | b) -> a < b -> a + d <= b.
Proof.
  intros Hd [x ->] [y ->] H.
  assert (x < y) by (apply Z.mul_lt_mono_pos_r in H; lia).
  replace (x * d + d) with ((x + 1) * d) by lia. apply Z.mul_le_mono_nonneg_r; lia.
Qed.

Lemma buddy_range mo i o :
  0 <= o < mo - 1 -> 0 <= i -> (2 ^ o | i) -> i + 2 ^ o <= 2 ^ (mo - 1) ->
  0 <= buddy_ix i o /\ (2 ^ o | buddy_ix i o) /\ buddy_ix i o + 2 ^ o <= 2 ^ (mo - 1).
Proof.
  intros Ho Hi Hd Hr. pose proof (pow2_pos o ltac:(lia)).
  pose proof (pow2_succ o ltac:(lia)) as Hs.
  assert ((2 ^ (o + 1) | 2 ^ (mo - 1))) as Htop by (apply pow2_divide; lia).
  destruct (buddy_cases i o) as [[He ->]|[He ->]]; try done; try lia.
  - assert (i + 2 ^ (o + 1) <= 2 ^ (mo - 1)).
    { apply divide_close; try done; try lia. }
    split; [lia|]. split; [|lia]. apply Z.divide_add_r; [done|apply Z.divide_refl].
  - destruct (Z.eq_dec i 0) as [->|Hi0].
    { exfalso. destruct He as [h He]. rewrite Hs in He.
      assert (2 ^ o * (2 * h + 1) = 0) as [|]%Z.mul_eq_0 by lia; lia. }
    assert (2 ^ o <= i).
    { pose proof (divide_close (2 ^ o) 0 i ltac:(lia) (Z.divide_0_r _) Hd ltac:(lia)). lia. }
    split; [lia|]. split; [|lia]. apply Z.divide_sub_r; [done|apply Z.divide_refl].
Qed.

Section Tiling.
Context {mo : Z} {B : blocks} (HT : tiling mo B).

Lemma tl_pos i o k : B !! i = Some (o, k) -> 0 < 2 ^ o.
Proof. intros H. apply pow2_pos. apply (tl_range _ _ HT) in H. lia. Qed.

(** Inside a block there is no other block start. *)
Lemma tl_interior i o k j :
  B !! i = Some (o, k) -> i < j < i + 2 ^ o -> B !! j = None.
Proof.
  intros Hi Hj. destruct (B !! j) as [[o' k']|] eqn:E; [|done].
  pose proof (tl_pos _ _ _ E). pose proof (tl_disj _ _ HT _ _ _ _ _ _ Hi E). lia.
Qed.

(** The block that covers a position is unique. *)
Lemma tl_unique i o k i' o' k' j :
  B !! i = Some (o, k) -> B !! i' = Some (o', k') ->
  i <= j < i + 2 ^ o -> i' <= j < i' + 2 ^ o' -> i = i'.
Proof.
  intros Hi Hi' Hj Hj'. destruct (Z.eq_dec i i') as [|Hne]; [done|].
  destruct (tl_disj _ _ HT _ _ _ _ _ _ Hi Hi' Hne); lia.
Qed.

(** Changing what a block is used for. *)
Lemma tiling_recolor i o k k' :
  B !! i = Some (o, k) -> tiling mo (<[i := (o, k')]> B).
Proof.
  intros Hi. split.
  - apply HT.
  - intros j o1 k1 Hj. destruct (Z.eq_dec i j) as [->|Hne].
    + rewrite lookup_insert_eq in Hj. simplify_eq. by eapply (tl_range _ _ HT).
    + rewrite lookup_insert_ne in Hj by done. by eapply (tl_range _ _ HT).
  - intros j1 o1 k1 j2 o2 k2 H1 H2 Hne.
    assert (exists k1', B !! j1 = Some (o1, k1')) as [k1' H1'].
    { destruct (Z.eq_dec i j1) as [->|]; [rewrite lookup_insert_eq in H1|
        rewrite lookup_insert_ne in H1 by done]; simplify_eq; eauto. }
    assert (exists k2', B !! j2 = Some (o2, k2')) as [k2' H2'].
    { destruct (Z.eq_dec i j2) as [->|]; [rewrite lookup_insert_eq in H2|
        rewrite lookup_insert_ne in H2 by done]; simplify_eq; eauto. }
    by eapply (tl_disj _ _ HT).
  - intros j Hj. destruct (tl_cover _ _ HT j Hj) as (a & o1 & k1 & Ha & Hr).
    destruct (Z.eq_dec i a) as [->|Hne].
    + exists a, o, k'. rewrite lookup_insert_eq. simplify_eq. done.
    + exists a, o1, k1. by rewrite lookup_insert_ne.
Qed.

(** Cutting a block in two halves. *)
Lemma tiling_split i o k k1 k2 :
  0 <= o -> B !! i = Some (o + 1, k) ->
  tiling mo (<[i := (o, k1)]> (<[i + 2 ^ o := (o, k2)]> B)) /\ B !! (i + 2 ^ o) = None.
Proof.
  intros Ho Hi. pose proof (pow2_pos o Ho) as Hp. pose proof (pow2_succ o Ho) as Hs.
  destruct (tl_range _ _ HT _ _ _ Hi) as (Hi0 & Hor & Hdiv & Hend).
  assert (Hfree : B !! (i + 2 ^ o) = None) by (apply (tl_interior _ _ _ _ Hi); lia).
  assert (Hdo : (2 ^ o | i)).
  { eapply Z.divide_trans; [|exact Hdiv]. apply pow2_divide. lia. }
  (* a lookup in the new map is one of the halves or an old block elsewhere *)
  assert (Hlk : forall j oj kj,
    <[i := (o, k1)]> (<[i + 2 ^ o := (o, k2)]> B) !! j = Some (oj, kj) ->
    (j = i /\ oj = o) \/ (j = i + 2 ^ o /\ oj = o) \/
    (B !! j = Some (oj, kj) /\ (j + 2 ^ oj <= i \/ i + 2 ^ (o + 1) <= j))).
  { intros j oj kj Hj. destruct (Z.eq_dec j i) as [->|Hn1].
    { rewrite lookup_insert_eq in Hj. simplify_eq. auto. }
    rewrite lookup_insert_ne in Hj by done.
    destruct (Z.eq_dec j (i + 2 ^ o)) as [->|Hn2].
    { rewrite lookup_insert_eq in Hj. simplify_eq. auto. }
    rewrite lookup_insert_ne in Hj by done. right. right. split; [done|].
    destruct (tl_disj _ _ HT _ _ _ _ _ _ Hj Hi Hn1); auto. }
  split; [|done]. split.
  - apply HT.
  - intros j oj kj Hj. destruct (Hlk _ _ _ Hj) as [[-> ->]|[[-> ->]|[Hb _]]].
    + repeat split; done || lia.
    + repeat split; try lia. apply Z.divide_add_r; [done|apply Z.divide_refl].
    + by eapply (tl_range _ _ HT).
  - intros j1 o1 q1 j2 o2 q2 H1 H2 Hne.
    destruct (Hlk _ _ _ H1) as [[-> ->]|[[-> ->]|[Hb1 ?]]],
      (Hlk _ _ _ H2) as [[-> ->]|[[-> ->]|[Hb2 ?]]]; try lia.
    by eapply (tl_disj _ _ HT).
  - intros j Hj. destruct (tl_cover _ _ HT j Hj) as (a & oa & ka & Ha & Hr).
    destruct (Z.eq_dec a i) as [->|Hne].
    + rewrite Hi in Ha. simplify_eq. destruct (Z.lt_ge_cases j (i + 2 ^ o)).
      * exists i, o, k1. rewrite lookup_insert_eq. split; [done|lia].
      * exists (i + 2 ^ o), o, k2. rewrite lookup_insert_ne by lia.
        rewrite lookup_insert_eq. split; [done|lia].
    + exists a, oa, ka. rewrite lookup_insert_ne by done.
      rewrite lookup_insert_ne; [done|]. intros E. rewrite <- E in Ha. congruence.
Qed.

(** Joining a block and its buddy. *)
Lemma tiling_merge i o k k' kk :
  o < mo - 1 -> B !! i = Some (o, k) -> B !! (buddy_ix i o) = Some (o, k') ->
  let lo := Z.min i (buddy_ix i o) in
  let hi := Z.max i (buddy_ix i o) in
  tiling mo (<[lo := (o + 1, kk)]> (delete hi B)).
Proof.
  intros Hom Hi Hb lo hi.
  destruct (tl_range _ _ HT _ _ _ Hi) as (Hi0 & Hor & Hdiv & Hend).
  destruct (tl_range _ _ HT _ _ _ Hb) as (Hb0 & _ & _ & Hbend).
  pose proof (pow2_pos o ltac:(lia)) as Hp. pose proof (pow2_succ o ltac:(lia)) as Hs.
  assert (Hlohi : hi = lo + 2 ^ o /\ (2 ^ (o + 1) | lo) /\ 0 <= lo /\ hi + 2 ^ o <= 2 ^ (mo - 1) /\
    exists k1 k2, B !! lo = Some (o, k1) /\ B !! hi = Some (o, k2)).
  { subst lo hi. destruct (buddy_cases i o) as [[He E]|[He E]]; try done; try lia;
      rewrite E in *.
    - rewrite Z.min_l, Z.max_r by lia. repeat split; try done; try lia. eauto.
    - rewrite Z.min_r, Z.max_l by lia. repeat split; try done; try lia. eauto. }
  destruct Hlohi as (Ehi & Hdlo & Hlo0 & Hhiend & k1 & k2 & Hlo & Hhi).
  clearbody lo hi. subst hi.
  assert (Hlk : forall j oj kj,
    <[lo := (o + 1, kk)]> (delete (lo + 2 ^ o) B) !! j = Some (oj, kj) ->
    (j = lo /\ oj = o + 1) \/
    (B !! j = Some (oj, kj) /\ (j + 2 ^ oj <= lo \/ lo + 2 ^ (o + 1) <= j))).
  { intros j oj kj Hj. destruct (Z.eq_dec j lo) as [->|Hn1].
    { rewrite lookup_insert_eq in Hj. simplify_eq. auto. }
    rewrite lookup_insert_ne in Hj by done.
    destruct (Z.eq_dec j (lo + 2 ^ o)) as [->|Hn2].
    { by rewrite lookup_delete_eq in Hj. }
    rewrite lookup_delete_ne in Hj by done. right. split; [done|].
    destruct (tl_disj _ _ HT _ _ _ _ _ _ Hj Hlo Hn1);
      destruct (tl_disj _ _ HT _ _ _ _ _ _ Hj Hhi Hn2); try lia;
      pose proof (tl_pos _ _ _ Hj); lia. }
  split.
  - apply HT.
  - intros j oj kj Hj. destruct (Hlk _ _ _ Hj) as [[-> ->]|[Hbj _]].
    + repeat split; try done; lia.
    + by eapply (tl_range _ _ HT).
  - intros j1 o1 q1 j2 o2 q2 H1 H2 Hne.
    destruct (Hlk _ _ _ H1) as [[-> ->]|[Hb1 ?]],
      (Hlk _ _ _ H2) as [[-> ->]|[Hb2 ?]]; try lia.
    by eapply (tl_disj _ _ HT).
  - intros j Hj. destruct (tl_cover _ _ HT j Hj) as (a & oa & ka & Ha & Hr).
    destruct (Z.eq_dec a lo) as [->|Hn1]; [|destruct (Z.eq_dec a (lo + 2 ^ o)) as [->|Hn2]].
    + exists lo, (o + 1), kk. rewrite lookup_insert_eq. simplify_eq. split; [done|lia].
    + exists lo, (o + 1), kk. rewrite lookup_insert_eq. simplify_eq. split; [done|lia].
    + exists a, oa, ka. rewrite lookup_insert_ne, lookup_delete_ne by done. done.
Qed.

End Tiling.

(** ** Weights: the units of the blocks used in a given way *)

Definition weight (p : bkind -> bool) (x : Z * bkind) : Z := if p x.2 then 2 ^ x.1 else 0.

Definition wsum (p : bkind -> bool) (B : blocks) : Z := msum (weight p) B.

Lemma wsum_insert p B i o k :
  B !! i = None -> wsum p (<[i := (o, k)]> B) = (if p k then 2 ^ o else 0) + wsum p B.
Proof. apply msum_insert. Qed.

Lemma wsum_delete p B i o k :
  B !! i = Some (o, k) -> wsum p B = (if p k then 2 ^ o else 0) + wsum p (delete i B).
Proof. apply msum_delete. Qed.

Lemma wsum_update p B i o k o' k' :
  B !! i = Some (o, k) ->
  wsum p (<[i := (o', k')]> B)
  = wsum p B - (if p k then 2 ^ o else 0) + (if p k' then 2 ^ o' else 0).
Proof. apply msum_update. Qed.

Lemma wsum_mono (p q : bkind -> bool) B :
  (forall k, p k = true -> q k = true) ->
  (forall i o k, B !! i = Some (o, k) -> 0 <= o) ->
  0 <= wsum p B <= wsum q B.
Proof.
  intros Hpq Ho. apply msum_mono. intros i [o k] Hi. unfold weight. cbn.
  pose proof (pow2_pos o (Ho _ _ _ Hi)). pose proof (Hpq k).
  destruct (p k), (q k); cbn in *; lia || by specialize (H0 eq_refl).
Qed.

(** Merging two equal halves keeps every weight that counts neither or both. *)
Lemma wsum_merge p B lo hi o k k' kk :
  0 <= o -> lo <> hi -> B !! lo = Some (o, k) -> B !! hi = Some (o, k') ->
  p k = p kk -> p k' = p kk ->
  wsum p (<[lo := (o + 1, kk)]> (delete hi B)) = wsum p B.
Proof.
  intros Ho Hne Hlo Hhi E1 E2.
  rewrite (wsum_update p (delete hi B) lo o k) by (by rewrite lookup_delete_ne).
  rewrite (wsum_delete p B hi o k') by done.
  rewrite E1, E2, pow2_succ by done. destruct (p kk); lia.
Qed.

Lemma wsum_split p B i o k k1 k2 :
  0 <= o -> B !! i = Some (o + 1, k) -> B !! (i + 2 ^ o) = None ->
  p k = p k1 -> p k = p k2 ->
  wsum p (<[i := (o, k1)]> (<[i + 2 ^ o := (o, k2)]> B)) = wsum p B.
Proof.
  intros Ho Hi Hn E1 E2. pose proof (pow2_pos o Ho).
  rewrite (wsum_update p _ i (o + 1) k) by (rewrite lookup_insert_ne by lia; done).
  rewrite wsum_insert by done. rewrite <- E1, <- E2, pow2_succ by done.
  destruct (p k); lia.
Qed.

(** ** Coalescing *)

(** No two free blocks are buddies of each other: whatever can be merged has
    been merged. *)
Definition coalesced (mo : Z) (B : blocks) : Prop :=
  forall i o, B !! i = Some (o, BFree) -> o < mo - 1 -> B !! buddy_ix i o <> Some (o, BFree).

(** A coalesced tiling in which everything is free is the single largest
    block: freeing everything undoes every split. *)
Lemma all_free_order mo B :
  tiling mo B -> coalesced mo B -> (forall i o k, B !! i = Some (o, k) -> k = BFree) ->
  forall i o, B !! i = Some (o, BFree) -> ~ o < mo - 1.
Proof.
  intros HT Hc Hall.
  enough (H : forall n i o, Z.to_nat o = n -> B !! i = Some (o, BFree) -> ~ o < mo - 1)
    by (intros i o; by apply (H (Z.to_nat o))).
  intros n. induction (lt_wf n) as [n _ IH]. intros i o Hn Hi Hlt.
  destruct (tl_range _ _ HT _ _ _ Hi) as (Hi0 & Ho & Hd & He).
  destruct (buddy_range mo i o) as (Hb0 & Hbd & Hbe); try done; try lia.
  pose proof (pow2_pos o ltac:(lia)) as Hp.
  destruct (tl_cover _ _ HT (buddy_ix i o)) as (i' & o' & k' & Hi' & Hr); [lia|].
  pose proof (Hall _ _ _ Hi') as ->.
  destruct (tl_range _ _ HT _ _ _ Hi') as (Hi'0 & Ho' & Hd' & He').
  destruct (Z.lt_trichotomy o' o) as [Hlo|[->|Hhi]].
  - apply (IH (Z.to_nat o') ltac:(lia) i' o' eq_refl Hi'). lia.
  - assert (i' = buddy_ix i o) as ->; [|exact (Hc _ _ Hi Hlt Hi')].
    destruct (Z.eq_dec i' (buddy_ix i o)) as [|Hne]; [done|].
    pose proof (divide_close (2 ^ o) i' (buddy_ix i o) Hp Hd' Hbd). lia.
  - (* a larger block that covers the buddy covers the block itself *)
    assert (Hbig : (2 ^ (o + 1) | i')).
    { eapply Z.divide_trans; [|exact Hd']. apply pow2_divide. lia. }
    assert (Hbig2 : (2 ^ (o + 1) | i' + 2 ^ o')).
    { apply Z.divide_add_r; [done|]. apply pow2_divide. lia. }
    pose proof (pow2_succ o ltac:(lia)) as Hs.
    assert (i' <= i < i' + 2 ^ o').
    { destruct (buddy_cases i o) as [[He1 E]|[He1 E]]; try done; try lia; rewrite E in *.
      - split; [|lia]. destruct (Z.le_gt_cases i' i) as [|Hgt]; [done|].
        pose proof (divide_close (2 ^ (o + 1)) i i' ltac:(lia) He1 Hbig Hgt). lia.
      - split; [lia|].
        pose proof (divide_close (2 ^ (o + 1)) (i - 2 ^ o) (i' + 2 ^ o') ltac:(lia) He1 Hbig2 ltac:(lia)). lia. }
    assert (i' = i) as ->.
    { eapply (tl_unique HT _ _ _ _ _ _ i); try done. pose proof (tl_pos HT _ _ _ Hi). lia. }
    rewrite Hi in Hi'. simplify_eq. lia.
Qed.

Lemma all_free_single mo B :
  tiling mo B -> coalesced mo B -> (forall i o k, B !! i = Some (o, k) -> k = BFree) ->
  B = {[0 := (mo - 1, BFree)]}.
Proof.
  intros HT Hc Hall. pose proof (tl_mo _ _ HT).
  assert (Hone : forall i o k, B !! i = Some (o, k) -> i = 0 /\ o = mo - 1 /\ k = BFree).
  { intros i o k Hi. pose proof (Hall _ _ _ Hi) as ->.
    destruct (tl_range _ _ HT _ _ _ Hi) as (? & ? & ? & ?).
    pose proof (all_free_order mo B HT Hc Hall _ _ Hi).
    assert (o = mo - 1) as -> by lia. split; [lia|done]. }
  pose proof (pow2_pos (mo - 1) ltac:(lia)).
  destruct (tl_cover _ _ HT 0) as (i & o & k & Hi & _); [lia|].
  destruct (Hone _ _ _ Hi) as (-> & -> & ->).
  apply map_eq. intros j. destruct (B !! j) as [[o k]|] eqn:E.
  - destruct (Hone _ _ _ E) as (-> & -> & ->). by rewrite lookup_singleton_eq.
  - destruct (Z.eq_dec 0 j) as [<-|]; [congruence|]. by rewrite lookup_singleton_ne.
Qed.

Lemma tiling_single mo k : 1 <= mo -> tiling mo {[0 := (mo - 1, k)]}.
Proof.
  intros Hmo. pose proof (pow2_pos (mo - 1) ltac:(lia)). split; [done| | |].
  - intros i o k' [<- [= <- <-]]%lookup_singleton_Some.
    repeat split; try lia. apply Z.divide_0_r.
  - intros i o k1 i' o' k1' [<- _]%lookup_singleton_Some [<- _]%lookup_singleton_Some. done.
  - intros j Hj. exists 0, (mo - 1), k. rewrite lookup_singleton_eq. split; [done|lia].
Qed.

(** Two states of the tiling that agree on every block in use. *)
Definition busy (k : bkind) : bool :=
  match k with BFree | BHole => false | _ => true end.

Definition same_busy (B B' : blocks) : Prop :=
  forall i o k, busy k = true -> B !! i = Some (o, k) <-> B' !! i = Some (o, k).

#[export] Instance same_busy_equiv : Equivalence same_busy.
Proof.
  split.
  - intros B i o k _. done.
  - intros B B' H i o k Hk. by rewrite (H i o k Hk).
  - intros B1 B2 B3 H1 H2 i o k Hk. by rewrite (H1 i o k Hk), (H2 i o k Hk).
Qed.

Lemma same_busy_insert B i o k o' k' :
  busy k = false -> busy k' = false -> B !! i = Some (o, k) ->
  same_busy B (<[i := (o', k')]> B).
Proof.
  intros Hk Hk' Hi j oj kj Hj. destruct (Z.eq_dec i j) as [<-|].
  - rewrite lookup_insert_eq, Hi. split; intros; simplify_eq; congruence.
  - by rewrite lookup_insert_ne.
Qed.

Lemma same_busy_insert_fresh B i o k :
  busy k = false -> B !! i = None -> same_busy B (<[i := (o, k)]> B).
Proof.
  intros Hk Hi j oj kj Hj. destruct (Z.eq_dec i j) as [<-|].
  - rewrite lookup_insert_eq, Hi. split; intros; simplify_eq; congruence.
  - by rewrite lookup_insert_ne.
Qed.

Lemma same_busy_delete B i o k :
  busy k = false -> B !! i = Some (o, k) -> same_busy B (delete i B).
Proof.
  intros Hk Hi j oj kj Hj. destruct (Z.eq_dec i j) as [<-|].
  - rewrite lookup_delete_eq, Hi. split; intros; simplify_eq; congruence.
  - by rewrite lookup_delete_ne.
Qed.

(** ** Weights of a whole tiling *)

Lemma wsum_total mo B : tiling mo B -> wsum (fun _ => true) B = 2 ^ (mo - 1).
Proof.
  intros HT. pose proof (tl_mo _ _ HT). pose proof (pow2_pos (mo - 1) ltac:(lia)).
  unfold wsum. rewrite (msum_cover (weight (fun _ => true)) 0 (2 ^ (mo - 1))); [lia|lia| | |].
  - intros i [o k] Hi. destruct (tl_range _ _ HT _ _ _ Hi) as (? & ? & ? & ?).
    pose proof (pow2_pos o ltac:(lia)). unfold weight. cbn. lia.
  - intros i [o k] i' [o' k']. apply (tl_disj _ _ HT).
  - intros j Hj. destruct (tl_cover _ _ HT j Hj) as (i & o & k & Hi & Hr). by exists i, (o, k).
Qed.

Lemma wsum_bound p mo B : tiling mo B -> 0 <= wsum p B <= 2 ^ (mo - 1).
Proof.
  intros HT. rewrite <- (wsum_total mo B HT). apply wsum_mono; [done|].
  intros i o k Hi. destruct (tl_range _ _ HT _ _ _ Hi) as (? & ? & ?). lia.
Qed.

(** Tilings that agree on the blocks a weight counts weigh the same. *)
Lemma wsum_agree p B B' :
  (forall i o k, p k = true -> B !! i = Some (o, k) <-> B' !! i = Some (o, k)) ->
  wsum p B = wsum p B'.
Proof.
  intros H. apply msum_agree. intros i [o k] Hw. apply H. unfold weight in Hw. cbn in Hw.
  by destruct (p k).
Qed.

(** ** Coalescing under the steps *)

Lemma buddy_lower i o : 0 <= o -> (2 ^ (o + 1) | i) -> buddy_ix i o = i + 2 ^ o.
Proof.
  intros Ho Hd. pose proof (pow2_pos o Ho). pose proof (pow2_succ o Ho) as Hs.
  destruct (buddy_cases i o Ho) as [[_ E]|[Hd' _]]; [|done|].
  { eapply Z.divide_trans; [|exact Hd]. apply pow2_divide. lia. }
  exfalso. destruct (Z.divide_sub_r _ _ _ Hd Hd') as [q Hq]. rewrite Hs in Hq.
  assert (2 ^ o * (1 - 2 * q) = 0) as [|]%Z.mul_eq_0 by lia; lia.
Qed.

Lemma coalesced_sub mo B B' :
  (forall i o, B' !! i = Some (o, BFree) -> B !! i = Some (o, BFree)) ->
  coalesced mo B -> coalesced mo B'.
Proof. intros H Hc i o Hi Ho Hb. by apply (Hc i o (H _ _ Hi) Ho), H. Qed.

Lemma coalesced_insert mo B i o k :
  k <> BFree -> coalesced mo B -> coalesced mo (<[i := (o, k)]> B).
Proof.
  intros Hk. apply coalesced_sub. intros j oj Hj. destruct (Z.eq_dec i j) as [<-|].
  - rewrite lookup_insert_eq in Hj. congruence.
  - by rewrite lookup_insert_ne in Hj.
Qed.

Lemma coalesced_delete mo B i : coalesced mo B -> coalesced mo (delete i B).
Proof.
  apply coalesced_sub. intros j oj [_ Hj]%lookup_delete_Some. done.
Qed.

(** A free block may be added where its buddy is not free at its order. *)
Lemma coalesced_push mo B i o :
  0 <= o -> B !! buddy_ix i o <> Some (o, BFree) -> coalesced mo B ->
  coalesced mo (<[i := (o, BFree)]> B).
Proof.
  intros Ho Hb Hc j oj Hj Hoj Hbj. destruct (Z.eq_dec i j) as [<-|Hij].
  - rewrite lookup_insert_eq in Hj. simplify_eq.
    destruct (Z.eq_dec i (buddy_ix i oj)) as [E|]; [|by rewrite lookup_insert_ne in Hbj].
    exfalso. unfold buddy_ix in E. apply (f_equal (Z.lxor i)) in E.
    rewrite Z.lxor_nilpotent, <- Z.lxor_assoc, Z.lxor_nilpotent, Z.lxor_0_l in E.
    pose proof (pow2_pos oj Ho). lia.
  - rewrite lookup_insert_ne in Hj by done.
    destruct (Z.eq_dec i (buddy_ix j oj)) as [->|Hib].
    + rewrite lookup_insert_eq in Hbj. simplify_eq. by rewrite buddy_ix_invol in Hb.
    + rewrite lookup_insert_ne in Hbj by done. by apply (Hc j oj).
Qed.

Lemma wsum_bound_or p q B :
  (forall k, p k = true -> q k = false) ->
  wsum (fun k => p k || q k) B = wsum p B + wsum q B.
Proof.
  intros Hpq. induction B as [|i [o k] B Hi IH] using map_ind; [done|].
  rewrite !wsum_insert by done. rewrite IH. pose proof (Hpq k).
  destruct (p k), (q k); cbn; lia || by specialize (H eq_refl).
Qed.

(** Two uses that exclude each other weigh no more than the tiling. *)
Lemma wsum_disjoint p q mo B :
  tiling mo B -> (forall k, p k = true -> q k = false) ->
  wsum p B + wsum q B <= 2 ^ (mo - 1).
Proof.
  intros HT Hpq. rewrite <- (wsum_bound_or p q B Hpq). apply (wsum_bound _ _ _ HT).
Qed.
