(* ===== verification/Buddy.v ===== *)
(** * The buddy block list (src/src/free_list.hpp)

    [struct __buddy_list<T, Min, Mx>]: power-of-two blocks of [Min << order]
    bytes in one region, one tag byte per [Min] bytes, one intrusive doubly
    linked free list per order threaded through the free blocks, a bitmap of
    the non-empty lists, a small LIFO of released temporal blocks and a ring
    of active temporal blocks per order.

    The region's memory is the cell map [mem]; a [free_block] at [a] is the
    cells [a] (next) and [a + 8] (prev), a [block_header] at [h] the cells
    [h] (order) and [h + 4] (flags).  The tag array is the cell map
    [block_tags], indexed as the C array is. *)

From S2P Require Import Prelude.
From S2P Require Import Config.

Definition Mx : Z := 64.
Definition __tag_free : Z := 128.
Definition __tag_none : Z := 255.
Definition __cache_cap : Z := 4.
Definition __active_ring : Z := 2.
Definition __cold_cap : Z := 0.

(** The data members, in the order of the source; [active[o][r]] is the cell
    [o * __active_ring + r] of [active].  [block_tags_at] is the address the
    tag array has, [block_tags] its contents. *)
Record buddy := Buddy {
  mem : zmap;
  base : Z;
  total : Z;
  max_order : Z;
  allocated_bytes : Z;
  tombstoned_bytes : Z;
  free_mask : Z;
  block_tags_at : Z;
  block_tags : zmap;
  tag_count : Z;
  tags_external : bool;
  free_lists : zmap;
  active : zmap;
  active_rotor : zmap;
  tcache : zmap;
  tcache_count : zmap;
  cold_cache : zmap;
  cold_count : zmap
}.

(** Field updates. *)
Definition set_mem (s : buddy) m := Buddy m (base s) (total s) (max_order s)
  (allocated_bytes s) (tombstoned_bytes s) (free_mask s) (block_tags_at s) (block_tags s)
  (tag_count s) (tags_external s) (free_lists s) (active s) (active_rotor s) (tcache s)
  (tcache_count s) (cold_cache s) (cold_count s).
Definition set_bytes (s : buddy) a t := Buddy (mem s) (base s) (total s) (max_order s)
  a t (free_mask s) (block_tags_at s) (block_tags s)
  (tag_count s) (tags_external s) (free_lists s) (active s) (active_rotor s) (tcache s)
  (tcache_count s) (cold_cache s) (cold_count s).
Definition set_mask (s : buddy) k := Buddy (mem s) (base s) (total s) (max_order s)
  (allocated_bytes s) (tombstoned_bytes s) k (block_tags_at s) (block_tags s)
  (tag_count s) (tags_external s) (free_lists s) (active s) (active_rotor s) (tcache s)
  (tcache_count s) (cold_cache s) (cold_count s).
Definition set_tags (s : buddy) t := Buddy (mem s) (base s) (total s) (max_order s)
  (allocated_bytes s) (tombstoned_bytes s) (free_mask s) (block_tags_at s) t
  (tag_count s) (tags_external s) (free_lists s) (active s) (active_rotor s) (tcache s)
  (tcache_count s) (cold_cache s) (cold_count s).
Definition set_free_lists (s : buddy) l := Buddy (mem s) (base s) (total s) (max_order s)
  (allocated_bytes s) (tombstoned_bytes s) (free_mask s) (block_tags_at s) (block_tags s)
  (tag_count s) (tags_external s) l (active s) (active_rotor s) (tcache s)
  (tcache_count s) (cold_cache s) (cold_count s).
Definition set_active (s : buddy) a := Buddy (mem s) (base s) (total s) (max_order s)
  (allocated_bytes s) (tombstoned_bytes s) (free_mask s) (block_tags_at s) (block_tags s)
  (tag_count s) (tags_external s) (free_lists s) a (active_rotor s) (tcache s)
  (tcache_count s) (cold_cache s) (cold_count s).
Definition set_active_rotor (s : buddy) r := Buddy (mem s) (base s) (total s) (max_order s)
  (allocated_bytes s) (tombstoned_bytes s) (free_mask s) (block_tags_at s) (block_tags s)
  (tag_count s) (tags_external s) (free_lists s) (active s) r (tcache s)
  (tcache_count s) (cold_cache s) (cold_count s).
Definition set_tcache (s : buddy) c n := Buddy (mem s) (base s) (total s) (max_order s)
  (allocated_bytes s) (tombstoned_bytes s) (free_mask s) (block_tags_at s) (block_tags s)
  (tag_count s) (tags_external s) (free_lists s) (active s) (active_rotor s) c
  n (cold_cache s) (cold_count s).
Definition set_cold (s : buddy) c n := Buddy (mem s) (base s) (total s) (max_order s)
  (allocated_bytes s) (tombstoned_bytes s) (free_mask s) (block_tags_at s) (block_tags s)
  (tag_count s) (tags_external s) (free_lists s) (active s) (active_rotor s) (tcache s)
  (tcache_count s) c n.


Section Buddy.
(** [Min], the smallest block, a template parameter: a power of two of at
    least [__hdr_offset] bytes (both are static requirements of the template). *)
Variable Min : Z.

(** [__log2_min]: halve until 1, counting; an [i64] halves at most 63 times *)
Fixpoint log2_loop (fuel : nat) (v r : Z) : Z :=
  match fuel with
  | O => r
  | S f => if 1 <? v then log2_loop f (Z.shiftr v 1) (r + 1) else r
  end.
Definition __log2_min : Z := log2_loop 63 Min 0.

Definition ceil_log2_u64 (v : Z) : Z := 64 - clzll (u64 (v - 1)).

Definition order_for_size (n : Z) : Z :=
  let units := u64 (Z.shiftr (u64 (n - 1)) __log2_min + 1) in
  if units <=? 1 then 0 else ceil_log2_u64 units.

Definition order_size (o : Z) : Z := u64 (Z.shiftl Min o).

Definition tag_index_of (off : Z) : Z := Z.shiftr off __log2_min.

Definition tag_index (s : buddy) (addr : Z) : Z := tag_index_of (u64 (addr - base s)).

Definition tag_set_free (s : buddy) (addr o : Z) : buddy :=
  set_tags s (wr (block_tags s) (tag_index s addr) (u8 (Z.lor o __tag_free))).

Definition tag_set_free_at (s : buddy) (tidx o : Z) : buddy :=
  set_tags s (wr (block_tags s) tidx (u8 (Z.lor o __tag_free))).

Definition tag_set_alloc (s : buddy) (addr o : Z) : buddy :=
  set_tags s (wr (block_tags s) (tag_index s addr) (u8 o)).

Definition tag_is_free_at_off (s : buddy) (off o : Z) : bool :=
  let expected := u8 (Z.lor o __tag_free) in
  rd (block_tags s) (Z.shiftr off __log2_min) =? expected.

Definition tag_is_free_at (s : buddy) (addr o : Z) : bool :=
  tag_is_free_at_off s (u64 (addr - base s)) o.

Definition mask_set (s : buddy) (o : Z) : buddy := set_mask s (bit_set (free_mask s) o).

Definition mask_clear_if_empty (s : buddy) (o : Z) : buddy :=
  if rd (free_lists s) o =? 0 then set_mask s (bit_clr (free_mask s) o) else s.

Definition find_free_order (s : buddy) (o : Z) : Z :=
  let m := Z.shiftr (free_mask s) o in
  if m =? 0 then max_order s else o + ctz m.

(** The header is at the tail of the block. *)
Definition hdr_of (block_start o : Z) : Z := block_start + order_size o - __hdr_offset.

Definition hdr_of_tagged (s : buddy) (block_start : Z) : Z :=
  let tag := rd (block_tags s) (tag_index s block_start) in
  let o := Z.ldiff tag __tag_free in
  hdr_of block_start o.

(** [free_block] and [block_header] fields *)
Definition next (s : buddy) (n : Z) : Z := rd (mem s) (n + 0).
Definition prev (s : buddy) (n : Z) : Z := rd (mem s) (n + 8).
Definition set_next (s : buddy) (n v : Z) : buddy := set_mem s (wr (mem s) (n + 0) v).
Definition set_prev (s : buddy) (n v : Z) : buddy := set_mem s (wr (mem s) (n + 8) v).
Definition hdr_order (s : buddy) (h : Z) : Z := rd (mem s) (h + 0).
Definition hdr_flags (s : buddy) (h : Z) : Z := rd (mem s) (h + 4).
Definition set_hdr (s : buddy) (h o f : Z) : buddy :=
  set_mem s (wr (wr (mem s) (h + 0) o) (h + 4) f).

(** guard against corrupted heads/links *)
Definition __link_valid (s : buddy) (n : Z) : bool :=
  if n =? 0 then true
  else if (n <? base s) || (base s + total s <=? n) then false
  else Z.land (n - base s) (Min - 1) =? 0.

(** The walk of [__freelist_remove_slow]: [guard++ <= tag_count] allows
    [tag_count + 1] iterations, which is the fuel. *)
Fixpoint freelist_remove_slow_loop (fuel : nat) (s : buddy) (buddy_ o prev_ cur : Z)
    : bool * buddy :=
  match fuel with
  | O => (false, s)
  | S f =>
      if cur =? 0 then (false, s) else
      let nx := next s cur in
      let nx := if __link_valid s nx then nx else 0 in
      if cur =? buddy_ then
        let s := if negb (prev_ =? 0) then set_next s prev_ nx
                 else set_free_lists s (wr (free_lists s) o nx) in
        let s := if negb (prev_ =? 0) && negb (nx =? 0) then set_prev s nx prev_ else s in
        (true, mask_clear_if_empty s o)
      else freelist_remove_slow_loop f s buddy_ o cur nx
  end.

Definition __freelist_remove_slow (s : buddy) (buddy_ o : Z) : bool * buddy :=
  freelist_remove_slow_loop (Z.to_nat (tag_count s + 1)) s buddy_ o 0 (rd (free_lists s) o).

Definition freelist_remove (s : buddy) (buddy_ o : Z) : bool * buddy :=
  let node := buddy_ in
  let next_ := next s node in
  let head := rd (free_lists s) o in
  if head =? node then
    if negb (__link_valid s next_) then __freelist_remove_slow s buddy_ o
    else
      let s := set_free_lists s (wr (free_lists s) o next_) in
      let s := if next_ =? 0 then set_mask s (bit_clr (free_mask s) o) else s in
      (true, s)
  else
    let prev_ := prev s node in
    if negb (__link_valid s next_) then __freelist_remove_slow s buddy_ o
    else if negb (__link_valid s prev_) || (prev_ =? 0) || negb (next s prev_ =? node)
            || (negb (next_ =? 0) && negb (prev s next_ =? node))
    then __freelist_remove_slow s buddy_ o
    else
      let s := set_next s prev_ next_ in
      let s := if negb (next_ =? 0) then set_prev s next_ prev_ else s in
      (true, s).

Definition freelist_push_off (s : buddy) (addr o off : Z) : buddy :=
  let nb := addr in
  let head := rd (free_lists s) o in
  let s := set_next s nb head in
  let s := if negb (head =? 0) then set_prev s head nb else mask_set s o in
  let s := set_free_lists s (wr (free_lists s) o nb) in
  tag_set_free_at s (Z.shiftr off __log2_min) o.

(** The split loop of [__take_and_split], which runs [from - target] times
    and keeps the bitmap in the local [mask]. *)
Fixpoint split_loop (n : nat) (s : buddy) (mask blk from split_size : Z) : buddy * Z :=
  match n with
  | O => (s, mask)
  | S n' =>
      let from := from - 1 in
      let split_size := Z.shiftr split_size 1 in
      let right_ := blk + split_size in
      let node := right_ in
      let head := rd (free_lists s) from in
      let s := set_next s node head in
      let '(s, mask) := if negb (head =? 0) then (set_prev s head node, mask)
                        else (s, bit_set mask from) in
      let s := set_free_lists s (wr (free_lists s) from node) in
      let s := set_tags s (wr (block_tags s) (tag_index s right_) (u8 (Z.lor from __tag_free))) in
      split_loop n' s mask blk from split_size
  end.

Definition __take_and_split (s : buddy) (from target : Z) : Z * buddy :=
  let blk := rd (free_lists s) from in
  let next_ := next s blk in
  let mask := free_mask s in
  let old_mask := mask in
  let next_ := if negb (__link_valid s next_) then 0 else next_ in
  let s := set_free_lists s (wr (free_lists s) from next_) in
  let mask := if next_ =? 0 then bit_clr mask from else mask in
  let split_size := order_size from in
  let '(s, mask) := split_loop (Z.to_nat (from - target)) s mask blk from split_size in
  let s := if negb (mask =? old_mask) then set_mask s mask else s in
  (blk, s).

Definition tcache_pop (s : buddy) (o : Z) : Z * buddy :=
  if rd (tcache_count s) o <=? 0 then (0, s) else
  let blk := rd (tcache s) o in
  let nx := next s blk in
  if __link_valid s nx then
    (blk, set_tcache s (wr (tcache s) o nx) (wr (tcache_count s) o (rd (tcache_count s) o - 1)))
  else
    (blk, set_tcache s (wr (tcache s) o 0) (wr (tcache_count s) o 0)).

Definition tcache_push (s : buddy) (blk o : Z) : bool * buddy :=
  if __cache_cap <=? rd (tcache_count s) o then (false, s) else
  let s := set_next s blk (rd (tcache s) o) in
  (true, set_tcache s (wr (tcache s) o blk)
                      (wr (tcache_count s) o (rd (tcache_count s) o + 1))).

(** The merge loop of [__merge_and_free]: at most [max_order - 1 - o]
    iterations.  The result is the offset and order of the merged block. *)
Fixpoint merge_loop (n : nat) (s : buddy) (off o : Z) : buddy * Z * Z :=
  match n with
  | O => (s, off, o)
  | S n' =>
      let blk_sz := order_size o in
      let buddy_off := Z.lxor off blk_sz in
      if negb (tag_is_free_at_off s buddy_off o) then (s, off, o) else
      let '(ok, s) := freelist_remove s (base s + buddy_off) o in
      if negb ok then (s, off, o) else
      let interior_off := if off <? buddy_off then buddy_off else off in
      let s := set_tags s (wr (block_tags s) (Z.shiftr interior_off __log2_min) __tag_none) in
      let off := if buddy_off <? off then buddy_off else off in
      merge_loop n' s off (o + 1)
  end.

Definition __merge_and_free (s : buddy) (addr o : Z) : buddy :=
  let off := u64 (addr - base s) in
  let '(s, off, o) := merge_loop (Z.to_nat (max_order s - 1 - o)) s off o in
  freelist_push_off s (base s + off) o off.

(** [while (tcache[o])]: the list holds at most [__cache_cap] blocks, so the
    fuel [__cache_cap + 1] is never exhausted ([tcache_flush_drains]). *)
Fixpoint tcache_flush_loop (fuel : nat) (s : buddy) (o : Z) : buddy :=
  match fuel with
  | O => s
  | S f =>
      if rd (tcache s) o =? 0 then s else
      let blk := rd (tcache s) o in
      let s := set_tcache s (wr (tcache s) o (next s blk))
                            (wr (tcache_count s) o (rd (tcache_count s) o - 1)) in
      let addr := blk in
      tcache_flush_loop f (__merge_and_free s addr o) o
  end.

Definition tcache_flush (s : buddy) (o : Z) : buddy :=
  tcache_flush_loop (Z.to_nat (__cache_cap + 1)) s o.

(** [for (i = 0; i < max_order; ++i) f(i)] *)
Fixpoint for_orders (f : buddy -> Z -> buddy) (n : nat) (s : buddy) (i : Z) : buddy :=
  match n with
  | O => s
  | S n' => for_orders f n' (f s i) (i + 1)
  end.

Definition tcache_flush_all (s : buddy) : buddy :=
  for_orders tcache_flush (Z.to_nat (max_order s)) s 0.

Definition cold_pop (s : buddy) (o : Z) : Z * buddy :=
  if rd (cold_count s) o <=? 0 then (0, s) else
  let blk := rd (cold_cache s) o in
  let nx := next s blk in
  if __link_valid s nx then
    (blk, set_cold s (wr (cold_cache s) o nx) (wr (cold_count s) o (rd (cold_count s) o - 1)))
  else
    (blk, set_cold s (wr (cold_cache s) o 0) (wr (cold_count s) o 0)).

Definition cold_push (s : buddy) (blk o : Z) : bool * buddy :=
  if __cold_cap <=? rd (cold_count s) o then (false, s) else
  let s := set_next s blk (rd (cold_cache s) o) in
  (true, set_cold s (wr (cold_cache s) o blk) (wr (cold_count s) o (rd (cold_count s) o + 1))).

(** [while (cold_cache[o])]: with [__cold_cap = 0] the cache is always empty
    and the body never runs; the fuel bounds a list of [tag_count] blocks. *)
Fixpoint cold_drain_loop (fuel : nat) (s : buddy) (o : Z) : buddy :=
  match fuel with
  | O => s
  | S f =>
      if rd (cold_cache s) o =? 0 then s else
      let blk := rd (cold_cache s) o in
      let s := set_cold s (wr (cold_cache s) o (next s blk))
                          (wr (cold_count s) o (rd (cold_count s) o - 1)) in
      let addr := blk in
      cold_drain_loop f (__merge_and_free s addr o) o
  end.

Definition cold_drain_merge (s : buddy) (o : Z) : buddy :=
  cold_drain_loop (Z.to_nat (tag_count s + 1)) s o.

Definition cold_flush_all (s : buddy) : buddy :=
  for_orders cold_drain_merge (Z.to_nat (max_order s)) s 0.

Definition __impl_zero_arrays (s : buddy) : buddy :=
  Buddy (mem s) (base s) (total s) (max_order s) (allocated_bytes s) (tombstoned_bytes s)
    0 (block_tags_at s) (block_tags s) (tag_count s) (tags_external s)
    ∅ ∅ ∅ ∅ ∅ ∅ ∅.

(** The failure exits of [__impl_init_memory] *)
Definition init_fail (s : buddy) : buddy :=
  Buddy (mem s) 0 0 0 (allocated_bytes s) (tombstoned_bytes s) (free_mask s) 0 ∅ 0 false
    (free_lists s) (active s) (active_rotor s) (tcache s) (tcache_count s) (cold_cache s)
    (cold_count s).

(** The common tail of [__impl_init_memory] once the data region
    [base, base + total) and the tag array are placed *)
Definition init_region (s : buddy) (base_ total_ tags_at : Z) (external : bool) : buddy :=
  let units := Z.shiftr total_ __log2_min in
  let mo := 63 - clzll units + 1 in
  let mo := if Mx <? mo then Mx else mo in
  let s := Buddy (mem s) base_ total_ mo (allocated_bytes s) (tombstoned_bytes s)
    (free_mask s) tags_at (block_tags s) units external (free_lists s) (active s)
    (active_rotor s) (tcache s) (tcache_count s) (cold_cache s) (cold_count s) in
  let s := __impl_zero_arrays s in
  let s := set_tags s (fill (block_tags s) 0 (Z.to_nat (tag_count s)) __tag_none) in
  let s := set_free_lists s (wr (free_lists s) (max_order s - 1) (base s)) in
  let s := set_next s (base s) 0 in
  let s := mask_set s (max_order s - 1) in
  tag_set_free s (base s) (max_order s - 1).

(** [ext_tags = 0] is the null pointer. *)
Definition __impl_init_memory (s : buddy) (_ptr _len ext_tags : Z) : buddy :=
  let r := align_up _ptr 8 in
  let adjust := r - _ptr in
  if _len <=? adjust then init_fail s else
  let aligned := r in
  let usable := _len - adjust in
  if negb (ext_tags =? 0) then
    let data_usable := usable / Min * Min in
    if data_usable <? Min then init_fail s
    else init_region s aligned data_usable ext_tags true
  else
    let approx_tags := u64 (usable + Min) / (Min + 1) in
    let tag_area := align_up approx_tags Min in
    if usable <=? tag_area then init_fail s else
    let data_usable := (usable - tag_area) / Min * Min in
    if data_usable <? Min then init_fail s
    else init_region s (aligned + tag_area) data_usable aligned false.

(** A list before its constructor's body runs, over the memory [m] *)
Definition blank (m : zmap) (external : bool) : buddy :=
  Buddy m 0 0 0 0 0 0 0 ∅ 0 external ∅ ∅ ∅ ∅ ∅ ∅ ∅.

(** [__buddy_list(const T &mem)] and [__buddy_list(const T &mem, u8 *tag_buf)];
    [None] is [micron::abort()] *)
Definition __buddy_list `{ChunkOps} (m : zmap) (c : chunk) : option buddy :=
  let s := __impl_zero_arrays (blank m false) in
  if chunk_zero c || (len c <? Min) then None
  else Some (__impl_init_memory s (ptr c) (len c) 0).

Definition __buddy_list_tags `{ChunkOps} (m : zmap) (c : chunk) (tag_buf : Z) : option buddy :=
  let s := __impl_zero_arrays (blank m true) in
  if chunk_zero c || (len c <? Min) then None
  else Some (__impl_init_memory s (ptr c) (len c) tag_buf).

(** Move construction: the new list takes every member, the old one is left
    empty.  The pair is (new, moved-from). *)
Definition move_ctor (o : buddy) : buddy * buddy :=
  (o, Buddy (mem o) 0 0 0 0 0 0 0 ∅ 0 false ∅ ∅ ∅ ∅ ∅ ∅ ∅).

(** Move assignment flushes the caches of the target, then overwrites it. *)
Definition move_assign (this o : buddy) : buddy * buddy :=
  let this := tcache_flush_all this in
  let this := cold_flush_all this in
  move_ctor o.

(** Header, tag and byte count of a block that has just been taken *)
Definition commit (s : buddy) (blk o flags target_size : Z) : buddy :=
  let s := set_hdr s (hdr_of blk o) o flags in
  let s := tag_set_alloc s blk o in
  set_bytes s (u64 (allocated_bytes s + target_size)) (tombstoned_bytes s).

Definition allocate (s : buddy) (n : Z) : chunk * buddy :=
  if usize_max - __hdr_offset <? n then (null_chunk, s) else
  let n := n + __hdr_offset in
  if base s =? 0 then (null_chunk, s) else
  let o := order_for_size n in
  if max_order s <=? o then (null_chunk, s) else
  let target_size := order_size o in
  let '(cold, s) := if 0 <? __cold_cap then cold_pop s o else (0, s) in
  if negb (cold =? 0) then
    (Chunk cold (target_size - __hdr_offset), commit s cold o __block_alloc target_size)
  else
  let i := find_free_order s o in
  let '(i, s) :=
    if max_order s <=? i then
      if 0 <? __cold_cap then
        let s := cold_flush_all s in (find_free_order s o, s)
      else (i, s)
    else (i, s) in
  if max_order s <=? i then (null_chunk, s) else
  let '(blk, s) := __take_and_split s i o in
  (Chunk blk (target_size - __hdr_offset), commit s blk o __block_alloc target_size).

Definition temporal_allocate (s : buddy) (n : Z) : chunk * buddy :=
  if usize_max - __hdr_offset <? n then (null_chunk, s) else
  let n := n + __hdr_offset in
  if base s =? 0 then (null_chunk, s) else
  let o := order_for_size n in
  if max_order s <=? o then (null_chunk, s) else
  let target_size := order_size o in
  let at_ r := o * __active_ring + r in
  let r0 := Z.land (rd (active_rotor s) o) (__active_ring - 1) in
  let active_block := rd (active s) (at_ r0) in
  let '(r0, active_block) :=
    if active_block =? 0 then let r0 := Z.lxor r0 1 in (r0, rd (active s) (at_ r0))
    else (r0, active_block) in
  if negb (active_block =? 0) then
    (Chunk active_block (target_size - __hdr_offset),
     set_active_rotor s (wr (active_rotor s) o (Z.lxor r0 1)))
  else
  let '(cached, s) := tcache_pop s o in
  if negb (cached =? 0) then
    let s := commit s cached o (Z.lor __block_alloc __block_temporal) target_size in
    let s := set_active s (wr (active s) (at_ r0) cached) in
    let s := set_active_rotor s (wr (active_rotor s) o (Z.lxor r0 1)) in
    (Chunk cached (target_size - __hdr_offset), s)
  else
  let i := find_free_order s o in
  if max_order s <=? i then (null_chunk, s) else
  let '(blk, s) := __take_and_split s i o in
  let s := commit s blk o (Z.lor __block_alloc __block_temporal) target_size in
  let s := set_active s (wr (active s) (at_ r0) blk) in
  let s := set_active_rotor s (wr (active_rotor s) o (Z.lxor r0 1)) in
  (Chunk blk (target_size - __hdr_offset), s).

Definition allocate_exact (s : buddy) (n : Z) : chunk * buddy :=
  if base s =? 0 then (null_chunk, s) else
  if n <? Min then (null_chunk, s) else
  if negb (Z.land n (n - 1) =? 0) then (null_chunk, s) else
  let o := order_for_size n in
  if max_order s <=? o then (null_chunk, s) else
  if rd (free_lists s) o =? 0 then (null_chunk, s) else
  let '(blk, s) := __take_and_split s o o in
  let target_size := order_size o in
  (Chunk blk (target_size - __hdr_offset), commit s blk o __block_alloc target_size).

Definition is_allocated (s : buddy) (p : Z) : bool :=
  if (p =? 0) || (base s =? 0) || (p <? base s) || (base s + total s <=? p) then false
  else if negb (Z.land (u64 (p - base s)) (Min - 1) =? 0) then false
  else
    let tag := rd (block_tags s) (tag_index s p) in
    (Z.land tag __tag_free =? 0) && (tag <? u8 (max_order s)).

Definition tombstone (s : buddy) (p : Z) : ret_flag * buddy :=
  if negb (is_allocated s p) then (__flag_invalid, s) else
  let hdr := hdr_of_tagged s p in
  let o := hdr_order s hdr in
  if (o <? 0) || (max_order s <=? o) then (__flag_invalid, s) else
  if negb (has_flag (hdr_flags s hdr) __block_alloc) then (__flag_invalid, s) else
  let target_size := order_size o in
  let s := set_mem s (wr (mem s) (hdr + 4) __block_tombstone) in
  let s := set_bytes s (u64 (allocated_bytes s - target_size))
                       (u64 (tombstoned_bytes s + target_size)) in
  (__flag_tombstoned, s).

(** [tombstone(T &node)] *)
Definition tombstone_node (s : buddy) (node : chunk) : ret_flag * buddy :=
  if (ptr node =? 0) || (len node =? 0) then (__flag_invalid, s)
  else tombstone s (ptr node).

Definition is_tombstoned (s : buddy) (p : Z) : bool :=
  has_flag (hdr_flags s (hdr_of_tagged s p)) __block_tombstone.

Definition is_temporal (s : buddy) (p : Z) : bool :=
  has_flag (hdr_flags s (hdr_of_tagged s p)) __block_temporal.

(** The ring search of [deallocate]: clears the first slot that holds the block *)
Definition clear_active (s : buddy) (addr o : Z) : buddy :=
  if rd (active s) (o * __active_ring + 0) =? addr
  then set_active s (wr (active s) (o * __active_ring + 0) 0)
  else if rd (active s) (o * __active_ring + 1) =? addr
  then set_active s (wr (active s) (o * __active_ring + 1) 0)
  else s.

Definition deallocate (s : buddy) (p : Z) : ret_flag * buddy :=
  if negb (is_allocated s p) then (__flag_invalid, s) else
  let addr := p in
  let hdr := hdr_of_tagged s addr in
  let original_o := hdr_order s hdr in
  if (original_o <? 0) || (max_order s <=? original_o) then (__flag_invalid, s) else
  if (base s =? 0) || (addr =? 0) then (__flag_failure, s) else
  let flags := hdr_flags s hdr in
  if flags =? __block_free then (__flag_invalid, s) else
  let target_size := order_size original_o in
  let s := set_bytes s (u64 (allocated_bytes s - target_size))
             (if has_flag flags __block_tombstone
              then u64 (tombstoned_bytes s - target_size) else tombstoned_bytes s) in
  let was_temporal := has_flag flags __block_temporal in
  let '(done_, s) :=
    if was_temporal then
      let s := clear_active s addr original_o in
      let '(pushed, s) := tcache_push s addr original_o in
      if pushed
      then (true, set_tags s (wr (block_tags s) (tag_index s addr) __tag_none))
      else (false, s)
    else (false, s) in
  if (done_ : bool) then (__flag_ok, s) else
  let '(done_, s) :=
    if 0 <? __cold_cap then
      if negb was_temporal then
        let '(pushed, s) := cold_push s addr original_o in
        if pushed
        then (true, set_tags s (wr (block_tags s) (tag_index s addr) __tag_none))
        else (false, s)
      else (false, s)
    else (false, s) in
  if (done_ : bool) then (__flag_ok, s) else
  (__flag_ok, __merge_and_free s addr original_o).

(** [deallocate(T &node)] *)
Definition deallocate_node (s : buddy) (node : chunk) : ret_flag * buddy :=
  if (ptr node =? 0) || (len node =? 0) then (__flag_invalid, s)
  else deallocate s (ptr node).

Definition reallocate (s : buddy) (node : chunk) (new_size : Z) : chunk * buddy :=
  if base s =? 0 then (null_chunk, s) else
  if ptr node =? 0 then allocate s new_size else
  if new_size =? 0 then (null_chunk, (deallocate_node s node).2) else
  if (new_size <=? len node) && (Z.shiftr (len node) 1 <? new_size) then (node, s) else
  let '(nnode, s) := allocate s new_size in
  if ptr nnode =? 0 then (null_chunk, s) else
  let to_copy := if len node <? len nnode then len node else len nnode in
  let s := set_mem s (memcpy (mem s) (ptr nnode) (ptr node) (Z.to_nat to_copy)) in
  (nnode, (deallocate_node s node).2).

Definition available (s : buddy) : Z :=
  if base s =? 0 then 0 else u64 (total s - allocated_bytes s).

Definition __total (s : buddy) : Z := total s.
Definition tombstoned (s : buddy) : Z := tombstoned_bytes s.
Definition used (s : buddy) : Z := allocated_bytes s.

Definition block_size (s : buddy) (p : Z) : Z :=
  if (base s =? 0) || (p =? 0) then 0 else
  if (p <? base s) || (base s + total s <=? p) then 0 else
  if negb (Z.land (u64 (p - base s)) (Min - 1) =? 0) then 0 else
  let tag := rd (block_tags s) (tag_index s p) in
  let o := Z.ldiff tag __tag_free in
  if max_order s <=? o then 0 else order_size o.

Definition allocated_size (s : buddy) (p : Z) : Z :=
  if negb (is_allocated s p) then 0 else block_size s p.

End Buddy.
