(* ===== verification/BuddyInv.v ===== *)
(** * The representation invariant of the buddy list

    [inv s B] relates the concrete state of [Buddy] to a tiling [B] of the
    managed region, and the primitive steps the operations are made of
    (push, unlink, split, merge, commit, release) preserve it. *)

From S2P Require Import Prelude.
From S2P Require Import Intrusive.
From S2P Require Import Config.
From S2P Require Import Tiling.
From S2P Require Import Buddy.

(** What the template requires of its parameter [Min]. *)
Class BuddyMin (Min : Z) := {
  lg : Z;
  lg_range : 6 <= lg <= 18;
  Min_eq : Min = 2 ^ lg
}.
Arguments lg Min {_}.

#[export] Instance BuddyMin_1024 : BuddyMin 1024 := {| lg := 10; lg_range := ltac:(lia); Min_eq := eq_refl |}.
#[export] Instance BuddyMin_4096 : BuddyMin 4096 := {| lg := 12; lg_range := ltac:(lia); Min_eq := eq_refl |}.
#[export] Instance BuddyMin_32768 : BuddyMin 32768 := {| lg := 15; lg_range := ltac:(lia); Min_eq := eq_refl |}.
#[export] Instance BuddyMin_262144 : BuddyMin 262144 := {| lg := 18; lg_range := ltac:(lia); Min_eq := eq_refl |}.

Lemma log2_loop_pow2 fuel k r :
  0 <= k <= Z.of_nat fuel -> log2_loop fuel (2 ^ k) r = r + k.
Proof.
  revert k r. induction fuel as [|f IH]; intros k r Hk; cbn [log2_loop].
  { lia. }
  destruct (Z.eq_dec k 0) as [->|Hk0]; [rewrite Z.add_0_r; done|].
  replace (2 ^ k) with (2 * 2 ^ (k - 1)) by (rewrite <- pow2_succ by lia; f_equal; lia).
  pose proof (pow2_pos (k - 1) ltac:(lia)).
  case_b. rewrite Z.shiftr_div_pow2 by lia.
  rewrite Z.mul_comm, Z.div_mul by lia. rewrite IH by lia. lia.
Qed.

Section Inv.
Context (Min : Z) {HM : BuddyMin Min}.

(** The address of unit [i] of a region at [b] *)
Definition at_ (b i : Z) : Z := b + i * Min.

Lemma Min_range : 64 <= Min <= 2 ^ 40.
Proof.
  destruct HM as [l Hl ->]. split.
  - change 64 with (2 ^ 6). apply pow2_le. lia.
  - apply pow2_le. lia.
Qed.

Lemma log2_min_eq : __log2_min Min = lg Min.
Proof.
  unfold __log2_min. rewrite (Min_eq (Min := Min)) at 1.
  pose proof (lg_range (Min := Min)). rewrite log2_loop_pow2; lia.
Qed.

Lemma shiftr_min u : Z.shiftr (u * Min) (__log2_min Min) = u.
Proof.
  rewrite log2_min_eq. pose proof (lg_range (Min := Min)).
  rewrite Z.shiftr_div_pow2 by lia. rewrite <- (Min_eq (Min := Min)).
  pose proof Min_range. apply Z.div_mul. lia.
Qed.

Lemma at_shift b i j : at_ b (i + j) = at_ b i + j * Min.
Proof. unfold at_. lia. Qed.

(** Two cells at known offsets inside their units coincide only if unit and
    offset do. *)
Lemma cell_inj b i j d d' :
  0 <= d < Min -> 0 <= d' < Min -> at_ b i + d = at_ b j + d' -> i = j /\ d = d'.
Proof.
  unfold at_. intros Hd Hd' E.
  assert (i = j) by (destruct (Z.lt_trichotomy i j) as [|[|]]; [nia|done|nia]).
  subst. lia.
Qed.

Lemma cell_unit_ne b i j d d' :
  i <> j -> 0 <= d < Min -> 0 <= d' < Min -> at_ b i + d <> at_ b j + d'.
Proof. intros Hne Hd Hd' E. by apply cell_inj in E as [? ?]. Qed.

Lemma cell_off_ne b i j d d' :
  d <> d' -> 0 <= d < Min -> 0 <= d' < Min -> at_ b i + d <> at_ b j + d'.
Proof. intros Hne Hd Hd' E. by apply cell_inj in E as [? ?]. Qed.

Lemma at_inj b i j : at_ b i = at_ b j -> i = j.
Proof.
  intros E. apply (cell_inj b i j 0 0); [| |lia]; pose proof Min_range; lia.
Qed.

(** ** The invariant *)

Record geometry (s : buddy) : Prop := {
  g_base : 0 < base s;
  g_end : base s + total s < 2 ^ 64;
  g_total : total s = tag_count s * Min;
  g_mo : 1 <= max_order s <= 64;
  g_cap : 2 ^ (max_order s - 1) <= tag_count s
}.

(** The tag byte of a unit: the order of the block that starts there, with
    the high bit when it is free, 0xFF when none starts or it is cached. *)
Definition tag_ok (t : Z) (x : option (Z * bkind)) : Prop :=
  match x with
  | None => t = __tag_none
  | Some (o, BFree) => t = o + __tag_free
  | Some (o, (BAlloc _ | BTomb)) => t = o
  | Some (_, BCached) => t = __tag_none
  | Some (_, BHole) => True
  end.

(** The header flags of a block in use *)
Definition kind_flags (k : bkind) : option Z :=
  match k with
  | BAlloc false => Some __block_alloc
  | BAlloc true => Some (Z.lor __block_alloc __block_temporal)
  | BTomb => Some __block_tombstone
  | _ => None
  end.

Definition is_at (b : Z) (B : blocks) (o : Z) (k : bkind) (a : Z) : Prop :=
  exists i, a = at_ b i /\ B !! i = Some (o, k).

Record inv (s : buddy) (B : blocks) : Prop := {
  i_geo : geometry s;
  i_til : tiling (max_order s) B;
  i_tags i : 0 <= i < tag_count s -> tag_ok (rd (block_tags s) i) (B !! i);
  i_free o : 0 <= o < max_order s ->
    flist (mem s) (rd (free_lists s) o) (is_at (base s) B o BFree);
  i_tc o : 0 <= o < max_order s ->
    slist (mem s) (rd (tcache s) o) (rd (tcache_count s) o) (is_at (base s) B o BCached)
    /\ rd (tcache_count s) o <= __cache_cap;
  i_mask_range : 0 <= free_mask s < 2 ^ 64;
  i_mask o : 0 <= o ->
    Z.testbit (free_mask s) o = (o <? max_order s) && negb (rd (free_lists s) o =? 0);
  i_hdr i o k f : B !! i = Some (o, k) -> kind_flags k = Some f ->
    hdr_order s (hdr_of Min (at_ (base s) i) o) = o /\
    hdr_flags s (hdr_of Min (at_ (base s) i) o) = f;
  i_cold o : rd (cold_cache s) o = 0 /\ rd (cold_count s) o = 0
}.

(** What every step on free memory leaves alone: the geometry, the byte
    counters, the ring of active blocks and the contents of blocks in use. *)
Record quiet (B : blocks) (s s' : buddy) : Prop := {
  q_base : base s' = base s;
  q_total : total s' = total s;
  q_mo : max_order s' = max_order s;
  q_tc : tag_count s' = tag_count s;
  q_tat : block_tags_at s' = block_tags_at s;
  q_ext : tags_external s' = tags_external s;
  q_alloc : allocated_bytes s' = allocated_bytes s;
  q_tomb : tombstoned_bytes s' = tombstoned_bytes s;
  q_active : active s' = active s;
  q_rotor : active_rotor s' = active_rotor s;
  q_mem i o k a : B !! i = Some (o, k) -> busy k = true ->
    at_ (base s) i <= a < at_ (base s) (i + 2 ^ o) -> rd (mem s') a = rd (mem s) a
}.

Lemma quiet_refl B s : quiet B s s.
Proof. by split. Qed.

Lemma quiet_trans B B' s1 s2 s3 :
  same_busy B B' -> quiet B s1 s2 -> quiet B' s2 s3 -> quiet B s1 s3.
Proof.
  intros HB [] []. split; try congruence.
  intros i o k a Hi Hk Ha. rewrite <- (q_mem0 i o k) by done.
  apply (q_mem1 i o k); [by apply HB|done|]. by rewrite q_base0.
Qed.

(** ** Blocks under the invariant *)

Section Facts.
Context {s : buddy} {B : blocks} (HI : inv s B).

Lemma geo_units : 0 < tag_count s /\ tag_count s < 2 ^ 58 /\ max_order s <= 58 /\
  total s = tag_count s * Min.
Proof.
  destruct (i_geo _ _ HI) as [Hb He Ht Hm Hc]. pose proof Min_range.
  pose proof (pow2_pos (max_order s - 1) ltac:(lia)).
  assert (tag_count s < 2 ^ 58) by nia.
  repeat split; try lia.
  destruct (Z.le_gt_cases (max_order s) 58) as [|Hgt]; [done|].
  pose proof (pow2_le 58 (max_order s - 1) ltac:(lia)). lia.
Qed.

Lemma blk_range i o k : B !! i = Some (o, k) ->
  0 <= i /\ 0 <= o < max_order s /\ (2 ^ o | i) /\ 0 < 2 ^ o /\ i + 2 ^ o <= tag_count s.
Proof.
  intros Hi. destruct (tl_range _ _ (i_til _ _ HI) _ _ _ Hi) as (? & ? & ? & ?).
  pose proof (g_cap _ (i_geo _ _ HI)). pose proof (pow2_pos o ltac:(lia)).
  repeat split; try done; lia.
Qed.

Lemma at_bounds i : 0 <= i < tag_count s ->
  0 < at_ (base s) i /\ base s <= at_ (base s) i /\ at_ (base s) i + Min <= base s + total s.
Proof.
  intros Hi. destruct (i_geo _ _ HI) as [Hb He Ht Hm Hc]. pose proof Min_range.
  unfold at_. nia.
Qed.

Lemma u64_at i : 0 <= i < tag_count s -> u64 (at_ (base s) i - base s) = i * Min.
Proof.
  intros Hi. destruct (i_geo _ _ HI) as [Hb He Ht Hm Hc]. pose proof Min_range.
  unfold at_. rewrite u64_small; [lia|]. nia.
Qed.

Lemma tag_index_at i : 0 <= i < tag_count s -> tag_index Min s (at_ (base s) i) = i.
Proof. intros Hi. unfold tag_index, tag_index_of. rewrite u64_at by done. apply shiftr_min. Qed.

Lemma order_size_eq o : 0 <= o < max_order s -> order_size Min o = Min * 2 ^ o.
Proof.
  intros Ho. destruct (i_geo _ _ HI) as [Hb He Ht Hm Hc].
  pose proof Min_range. unfold order_size. rewrite Z.shiftl_mul_pow2 by lia.
  pose proof (pow2_le o (max_order s - 1) ltac:(lia)). pose proof (pow2_pos o ltac:(lia)).
  apply u64_small. nia.
Qed.

Lemma land_min i : Z.land (i * Min) (Min - 1) = 0.
Proof.
  rewrite (Min_eq (Min := Min)). pose proof (lg_range (Min := Min)).
  rewrite land_mask by lia. apply Z.mod_mul.
  assert (0 < 2 ^ lg Min) by (apply pow2_pos; lia). lia.
Qed.

Lemma link_valid_at i : 0 <= i < tag_count s -> __link_valid Min s (at_ (base s) i) = true.
Proof.
  intros Hi. destruct (at_bounds i Hi) as (Hp & Hl & Hu). pose proof Min_range.
  unfold __link_valid.
  replace (at_ (base s) i - base s) with (i * Min) by (unfold at_; lia).
  rewrite land_min. repeat case_b; done.
Qed.

Lemma hdr_of_at i o k : B !! i = Some (o, k) ->
  hdr_of Min (at_ (base s) i) o = at_ (base s) (i + 2 ^ o - 1) + (Min - 32).
Proof.
  intros Hi. destruct (blk_range _ _ _ Hi) as (? & Ho & _).
  unfold hdr_of. rewrite order_size_eq by done. unfold at_, __hdr_offset. lia.
Qed.

(** A unit inside block [i] lies in no other block. *)
Lemma unit_ne i o k j oj kj u v :
  B !! i = Some (o, k) -> B !! j = Some (oj, kj) -> i <> j ->
  i <= u < i + 2 ^ o -> j <= v < j + 2 ^ oj -> u <> v.
Proof.
  intros Hi Hj Hne Hu Hv. destruct (tl_disj _ _ (i_til _ _ HI) _ _ _ _ _ _ Hi Hj Hne); lia.
Qed.

(** The range of a block contains its cells, and no cell of another block. *)
Lemma cell_out i o k j oj kj v d :
  B !! i = Some (o, k) -> B !! j = Some (oj, kj) -> i <> j ->
  j <= v < j + 2 ^ oj -> 0 <= d < Min ->
  ~ at_ (base s) i <= at_ (base s) v + d < at_ (base s) (i + 2 ^ o).
Proof.
  intros Hi Hj Hne Hv Hd Hr. unfold at_ in Hr.
  destruct (tl_disj _ _ (i_til _ _ HI) _ _ _ _ _ _ Hi Hj Hne); nia.
Qed.

Lemma free_head o : 0 <= o < max_order s -> rd (free_lists s) o <> 0 ->
  exists i, rd (free_lists s) o = at_ (base s) i /\ B !! i = Some (o, BFree).
Proof. intros Ho Hne. exact (flist_head _ _ _ (i_free _ _ HI o Ho) Hne). Qed.

Lemma free_link_valid o i : B !! i = Some (o, BFree) ->
  __link_valid Min s (next s (at_ (base s) i)) = true.
Proof.
  intros Hi. destruct (blk_range _ _ _ Hi) as (? & Ho & _ & ? & ?).
  destruct (Z.eq_dec (next s (at_ (base s) i)) 0) as [E|Hne].
  { rewrite E. done. }
  pose proof (i_free _ _ HI o Ho) as HF.
  assert (Hin : is_at (base s) B o BFree (at_ (base s) i)) by (by exists i).
  unfold next in *.
  destruct (Z.eq_dec (rd (free_lists s) o) (at_ (base s) i)) as [E|Hh].
  - assert (rd (free_lists s) o <> 0) as Hh0 by (by eapply flist_empty).
    pose proof (flist_pop _ _ _ HF Hh0) as HF'. rewrite E in HF'.
    destruct (flist_head _ _ _ HF' Hne) as [(j & -> & Hj) _].
    destruct (blk_range _ _ _ Hj) as (? & _ & _ & ? & ?). apply link_valid_at. lia.
  - destruct (flist_inner _ _ _ _ HF Hin Hh) as (_ & Hn).
    destruct (Hn Hne) as ((j & -> & Hj) & _).
    destruct (blk_range _ _ _ Hj) as (? & _ & _ & ? & ?). apply link_valid_at. lia.
Qed.

Lemma cached_link_valid o : 0 <= o < max_order s -> rd (tcache s) o <> 0 ->
  __link_valid Min s (next s (rd (tcache s) o)) = true.
Proof.
  intros Ho Hne. destruct (i_tc _ _ HI o Ho) as [HS _].
  destruct (slist_pop _ _ _ _ HS Hne) as (_ & _ & HS').
  unfold next. destruct (Z.eq_dec (rd (mem s) (rd (tcache s) o + 0)) 0) as [->|Hn]; [done|].
  destruct (slist_pop _ _ _ _ HS' Hn) as (((j & -> & Hj) & _) & _).
  destruct (blk_range _ _ _ Hj) as (? & _ & _ & ? & ?). apply link_valid_at. lia.
Qed.

Lemma at_pos i o k : B !! i = Some (o, k) -> at_ (base s) i <> 0.
Proof.
  intros Hi. destruct (blk_range _ _ _ Hi) as (? & _ & _ & ? & ?).
  destruct (at_bounds i ltac:(lia)). lia.
Qed.
End Facts.

(** Membership of the lists after one block changes use. *)
Lemma is_at_insert b B i o k o' k' oq kq a :
  B !! i = Some (o, k) -> (o', k') <> (oq, kq) ->
  is_at b (<[i := (o', k')]> B) oq kq a <-> is_at b B oq kq a /\ a <> at_ b i.
Proof.
  intros Hi Hne. split.
  - intros (j & -> & Hj). destruct (Z.eq_dec i j) as [->|Hij].
    + rewrite lookup_insert_eq in Hj. congruence.
    + rewrite lookup_insert_ne in Hj by done. split; [by exists j|].
      intros E. by apply at_inj in E.
  - intros ((j & -> & Hj) & Hij). exists j. split; [done|].
    rewrite lookup_insert_ne; [done|]. intros ->. done.
Qed.

Lemma is_at_insert_new b B i o k a :
  is_at b (<[i := (o, k)]> B) o k a <->
  a = at_ b i \/ (is_at b B o k a /\ a <> at_ b i).
Proof.
  split.
  - intros (j & -> & Hj). destruct (Z.eq_dec i j) as [->|Hij]; [by left|].
    rewrite lookup_insert_ne in Hj by done. right. split; [by exists j|].
    intros E. by apply at_inj in E.
  - intros [->|((j & -> & Hj) & Hij)].
    + exists i. by rewrite lookup_insert_eq.
    + exists j. split; [done|]. rewrite lookup_insert_ne; [done|]. intros ->. done.
Qed.

(** The list of [(oq, kq)] is untouched when the block's use was and becomes
    something else. *)
Lemma is_at_same b B i o k o' k' oq kq a :
  B !! i = Some (o, k) -> (o, k) <> (oq, kq) -> (o', k') <> (oq, kq) ->
  is_at b B oq kq a <-> is_at b (<[i := (o', k')]> B) oq kq a.
Proof.
  intros Hi H1 H2. rewrite (is_at_insert _ _ _ _ _ _ _ _ _ _ Hi H2). split.
  - intros (j & -> & Hj). split; [by exists j|]. intros E. apply at_inj in E. congruence.
  - tauto.
Qed.

(** ** Tag arithmetic *)

Lemma lor_tag o : 0 <= o < 128 -> Z.lor o __tag_free = o + __tag_free.
Proof.
  intros Ho. symmetry.
  rewrite Z.add_nocarry_lxor, Z.lxor_lor; [done| |].
  all: apply Z.bits_inj'; intros n Hn; rewrite Z.land_spec, Z.bits_0.
  all: unfold __tag_free; change 128 with (2 ^ 7); rewrite Z.pow2_bits_eqb by lia.
  all: destruct (Z.eqb_spec 7 n) as [<-|]; [|by rewrite andb_false_r].
  all: by rewrite (testbit_above o 7) by lia.
Qed.

Lemma u8_tag o : 0 <= o < 64 -> u8 (Z.lor o __tag_free) = o + __tag_free.
Proof. intros. rewrite lor_tag by lia. apply u8_small. unfold __tag_free. lia. Qed.

Lemma ldiff_tag o : 0 <= o < 64 -> Z.ldiff o __tag_free = o.
Proof.
  intros Ho. apply Z.bits_inj'. intros n Hn. rewrite Z.ldiff_spec.
  unfold __tag_free. change 128 with (2 ^ 7). rewrite Z.pow2_bits_eqb by lia.
  destruct (Z.eqb_spec 7 n) as [<-|]; [|by rewrite andb_true_r].
  by rewrite (testbit_above o 7) by lia.
Qed.

Lemma ldiff_tag_free o : 0 <= o < 64 -> Z.ldiff (o + __tag_free) __tag_free = o.
Proof.
  intros Ho. rewrite <- lor_tag by lia. apply Z.bits_inj'. intros n Hn.
  rewrite Z.ldiff_spec, Z.lor_spec. unfold __tag_free. change 128 with (2 ^ 7).
  rewrite Z.pow2_bits_eqb by lia.
  destruct (Z.eqb_spec 7 n) as [<-|]; [rewrite (testbit_above o 7) by lia; done|].
  by rewrite orb_false_r, andb_true_r.
Qed.

(** ** Steps that only change what a block counts as *)

Definition listed (k : bkind) : bool :=
  match k with BFree | BCached => true | _ => false end.

Lemma is_at_listed_insert b B i o oq kq a :
  listed kq = true -> (forall k, B !! i = Some (oq, k) -> k <> kq) ->
  is_at b B oq kq a <-> is_at b (<[i := (o, BHole)]> B) oq kq a.
Proof.
  intros Hk Hi. split; intros (j & -> & Hj); exists j; (split; [done|]).
  - rewrite lookup_insert_ne; [done|]. intros ->. by apply (Hi _ Hj).
  - destruct (Z.eq_dec i j) as [->|]; [|by rewrite lookup_insert_ne in Hj].
    rewrite lookup_insert_eq in Hj. simplify_eq.
Qed.

Lemma inv_release s B i o k :
  inv s B -> B !! i = Some (o, k) -> listed k = false ->
  inv s (<[i := (o, BHole)]> B).
Proof.
  intros HI Hi Hk. destruct HI as [Hg Ht Htg Hf Htc Hmr Hm Hh Hc]. split; try done.
  - by eapply tiling_recolor.
  - intros j Hj. destruct (Z.eq_dec i j) as [->|].
    + by rewrite lookup_insert_eq.
    + rewrite lookup_insert_ne by done. by apply Htg.
  - intros oq Hoq. eapply flist_frame; [by apply Hf| |done|done].
    intros a. apply is_at_listed_insert; [done|].
    intros k'. rewrite Hi. intros ?; simplify_eq. by intros ->.
  - intros oq Hoq. destruct (Htc oq Hoq) as [HS Hcap]. split; [|done].
    eapply slist_frame; [exact HS| |done].
    intros a. apply is_at_listed_insert; [done|].
    intros k'. rewrite Hi. intros ?; simplify_eq. by intros ->.
  - intros j oj kj f Hj Hf'. destruct (Z.eq_dec i j) as [->|].
    + rewrite lookup_insert_eq in Hj. by simplify_eq.
    + rewrite lookup_insert_ne in Hj by done. by eapply Hh.
Qed.

(** A hole can be cut in two, and two buddy holes whose upper half carries no
    tag can be joined. *)
Lemma inv_split_hole s B i o :
  inv s B -> 0 <= o -> B !! i = Some (o + 1, BHole) ->
  inv s (<[i := (o, BHole)]> (<[i + 2 ^ o := (o, BHole)]> B)).
Proof.
  intros HI Ho Hi. pose proof (pow2_pos o Ho).
  destruct (tiling_split (i_til _ _ HI) i o BHole BHole BHole Ho Hi) as [HT Hnone].
  assert (Hsame : forall oq kq a, listed kq = true ->
    is_at (base s) B oq kq a <->
    is_at (base s) (<[i := (o, BHole)]> (<[i + 2 ^ o := (o, BHole)]> B)) oq kq a).
  { intros oq kq a Hk.
    rewrite <- is_at_listed_insert; [| done |].
    - apply is_at_listed_insert; [done|]. congruence.
    - intros k. rewrite lookup_insert_ne by lia. intros Hk'.
      rewrite Hi in Hk'. simplify_eq. intros <-. done. }
  destruct HI as [Hg Ht Htg Hf Htc Hmr Hm Hh Hc]. split; try done.
  - intros j Hj. destruct (Z.eq_dec i j) as [->|]; [by rewrite lookup_insert_eq|].
    rewrite lookup_insert_ne by done.
    destruct (Z.eq_dec (i + 2 ^ o) j) as [->|]; [by rewrite lookup_insert_eq|].
    rewrite lookup_insert_ne by done. by apply Htg.
  - intros oq Hoq. eapply flist_frame; [by apply Hf| |done|done]. intros a. by apply Hsame.
  - intros oq Hoq. destruct (Htc oq Hoq) as [HS Hcap]. split; [|done].
    eapply slist_frame; [exact HS| |done]. intros a. by apply Hsame.
  - intros j oj kj f Hj Hf'. destruct (Z.eq_dec i j) as [->|].
    { rewrite lookup_insert_eq in Hj. by simplify_eq. }
    rewrite lookup_insert_ne in Hj by done.
    destruct (Z.eq_dec (i + 2 ^ o) j) as [<-|].
    { rewrite lookup_insert_eq in Hj. by simplify_eq. }
    rewrite lookup_insert_ne in Hj by done. by eapply Hh.
Qed.

Lemma inv_merge_hole s B i o :
  inv s B -> o < max_order s - 1 ->
  B !! i = Some (o, BHole) -> B !! buddy_ix i o = Some (o, BHole) ->
  let lo := Z.min i (buddy_ix i o) in
  let hi := Z.max i (buddy_ix i o) in
  rd (block_tags s) hi = __tag_none ->
  inv s (<[lo := (o + 1, BHole)]> (delete hi B)).
Proof.
  intros HI Ho Hi Hb lo hi Htag.
  pose proof (tiling_merge (i_til _ _ HI) i o BHole BHole BHole Ho Hi Hb) as HT.
  cbn zeta in HT. fold lo hi in HT.
  assert (Hlo : B !! lo = Some (o, BHole)) by (subst lo; destruct (Z.min_spec i (buddy_ix i o)) as [[_ ->]|[_ ->]]; done).
  assert (Hhi : B !! hi = Some (o, BHole)) by (subst hi; destruct (Z.max_spec i (buddy_ix i o)) as [[_ ->]|[_ ->]]; done).
  clearbody lo hi.
  assert (Hlk : forall j oj kj, kj <> BHole ->
    <[lo := (o + 1, BHole)]> (delete hi B) !! j = Some (oj, kj) <-> B !! j = Some (oj, kj)).
  { intros j oj kj Hk. destruct (Z.eq_dec lo j) as [<-|].
    { rewrite lookup_insert_eq, Hlo. split; congruence. }
    rewrite lookup_insert_ne by done. destruct (Z.eq_dec hi j) as [<-|].
    { rewrite lookup_delete_eq, Hhi. split; congruence. }
    by rewrite lookup_delete_ne. }
  assert (Hsame : forall oq kq a, listed kq = true ->
    is_at (base s) B oq kq a <->
    is_at (base s) (<[lo := (o + 1, BHole)]> (delete hi B)) oq kq a).
  { intros oq kq a Hk. unfold is_at. setoid_rewrite Hlk; [done|]. by intros ->. }
  destruct HI as [Hg Ht Htg Hf Htc Hmr Hm Hh Hc]. split; try done.
  - intros j Hj. destruct (Z.eq_dec lo j) as [<-|]; [by rewrite lookup_insert_eq|].
    rewrite lookup_insert_ne by done.
    destruct (Z.eq_dec hi j) as [<-|]; [by rewrite lookup_delete_eq|].
    rewrite lookup_delete_ne by done. by apply Htg.
  - intros oq Hoq. eapply flist_frame; [by apply Hf| |done|done]. intros a. by apply Hsame.
  - intros oq Hoq. destruct (Htc oq Hoq) as [HS Hcap]. split; [|done].
    eapply slist_frame; [exact HS| |done]. intros a. by apply Hsame.
  - intros j oj kj f Hj Hf'. eapply Hh; [|exact Hf']. apply Hlk; [|done]. by intros ->.
Qed.

(** ** Steps that move one block

    The parts of the state an operation on free memory never touches. *)
Record same_rest (s s' : buddy) : Prop := {
  sr_base : base s' = base s;
  sr_total : total s' = total s;
  sr_mo : max_order s' = max_order s;
  sr_tc : tag_count s' = tag_count s;
  sr_tat : block_tags_at s' = block_tags_at s;
  sr_ext : tags_external s' = tags_external s;
  sr_active : active s' = active s;
  sr_rotor : active_rotor s' = active_rotor s;
  sr_cold : cold_cache s' = cold_cache s;
  sr_coldn : cold_count s' = cold_count s
}.

(** All cells of the blocks other than [i] that are not free at order [o] *)
Definition cells_kept (s s' : buddy) (B : blocks) (i o : Z) : Prop :=
  forall j oj kj v d, B !! j = Some (oj, kj) -> j <> i -> (oj, kj) <> (o, BFree) ->
    j <= v < j + 2 ^ oj -> 0 <= d < Min ->
    rd (mem s') (at_ (base s) v + d) = rd (mem s) (at_ (base s) v + d).

(** A step that changes the use of block [i] of order [o] and touches no list
    of another order preserves the invariant if it does at order [o]. *)
Lemma inv_update s s' B i o k k' :
  inv s B -> B !! i = Some (o, k) -> same_rest s s' -> cells_kept s s' B i o ->
  tag_ok (rd (block_tags s') i) (Some (o, k')) ->
  (forall j, j <> i -> rd (block_tags s') j = rd (block_tags s) j) ->
  (forall oq, oq <> o -> rd (free_lists s') oq = rd (free_lists s) oq /\
     rd (tcache s') oq = rd (tcache s) oq /\ rd (tcache_count s') oq = rd (tcache_count s) oq /\
     Z.testbit (free_mask s') oq = Z.testbit (free_mask s) oq) ->
  flist (mem s') (rd (free_lists s') o) (is_at (base s) (<[i := (o, k')]> B) o BFree) ->
  slist (mem s') (rd (tcache s') o) (rd (tcache_count s') o)
    (is_at (base s) (<[i := (o, k')]> B) o BCached) ->
  rd (tcache_count s') o <= __cache_cap ->
  0 <= free_mask s' < 2 ^ 64 ->
  Z.testbit (free_mask s') o = negb (rd (free_lists s') o =? 0) ->
  (forall f, kind_flags k' = Some f ->
    hdr_order s' (hdr_of Min (at_ (base s) i) o) = o /\
    hdr_flags s' (hdr_of Min (at_ (base s) i) o) = f) ->
  inv s' (<[i := (o, k')]> B).
Proof.
  intros HI Hi [Eb Et Em Ec _ _ _ _ Ecc Ecn] Hcell Htag Htags Hoth Hfl Htc Hcap Hmr Hmo Hhdr.
  pose proof Min_range as HM0. destruct (blk_range HI _ _ _ Hi) as (Hi0 & Ho & _ & Hp & Hend).
  split; rewrite ?Eb, ?Em, ?Ec, ?Ecc, ?Ecn; try done.
  - destruct (i_geo _ _ HI). by split; rewrite ?Eb, ?Et, ?Em, ?Ec.
  - eapply tiling_recolor; [apply HI|done].
  - intros j Hj. destruct (Z.eq_dec i j) as [<-|].
    + by rewrite lookup_insert_eq.
    + rewrite Htags, lookup_insert_ne by done. by apply HI.
  - intros oq Hoq. destruct (Z.eq_dec oq o) as [->|Hne]; [done|].
    destruct (Hoth oq Hne) as (-> & _).
    eapply flist_frame; [by apply (i_free _ _ HI)| | |].
    + intros x. eapply is_at_same; [exact Hi|congruence|congruence].
    + intros x (j & -> & Hj). pose proof (blk_range HI _ _ _ Hj).
      apply (Hcell j oq BFree); try done; try lia; congruence.
    + intros x (j & -> & Hj). pose proof (blk_range HI _ _ _ Hj).
      apply (Hcell j oq BFree); try done; try lia; congruence.
  - intros oq Hoq. destruct (Z.eq_dec oq o) as [->|Hne]; [done|].
    destruct (Hoth oq Hne) as (_ & -> & -> & _).
    destruct (i_tc _ _ HI oq Hoq) as [HS Hcap']. split; [|done].
    eapply slist_frame; [exact HS| |].
    + intros x. eapply is_at_same; [exact Hi|congruence|congruence].
    + intros x (j & -> & Hj). pose proof (blk_range HI _ _ _ Hj).
      apply (Hcell j oq BCached); try done; try lia; congruence.
  - intros oq Hoq. destruct (Z.eq_dec oq o) as [->|Hne].
    + rewrite Hmo. by destruct (Z.ltb_spec o (max_order s)); [|lia].
    + destruct (Hoth oq Hne) as (-> & _ & _ & ->). by apply HI.
  - intros j oj kj f Hj Hf. destruct (Z.eq_dec i j) as [<-|Hne].
    { rewrite lookup_insert_eq in Hj. simplify_eq. by apply Hhdr. }
    rewrite lookup_insert_ne in Hj by done. unfold hdr_order, hdr_flags.
    pose proof (blk_range HI _ _ _ Hj). pose proof (i_hdr _ _ HI _ _ _ _ Hj Hf) as HH.
    unfold hdr_order, hdr_flags in HH.
    rewrite (hdr_of_at HI _ _ _ Hj) in *. rewrite <- !Z.add_assoc in *.
    rewrite !(Hcell j oj kj) by (done || lia || (intros ?; simplify_eq)). done.
  - apply HI.
Qed.

(** [cells_kept] and the lists that are not of free blocks of order [o] *)
Lemma cached_kept s s' B i o k k' :
  inv s B -> B !! i = Some (o, k) -> k <> BCached -> k' <> BCached ->
  cells_kept s s' B i o -> tcache s' = tcache s -> tcache_count s' = tcache_count s ->
  slist (mem s') (rd (tcache s') o) (rd (tcache_count s') o)
    (is_at (base s) (<[i := (o, k')]> B) o BCached) /\ rd (tcache_count s') o <= __cache_cap.
Proof.
  intros HI Hi Hk Hk' Hcell -> ->. pose proof Min_range as HM0.
  destruct (blk_range HI _ _ _ Hi) as (_ & Ho & _).
  destruct (i_tc _ _ HI o Ho) as [HS Hcap]. split; [|done].
  eapply slist_frame; [exact HS| |].
  - intros x. eapply is_at_same; [exact Hi|congruence|congruence].
  - intros x (j & -> & Hj). pose proof (blk_range HI _ _ _ Hj).
    apply (Hcell j o BCached); try done; try lia; congruence.
Qed.

(** [quiet] for steps that write only inside non-busy blocks *)
Lemma quiet_of_rest s s' B :
  same_rest s s' -> allocated_bytes s' = allocated_bytes s ->
  tombstoned_bytes s' = tombstoned_bytes s ->
  (forall j o k a, B !! j = Some (o, k) -> busy k = true ->
    at_ (base s) j <= a < at_ (base s) (j + 2 ^ o) -> rd (mem s') a = rd (mem s) a) ->
  quiet B s s'.
Proof. intros [] ? ? ?. by split. Qed.

Ltac open_push hd :=
  unfold freelist_push_off, set_next, set_prev, mask_set;
  destruct (Z.eqb_spec hd 0); cbn.

(** ** Pushing a hole on its free list *)

Section Push.
Context (s : buddy) (B : blocks) (i o : Z).
Context (HI : inv s B) (Hi : B !! i = Some (o, BHole)).

Local Abbreviation a := (at_ (base s) i).
Local Abbreviation h := (rd (free_lists s) o).
Local Abbreviation s' := (freelist_push_off Min s a o (i * Min)).

Lemma push_rd c : c <> a + 0 -> (h <> 0 -> c <> h + 8) -> rd (mem s') c = rd (mem s) c.
Proof.
  intros H0 H8. open_push (rd (free_lists s) o); [by rewrite rd_wr_ne|].
  rewrite rd_wr_ne by (intros <-; by apply H8). by rewrite rd_wr_ne.
Qed.

Lemma push_links : rd (mem s') (a + 0) = h /\ (h <> 0 -> rd (mem s') (h + 8) = a).
Proof.
  destruct (blk_range HI _ _ _ Hi) as (_ & Ho & _). pose proof Min_range.
  pose proof (free_head HI o Ho) as Hhead.
  open_push (rd (free_lists s) o); [by rewrite rd_wr_eq|]. rewrite rd_wr_eq. split; [|done].
  rewrite rd_wr_ne; [by rewrite rd_wr_eq|].
  destruct Hhead as (j & -> & _); [done|]. apply cell_off_ne; lia.
Qed.

Lemma push_kept : cells_kept s s' B i o.
Proof.
  intros j oj kj v d Hj Hne Hk Hv Hd. pose proof Min_range.
  destruct (blk_range HI _ _ _ Hi) as (_ & Ho & _ & ? & _). apply push_rd.
  - apply cell_unit_ne; [|lia|lia]. apply (unit_ne HI _ _ _ _ _ _ v i Hj Hi Hne Hv). lia.
  - intros Hh. destruct (free_head HI o Ho Hh) as (jh & Eh & Hjh). rewrite Eh.
    pose proof (blk_range HI _ _ _ Hjh).
    apply cell_unit_ne; [|lia|lia]. apply (unit_ne HI _ _ _ _ _ _ v jh Hj Hjh); [congruence|done|lia].
Qed.

Lemma push_fields :
  same_rest s s' /\ allocated_bytes s' = allocated_bytes s /\
  tombstoned_bytes s' = tombstoned_bytes s /\ tcache s' = tcache s /\
  tcache_count s' = tcache_count s /\ free_lists s' = wr (free_lists s) o a /\
  block_tags s' = wr (block_tags s) i (o + __tag_free) /\
  free_mask s' = (if h =? 0 then bit_set (free_mask s) o else free_mask s).
Proof.
  destruct (blk_range HI _ _ _ Hi) as (_ & Ho & _).
  pose proof (geo_units HI) as (_ & _ & Hmo & _).
  rewrite <- u8_tag by lia.
  open_push (rd (free_lists s) o); rewrite !shiftr_min; by repeat split.
Qed.

Lemma push_list :
  flist (mem s') a (is_at (base s) (<[i := (o, BFree)]> B) o BFree).
Proof.
  destruct (blk_range HI _ _ _ Hi) as (_ & Ho & _ & ? & _). pose proof Min_range.
  destruct push_links as [Hn Hp].
  assert (Hna : ~ is_at (base s) B o BFree a).
  { intros (j & Ej & Hj). apply at_inj in Ej. congruence. }
  eapply flist_frame; [eapply (flist_push (mem s) (mem s') h a)| |done|done].
  - apply (i_free _ _ HI o Ho).
  - apply (at_pos HI _ _ _ Hi).
  - exact Hna.
  - exact Hn.
  - exact Hp.
  - intros x (j & -> & Hj). pose proof (blk_range HI _ _ _ Hj). apply push_rd.
    + apply cell_unit_ne; [congruence|lia|lia].
    + intros Hh. destruct (free_head HI o Ho Hh) as (jh & -> & _). apply cell_off_ne; lia.
  - intros x (j & -> & Hj) Hxh. apply push_rd; [apply cell_off_ne; lia|lia].
  - intros x. rewrite is_at_insert_new. split.
    + intros [->|Hx]; [by left|]. right. split; [done|]. by intros ->.
    + intros [->|[Hx _]]; auto.
Qed.

Lemma inv_push : inv s' (<[i := (o, BFree)]> B) /\ quiet B s s'.
Proof.
  destruct (blk_range HI _ _ _ Hi) as (_ & Ho & _ & ? & _).
  destruct push_fields as (Hsr & Ea & Etb & Etc & Etn & Efl & Etg & Emk).
  assert (Hane : a <> 0) by (apply (at_pos HI _ _ _ Hi)).
  destruct (cached_kept s s' B i o BHole BFree HI Hi) as [HS Hcap]; try done; [apply push_kept|].
  pose proof push_list as HL. pose proof (i_mask_range _ _ HI) as Hmr.
  split; [apply (inv_update s s' B i o BHole BFree)|apply quiet_of_rest]; try done.
  - apply push_kept.
  - by rewrite Etg, rd_wr_eq.
  - intros j Hj. by rewrite Etg, rd_wr_ne.
  - intros oq Hoq. rewrite Efl, Etc, Etn, Emk, rd_wr_ne by done. repeat split.
    destruct (h =? 0); [|done]. destruct (Z.lt_ge_cases oq 0).
    { by rewrite !Z.testbit_neg_r. }
    rewrite testbit_bit_set by lia. case_b. by rewrite orb_false_r.
  - by rewrite Efl, rd_wr_eq.
  - rewrite Emk. destruct (h =? 0); [|done].
    pose proof (geo_units HI) as (_ & _ & ? & _). apply bit_set_range; lia.
  - rewrite Emk, Efl, rd_wr_eq. destruct (Z.eqb_spec a 0); [done|].
    destruct (Z.eqb_spec h 0) as [|Hh].
    + rewrite testbit_bit_set, Z.eqb_refl by lia. by rewrite orb_true_r.
    + rewrite (i_mask _ _ HI) by lia. by repeat case_b.
  - intros j oj kj c Hj Hk Hc. pose proof Min_range. apply push_rd.
    + intros ->. revert Hc. apply (cell_out HI _ _ _ _ _ _ i 0 Hj Hi); [intros ->; by simplify_eq|lia|lia].
    + intros Hh. destruct (free_head HI o Ho Hh) as (jh & -> & Hjh). intros ->. revert Hc.
      pose proof (blk_range HI _ _ _ Hjh).
      apply (cell_out HI _ _ _ _ _ _ jh 8 Hj Hjh); [intros ->; by simplify_eq|lia|lia].
Qed.
End Push.

(** ** Taking a free block off its list *)

(** [freelist_remove] of the head, which is also the head of [__take_and_split] *)
Definition take_head (s : buddy) (o : Z) : buddy :=
  let nx := next s (rd (free_lists s) o) in
  let s := set_free_lists s (wr (free_lists s) o nx) in
  if nx =? 0 then set_mask s (bit_clr (free_mask s) o) else s.

Lemma is_at_removed b B i o a :
  is_at b B o BFree a /\ a <> at_ b i <-> is_at b (<[i := (o, BHole)]> B) o BFree a.
Proof.
  split.
  - intros [(j & -> & Hj) Hne]. exists j. split; [done|].
    rewrite lookup_insert_ne; [done|]. by intros ->.
  - intros (j & -> & Hj). destruct (Z.eq_dec i j) as [->|Hne].
    { rewrite lookup_insert_eq in Hj. simplify_eq. }
    rewrite lookup_insert_ne in Hj by done. split; [by exists j|].
    intros E. by apply at_inj in E.
Qed.

Lemma inv_take_head s B o i :
  inv s B -> B !! i = Some (o, BFree) -> rd (free_lists s) o = at_ (base s) i ->
  inv (take_head s o) (<[i := (o, BHole)]> B) /\ quiet B s (take_head s o) /\
  block_tags (take_head s o) = block_tags s.
Proof.
  intros HI Hi Hh. destruct (blk_range HI _ _ _ Hi) as (_ & Ho & _ & ? & _).
  set (nx := next s (rd (free_lists s) o)). set (s' := take_head s o).
  assert (Hf : same_rest s s' /\ allocated_bytes s' = allocated_bytes s /\
    tombstoned_bytes s' = tombstoned_bytes s /\ tcache s' = tcache s /\
    tcache_count s' = tcache_count s /\ free_lists s' = wr (free_lists s) o nx /\
    block_tags s' = block_tags s /\ mem s' = mem s /\
    free_mask s' = (if nx =? 0 then bit_clr (free_mask s) o else free_mask s)).
  { subst s'. unfold take_head. fold nx. by destruct (nx =? 0). }
  destruct Hf as (Hsr & Ea & Etb & Etc & Etn & Efl & Etg & Emm & Emk).
  assert (Hkept : cells_kept s s' B i o) by (intros j oj kj v d _ _ _ _ _; by rewrite Emm).
  destruct (cached_kept s s' B i o BFree BHole HI Hi) as [HS Hcap]; try done.
  pose proof (i_mask_range _ _ HI) as Hmr.
  pose proof (flist_pop _ _ _ (i_free _ _ HI o Ho)) as HP.
  split; [apply (inv_update s s' B i o BFree BHole)|split; [apply quiet_of_rest|]]; try done.
  - intros j Hj. by rewrite Etg.
  - intros oq Hoq. rewrite Efl, Etc, Etn, Emk, rd_wr_ne by done. repeat split.
    destruct (nx =? 0); [|done]. destruct (Z.lt_ge_cases oq 0).
    { by rewrite !Z.testbit_neg_r. }
    rewrite testbit_bit_clr by lia. case_b. by rewrite andb_true_r.
  - rewrite Efl, rd_wr_eq, Emm. eapply flist_frame; [apply HP| |done|done].
    + rewrite Hh. by eapply at_pos.
    + intros x. rewrite Hh. apply is_at_removed.
  - rewrite Emk. destruct (nx =? 0); [|done]. apply bit_clr_range; lia.
  - rewrite Emk, Efl, rd_wr_eq. destruct (Z.eqb_spec nx 0) as [|Hn].
    + rewrite testbit_bit_clr, Z.eqb_refl by lia. by rewrite andb_false_r.
    + rewrite (i_mask _ _ HI) by lia. rewrite Hh. pose proof (at_pos HI _ _ _ Hi).
      by repeat case_b.
  - intros. by rewrite Emm.
Qed.

(** [freelist_remove] of an inner node *)
Definition unlink_inner (s : buddy) (node : Z) : buddy :=
  let next_ := next s node in
  let prev_ := prev s node in
  let s := set_next s prev_ next_ in
  if negb (next_ =? 0) then set_prev s next_ prev_ else s.

Section Unlink.
Context (s : buddy) (B : blocks) (i o : Z).
Context (HI : inv s B) (Hi : B !! i = Some (o, BFree)).
Context (Hne : rd (free_lists s) o <> at_ (base s) i).

Local Abbreviation a := (at_ (base s) i).
Local Abbreviation p := (prev s a).
Local Abbreviation n := (next s a).
Local Abbreviation s' := (unlink_inner s a).

Lemma unlink_neighbours :
  (exists jp, p = at_ (base s) jp /\ B !! jp = Some (o, BFree) /\ jp <> i) /\
  next s p = a /\
  (n <> 0 -> (exists jn, n = at_ (base s) jn /\ B !! jn = Some (o, BFree) /\ jn <> i) /\
     n <> p /\ prev s n = a).
Proof.
  destruct (blk_range HI _ _ _ Hi) as (_ & Ho & _).
  assert (Hin : is_at (base s) B o BFree a) by (by exists i).
  destruct (flist_inner _ _ _ _ (i_free _ _ HI o Ho) Hin Hne) as (((jp & Ejp & Hjp) & Hpa & Hpn) & Hn).
  unfold next, prev in *. split; [|split; [done|]].
  - exists jp. repeat split; try done. intros ->. congruence.
  - intros Hn0. destruct (Hn Hn0) as ((jn & Ejn & Hjn) & Hna & Hnp & _ & Hb).
    split; [|done]. exists jn. repeat split; try done. intros ->. congruence.
Qed.

Lemma unlink_rd c :
  c <> p + 0 -> (n <> 0 -> c <> n + 8) -> rd (mem s') c = rd (mem s) c.
Proof.
  intros H0 H8. unfold unlink_inner, set_next, set_prev. destruct (Z.eqb_spec n 0); cbn.
  - by rewrite rd_wr_ne.
  - rewrite rd_wr_ne by (intros <-; by apply H8). by rewrite rd_wr_ne.
Qed.

Lemma unlink_links : rd (mem s') (p + 0) = n /\ (n <> 0 -> rd (mem s') (n + 8) = p).
Proof.
  pose proof Min_range. destruct unlink_neighbours as ((jp & Ep & _) & _ & Hn).
  unfold unlink_inner, set_next, set_prev. destruct (Z.eqb_spec n 0) as [|Hn0]; cbn.
  - by rewrite rd_wr_eq.
  - rewrite rd_wr_eq. split; [|done]. rewrite rd_wr_ne; [by rewrite rd_wr_eq|].
    destruct (Hn Hn0) as ((jn & -> & _) & _). rewrite Ep. apply cell_off_ne; lia.
Qed.

Lemma unlink_kept : cells_kept s s' B i o.
Proof.
  intros j oj kj v d Hj Hji Hk Hv Hd. pose proof Min_range.
  destruct unlink_neighbours as ((jp & Ep & Hjp & _) & _ & Hn). apply unlink_rd.
  - rewrite Ep. pose proof (blk_range HI _ _ _ Hjp). apply cell_unit_ne; [|lia|lia].
    apply (unit_ne HI _ _ _ _ _ _ v jp Hj Hjp); [congruence|done|lia].
  - intros Hn0. destruct (Hn Hn0) as ((jn & -> & Hjn & _) & _).
    pose proof (blk_range HI _ _ _ Hjn). apply cell_unit_ne; [|lia|lia].
    apply (unit_ne HI _ _ _ _ _ _ v jn Hj Hjn); [congruence|done|lia].
Qed.

Lemma unlink_list :
  flist (mem s') (rd (free_lists s) o) (is_at (base s) (<[i := (o, BHole)]> B) o BFree).
Proof.
  destruct (blk_range HI _ _ _ Hi) as (_ & Ho & _). pose proof Min_range.
  destruct unlink_neighbours as ((jp & Ep & Hjp & _) & _ & Hn). destruct unlink_links as [Hp' Hn'].
  eapply flist_frame; [apply (flist_unlink (mem s) (mem s') (rd (free_lists s) o) (is_at (base s) B o BFree) a)| |done|done]; try done.
  - by apply (i_free _ _ HI).
  - by exists i.
  - intros x (j & -> & Hj) _ Hxp. apply unlink_rd; [unfold prev; lia|].
    intros Hn0. destruct (Hn Hn0) as ((jn & -> & _) & _). apply cell_off_ne; lia.
  - intros x (j & -> & Hj) _ Hxn. apply unlink_rd; [|unfold next; lia].
    rewrite Ep. apply cell_off_ne; lia.
  - intros x. apply is_at_removed.
Qed.

Lemma inv_unlink_inner :
  inv s' (<[i := (o, BHole)]> B) /\ quiet B s s' /\ block_tags s' = block_tags s.
Proof.
  destruct (blk_range HI _ _ _ Hi) as (_ & Ho & _).
  assert (Hf : same_rest s s' /\ allocated_bytes s' = allocated_bytes s /\
    tombstoned_bytes s' = tombstoned_bytes s /\ tcache s' = tcache s /\
    tcache_count s' = tcache_count s /\ free_lists s' = free_lists s /\
    block_tags s' = block_tags s /\ free_mask s' = free_mask s).
  { unfold unlink_inner. by destruct (negb (n =? 0)). }
  destruct Hf as (Hsr & Ea & Etb & Etc & Etn & Efl & Etg & Emk).
  destruct (cached_kept s s' B i o BFree BHole HI Hi) as [HS Hcap]; try done; [apply unlink_kept|].
  pose proof unlink_list as HL. pose proof (i_mask_range _ _ HI) as Hmr.
  split; [apply (inv_update s s' B i o BFree BHole)|split; [apply quiet_of_rest|]]; try done.
  - apply unlink_kept.
  - intros j Hj. by rewrite Etg.
  - intros oq Hoq. by rewrite Efl, Etc, Etn, Emk.
  - by rewrite Efl.
  - by rewrite Emk.
  - rewrite Emk, Efl, (i_mask _ _ HI) by lia. by destruct (Z.ltb_spec o (max_order s)); [|lia].
  - intros j oj kj c Hj Hk Hc. pose proof Min_range.
    destruct unlink_neighbours as ((jp & Ep & Hjp & _) & _ & Hn). apply unlink_rd.
    + rewrite Ep. intros ->. revert Hc. pose proof (blk_range HI _ _ _ Hjp).
      apply (cell_out HI _ _ _ _ _ _ jp 0 Hj Hjp); [intros ->; by simplify_eq|lia|lia].
    + intros Hn0. destruct (Hn Hn0) as ((jn & -> & Hjn & _) & _). intros ->. revert Hc.
      pose proof (blk_range HI _ _ _ Hjn).
      apply (cell_out HI _ _ _ _ _ _ jn 8 Hj Hjn); [intros ->; by simplify_eq|lia|lia].
Qed.
End Unlink.

(** Under the invariant [freelist_remove] always takes one of the two fast
    paths: it never falls back on the walk and never fails. *)
Lemma inv_freelist_remove s B i o :
  inv s B -> B !! i = Some (o, BFree) ->
  exists s', freelist_remove Min s (at_ (base s) i) o = (true, s') /\
    inv s' (<[i := (o, BHole)]> B) /\ quiet B s s' /\ block_tags s' = block_tags s.
Proof.
  intros HI Hi. pose proof (free_link_valid HI _ _ Hi) as Hlv. unfold freelist_remove.
  destruct (Z.eqb_spec (rd (free_lists s) o) (at_ (base s) i)) as [Hh|Hh].
  - rewrite Hlv. cbn [negb]. exists (take_head s o). split.
    + unfold take_head. rewrite Hh. done.
    + by apply inv_take_head.
  - rewrite Hlv. cbn [negb]. exists (unlink_inner s (at_ (base s) i)).
    destruct (unlink_neighbours s B i o HI Hi Hh) as ((jp & Ep & Hjp & _) & Hpn & Hn).
    pose proof (blk_range HI _ _ _ Hjp).
    assert (Hplv : __link_valid Min s (prev s (at_ (base s) i)) = true)
      by (rewrite Ep; apply (link_valid_at HI); lia).
    rewrite Hplv. pose proof (at_pos HI _ _ _ Hjp) as Hjp0. rewrite <- Ep in Hjp0.
    destruct (Z.eqb_spec (prev s (at_ (base s) i)) 0); [done|]. rewrite Hpn, Z.eqb_refl.
    split; [|by apply (inv_unlink_inner s B i o HI Hi Hh)].
    unfold unlink_inner. destruct (Z.eqb_spec (next s (at_ (base s) i)) 0) as [|Hn0]; [done|].
    destruct (Hn Hn0) as (_ & _ & ->). by rewrite Z.eqb_refl.
Qed.

(** ** Handing a hole out *)

(** The free blocks of order [o] keep their list when only the cells of block
    [i] are written. *)
Lemma free_kept s s' B i o k k' :
  inv s B -> B !! i = Some (o, k) -> k <> BFree -> k' <> BFree ->
  free_lists s' = free_lists s ->
  (forall j v d oj kj, B !! j = Some (oj, kj) -> j <> i -> j <= v < j + 2 ^ oj -> 0 <= d < Min ->
    rd (mem s') (at_ (base s) v + d) = rd (mem s) (at_ (base s) v + d)) ->
  flist (mem s') (rd (free_lists s') o) (is_at (base s) (<[i := (o, k')]> B) o BFree).
Proof.
  intros HI Hi Hk Hk' -> Hcell. pose proof Min_range.
  destruct (blk_range HI _ _ _ Hi) as (_ & Ho & _).
  eapply flist_frame; [by apply (i_free _ _ HI)| | |].
  - intros x. eapply is_at_same; [exact Hi|congruence|congruence].
  - intros x (j & -> & Hj). pose proof (blk_range HI _ _ _ Hj).
    apply (Hcell j j 0 o BFree); try done; try lia. congruence.
  - intros x (j & -> & Hj). pose proof (blk_range HI _ _ _ Hj).
    apply (Hcell j j 8 o BFree); try done; try lia. congruence.
Qed.

Lemma inv_commit s B i o (t : bool) ts :
  inv s B -> B !! i = Some (o, BHole) ->
  let f := if t then Z.lor __block_alloc __block_temporal else __block_alloc in
  inv (commit Min s (at_ (base s) i) o f ts) (<[i := (o, BAlloc t)]> B).
Proof.
  intros HI Hi f. pose proof Min_range.
  destruct (blk_range HI _ _ _ Hi) as (Hi0 & Ho & _ & ? & ?).
  pose proof (geo_units HI) as (_ & _ & Hmo & _).
  set (s' := commit Min s (at_ (base s) i) o f ts).
  assert (Hcell : forall j v d oj kj, B !! j = Some (oj, kj) -> j <> i ->
    j <= v < j + 2 ^ oj -> 0 <= d < Min ->
    rd (mem s') (at_ (base s) v + d) = rd (mem s) (at_ (base s) v + d)).
  { intros j v d oj kj Hj Hne Hv Hd. subst s'. unfold commit, tag_set_alloc, set_hdr. cbn.
    rewrite (hdr_of_at HI _ _ _ Hi), <- !Z.add_assoc.
    assert (i + 2 ^ o - 1 <> v).
    { intros E. apply (unit_ne HI _ _ _ _ _ _ v (i + 2 ^ o - 1) Hj Hi Hne Hv); lia. }
    rewrite !rd_wr_ne; [done|..]; apply cell_unit_ne; lia. }
  destruct (cached_kept s s' B i o BHole (BAlloc t) HI Hi) as [HS Hcap]; try done.
  { intros j oj kj v d Hj Hne _ Hv Hd. by apply (Hcell j v d oj kj). }
  apply (inv_update s s' B i o BHole (BAlloc t)); try done.
  - intros j oj kj v d Hj Hne _ Hv Hd. by apply (Hcell j v d oj kj).
  - subst s'. unfold commit, tag_set_alloc, set_hdr. cbn.
    change (tag_index Min _ (at_ (base s) i)) with (tag_index Min s (at_ (base s) i)).
    rewrite (tag_index_at HI) by lia. rewrite rd_wr_eq. apply u8_small. lia.
  - intros j Hj. subst s'. unfold commit, tag_set_alloc, set_hdr. cbn.
    change (tag_index Min _ (at_ (base s) i)) with (tag_index Min s (at_ (base s) i)).
    rewrite (tag_index_at HI) by lia. by rewrite rd_wr_ne.
  - by apply (free_kept s s' B i o BHole (BAlloc t)).
  - apply HI.
  - cbn. rewrite (i_mask _ _ HI) by lia. by destruct (Z.ltb_spec o (max_order s)); [|lia].
  - intros f' Hf'. assert (f' = f) as -> by (subst f; destruct t; cbn in Hf'; congruence).
    subst s'. unfold hdr_order, hdr_flags, commit, tag_set_alloc, set_hdr. cbn.
    cells. done.
Qed.

(** ** The cache of released temporal blocks *)

Lemma inv_tcache_pop s B o :
  inv s B -> 0 <= o < max_order s ->
  (tcache_pop Min s o = (0, s) /\ rd (tcache s) o = 0) \/
  exists i s', tcache_pop Min s o = (at_ (base s) i, s') /\ B !! i = Some (o, BCached) /\
    inv s' (<[i := (o, BHole)]> B) /\ quiet B s s'.
Proof.
  intros HI Ho. destruct (i_tc _ _ HI o Ho) as [HS Hcap].
  pose proof (cached_link_valid HI o Ho) as Hlv. unfold tcache_pop.
  destruct (Z.eq_dec (rd (tcache s) o) 0) as [Hz|Hnz].
  { left. rewrite (proj1 (slist_zero _ _ _ _ HS) Hz). done. }
  destruct (slist_pop _ _ _ _ HS Hnz) as ((i & Ei & Hi) & Hpos & HS').
  right. exists i. rewrite (Hlv Hnz). destruct (Z.leb_spec (rd (tcache_count s) o) 0); [lia|].
  eexists. split; [by rewrite <- Ei|]. split; [done|].
  split; [|by apply quiet_of_rest].
  assert (Hsame : forall x, is_at (base s) B o BFree x <->
    is_at (base s) (<[i := (o, BHole)]> B) o BFree x).
  { intros x. eapply is_at_same; [exact Hi|congruence|congruence]. }
  eapply (inv_update s _ B i o BCached BHole); try done.
  - intros oq Hne. cbn. by rewrite !rd_wr_ne.
  - eapply flist_frame; [by apply (i_free _ _ HI)|done|done|done].
  - cbn. rewrite !rd_wr_eq. eapply slist_frame; [exact HS'| |done].
    intros x. rewrite Ei. split.
    + intros [(j & -> & Hj) Hne]. exists j. split; [done|].
      rewrite lookup_insert_ne; [done|]. by intros ->.
    + intros (j & -> & Hj). destruct (Z.eq_dec i j) as [->|Hne].
      { rewrite lookup_insert_eq in Hj. simplify_eq. }
      rewrite lookup_insert_ne in Hj by done. split; [by exists j|].
      intros E. by apply at_inj in E.
  - cbn. rewrite rd_wr_eq. lia.
  - apply HI.
  - cbn. rewrite (i_mask _ _ HI) by lia. by destruct (Z.ltb_spec o (max_order s)); [|lia].
Qed.

(** Parking a released block: the push and the tag write that follows it. *)
Definition park (s : buddy) (a o : Z) : buddy :=
  let s' := (tcache_push s a o).2 in
  set_tags s' (wr (block_tags s') (tag_index Min s' a) __tag_none).

Lemma inv_park s B i o :
  inv s B -> B !! i = Some (o, BHole) -> rd (tcache_count s) o < __cache_cap ->
  inv (park s (at_ (base s) i) o) (<[i := (o, BCached)]> B) /\
  quiet B s (park s (at_ (base s) i) o).
Proof.
  intros HI Hi Hlt. pose proof Min_range.
  destruct (blk_range HI _ _ _ Hi) as (Hi0 & Ho & _ & ? & ?).
  destruct (i_tc _ _ HI o Ho) as [HS Hcap].
  set (a := at_ (base s) i). set (s' := park s a o).
  assert (Hf : same_rest s s' /\ allocated_bytes s' = allocated_bytes s /\
    tombstoned_bytes s' = tombstoned_bytes s /\ free_lists s' = free_lists s /\
    tcache s' = wr (tcache s) o a /\
    tcache_count s' = wr (tcache_count s) o (rd (tcache_count s) o + 1) /\
    block_tags s' = wr (block_tags s) i __tag_none /\ free_mask s' = free_mask s /\
    mem s' = wr (mem s) (a + 0) (rd (tcache s) o)).
  { subst s'. unfold park, tcache_push. destruct (Z.leb_spec __cache_cap (rd (tcache_count s) o)); [lia|].
    cbn. change (tag_index Min _ a) with (tag_index Min s a).
    subst a. rewrite (tag_index_at HI) by lia. by repeat split. }
  destruct Hf as (Hsr & Ea & Etb & Efl & Etc & Etn & Etg & Emk & Em).
  assert (Hcell : forall j v d oj kj, B !! j = Some (oj, kj) -> j <> i ->
    j <= v < j + 2 ^ oj -> 0 <= d < Min ->
    rd (mem s') (at_ (base s) v + d) = rd (mem s) (at_ (base s) v + d)).
  { intros j v d oj kj Hj Hne Hv Hd. rewrite Em, rd_wr_ne; [done|]. subst a.
    apply cell_unit_ne; [|lia|lia].
    apply (unit_ne HI _ _ _ _ _ _ i v Hi Hj); [congruence|lia|done]. }
  split; [apply (inv_update s s' B i o BHole BCached)|apply quiet_of_rest]; try done.
  - intros j oj kj v d Hj Hne _ Hv Hd. by apply (Hcell j v d oj kj).
  - by rewrite Etg, rd_wr_eq.
  - intros j Hj. by rewrite Etg, rd_wr_ne.
  - intros oq Hne. rewrite Efl, Etc, Etn, Emk. by rewrite !rd_wr_ne.
  - by apply (free_kept s s' B i o BHole BCached).
  - rewrite Etc, Etn, !rd_wr_eq.
    eapply slist_frame; [eapply (slist_push (mem s) (mem s') _ _ a)| |done].
    + exact HS.
    + apply (at_pos HI _ _ _ Hi).
    + intros (j & Ej & Hj). apply at_inj in Ej. congruence.
    + by rewrite Em, rd_wr_eq.
    + intros x (j & -> & Hj). pose proof (blk_range HI _ _ _ Hj).
      apply (Hcell j j 0 o BCached); try done; try lia. congruence.
    + intros x. rewrite is_at_insert_new. split.
      * intros [->|(j & -> & Hj)]; [by left|]. right. split; [by exists j|].
        intros E. apply at_inj in E. congruence.
      * intros [->|[Hx _]]; auto.
  - rewrite Etn, rd_wr_eq. lia.
  - rewrite Emk. apply HI.
  - rewrite Emk, Efl, (i_mask _ _ HI) by lia. by destruct (Z.ltb_spec o (max_order s)); [|lia].
  - intros j oj kj c Hj Hk Hc. rewrite Em, rd_wr_ne; [done|]. intros <-. revert Hc.
    apply (cell_out HI _ _ _ _ _ _ i 0 Hj Hi); [intros ->; by simplify_eq|lia|lia].
Qed.

End Inv.
