(* ===== verification/BuddyOps.v ===== *)
(** * The buddy list: splitting, merging and the operations built on them

    Lifts the primitive steps of [BuddyInv] to the loops of
    src/src/free_list.hpp and then to its operations. *)

From S2P Require Import Prelude.
From S2P Require Import Intrusive.
From S2P Require Import Config.
From S2P Require Import Tiling.
From S2P Require Import Buddy.
From S2P Require Import BuddyInv.

Section Ops.
Context (Min : Z) {HM : BuddyMin Min}.

Local Abbreviation at_ := (at_ Min).
Local Abbreviation inv := (inv Min).
Local Abbreviation quiet := (quiet Min).

(** The only block in transit is [i]. *)
Definition holes_only (B : blocks) (i : Z) : Prop :=
  forall j o, B !! j = Some (o, BHole) -> j = i.

Definition no_holes (B : blocks) : Prop := forall j o, B !! j <> Some (o, BHole).

Lemma holes_insert B i o k : k <> BHole -> holes_only B i -> no_holes (<[i := (o, k)]> B).
Proof.
  intros Hk Hh j oj Hj. destruct (Z.eq_dec i j) as [<-|Hne].
  - rewrite lookup_insert_eq in Hj. congruence.
  - rewrite lookup_insert_ne in Hj by done. by apply Hh in Hj.
Qed.

Lemma no_holes_open B i o k : no_holes B -> holes_only (<[i := (o, k)]> B) i.
Proof.
  intros Hh j oj Hj. destruct (Z.eq_dec i j) as [<-|Hne]; [done|].
  rewrite lookup_insert_ne in Hj by done. by apply Hh in Hj.
Qed.

(** ** Splitting *)

Lemma quiet_set_mask B s m : quiet B s (set_mask s m).
Proof. by split. Qed.

Lemma order_size_half s B from i k :
  inv s B -> B !! i = Some (from, k) -> 0 < from ->
  Z.shiftr (order_size Min from) 1 = order_size Min (from - 1).
Proof.
  intros HI Hi Hf. destruct (blk_range Min HI _ _ _ Hi) as (_ & Ho & _).
  rewrite !(order_size_eq Min HI) by lia. rewrite Z.shiftr_div_pow2 by lia.
  replace (2 ^ from) with (2 * 2 ^ (from - 1)) by (rewrite <- pow2_succ by lia; f_equal; lia).
  replace (Min * (2 * 2 ^ (from - 1))) with (Min * 2 ^ (from - 1) * 2 ^ 1) by lia.
  apply Z.div_mul. lia.
Qed.

(** One round of the loop is a push on the state that carries the local mask. *)
Lemma split_round s B mask i from n :
  inv (set_mask s mask) B -> 0 < from -> B !! i = Some (from, BHole) ->
  exists s' mask',
    split_loop Min (S n) s mask (at_ (base s) i) from (order_size Min from)
    = split_loop Min n s' mask' (at_ (base s) i) (from - 1) (order_size Min (from - 1)) /\
    set_mask s' mask' = freelist_push_off Min (set_mask s mask)
      (at_ (base s) (i + 2 ^ (from - 1))) (from - 1) ((i + 2 ^ (from - 1)) * Min) /\
    free_mask s' = free_mask s /\ base s' = base s.
Proof.
  intros HI Hf Hi. destruct (blk_range Min HI _ _ _ Hi) as (? & Ho & _ & ? & Hend).
  pose proof (geo_units Min HI) as (_ & _ & Hmo & _).
  cbn [split_loop]. rewrite (order_size_half _ _ _ _ _ HI Hi Hf).
  rewrite (order_size_eq Min HI (from - 1)) by lia.
  replace (at_ (base s) i + Min * 2 ^ (from - 1)) with (at_ (base s) (i + 2 ^ (from - 1)))
    by (unfold BuddyInv.at_; ring).
  unfold freelist_push_off, mask_set.
  change (free_lists (set_mask s mask)) with (free_lists s).
  assert (Hix : tag_index Min s (at_ (base s) (i + 2 ^ (from - 1))) = i + 2 ^ (from - 1)).
  { apply (tag_index_at Min HI). pose proof (pow2_pos (from - 1) ltac:(lia)).
    pose proof (pow2_succ (from - 1) ltac:(lia)) as Hs.
    replace (from - 1 + 1) with from in Hs by lia. cbn in *. lia. }
  rewrite (shiftr_min Min).
  destruct (Z.eqb_spec (rd (free_lists s) (from - 1)) 0); cbn [negb];
    (eexists _, _; split; [reflexivity|]); cbn;
    change (tag_index Min _ ?a) with (tag_index Min s a); rewrite Hix; done.
Qed.

Lemma coalesced_split mo B i o :
  tiling mo B -> 0 <= o -> B !! i = Some (o + 1, BHole) -> coalesced mo B ->
  coalesced mo (<[i + 2 ^ o := (o, BFree)]> (<[i := (o, BHole)]> (<[i + 2 ^ o := (o, BHole)]> B))).
Proof.
  intros HT Ho Hi Hc. destruct (tl_range _ _ HT _ _ _ Hi) as (_ & _ & Hd & _).
  apply coalesced_push; [done| |].
  - assert (E : buddy_ix (i + 2 ^ o) o = i).
    { rewrite <- (buddy_lower i o Ho Hd). apply buddy_ix_invol. }
    rewrite E, lookup_insert_eq. congruence.
  - by do 2 (apply coalesced_insert; [done|]).
Qed.

Lemma split_loop_spec n : forall s mask B i from,
  inv (set_mask s mask) B -> B !! i = Some (from, BHole) -> 0 <= from - Z.of_nat n ->
  holes_only B i -> coalesced (max_order s) B ->
  exists s' mask' B',
    split_loop Min n s mask (at_ (base s) i) from (order_size Min from) = (s', mask') /\
    inv (set_mask s' mask') B' /\ B' !! i = Some (from - Z.of_nat n, BHole) /\
    same_busy B B' /\ quiet B (set_mask s mask) (set_mask s' mask') /\
    holes_only B' i /\ coalesced (max_order s) B' /\ free_mask s' = free_mask s.
Proof.
  induction n as [|n IH]; intros s mask B i from HI Hi Hn Hh Hc.
  { exists s, mask, B. rewrite Z.sub_0_r. split_and!; try done. }
  destruct (split_round s B mask i from n HI ltac:(lia) Hi) as (s1 & m1 & E & Es1 & Em1 & Eb1).
  rewrite E. clear E.
  pose proof (pow2_pos (from - 1) ltac:(lia)) as Hp.
  assert (Hi' : B !! i = Some (from - 1 + 1, BHole)) by (rewrite Hi; do 2 f_equal; lia).
  pose proof (inv_split_hole Min _ _ i (from - 1) HI ltac:(lia) Hi') as HI2.
  set (B2 := <[i := (from - 1, BHole)]> (<[i + 2 ^ (from - 1) := (from - 1, BHole)]> B)) in *.
  assert (Hr : B2 !! (i + 2 ^ (from - 1)) = Some (from - 1, BHole)).
  { subst B2. rewrite lookup_insert_ne by lia. apply lookup_insert_eq. }
  destruct (inv_push Min _ _ _ _ HI2 Hr) as [HI3 HQ3].
  change (base (set_mask s mask)) with (base s) in HI3, HQ3. rewrite <- Es1 in HI3, HQ3.
  set (B3 := <[i + 2 ^ (from - 1) := (from - 1, BFree)]> B2) in *.
  assert (Hi3 : B3 !! i = Some (from - 1, BHole)).
  { subst B3 B2. rewrite lookup_insert_ne by lia. apply lookup_insert_eq. }
  destruct (tiling_split (i_til _ _ _ HI) i (from - 1) BHole BHole BHole ltac:(lia) Hi') as [_ Hnone].
  assert (HB : same_busy B B3).
  { subst B3 B2. transitivity (<[i + 2 ^ (from - 1) := (from - 1, BHole)]> B).
    { by apply same_busy_insert_fresh. }
    transitivity (<[i := (from - 1, BHole)]> (<[i + 2 ^ (from - 1) := (from - 1, BHole)]> B)).
    { apply (same_busy_insert _ i from BHole); [done|done|]. rewrite lookup_insert_ne by lia. exact Hi. }
    apply (same_busy_insert _ _ (from - 1) BHole); done. }
  assert (HQ : quiet B (set_mask s mask) (set_mask s1 m1)).
  { destruct HQ3. split; try done. intros j o k a Hj Hk. apply (q_mem j o k); [|done].
    subst B2. rewrite !lookup_insert_ne; [done| |]; intros <-; [congruence|].
    rewrite Hi in Hj. by simplify_eq. }
  destruct (IH s1 m1 B3 i (from - 1)) as (s' & m' & B' & E & HI' & Hi'' & HB' & HQ' & Hh' & Hc' & Em').
  - done.
  - done.
  - lia.
  - intros j oj Hj. subst B3 B2. destruct (Z.eq_dec (i + 2 ^ (from - 1)) j) as [<-|].
    { by rewrite lookup_insert_eq in Hj. }
    rewrite lookup_insert_ne in Hj by done. destruct (Z.eq_dec i j); [done|].
    rewrite !lookup_insert_ne in Hj by done. by apply Hh in Hj.
  - rewrite (q_mo _ _ _ _ HQ : max_order s1 = max_order s).
    by apply coalesced_split; [apply HI|lia| |].
  - exists s', m', B'. rewrite <- Eb1. split; [done|]. split; [done|].
    split; [rewrite Hi''; do 2 f_equal; lia|]. split; [by transitivity B3|].
    split; [by eapply quiet_trans|]. split; [done|].
    rewrite <- (q_mo _ _ _ _ HQ : max_order s1 = max_order s). split; [done|congruence].
Qed.

(** [__take_and_split] takes a block off the list [from] and cuts it down to
    [target]. *)
Lemma take_and_split_spec s B from target :
  inv s B -> no_holes B -> coalesced (max_order s) B ->
  0 <= target <= from -> from < max_order s -> rd (free_lists s) from <> 0 ->
  exists i s' B', __take_and_split Min s from target = (at_ (base s) i, s') /\
    B !! i = Some (from, BFree) /\ inv s' B' /\ B' !! i = Some (target, BHole) /\
    same_busy B B' /\ quiet B s s' /\ holes_only B' i /\ coalesced (max_order s) B'.
Proof.
  intros HI Hh Hc Ht Hf Hne.
  destruct (free_head Min HI from ltac:(lia) Hne) as (i & Ei & Hi).
  destruct (inv_take_head Min s B from i HI Hi Ei) as (HI1 & HQ1 & _).
  pose proof (free_link_valid Min HI _ _ Hi) as Hlv.
  unfold __take_and_split. rewrite Ei, Hlv. cbn [negb].
  set (nx := next s (at_ (base s) i)).
  set (s1 := set_free_lists s (wr (free_lists s) from nx)).
  set (m1 := if nx =? 0 then bit_clr (free_mask s) from else free_mask s).
  assert (E1 : set_mask s1 m1 = take_head s from).
  { unfold take_head. rewrite Ei. fold nx. subst m1 s1. destruct (nx =? 0); [done|]. by destruct s. }
  rewrite <- E1 in HI1, HQ1.
  destruct (split_loop_spec (Z.to_nat (from - target)) s1 m1 _ i from HI1)
    as (s' & m' & B' & E & HI' & Hi' & HB' & HQ' & Hh' & Hc' & Em').
  - apply lookup_insert_eq.
  - lia.
  - by apply no_holes_open.
  - apply coalesced_insert; done.
  - change (base s1) with (base s) in E. rewrite E.
    exists i, (set_mask s' m'), B'. split.
    { f_equal. destruct (Z.eqb_spec m' (free_mask s)) as [->|]; [|done]. cbn.
      rewrite <- (Em' : free_mask s' = free_mask s). by destruct s'. }
    split; [done|]. split; [done|]. split; [rewrite Hi'; do 2 f_equal; lia|].
    assert (HB : same_busy B (<[i := (from, BHole)]> B)) by (by apply (same_busy_insert B i from BFree)).
    split; [by transitivity (<[i := (from, BHole)]> B)|].
    split; [by eapply quiet_trans|]. done.
Qed.

(** ** Merging *)

(** The tag of a hole may be overwritten. *)
Lemma inv_tag_hole s B i o v :
  inv s B -> B !! i = Some (o, BHole) -> inv (set_tags s (wr (block_tags s) i v)) B.
Proof.
  intros [] Hi. split; try done; [by destruct i_geo|].
  intros j Hj. cbn. rewrite rd_wr. destruct (Z.eqb_spec i j) as [<-|]; [by rewrite Hi|].
  by apply i_tags.
Qed.

Lemma buddy_off_eq i o : 0 <= o -> Z.lxor (i * Min) (Min * 2 ^ o) = buddy_ix i o * Min.
Proof.
  intros Ho. pose proof (lg_range (Min := Min)). rewrite (Z.mul_comm Min), (Min_eq (Min := Min)).
  apply lxor_mul_pow2. lia.
Qed.

(** The tag test of the merge loop decides whether the buddy is free at this
    very order. *)
Lemma tag_is_free_iff s B i j o :
  inv s B -> holes_only B i -> j <> i -> 0 <= j < tag_count s -> 0 <= o < max_order s ->
  tag_is_free_at_off Min s (j * Min) o = true <-> B !! j = Some (o, BFree).
Proof.
  intros HI Hh Hne Hj Ho. pose proof (geo_units Min HI) as (_ & _ & Hmo & _).
  unfold tag_is_free_at_off. rewrite (shiftr_min Min), u8_tag by lia.
  pose proof (i_tags _ _ _ HI j Hj) as Ht. rewrite Z.eqb_eq.
  destruct (B !! j) as [[oj [|t| | |]]|] eqn:E; cbn in Ht;
    try (destruct (blk_range Min HI _ _ _ E) as (_ & Hoj & _));
    unfold __tag_none, __tag_free in *.
  - rewrite Ht. split; [intros; do 2 f_equal; lia|]. intros ?; simplify_eq. done.
  - split; [lia|congruence].
  - split; [lia|congruence].
  - split; [lia|congruence].
  - by apply Hh in E.
  - split; [lia|congruence].
Qed.

(** One successful round of the merge loop. *)
Lemma merge_round s B i o :
  inv s B -> B !! i = Some (o, BHole) -> o < max_order s - 1 ->
  B !! buddy_ix i o = Some (o, BFree) ->
  let b := buddy_ix i o in
  let lo := Z.min i b in let hi := Z.max i b in
  exists s1, freelist_remove Min s (at_ (base s) b) o = (true, s1) /\
    let s2 := set_tags s1 (wr (block_tags s1) hi __tag_none) in
    let B2 := <[lo := (o + 1, BHole)]> (delete hi (<[b := (o, BHole)]> B)) in
    inv s2 B2 /\ quiet B s s2 /\ same_busy B B2.
Proof.
  intros HI Hi Ho Hb b lo hi.
  destruct (blk_range Min HI _ _ _ Hi) as (Hi0 & Hoo & Hd & Hp & _).
  destruct (blk_range Min HI _ _ _ Hb) as (Hb0 & _).
  assert (Hne : i <> b) by (subst b; intros E; rewrite <- E in Hb; congruence).
  destruct (inv_freelist_remove Min s B b o HI Hb) as (s1 & E & HI1 & HQ1 & _).
  exists s1. split; [done|]. cbn zeta.
  set (B1 := <[b := (o, BHole)]> B) in *.
  assert (Hb1 : B1 !! b = Some (o, BHole)) by apply lookup_insert_eq.
  assert (Hi1 : B1 !! i = Some (o, BHole)) by (subst B1; by rewrite lookup_insert_ne).
  assert (Hhi : B1 !! hi = Some (o, BHole))
    by (subst hi; destruct (Z.max_spec i b) as [[_ ->]|[_ ->]]; done).
  assert (Hlo : B1 !! lo = Some (o, BHole))
    by (subst lo; destruct (Z.min_spec i b) as [[_ ->]|[_ ->]]; done).
  assert (Hlh : lo <> hi) by (subst lo hi; lia).
  pose proof (inv_tag_hole s1 B1 hi o __tag_none HI1 Hhi) as HI2.
  split; [|split].
  - apply (inv_merge_hole Min); try done.
    + cbn. by rewrite (q_mo _ _ _ _ HQ1).
    + cbn. apply rd_wr_eq.
  - by destruct HQ1.
  - transitivity B1; [by apply (same_busy_insert B b o BFree)|].
    transitivity (delete hi B1); [by apply (same_busy_delete B1 hi o BHole)|].
    apply (same_busy_insert _ lo o BHole); [done|done|]. by rewrite lookup_delete_ne.
Qed.

Lemma merge_loop_spec n : forall s B i o,
  inv s B -> B !! i = Some (o, BHole) -> holes_only B i -> coalesced (max_order s) B ->
  n = Z.to_nat (max_order s - 1 - o) ->
  exists s' B' i' o',
    merge_loop Min n s (i * Min) o = (s', i' * Min, o') /\
    inv s' B' /\ B' !! i' = Some (o', BHole) /\ holes_only B' i' /\
    same_busy B B' /\ quiet B s s' /\ coalesced (max_order s) B' /\
    B' !! buddy_ix i' o' <> Some (o', BFree).
Proof.
  induction n as [|n IH]; intros s B i o HI Hi Hh Hc Hn;
    destruct (blk_range Min HI _ _ _ Hi) as (Hi0 & Ho & Hd & Hp & Hend).
  { exists s, B, i, o. split_and!; try done. intros Hb.
    pose proof (tl_range _ _ (i_til _ _ _ HI) _ _ _ Hi) as (_ & _ & _ & Hr).
    pose proof (tl_range _ _ (i_til _ _ _ HI) _ _ _ Hb) as (Hb0 & _ & _ & Hbr).
    replace (max_order s - 1) with o in * by lia.
    assert (i = 0) as -> by lia. assert (buddy_ix 0 o = 0) as E by lia.
    rewrite E in Hb. congruence. }
  destruct (buddy_range (max_order s) i o) as (Hb0 & Hbd & Hbe); try done; try lia.
  { apply (tl_range _ _ (i_til _ _ _ HI) _ _ _ Hi). }
  assert (Hne : buddy_ix i o <> i).
  { intros E. unfold buddy_ix in E. apply (f_equal (Z.lxor i)) in E.
    rewrite Z.lxor_nilpotent, <- Z.lxor_assoc, Z.lxor_nilpotent, Z.lxor_0_l in E. lia. }
  pose proof (g_cap _ _ (i_geo _ _ _ HI)).
  cbn [merge_loop]. rewrite (order_size_eq Min HI) by lia. rewrite buddy_off_eq by lia.
  pose proof (tag_is_free_iff s B i (buddy_ix i o) o HI Hh Hne ltac:(lia) Ho) as Htag.
  destruct (tag_is_free_at_off Min s (buddy_ix i o * Min) o); cbn [negb].
  2: { exists s, B, i, o. split_and!; try done. intros Hb.
       by apply Htag in Hb. }
  destruct (merge_round s B i o HI Hi ltac:(lia) (proj1 Htag eq_refl)) as (s1 & E & HI2 & HQ & HB).
  change (base s + buddy_ix i o * Min) with (at_ (base s) (buddy_ix i o)). rewrite E. cbn [negb].
  pose proof (Min_range Min) as HM0.
  assert (Elo : (if i * Min <? buddy_ix i o * Min then buddy_ix i o * Min else i * Min)
    = Z.max i (buddy_ix i o) * Min) by (case_b; f_equal; nia).
  assert (Ehi : (if buddy_ix i o * Min <? i * Min then buddy_ix i o * Min else i * Min)
    = Z.min i (buddy_ix i o) * Min) by (case_b; f_equal; nia).
  rewrite Elo, Ehi, (shiftr_min Min).
  set (s2 := set_tags s1 _) in *. set (B2 := <[_ := (o + 1, BHole)]> _) in *.
  assert (Hmo2 : max_order s2 = max_order s) by apply (q_mo _ _ _ _ HQ).
  destruct (IH s2 B2 (Z.min i (buddy_ix i o)) (o + 1))
    as (s' & B' & i' & o' & E' & HI' & Hi' & Hh' & HB' & HQ' & Hc' & Hb').
  - done.
  - apply lookup_insert_eq.
  - subst B2. intros j oj Hj.
    destruct (Z.eq_dec (Z.min i (buddy_ix i o)) j) as [|Hnlo]; [done|].
    rewrite lookup_insert_ne in Hj by done. apply lookup_delete_Some in Hj as [Hnhi Hj].
    rewrite lookup_insert_ne in Hj by lia. apply Hh in Hj. lia.
  - rewrite Hmo2. apply coalesced_insert; [done|]. apply coalesced_delete.
    by apply coalesced_insert.
  - rewrite Hmo2. lia.
  - exists s', B', i', o'. rewrite <- Hmo2. split_and!; try done.
    + by transitivity B2.
    + by eapply quiet_trans.
Qed.

(** [__merge_and_free] returns a hole to the free blocks, merged as far as it
    goes. *)
Lemma merge_and_free_spec s B i o :
  inv s B -> B !! i = Some (o, BHole) -> holes_only B i -> coalesced (max_order s) B ->
  exists B', inv (__merge_and_free Min s (at_ (base s) i) o) B' /\ no_holes B' /\
    same_busy B B' /\ quiet B s (__merge_and_free Min s (at_ (base s) i) o) /\
    coalesced (max_order s) B'.
Proof.
  intros HI Hi Hh Hc. destruct (blk_range Min HI _ _ _ Hi) as (Hi0 & Ho & _ & ? & ?).
  unfold __merge_and_free. rewrite (u64_at Min HI) by lia.
  destruct (merge_loop_spec _ s B i o HI Hi Hh Hc eq_refl)
    as (s1 & B1 & i1 & o1 & -> & HI1 & Hi1 & Hh1 & HB1 & HQ1 & Hc1 & Hb1).
  destruct (inv_push Min s1 B1 i1 o1 HI1 Hi1) as [HI2 HQ2].
  change (base s1 + i1 * Min) with (at_ (base s1) i1).
  exists (<[i1 := (o1, BFree)]> B1). split_and!; try done.
  - by apply holes_insert.
  - transitivity B1; [done|]. by apply (same_busy_insert B1 i1 o1 BHole).
  - by eapply quiet_trans.
  - apply coalesced_push; try done. apply (blk_range Min HI1 _ _ _ Hi1).
Qed.

End Ops.
