(* ===== verification/BuddyWf.v ===== *)
(** * The buddy list: well-formed states and the specification of each operation

    [wf s B] adds to the representation invariant that no block is in
    transit, that free buddies have been merged, that the byte counters equal
    the weight of the blocks they count and that the ring of active temporal
    blocks points at live temporal blocks. *)

From S2P Require Import Prelude.
From S2P Require Import Intrusive.
From S2P Require Import Config.
From S2P Require Import Tiling.
From S2P Require Import Buddy.
From S2P Require Import BuddyInv.
From S2P Require Import BuddyOps.

Section Wf.
Context (Min : Z) {HM : BuddyMin Min}.

Local Abbreviation at_ := (at_ Min).
Local Abbreviation inv := (inv Min).
Local Abbreviation quiet := (quiet Min).
Local Abbreviation is_at := (is_at Min).

(** ** Size classes *)

(** The order chosen for [n] bytes is the least whose blocks hold them. *)
Lemma order_for_size_spec n :
  0 < n < 2 ^ 64 ->
  0 <= order_for_size Min n /\ n <= Min * 2 ^ order_for_size Min n /\
  (forall o, 0 <= o -> n <= Min * 2 ^ o -> order_for_size Min n <= o).
Proof.
  intros Hn. pose proof (Min_range Min). pose proof (lg_range (Min := Min)).
  unfold order_for_size. rewrite (u64_small (n - 1)) by lia.
  rewrite (log2_min_eq Min), Z.shiftr_div_pow2, <- (Min_eq (Min := Min)) by lia.
  set (q := (n - 1) / Min).
  assert (Hq : q * Min <= n - 1 < (q + 1) * Min).
  { pose proof (Z.div_mod (n - 1) Min ltac:(lia)). pose proof (Z.mod_pos_bound (n - 1) Min ltac:(lia)).
    fold q in H1. nia. }
  assert (Hq0 : 0 <= q < 2 ^ 58) by nia.
  rewrite u64_small by lia. case_b.
  - assert (q = 0) by lia. split; [lia|]. split; [|lia]. change (2 ^ 0) with 1. nia.
  - unfold ceil_log2_u64. rewrite u64_small, clzll_pos by lia.
    replace (q + 1 - 1) with q by lia.
    pose proof (Z.log2_spec q ltac:(lia)) as [Hl Hu]. pose proof (Z.log2_nonneg q).
    replace (Z.succ (Z.log2 q)) with (Z.log2 q + 1) in Hu by lia.
    replace (64 - (63 - Z.log2 q)) with (Z.log2 q + 1) by lia.
    split; [lia|]. split; [nia|].
    intros o Ho Hle. destruct (Z.le_gt_cases (Z.log2 q + 1) o) as [|Hgt]; [done|].
    pose proof (pow2_le o (Z.log2 q) ltac:(lia)). nia.
Qed.

(** The bitmap search finds the least order with a free block. *)
Lemma find_free_order_spec s B o :
  inv s B -> 0 <= o ->
  let i := find_free_order s o in
  (i < max_order s -> o <= i /\ rd (free_lists s) i <> 0) /\
  (forall oq, o <= oq < max_order s -> oq < i -> rd (free_lists s) oq = 0).
Proof.
  intros HI Ho i. pose proof (i_mask_range _ _ _ HI) as Hmr.
  assert (Hbit : forall k, 0 <= k -> Z.testbit (Z.shiftr (free_mask s) o) k
    = (o + k <? max_order s) && negb (rd (free_lists s) (o + k) =? 0)).
  { intros k Hk. rewrite Z.shiftr_spec by lia. rewrite (Z.add_comm k). apply HI. lia. }
  assert (Hnn : 0 <= Z.shiftr (free_mask s) o) by (apply Z.shiftr_nonneg; lia).
  subst i. unfold find_free_order. destruct (Z.eqb_spec (Z.shiftr (free_mask s) o) 0) as [E|E].
  - split; [lia|]. intros oq Hoq _. specialize (Hbit (oq - o) ltac:(lia)).
    rewrite E, Z.bits_0 in Hbit. replace (o + (oq - o)) with oq in Hbit by lia.
    revert Hbit. repeat case_b; done.
  - destruct (ctz_spec (Z.shiftr (free_mask s) o) ltac:(lia)) as (Hc & Ht & Hlo).
    rewrite Hbit in Ht by done. split.
    + intros _. split; [lia|]. revert Ht. repeat case_b; done.
    + intros oq Hoq Hlt. specialize (Hlo (oq - o) ltac:(lia)). rewrite Hbit in Hlo by lia.
      replace (o + (oq - o)) with oq in Hlo by lia. revert Hlo. repeat case_b; done.
Qed.

(** ** Well-formed states *)

Definition is_alloc (k : bkind) : bool := match k with BAlloc _ => true | _ => false end.
Definition is_tomb (k : bkind) : bool := match k with BTomb => true | _ => false end.
Definition live (k : bkind) : bool := is_alloc k || is_tomb k.

(** The slots of the active ring of an order *)
Record ring (s : buddy) (B : blocks) : Prop := {
  r_slot o r : 0 <= o < max_order s -> r = 0 \/ r = 1 ->
    rd (active s) (o * __active_ring + r) = 0 \/
    is_at (base s) B o (BAlloc true) (rd (active s) (o * __active_ring + r));
  r_one o : 0 <= o < max_order s ->
    rd (active s) (o * __active_ring + 0) = 0 \/ rd (active s) (o * __active_ring + 1) = 0;
  r_rotor o : 0 <= o < max_order s -> rd (active_rotor s) o = 0 \/ rd (active_rotor s) o = 1
}.

Record wf (s : buddy) (B : blocks) : Prop := {
  w_inv : inv s B;
  w_holes : no_holes B;
  w_coal : coalesced (max_order s) B;
  w_alloc : allocated_bytes s = Min * wsum is_alloc B;
  w_tomb : tombstoned_bytes s = Min * wsum is_tomb B;
  w_ring : ring s B
}.

(** What an operation on block [i] leaves alone: the geometry, the other live
    blocks and their contents. *)
Record others (B B' : blocks) (s s' : buddy) (i : Z) : Prop := {
  o_base : base s' = base s;
  o_total : total s' = total s;
  o_mo : max_order s' = max_order s;
  o_live j o k : live k = true -> j <> i -> B' !! j = Some (o, k) <-> B !! j = Some (o, k);
  o_mem j o k a : j <> i -> B !! j = Some (o, k) -> live k = true ->
    at_ (base s) j <= a < at_ (base s) (j + 2 ^ o) -> rd (mem s') a = rd (mem s) a
}.

Lemma live_busy k : live k = true -> busy k = true.
Proof. by destruct k. Qed.

Lemma ring_mono s B s' B' :
  ring s B -> base s' = base s -> max_order s' = max_order s -> active s' = active s ->
  active_rotor s' = active_rotor s ->
  (forall i o, B !! i = Some (o, BAlloc true) -> B' !! i = Some (o, BAlloc true)) ->
  ring s' B'.
Proof.
  intros [Hs Ho Hr] Eb Em Ea Er HB. split; rewrite ?Em, ?Ea, ?Er, ?Eb; try done.
  intros o r Hor Hrr. destruct (Hs o r Hor Hrr) as [|(i & E & Hi)]; [by left|].
  right. exists i. split; [done|]. by apply HB.
Qed.

(** Opening a block that has just been carved out or popped: *)
Record opened (s : buddy) (B : blocks) (i o : Z) (s1 : buddy) (B1 : blocks) : Prop := {
  op_inv : inv s1 B1;
  op_hole : B1 !! i = Some (o, BHole);
  op_only : holes_only B1 i;
  op_coal : coalesced (max_order s1) B1;
  op_live j oj k : live k = true -> B1 !! j = Some (oj, k) <-> B !! j = Some (oj, k);
  op_quiet : quiet B s s1;
  op_from : exists from k, B !! i = Some (from, k) /\ listed k = true
}.

Lemma wsum_live p B B' :
  (forall k, p k = true -> live k = true) ->
  (forall j o k, live k = true -> B' !! j = Some (o, k) <-> B !! j = Some (o, k)) ->
  wsum p B' = wsum p B.
Proof.
  intros Hp HB. apply wsum_agree. intros i o k Hk. by apply HB, Hp.
Qed.

Lemma bytes_range s B p : inv s B -> 0 <= Min * wsum p B < 2 ^ 64.
Proof.
  intros HI. pose proof (wsum_bound p _ _ (i_til _ _ _ HI)). pose proof (Min_range Min).
  destruct (i_geo _ _ _ HI) as [? ? Ht ? ?]. nia.
Qed.

(** Handing an opened block out keeps the state well formed. *)
Lemma commit_wf s B s1 B1 i o (t : bool) :
  wf s B -> opened s B i o s1 B1 ->
  let f := if t then Z.lor __block_alloc __block_temporal else __block_alloc in
  let s2 := commit Min s1 (at_ (base s) i) o f (order_size Min o) in
  wf s2 (<[i := (o, BAlloc t)]> B1) /\ others B (<[i := (o, BAlloc t)]> B1) s s2 i.
Proof.
  intros HW [HI1 Hi Hh Hc HL HQ _] f s2. pose proof (Min_range Min).
  destruct (blk_range Min HI1 _ _ _ Hi) as (Hi0 & Ho & _ & Hp & Hend).
  pose proof (inv_commit Min s1 B1 i o t (order_size Min o) HI1 Hi) as HI2.
  rewrite (q_base _ _ _ _ HQ) in HI2. cbn zeta in HI2. fold f in HI2. fold s2 in HI2.
  assert (Hnl : forall k, live k = true -> B !! i <> Some (o, k)).
  { intros k Hk Hb. apply HL in Hb; [|done]. rewrite Hi in Hb. by simplify_eq. }
  assert (Hother : forall j oj k, live k = true -> j <> i ->
    <[i := (o, BAlloc t)]> B1 !! j = Some (oj, k) <-> B !! j = Some (oj, k)).
  { intros j oj k Hk Hne. rewrite lookup_insert_ne by done. by apply HL. }
  split; [split|split]; try done.
  - by apply holes_insert.
  - apply coalesced_insert; [done|]. exact Hc.
  - cbn. rewrite (q_alloc _ _ _ _ HQ), (w_alloc _ _ HW).
    rewrite (wsum_update is_alloc B1 i o BHole) by done. cbn.
    rewrite (wsum_live is_alloc B B1) by (done || by destruct k).
    rewrite (order_size_eq Min HI1) by lia.
    pose proof (bytes_range _ _ is_alloc HI2) as Hb. rewrite (wsum_update is_alloc B1 i o BHole) in Hb by done.
    cbn in Hb. rewrite (wsum_live is_alloc B B1) in Hb by (done || by destruct k).
    rewrite u64_small; lia.
  - cbn. rewrite (q_tomb _ _ _ _ HQ), (w_tomb _ _ HW).
    rewrite (wsum_update is_tomb B1 i o BHole) by done. cbn.
    rewrite (wsum_live is_tomb B B1) by (done || by destruct k). lia.
  - eapply ring_mono; [apply HW| | | | |].
    + apply (q_base _ _ _ _ HQ).
    + apply (q_mo _ _ _ _ HQ).
    + apply (q_active _ _ _ _ HQ).
    + apply (q_rotor _ _ _ _ HQ).
    + intros j oj Hj. apply HL in Hj; [|done]. rewrite lookup_insert_ne; [done|].
      intros <-. congruence.
  - apply (q_base _ _ _ _ HQ).
  - apply (q_total _ _ _ _ HQ).
  - apply (q_mo _ _ _ _ HQ).
  - intros j oj k a Hne Hj Hk Ha. rewrite <- (q_mem _ _ _ _ HQ j oj k a Hj) by (done || by apply live_busy).
    subst s2. unfold commit, tag_set_alloc, set_hdr. cbn.
    pose proof (hdr_of_at Min HI1 _ _ _ Hi) as Eh. rewrite (q_base _ _ _ _ HQ) in Eh. rewrite Eh.
    apply HL in Hj; [|done].
    assert (Hout : forall d, 0 <= d < Min -> at_ (base s) (i + 2 ^ o - 1) + d <> a).
    { intros d Hd <-. revert Ha. rewrite <- (q_base _ _ _ _ HQ).
      apply (cell_out Min HI1 _ _ _ _ _ _ (i + 2 ^ o - 1) d Hj Hi Hne); lia. }
    rewrite <- !Z.add_assoc, !rd_wr_ne; [done|..]; apply Hout; lia.
Qed.

(** ** Allocation *)

(** No free block holds [n] bytes. *)
Definition exhausted (B : blocks) (n : Z) : Prop :=
  forall i o, B !! i = Some (o, BFree) -> Min * 2 ^ o < n.

(** A request larger than the largest order finds nothing. *)
Lemma exhausted_order s B n :
  inv s B -> 0 < n < 2 ^ 64 -> max_order s <= order_for_size Min n -> exhausted B n.
Proof.
  intros HI Hn Hmo i o Hi. destruct (blk_range Min HI _ _ _ Hi) as (_ & Ho & _).
  destruct (order_for_size_spec n Hn) as (_ & _ & Hmin).
  destruct (Z.lt_ge_cases (Min * 2 ^ o) n) as [|Hge]; [done|].
  specialize (Hmin o ltac:(lia) Hge). lia.
Qed.

Lemma exhausted_find s B n o :
  inv s B -> 0 < n < 2 ^ 64 -> o = order_for_size Min n -> o < max_order s ->
  max_order s <= find_free_order s o -> exhausted B n.
Proof.
  intros HI Hn -> Hlt Hf i oi Hi. destruct (blk_range Min HI _ _ _ Hi) as (_ & Ho & _).
  destruct (order_for_size_spec n Hn) as (Hn0 & Hle & Hmin).
  destruct (Z.lt_ge_cases (Min * 2 ^ oi) n) as [|Hge]; [done|].
  specialize (Hmin oi ltac:(lia) Hge).
  destruct (find_free_order_spec s B (order_for_size Min n) HI ltac:(lia)) as [_ Hnone].
  specialize (Hnone oi ltac:(lia) ltac:(lia)).
  exfalso. apply (flist_empty _ _ _ (at_ (base s) i) (i_free _ _ _ HI oi Ho)); [by exists i|done].
Qed.

(** Carving a block out of the free lists opens it. *)
Lemma take_opened s B from o :
  wf s B -> 0 <= o <= from -> from < max_order s -> rd (free_lists s) from <> 0 ->
  exists i s1 B1, __take_and_split Min s from o = (at_ (base s) i, s1) /\
    opened s B i o s1 B1 /\ B !! i = Some (from, BFree).
Proof.
  intros HW Ho Hf Hne.
  destruct (take_and_split_spec Min s B from o (w_inv _ _ HW) (w_holes _ _ HW) (w_coal _ _ HW)
    Ho Hf Hne) as (i & s1 & B1 & E & Hi & HI1 & Hi1 & HB & HQ & Hh & Hc).
  exists i, s1, B1. split; [done|]. split; [|done]. split; try done.
  - by rewrite (q_mo _ _ _ _ HQ).
  - intros j oj k Hk. symmetry. by apply HB, live_busy.
  - by eauto.
Qed.

(** A successful request of order [o] for [n] bytes: the chunk is the start of
    block [i], whose payload holds [n] bytes; nothing else that is live
    changed. *)
Record served (s : buddy) (B : blocks) (n : Z) (t : bool) (c : chunk) (s' : buddy)
    (B' : blocks) (i o : Z) : Prop := {
  sv_wf : wf s' B';
  sv_chunk : c = Chunk (at_ (base s) i) (Min * 2 ^ o - __hdr_offset);
  sv_order : o = order_for_size Min (n + __hdr_offset);
  sv_size : n <= len c;
  sv_block : B' !! i = Some (o, BAlloc t);
  sv_fresh k : live k = true -> forall oj, B !! i <> Some (oj, k);
  sv_others : others B B' s s' i;
  sv_from : exists from k, B !! i = Some (from, k) /\ listed k = true
}.

Lemma commit_served s B n s1 B1 i (t : bool) :
  wf s B -> 0 <= n < 2 ^ 64 - __hdr_offset ->
  let o := order_for_size Min (n + __hdr_offset) in
  o < max_order s -> opened s B i o s1 B1 ->
  let f := if t then Z.lor __block_alloc __block_temporal else __block_alloc in
  served s B n t (Chunk (at_ (base s) i) (order_size Min o - __hdr_offset))
    (commit Min s1 (at_ (base s) i) o f (order_size Min o)) (<[i := (o, BAlloc t)]> B1) i o.
Proof.
  intros HW Hn o Ho Hop f. unfold __hdr_offset in *.
  destruct (order_for_size_spec (n + 32) ltac:(lia)) as (Ho0 & Hle & _). fold o in Ho0, Hle.
  destruct (commit_wf s B s1 B1 i o t HW Hop) as [HW2 HO].
  rewrite (order_size_eq Min (w_inv _ _ HW)) in * by lia.
  split; try done.
  - cbn. lia.
  - apply lookup_insert_eq.
  - intros k Hk oj Hb. apply (op_live _ _ _ _ _ _ Hop) in Hb; [|done].
    rewrite (op_hole _ _ _ _ _ _ Hop) in Hb. by simplify_eq.
  - apply (op_from _ _ _ _ _ _ Hop).
Qed.

Lemma allocate_spec s B n :
  wf s B -> 0 <= n < 2 ^ 64 ->
  (exists i o c s' B', allocate Min s n = (c, s') /\ served s B n false c s' B' i o) \/
  (allocate Min s n = (null_chunk, s) /\ exhausted B (n + __hdr_offset)).
Proof.
  intros HW Hn. pose proof (w_inv _ _ HW) as HI. pose proof (g_base _ _ (i_geo _ _ _ HI)) as Hb.
  unfold allocate, usize_max.
  destruct (Z.ltb_spec (2 ^ 64 - 1 - __hdr_offset) n) as [Hbig|Hsmall].
  { right. split; [done|]. intros i o Hi. pose proof (i_geo _ _ _ HI) as [? ? ? ? ?].
    destruct (blk_range Min HI _ _ _ Hi) as (? & _ & _ & _ & ?). unfold __hdr_offset in *.
    pose proof (Min_range Min). nia. }
  destruct (Z.eqb_spec (base s) 0); [lia|].
  assert (Hn1 : 0 < n + __hdr_offset < 2 ^ 64) by (unfold __hdr_offset in *; lia).
  destruct (order_for_size_spec _ Hn1) as (Ho0 & _ & _).
  set (o := order_for_size Min (n + __hdr_offset)) in *.
  destruct (Z.leb_spec (max_order s) o) as [Hmo|Hmo].
  { right. split; [done|]. by eapply exhausted_order. }
  unfold __cold_cap. cbn [Z.ltb Z.compare negb Z.eqb].
  destruct (Z.leb_spec (max_order s) (find_free_order s o)) as [Hf|Hf].
  { right. destruct (Z.leb_spec (max_order s) (find_free_order s o)); [|lia].
    split; [done|]. by eapply exhausted_find. }
  destruct (Z.leb_spec (max_order s) (find_free_order s o)); [lia|].
  destruct (find_free_order_spec s B o HI Ho0) as [Hfind _].
  destruct (Hfind Hf) as [Hle Hne].
  destruct (take_opened s B (find_free_order s o) o HW ltac:(lia) Hf Hne) as (i & s1 & B1 & -> & Hop & _).
  left. exists i, o. eexists _, _, _. split; [reflexivity|].
  by apply (commit_served s B n s1 B1 i false HW ltac:(unfold __hdr_offset in *; lia)).
Qed.

(** ** Temporal allocation *)

(** The slot the search starts from and the one it falls back on *)
Lemma active_slot s B o :
  wf s B -> 0 <= o < max_order s ->
  let r0 := Z.land (rd (active_rotor s) o) (__active_ring - 1) in
  (r0 = 0 \/ r0 = 1) /\ Z.lxor r0 1 = 1 - r0 /\
  (rd (active s) (o * __active_ring + r0) <> 0 -> rd (active s) (o * __active_ring + (1 - r0)) = 0).
Proof.
  intros HW Ho r0. destruct (w_ring _ _ HW) as [Hs H1 Hr].
  assert (Hr0 : r0 = 0 \/ r0 = 1) by (subst r0; destruct (Hr o Ho) as [-> | ->]; auto).
  clearbody r0. split; [done|]. specialize (H1 o Ho).
  destruct Hr0 as [-> | ->]; (split; [done|]); [|change (1 - 1) with 0];
    change (1 - 0) with 1; tauto.
Qed.

Lemma inv_set_ring s B a r :
  inv s B -> inv (set_active_rotor (set_active s a) r) B.
Proof. intros []. split; try done. by destruct i_geo. Qed.

(** Recording a temporal block in an empty ring *)
Lemma ring_record s B o r i :
  wf s B -> 0 <= o < max_order s -> (r = 0 \/ r = 1) ->
  rd (active s) (o * __active_ring + (1 - r)) = 0 -> B !! i = Some (o, BAlloc true) ->
  wf (set_active_rotor (set_active s (wr (active s) (o * __active_ring + r) (at_ (base s) i)))
        (wr (active_rotor s) o (1 - r))) B.
Proof.
  intros [HI Hh Hc Ha Ht [Hs H1 Hr]] Ho Hrr Hoth Hi. split; try done; [by apply inv_set_ring|].
  split; cbn; unfold __active_ring in *.
  - intros oq rq Hoq Hrq. rewrite rd_wr.
    destruct (Z.eqb_spec (o * 2 + r) (oq * 2 + rq)) as [E|]; [|by apply Hs].
    right. assert (oq = o) as -> by lia. by exists i.
  - intros oq Hoq. rewrite !rd_wr. destruct (Z.eq_dec o oq) as [<-|Hne].
    + destruct Hrr as [-> | ->]; repeat case_b; auto.
    + repeat case_b; by apply H1.
  - intros oq Hoq. rewrite rd_wr. case_b. by apply Hr.
Qed.

Lemma wf_set_rotor s B o r :
  wf s B -> (r = 0 \/ r = 1) -> wf (set_active_rotor s (wr (active_rotor s) o r)) B.
Proof.
  intros [HI Hh Hc Ha Ht [Hs H1 Hr]] Hrr. split; try done.
  - pose proof (inv_set_ring s B (active s) (wr (active_rotor s) o r) HI) as H. by destruct s.
  - split; cbn; try done. intros oq Hoq. rewrite rd_wr. case_b. by apply Hr.
Qed.

(** Serving a temporal request from an opened block. *)
Lemma temporal_commit s B n s1 B1 i r :
  wf s B -> 0 <= n < 2 ^ 64 - __hdr_offset ->
  let o := order_for_size Min (n + __hdr_offset) in
  o < max_order s -> opened s B i o s1 B1 -> (r = 0 \/ r = 1) ->
  rd (active s) (o * __active_ring + (1 - r)) = 0 ->
  let s2 := commit Min s1 (at_ (base s) i) o (Z.lor __block_alloc __block_temporal) (order_size Min o) in
  let s3 := set_active s2 (wr (active s2) (o * __active_ring + r) (at_ (base s) i)) in
  let s4 := set_active_rotor s3 (wr (active_rotor s3) o (1 - r)) in
  served s B n true (Chunk (at_ (base s) i) (order_size Min o - __hdr_offset)) s4
    (<[i := (o, BAlloc true)]> B1) i o.
Proof.
  intros HW Hn o Ho Hop Hr Hoth s2 s3 s4.
  destruct (order_for_size_spec (n + __hdr_offset) ltac:(unfold __hdr_offset in *; lia)) as (Ho0 & _).
  destruct (commit_served s B n s1 B1 i true HW Hn Ho Hop) as [HW2 Hc Hod Hsz Hbl Hfr HO Hfm].
  fold s2 in HW2, HO. pose proof (op_quiet _ _ _ _ _ _ Hop) as HQ.
  split; try done.
  - assert (Eb : base s2 = base s) by apply (o_base _ _ _ _ _ HO).
    subst s4 s3. rewrite <- Eb. apply (ring_record s2 _ o r i HW2); try done.
    + change (max_order s2) with (max_order s1). rewrite (q_mo _ _ _ _ HQ). lia.
    + change (active s2) with (active s1). by rewrite (q_active _ _ _ _ HQ).
  - by destruct HO.
Qed.

(** Some slot of the ring of order [o] holds [a]. *)
Definition slot_holds (s : buddy) (o a : Z) : Prop :=
  exists r, (r = 0 \/ r = 1) /\ rd (active s) (o * __active_ring + r) = a.

Lemma temporal_allocate_spec s B n :
  wf s B -> 0 <= n < 2 ^ 64 ->
  let o := order_for_size Min (n + __hdr_offset) in
  (* a live temporal block of the order is shared *)
  (exists i s', temporal_allocate Min s n
      = (Chunk (at_ (base s) i) (Min * 2 ^ o - __hdr_offset), s') /\
    B !! i = Some (o, BAlloc true) /\ wf s' B /\ n <= Min * 2 ^ o - __hdr_offset /\
    others B B s s' i /\ slot_holds s' o (at_ (base s) i)) \/
  (* or a block is taken from the cache or the free lists *)
  (exists i c s' B', temporal_allocate Min s n = (c, s') /\ served s B n true c s' B' i o /\
     slot_holds s' o (at_ (base s) i)) \/
  (temporal_allocate Min s n = (null_chunk, s) /\ exhausted B (n + __hdr_offset)).
Proof.
  intros HW Hn o. pose proof (w_inv _ _ HW) as HI. pose proof (g_base _ _ (i_geo _ _ _ HI)) as Hb.
  unfold temporal_allocate, usize_max.
  destruct (Z.ltb_spec (2 ^ 64 - 1 - __hdr_offset) n) as [Hbig|Hsmall].
  { right. right. split; [done|]. intros i oi Hi. pose proof (i_geo _ _ _ HI) as [? ? ? ? ?].
    destruct (blk_range Min HI _ _ _ Hi) as (? & _ & _ & _ & ?). unfold __hdr_offset in *.
    pose proof (Min_range Min). nia. }
  destruct (Z.eqb_spec (base s) 0); [lia|].
  assert (Hn1 : 0 < n + __hdr_offset < 2 ^ 64) by (unfold __hdr_offset in *; lia).
  assert (Hn2 : 0 <= n < 2 ^ 64 - __hdr_offset) by (unfold __hdr_offset in *; lia).
  destruct (order_for_size_spec _ Hn1) as (Ho0 & Hle & _). fold o in Ho0, Hle |- *.
  destruct (Z.leb_spec (max_order s) o) as [Hmo|Hmo].
  { right. right. split; [done|]. by eapply exhausted_order. }
  destruct (active_slot s B o HW ltac:(lia)) as (Hr & Hx & Hone).
  set (r0 := Z.land (rd (active_rotor s) o) (__active_ring - 1)) in *. clearbody r0.
  rewrite Hx.
  (* the slot finally used, [r], and what it holds *)
  assert (Hr2 : exists r, (r = 0 \/ r = 1) /\ Z.lxor r 1 = 1 - r /\
    (if rd (active s) (o * __active_ring + r0) =? 0
     then (1 - r0, rd (active s) (o * __active_ring + (1 - r0)))
     else (r0, rd (active s) (o * __active_ring + r0)))
    = (r, rd (active s) (o * __active_ring + r)) /\
    (rd (active s) (o * __active_ring + r) = 0 -> rd (active s) (o * __active_ring + (1 - r)) = 0)).
  { destruct (Z.eqb_spec (rd (active s) (o * __active_ring + r0)) 0) as [E|E].
    - exists (1 - r0). replace (1 - (1 - r0)) with r0 by lia. destruct Hr as [-> | ->]; auto 6.
    - exists r0. split_and!; try done. }
  destruct Hr2 as (r & Hrr & Hxr & -> & Hoth). rewrite Hxr.
  destruct (Z.eqb_spec (rd (active s) (o * __active_ring + r)) 0) as [Hz|Hnz]; cbn [negb].
  2: { left. destruct (r_slot _ _ (w_ring _ _ HW) o r ltac:(lia) Hrr) as [|(i & Ei & Hi)]; [done|].
       exists i. eexists. rewrite Ei, (order_size_eq Min HI) by lia. split; [reflexivity|].
       split; [done|]. split; [apply wf_set_rotor; [done|lia]|]. split; [lia|].
       split; [by split|]. by exists r. }
  destruct (inv_tcache_pop Min s B o HI ltac:(lia)) as [[-> Hempty]|(i & s1 & -> & Hi & HI1 & HQ1)].
  - rewrite Z.eqb_refl. cbn [negb].
    destruct (Z.leb_spec (max_order s) (find_free_order s o)) as [Hf|Hf].
    { right. right. split; [done|]. by eapply exhausted_find. }
    destruct (find_free_order_spec s B o HI Ho0) as [Hfind _].
    destruct (Hfind Hf) as [Hlef Hne].
    destruct (take_opened s B (find_free_order s o) o HW ltac:(lia) Hf Hne)
      as (i & s1 & B1 & -> & Hop & _).
    right. left. exists i. eexists _, _, _. split; [reflexivity|].
    split; [apply (temporal_commit s B n s1 B1 i r HW); auto|].
    exists r. split; [done|]. apply rd_wr_eq.
  - destruct (Z.eqb_spec (at_ (base s) i) 0) as [E|_]; cbn [negb].
    { by apply (at_pos Min HI _ _ _ Hi) in E. }
    right. left. exists i. eexists _, _, _. split; [reflexivity|].
    split; [|exists r; split; [done|]; apply rd_wr_eq].
    apply (temporal_commit s B n s1 (<[i := (o, BHole)]> B) i r HW); auto.
    split; try done.
    + apply lookup_insert_eq.
    + apply no_holes_open. apply HW.
    + rewrite (q_mo _ _ _ _ HQ1). apply coalesced_insert; [done|]. apply HW.
    + intros j oj k Hk. destruct (Z.eq_dec i j) as [<-|Hne].
      * rewrite lookup_insert_eq, Hi. split; intros ?; by simplify_eq.
      * by rewrite lookup_insert_ne.
    + by eauto.
Qed.

(** A block in the ring is the one the next request of its order gets. *)
Lemma temporal_allocate_held s B n i :
  wf s B -> 0 <= n < 2 ^ 64 - __hdr_offset ->
  let o := order_for_size Min (n + __hdr_offset) in
  o < max_order s -> slot_holds s o (at_ (base s) i) -> at_ (base s) i <> 0 ->
  (temporal_allocate Min s n).1 = Chunk (at_ (base s) i) (Min * 2 ^ o - __hdr_offset).
Proof.
  intros HW Hn o Ho (r & Hr & Hs) Hnz. pose proof (w_inv _ _ HW) as HI.
  pose proof (g_base _ _ (i_geo _ _ _ HI)) as Hb.
  destruct (order_for_size_spec (n + __hdr_offset) ltac:(unfold __hdr_offset in *; lia)) as (Ho0 & _).
  fold o in Ho0. destruct (active_slot s B o HW ltac:(lia)) as (Hr0 & Hx & Hone).
  unfold temporal_allocate, usize_max.
  destruct (Z.ltb_spec (2 ^ 64 - 1 - __hdr_offset) n); [unfold __hdr_offset in *; lia|].
  destruct (Z.eqb_spec (base s) 0); [lia|]. fold o.
  destruct (Z.leb_spec (max_order s) o); [lia|].
  set (r0 := Z.land (rd (active_rotor s) o) (__active_ring - 1)) in *. clearbody r0.
  rewrite Hx, (order_size_eq Min HI) by lia.
  assert (Hcase : r = r0 \/ (r = 1 - r0 /\ rd (active s) (o * __active_ring + r0) = 0)).
  { destruct (Z.eq_dec r r0) as [|Hne]; [by left|]. right.
    assert (r = 1 - r0) as -> by lia. split; [done|].
    destruct (Z.eq_dec (rd (active s) (o * __active_ring + r0)) 0) as [|Hnz']; [done|].
    rewrite (Hone Hnz') in Hs. congruence. }
  destruct Hcase as [-> | [-> Hz]].
  - rewrite Hs. destruct (Z.eqb_spec (at_ (base s) i) 0); [done|].
    destruct (Z.eqb_spec (at_ (base s) i) 0); [done|]. done.
  - rewrite Hz, Z.eqb_refl, Hs. by destruct (Z.eqb_spec (at_ (base s) i) 0).
Qed.

End Wf.
