(* ===== verification/BuddyFree.v ===== *)
(** * The buddy list: release, tombstones, cache flushing and client writes *)

From S2P Require Import Prelude.
From S2P Require Import Intrusive.
From S2P Require Import Config.
From S2P Require Import Tiling.
From S2P Require Import Buddy.
From S2P Require Import BuddyInv.
From S2P Require Import BuddyOps.
From S2P Require Import BuddyWf.

Section Free.
Context (Min : Z) {HM : BuddyMin Min}.

Local Abbreviation at_ := (at_ Min).
Local Abbreviation inv := (inv Min).
Local Abbreviation quiet := (quiet Min).
Local Abbreviation wf := (wf Min).
Local Abbreviation ring := (ring Min).
Local Abbreviation others := (others Min).

(** ** Recognising live blocks *)

Lemma live_tag s B i o k :
  inv s B -> B !! i = Some (o, k) -> live k = true -> rd (block_tags s) i = o.
Proof.
  intros HI Hi Hk. destruct (blk_range Min HI _ _ _ Hi) as (? & ? & _ & ? & ?).
  pose proof (i_tags _ _ _ HI i ltac:(lia)) as Ht. rewrite Hi in Ht. by destruct k.
Qed.

(** [is_allocated] holds exactly at the start of a live block. *)
Lemma is_allocated_iff s B p :
  inv s B -> no_holes B ->
  is_allocated Min s p = true <->
  exists i o k, p = at_ (base s) i /\ B !! i = Some (o, k) /\ live k = true.
Proof.
  intros HI Hh. pose proof (geo_units Min HI) as (Htc & _ & Hmo & Htot).
  destruct (i_geo _ _ _ HI) as [Hb He _ Hmo1 _]. pose proof (Min_range Min) as HM0.
  pose proof (lg_range (Min := Min)). unfold is_allocated. split.
  - destruct (Z.eqb_spec p 0), (Z.eqb_spec (base s) 0), (Z.ltb_spec p (base s)),
      (Z.leb_spec (base s + total s) p); cbn [orb]; try done.
    rewrite u64_small by lia. rewrite (Min_eq (Min := Min)) at 1. rewrite land_mask by lia.
    rewrite <- (Min_eq (Min := Min)).
    destruct (Z.eqb_spec ((p - base s) mod Min) 0) as [Hm|]; cbn [negb]; [|done].
    set (i := (p - base s) / Min).
    assert (Ep : p = at_ (base s) i).
    { unfold BuddyInv.at_. pose proof (Z.div_mod (p - base s) Min ltac:(lia)). lia. }
    assert (Hi : 0 <= i < tag_count s)
      by (subst i; split; [apply Z.div_pos; lia|apply Z.div_lt_upper_bound]; lia).
    rewrite Ep, (tag_index_at Min HI) by done. pose proof (i_tags _ _ _ HI i Hi) as Ht.
    rewrite u8_small by lia. intros [_ Hlt%Z.ltb_lt]%andb_true_iff.
    destruct (B !! i) as [[o k]|] eqn:E; cbn in Ht; [|unfold __tag_none in *; lia].
    exists i, o, k. split; [done|]. split; [done|].
    destruct (blk_range Min HI _ _ _ E) as (_ & Ho & _). unfold __tag_free, __tag_none in *.
    destruct k; try done; try lia. by apply Hh in E.
  - intros (i & o & k & -> & Hi & Hk).
    destruct (blk_range Min HI _ _ _ Hi) as (Hi0 & Ho & _ & Hp & Hend).
    destruct (at_bounds Min HI i ltac:(lia)) as (Hpos & Hlo & Hup).
    destruct (Z.eqb_spec (at_ (base s) i) 0), (Z.eqb_spec (base s) 0),
      (Z.ltb_spec (at_ (base s) i) (base s)), (Z.leb_spec (base s + total s) (at_ (base s) i));
      cbn [orb]; try lia.
    rewrite (u64_at Min HI), (land_min Min), (tag_index_at Min HI) by lia. cbn [Z.eqb negb].
    rewrite (live_tag s B i o k HI Hi Hk), u8_small by lia.
    replace (Z.land o __tag_free) with 0; [|].
    + cbn. apply Z.ltb_lt. lia.
    + pose proof (ldiff_tag o ltac:(lia)) as E. symmetry. apply Z.bits_inj'. intros m Hm.
      rewrite Z.bits_0, Z.land_spec. apply (f_equal (fun z => Z.testbit z m)) in E.
      rewrite Z.ldiff_spec in E. destruct (Z.testbit o m), (Z.testbit __tag_free m); done.
Qed.

Lemma live_header s B i o k :
  inv s B -> B !! i = Some (o, k) -> live k = true ->
  hdr_of_tagged Min s (at_ (base s) i) = hdr_of Min (at_ (base s) i) o /\
  exists f, kind_flags k = Some f /\ hdr_order s (hdr_of Min (at_ (base s) i) o) = o /\
    hdr_flags s (hdr_of Min (at_ (base s) i) o) = f.
Proof.
  intros HI Hi Hk. destruct (blk_range Min HI _ _ _ Hi) as (? & ? & _ & ? & ?).
  pose proof (geo_units Min HI) as (_ & _ & Hmo & _). split.
  - unfold hdr_of_tagged. rewrite (tag_index_at Min HI), (live_tag s B i o k HI Hi Hk) by lia.
    by rewrite ldiff_tag by lia.
  - destruct (kind_flags k) as [f|] eqn:E; [|destruct k as [|[]| | |]; done].
    exists f. split; [done|]. by apply (i_hdr _ _ _ HI i o k).
Qed.

(** ** The ring after a release *)

(** Clearing zeroes at most one cell. *)
Lemma clear_cell s a o x :
  rd (active (clear_active s a o)) x = rd (active s) x \/
  rd (active (clear_active s a o)) x = 0.
Proof.
  unfold clear_active.
  destruct (rd (active s) (o * __active_ring + 0) =? a);
    [|destruct (rd (active s) (o * __active_ring + 1) =? a); [|by left]];
    cbn [active set_active]; rewrite rd_wr;
    match goal with |- context [if ?b then _ else _] => destruct b end; auto.
Qed.

(** ... and the slot that holds the block is among them, since the other slot
    is empty. *)
Lemma clear_slot s a o r :
  a <> 0 -> r = 0 \/ r = 1 ->
  rd (active s) (o * __active_ring + 0) = 0 \/ rd (active s) (o * __active_ring + 1) = 0 ->
  rd (active s) (o * __active_ring + r) = a ->
  rd (active (clear_active s a o)) (o * __active_ring + r) = 0.
Proof.
  intros Ha Hr H1 E. unfold clear_active.
  destruct (Z.eqb_spec (rd (active s) (o * __active_ring + 0)) a) as [E0|E0];
    [|destruct (Z.eqb_spec (rd (active s) (o * __active_ring + 1)) a) as [E1|E1]];
    cbn [active set_active]; destruct Hr as [-> | ->]; rewrite ?rd_wr_eq; try done; try congruence.
  destruct H1; congruence.
Qed.

Lemma ring_after s B s' B' i o k :
  ring s B -> B !! i = Some (o, k) -> at_ (base s) i <> 0 ->
  base s' = base s -> max_order s' = max_order s ->
  active s' = (if has_flag (default 0 (kind_flags k)) __block_temporal
               then active (clear_active s (at_ (base s) i) o) else active s) ->
  active_rotor s' = active_rotor s ->
  (forall j oj, j <> i -> B !! j = Some (oj, BAlloc true) -> B' !! j = Some (oj, BAlloc true)) ->
  ring s' B'.
Proof.
  intros [Hs H1 Hr] Hi Hnz Eb Em Ea Er HB.
  assert (Hsub : forall x, rd (active s') x = rd (active s) x \/ rd (active s') x = 0).
  { intros x. rewrite Ea. destruct (has_flag _ _); [apply clear_cell|by left]. }
  split; rewrite ?Em, ?Er, ?Eb; try done.
  - intros oq r Hoq Hrr. destruct (Hsub (oq * __active_ring + r)) as [E|E]; [|by left].
    destruct (Hs oq r Hoq Hrr) as [Hz|(j & Ej & Hj)]; [left; congruence|].
    destruct (Z.eq_dec j i) as [->|Hne].
    + left. rewrite Hi in Hj. injection Hj as -> ->. rewrite Ea. cbn.
      apply clear_slot; auto.
    + right. exists j. split; [congruence|]. by apply HB.
  - intros oq Hoq. destruct (H1 oq Hoq) as [Hz|Hz]; [left|right].
    + destruct (Hsub (oq * __active_ring + 0)) as [E|E]; [|done]. by rewrite E.
    + destruct (Hsub (oq * __active_ring + 1)) as [E|E]; [|done]. by rewrite E.
Qed.

(** ** Release *)

Lemma inv_set_bytes s B a t : inv s B -> inv (set_bytes s a t) B.
Proof. intros []. split; try done. by destruct i_geo. Qed.

Lemma inv_clear_active s B a o : inv s B -> inv (clear_active s a o) B.
Proof.
  intros HI. unfold clear_active.
  repeat match goal with |- context [if ?b then _ else _] => destruct b end; try done;
    destruct HI; split; try done; by destruct i_geo.
Qed.

(** A release of the hole [i]: into the cache, or merged into the free lists. *)
Definition released (s : buddy) (i o : Z) (t : bool) : buddy :=
  if t && (rd (tcache_count s) o <? __cache_cap)
  then park Min s (at_ (base s) i) o
  else __merge_and_free Min s (at_ (base s) i) o.

Lemma released_spec s B i o t :
  inv s B -> B !! i = Some (o, BHole) -> holes_only B i -> coalesced (max_order s) B ->
  exists B', inv (released s i o t) B' /\ no_holes B' /\ coalesced (max_order s) B' /\
    quiet B s (released s i o t) /\
    (forall j oj k, live k = true -> B' !! j = Some (oj, k) <-> B !! j = Some (oj, k)).
Proof.
  intros HI Hi Hh Hc. unfold released.
  destruct (t && (rd (tcache_count s) o <? __cache_cap)) eqn:E.
  - apply andb_true_iff in E as [_ Hlt%Z.ltb_lt].
    destruct (inv_park Min s B i o HI Hi Hlt) as [HI' HQ].
    exists (<[i := (o, BCached)]> B). split_and!; try done.
    + by apply holes_insert.
    + by apply coalesced_insert.
    + intros j oj k Hk. destruct (Z.eq_dec i j) as [<-|Hne].
      * rewrite lookup_insert_eq, Hi. split; intros ?; by simplify_eq.
      * by rewrite lookup_insert_ne.
  - destruct (merge_and_free_spec Min s B i o HI Hi Hh Hc) as (B' & HI' & Hn & HB & HQ & Hc').
    exists B'. split_and!; try done. intros j oj k Hk. symmetry. by apply HB, live_busy.
Qed.

(** [deallocate] of a live block runs its release. *)
Lemma deallocate_eq s B i o k :
  inv s B -> no_holes B -> B !! i = Some (o, k) -> live k = true ->
  let t := has_flag (default 0 (kind_flags k)) __block_temporal in
  let s0 := set_bytes s (u64 (allocated_bytes s - Min * 2 ^ o))
    (if is_tomb k then u64 (tombstoned_bytes s - Min * 2 ^ o) else tombstoned_bytes s) in
  let s1 := if t then clear_active s0 (at_ (base s) i) o else s0 in
  deallocate Min s (at_ (base s) i) = (__flag_ok, released s1 i o t).
Proof.
  intros HI Hh Hi Hk t s0 s1. destruct (blk_range Min HI _ _ _ Hi) as (? & Ho & _ & ? & ?).
  destruct (live_header s B i o k HI Hi Hk) as (Eh & f & Ef & Eo & Efl).
  assert (Hal : is_allocated Min s (at_ (base s) i) = true)
    by (apply (is_allocated_iff s B); [done..|]; eauto 6).
  pose proof (g_base _ _ (i_geo _ _ _ HI)) as Hb. pose proof (at_pos Min HI _ _ _ Hi) as Ha.
  unfold deallocate. rewrite Hal. cbn [negb]. rewrite Eh, Eo.
  destruct (Z.ltb_spec o 0); [lia|]. destruct (Z.leb_spec (max_order s) o); [lia|].
  cbn [orb]. destruct (Z.eqb_spec (base s) 0); [lia|].
  destruct (Z.eqb_spec (at_ (base s) i) 0); [done|]. cbn [orb]. rewrite Efl.
  assert (Hf : (f =? __block_free) = false /\ has_flag f __block_tombstone = is_tomb k /\
    has_flag f __block_temporal = t).
  { subst t. rewrite Ef. cbn. destruct k as [|[]| | |]; try done; injection Ef as <-; done. }
  destruct Hf as (-> & -> & ->). rewrite (order_size_eq Min HI) by lia. fold s0.
  unfold released. subst s1. destruct t; [|done]. cbn [andb].
  assert (Eb : base (clear_active s0 (at_ (base s) i) o) = base s /\
    tcache_count (clear_active s0 (at_ (base s) i) o) = tcache_count s).
  { unfold clear_active. by repeat match goal with |- context [if ?b then _ else _] => destruct b end. }
  destruct Eb as [Eb Ec]. rewrite Eb. unfold park, tcache_push. rewrite Ec.
  destruct (Z.leb_spec __cache_cap (rd (tcache_count s) o)), (Z.ltb_spec (rd (tcache_count s) o) __cache_cap);
    try lia; done.
Qed.

Lemma deallocate_live s B i o k :
  inv s B -> no_holes B -> coalesced (max_order s) B -> ring s B ->
  B !! i = Some (o, k) -> live k = true ->
  exists s' B', deallocate Min s (at_ (base s) i) = (__flag_ok, s') /\
    inv s' B' /\ no_holes B' /\ coalesced (max_order s') B' /\ ring s' B' /\
    others B B' s s' i /\ (forall oj kj, live kj = true -> B' !! i <> Some (oj, kj)) /\
    allocated_bytes s' = u64 (allocated_bytes s - Min * 2 ^ o) /\
    tombstoned_bytes s' = (if is_tomb k then u64 (tombstoned_bytes s - Min * 2 ^ o)
                           else tombstoned_bytes s).
Proof.
  intros HI Hh Hc HR Hi Hk. pose proof (deallocate_eq s B i o k HI Hh Hi Hk) as E.
  cbn zeta in E. set (t := has_flag _ _) in E. set (s0 := set_bytes _ _ _) in E.
  set (s1 := if t then _ else _) in E.
  pose proof (inv_release Min s B i o k HI Hi ltac:(by destruct k)) as HI0.
  set (B0 := <[i := (o, BHole)]> B) in *.
  assert (HI1 : inv s1 B0).
  { subst s1 s0. destruct t; [apply inv_clear_active|]; by apply inv_set_bytes. }
  assert (Hf : base s1 = base s /\ total s1 = total s /\ max_order s1 = max_order s /\
    mem s1 = mem s /\ allocated_bytes s1 = allocated_bytes s0 /\
    tombstoned_bytes s1 = tombstoned_bytes s0 /\ active_rotor s1 = active_rotor s /\
    active s1 = (if t then active (clear_active s (at_ (base s) i) o) else active s)).
  { subst s1 s0. destruct t; [|done]. unfold clear_active. cbn.
    repeat match goal with |- context [if ?b then _ else _] => destruct b end; done. }
  destruct Hf as (Eb & Et & Em & Emm & Ea & Etb & Er & Eac).
  destruct (released_spec s1 B0 i o t HI1) as (B' & HI' & Hh' & Hc' & HQ & HL).
  - apply lookup_insert_eq.
  - by apply no_holes_open.
  - rewrite Em. by apply coalesced_insert.
  - assert (Hother : forall j oj kj, live kj = true -> j <> i ->
      B' !! j = Some (oj, kj) <-> B !! j = Some (oj, kj)).
    { intros j oj kj Hkj Hne. rewrite HL by done. subst B0. by rewrite lookup_insert_ne. }
    exists (released s1 i o t), B'. split; [done|]. split; [done|]. split; [done|].
    split; [by rewrite (q_mo _ _ _ _ HQ)|].
    split; [|split; [split|split]].
    + apply (ring_after s B _ B' i o k HR Hi (at_pos Min HI _ _ _ Hi)).
      * by rewrite (q_base _ _ _ _ HQ).
      * by rewrite (q_mo _ _ _ _ HQ).
      * by rewrite (q_active _ _ _ _ HQ).
      * by rewrite (q_rotor _ _ _ _ HQ).
      * intros j oj Hne Hj. by apply Hother.
    + by rewrite (q_base _ _ _ _ HQ).
    + by rewrite (q_total _ _ _ _ HQ).
    + by rewrite (q_mo _ _ _ _ HQ).
    + intros j oj kj Hkj Hne. by apply Hother.
    + intros j oj kj a Hne Hj Hkj Ha. rewrite <- Emm.
      apply (q_mem _ _ _ _ HQ j oj kj); [|by apply live_busy|by rewrite Eb].
      subst B0. by rewrite lookup_insert_ne.
    + intros oj kj Hkj. rewrite HL by done. subst B0. rewrite lookup_insert_eq.
      intros ?. by simplify_eq.
    + by rewrite (q_alloc _ _ _ _ HQ), (q_tomb _ _ _ _ HQ), Ea, Etb.
Qed.


Lemma alloc_live k : is_alloc k = true -> live k = true.
Proof. by destruct k. Qed.

Lemma tomb_live k : is_tomb k = true -> live k = true.
Proof. by destruct k. Qed.

(** The weight of the live blocks after one of them is gone *)
Lemma wsum_live_gone p B B' i o k :
  (forall k, p k = true -> live k = true) -> B !! i = Some (o, k) ->
  (forall j oj kj, live kj = true -> j <> i -> B' !! j = Some (oj, kj) <-> B !! j = Some (oj, kj)) ->
  (forall oj kj, live kj = true -> B' !! i <> Some (oj, kj)) ->
  wsum p B' = wsum p B - (if p k then 2 ^ o else 0).
Proof.
  intros Hp Hi HL Hn. rewrite (wsum_delete p B i o k Hi).
  rewrite (wsum_live p (delete i B) B'); [lia|done|].
  intros j oj kj Hk. rewrite lookup_delete_Some. destruct (Z.eq_dec j i) as [->|Hne].
  - split; [intros E; by apply Hn in E|by intros []].
  - rewrite HL by done. naive_solver.
Qed.

Lemma deallocate_wf s B i o t :
  wf s B -> B !! i = Some (o, BAlloc t) ->
  exists s' B', deallocate Min s (at_ (base s) i) = (__flag_ok, s') /\ wf s' B' /\
    others B B' s s' i /\ (forall oj kj, live kj = true -> B' !! i <> Some (oj, kj)) /\
    allocated_bytes s' = allocated_bytes s - Min * 2 ^ o.
Proof.
  intros HW Hi. pose proof (w_inv _ _ _ HW) as HI.
  destruct (deallocate_live s B i o (BAlloc t) HI (w_holes _ _ _ HW) (w_coal _ _ _ HW)
    (w_ring _ _ _ HW) Hi eq_refl) as (s' & B' & E & HI' & Hh' & Hc' & HR' & HO & Hgone & Ha & Ht).
  exists s', B'. cbn in Ht.
  pose proof (wsum_live_gone is_alloc B B' i o (BAlloc t) alloc_live Hi (o_live _ _ _ _ _ _ HO) Hgone) as Ea.
  pose proof (wsum_live_gone is_tomb B B' i o (BAlloc t) tomb_live Hi (o_live _ _ _ _ _ _ HO) Hgone) as Et.
  cbn in Ea, Et. rewrite (w_alloc _ _ _ HW) in *.
  pose proof (bytes_range Min s B is_alloc HI). pose proof (bytes_range Min s' B' is_alloc HI') as Hr.
  rewrite Ea in Hr. rewrite u64_small in Ha by lia.
  split; [done|]. split; [|done]. split; try done.
  - rewrite Ha, Ea. lia.
  - rewrite Ht, Et, (w_tomb _ _ _ HW). lia.
Qed.

(** Anything but the start of a live block is refused and changes nothing. *)
Lemma deallocate_invalid s B p :
  inv s B -> no_holes B ->
  (forall i o k, p = at_ (base s) i -> B !! i = Some (o, k) -> live k = false) ->
  deallocate Min s p = (__flag_invalid, s).
Proof.
  intros HI Hh Hn. unfold deallocate.
  destruct (is_allocated Min s p) eqn:E; [|done].
  apply (is_allocated_iff s B p HI Hh) in E as (i & o & k & Ep & Hi & Hk).
  rewrite (Hn _ _ _ Ep Hi) in Hk. done.
Qed.

(** ** Tombstones *)

Lemma inv_tombstone s B i o t a b :
  inv s B -> B !! i = Some (o, BAlloc t) ->
  let h := hdr_of Min (at_ (base s) i) o in
  inv (set_bytes (set_mem s (wr (mem s) (h + 4) __block_tombstone)) a b)
    (<[i := (o, BTomb)]> B).
Proof.
  intros HI Hi h. apply inv_set_bytes. pose proof (Min_range Min).
  destruct (blk_range Min HI _ _ _ Hi) as (Hi0 & Ho & _ & Hp & Hend).
  set (s' := set_mem s _).
  assert (Hcell : forall j v d oj kj, B !! j = Some (oj, kj) -> j <> i ->
    j <= v < j + 2 ^ oj -> 0 <= d < Min ->
    rd (mem s') (at_ (base s) v + d) = rd (mem s) (at_ (base s) v + d)).
  { intros j v d oj kj Hj Hne Hv Hd. subst s' h. cbn. rewrite (hdr_of_at Min HI _ _ _ Hi).
    assert (i + 2 ^ o - 1 <> v).
    { intros E. apply (unit_ne Min HI _ _ _ _ _ _ v (i + 2 ^ o - 1) Hj Hi Hne Hv); lia. }
    rewrite <- Z.add_assoc, rd_wr_ne; [done|]. apply cell_unit_ne; lia. }
  assert (Hkept : cells_kept Min s s' B i o).
  { intros j oj kj v d Hj Hne _ Hv Hd. by apply (Hcell j v d oj kj). }
  destruct (cached_kept Min s s' B i o (BAlloc t) BTomb HI Hi) as [HS Hcap]; try done.
  apply (inv_update Min s s' B i o (BAlloc t) BTomb); try done.
  - by apply (live_tag s B i o (BAlloc t)).
  - by apply (free_kept Min s s' B i o (BAlloc t) BTomb).
  - apply HI.
  - rewrite (i_mask _ _ _ HI) by lia. cbn. by destruct (Z.ltb_spec o (max_order s)); [|lia].
  - intros f' [= <-]. fold h. subst s'. unfold hdr_order, hdr_flags. cbn.
    rewrite rd_wr_eq, rd_wr_ne by lia. split; [|done].
    destruct t; by eapply (i_hdr _ _ _ HI).
Qed.

Lemma tombstone_spec s B i o :
  wf s B -> B !! i = Some (o, BAlloc false) ->
  exists s', tombstone Min s (at_ (base s) i) = (__flag_tombstoned, s') /\
    wf s' (<[i := (o, BTomb)]> B) /\
    allocated_bytes s' = allocated_bytes s - Min * 2 ^ o /\
    tombstoned_bytes s' = tombstoned_bytes s + Min * 2 ^ o.
Proof.
  intros HW Hi. pose proof (w_inv _ _ _ HW) as HI.
  destruct (blk_range Min HI _ _ _ Hi) as (? & Ho & _ & ? & ?).
  destruct (live_header s B i o _ HI Hi eq_refl) as (Eh & f & Ef & Eo & Efl).
  cbn in Ef. injection Ef as <-.
  assert (Hal : is_allocated Min s (at_ (base s) i) = true)
    by (apply (is_allocated_iff s B); [apply HW..|]; eauto 6).
  unfold tombstone. rewrite Hal. cbn [negb]. rewrite Eh, Eo.
  destruct (Z.ltb_spec o 0); [lia|]. destruct (Z.leb_spec (max_order s) o); [lia|].
  cbn [orb]. rewrite Efl. cbn [negb has_flag]. cbn.
  rewrite (order_size_eq Min HI) by lia. eexists. split; [reflexivity|].
  pose proof (inv_tombstone s B i o false (u64 (allocated_bytes s - Min * 2 ^ o))
    (u64 (tombstoned_bytes s + Min * 2 ^ o)) HI Hi) as HI'. cbn zeta in HI'.
  pose proof (bytes_range Min _ _ is_alloc HI') as Hb. pose proof (bytes_range Min _ _ is_tomb HI') as Hb'.
  pose proof (bytes_range Min _ _ is_alloc HI) as Hb0.
  rewrite (wsum_update is_alloc B i o (BAlloc false)) in Hb by done.
  rewrite (wsum_update is_tomb B i o (BAlloc false)) in Hb' by done. cbn in Hb, Hb'.
  rewrite (w_alloc _ _ _ HW), (w_tomb _ _ _ HW) in *.
  cbn [allocated_bytes tombstoned_bytes set_bytes].
  rewrite !u64_small in * by lia. split; [|lia]. split; try done.
  - intros j oj Hj. destruct (Z.eq_dec i j) as [<-|Hne].
    + rewrite lookup_insert_eq in Hj. done.
    + rewrite lookup_insert_ne in Hj by done. by apply (w_holes _ _ _ HW) in Hj.
  - apply coalesced_insert; [done|]. apply HW.
  - rewrite (wsum_update _ B i o (BAlloc false)) by done. cbn. lia.
  - rewrite (wsum_update _ B i o (BAlloc false)) by done. cbn. lia.
  - apply (ring_mono Min s B); try done; [apply HW|].
    intros j oj Hj. rewrite lookup_insert_ne; [done|]. intros <-. congruence.
Qed.

(** A second tombstone is refused. *)
Lemma tombstone_again s B i o :
  wf s B -> B !! i = Some (o, BTomb) ->
  tombstone Min s (at_ (base s) i) = (__flag_invalid, s).
Proof.
  intros HW Hi. pose proof (w_inv _ _ _ HW) as HI.
  destruct (blk_range Min HI _ _ _ Hi) as (? & Ho & _ & ? & ?).
  destruct (live_header s B i o _ HI Hi eq_refl) as (Eh & f & Ef & Eo & Efl).
  cbn in Ef. injection Ef as <-. unfold tombstone.
  destruct (is_allocated Min s (at_ (base s) i)); [|done]. cbn [negb]. rewrite Eh, Eo.
  destruct (Z.ltb_spec o 0); [lia|]. destruct (Z.leb_spec (max_order s) o); [lia|].
  cbn [orb]. rewrite Efl. done.
Qed.

(** ** Client writes *)

(** A client owns the bytes of its block before the header. *)
Lemma client_write_wf s B i o k a v :
  wf s B -> B !! i = Some (o, k) -> live k = true ->
  at_ (base s) i <= a < at_ (base s) i + Min * 2 ^ o - __hdr_offset ->
  wf (set_mem s (wr (mem s) a v)) B.
Proof.
  intros HW Hi Hk Ha. pose proof (w_inv _ _ _ HW) as HI.
  pose proof (Min_range Min) as HM0. destruct (blk_range Min HI _ _ _ Hi) as (Hi0 & Ho & _ & Hp & Hend).
  unfold __hdr_offset in Ha.
  (* the cells the allocator reads are elsewhere *)
  assert (Hcell : forall j u d oj kj, B !! j = Some (oj, kj) ->
    j <= u < j + 2 ^ oj -> 0 <= d < Min -> (j = i -> u = i + 2 ^ o - 1 /\ Min - 32 <= d) ->
    rd (wr (mem s) a v) (at_ (base s) u + d) = rd (mem s) (at_ (base s) u + d)).
  { intros j u d oj kj Hj Hu Hd Hji. rewrite rd_wr_ne; [done|]. intros ->.
    destruct (Z.eq_dec j i) as [E|Hne].
    - destruct (Hji E) as [-> ?]. revert Ha. unfold BuddyInv.at_.
      replace ((i + 2 ^ o - 1) * Min) with (i * Min + Min * 2 ^ o - Min) by ring. lia.
    - apply (cell_out Min HI _ _ _ _ _ _ u d Hi Hj ltac:(congruence) Hu Hd).
      revert Ha. unfold BuddyInv.at_. nia. }
  destruct HW as [_ Hh Hc Haa Htt HR]. split; try done.
  - destruct HI as [Hg Ht Htg Hf Htc Hmr Hm Hhd Hcd]. split; try done.
    + by destruct Hg.
    + intros oq Hoq. eapply flist_frame; [by apply Hf|done| |]; intros x (j & -> & Hj);
        destruct (tl_range _ _ Ht _ _ _ Hj) as (? & ? & ? & ?); pose proof (pow2_pos oq ltac:(lia));
        (apply (Hcell j j _ oq BFree Hj); [lia|lia|]); intros ->; rewrite Hi in Hj; by simplify_eq.
    + intros oq Hoq. destruct (Htc oq Hoq) as [HS Hcap]. split; [|done].
      eapply slist_frame; [exact HS|done|]. intros x (j & -> & Hj).
      destruct (tl_range _ _ Ht _ _ _ Hj) as (? & ? & ? & ?). pose proof (pow2_pos oq ltac:(lia)).
      apply (Hcell j j _ oq BCached Hj); [lia|lia|]. intros ->. rewrite Hi in Hj. by simplify_eq.
    + intros j oj kj f Hj Hf'. destruct (Hhd _ _ _ _ Hj Hf') as [E1 E2].
      unfold hdr_order, hdr_flags in *. cbn.
      assert (HI2 : inv s B) by (by split).
      destruct (blk_range Min HI2 _ _ _ Hj) as (? & ? & _ & ? & ?).
      rewrite (hdr_of_at Min HI2 _ _ _ Hj) in *. rewrite <- !Z.add_assoc in *.
      rewrite !(Hcell j (j + 2 ^ oj - 1) _ oj kj Hj); try done; try lia.
      all: intros ->; rewrite Hi in Hj; simplify_eq; lia.
  - by destruct HR.
Qed.

End Free.
