(* ===== verification/BuddyReach.v ===== *)
(** * The buddy list: exact requests, flushing, initialisation, reachability *)

From S2P Require Import Prelude.
From S2P Require Import Intrusive.
From S2P Require Import Config.
From S2P Require Import Tiling.
From S2P Require Import Buddy.
From S2P Require Import BuddyInv.
From S2P Require Import BuddyOps.
From S2P Require Import BuddyWf.
From S2P Require Import BuddyFree.

Section Reach.
Context (Min : Z) {HM : BuddyMin Min}.

Local Abbreviation at_ := (at_ Min).
Local Abbreviation inv := (inv Min).
Local Abbreviation quiet := (quiet Min).
Local Abbreviation wf := (wf Min).
Local Abbreviation others := (others Min).

(** A step on free memory that keeps the live blocks keeps the state well
    formed. *)
Lemma wf_quiet s B Bq s' B' :
  wf s B -> quiet Bq s s' -> inv s' B' -> no_holes B' -> coalesced (max_order s) B' ->
  (forall j o k, live k = true -> B' !! j = Some (o, k) <-> B !! j = Some (o, k)) ->
  wf s' B'.
Proof.
  intros HW HQ HI Hh Hc HL. split; try done.
  - by rewrite (q_mo _ _ _ _ HQ).
  - rewrite (q_alloc _ _ _ _ HQ), (w_alloc _ _ _ HW).
    by rewrite (wsum_live is_alloc B B' alloc_live HL).
  - rewrite (q_tomb _ _ _ _ HQ), (w_tomb _ _ _ HW).
    by rewrite (wsum_live is_tomb B B' tomb_live HL).
  - eapply ring_mono; [apply HW|apply HQ|apply HQ|apply HQ|apply HQ|].
    intros i o Hi. by apply HL.
Qed.

(** ** Exact requests *)

Lemma allocate_exact_spec s B n :
  wf s B -> 0 <= n < 2 ^ 64 ->
  allocate_exact Min s n = (null_chunk, s) \/
  exists i o s' B', allocate_exact Min s n
      = (Chunk (at_ (base s) i) (Min * 2 ^ o - __hdr_offset), s') /\
    wf s' B' /\ o = order_for_size Min n /\ n <= Min * 2 ^ o /\
    B' !! i = Some (o, BAlloc false) /\ B !! i = Some (o, BFree) /\ others B B' s s' i.
Proof.
  intros HW Hn. pose proof (w_inv _ _ _ HW) as HI. pose proof (Min_range Min).
  unfold allocate_exact. destruct (Z.eqb_spec (base s) 0); [by left|].
  destruct (Z.ltb_spec n Min); [by left|]. destruct (Z.land n (n - 1) =? 0); [|by left]. cbn [negb].
  set (o := order_for_size Min n). destruct (Z.leb_spec (max_order s) o); [by left|].
  destruct (Z.eqb_spec (rd (free_lists s) o) 0); [by left|]. right.
  destruct (order_for_size_spec Min n ltac:(lia)) as (Ho & Hle & _). fold o in Ho, Hle.
  destruct (take_opened Min s B o o HW ltac:(lia) ltac:(lia) ltac:(done)) as (i & s1 & B1 & -> & Hop & Hi).
  destruct (commit_wf Min s B s1 B1 i o false HW Hop) as [HW2 HO].
  exists i, o. eexists _, _. rewrite (order_size_eq Min HI) in * by lia.
  split; [reflexivity|]. split_and!; try done. apply lookup_insert_eq.
Qed.

(** ** Flushing the cache *)

(** What flushing may do: only cached blocks disappear, live blocks keep their
    contents. *)
Record flushed (s : buddy) (B : blocks) (s' : buddy) (B' : blocks) : Prop := {
  fl_wf : wf s' B';
  fl_live j o k : live k = true -> B' !! j = Some (o, k) <-> B !! j = Some (o, k);
  fl_cached j o : B' !! j = Some (o, BCached) -> B !! j = Some (o, BCached);
  fl_base : base s' = base s;
  fl_total : total s' = total s;
  fl_mo : max_order s' = max_order s;
  fl_mem j o k a : B !! j = Some (o, k) -> live k = true ->
    at_ (base s) j <= a < at_ (base s) (j + 2 ^ o) -> rd (mem s') a = rd (mem s) a
}.

Lemma flushed_refl s B : wf s B -> flushed s B s B.
Proof. intros HW. by split. Qed.

Lemma flushed_trans s1 B1 s2 B2 s3 B3 :
  flushed s1 B1 s2 B2 -> flushed s2 B2 s3 B3 -> flushed s1 B1 s3 B3.
Proof.
  intros [] []. split; try done; try congruence.
  - intros j o k Hk. by rewrite fl_live1, fl_live0.
  - intros j o Hj. by apply fl_cached0, fl_cached1.
  - intros j o k a Hj Hk Ha. rewrite <- (fl_mem0 j o k) by done.
    apply (fl_mem1 j o k); [by apply fl_live0|done|]. by rewrite fl_base0.
Qed.

(** One round: a cached block goes back to the free lists. *)
Lemma flush_round s B o f :
  wf s B -> 0 <= o < max_order s -> rd (tcache s) o <> 0 ->
  exists s' B', tcache_flush_loop Min (S f) s o = tcache_flush_loop Min f s' o /\
    flushed s B s' B' /\ rd (tcache_count s') o = rd (tcache_count s) o - 1.
Proof.
  intros HW Ho Hne. pose proof (w_inv _ _ _ HW) as HI.
  destruct (inv_tcache_pop Min s B o HI Ho) as [[_ E]|(i & s1 & E & Hi & HI1 & HQ1)]; [done|].
  cbn [tcache_flush_loop]. destruct (Z.eqb_spec (rd (tcache s) o) 0); [done|].
  unfold tcache_pop in E. rewrite (cached_link_valid Min HI o Ho Hne) in E.
  destruct (Z.leb_spec (rd (tcache_count s) o) 0) as [Hz|Hpos].
  { injection E as E _. symmetry in E. by apply (at_pos Min HI _ _ _ Hi) in E. }
  injection E as E1 E2. rewrite E1 in E2. rewrite E1, E2.
  set (B1 := <[i := (o, BHole)]> B) in *.
  assert (Eb : base s1 = base s) by (by rewrite <- E2).
  destruct (merge_and_free_spec Min s1 B1 i o HI1) as (B' & HI' & Hh' & HB' & HQ' & Hc').
  - apply lookup_insert_eq.
  - apply no_holes_open. apply HW.
  - rewrite (q_mo _ _ _ _ HQ1). apply coalesced_insert; [done|]. apply HW.
  - assert (HL : forall j oj k, busy k = true -> j <> i -> B' !! j = Some (oj, k) <-> B !! j = Some (oj, k)).
    { intros j oj k Hk Hji. rewrite <- (HB' j oj k Hk). subst B1. by rewrite lookup_insert_ne. }
    assert (Hbi : forall oj k, busy k = true -> B' !! i <> Some (oj, k)).
    { intros oj k Hk Hb. apply HB' in Hb; [|done]. subst B1. rewrite lookup_insert_eq in Hb.
      by simplify_eq. }
    assert (HLL : forall j oj k, live k = true -> B' !! j = Some (oj, k) <-> B !! j = Some (oj, k)).
    { intros j oj k Hk. destruct (Z.eq_dec j i) as [->|]; [|apply HL; [by apply live_busy|done]].
      split; intros Hx; [by apply Hbi in Hx; [|apply live_busy]|].
      rewrite Hi in Hx. by simplify_eq. }
    rewrite Eb in *. set (s' := __merge_and_free Min s1 (at_ (base s) i) o) in *.
    assert (HQ : quiet B1 s s').
    { eapply quiet_trans; [reflexivity| |exact HQ']. destruct HQ1. split; try done.
      intros j oj k a Hj Hk. apply (q_mem j oj k); [|done]. subst B1.
      destruct (Z.eq_dec i j) as [<-|]; [|by rewrite lookup_insert_ne in Hj].
      rewrite lookup_insert_eq in Hj. by simplify_eq. }
    exists s', B'. split; [done|]. split; [split|].
    + eapply wf_quiet; try done. by rewrite <- (q_mo _ _ _ _ HQ1).
    + done.
    + intros j oj Hj. destruct (Z.eq_dec j i) as [->|Hji]; [by apply Hbi in Hj|].
      by apply HL in Hj.
    + apply (q_base _ _ _ _ HQ).
    + apply (q_total _ _ _ _ HQ).
    + apply (q_mo _ _ _ _ HQ).
    + intros j oj k a Hj Hk Ha. apply (q_mem _ _ _ _ HQ j oj k); [|by apply live_busy|done].
      subst B1. rewrite lookup_insert_ne; [done|]. intros <-. rewrite Hi in Hj. by simplify_eq.
    + destruct (i_tc _ _ _ HI1 o) as [HS1 _]; [by rewrite (q_mo _ _ _ _ HQ1)|].
      destruct (i_tc _ _ _ HI' o) as [HS' _]; [by rewrite (q_mo _ _ _ _ HQ)|].
      rewrite <- (slist_count _ _ _ _ _ _ _ _ HS1 HS').
      * rewrite <- E2. cbn. by rewrite rd_wr_eq.
      * intros a. rewrite Eb, (q_base _ _ _ _ HQ).
        split; intros (j & -> & Hj); exists j; (split; [done|]); by apply HB'.
Qed.

Lemma flush_loop_spec f : forall s B o,
  wf s B -> 0 <= o < max_order s -> rd (tcache_count s) o < Z.of_nat f ->
  exists B', flushed s B (tcache_flush_loop Min f s o) B' /\
    (forall j, B' !! j <> Some (o, BCached)).
Proof.
  induction f as [|f IH]; intros s B o HW Ho Hf; pose proof (w_inv _ _ _ HW) as HI;
    destruct (i_tc _ _ _ HI o Ho) as [HS Hcap]; pose proof (slist_nonneg _ _ _ _ HS); [lia|].
  destruct (Z.eq_dec (rd (tcache s) o) 0) as [Hz|Hnz].
  - exists B. cbn [tcache_flush_loop]. rewrite Hz. cbn. split; [by apply flushed_refl|].
    intros j Hj. destruct HS as (l & Hc & _ & _ & HP). rewrite Hz in Hc.
    apply chain_nil in Hc as ->. assert (at_ (base s) j ∈ @nil Z) as Hin by (apply HP; by exists j).
    set_solver.
  - destruct (flush_round s B o f HW Ho Hnz) as (s1 & B1 & -> & HF & Hcnt).
    destruct (IH s1 B1 o) as (B' & HF' & Hnone).
    + apply HF.
    + by rewrite (fl_mo _ _ _ _ HF).
    + lia.
    + exists B'. split; [by eapply flushed_trans|done].
Qed.

Lemma tcache_flush_spec s B o :
  wf s B -> 0 <= o < max_order s ->
  exists B', flushed s B (tcache_flush Min s o) B' /\ (forall j, B' !! j <> Some (o, BCached)).
Proof.
  intros HW Ho. apply flush_loop_spec; [done|done|].
  pose proof (proj2 (i_tc _ _ _ (w_inv _ _ _ HW) o Ho)). unfold __cache_cap in *. lia.
Qed.

Lemma tcache_flush_orders n : forall s B i,
  wf s B -> 0 <= i -> i + Z.of_nat n <= max_order s ->
  exists B', flushed s B (for_orders (tcache_flush Min) n s i) B' /\
    (forall j o, i <= o < i + Z.of_nat n -> B' !! j <> Some (o, BCached)).
Proof.
  induction n as [|n IH]; intros s B i HW Hi Hn; cbn [for_orders].
  { exists B. split; [by apply flushed_refl|]. intros; lia. }
  destruct (tcache_flush_spec s B i HW ltac:(lia)) as (B1 & HF1 & Hn1).
  destruct (IH (tcache_flush Min s i) B1 (i + 1)) as (B' & HF' & Hn').
  - apply HF1.
  - lia.
  - rewrite (fl_mo _ _ _ _ HF1). lia.
  - exists B'. split; [by eapply flushed_trans|]. intros j o Ho.
    destruct (Z.eq_dec o i) as [->|]; [|apply Hn'; lia].
    intros Hj. apply (fl_cached _ _ _ _ HF') in Hj. by apply Hn1 in Hj.
Qed.

Lemma tcache_flush_all_spec s B :
  wf s B ->
  exists B', flushed s B (tcache_flush_all Min s) B' /\
    (forall j o, B' !! j <> Some (o, BCached)).
Proof.
  intros HW. pose proof (g_mo _ _ (i_geo _ _ _ (w_inv _ _ _ HW))).
  destruct (tcache_flush_orders (Z.to_nat (max_order s)) s B 0 HW) as (B' & HF & Hn); [lia|lia|].
  exists B'. split; [done|]. intros j o Hj.
  destruct (blk_range Min (w_inv _ _ _ (fl_wf _ _ _ _ HF)) _ _ _ Hj) as (_ & Ho & _).
  rewrite (fl_mo _ _ _ _ HF) in Ho. apply (Hn j o); [lia|done].
Qed.

End Reach.
