(* ===== verification/BuddyInit.v ===== *)
(** * The buddy list: initialisation of a region *)

From S2P Require Import Prelude.
From S2P Require Import Intrusive.
From S2P Require Import Config.
From S2P Require Import Tiling.
From S2P Require Import Buddy.
From S2P Require Import BuddyInv.
From S2P Require Import BuddyOps.
From S2P Require Import BuddyWf.
From S2P Require Import BuddyFree.

Section Init.
Context (Min : Z) {HM : BuddyMin Min}.

Local Abbreviation at_ := (at_ Min).
Local Abbreviation wf := (wf Min).

Lemma clzll_units k : 0 < k < 2 ^ 58 -> 63 - clzll k + 1 = Z.log2 k + 1.
Proof. intros. rewrite clzll_pos by lia. lia. Qed.

(** The fields [init_region] leaves, over [k] blocks at [b] *)
Lemma init_region_fields s b k tags_at ext :
  0 < k < 2 ^ 58 -> 0 < b ->
  let s' := init_region Min s b (k * Min) tags_at ext in
  let mo := Z.log2 k + 1 in
  base s' = b /\ total s' = k * Min /\ max_order s' = mo /\ tag_count s' = k /\
  allocated_bytes s' = allocated_bytes s /\ tombstoned_bytes s' = tombstoned_bytes s /\
  mem s' = wr (mem s) (b + 0) 0 /\ free_lists s' = wr ∅ (mo - 1) b /\
  free_mask s' = bit_set 0 (mo - 1) /\ tcache s' = ∅ /\ tcache_count s' = ∅ /\
  cold_cache s' = ∅ /\ cold_count s' = ∅ /\ active s' = ∅ /\ active_rotor s' = ∅ /\
  tags_external s' = ext /\ block_tags_at s' = tags_at /\
  block_tags s' = wr (fill (block_tags s) 0 (Z.to_nat k) __tag_none) 0 (mo - 1 + __tag_free).
Proof.
  intros Hk Hb s' mo. pose proof (Min_range Min).
  assert (Hlg : 0 <= Z.log2 k < 58) by (split; [apply Z.log2_nonneg|apply Z.log2_lt_pow2; lia]).
  subst s'. unfold init_region. rewrite (shiftr_min Min), clzll_units by done.
  fold mo. unfold Mx. destruct (Z.ltb_spec 64 mo); [lia|].
  unfold __impl_zero_arrays, mask_set, set_next, tag_set_free. cbn.
  assert (Eix : forall s1, base s1 = b -> tag_index Min s1 b = 0).
  { intros s1 E. unfold tag_index, tag_index_of. rewrite E, Z.sub_diag.
    rewrite <- (Z.mul_0_l Min). rewrite u64_small by lia. apply (shiftr_min Min). }
  rewrite Eix by done. rewrite u8_tag by lia. by repeat split.
Qed.

Lemma init_region_wf s b k tags_at ext :
  0 < b -> 0 < k -> b + k * Min < 2 ^ 64 ->
  allocated_bytes s = 0 -> tombstoned_bytes s = 0 ->
  let s' := init_region Min s b (k * Min) tags_at ext in
  base s' = b /\ total s' = k * Min /\ max_order s' = Z.log2 k + 1 /\
  wf s' {[0 := (Z.log2 k, BFree)]}.
Proof.
  intros Hb Hk Hend Ha Ht s'. pose proof (Min_range Min).
  assert (Hk' : 0 < k < 2 ^ 58) by nia.
  assert (Hlg : 0 <= Z.log2 k < 58) by (split; [apply Z.log2_nonneg|apply Z.log2_lt_pow2; lia]).
  destruct (init_region_fields s b k tags_at ext Hk' Hb) as
    (Eb & Et & Em & Ec & Ea & Etb & Emm & Efl & Emk & Etc & Etn & Ecc & Ecn & Eac & Er & _ & _ & Etg).
  fold s' in Eb, Et, Em, Ec, Ea, Etb, Emm, Efl, Emk, Etc, Etn, Ecc, Ecn, Eac, Er, Etg.
  clearbody s'. set (lk := Z.log2 k) in *. replace (lk + 1 - 1) with lk in * by lia.
  split; [done|]. split; [done|]. split; [done|].
  assert (Hno : forall o kk a, kk <> BFree ->
    ~ is_at Min (base s') {[0 := (lk, BFree)]} o kk a).
  { intros o kk a Hkk (i & _ & Hi). apply lookup_singleton_Some in Hi as [_ ?]. congruence. }
  split; [split| | | | |].
  - split; rewrite ?Eb, ?Et, ?Em, ?Ec; try done; try lia.
    replace (lk + 1 - 1) with lk by lia. apply Z.log2_spec. lia.
  - rewrite Em. replace lk with (lk + 1 - 1) at 2 by lia. apply tiling_single. lia.
  - intros i Hi. rewrite Ec in Hi. rewrite Etg, rd_wr, rd_fill.
    destruct (Z.eqb_spec 0 i) as [<-|].
    + rewrite lookup_singleton_eq. done.
    + rewrite lookup_singleton_ne by done. cbn. by repeat case_b.
  - intros o Ho. rewrite Em in Ho. rewrite Efl, rd_wr, Eb. destruct (Z.eqb_spec lk o) as [<-|].
    + exists [b]. unfold chain. cbn. rewrite Emm, rd_wr_eq. split_and!; try done; try lia.
      * apply NoDup_singleton.
      * intros a. rewrite list_elem_of_singleton. unfold is_at, BuddyInv.at_. split.
        -- intros ->. exists 0. split; [lia|]. apply lookup_singleton_eq.
        -- intros (i & -> & [<- _]%lookup_singleton_Some). lia.
    + apply flist_null. intros a (i & _ & Hi). apply lookup_singleton_Some in Hi as [_ ?]. congruence.
  - intros o Ho. rewrite Etc, Etn, !rd_empty. split; [|done]. apply slist_null. intros a. by apply Hno.
  - rewrite Emk. apply bit_set_range; lia.
  - intros o Ho. rewrite Emk, Em, Efl, rd_wr, testbit_bit_set, Z.bits_0, rd_empty by lia.
    repeat case_b; done.
  - intros i o kk f [_ [= <- <-]]%lookup_singleton_Some. done.
  - intros o. by rewrite Ecc, Ecn.
  - intros j o [_ ?]%lookup_singleton_Some. congruence.
  - intros i o [<- [= <-]]%lookup_singleton_Some Ho. rewrite Em in Ho. lia.
  - rewrite Ea, Ha. unfold wsum, msum. rewrite map_fold_singleton. cbn. lia.
  - rewrite Etb, Ht. unfold wsum, msum. rewrite map_fold_singleton. cbn. lia.
  - split; rewrite ?Eac, ?Er; intros; rewrite rd_empty; auto.
Qed.

(** Where the constructor puts the tag array and the data: the data region
    lies inside the chunk, is a multiple of [Min] bytes long, and an internal
    tag array has a byte per block and ends where the data starts. *)
Record placed (s : buddy) (p l ext : Z) : Prop := {
  pl_in : p <= base s /\ base s + total s <= p + l;
  pl_units : total s = tag_count s * Min;
  pl_tags : if ext =? 0 then p <= block_tags_at s /\ block_tags_at s + tag_count s <= base s
            else block_tags_at s = ext
}.

Lemma tag_area_enough usable d :
  0 <= usable -> 0 <= d -> (usable + Min) / (Min + 1) <= d -> (usable - d) / Min <= d.
Proof.
  intros Hu Hd H. pose proof (Min_range Min).
  pose proof (Z.div_mod (usable + Min) (Min + 1) ltac:(lia)).
  pose proof (Z.mod_pos_bound (usable + Min) (Min + 1) ltac:(lia)).
  pose proof (Z.div_mod (usable - d) Min ltac:(lia)).
  pose proof (Z.mod_pos_bound (usable - d) Min ltac:(lia)). nia.
Qed.

Lemma init_memory_spec s p l ext :
  0 < p -> 0 <= l -> p + l + Min < 2 ^ 64 ->
  allocated_bytes s = 0 -> tombstoned_bytes s = 0 ->
  let s' := __impl_init_memory Min s p l ext in
  base s' = 0 \/
  (wf s' {[0 := (max_order s' - 1, BFree)]} /\ placed s' p l ext /\
   max_order s' = Z.log2 (tag_count s') + 1).
Proof.
  intros Hp Hl Hend Ha Ht s'. pose proof (Min_range Min) as HMr. pose proof (lg_range (Min := Min)).
  destruct (align_up_bounds p 3 ltac:(lia) ltac:(lia) ltac:(lia)) as [Hal _].
  change (2 ^ 3) with 8 in Hal. subst s'. unfold __impl_init_memory.
  set (r := align_up p 8) in *. clearbody r.
  destruct (Z.leb_spec l (r - p)); [by left|].
  set (usable := l - (r - p)). assert (Hus : 0 < usable) by lia.
  assert (Hgo : forall b n at_ e, 0 < b -> r <= b -> Min <= n / Min * Min ->
    b + n <= r + usable -> 0 <= n ->
    let s' := init_region Min s b (n / Min * Min) at_ e in
    wf s' {[0 := (max_order s' - 1, BFree)]} /\ base s' = b /\ total s' = tag_count s' * Min /\
    tag_count s' = n / Min /\ p <= b /\ b + total s' <= p + l /\
    max_order s' = Z.log2 (tag_count s') + 1 /\ block_tags_at s' = at_).
  { intros b n at_ e Hb Hr Hn Hbn Hn0.
    assert (Hk : 0 < n / Min) by nia.
    pose proof (Z.mul_div_le n Min ltac:(lia)).
    assert (Hk' : 0 < n / Min < 2 ^ 58) by nia.
    pose proof (init_region_fields s b (n / Min) at_ e Hk' Hb)
      as (Eb & Et & Em & Ec & _ & _ & _ & _ & _ & _ & _ & _ & _ & _ & _ & _ & Eat & _).
    destruct (init_region_wf s b (n / Min) at_ e Hb Hk ltac:(lia) Ha Ht) as (_ & _ & _ & HW).
    cbn zeta. rewrite Em, Et, Ec, Eb, Eat. replace (Z.log2 (n / Min) + 1 - 1) with (Z.log2 (n / Min)) by lia.
    split_and!; try done; lia. }
  destruct (Z.eqb_spec ext 0) as [->|He]; cbn [negb].
  - rewrite (u64_small (usable + Min)) by lia.
    set (ap := (usable + Min) / (Min + 1)).
    assert (Hap : 0 <= ap <= usable).
    { subst ap. split; [apply Z.div_pos; lia|]. apply Z.div_le_upper_bound; nia. }
    assert (Hta : ap <= align_up ap Min < ap + Min).
    { rewrite (Min_eq (Min := Min)) in HMr, Hend |- *.
      refine (proj1 (align_up_bounds ap (lg Min) _ _ _)); lia. }
    set (ta := align_up ap Min) in *. clearbody ta.
    destruct (Z.leb_spec usable ta); [by left|].
    destruct (Z.ltb_spec ((usable - ta) / Min * Min) Min); [by left|]. right.
    destruct (Hgo (r + ta) (usable - ta) r false) as (HW & Eb & Et & Ec & ? & ? & ? & Eat);
      [lia..|]. set (s' := init_region _ _ _ _ _ _) in *. clearbody s'.
    split; [done|]. split; [|done]. split; rewrite ?Eb; try done.
    cbn. rewrite Eat, Ec. pose proof (tag_area_enough usable ta ltac:(lia) ltac:(lia) ltac:(lia)). lia.
  - destruct (Z.ltb_spec (usable / Min * Min) Min); [by left|]. right.
    destruct (Hgo r usable ext true) as (HW & Eb & Et & Ec & ? & ? & ? & Eat); [lia..|].
    set (s' := init_region _ _ _ _ _ _) in *. clearbody s'. split; [done|]. split; [|done]. split; rewrite ?Eb; try done.
    by destruct (Z.eqb_spec ext 0).
Qed.

End Init.
