(* ===== verification/BuddySpec.v ===== *)
(** * The buddy list: what its clients may rely on

    The operations seen from outside: the reachable states of a region driven
    by a client that keeps to its own blocks, and the properties of every
    operation in such a state, in terms of addresses and of the observers
    [is_allocated] and [block_size]. *)

From S2P Require Import Prelude.
From S2P Require Import Intrusive.
From S2P Require Import Config.
From S2P Require Import Tiling.
From S2P Require Import Buddy.
From S2P Require Import BuddyInv.
From S2P Require Import BuddyOps.
From S2P Require Import BuddyWf.
From S2P Require Import BuddyFree.
From S2P Require Import BuddyReach.
From S2P Require Import BuddyInit.

Section Spec.
Context (Min : Z) {HM : BuddyMin Min}.

Local Abbreviation at_ := (at_ Min).
Local Abbreviation inv := (inv Min).
Local Abbreviation wf := (wf Min).
Local Abbreviation others := (others Min).

(** ** Steps of a client

    Releasing a tombstoned block and tombstoning a temporal block are left
    out: see [tombstone_then_deallocate] and [tombstone_of_temporal] below. *)
Inductive bstep (s : buddy) : buddy -> Prop :=
  | st_allocate n : 0 <= n < 2 ^ 64 -> bstep s (allocate Min s n).2
  | st_temporal n : 0 <= n < 2 ^ 64 -> bstep s (temporal_allocate Min s n).2
  | st_exact n : 0 <= n < 2 ^ 64 -> bstep s (allocate_exact Min s n).2
  | st_deallocate p : (is_allocated Min s p = true -> is_tombstoned Min s p = false) ->
      bstep s (deallocate Min s p).2
  | st_tombstone p : (is_allocated Min s p = true -> is_temporal Min s p = false) ->
      bstep s (tombstone Min s p).2
  | st_flush : bstep s (tcache_flush_all Min s)
  | st_write p a v : is_allocated Min s p = true ->
      p <= a < p + block_size Min s p - __hdr_offset -> bstep s (set_mem s (wr (mem s) a v)).

Definition reaches (s s' : buddy) : Prop := rtc bstep s s'.

(** A region fresh from its constructor, then used *)
Definition reachable (s : buddy) : Prop :=
  exists s0 p l ext,
    0 < p /\ 0 <= l /\ p + l + Min < 2 ^ 64 /\ allocated_bytes s0 = 0 /\ tombstoned_bytes s0 = 0 /\
    base (__impl_init_memory Min s0 p l ext) <> 0 /\
    reaches (__impl_init_memory Min s0 p l ext) s.

(** ** Observers on live blocks *)

Lemma block_size_live s B i o k :
  inv s B -> B !! i = Some (o, k) -> live k = true ->
  block_size Min s (at_ (base s) i) = Min * 2 ^ o.
Proof.
  intros HI Hi Hk. destruct (blk_range Min HI _ _ _ Hi) as (? & Ho & _ & ? & ?).
  destruct (at_bounds Min HI i ltac:(lia)) as (Hpos & Hlo & Hup). pose proof (Min_range Min).
  pose proof (g_base _ _ (i_geo _ _ _ HI)). pose proof (geo_units Min HI) as (_ & _ & Hmo & _).
  unfold block_size. rewrite (u64_at Min HI), (land_min Min), (tag_index_at Min HI) by lia.
  rewrite (live_tag Min s B i o k HI Hi Hk), ldiff_tag by lia.
  rewrite (order_size_eq Min HI) by lia.
  destruct (Z.eqb_spec (base s) 0); [lia|]. destruct (Z.eqb_spec (at_ (base s) i) 0); [lia|].
  destruct (Z.ltb_spec (at_ (base s) i) (base s)); [lia|].
  destruct (Z.leb_spec (base s + total s) (at_ (base s) i)); [lia|].
  destruct (Z.leb_spec (max_order s) o); [lia|done].
Qed.

Lemma flags_live s B i o k :
  inv s B -> B !! i = Some (o, k) -> live k = true ->
  is_tombstoned Min s (at_ (base s) i) = is_tomb k /\
  is_temporal Min s (at_ (base s) i) = bool_decide (k = BAlloc true).
Proof.
  intros HI Hi Hk. destruct (live_header Min s B i o k HI Hi Hk) as (Eh & f & Ef & _ & Efl).
  unfold is_tombstoned, is_temporal. rewrite Eh, Efl.
  destruct k as [|[]| | |]; try done; injection Ef as <-; done.
Qed.

Lemma deallocate_bad s B p :
  inv s B -> no_holes B -> is_allocated Min s p = false -> deallocate Min s p = (__flag_invalid, s).
Proof. intros HI Hh E. unfold deallocate. by rewrite E. Qed.

Lemma tombstone_bad s p : is_allocated Min s p = false -> tombstone Min s p = (__flag_invalid, s).
Proof. intros E. unfold tombstone. by rewrite E. Qed.

Lemma allocated_block s B p :
  wf s B -> is_allocated Min s p = true ->
  exists i o k, p = at_ (base s) i /\ B !! i = Some (o, k) /\ live k = true /\
    block_size Min s p = Min * 2 ^ o.
Proof.
  intros HW Hp. apply (is_allocated_iff Min s B p (w_inv _ _ _ HW) (w_holes _ _ _ HW)) in Hp
    as (i & o & k & -> & Hi & Hk).
  exists i, o, k. split_and!; try done. by apply (block_size_live s B i o k (w_inv _ _ _ HW)).
Qed.

(** Every step of the client keeps the region well formed. *)
Lemma bstep_wf s s' B : wf s B -> bstep s s' -> exists B', wf s' B'.
Proof.
  intros HW Hst. destruct Hst as [n Hn|n Hn|n Hn|p Hp|p Hp| |p a v Hp Ha].
  - destruct (allocate_spec Min s B n HW Hn) as [(i & o & c & s' & B' & -> & HS)|[-> _]]; [|by eauto].
    exists B'. apply HS.
  - destruct (temporal_allocate_spec Min s B n HW Hn)
      as [(i & s' & -> & _ & HW' & _)|[(i & c & s' & B' & -> & HS & _)|[-> _]]]; [by eauto| |by eauto].
    exists B'. apply HS.
  - destruct (allocate_exact_spec Min s B n HW Hn) as [->|(i & o & s' & B' & -> & HW' & _)]; by eauto.
  - destruct (is_allocated Min s p) eqn:E.
    + destruct (allocated_block s B p HW E) as (i & o & k & -> & Hi & Hk & _).
      destruct (flags_live s B i o k (w_inv _ _ _ HW) Hi Hk) as [Ht _].
      rewrite (Hp eq_refl) in Ht. destruct k as [|t| | |]; try done.
      destruct (deallocate_wf Min s B i o t HW Hi) as (s' & B' & -> & HW' & _). by eauto.
    + rewrite (deallocate_bad s B) by (done || apply HW). by eauto.
  - destruct (is_allocated Min s p) eqn:E.
    + destruct (allocated_block s B p HW E) as (i & o & k & -> & Hi & Hk & _).
      destruct (flags_live s B i o k (w_inv _ _ _ HW) Hi Hk) as [_ Ht].
      rewrite (Hp eq_refl) in Ht. destruct k as [|[]| | |]; try done.
      * destruct (tombstone_spec Min s B i o HW Hi) as (s' & -> & HW' & _). by eauto.
      * rewrite (tombstone_again Min s B i o HW Hi). by eauto.
    + rewrite tombstone_bad by done. by eauto.
  - destruct (tcache_flush_all_spec Min s B HW) as (B' & HF & _). exists B'. apply HF.
  - destruct (allocated_block s B p HW Hp) as (i & o & k & -> & Hi & Hk & Eb).
    rewrite Eb in Ha. exists B. by apply (client_write_wf Min s B i o k).
Qed.

Lemma reaches_wf s s' B : wf s B -> reaches s s' -> exists B', wf s' B'.
Proof.
  intros HW Hr. revert B HW. induction Hr as [s|s1 s2 s3 Hst _ IH]; intros B HW; [by eauto|].
  destruct (bstep_wf _ _ _ HW Hst) as [B' HW']. by eapply IH.
Qed.

Lemma reachable_wf s : reachable s -> exists B, wf s B.
Proof.
  intros (s0 & p & l & ext & Hp & Hl & Hend & Ha & Ht & Hb & Hr).
  destruct (init_memory_spec Min s0 p l ext Hp Hl Hend Ha Ht) as [|(HW & _)]; [done|].
  by apply (reaches_wf _ _ _ HW).
Qed.

Lemma reachable_step s s' : reachable s -> bstep s s' -> reachable s'.
Proof.
  intros (s0 & p & l & ext & Hp & Hl & Hend & Ha & Ht & Hb & Hr) Hst.
  exists s0, p, l, ext. split_and!; try done. eapply rtc_r; done.
Qed.

(** Live blocks do not overlap. *)
Lemma live_disjoint s B p q :
  wf s B -> is_allocated Min s p = true -> is_allocated Min s q = true -> p <> q ->
  p + block_size Min s p <= q \/ q + block_size Min s q <= p.
Proof.
  intros HW Hp Hq Hne.
  destruct (allocated_block s B p HW Hp) as (i & o & k & -> & Hi & _ & ->).
  destruct (allocated_block s B q HW Hq) as (j & oj & kj & -> & Hj & _ & ->).
  pose proof (Min_range Min). unfold BuddyInv.at_ in *.
  destruct (tl_disj _ _ (i_til _ _ _ (w_inv _ _ _ HW)) _ _ _ _ _ _ Hi Hj); [congruence|left|right]; nia.
Qed.

Lemma live_in_region s B p :
  wf s B -> is_allocated Min s p = true ->
  base s <= p /\ p + block_size Min s p <= base s + total s /\ (Min | p - base s).
Proof.
  intros HW Hp. destruct (allocated_block s B p HW Hp) as (i & o & k & -> & Hi & _ & ->).
  destruct (blk_range Min (w_inv _ _ _ HW) _ _ _ Hi) as (? & _ & _ & ? & ?).
  destruct (i_geo _ _ _ (w_inv _ _ _ HW)) as [_ _ Ht _ _]. pose proof (Min_range Min).
  unfold BuddyInv.at_ in *. split_and!; [nia|nia|]. exists i. lia.
Qed.

(** What [served] means for addresses. *)
Definition fresh_block (s : buddy) (n : Z) (c : chunk) (s' : buddy) : Prop :=
  is_allocated Min s (ptr c) = false /\ is_allocated Min s' (ptr c) = true /\
  block_size Min s' (ptr c) = len c + __hdr_offset /\ n <= len c /\
  (forall q, is_allocated Min s q = true -> is_allocated Min s' q = true /\
     block_size Min s' q = block_size Min s q /\
     forall a, q <= a < q + block_size Min s q -> rd (mem s') a = rd (mem s) a) /\
  (forall q, is_allocated Min s' q = true -> q = ptr c \/ is_allocated Min s q = true).

Lemma others_kept s B s' B' i q :
  wf s B -> wf s' B' -> others B B' s s' i -> q <> at_ (base s) i -> is_allocated Min s q = true ->
  is_allocated Min s' q = true /\ block_size Min s' q = block_size Min s q /\
  forall a, q <= a < q + block_size Min s q -> rd (mem s') a = rd (mem s) a.
Proof.
  intros HW HW' HO Hne Hq. destruct (allocated_block s B q HW Hq) as (j & oj & kj & -> & Hj & Hkj & Eb).
  assert (Hji : j <> i) by congruence.
  assert (Hj' : B' !! j = Some (oj, kj)) by (by apply (o_live _ _ _ _ _ _ HO)).
  rewrite Eb. rewrite <- (o_base _ _ _ _ _ _ HO). split; [|split].
  - apply (is_allocated_iff Min s' B' _ (w_inv _ _ _ HW') (w_holes _ _ _ HW')). eauto 6.
  - by apply (block_size_live s' B' j oj kj (w_inv _ _ _ HW')).
  - intros a Ha. apply (o_mem _ _ _ _ _ _ HO j oj kj); try done.
    rewrite (o_base _ _ _ _ _ _ HO) in Ha. pose proof (Min_range Min).
    replace (at_ (base s) (j + 2 ^ oj)) with (at_ (base s) j + Min * 2 ^ oj); [done|].
    unfold BuddyInv.at_. ring.
Qed.

Lemma others_back s B s' B' i q :
  wf s B -> wf s' B' -> others B B' s s' i -> is_allocated Min s' q = true ->
  q = at_ (base s) i \/ is_allocated Min s q = true.
Proof.
  intros HW HW' HO Hq. destruct (allocated_block s' B' q HW' Hq) as (j & oj & kj & -> & Hj & Hkj & _).
  rewrite (o_base _ _ _ _ _ _ HO). destruct (Z.eq_dec j i) as [->|Hne]; [by left|]. right.
  apply (is_allocated_iff Min s B _ (w_inv _ _ _ HW) (w_holes _ _ _ HW)).
  exists j, oj, kj. split_and!; try done. by apply (o_live _ _ _ _ _ _ HO).
Qed.

Lemma served_fresh s B n t c s' B' i o :
  wf s B -> served Min s B n t c s' B' i o -> fresh_block s n c s'.
Proof.
  intros HW [HW' -> _ Hsz Hbl Hfr HO _]. cbn [ptr len] in *.
  assert (Hnl : is_allocated Min s (at_ (base s) i) = false).
  { destruct (is_allocated Min s (at_ (base s) i)) eqn:E; [|done].
    destruct (allocated_block s B _ HW E) as (j & oj & kj & Ej & Hj & Hkj & _).
    apply at_inj in Ej as <-; [|done]. by apply Hfr in Hj. }
  unfold fresh_block. cbn [ptr len]. rewrite <- (o_base _ _ _ _ _ _ HO). split_and!.
  - by rewrite (o_base _ _ _ _ _ _ HO).
  - apply (is_allocated_iff Min s' B' _ (w_inv _ _ _ HW') (w_holes _ _ _ HW')). eauto 6.
  - rewrite (block_size_live s' B' i o (BAlloc t) (w_inv _ _ _ HW')) by done. lia.
  - done.
  - intros q Hq. apply (others_kept s B s' B' i q); try done. intros ->. congruence.
  - intros q Hq. rewrite (o_base _ _ _ _ _ _ HO). by apply (others_back s B s' B' i q).
Qed.

(** No block of [n] bytes can be carved out of the free lists. *)
Definition no_room (s : buddy) (n : Z) : Prop :=
  forall o, 0 <= o < max_order s -> rd (free_lists s) o <> 0 -> Min * 2 ^ o < n.

Lemma exhausted_no_room s B n : inv s B -> exhausted Min B n -> no_room s n.
Proof.
  intros HI Hex o Ho Hne. destruct (free_head Min HI o Ho Hne) as (i & _ & Hi). by apply (Hex i).
Qed.

End Spec.
