(* ===== verification/BuddyProps.v ===== *)
(** * The buddy list: properties

    The theorems about src/src/free_list.hpp, for every reachable state of a
    region, with a concrete region for the witnesses. *)

From S2P Require Import Prelude.
From S2P Require Import Intrusive.
From S2P Require Import Config.
From S2P Require Import Tiling.
From S2P Require Import Buddy.
From S2P Require Import BuddyInv.
From S2P Require Import BuddyOps.
From S2P Require Import BuddyWf.
From S2P Require Import BuddyFree.
From S2P Require Import BuddyReach.
From S2P Require Import BuddyInit.
From S2P Require Import BuddySpec.

(** A region of 1 KiB blocks in a 64 KiB chunk at 4096, as the arena makes for
    its internal book. *)
Definition demo : buddy := __impl_init_memory 1024 (blank ∅ false) 4096 65536 0.

Lemma demo_reachable : reachable 1024 demo.
Proof.
  exists (blank ∅ false), 4096, 65536, 0. split_and!; try lia; try reflexivity.
  - intros E. by vm_compute in E.
  - apply rtc_refl.
Qed.

(** [demo] after two allocations, of which the first is at [demo_p]. *)
Definition demo1 : buddy := (allocate 1024 demo 1000).2.
Definition demo_p : Z := ptr (allocate 1024 demo 1000).1.
Definition demo2 : buddy := (allocate 1024 demo1 3000).2.
Definition demo_q : Z := ptr (allocate 1024 demo1 3000).1.

Lemma demo1_reachable : reachable 1024 demo1.
Proof. eapply reachable_step; [exact demo_reachable|]. apply st_allocate. lia. Qed.

Lemma demo2_reachable : reachable 1024 demo2.
Proof. eapply reachable_step; [exact demo1_reachable|]. apply st_allocate. lia. Qed.

Section Props.
Context (Min : Z) {HM : BuddyMin Min}.

Local Abbreviation at_ := (at_ Min).
Local Abbreviation reachable := (reachable Min).

Lemma served_used s B n t c s' B' i o :
  wf Min s B -> served Min s B n t c s' B' i o ->
  allocated_bytes s' = allocated_bytes s + Min * 2 ^ o.
Proof.
  intros HW [HW' _ _ _ Hbl Hfr HO _]. rewrite (w_alloc _ _ _ HW'), (w_alloc _ _ _ HW).
  rewrite (wsum_live_gone is_alloc B' B i o (BAlloc t) alloc_live Hbl); [cbn; lia| |].
  - intros j oj kj Hk Hne. symmetry. by apply (o_live _ _ _ _ _ _ HO).
  - intros oj kj Hk. by apply Hfr.
Qed.

(** The chosen size class is the least that holds the request. *)
Theorem order_for_size_least n :
  0 < n < 2 ^ 64 ->
  let o := order_for_size Min n in
  0 <= o /\ n <= Min * 2 ^ o /\ (o = 0 \/ Min * 2 ^ (o - 1) < n).
Proof.
  intros Hn o. destruct (order_for_size_spec Min n Hn) as (Ho & Hle & Hmin). fold o in Ho, Hle, Hmin.
  split_and!; try done. destruct (Z.eq_dec o 0) as [|Hne]; [by left|right].
  destruct (Z.lt_ge_cases (Min * 2 ^ (o - 1)) n) as [|Hge]; [done|].
  specialize (Hmin (o - 1) ltac:(lia) Hge). lia.
Qed.

(** A freshly constructed list is one free block over a data region inside the
    chunk, and its tag array neither leaves the chunk nor reaches the data. *)
Theorem constructor_places_region `{ChunkOps} m c s :
  0 < ptr c -> 0 <= len c -> ptr c + len c + Min < 2 ^ 64 ->
  __buddy_list Min m c = Some s -> base s <> 0 ->
  wf Min s {[0 := (max_order s - 1, BFree)]} /\ placed Min s (ptr c) (len c) 0 /\
  2 ^ (max_order s - 1) <= tag_count s < 2 ^ max_order s.
Proof.
  intros Hp Hl Hend E Hb. unfold __buddy_list in E. destruct (_ || _); [done|].
  injection E as <-.
  destruct (init_memory_spec Min (__impl_zero_arrays (blank m false)) (ptr c) (len c) 0)
    as [|(HW & HP & Hmo)]; try done.
  split; [done|]. split; [done|]. rewrite Hmo.
  destruct (geo_units Min (w_inv _ _ _ HW)) as (Htc & _).
  set (tc := tag_count _) in *. pose proof (Z.log2_spec tc Htc) as Hlog.
  rewrite <- Z.add_1_r in Hlog. by replace (Z.log2 tc + 1 - 1) with (Z.log2 tc) by lia.
Qed.

(** C11. Every state a client can reach satisfies the representation invariant. *)
Theorem reachable_well_formed s : reachable s -> exists B, wf Min s B.
Proof. exact (reachable_wf Min s). Qed.

(** C12. Two live blocks never overlap, and every live block is an aligned block of
    the region. *)
Theorem live_blocks_apart s p q :
  reachable s -> is_allocated Min s p = true -> is_allocated Min s q = true -> p <> q ->
  base s <= p /\ p + block_size Min s p <= base s + total s /\ (Min | p - base s) /\
  (p + block_size Min s p <= q \/ q + block_size Min s q <= p).
Proof.
  intros Hr Hp Hq Hne. destruct (reachable_wf Min s Hr) as [B HW].
  destruct (live_in_region Min s B p HW Hp) as (? & ? & ?).
  split_and!; try done. by apply (live_disjoint Min s B).
Qed.

(** C8. An allocation either returns a fresh block of the least sufficient order
    and leaves every live block and its contents alone, or returns the null
    chunk, changes nothing, and no free list holds a block large enough. *)
Theorem allocate_correct s n :
  reachable s -> 0 <= n < 2 ^ 64 ->
  let '(c, s') := allocate Min s n in
  (c = null_chunk /\ s' = s /\ no_room Min s (n + __hdr_offset)) \/
  (reachable s' /\ fresh_block Min s n c s' /\
   len c + __hdr_offset = Min * 2 ^ order_for_size Min (n + __hdr_offset) /\
   used s' = used s + len c + __hdr_offset).
Proof.
  intros Hr Hn. destruct (reachable_wf Min s Hr) as [B HW].
  pose proof (reachable_step Min s _ Hr (st_allocate Min s n Hn)) as Hr'.
  destruct (allocate_spec Min s B n HW Hn) as [(i & o & c & s' & B' & E & HS)|[E Hex]];
    rewrite E in *; cbn in Hr'.
  - right. split_and!; [done|by eapply served_fresh| |].
    + rewrite (sv_chunk _ _ _ _ _ _ _ _ _ _ HS), (sv_order _ _ _ _ _ _ _ _ _ _ HS). cbn. lia.
    + rewrite (sv_chunk _ _ _ _ _ _ _ _ _ _ HS). unfold used. cbn [len].
      rewrite (served_used s B n false c s' B' i o HW HS). lia.
  - left. split_and!; try done. eapply exhausted_no_room; [apply HW|done].
Qed.

(** C9. A block that was handed out and not tombstoned can be returned: every
    other live block is kept with its contents, and returning it a second time
    is refused without effect.  Any address that is not the start of a live
    block is refused in the same way. *)
Theorem deallocate_correct s p :
  reachable s ->
  (is_allocated Min s p = true -> is_tombstoned Min s p = false ->
   let '(r, s') := deallocate Min s p in
   r = __flag_ok /\ reachable s' /\ is_allocated Min s' p = false /\
   used s' = used s - block_size Min s p /\
   deallocate Min s' p = (__flag_invalid, s') /\
   forall q, q <> p -> is_allocated Min s q = true ->
     is_allocated Min s' q = true /\ block_size Min s' q = block_size Min s q /\
     forall a, q <= a < q + block_size Min s q -> rd (mem s') a = rd (mem s) a) /\
  (is_allocated Min s p = false -> deallocate Min s p = (__flag_invalid, s)).
Proof.
  intros Hr. destruct (reachable_wf Min s Hr) as [B HW]. pose proof (w_inv _ _ _ HW) as HI.
  split; [|by apply (deallocate_bad Min s B), HW].
  intros Hp Ht. pose proof (reachable_step Min s _ Hr (st_deallocate Min s p (fun _ => Ht))) as Hr'.
  destruct (allocated_block Min s B p HW Hp) as (i & o & k & -> & Hi & Hk & Eb).
  destruct (flags_live Min s B i o k HI Hi Hk) as [Ht' _]. rewrite Ht in Ht'.
  destruct k as [|t| | |]; try done.
  destruct (deallocate_wf Min s B i o t HW Hi) as (s' & B' & E & HW' & HO & Hgone & Ha).
  rewrite E in *. cbn in Hr'.
  assert (Hna : is_allocated Min s' (at_ (base s) i) = false).
  { destruct (is_allocated Min s' (at_ (base s) i)) eqn:Ea; [|done].
    destruct (allocated_block Min s' B' _ HW' Ea) as (j & oj & kj & Ej & Hj & Hkj & _).
    rewrite (o_base _ _ _ _ _ _ HO) in Ej. apply at_inj in Ej as <-; [|done].
    by apply Hgone in Hj. }
  split_and!; try done.
  - unfold used. lia.
  - by apply (deallocate_bad Min s' B'), Hna; apply HW'.
  - intros q Hne Hq. by apply (others_kept Min s B s' B' i q).
Qed.

(** C10. The cache cannot make returned memory unreachable: when no block is live,
    flushing the cache restores the single block of the largest order, and
    every request up to its size is served. *)
Theorem flush_restores_everything s :
  reachable s -> (forall p, is_allocated Min s p = false) ->
  let s' := tcache_flush_all Min s in
  reachable s' /\ free_mask s' = 2 ^ (max_order s - 1) /\
  rd (free_lists s') (max_order s - 1) = base s /\
  forall n, 0 <= n -> n + __hdr_offset <= Min * 2 ^ (max_order s - 1) ->
    n <= len (allocate Min s' n).1 /\ ptr (allocate Min s' n).1 = base s.
Proof.
  intros Hr Hnone s'. destruct (reachable_wf Min s Hr) as [B HW].
  destruct (tcache_flush_all_spec Min s B HW) as (B' & HF & Hnc). fold s' in HF.
  pose proof (fl_wf _ _ _ _ _ HF) as HW'. pose proof (w_inv _ _ _ HW') as HI'.
  assert (Hfree : forall i o k, B' !! i = Some (o, k) -> k = BFree).
  { intros i o k Hi. destruct (live k) eqn:Hk.
    - apply (fl_live _ _ _ _ _ HF) in Hi; [|done]. specialize (Hnone (at_ (base s) i)).
      assert (is_allocated Min s (at_ (base s) i) = true) as Ha; [|congruence].
      apply (is_allocated_iff Min s B _ (w_inv _ _ _ HW) (w_holes _ _ _ HW)). eauto 6.
    - destruct k; try done; [by apply Hnc in Hi|by apply (w_holes _ _ _ HW') in Hi]. }
  pose proof (all_free_single _ B' (i_til _ _ _ HI') (w_coal _ _ _ HW') Hfree) as EB.
  pose proof (fl_mo _ _ _ _ _ HF) as Emo. pose proof (fl_base _ _ _ _ _ HF) as Eb.
  pose proof (g_mo _ _ (i_geo _ _ _ HI')) as Hmo. rewrite Emo in Hmo, EB.
  set (mo := max_order s) in *.
  assert (Hhead : forall o, 0 <= o < mo -> rd (free_lists s') o = if o =? mo - 1 then base s else 0).
  { intros o Ho. pose proof (i_free _ _ _ HI' o ltac:(lia)) as HFo.
    destruct (Z.eq_dec (rd (free_lists s') o) 0) as [Hz|Hnz].
    - destruct (Z.eqb_spec o (mo - 1)) as [->|]; [|done]. exfalso.
      apply (flist_empty _ _ _ (at_ (base s') 0) HFo); [|done].
      exists 0. rewrite EB. split; [done|]. apply lookup_singleton_eq.
    - destruct (flist_head _ _ _ HFo Hnz) as (j & -> & Hj). rewrite EB in Hj.
      apply lookup_singleton_Some in Hj as [<- [= <-]]. rewrite Z.eqb_refl, Eb.
      unfold BuddyInv.at_. lia. }
  split_and!.
  - eapply reachable_step; [exact Hr|apply st_flush].
  - apply Z.bits_inj'. intros o Ho. rewrite (i_mask _ _ _ HI') by lia. rewrite Emo.
    fold mo. rewrite Z.pow2_bits_eqb by lia.
    pose proof (g_base _ _ (i_geo _ _ _ (w_inv _ _ _ HW))).
    destruct (Z.ltb_spec o mo); [|by case_b]. rewrite Hhead by lia. repeat case_b; done.
  - by rewrite Hhead, Z.eqb_refl by lia.
  - intros n Hn Hle.
    assert (Hn64 : 0 <= n < 2 ^ 64).
    { destruct (i_geo _ _ _ (w_inv _ _ _ HW)) as [? ? ? ? ?]. subst mo.
      pose proof (Min_range Min). unfold __hdr_offset in *. nia. }
    destruct (allocate_spec Min s' B' n HW' Hn64) as [(i & o & c & s'' & B'' & E & HS)|[_ Hex]].
    + rewrite E. cbn. split; [apply HS|].
      destruct (sv_from _ _ _ _ _ _ _ _ _ _ HS) as (from & k & Hi & _). rewrite EB in Hi.
      apply lookup_singleton_Some in Hi as [<- _].
      rewrite (sv_chunk _ _ _ _ _ _ _ _ _ _ HS). cbn. unfold BuddyInv.at_. lia.
    + specialize (Hex 0 (mo - 1)). rewrite EB, lookup_singleton_eq in Hex. specialize (Hex eq_refl). lia.
Qed.

(** A temporal request is answered with a block that is marked temporal: a
    fresh one, or the one its order already shares; and until that block is
    returned every further request of the same order gets the same block. *)
Theorem temporal_allocate_shares s n :
  reachable s -> 0 <= n < 2 ^ 64 ->
  let '(c, s') := temporal_allocate Min s n in
  (c = null_chunk /\ s' = s /\ no_room Min s (n + __hdr_offset)) \/
  (reachable s' /\ is_allocated Min s' (ptr c) = true /\ is_temporal Min s' (ptr c) = true /\
   n <= len c /\
   (fresh_block Min s n c s' \/
    (is_allocated Min s (ptr c) = true /\ is_temporal Min s (ptr c) = true /\ used s' = used s)) /\
   forall n', 0 <= n' < 2 ^ 64 - __hdr_offset ->
     order_for_size Min (n' + __hdr_offset) = order_for_size Min (n + __hdr_offset) ->
     (temporal_allocate Min s' n').1 = c).
Proof.
  intros Hr Hn. destruct (reachable_wf Min s Hr) as [B HW]. pose proof (w_inv _ _ _ HW) as HI.
  pose proof (reachable_step Min s _ Hr (st_temporal Min s n Hn)) as Hr'.
  set (o := order_for_size Min (n + __hdr_offset)) in *.
  assert (Hlast : forall s' B' i c, wf Min s' B' -> B' !! i = Some (o, BAlloc true) ->
    slot_holds s' o (at_ (base s') i) -> c = Chunk (at_ (base s') i) (Min * 2 ^ o - __hdr_offset) ->
    is_allocated Min s' (at_ (base s') i) = true /\ is_temporal Min s' (at_ (base s') i) = true /\
    forall n', 0 <= n' < 2 ^ 64 - __hdr_offset -> order_for_size Min (n' + __hdr_offset) = o ->
      (temporal_allocate Min s' n').1 = c).
  { intros s' B' i c HW' Hi Hs ->. pose proof (w_inv _ _ _ HW') as HI'.
    destruct (blk_range Min HI' _ _ _ Hi) as (_ & Ho & _).
    split_and!.
    - apply (is_allocated_iff Min s' B' _ HI' (w_holes _ _ _ HW')). eauto 6.
    - by rewrite (proj2 (flags_live Min s' B' i o (BAlloc true) HI' Hi eq_refl)).
    - intros n' Hn' Eo. rewrite (temporal_allocate_held Min s' B' n' i HW' Hn'); rewrite ?Eo; try done.
      + lia.
      + by apply (at_pos Min HI' _ _ _ Hi). }
  destruct (temporal_allocate_spec Min s B n HW Hn)
    as [(i & s' & E & Hi & HW' & Hsz & HO & Hs)|[(i & c & s' & B' & E & HS & Hs)|[E Hex]]];
    rewrite E in *; cbn in Hr'.
  - right. fold o in Hs, Hi, Hsz. rewrite <- (o_base _ _ _ _ _ _ HO) in Hs.
    destruct (Hlast s' B i _ HW' Hi Hs eq_refl) as (H1 & H2 & H3).
    rewrite (o_base _ _ _ _ _ _ HO) in H1, H2, H3. cbn [ptr len]. split_and!; try done.
    right. split_and!.
    + apply (is_allocated_iff Min s B _ HI (w_holes _ _ _ HW)). eauto 6.
    + by rewrite (proj2 (flags_live Min s B i o (BAlloc true) HI Hi eq_refl)).
    + unfold used. by rewrite (w_alloc _ _ _ HW), (w_alloc _ _ _ HW').
  - right. pose proof HS as [HW' Ec _ Hsz Hbl _ HO _]. fold o in Ec, Hbl, Hs.
    rewrite <- (o_base _ _ _ _ _ _ HO) in Hs, Ec.
    destruct (Hlast s' B' i c HW' Hbl Hs Ec) as (H1 & H2 & H3).
    split_and!; try done; try (by rewrite Ec). left. by eapply served_fresh.
  - left. split_and!; try done. eapply exhausted_no_room; [apply HW|done].
Qed.

(** Tombstoning a block that is not temporal moves its bytes from the used to
    the tombstoned count, keeps the block out of circulation, and works once. *)
Theorem tombstone_correct s p :
  reachable s -> is_allocated Min s p = true -> is_tombstoned Min s p = false ->
  is_temporal Min s p = false ->
  let '(r, s') := tombstone Min s p in
  r = __flag_tombstoned /\ reachable s' /\ is_allocated Min s' p = true /\
  is_tombstoned Min s' p = true /\ block_size Min s' p = block_size Min s p /\
  used s' = used s - block_size Min s p /\ tombstoned s' = tombstoned s + block_size Min s p /\
  tombstone Min s' p = (__flag_invalid, s').
Proof.
  intros Hr Hp Ht Htm. destruct (reachable_wf Min s Hr) as [B HW]. pose proof (w_inv _ _ _ HW) as HI.
  pose proof (reachable_step Min s _ Hr (st_tombstone Min s p (fun _ => Htm))) as Hr'.
  destruct (allocated_block Min s B p HW Hp) as (i & o & k & -> & Hi & Hk & Eb).
  destruct (flags_live Min s B i o k HI Hi Hk) as [Ht' Htm']. rewrite Ht in Ht'. rewrite Htm in Htm'.
  destruct k as [|[]| | |]; try done.
  destruct (tombstone_spec Min s B i o HW Hi) as (s' & E & HW' & Ha & Hb). rewrite E in *. cbn in Hr'.
  assert (Eb' : base s' = base s).
  { unfold tombstone in E. repeat (destruct (_ : bool) in E; [by simplify_eq|]). by simplify_eq. }
  assert (Hi' : <[i := (o, BTomb)]> B !! i = Some (o, BTomb)) by apply lookup_insert_eq.
  pose proof (w_inv _ _ _ HW') as HI'. rewrite Eb. rewrite <- Eb'.
  split_and!; try done.
  - apply (is_allocated_iff Min s' _ _ HI' (w_holes _ _ _ HW')). eauto 6.
  - by rewrite (proj1 (flags_live Min s' _ i o BTomb HI' Hi' eq_refl)).
  - by apply (block_size_live Min s' _ i o BTomb HI' Hi').
  - by apply (tombstone_again Min s' _ i o HW' Hi').
Qed.

(** What [used] answers once a tombstoned block has been returned: the bytes are
    taken off a second time. *)
Definition taken_twice (u n : Z) : Z := if u <? n then u - n + 2 ^ 64 else u - n.

Lemma u64_sub u n : 0 <= u < 2 ^ 64 -> 0 <= n < 2 ^ 64 -> u64 (u - n) = taken_twice u n.
Proof.
  intros Hu Hn. unfold taken_twice. destruct (Z.ltb_spec u n); [apply u64_wrapped|apply u64_small]; lia.
Qed.

(** The return of a tombstoned block is accepted *)
Lemma deallocate_tombstoned s p :
  reachable s -> is_allocated Min s p = true -> is_tombstoned Min s p = true ->
  let '(r, s') := deallocate Min s p in
  r = __flag_ok /\ is_allocated Min s' p = false /\ base s' = base s /\ total s' = total s /\
  tombstoned s' = tombstoned s - block_size Min s p /\
  used s' = taken_twice (used s) (block_size Min s p).
Proof.
  intros Hr Hp Ht. destruct (reachable_wf Min s Hr) as [B HW]. pose proof (w_inv _ _ _ HW) as HI.
  destruct (allocated_block Min s B p HW Hp) as (i & o & k & -> & Hi & Hk & ->).
  destruct (flags_live Min s B i o k HI Hi Hk) as [Ht' _]. rewrite Ht in Ht'.
  assert (k = BTomb) as -> by (by destruct k as [|[]| | |]).
  destruct (deallocate_live Min s B i o BTomb HI (w_holes _ _ _ HW) (w_coal _ _ _ HW) (w_ring _ _ _ HW) Hi eq_refl)
    as (s' & B' & -> & HI' & Hh' & _ & _ & HO & Hgone & Ha & Hb). cbn [is_tomb] in Hb.
  pose proof (bytes_range Min s B is_alloc HI) as Hal. pose proof (bytes_range Min s B is_tomb HI) as Htm.
  pose proof (wsum_live_gone is_tomb B B' i o BTomb tomb_live Hi (o_live _ _ _ _ _ _ HO) Hgone) as Et. cbn [is_tomb] in Et.
  pose proof (bytes_range Min s' B' is_tomb HI') as Hr'. rewrite Et in Hr'. pose proof (Min_range Min).
  destruct (blk_range Min HI _ _ _ Hi) as (_ & Ho & _). pose proof (Z.pow_pos_nonneg 2 o ltac:(lia) ltac:(lia)).
  unfold used, tombstoned. rewrite Ha, Hb, (w_alloc _ _ _ HW), (w_tomb _ _ _ HW).
  split_and!; [done| |apply HO|apply HO|apply u64_small; lia|apply u64_sub; nia].
  destruct (is_allocated Min s' (at_ (base s) i)) eqn:E; [|done]. exfalso. rewrite <- (o_base _ _ _ _ _ _ HO) in E.
  apply (is_allocated_iff Min s' B' _ HI' Hh') in E as (j & oj & kj & Ej & Hj & Hkj).
  apply (at_inj Min) in Ej as <-. by apply (Hgone oj kj Hkj).
Qed.

(** C14. Until a tombstoned block is returned the byte counters do not wrap: what is
    used and what is tombstoned fit together in the managed blocks, and
    [available] is the exact difference.  Returning a tombstoned block is
    accepted and takes its bytes off the used count a second time: the count is
    short by the block from then on, or, when less than the block was in use,
    wraps, and on a region below 2^63 bytes both it and [available] then exceed
    the size of the region. *)
Theorem byte_counts_exact s :
  reachable s ->
  0 <= used s /\ 0 <= tombstoned s /\
  used s + tombstoned s <= Min * 2 ^ (max_order s - 1) <= total s /\
  available s = total s - used s /\
  forall p, is_allocated Min s p = true -> is_tombstoned Min s p = true ->
    let '(r, s') := deallocate Min s p in
    r = __flag_ok /\ is_allocated Min s' p = false /\
    tombstoned s' = tombstoned s - block_size Min s p /\
    (block_size Min s p <= used s -> used s' = used s - block_size Min s p) /\
    (used s < block_size Min s p ->
     used s' = used s - block_size Min s p + 2 ^ 64 /\
     (total s < 2 ^ 63 -> total s' < used s' /\ total s' < available s')).
Proof.
  intros Hr. destruct (reachable_wf Min s Hr) as [B HW]. pose proof (w_inv _ _ _ HW) as HI.
  pose proof (Min_range Min) as HM0. destruct (i_geo _ _ _ HI) as [Hb He Ht Hmo Hc].
  unfold used, tombstoned, available. rewrite (w_alloc _ _ _ HW), (w_tomb _ _ _ HW).
  pose proof (wsum_bound is_alloc _ _ (i_til _ _ _ HI)).
  pose proof (wsum_bound is_tomb _ _ (i_til _ _ _ HI)).
  pose proof (wsum_disjoint is_alloc is_tomb _ _ (i_til _ _ _ HI) ltac:(by intros [])) as Hd.
  destruct (Z.eqb_spec (base s) 0); [lia|]. rewrite u64_small by nia. split_and!; try nia.
  intros p Hp Htb. pose proof (deallocate_tombstoned s p Hr Hp Htb) as HD.
  destruct (live_in_region Min s B p HW Hp) as (? & Hin & _).
  destruct (deallocate Min s p) as [r s']. destruct HD as (-> & Hgone & Eb & Et & Etm & Eu). unfold used, tombstoned in *.
  rewrite Etm, Eb, Et, Eu, (w_alloc _ _ _ HW), (w_tomb _ _ _ HW). unfold taken_twice.
  set (u := Min * wsum is_alloc B) in *. destruct (Z.eqb_spec (base s) 0); [lia|]. assert (Hu : 0 <= u) by nia.
  split; [done|]. split; [done|]. split; [done|]. destruct (Z.ltb_spec u (block_size Min s p)); split; try lia.
  intros _. split; [done|]. intros Hsm. split; [lia|].
  rewrite (u64_wrapped _ (total s + block_size Min s p - u)) by lia. lia.
Qed.

(** ** Reallocation *)

(** Copying into the payload of a live block keeps the region well formed, and
    is a sequence of client writes. *)
Lemma memcpy_reachable s B i o k src n :
  reachable s -> wf Min s B -> B !! i = Some (o, k) -> live k = true ->
  Z.of_nat n <= Min * 2 ^ o - __hdr_offset ->
  let s' := set_mem s (memcpy (mem s) (at_ (base s) i) src n) in
  reachable s' /\ wf Min s' B.
Proof.
  intros Hr HW Hi Hk. induction n as [|n IH]; intros Hn; cbn zeta.
  - cbn [memcpy]. by destruct s.
  - destruct IH as [Hr' HW']; [lia|]. cbn zeta in Hr', HW'. cbn [memcpy].
    set (s1 := set_mem s (memcpy (mem s) (at_ (base s) i) src n)) in *.
    assert (Ha : at_ (base s) i <= at_ (base s) i + Z.of_nat n
      < at_ (base s) i + Min * 2 ^ o - __hdr_offset) by (unfold __hdr_offset in *; lia).
    split.
    + apply (reachable_step Min s1); [done|].
      apply (st_write Min s1 (at_ (base s) i) _ (rd (mem s) (src + Z.of_nat n))).
      * apply (is_allocated_iff Min s1 B _ (w_inv _ _ _ HW') (w_holes _ _ _ HW')). by exists i, o, k.
      * by rewrite (block_size_live Min s1 B i o k (w_inv _ _ _ HW') Hi Hk : block_size Min s1 (at_ (base s) i) = _).
    + by apply (client_write_wf Min s1 B i o k _ (rd (mem s) (src + Z.of_nat n))).
Qed.

(** C13. Resizing a live block either keeps it, or refuses and changes nothing, or
    returns a fresh block that starts with the old contents, releases the old
    block and touches no other. *)
Theorem reallocate_correct s p new_size :
  reachable s -> is_allocated Min s p = true -> is_tombstoned Min s p = false ->
  0 < new_size < 2 ^ 64 ->
  let node := Chunk p (block_size Min s p - __hdr_offset) in
  let '(c, s') := reallocate Min s node new_size in
  (c = node /\ s' = s /\ new_size <= len node) \/
  (c = null_chunk /\ s' = s /\ no_room Min s (new_size + __hdr_offset)) \/
  (reachable s' /\ is_allocated Min s (ptr c) = false /\ is_allocated Min s' (ptr c) = true /\
   new_size <= len c /\ is_allocated Min s' p = false /\
   (forall d, 0 <= d < Z.min (len node) (len c) -> rd (mem s') (ptr c + d) = rd (mem s) (p + d)) /\
   forall q, q <> p -> is_allocated Min s q = true -> is_allocated Min s' q = true /\
     forall a, q <= a < q + block_size Min s q -> rd (mem s') a = rd (mem s) a).
Proof.
  intros Hr Hp Ht Hn node. destruct (reachable_wf Min s Hr) as [B HW]. pose proof (w_inv _ _ _ HW) as HI.
  pose proof (g_base _ _ (i_geo _ _ _ HI)) as Hb. pose proof (Min_range Min) as HMr.
  destruct (allocated_block Min s B p HW Hp) as (i & o & k & Ep & Hi & Hk & Eb).
  destruct (blk_range Min HI _ _ _ Hi) as (_ & _ & _ & Hpow & _).
  assert (Hp0 : p <> 0) by (rewrite Ep; by apply (at_pos Min HI _ _ _ Hi)).
  assert (Hlen : 0 < len node) by (subst node; cbn; unfold __hdr_offset; nia).
  unfold reallocate. change (ptr node) with p. destruct (Z.eqb_spec (base s) 0); [lia|].
  destruct (Z.eqb_spec p 0); [done|]. destruct (Z.eqb_spec new_size 0); [lia|].
  destruct ((new_size <=? len node) && (Z.shiftr (len node) 1 <? new_size)) eqn:Efit.
  { left. apply andb_true_iff in Efit as [?%Z.leb_le _]. done. }
  destruct (allocate_spec Min s B new_size HW ltac:(lia)) as [(j & oj & c & s1 & B1 & E & HS)|[E Hex]];
    rewrite E.
  2: { right; left. cbn. split_and!; try done. eapply exhausted_no_room; [apply HI|done]. }
  pose proof (served_fresh Min s B new_size false c s1 B1 j oj HW HS) as HF.
  destruct HF as (Hf1 & Hf2 & Hf3 & Hf4 & Hf5 & _).
  pose proof HS as [HW1 Ec Eo _ Hbl Hfr HO _].
  assert (Hc0 : ptr c <> 0).
  { rewrite Ec. cbn. rewrite <- (o_base _ _ _ _ _ _ HO). by apply (at_pos Min (w_inv _ _ _ HW1) _ _ _ Hbl). }
  destruct (Z.eqb_spec (ptr c) 0); [done|]. cbn zeta.
  set (cnt := Z.to_nat (if len node <? len c then len node else len c)).
  assert (En : Z.of_nat cnt = Z.min (len node) (len c)).
  { subst cnt. assert (0 <= len c) by lia. case_b; lia. }
  assert (Hr1 : reachable s1).
  { pose proof (reachable_step Min s _ Hr (st_allocate Min s new_size ltac:(lia))) as H. by rewrite E in H. }
  assert (Ecp : ptr c = at_ (base s1) j) by (rewrite Ec, (o_base _ _ _ _ _ _ HO); done).
  destruct (memcpy_reachable s1 B1 j oj (BAlloc false) p cnt Hr1 HW1 Hbl eq_refl) as [Hr2 HW2].
  { rewrite En, Ec. cbn. lia. }
  rewrite <- Ecp in Hr2, HW2. set (s2 := set_mem s1 _) in *.
  destruct (Hf5 p Hp) as (Hp1 & Hps1 & Hpm1).
  assert (Hpc : p <> ptr c) by congruence.
  (* the old block is still live and not tombstoned *)
  assert (Hi1 : B1 !! i = Some (o, k)).
  { apply (o_live _ _ _ _ _ _ HO); [done| |done]. intros ->. by apply Hfr in Hi. }
  destruct (flags_live Min s B i o k HI Hi Hk) as [Htk _]. rewrite <- Ep, Ht in Htk.
  assert (Ht2 : is_tombstoned Min s2 p = false).
  { destruct (flags_live Min s2 B1 i o k (w_inv _ _ _ HW2) Hi1 Hk) as [E2 _].
    change (base s2) with (base s1) in E2. rewrite (o_base _ _ _ _ _ _ HO), <- Ep in E2. congruence. }
  assert (Hp2 : is_allocated Min s2 p = true) by exact Hp1.
  destruct (deallocate_correct s2 p Hr2) as [Hd _]. specialize (Hd Hp2 Ht2).
  unfold deallocate_node. change (ptr node) with p.
  destruct (Z.eqb_spec p 0); [done|]. destruct (Z.eqb_spec (len node) 0); [lia|]. cbn [orb].
  destruct (deallocate Min s2 p) as [r s3]. cbn [snd]. right; right.
  destruct Hd as (_ & Hr3 & Hnp & _ & _ & Hkeep).
  destruct (Hkeep (ptr c) ltac:(done) Hf2) as (Hc3 & _ & Hcm).
  split_and!; try done.
  - intros d Hd. rewrite Hcm.
    + subst s2. cbn. rewrite rd_memcpy, En. repeat case_g.
      replace (p + (ptr c + d - ptr c)) with (p + d) by lia. apply Hpm1.
      subst node. cbn in Hd. unfold __hdr_offset in *. lia.
    + change (block_size Min s2 (ptr c)) with (block_size Min s1 (ptr c)). rewrite Hf3.
      unfold __hdr_offset. lia.
  - intros q Hqp Hq. destruct (Hf5 q Hq) as (Hq1 & Hqs & Hqm).
    destruct (Hkeep q Hqp Hq1) as (Hq3 & _ & Hqm3). split; [done|]. intros a Ha.
    rewrite Hqm3 by (change (block_size Min s2 q) with (block_size Min s1 q); lia).
    subst s2. cbn. rewrite rd_memcpy, En.
    assert (Hqc : q <> ptr c) by congruence.
    destruct (live_disjoint Min s1 B1 q (ptr c) HW1 Hq1 Hf2 Hqc) as [Hd|Hd];
      rewrite ?Hf3 in Hd; unfold __hdr_offset in *; repeat case_g; apply Hqm; lia.
Qed.

(** The ring of active blocks: in every reachable state at most one of the two
    slots of an order is in use, so the ring never holds a second block to
    rotate to. *)
Theorem active_ring_single s o :
  reachable s -> 0 <= o < max_order s ->
  rd (active s) (o * __active_ring + 0) = 0 \/ rd (active s) (o * __active_ring + 1) = 0.
Proof.
  intros Hr Ho. destruct (reachable_wf Min s Hr) as [B HW]. by apply (r_one _ _ _ (w_ring _ _ _ HW)).
Qed.

(** Under the invariant the unlinking of a buddy during a merge always
    succeeds on its fast paths: the list walk for corrupted links is never
    entered, and the node is gone from its list. *)
Theorem freelist_remove_fast s o i :
  reachable s -> 0 <= o < max_order s -> 0 <= i < tag_count s ->
  rd (block_tags s) i = o + __tag_free ->
  let a := base s + i * Min in
  (freelist_remove Min s a o).1 = true /\
  (rd (free_lists s) o = a \/ next s (prev s a) = a).
Proof.
  intros Hr Ho Hi Ht a. destruct (reachable_wf Min s Hr) as [B HW]. pose proof (w_inv _ _ _ HW) as HI.
  pose proof (geo_units Min HI) as (_ & _ & Hmo & _).
  assert (Hb : B !! i = Some (o, BFree)).
  { pose proof (i_tags _ _ _ HI i Hi) as Hti. rewrite Ht in Hti. unfold __tag_free, __tag_none in *.
    destruct (B !! i) as [[oi k]|] eqn:E; cbn in Hti; unfold __tag_free, __tag_none in *; [|lia].
    destruct (blk_range Min HI _ _ _ E) as (_ & Hoi & _).
    destruct k; try lia; [do 2 f_equal; lia|by apply (w_holes _ _ _ HW) in E]. }
  destruct (inv_freelist_remove Min s B i o HI Hb) as (s' & E & _).
  split; [unfold a; change (base s + i * Min) with (at_ (base s) i); by rewrite E|].
  destruct (Z.eq_dec (rd (free_lists s) o) a) as [|Hne]; [by left|]. right.
  by destruct (unlink_neighbours Min s B i o HI Hb Hne) as (_ & Hn & _).
Qed.

End Props.

(** ** The properties at work on the concrete region *)

Lemma order_for_size_least_witness :
  order_for_size 1024 3032 = 2 /\
  (0 <= order_for_size 1024 3032 /\ 3032 <= 1024 * 2 ^ order_for_size 1024 3032 /\
   (order_for_size 1024 3032 = 0 \/ 1024 * 2 ^ (order_for_size 1024 3032 - 1) < 3032)).
Proof. split; [reflexivity|]. apply (order_for_size_least 1024 3032). lia. Defined.

Lemma constructor_places_region_witness :
  let s := demo in
  wf 1024 s {[0 := (max_order s - 1, BFree)]} /\ placed 1024 s 4096 65536 0 /\
  2 ^ (max_order s - 1) <= tag_count s < 2 ^ max_order s.
Proof.
  apply (@constructor_places_region 1024 _ PlainChunk.ops ∅ (Chunk 4096 65536) demo); try (cbn; lia);
    [reflexivity|]. intros E. by vm_compute in E.
Defined.

Lemma reachable_well_formed_witness : exists B, wf 1024 demo2 B.
Proof. apply (reachable_well_formed 1024 demo2), demo2_reachable. Defined.

Lemma live_blocks_apart_witness :
  base demo2 <= demo_p /\ demo_p + block_size 1024 demo2 demo_p <= base demo2 + total demo2 /\
  (1024 | demo_p - base demo2) /\
  (demo_p + block_size 1024 demo2 demo_p <= demo_q \/
   demo_q + block_size 1024 demo2 demo_q <= demo_p).
Proof.
  apply (live_blocks_apart 1024 demo2 demo_p demo_q demo2_reachable); [reflexivity..|].
  intros E. by vm_compute in E.
Defined.

Lemma allocate_correct_witness :
  let '(c, s') := allocate 1024 demo1 3000 in
  (c = null_chunk /\ s' = demo1 /\ no_room 1024 demo1 (3000 + __hdr_offset)) \/
  (reachable 1024 s' /\ fresh_block 1024 demo1 3000 c s' /\
   len c + __hdr_offset = 1024 * 2 ^ order_for_size 1024 (3000 + __hdr_offset) /\
   used s' = used demo1 + len c + __hdr_offset).
Proof. apply (allocate_correct 1024 demo1 3000 demo1_reachable). lia. Defined.

Lemma deallocate_correct_witness :
  is_allocated 1024 demo2 demo_p = true /\
  (is_allocated 1024 demo2 demo_p = true -> is_tombstoned 1024 demo2 demo_p = false ->
   let '(r, s') := deallocate 1024 demo2 demo_p in
   r = __flag_ok /\ reachable 1024 s' /\ is_allocated 1024 s' demo_p = false /\
   used s' = used demo2 - block_size 1024 demo2 demo_p /\
   deallocate 1024 s' demo_p = (__flag_invalid, s') /\
   forall q, q <> demo_p -> is_allocated 1024 demo2 q = true ->
     is_allocated 1024 s' q = true /\ block_size 1024 s' q = block_size 1024 demo2 q /\
     forall a, q <= a < q + block_size 1024 demo2 q -> rd (mem s') a = rd (mem demo2) a).
Proof. split; [reflexivity|]. apply (deallocate_correct 1024 demo2 demo_p demo2_reachable). Defined.

(** The region after its only block, a temporal one, was returned: the block
    sits in the cache, and the largest request fails until the flush. *)
Definition demo_t : buddy := (temporal_allocate 1024 demo 1000).2.
Definition demo_tp : Z := ptr (temporal_allocate 1024 demo 1000).1.
Definition demo_tf : buddy := (deallocate 1024 demo_t demo_tp).2.

Lemma demo_t_reachable : reachable 1024 demo_t.
Proof. eapply reachable_step; [exact demo_reachable|]. apply st_temporal. lia. Qed.

Lemma demo_tf_reachable : reachable 1024 demo_tf.
Proof. eapply reachable_step; [exact demo_t_reachable|]. apply st_deallocate. intros _. reflexivity. Qed.

(** Only unit starts are candidates for being live: a finite check decides
    that nothing is. *)
Definition none_live (s : buddy) : bool :=
  forallb (fun i => negb (is_allocated 1024 s (base s + i * 1024))) (seqZ 0 (tag_count s)).

Lemma none_live_spec s p : reachable 1024 s -> none_live s = true -> is_allocated 1024 s p = false.
Proof.
  intros Hr Hn. destruct (reachable_wf 1024 s Hr) as [B HW].
  destruct (is_allocated 1024 s p) eqn:E; [|done].
  destruct (allocated_block 1024 s B p HW E) as (i & o & k & -> & Hi & _).
  destruct (blk_range 1024 (w_inv _ _ _ HW) _ _ _ Hi) as (? & _ & _ & ? & ?).
  unfold none_live in Hn. rewrite forallb_forall in Hn.
  specialize (Hn i). rewrite <- list_elem_of_In, elem_of_seqZ in Hn. specialize (Hn ltac:(lia)).
  unfold at_ in E. by rewrite E in Hn.
Qed.

Lemma flush_restores_everything_witness :
  (allocate 1024 demo_tf 32000).1 = null_chunk /\
  let s' := tcache_flush_all 1024 demo_tf in
  reachable 1024 s' /\ free_mask s' = 2 ^ (max_order demo_tf - 1) /\
  rd (free_lists s') (max_order demo_tf - 1) = base demo_tf /\
  forall n, 0 <= n -> n + __hdr_offset <= 1024 * 2 ^ (max_order demo_tf - 1) ->
    n <= len (allocate 1024 s' n).1 /\ ptr (allocate 1024 s' n).1 = base demo_tf.
Proof.
  split; [reflexivity|]. apply (flush_restores_everything 1024 demo_tf demo_tf_reachable).
  intros p. apply none_live_spec; [exact demo_tf_reachable|reflexivity].
Defined.

Lemma temporal_allocate_shares_witness :
  let '(c, s') := temporal_allocate 1024 demo 1000 in
  (c = null_chunk /\ s' = demo /\ no_room 1024 demo (1000 + __hdr_offset)) \/
  (reachable 1024 s' /\ is_allocated 1024 s' (ptr c) = true /\ is_temporal 1024 s' (ptr c) = true /\
   1000 <= len c /\
   (fresh_block 1024 demo 1000 c s' \/
    (is_allocated 1024 demo (ptr c) = true /\ is_temporal 1024 demo (ptr c) = true /\
     used s' = used demo)) /\
   forall n', 0 <= n' < 2 ^ 64 - __hdr_offset ->
     order_for_size 1024 (n' + __hdr_offset) = order_for_size 1024 (1000 + __hdr_offset) ->
     (temporal_allocate 1024 s' n').1 = c).
Proof. apply (temporal_allocate_shares 1024 demo 1000 demo_reachable). lia. Defined.

Lemma tombstone_correct_witness :
  let '(r, s') := tombstone 1024 demo2 demo_p in
  r = __flag_tombstoned /\ reachable 1024 s' /\ is_allocated 1024 s' demo_p = true /\
  is_tombstoned 1024 s' demo_p = true /\
  block_size 1024 s' demo_p = block_size 1024 demo2 demo_p /\
  used s' = used demo2 - block_size 1024 demo2 demo_p /\
  tombstoned s' = tombstoned demo2 + block_size 1024 demo2 demo_p /\
  tombstone 1024 s' demo_p = (__flag_invalid, s').
Proof. apply (tombstone_correct 1024 demo2 demo_p demo2_reachable); reflexivity. Defined.

(** [demo1] with its only block tombstoned *)
Definition demo_dead : buddy := (tombstone 1024 demo1 demo_p).2.

Lemma demo_dead_reachable : reachable 1024 demo_dead.
Proof. eapply reachable_step; [exact demo1_reachable|]. apply st_tombstone. reflexivity. Qed.

Lemma byte_counts_exact_witness :
  available demo2 = total demo2 - used demo2 /\ used demo2 = 6144 /\
  used demo_dead = 0 /\ is_tombstoned 1024 demo_dead demo_p = true /\
  (deallocate 1024 demo_dead demo_p).1 = __flag_ok /\
  used (deallocate 1024 demo_dead demo_p).2 = 2 ^ 64 - 2048.
Proof.
  destruct (byte_counts_exact 1024 demo2 demo2_reachable) as (_ & _ & _ & Ha & _). split; [exact Ha|]. split; [reflexivity|].
  destruct (byte_counts_exact 1024 demo_dead demo_dead_reachable) as (_ & _ & _ & _ & Hd).
  specialize (Hd demo_p eq_refl eq_refl). destruct (deallocate 1024 demo_dead demo_p) as [r s']. cbn [fst snd].
  destruct Hd as (Er & _ & _ & _ & Hw). split; [reflexivity|]. split; [reflexivity|]. split; [exact Er|].
  destruct (Hw eq_refl) as [-> _]. reflexivity.
Defined.

Lemma reallocate_correct_witness :
  let node := Chunk demo_p (block_size 1024 demo2 demo_p - __hdr_offset) in
  let '(c, s') := reallocate 1024 demo2 node 5000 in
  (c = node /\ s' = demo2 /\ 5000 <= len node) \/
  (c = null_chunk /\ s' = demo2 /\ no_room 1024 demo2 (5000 + __hdr_offset)) \/
  (reachable 1024 s' /\ is_allocated 1024 demo2 (ptr c) = false /\
   is_allocated 1024 s' (ptr c) = true /\ 5000 <= len c /\ is_allocated 1024 s' demo_p = false /\
   (forall d, 0 <= d < Z.min (len node) (len c) ->
      rd (mem s') (ptr c + d) = rd (mem demo2) (demo_p + d)) /\
   forall q, q <> demo_p -> is_allocated 1024 demo2 q = true -> is_allocated 1024 s' q = true /\
     forall a, q <= a < q + block_size 1024 demo2 q -> rd (mem s') a = rd (mem demo2) a).
Proof. apply (reallocate_correct 1024 demo2 demo_p 5000 demo2_reachable); [reflexivity..|lia]. Defined.

Lemma active_ring_single_witness :
  rd (active demo_t) (1 * __active_ring + 1) = demo_tp /\
  (rd (active demo_t) (1 * __active_ring + 0) = 0 \/ rd (active demo_t) (1 * __active_ring + 1) = 0).
Proof.
  split; [reflexivity|]. apply (active_ring_single 1024 demo_t 1 demo_t_reachable).
  split; [lia|reflexivity].
Defined.

(** The free block of order 3 behind the live ones, at unit 8 of the region *)
Lemma freelist_remove_fast_witness :
  (freelist_remove 1024 demo2 (base demo2 + 8 * 1024) 3).1 = true /\
  (rd (free_lists demo2) 3 = base demo2 + 8 * 1024 \/
   next demo2 (prev demo2 (base demo2 + 8 * 1024)) = base demo2 + 8 * 1024).
Proof.
  apply (freelist_remove_fast 1024 demo2 3 8 demo2_reachable); try (split; [lia|reflexivity]).
  reflexivity.
Defined.

(** ** Two hazards of tombstones

    [tombstone] overwrites the flags of the header, so a temporal block loses
    its temporal flag while the ring still points at it: the next temporal
    request hands the tombstoned block out, and keeps doing so after the block
    was returned to the free lists. *)
Example tombstone_of_temporal :
  let s1 := (tombstone 1024 demo_t demo_tp).2 in
  let s2 := (deallocate 1024 s1 demo_tp).2 in
  (temporal_allocate 1024 s1 1000).1 = Chunk demo_tp 2016 /\
  is_tombstoned 1024 s1 demo_tp = true /\ is_temporal 1024 s1 demo_tp = false /\
  is_allocated 1024 s2 demo_tp = false /\
  (temporal_allocate 1024 s2 1000).1 = Chunk demo_tp 2016 /\
  (allocate 1024 s2 1000).1 = Chunk demo_tp 2016.
Proof. vm_compute. repeat split. Qed.

(** [deallocate] subtracts a tombstoned block from the used count although
    [tombstone] already has: the count wraps below zero. *)
Example tombstone_then_deallocate :
  let s1 := (tombstone 1024 demo1 demo_p).2 in
  let s2 := (deallocate 1024 s1 demo_p).2 in
  used s1 = 0 /\ used s2 = 2 ^ 64 - 2048 /\ available s2 = total s2 + 2048.
Proof. vm_compute. repeat split. Qed.
