(* ===== verification/Tlsf.v ===== *)
(** * The two-level segregated fit list (src/src/cache_list.hpp)

    [struct __tlsf_list<T, Min, Mx>]: blocks of any multiple of 32 bytes that
    tile one region physically, each behind a 32-byte header; free blocks on
    one of 26 * 16 lists by size class, found through two levels of bitmaps;
    a ring of two active temporal blocks per class.

    A header at [b] is the cells [b] (bsize), [b + 4] (flags), [b + 8]
    (prev_phys), [b + 16] (next_free) and [b + 24] (prev_free) of the memory;
    the user's pointer is [b + 32]. *)

From S2P Require Import Prelude.
From S2P Require Import Config.

Definition __block_align : Z := __hdr_offset.
Definition __min_block : Z := __block_align * 2.
Definition __sl_log2 : Z := 4.
Definition __sl_count : Z := Z.shiftl 1 __sl_log2.
Definition __fl_shift : Z := 6.
Definition __fl_count : Z := 26.
Definition __list_count : Z := __fl_count * __sl_count.
Definition __temporal_ring : Z := 2.

(** The data members; [temporal_active[i][r]] is the cell [i * 2 + r]. *)
Record tlsf := Tlsf {
  mem : zmap;
  base : Z;
  total : Z;
  fl_count : Z;
  allocated_bytes : Z;
  tombstoned_bytes : Z;
  fl_bitmap : Z;
  sl_bitmap : zmap;
  heads : zmap;
  temporal_active : zmap;
  temporal_rotor : zmap
}.

(** Field updates *)
Definition set_mem (s : tlsf) m := Tlsf m (base s) (total s) (fl_count s) (allocated_bytes s)
  (tombstoned_bytes s) (fl_bitmap s) (sl_bitmap s) (heads s) (temporal_active s) (temporal_rotor s).
Definition set_bytes (s : tlsf) a t := Tlsf (mem s) (base s) (total s) (fl_count s) a
  t (fl_bitmap s) (sl_bitmap s) (heads s) (temporal_active s) (temporal_rotor s).
Definition set_fl (s : tlsf) fl := Tlsf (mem s) (base s) (total s) (fl_count s) (allocated_bytes s)
  (tombstoned_bytes s) fl (sl_bitmap s) (heads s) (temporal_active s) (temporal_rotor s).
Definition set_sl (s : tlsf) sl := Tlsf (mem s) (base s) (total s) (fl_count s) (allocated_bytes s)
  (tombstoned_bytes s) (fl_bitmap s) sl (heads s) (temporal_active s) (temporal_rotor s).
Definition set_heads (s : tlsf) h := Tlsf (mem s) (base s) (total s) (fl_count s) (allocated_bytes s)
  (tombstoned_bytes s) (fl_bitmap s) (sl_bitmap s) h (temporal_active s) (temporal_rotor s).
Definition set_active (s : tlsf) a := Tlsf (mem s) (base s) (total s) (fl_count s) (allocated_bytes s)
  (tombstoned_bytes s) (fl_bitmap s) (sl_bitmap s) (heads s) a (temporal_rotor s).
Definition set_rotor (s : tlsf) r := Tlsf (mem s) (base s) (total s) (fl_count s) (allocated_bytes s)
  (tombstoned_bytes s) (fl_bitmap s) (sl_bitmap s) (heads s) (temporal_active s) r.

(** Header fields: reads, and writes of one field *)
Definition bsize (s : tlsf) (b : Z) : Z := rd (mem s) (b + 0).
Definition flags (s : tlsf) (b : Z) : Z := rd (mem s) (b + 4).
Definition prev_phys (s : tlsf) (b : Z) : Z := rd (mem s) (b + 8).
Definition next_free (s : tlsf) (b : Z) : Z := rd (mem s) (b + 16).
Definition prev_free (s : tlsf) (b : Z) : Z := rd (mem s) (b + 24).
Definition set_bsize (s : tlsf) (b v : Z) : tlsf := set_mem s (wr (mem s) (b + 0) v).
Definition set_flags (s : tlsf) (b v : Z) : tlsf := set_mem s (wr (mem s) (b + 4) v).
Definition set_prev_phys (s : tlsf) (b v : Z) : tlsf := set_mem s (wr (mem s) (b + 8) v).
Definition set_next_free (s : tlsf) (b v : Z) : tlsf := set_mem s (wr (mem s) (b + 16) v).
Definition set_prev_free (s : tlsf) (b v : Z) : tlsf := set_mem s (wr (mem s) (b + 24) v).

Definition fls64 (v : Z) : Z := 63 - clzll v.

Definition idx (fi si : Z) : Z := fi * __sl_count + si.

(** (fi, si) *)
Definition mapping_insert (size : Z) : Z * Z :=
  let fl := fls64 size in
  let shift := fl - __sl_log2 in
  (fl - __fl_shift, Z.land (Z.shiftr size shift) (__sl_count - 1)).

Definition mapping_search (size : Z) : Z * Z :=
  let fl := fls64 size in
  let shift := fl - __sl_log2 in
  let size := u64 (size + (Z.shiftl 1 shift - 1)) in
  let fl := fls64 size in
  let shift := fl - __sl_log2 in
  (fl - __fl_shift, Z.land (Z.shiftr size shift) (__sl_count - 1)).

Definition next_phys (s : tlsf) (b : Z) : Z := b + bsize s b.

Definition fl_insert (s : tlsf) (block : Z) : tlsf :=
  let '(fi, si) := mapping_insert (bsize s block) in
  let i := idx fi si in
  let head := rd (heads s) i in
  let s := set_next_free s block head in
  let s := set_prev_free s block 0 in
  let s := if negb (head =? 0) then set_prev_free s head block else s in
  let s := set_heads s (wr (heads s) i block) in
  let s := set_flags s block __block_free in
  let s := set_fl s (bit_set (fl_bitmap s) fi) in
  set_sl s (wr (sl_bitmap s) fi (bit_set (rd (sl_bitmap s) fi) si)).

Definition fl_remove (s : tlsf) (block : Z) : tlsf :=
  let '(fi, si) := mapping_insert (bsize s block) in
  let i := idx fi si in
  let prev := prev_free s block in
  let next := next_free s block in
  let s := if negb (prev =? 0) then set_next_free s prev next
           else set_heads s (wr (heads s) i next) in
  let s := if negb (next =? 0) then set_prev_free s next prev else s in
  if rd (heads s) i =? 0 then
    let s := set_sl s (wr (sl_bitmap s) fi (bit_clr (rd (sl_bitmap s) fi) si)) in
    if rd (sl_bitmap s) fi =? 0 then set_fl s (bit_clr (fl_bitmap s) fi) else s
  else s.

(** The unlinking half of [find_free]: the head of list [(fi, si)] is taken. *)
Definition take_head (s : tlsf) (fi si : Z) : Z * tlsf :=
  let i := idx fi si in
  let block := rd (heads s) i in
  let next := next_free s block in
  let s := set_heads s (wr (heads s) i next) in
  if negb (next =? 0) then (block, set_prev_free s next 0)
  else
    let new_sl := bit_clr (rd (sl_bitmap s) fi) si in
    let s := set_sl s (wr (sl_bitmap s) fi new_sl) in
    (block, if new_sl =? 0 then set_fl s (bit_clr (fl_bitmap s) fi) else s).

Definition find_free (s : tlsf) (needed : Z) : Z * tlsf :=
  let '(fi, si) := mapping_search needed in
  if fl_count s <=? fi then (0, s) else
  let sl_map := Z.land (rd (sl_bitmap s) fi) (ones_from si) in
  if negb (sl_map =? 0) then take_head s fi (ctz sl_map)
  else
    let fl_map := Z.land (fl_bitmap s) (ones_from (fi + 1)) in
    if fl_map =? 0 then (0, s)
    else
      let fi := ctz fl_map in
      take_head s fi (ctz (rd (sl_bitmap s) fi)).

Definition try_split (s : tlsf) (block needed : Z) : tlsf :=
  let remain := u64 (bsize s block - needed) in
  if remain <? __min_block then s else
  let s := set_bsize s block (u32 needed) in
  let rem := block + needed in
  let s := set_bsize s rem (u32 remain) in
  let s := set_prev_phys s rem block in
  let after := next_phys s rem in
  let s := set_prev_phys s after rem in
  fl_insert s rem.

Definition coalesce_and_free (s : tlsf) (block : Z) : tlsf :=
  let next := next_phys s block in
  let '(s, merged) :=
    if flags s next =? __block_free then
      let s := fl_remove s next in
      (set_bsize s block (u32 (bsize s block + bsize s next)), true)
    else (s, false) in
  let prev := prev_phys s block in
  let '(s, block, merged) :=
    if negb (prev =? 0) && (flags s prev =? __block_free) then
      let s := fl_remove s prev in
      (set_bsize s prev (u32 (bsize s prev + bsize s block)), prev, true)
    else (s, block, merged) in
  let s := if (merged : bool) then set_prev_phys s (next_phys s block) block else s in
  fl_insert s block.

Definition __impl_zero_arrays (s : tlsf) : tlsf :=
  Tlsf (mem s) (base s) (total s) (fl_count s) (allocated_bytes s) (tombstoned_bytes s)
    0 ∅ ∅ ∅ ∅.

(** The [fail] exit of [__impl_init_memory] *)
Definition init_fail (s : tlsf) : tlsf :=
  Tlsf (mem s) 0 0 0 (allocated_bytes s) (tombstoned_bytes s) (fl_bitmap s) (sl_bitmap s)
    (heads s) (temporal_active s) (temporal_rotor s).

Definition init_sentinel (s : tlsf) (b prev : Z) : tlsf :=
  let s := set_bsize s b (u32 __block_align) in
  let s := set_flags s b __block_alloc in
  let s := set_prev_phys s b prev in
  let s := set_next_free s b 0 in
  set_prev_free s b 0.

(** The success path: sentinels at both ends and one free block between *)
Definition init_region (s : tlsf) (base_ data : Z) : tlsf :=
  let fl := fls64 data in
  let n := fl - __fl_shift + 1 in
  let n := if __fl_count <? n then __fl_count else n in
  let n := if n <? 1 then 1 else n in
  let s := Tlsf (mem s) base_ data n (allocated_bytes s) (tombstoned_bytes s)
    (fl_bitmap s) (sl_bitmap s) (heads s) (temporal_active s) (temporal_rotor s) in
  let s := __impl_zero_arrays s in
  let ss := base s in
  let s := init_sentinel s ss 0 in
  let es := base s + __block_align + total s in
  let s := init_sentinel s es 0 in
  let blk := base s + __block_align in
  let s := set_bsize s blk (u32 (total s)) in
  let s := set_flags s blk __block_free in
  let s := set_prev_phys s blk ss in
  let s := set_prev_phys s es blk in
  fl_insert s blk.

Definition __impl_init_memory (s : tlsf) (_ptr _len : Z) : tlsf :=
  let r := align_up _ptr __block_align in
  let adjust := r - _ptr in
  if _len <=? adjust then init_fail s else
  let usable := (_len - adjust) / __block_align * __block_align in
  if usable <? 2 * __block_align + __min_block then init_fail s else
  let data := usable - 2 * __block_align in
  if 4294967295 <? data then init_fail s else
  init_region s r data.

Definition blank (m : zmap) : tlsf := Tlsf m 0 0 0 0 0 0 ∅ ∅ ∅ ∅.

Section Tlsf.
Variable Min : Z.

(** The constructors; [None] is [micron::abort()].  A tag buffer is ignored. *)
Definition __tlsf_list `{ChunkOps} (m : zmap) (c : chunk) : option tlsf :=
  let s := __impl_zero_arrays (blank m) in
  if chunk_zero c || (len c <? Min) then None
  else Some (__impl_init_memory s (ptr c) (len c)).

Definition __tlsf_list_tags `{ChunkOps} (m : zmap) (c : chunk) (_tags : Z) : option tlsf :=
  __tlsf_list m c.
End Tlsf.

Definition move_ctor (o : tlsf) : tlsf * tlsf := (o, blank (mem o)).
Definition move_assign (this o : tlsf) : tlsf * tlsf := move_ctor o.

Definition adjusted_block_size (user_n : Z) : Z :=
  let overhead := 32 + __hdr_offset in
  let align_mask := __block_align - 1 in
  if usize_max - overhead - align_mask <? user_n then 0 else
  let needed := Z.ldiff (user_n + overhead + align_mask) align_mask in
  if needed <? __min_block then __min_block else needed.

Definition __clear_temporal_class (s : tlsf) (block size : Z) : bool * tlsf :=
  let '(fi, si) := mapping_search size in
  if (fi <? 0) || (fl_count s <=? fi) then (false, s) else
  let i := idx fi si in
  if rd (temporal_active s) (i * __temporal_ring + 0) =? block
  then (true, set_active s (wr (temporal_active s) (i * __temporal_ring + 0) 0))
  else if rd (temporal_active s) (i * __temporal_ring + 1) =? block
  then (true, set_active s (wr (temporal_active s) (i * __temporal_ring + 1) 0))
  else (false, s).

Definition __clear_temporal (s : tlsf) (block size : Z) : tlsf :=
  let '(found, s) := __clear_temporal_class s block size in
  if (found : bool) then s
  else if __min_block <? size then (__clear_temporal_class s block (size - __block_align)).2
  else s.

(** Split, flags and byte count of a block that has just been taken *)
Definition commit (s : tlsf) (block needed f : Z) : tlsf :=
  let s := try_split s block needed in
  let s := set_flags s block f in
  set_bytes s (u64 (allocated_bytes s + bsize s block)) (tombstoned_bytes s).

Definition allocate (s : tlsf) (n : Z) : chunk * tlsf :=
  if base s =? 0 then (null_chunk, s) else
  let needed := adjusted_block_size n in
  if needed =? 0 then (null_chunk, s) else
  let '(block, s) := find_free s needed in
  if block =? 0 then (null_chunk, s) else
  let s := commit s block needed __block_alloc in
  (Chunk (block + __hdr_offset) (bsize s block - __hdr_offset), s).

Definition temporal_allocate (s : tlsf) (n : Z) : chunk * tlsf :=
  if base s =? 0 then (null_chunk, s) else
  let needed := adjusted_block_size n in
  if needed =? 0 then (null_chunk, s) else
  let '(fi, si) := mapping_search needed in
  let valid := (0 <=? fi) && (fi <? fl_count s) in
  let i := idx fi si in
  let r := Z.land (rd (temporal_rotor s) i) (__temporal_ring - 1) in
  let blk := rd (temporal_active s) (i * __temporal_ring + r) in
  let '(r, blk) := if blk =? 0 then let r := Z.lxor r 1 in (r, rd (temporal_active s) (i * __temporal_ring + r))
                   else (r, blk) in
  if valid && negb (blk =? 0) then
    (Chunk (blk + __hdr_offset) (bsize s blk - __hdr_offset),
     set_rotor s (wr (temporal_rotor s) i (Z.lxor r 1)))
  else
  let '(block, s) := find_free s needed in
  if block =? 0 then (null_chunk, s) else
  let s := commit s block needed (Z.lor __block_alloc __block_temporal) in
  let block_size := bsize s block in
  let s :=
    if valid then
      let r := rd (temporal_rotor s) i in
      let s := set_active s (wr (temporal_active s) (i * __temporal_ring + r) block) in
      set_rotor s (wr (temporal_rotor s) i (Z.lxor r 1))
    else s in
  (Chunk (block + __hdr_offset) (block_size - __hdr_offset), s).

Definition allocate_exact (s : tlsf) (n : Z) : chunk * tlsf :=
  if base s =? 0 then (null_chunk, s) else
  if n <? __min_block then (null_chunk, s) else
  if negb (Z.land n (n - 1) =? 0) then (null_chunk, s) else
  let '(fi, si) := mapping_insert n in
  if (fi <? 0) || (fl_count s <=? fi) then (null_chunk, s) else
  let i := idx fi si in
  if rd (heads s) i =? 0 then (null_chunk, s) else
  let block := rd (heads s) i in
  let s := fl_remove s block in
  let s := set_flags s block __block_alloc in
  let s := set_bytes s (u64 (allocated_bytes s + bsize s block)) (tombstoned_bytes s) in
  (Chunk (block + __hdr_offset) (bsize s block - __hdr_offset), s).

Definition tombstone (s : tlsf) (p : Z) : ret_flag * tlsf :=
  let hdr := p - __hdr_offset in
  if negb (has_flag (flags s hdr) __block_alloc) then (__flag_invalid, s) else
  let bsz := bsize s hdr in
  let s := set_flags s hdr __block_tombstone in
  (__flag_tombstoned, set_bytes s (u64 (allocated_bytes s - bsz)) (u64 (tombstoned_bytes s + bsz))).

Definition tombstone_node (s : tlsf) (node : chunk) : ret_flag * tlsf :=
  if (ptr node =? 0) || (len node =? 0) then (__flag_invalid, s)
  else tombstone s (ptr node).

Definition is_tombstoned (s : tlsf) (p : Z) : bool :=
  has_flag (flags s (p - __hdr_offset)) __block_tombstone.

Definition is_temporal (s : tlsf) (p : Z) : bool :=
  has_flag (flags s (p - __hdr_offset)) __block_temporal.

Definition deallocate (s : tlsf) (p : Z) : ret_flag * tlsf :=
  if (p =? 0) || (base s =? 0) then (__flag_failure, s) else
  let block := p - __hdr_offset in
  let bsz := bsize s block in
  let f := flags s block in
  if f =? __block_free then (__flag_invalid, s) else
  let s := set_bytes s (u64 (allocated_bytes s - bsz))
             (if has_flag f __block_tombstone then u64 (tombstoned_bytes s - bsz)
              else tombstoned_bytes s) in
  let s := if has_flag f __block_temporal then __clear_temporal s block bsz else s in
  (__flag_ok, coalesce_and_free s block).

Definition deallocate_node (s : tlsf) (node : chunk) : ret_flag * tlsf :=
  if (ptr node =? 0) || (len node =? 0) then (__flag_invalid, s)
  else deallocate s (ptr node).

Definition reallocate (s : tlsf) (node : chunk) (new_size : Z) : chunk * tlsf :=
  if base s =? 0 then (null_chunk, s) else
  if ptr node =? 0 then allocate s new_size else
  if new_size =? 0 then (null_chunk, (deallocate_node s node).2) else
  if (new_size <=? len node) && (Z.shiftr (len node) 1 <? new_size) then (node, s) else
  let '(nnode, s) := allocate s new_size in
  if ptr nnode =? 0 then (null_chunk, s) else
  let to_copy := if len node <? len nnode then len node else len nnode in
  let s := set_mem s (memcpy (mem s) (ptr nnode) (ptr node) (Z.to_nat to_copy)) in
  (nnode, (deallocate_node s node).2).

Definition available (s : tlsf) : Z :=
  if base s =? 0 then 0 else u64 (total s - allocated_bytes s).

Definition __total (s : tlsf) : Z := total s.
Definition tombstoned (s : tlsf) : Z := tombstoned_bytes s.
Definition used (s : tlsf) : Z := allocated_bytes s.

(** The block address of a user pointer lies in the data region. *)
Definition in_data (s : tlsf) (p : Z) : bool :=
  let data_lo := base s + __block_align in
  let data_hi := base s + __block_align + total s in
  let blk := p - __hdr_offset in
  negb ((blk <? data_lo) || (data_hi <=? blk)).

Definition block_size (s : tlsf) (p : Z) : Z :=
  if (base s =? 0) || (p =? 0) then 0 else
  if negb (in_data s p) then 0 else bsize s (p - __hdr_offset).

Definition is_allocated (s : tlsf) (p : Z) : bool :=
  if (p =? 0) || (base s =? 0) then false else
  if negb (in_data s p) then false else negb (flags s (p - __hdr_offset) =? __block_free).

Definition allocated_size (s : tlsf) (p : Z) : Z :=
  if negb (is_allocated s p) then 0 else block_size s p.
