(* ===== verification/TlsfClass.v ===== *)
(** * Size classes of the two-level segregated fit list

    Class [i] = [idx fi si] holds the free blocks of at least [class_lo i] and
    less than [class_lo (i + 1)] bytes.  [mapping_insert] puts a block in its
    class, [mapping_search] gives the first class all of whose blocks are
    large enough. *)

From S2P Require Import Prelude.
From S2P Require Import Config.
From S2P Require Import Tlsf.

Lemma pow2_gt0 n : 0 <= n -> 0 < 2 ^ n.
Proof. intros. apply Z.pow_pos_nonneg; lia. Qed.

(** The least size of class [i] *)
Definition class_lo (i : Z) : Z := (16 + i mod 16) * 2 ^ (i / 16 + 2).

(** The class of a size, as [mapping_insert] computes it *)
Definition class_of (z : Z) : Z := let '(fi, si) := mapping_insert z in idx fi si.

(** The first class [mapping_search] admits for a request *)
Definition class_for (z : Z) : Z := let '(fi, si) := mapping_search z in idx fi si.

(** Both levels of a size in closed form. *)
Lemma mapping_insert_eq z :
  64 <= z < 2 ^ 64 ->
  mapping_insert z = (Z.log2 z - 6, z / 2 ^ (Z.log2 z - 4) - 16) /\
  16 <= z / 2 ^ (Z.log2 z - 4) < 32 /\ 6 <= Z.log2 z < 64.
Proof.
  intros Hz. assert (Hl : 6 <= Z.log2 z < 64).
  { split; [apply (Z.log2_le_mono 64); lia|apply Z.log2_lt_pow2; lia]. }
  pose proof (Z.log2_spec z ltac:(lia)) as [Hlo Hhi].
  assert (Hp : 0 < 2 ^ (Z.log2 z - 4)) by (apply pow2_gt0; lia).
  assert (E : 2 ^ Z.log2 z = 16 * 2 ^ (Z.log2 z - 4)).
  { change 16 with (2 ^ 4). rewrite <- Z.pow_add_r by lia. f_equal. lia. }
  rewrite Z.pow_succ_r in Hhi by lia.
  assert (Hq : 16 <= z / 2 ^ (Z.log2 z - 4) < 32).
  { split; [apply Z.div_le_lower_bound; lia|apply Z.div_lt_upper_bound; lia]. }
  split; [|done]. unfold mapping_insert, fls64, __fl_shift, __sl_log2. rewrite clzll_pos by lia.
  replace (63 - (63 - Z.log2 z)) with (Z.log2 z) by lia. f_equal.
  change (__sl_count - 1) with (2 ^ 4 - 1). rewrite Z.shiftr_div_pow2, land_mask by lia.
  change (2 ^ 4) with 16. symmetry. apply (Z.mod_unique_pos _ _ 1); lia.
Qed.

(** Where the class of a size starts and ends. *)
Lemma class_of_ends z :
  64 <= z < 2 ^ 64 ->
  let e := Z.log2 z - 4 in let q := z / 2 ^ e in
  class_lo (class_of z) = q * 2 ^ e /\ class_lo (class_of z + 1) = (q + 1) * 2 ^ e /\
  class_of z = (Z.log2 z - 6) * 16 + (q - 16).
Proof.
  intros Hz e q. destruct (mapping_insert_eq z Hz) as (E & Hq & Hl). fold e in E, Hq. fold q in E, Hq.
  assert (Ec : class_of z = (Z.log2 z - 6) * 16 + (q - 16)) by (unfold class_of; by rewrite E).
  rewrite Ec. assert (He : Z.log2 z - 6 + 2 = e) by (subst e; lia). unfold class_lo. split_and!; [| |done].
  - rewrite (Z.add_comm (_ * 16)), Z.mod_add, Z.div_add by lia.
    rewrite (Z.mod_small (q - 16)), (Z.div_small (q - 16)) by lia. rewrite Z.add_0_l, He. lia.
  - destruct (Z.eq_dec q 31) as [Eq|Hne].
    + replace ((Z.log2 z - 6) * 16 + (q - 16) + 1) with ((Z.log2 z - 5) * 16) by lia.
      rewrite Z.mod_mul, Z.div_mul, Eq by lia. replace (Z.log2 z - 5 + 2) with (e + 1) by (subst e; lia).
      rewrite Z.pow_add_r by (subst e; lia). lia.
    + replace ((Z.log2 z - 6) * 16 + (q - 16) + 1) with (q - 15 + (Z.log2 z - 6) * 16) by lia.
      rewrite Z.mod_add, Z.div_add by lia.
      rewrite (Z.mod_small (q - 15)), (Z.div_small (q - 15)) by lia. rewrite Z.add_0_l, He. lia.
Qed.

Lemma class_of_bounds z :
  64 <= z < 2 ^ 64 ->
  let i := class_of z in
  class_lo i <= z < class_lo (i + 1) /\ 0 <= i < 928.
Proof.
  intros Hz i. destruct (mapping_insert_eq z Hz) as (_ & Hq & Hl).
  destruct (class_of_ends z Hz) as (Hlo & Hhi & Ec). subst i. rewrite Hlo, Hhi, Ec.
  set (e := Z.log2 z - 4) in *. assert (Hp : 0 < 2 ^ e) by (apply pow2_gt0; lia).
  pose proof (Z.div_mod z (2 ^ e) ltac:(lia)) as Hdm. pose proof (Z.mod_pos_bound z (2 ^ e) Hp).
  split; [nia|lia].
Qed.

Lemma class_lo_step i : 0 <= i -> class_lo i < class_lo (i + 1).
Proof.
  intros Hi. pose proof (Z.div_mod i 16 ltac:(lia)) as Hdm.
  pose proof (Z.mod_pos_bound i 16 ltac:(lia)) as Hm.
  assert (0 <= i / 16) by (apply Z.div_pos; lia).
  assert (Hp : 0 < 2 ^ (i / 16 + 2)) by (apply pow2_gt0; lia).
  unfold class_lo. destruct (Z.eq_dec (i mod 16) 15) as [E|Hne].
  - replace (i + 1) with ((i / 16 + 1) * 16) by lia. rewrite Z.mod_mul, Z.div_mul, E by lia.
    replace (i / 16 + 1 + 2) with (i / 16 + 2 + 1) by lia. rewrite (Z.pow_add_r 2 _ 1) by lia. lia.
  - assert (E1 : (i + 1) mod 16 = i mod 16 + 1)
      by (symmetry; apply (Z.mod_unique_pos _ _ (i / 16)); lia).
    assert (E2 : (i + 1) / 16 = i / 16)
      by (symmetry; apply (Z.div_unique_pos _ _ _ (i mod 16 + 1)); lia).
    rewrite E1, E2. nia.
Qed.

Lemma class_lo_mono i j : 0 <= i <= j -> class_lo i <= class_lo j.
Proof.
  intros Hij. replace j with (i + Z.of_nat (Z.to_nat (j - i))) by lia.
  induction (Z.to_nat (j - i)) as [|n IH]; [rewrite Z.add_0_r; lia|].
  pose proof (class_lo_step (i + Z.of_nat n) ltac:(lia)).
  replace (i + Z.of_nat (S n)) with (i + Z.of_nat n + 1) by lia. lia.
Qed.

(** Larger blocks are in larger classes, and classes compare like sizes. *)
Lemma class_of_mono z z' : 64 <= z -> z <= z' < 2 ^ 64 -> class_of z <= class_of z'.
Proof.
  intros Hz Hz'. destruct (class_of_bounds z ltac:(lia)) as [Hb Hi].
  destruct (class_of_bounds z' ltac:(lia)) as [Hb' Hi'].
  destruct (Z.le_gt_cases (class_of z) (class_of z')) as [|Hgt]; [done|].
  pose proof (class_lo_mono (class_of z' + 1) (class_of z) ltac:(lia)). lia.
Qed.

Lemma class_of_ge z i : 64 <= z < 2 ^ 64 -> 0 <= i <= class_of z -> class_lo i <= z.
Proof.
  intros Hz Hi. destruct (class_of_bounds z Hz) as [Hb _].
  pose proof (class_lo_mono i (class_of z) Hi). lia.
Qed.

Lemma class_of_lt z i : 64 <= z < 2 ^ 64 -> class_of z < i -> z < class_lo i.
Proof.
  intros Hz Hi. destruct (class_of_bounds z Hz) as [Hb Hi'].
  pose proof (class_lo_mono (class_of z + 1) i ltac:(lia)). lia.
Qed.

(** The search class rounds the request up by less than a sixteenth. *)
Lemma class_for_bounds z :
  64 <= z <= 2 ^ 63 ->
  let i := class_for z in
  z <= class_lo i /\ class_lo i < z + z / 16 + 1 /\ 0 <= i < 928 /\
  i = class_of (z + (2 ^ (Z.log2 z - 4) - 1)) /\
  mapping_search z = mapping_insert (z + (2 ^ (Z.log2 z - 4) - 1)) /\
  z + (2 ^ (Z.log2 z - 4) - 1) < 2 ^ 64.
Proof.
  intros Hz i. assert (Hl : 6 <= Z.log2 z < 64).
  { split; [apply (Z.log2_le_mono 64); lia|apply Z.log2_lt_pow2; lia]. }
  pose proof (Z.log2_spec z ltac:(lia)) as [Hlo Hhi].
  assert (Hp : 0 < 2 ^ (Z.log2 z - 4)) by (apply pow2_gt0; lia).
  assert (E : 2 ^ Z.log2 z = 16 * 2 ^ (Z.log2 z - 4)).
  { change 16 with (2 ^ 4). rewrite <- Z.pow_add_r by lia. f_equal. lia. }
  rewrite Z.pow_succ_r in Hhi by lia.
  set (e := Z.log2 z - 4) in *. set (w := z + (2 ^ e - 1)).
  assert (Hw : 64 <= w < 2 ^ 64) by (subst w; lia).
  assert (Em : mapping_search z = mapping_insert w).
  { unfold mapping_search. assert (Ef : fls64 z - __sl_log2 = e).
    { unfold fls64. rewrite (clzll_pos z) by lia. subst e. unfold __sl_log2. lia. }
    rewrite Ef, Z.shiftl_1_l. fold w. rewrite (u64_small w) by lia. done. }
  assert (Ei : i = class_of w) by (subst i; unfold class_for, class_of; by rewrite Em).
  destruct (class_of_bounds w Hw) as [Hb Hi]. rewrite <- Ei in Hb, Hi.
  assert (He : 2 ^ e <= z / 16) by (apply Z.div_le_lower_bound; lia).
  split_and!; try done; try lia; try (subst w; lia).
  (* the floor of [w] in its class is at least [z] *)
  destruct (mapping_insert_eq w Hw) as (_ & Hq & Hlw). destruct (class_of_ends w Hw) as (El & _).
  rewrite Ei, El. set (q := w / 2 ^ (Z.log2 w - 4)) in *.
  assert (Hpw : 0 < 2 ^ (Z.log2 w - 4)) by (apply pow2_gt0; lia).
  pose proof (Z.div_mod w (2 ^ (Z.log2 w - 4)) ltac:(lia)) as Hdm. fold q in Hdm.
  pose proof (Z.mod_pos_bound w (2 ^ (Z.log2 w - 4)) Hpw).
  assert (Hcase : Z.log2 w = Z.log2 z \/ Z.log2 w = Z.log2 z + 1).
  { pose proof (Z.log2_le_mono z w ltac:(lia)).
    assert (Z.log2 w < Z.log2 z + 2); [|lia]. apply Z.log2_lt_pow2; [lia|].
    replace (2 ^ (Z.log2 z + 2)) with (4 * 2 ^ Z.log2 z) by (rewrite Z.pow_add_r by lia; lia). lia. }
  destruct Hcase as [Ec|Ec].
  - rewrite Ec in *. fold e in Hdm, H |- *. nia.
  - pose proof (Z.log2_spec w ltac:(lia)) as [Hwlo _]. rewrite Ec in Hwlo.
    rewrite Z.pow_add_r in Hwlo by lia.
    assert (2 ^ Z.log2 w = 16 * 2 ^ (Z.log2 w - 4)) as E2.
    { change 16 with (2 ^ 4). rewrite <- Z.pow_add_r by lia. f_equal. lia. }
    rewrite Ec, Z.pow_add_r in E2 by lia. rewrite Ec in *. nia.
Qed.

(** Every block of a class at or above the search class satisfies the request. *)
Lemma class_for_enough z z' :
  64 <= z <= 2 ^ 63 -> 64 <= z' < 2 ^ 64 -> class_for z <= class_of z' -> z <= z'.
Proof.
  intros Hz Hz' Hle. destruct (class_for_bounds z Hz) as (Hb & _ & Hi & _).
  pose proof (class_of_ge z' (class_for z) Hz' ltac:(lia)). lia.
Qed.

(** The width of a class is a sixteenth of its power of two. *)
Lemma class_width z :
  64 <= z < 2 ^ 63 -> class_lo (class_of z + 1) = class_lo (class_of z) + 2 ^ (Z.log2 z - 4).
Proof. intros Hz. destruct (class_of_ends z ltac:(lia)) as (-> & -> & _). lia. Qed.

(** The search class is the least one all of whose blocks are large enough. *)
Lemma class_for_least z :
  64 <= z < 2 ^ 62 -> class_for z = 0 \/ class_lo (class_for z - 1) < z.
Proof.
  intros Hz. destruct (class_for_bounds z ltac:(lia)) as (_ & _ & Hi & Ei & _ & Hw).
  destruct (class_of_bounds z ltac:(lia)) as [Hb Hj].
  assert (Hl : 6 <= Z.log2 z) by (apply (Z.log2_le_mono 64); lia).
  assert (Hp : 0 < 2 ^ (Z.log2 z - 4)) by (apply pow2_gt0; lia).
  pose proof (Z.log2_spec z ltac:(lia)) as [Hlo _].
  assert (E : 2 ^ Z.log2 z = 16 * 2 ^ (Z.log2 z - 4)).
  { change 16 with (2 ^ 4). rewrite <- Z.pow_add_r by lia. f_equal. lia. }
  set (e := Z.log2 z - 4) in *. set (w := z + (2 ^ e - 1)) in *. set (j := class_of z) in *.
  pose proof (class_width z ltac:(lia)) as Hwid. fold j e in Hwid.
  destruct (Z.eq_dec (class_for z) 0) as [|Hne]; [by left|right].
  destruct (Z.le_gt_cases (class_for z) j) as [Hle|Hgt].
  { pose proof (class_lo_step (class_for z - 1) ltac:(lia)).
    pose proof (class_lo_mono (class_for z - 1 + 1) j ltac:(lia)). lia. }
  (* the sizes of class [j + 1] reach further than [w] *)
  assert (Hlt : class_for z <= j + 1).
  { destruct (Z.le_gt_cases (class_for z) (j + 1)) as [|Hgt2]; [done|exfalso].
    assert (Hc : class_lo (j + 2) <= w).
    { rewrite Ei in Hgt2. apply class_of_ge; lia. }
    set (y := class_lo (j + 1)) in *.
    assert (Hy : 64 <= y < 2 ^ 63) by lia.
    destruct (class_of_bounds y ltac:(lia)) as [[Hy1 Hy2] Hy3].
    assert (Ey : class_of y = j + 1).
    { destruct (Z.lt_trichotomy (class_of y) (j + 1)) as [H|[H|H]]; [exfalso|done|exfalso].
      - pose proof (class_lo_mono (class_of y + 1) (j + 1) ltac:(lia)). subst y. lia.
      - pose proof (class_lo_mono (j + 1 + 1) (class_of y) ltac:(lia)).
        pose proof (class_lo_step (j + 1) ltac:(lia)). subst y. lia. }
    pose proof (class_width y Hy) as Hwid2. rewrite Ey in Hwid2. replace (j + 1 + 1) with (j + 2) in Hwid2 by lia.
    assert (2 ^ e <= 2 ^ (Z.log2 y - 4)).
    { apply Z.pow_le_mono_r; [lia|]. subst e. pose proof (Z.log2_le_mono z y ltac:(lia)). lia. }
    subst y. lia. }
  assert (Ej : class_for z = j + 1) by lia. rewrite Ej. replace (j + 1 - 1) with j by lia.
  destruct (Z.eq_dec (class_lo j) z) as [Ez|]; [exfalso|lia].
  assert (Hc : class_lo (j + 1) <= w) by (rewrite <- Ej, Ei; apply class_of_bounds; lia).
  lia.
Qed.
