(* ===== verification/TlsfInv.v ===== *)
(** * The representation invariant of the two-level segregated fit list

    The ghost state of a pool is the map [B] from block addresses to size and
    use.  [inv s B] relates it to the headers, lists and bitmaps of [Tlsf];
    the steps the operations are made of (unlink, insert, cut, join) preserve
    it. *)

From S2P Require Import Prelude.
From S2P Require Import Intrusive.
From S2P Require Import Config.
From S2P Require Import Tlsf.
From S2P Require Import TlsfClass.

(** What a block is used for; [THole] is a block in transit. *)
Inductive tkind := TFree | TAlloc (temporal : bool) | TTomb | THole.

#[export] Instance tkind_eq_dec : EqDecision tkind.
Proof. solve_decision. Defined.

Abbreviation pblocks := (gmap Z (Z * tkind)).

(** ** Physical tilings *)

Record ptile (lo hi : Z) (B : pblocks) : Prop := {
  pt_range a z k : B !! a = Some (z, k) ->
    lo <= a /\ 64 <= z /\ (32 | z) /\ (32 | a - lo) /\ a + z <= hi;
  pt_disj a z k a' z' k' : B !! a = Some (z, k) -> B !! a' = Some (z', k') ->
    a <> a' -> a + z <= a' \/ a' + z' <= a;
  pt_cover j : lo <= j < hi -> exists a z k, B !! a = Some (z, k) /\ a <= j < a + z
}.

Section Ptile.
Context {lo hi : Z} {B : pblocks} (HT : ptile lo hi B).

(** A block ends where the region ends or where a block starts. *)
Lemma pt_next a z k : B !! a = Some (z, k) ->
  a + z = hi \/ exists z' k', B !! (a + z) = Some (z', k').
Proof.
  intros Ha. destruct (pt_range _ _ _ HT _ _ _ Ha) as (? & ? & _ & _ & ?).
  destruct (Z.eq_dec (a + z) hi) as [|Hne]; [by left|right].
  destruct (pt_cover _ _ _ HT (a + z)) as (b & zb & kb & Hb & Hr); [lia|].
  destruct (Z.eq_dec a b) as [->|Hab]; [rewrite Ha in Hb; simplify_eq; lia|].
  destruct (pt_disj _ _ _ HT _ _ _ _ _ _ Ha Hb Hab); [|lia].
  assert (a + z = b) as -> by lia. eauto.
Qed.

Lemma pt_prev a z k : B !! a = Some (z, k) ->
  a = lo \/ exists p zp kp, B !! p = Some (zp, kp) /\ p + zp = a.
Proof.
  intros Ha. destruct (pt_range _ _ _ HT _ _ _ Ha) as (? & ? & _ & _ & ?).
  destruct (Z.eq_dec a lo) as [|Hne]; [by left|right].
  destruct (pt_cover _ _ _ HT (a - 1)) as (b & zb & kb & Hb & Hr); [lia|].
  destruct (Z.eq_dec a b) as [->|Hab]; [lia|].
  exists b, zb, kb. split; [done|]. destruct (pt_disj _ _ _ HT _ _ _ _ _ _ Ha Hb Hab); lia.
Qed.

Lemma pt_end_inj a z k a' z' k' : B !! a = Some (z, k) -> B !! a' = Some (z', k') ->
  a + z = a' + z' -> a = a'.
Proof.
  intros Ha Ha' E. destruct (Z.eq_dec a a') as [|Hne]; [done|].
  destruct (pt_range _ _ _ HT _ _ _ Ha), (pt_range _ _ _ HT _ _ _ Ha').
  destruct (pt_disj _ _ _ HT _ _ _ _ _ _ Ha Ha' Hne); lia.
Qed.

Lemma pt_interior a z k j : B !! a = Some (z, k) -> a < j < a + z -> B !! j = None.
Proof.
  intros Ha Hj. destruct (B !! j) as [[zj kj]|] eqn:E; [|done].
  destruct (pt_range _ _ _ HT _ _ _ E) as (_ & ? & _).
  destruct (pt_disj _ _ _ HT _ _ _ _ _ _ Ha E); lia.
Qed.

Lemma ptile_recolor a z k k' : B !! a = Some (z, k) -> ptile lo hi (<[a := (z, k')]> B).
Proof.
  intros Ha.
  assert (Hlk : forall j zj kj, <[a := (z, k')]> B !! j = Some (zj, kj) ->
    exists kj', B !! j = Some (zj, kj')).
  { intros j zj kj Hj. destruct (Z.eq_dec a j) as [<-|].
    - rewrite lookup_insert_eq in Hj. simplify_eq. eauto.
    - rewrite lookup_insert_ne in Hj by done. eauto. }
  split.
  - intros j zj kj Hj. destruct (Hlk _ _ _ Hj) as [kj' Hj']. by apply (pt_range _ _ _ HT _ _ _ Hj').
  - intros j1 z1 k1 j2 z2 k2 H1 H2. destruct (Hlk _ _ _ H1) as [? H1'], (Hlk _ _ _ H2) as [? H2'].
    by apply (pt_disj _ _ _ HT _ _ _ _ _ _ H1' H2').
  - intros j Hj. destruct (pt_cover _ _ _ HT j Hj) as (b & zb & kb & Hb & Hr).
    destruct (Z.eq_dec a b) as [<-|].
    + exists a, z, k'. rewrite lookup_insert_eq. rewrite Ha in Hb. simplify_eq. done.
    + exists b, zb, kb. by rewrite lookup_insert_ne.
Qed.

Lemma ptile_split a z k n k1 k2 :
  B !! a = Some (z, k) -> 64 <= n -> 64 <= z - n -> (32 | n) ->
  ptile lo hi (<[a := (n, k1)]> (<[a + n := (z - n, k2)]> B)) /\ B !! (a + n) = None.
Proof.
  intros Ha Hn Hz Hdn. destruct (pt_range _ _ _ HT _ _ _ Ha) as (Hlo & Hz64 & Hdz & Hda & Hhi).
  assert (Hnone : B !! (a + n) = None) by (apply (pt_interior _ _ _ _ Ha); lia).
  assert (Hlk : forall j zj kj, <[a := (n, k1)]> (<[a + n := (z - n, k2)]> B) !! j = Some (zj, kj) ->
    (j = a /\ zj = n) \/ (j = a + n /\ zj = z - n) \/
    (B !! j = Some (zj, kj) /\ (j + zj <= a \/ a + z <= j))).
  { intros j zj kj Hj. destruct (Z.eq_dec a j) as [<-|H1].
    { rewrite lookup_insert_eq in Hj. simplify_eq. auto. }
    rewrite lookup_insert_ne in Hj by done. destruct (Z.eq_dec (a + n) j) as [<-|H2].
    { rewrite lookup_insert_eq in Hj. simplify_eq. auto. }
    rewrite lookup_insert_ne in Hj by done. right; right. split; [done|].
    destruct (pt_disj _ _ _ HT _ _ _ _ _ _ Ha Hj H1); auto. }
  split; [|done]. split.
  - intros j zj kj Hj. destruct (Hlk _ _ _ Hj) as [[-> ->]|[[-> ->]|[Hb _]]].
    + split_and!; done || lia.
    + split_and!; try lia; [by apply Z.divide_sub_r|].
      replace (a + n - lo) with (a - lo + n) by lia. by apply Z.divide_add_r.
    + by apply (pt_range _ _ _ HT _ _ _ Hb).
  - intros j1 z1 q1 j2 z2 q2 H1 H2 Hne.
    destruct (Hlk _ _ _ H1) as [[-> ->]|[[-> ->]|[Hb1 ?]]],
      (Hlk _ _ _ H2) as [[-> ->]|[[-> ->]|[Hb2 ?]]]; try lia.
    by apply (pt_disj _ _ _ HT _ _ _ _ _ _ Hb1 Hb2).
  - intros j Hj. destruct (pt_cover _ _ _ HT j Hj) as (b & zb & kb & Hb & Hr).
    destruct (Z.eq_dec a b) as [<-|Hab].
    + rewrite Ha in Hb. simplify_eq. destruct (Z.lt_ge_cases j (a + n)).
      * exists a, n, k1. rewrite lookup_insert_eq. split; [done|lia].
      * exists (a + n), (zb - n), k2. rewrite lookup_insert_ne, lookup_insert_eq by lia.
        split; [done|lia].
    + exists b, zb, kb. rewrite !lookup_insert_ne; [done| |done]. intros <-. congruence.
Qed.

Lemma ptile_join a z k z' k' kk :
  B !! a = Some (z, k) -> B !! (a + z) = Some (z', k') ->
  ptile lo hi (<[a := (z + z', kk)]> (delete (a + z) B)).
Proof.
  intros Ha Hb. destruct (pt_range _ _ _ HT _ _ _ Ha) as (Hlo & Hz64 & Hdz & Hda & Hhi).
  destruct (pt_range _ _ _ HT _ _ _ Hb) as (_ & Hz64' & Hdz' & _ & Hhi').
  assert (Hlk : forall j zj kj, <[a := (z + z', kk)]> (delete (a + z) B) !! j = Some (zj, kj) ->
    (j = a /\ zj = z + z') \/ (B !! j = Some (zj, kj) /\ (j + zj <= a \/ a + z + z' <= j))).
  { intros j zj kj Hj. destruct (Z.eq_dec a j) as [<-|H1].
    { rewrite lookup_insert_eq in Hj. simplify_eq. auto. }
    rewrite lookup_insert_ne in Hj by done. apply lookup_delete_Some in Hj as [H2 Hj].
    right. split; [done|]. destruct (pt_range _ _ _ HT _ _ _ Hj) as (_ & ? & _).
    destruct (pt_disj _ _ _ HT _ _ _ _ _ _ Ha Hj H1); [|auto].
    destruct (pt_disj _ _ _ HT _ _ _ _ _ _ Hb Hj H2); [auto|lia]. }
  split.
  - intros j zj kj Hj. destruct (Hlk _ _ _ Hj) as [[-> ->]|[Hbj _]].
    + split_and!; try lia; [by apply Z.divide_add_r|done].
    + by apply (pt_range _ _ _ HT _ _ _ Hbj).
  - intros j1 z1 q1 j2 z2 q2 H1 H2 Hne.
    destruct (Hlk _ _ _ H1) as [[-> ->]|[Hb1 ?]], (Hlk _ _ _ H2) as [[-> ->]|[Hb2 ?]]; try lia.
    by apply (pt_disj _ _ _ HT _ _ _ _ _ _ Hb1 Hb2).
  - intros j Hj. destruct (pt_cover _ _ _ HT j Hj) as (b & zb & kb & Hbb & Hr).
    destruct (Z.eq_dec a b) as [<-|Hab]; [|destruct (Z.eq_dec (a + z) b) as [<-|Hab2]].
    + exists a, (z + z'), kk. rewrite lookup_insert_eq. rewrite Ha in Hbb. simplify_eq. split; [done|lia].
    + exists a, (z + z'), kk. rewrite lookup_insert_eq. rewrite Hb in Hbb. simplify_eq. split; [done|lia].
    + exists b, zb, kb. rewrite lookup_insert_ne, lookup_delete_ne by done. done.
Qed.
End Ptile.

(** ** The invariant *)

Definition lo (s : tlsf) : Z := base s + __block_align.
Definition hi (s : tlsf) : Z := base s + __block_align + total s.

Record geometry (s : tlsf) : Prop := {
  g_base : 0 < base s;
  g_align : (32 | base s);
  g_total : 64 <= total s < 2 ^ 32;
  g_end : hi s + 32 < 2 ^ 64;
  g_fl : fl_count s = Z.log2 (total s) - 5
}.

Definition tflags (k : tkind) : option Z :=
  match k with
  | TFree => Some __block_free
  | TAlloc false => Some __block_alloc
  | TAlloc true => Some (Z.lor __block_alloc __block_temporal)
  | TTomb => Some __block_tombstone
  | THole => None
  end.

(** The free blocks of class [i] *)
Definition free_at (B : pblocks) (i a : Z) : Prop :=
  exists z, B !! a = Some (z, TFree) /\ class_of z = i.

(** The bitmaps say which lists are not empty. *)
Record bits_ok (h sl : zmap) (fl : Z) : Prop := {
  bo_sl fi : 0 <= rd sl fi < 2 ^ 16;
  bo_slbit fi si : 0 <= si < 16 -> Z.testbit (rd sl fi) si = negb (rd h (idx fi si) =? 0);
  bo_fl : 0 <= fl < 2 ^ 32;
  bo_flbit fi : 0 <= fi -> Z.testbit fl fi = negb (rd sl fi =? 0)
}.

Record inv (s : tlsf) (B : pblocks) : Prop := {
  i_geo : geometry s;
  i_til : ptile (lo s) (hi s) B;
  i_size a z k : B !! a = Some (z, k) -> bsize s a = z;
  i_flags a z k f : B !! a = Some (z, k) -> tflags k = Some f -> flags s a = f;
  i_back a z k : B !! a = Some (z, k) -> k <> THole -> prev_phys s (a + z) = a;
  i_first : prev_phys s (lo s) = base s;
  i_ss : flags s (base s) = __block_alloc;
  i_es : flags s (hi s) = __block_alloc;
  i_free i : dlist (mem s) 16 24 (rd (heads s) i) (free_at B i);
  i_bits : bits_ok (heads s) (sl_bitmap s) (fl_bitmap s);
  i_ssize : bsize s (base s) = __block_align;
  i_esize : bsize s (hi s) = __block_align
}.

(** ** Facts about blocks *)

Section Facts.
Context {s : tlsf} {B : pblocks} (HI : inv s B).

Lemma tlsf_blk_range a z k : B !! a = Some (z, k) ->
  lo s <= a /\ 64 <= z /\ (32 | z) /\ (32 | a) /\ a + z <= hi s /\ z <= total s /\ 0 < a /\
  z < 2 ^ 32 /\ 0 <= class_of z < fl_count s * 16.
Proof.
  intros Ha. destruct (pt_range _ _ _ (i_til _ _ HI) _ _ _ Ha) as (? & ? & ? & Hd & ?).
  destruct (i_geo _ _ HI) as [? Hal ? ? Hfl]. unfold lo, hi in *. change __block_align with 32 in *.
  assert (Hz : z <= total s) by lia.
  split_and!; try done; try lia.
  - replace a with (a - (base s + 32) + (base s + 32)) by lia. apply Z.divide_add_r; [done|].
    apply Z.divide_add_r; [done|apply Z.divide_refl].
  - apply class_of_bounds. lia.
  - destruct (mapping_insert_eq z ltac:(lia)) as (E & Hq & Hl). unfold class_of. rewrite E.
    unfold idx. change __sl_count with 16. pose proof (Z.log2_le_mono z (total s) Hz). lia.
Qed.

Lemma blk_class a z k : B !! a = Some (z, k) ->
  exists fi si, mapping_insert z = (fi, si) /\ 0 <= fi < fl_count s /\ 0 <= si < 16 /\
    class_of z = idx fi si.
Proof.
  intros Ha. destruct (tlsf_blk_range _ _ _ Ha) as (_ & ? & _ & _ & _ & Hz & _ & ? & _).
  destruct (mapping_insert_eq z ltac:(lia)) as (E & Hq & Hl).
  exists (Z.log2 z - 6), (z / 2 ^ (Z.log2 z - 4) - 16). split; [done|].
  pose proof (Z.log2_le_mono z (total s) Hz). destruct (i_geo _ _ HI) as [? ? ? ? ->].
  split; [lia|]. split; [lia|]. unfold class_of. by rewrite E.
Qed.

Lemma fl_count_le : 1 <= fl_count s <= 26.
Proof.
  destruct (i_geo _ _ HI) as [? ? Ht ? ->].
  assert (6 <= Z.log2 (total s) < 32); [|lia].
  split; [apply (Z.log2_le_mono 64); lia|apply Z.log2_lt_pow2; lia].
Qed.

(** The heads of the lists are free blocks of their class. *)
Lemma tlsf_free_head i : rd (heads s) i <> 0 ->
  exists z, B !! rd (heads s) i = Some (z, TFree) /\ class_of z = i /\
    prev_free s (rd (heads s) i) = 0.
Proof.
  intros Hne. destruct (dlist_head _ _ _ _ _ (i_free _ _ HI i) Hne) as [(z & Hz & Hi) Hb].
  by exists z.
Qed.

(** Cells of distinct blocks, or of a block and a sentinel, are distinct. *)
Lemma cell_ne a z k a' z' k' d d' :
  B !! a = Some (z, k) -> B !! a' = Some (z', k') -> a <> a' ->
  0 <= d < 32 -> 0 <= d' < 32 -> a + d <> a' + d'.
Proof.
  intros Ha Ha' Hne Hd Hd'. destruct (tlsf_blk_range _ _ _ Ha) as (_ & ? & _).
  destruct (tlsf_blk_range _ _ _ Ha') as (_ & ? & _).
  destruct (pt_disj _ _ _ (i_til _ _ HI) _ _ _ _ _ _ Ha Ha' Hne); lia.
Qed.
End Facts.

Lemma idx_inj fi si fi' si' :
  0 <= si < 16 -> 0 <= si' < 16 -> idx fi si = idx fi' si' -> fi = fi' /\ si = si'.
Proof. unfold idx. change __sl_count with 16. lia. Qed.

(** What steps on free memory leave alone *)
Definition in_use (k : tkind) : bool :=
  match k with TAlloc _ | TTomb => true | _ => false end.

Record quiet (B : pblocks) (s s' : tlsf) : Prop := {
  q_base : base s' = base s;
  q_total : total s' = total s;
  q_fl : fl_count s' = fl_count s;
  q_alloc : allocated_bytes s' = allocated_bytes s;
  q_tomb : tombstoned_bytes s' = tombstoned_bytes s;
  q_active : temporal_active s' = temporal_active s;
  q_rotor : temporal_rotor s' = temporal_rotor s;
  q_mem a z k c : B !! a = Some (z, k) -> in_use k = true -> a + 32 <= c < a + z ->
    rd (mem s') c = rd (mem s) c
}.

Definition same_use (B B' : pblocks) : Prop :=
  forall a z k, in_use k = true -> B !! a = Some (z, k) <-> B' !! a = Some (z, k).

#[export] Instance same_use_equiv : Equivalence same_use.
Proof.
  split.
  - by intros B a z k _.
  - intros B B' H a z k Hk. by rewrite (H a z k Hk).
  - intros B1 B2 B3 H1 H2 a z k Hk. by rewrite (H1 a z k Hk), (H2 a z k Hk).
Qed.

Lemma tlsf_quiet_refl B s : quiet B s s.
Proof. by split. Qed.

Lemma tlsf_quiet_trans B B' s1 s2 s3 :
  same_use B B' -> quiet B s1 s2 -> quiet B' s2 s3 -> quiet B s1 s3.
Proof.
  intros HB [] []. split; try congruence.
  intros a z k c Ha Hk Hc. rewrite <- (q_mem0 a z k c) by done.
  apply (q_mem1 a z k c); [by apply HB|done..].
Qed.

Lemma same_use_insert B a z k z' k' :
  in_use k = false -> in_use k' = false -> B !! a = Some (z, k) ->
  same_use B (<[a := (z', k')]> B).
Proof.
  intros Hk Hk' Ha j zj kj Hj. destruct (Z.eq_dec a j) as [<-|].
  - rewrite lookup_insert_eq, Ha. split; intros; simplify_eq; congruence.
  - by rewrite lookup_insert_ne.
Qed.

Lemma same_use_fresh B a z k :
  in_use k = false -> B !! a = None -> same_use B (<[a := (z, k)]> B).
Proof.
  intros Hk Ha j zj kj Hj. destruct (Z.eq_dec a j) as [<-|].
  - rewrite lookup_insert_eq, Ha. split; intros; simplify_eq; congruence.
  - by rewrite lookup_insert_ne.
Qed.

Lemma same_use_delete B a z k :
  in_use k = false -> B !! a = Some (z, k) -> same_use B (delete a B).
Proof.
  intros Hk Ha j zj kj Hj. destruct (Z.eq_dec a j) as [<-|].
  - rewrite lookup_delete_eq, Ha. split; intros; simplify_eq; congruence.
  - by rewrite lookup_delete_ne.
Qed.

(** ** The bitmaps *)

Lemma bits_set h sl fl fi si a :
  bits_ok h sl fl -> 0 <= fi < 32 -> 0 <= si < 16 -> a <> 0 ->
  bits_ok (wr h (idx fi si) a) (wr sl fi (bit_set (rd sl fi) si)) (bit_set fl fi).
Proof.
  intros [Hs Hsb Hf Hfb] Hfi Hsi Ha.
  assert (Hpos : forall x n i, 0 <= x < 2 ^ n -> 0 <= i < n -> bit_set x i <> 0).
  { intros x n i Hx Hi E. assert (Ht : Z.testbit (bit_set x i) i = true)
      by (rewrite testbit_bit_set, Z.eqb_refl, orb_true_r by lia; done).
    by rewrite E, Z.bits_0 in Ht. }
  split.
  - intros f. rewrite rd_wr. case_b; [|apply Hs]. apply bit_set_range; [apply Hs|lia].
  - intros f i Hi. rewrite !rd_wr. destruct (Z.eqb_spec fi f) as [<-|Hne].
    + rewrite testbit_bit_set, Hsb by lia.
      destruct (Z.eqb_spec (idx fi si) (idx fi i)) as [E|E]; destruct (Z.eqb_spec si i) as [->|Hn].
      * rewrite orb_true_r. by case_b.
      * apply idx_inj in E; lia.
      * done.
      * by rewrite orb_false_r.
    + rewrite Hsb by lia. destruct (Z.eqb_spec (idx fi si) (idx f i)) as [E|E]; [|done].
      apply idx_inj in E; lia.
  - apply bit_set_range; lia.
  - intros f Hf0. rewrite testbit_bit_set, rd_wr, Hfb by lia.
    destruct (Z.eqb_spec fi f) as [<-|]; [|by rewrite orb_false_r].
    rewrite orb_true_r. pose proof (Hpos (rd sl fi) 16 si (Hs fi) Hsi). by case_b.
Qed.

(** Replacing a head that was not null by its successor. *)
Definition sl_after (sl : zmap) (fi si n : Z) : zmap :=
  if n =? 0 then wr sl fi (bit_clr (rd sl fi) si) else sl.
Definition fl_after (sl : zmap) (fl fi si n : Z) : Z :=
  if (n =? 0) && (rd (sl_after sl fi si n) fi =? 0) then bit_clr fl fi else fl.

Lemma bits_clear h sl fl fi si n :
  bits_ok h sl fl -> 0 <= fi < 32 -> 0 <= si < 16 -> rd h (idx fi si) <> 0 ->
  bits_ok (wr h (idx fi si) n) (sl_after sl fi si n) (fl_after sl fl fi si n).
Proof.
  intros [Hs Hsb Hf Hfb] Hfi Hsi Hh. unfold fl_after, sl_after.
  destruct (Z.eqb_spec n 0) as [->|Hn]; cbn [andb].
  - rewrite rd_wr_eq. split.
    + intros f. rewrite rd_wr. case_b; [|apply Hs]. apply bit_clr_range; [apply Hs|lia|lia].
    + intros f i Hi. rewrite !rd_wr. destruct (Z.eqb_spec fi f) as [<-|Hne].
      * rewrite testbit_bit_clr, Hsb by lia.
        destruct (Z.eqb_spec (idx fi si) (idx fi i)) as [E|E]; destruct (Z.eqb_spec si i) as [->|Hn].
        -- by rewrite andb_false_r.
        -- apply idx_inj in E; lia.
        -- done.
        -- by rewrite andb_true_r.
      * rewrite Hsb by lia. destruct (Z.eqb_spec (idx fi si) (idx f i)) as [E|E]; [|done].
        apply idx_inj in E; lia.
    + destruct (_ =? 0); [apply bit_clr_range; lia|done].
    + intros f Hf0. rewrite rd_wr. destruct (Z.eqb_spec (bit_clr (rd sl fi) si) 0) as [E|E].
      * rewrite testbit_bit_clr, Hfb by lia. destruct (Z.eqb_spec fi f) as [<-|].
        -- by rewrite andb_false_r, E.
        -- by rewrite andb_true_r.
      * rewrite Hfb by lia. destruct (Z.eqb_spec fi f) as [<-|]; [|done].
        destruct (Z.eqb_spec (bit_clr (rd sl fi) si) 0), (Z.eqb_spec (rd sl fi) 0) as [E0|]; try done.
        exfalso. apply Hh. specialize (Hsb fi si Hsi). rewrite E0, Z.bits_0 in Hsb.
        revert Hsb. case_g; done.
  - split; try done. intros f i Hi. rewrite Hsb, rd_wr by lia.
    destruct (Z.eqb_spec (idx fi si) (idx f i)) as [E|E]; [|done].
    rewrite <- E. repeat case_g; done.
Qed.

(** ** A step that changes the use of one block *)

(** Where headers are *)
Definition hdr_place (s : tlsf) (B : pblocks) (b : Z) : Prop :=
  (exists z k, B !! b = Some (z, k)) \/ b = base s \/ b = hi s.

Lemma hdr_place_end s B a z k : inv s B -> B !! a = Some (z, k) -> hdr_place s B (a + z).
Proof.
  intros HI Ha. destruct (pt_next (i_til _ _ HI) a z k Ha) as [->|Hn]; [by right; right|by left].
Qed.

(** Header cells at distinct places are distinct. *)
Lemma place_ne s B a z k b d d' :
  inv s B -> B !! a = Some (z, k) -> hdr_place s B b -> b <> a ->
  0 <= d < 32 -> 0 <= d' < 32 -> a + d <> b + d'.
Proof.
  intros HI Ha Hb Hne Hd Hd'. destruct (tlsf_blk_range HI _ _ _ Ha) as (Hlo & ? & _ & _ & Hhi & _).
  destruct Hb as [(zb & kb & Hb)|[-> | ->]].
  - apply (cell_ne HI a z k b zb kb); auto.
  - unfold lo in Hlo. change __block_align with 32 in Hlo. lia.
  - lia.
Qed.

(** The headers are kept, but for the links and for the flags of [a]. *)
Definition hdrs_kept (s s' : tlsf) (B : pblocks) (a : Z) : Prop :=
  forall b d, hdr_place s B b -> d = 0 \/ d = 8 \/ (d = 4 /\ b <> a) ->
    rd (mem s') (b + d) = rd (mem s) (b + d).

Lemma free_at_other B a z k k' i x :
  B !! a = Some (z, k) -> class_of z <> i ->
  free_at B i x <-> free_at (<[a := (z, k')]> B) i x.
Proof.
  intros Ha Hi. split; intros (zx & Hx & Hc); exists zx; (split; [|done]).
  - rewrite lookup_insert_ne; [done|]. intros <-. congruence.
  - destruct (Z.eq_dec a x) as [<-|Hne]; [|by rewrite lookup_insert_ne in Hx].
    rewrite lookup_insert_eq in Hx. congruence.
Qed.

Lemma tlsf_inv_update s s' B a z k k' :
  inv s B -> B !! a = Some (z, k) ->
  base s' = base s -> total s' = total s -> fl_count s' = fl_count s ->
  hdrs_kept s s' B a ->
  (forall f, tflags k' = Some f -> flags s' a = f) ->
  (k' <> THole -> prev_phys s (a + z) = a) ->
  (forall i, i <> class_of z -> rd (heads s') i = rd (heads s) i) ->
  (forall b zb, B !! b = Some (zb, TFree) -> class_of zb <> class_of z ->
     rd (mem s') (b + 16) = rd (mem s) (b + 16) /\ rd (mem s') (b + 24) = rd (mem s) (b + 24)) ->
  dlist (mem s') 16 24 (rd (heads s') (class_of z)) (free_at (<[a := (z, k')]> B) (class_of z)) ->
  bits_ok (heads s') (sl_bitmap s') (fl_bitmap s') ->
  inv s' (<[a := (z, k')]> B).
Proof.
  intros HI Ha Eb Et Ef Hk Hfl Hback Hheads Hlinks Hdl Hbits.
  assert (Elo : lo s' = lo s) by (unfold lo; by rewrite Eb).
  assert (Ehi : hi s' = hi s) by (unfold hi; by rewrite Eb, Et).
  assert (Hlk : forall j zj kj, <[a := (z, k')]> B !! j = Some (zj, kj) ->
    exists kj', B !! j = Some (zj, kj') /\ (j <> a -> kj' = kj)).
  { intros j zj kj Hj. destruct (Z.eq_dec a j) as [<-|].
    - rewrite lookup_insert_eq in Hj. simplify_eq. exists k. split; [done|]. by intros [].
    - rewrite lookup_insert_ne in Hj by done. by exists kj. }
  split.
  - destruct (i_geo _ _ HI). split; rewrite ?Eb, ?Et, ?Ehi, ?Ef; done.
  - rewrite Elo, Ehi. eapply ptile_recolor; [apply HI|done].
  - intros j zj kj Hj. destruct (Hlk _ _ _ Hj) as (kj' & Hj' & _). unfold bsize.
    rewrite Hk; [by apply (i_size _ _ HI j zj kj')|left; eauto|auto].
  - intros j zj kj f Hj Hf. destruct (Z.eq_dec a j) as [<-|Hne].
    + rewrite lookup_insert_eq in Hj. simplify_eq. by apply Hfl.
    + rewrite lookup_insert_ne in Hj by done. unfold flags.
      rewrite Hk; [by apply (i_flags _ _ HI j zj kj)|left; eauto|auto].
  - intros j zj kj Hj Hkj. destruct (Hlk _ _ _ Hj) as (kj' & Hj' & Hkk). unfold prev_phys.
    rewrite Hk; [|by apply (hdr_place_end s B j zj kj')|auto].
    destruct (Z.eq_dec j a) as [->|Hne].
    + rewrite lookup_insert_eq in Hj. simplify_eq.
      by apply Hback.
    + rewrite (Hkk Hne) in Hj'. by apply (i_back _ _ HI j zj kj).
  - rewrite Elo, Eb. unfold prev_phys. rewrite Hk; [apply HI| |auto].
    destruct (pt_cover _ _ _ (i_til _ _ HI) (lo s)) as (b & zb & kb & Hb & Hr).
    { destruct (i_geo _ _ HI). unfold lo, hi in *. lia. }
    destruct (pt_range _ _ _ (i_til _ _ HI) _ _ _ Hb) as (? & _).
    left. assert (lo s = b) as -> by lia. eauto.
  - rewrite Eb. unfold flags. rewrite Hk; [apply HI|by right; left|].
    right; right. split; [done|]. destruct (tlsf_blk_range HI _ _ _ Ha) as (Hl & _).
    unfold lo in Hl. change __block_align with 32 in Hl. lia.
  - rewrite Ehi. unfold flags. rewrite Hk; [apply HI|by right; right|].
    right; right. split; [done|]. destruct (tlsf_blk_range HI _ _ _ Ha) as (_ & ? & _ & _ & ? & _). lia.
  - intros i. destruct (Z.eq_dec i (class_of z)) as [->|Hne]; [done|].
    rewrite Hheads by done. eapply dlist_frame; [apply (i_free _ _ HI)| |].
    + intros x. eapply free_at_other; [exact Ha|congruence].
    + intros x (zx & Hx & Hc). apply (Hlinks x zx Hx). congruence.
  - done.
  - rewrite Eb. unfold bsize. rewrite Hk; [apply HI|by right; left|by left].
  - rewrite Ehi. unfold bsize. rewrite Hk; [apply HI|by right; right|by left].
Qed.

(** ** Putting a block on its list *)

Section Insert.
Context (s : tlsf) (B : pblocks) (a z : Z).
Context (HI : inv s B) (Ha : B !! a = Some (z, THole)) (Hb : prev_phys s (a + z) = a).

Local Abbreviation h := (rd (heads s) (class_of z)).
Local Abbreviation s' := (fl_insert s a).

Lemma insert_fields :
  exists fi si, 0 <= fi < 32 /\ 0 <= si < 16 /\ class_of z = idx fi si /\
  base s' = base s /\ total s' = total s /\ fl_count s' = fl_count s /\
  allocated_bytes s' = allocated_bytes s /\ tombstoned_bytes s' = tombstoned_bytes s /\
  temporal_active s' = temporal_active s /\ temporal_rotor s' = temporal_rotor s /\
  heads s' = wr (heads s) (class_of z) a /\
  sl_bitmap s' = wr (sl_bitmap s) fi (bit_set (rd (sl_bitmap s) fi) si) /\
  fl_bitmap s' = bit_set (fl_bitmap s) fi /\
  mem s' = wr (if h =? 0 then wr (wr (mem s) (a + 16) h) (a + 24) 0
               else wr (wr (wr (mem s) (a + 16) h) (a + 24) 0) (h + 24) a) (a + 4) __block_free.
Proof.
  destruct (blk_class HI _ _ _ Ha) as (fi & si & E & Hfi & Hsi & Ec).
  pose proof (fl_count_le HI). exists fi, si.
  unfold fl_insert. rewrite (i_size _ _ HI _ _ _ Ha), E, <- Ec.
  split; [lia|]. split; [lia|]. split; [done|]. destruct (Z.eqb_spec h 0); by repeat split.
Qed.

Lemma insert_rd c :
  c <> a + 4 -> c <> a + 16 -> c <> a + 24 -> (h <> 0 -> c <> h + 24) ->
  rd (mem s') c = rd (mem s) c.
Proof.
  intros H4 H16 H24 Hh. destruct insert_fields as (fi & si & _ & _ & _ & _ & _ & _ & _ & _ & _ & _ & _ & _ & _ & ->).
  rewrite rd_wr_ne by done. destruct (Z.eqb_spec h 0).
  - by rewrite !rd_wr_ne.
  - rewrite rd_wr_ne by (intros <-; by apply Hh). by rewrite !rd_wr_ne.
Qed.

Lemma insert_head_ne : h <> 0 -> exists zh, B !! h = Some (zh, TFree) /\ class_of zh = class_of z /\ h <> a.
Proof.
  intros Hh. destruct (tlsf_free_head HI _ Hh) as (zh & Hzh & Hc & _). exists zh.
  split; [done|]. split; [done|]. intros E. rewrite E in Hzh. congruence.
Qed.

Lemma insert_links :
  rd (mem s') (a + 16) = h /\ rd (mem s') (a + 24) = 0 /\
  (h <> 0 -> rd (mem s') (h + 24) = a) /\ flags s' a = __block_free.
Proof.
  destruct insert_fields as (fi & si & _ & _ & _ & _ & _ & _ & _ & _ & _ & _ & _ & _ & _ & Em).
  unfold flags. rewrite Em.
  assert (Hne : h <> 0 -> forall d d', 0 <= d < 32 -> 0 <= d' < 32 -> a + d <> h + d').
  { intros Hh d d' Hd Hd'. destruct (insert_head_ne Hh) as (zh & Hzh & _ & Hha).
    apply (cell_ne HI _ _ _ _ _ _ d d' Ha Hzh); [congruence|lia|lia]. }
  rewrite rd_wr_eq. destruct (Z.eqb_spec h 0) as [Hz|Hz].
  - rewrite !(rd_wr_ne _ (a + 4)) by lia. rewrite rd_wr_ne by lia. rewrite !rd_wr_eq. done.
  - pose proof (Hne Hz). rewrite !(rd_wr_ne _ (a + 4)) by (lia || (apply H; lia)).
    split; [|split; [|split; [intros _; apply rd_wr_eq|done]]].
    + rewrite (rd_wr_ne _ (h + 24)) by (intros E; symmetry in E; revert E; apply H; lia).
      rewrite rd_wr_ne by lia. apply rd_wr_eq.
    + rewrite (rd_wr_ne _ (h + 24)) by (intros E; symmetry in E; revert E; apply H; lia).
      apply rd_wr_eq.
Qed.

Lemma insert_hdrs : hdrs_kept s s' B a.
Proof.
  intros b d Hb' Hd. apply insert_rd.
  - destruct (Z.eq_dec b a) as [->|Hne]; [lia|].
    intros E. symmetry in E. revert E. apply (place_ne s B a z THole b); auto; lia.
  - destruct (Z.eq_dec b a) as [->|Hne]; [lia|].
    intros E. symmetry in E. revert E. apply (place_ne s B a z THole b); auto; lia.
  - destruct (Z.eq_dec b a) as [->|Hne]; [lia|].
    intros E. symmetry in E. revert E. apply (place_ne s B a z THole b); auto; lia.
  - intros Hh. destruct (insert_head_ne Hh) as (zh & Hzh & _).
    destruct (Z.eq_dec b h) as [->|Hne]; [lia|].
    intros E. symmetry in E. revert E. apply (place_ne s B h zh TFree b); auto; lia.
Qed.

Lemma insert_list : dlist (mem s') 16 24 a (free_at (<[a := (z, TFree)]> B) (class_of z)).
Proof.
  destruct insert_links as (H16 & H24 & Hh & _).
  eapply dlist_frame; [apply (dlist_push 16 24 (mem s) (mem s') h a (free_at B (class_of z)))| |done].
  - apply (i_free _ _ HI).
  - destruct (tlsf_blk_range HI _ _ _ Ha) as (_ & _ & _ & _ & _ & _ & ? & _). lia.
  - intros (z' & Hz' & _). congruence.
  - done.
  - done.
  - done.
  - intros x (zx & Hx & _). apply insert_rd; try (intros E; revert E;
      apply (cell_ne HI _ _ _ _ _ _ _ _ Hx Ha); [congruence|lia|lia]).
    intros Hh0. destruct (insert_head_ne Hh0) as (zh & Hzh & _).
    destruct (Z.eq_dec x h) as [->|Hne]; [lia|]. by apply (cell_ne HI _ _ _ _ _ _ _ _ Hx Hzh); lia || done.
  - intros x (zx & Hx & _) Hxh. apply insert_rd; try (intros E; revert E;
      apply (cell_ne HI _ _ _ _ _ _ _ _ Hx Ha); [congruence|lia|lia]).
    intros _. lia.
  - intros x. split.
    + intros [->|(zx & Hx & Hc)].
      * exists z. by rewrite lookup_insert_eq.
      * exists zx. split; [|done]. rewrite lookup_insert_ne; [done|]. intros <-. congruence.
    + intros (zx & Hx & Hc). destruct (Z.eq_dec a x) as [->|Hne]; [by left|].
      rewrite lookup_insert_ne in Hx by done. right. by exists zx.
Qed.

Lemma inv_fl_insert : inv s' (<[a := (z, TFree)]> B) /\ quiet B s s'.
Proof.
  destruct insert_fields as (fi & si & Hfi & Hsi & Ec & Eb & Et & Ef & Eal & Etb & Eac & Er & Eh & Esl & Efl & _).
  destruct (tlsf_blk_range HI _ _ _ Ha) as (_ & _ & _ & _ & _ & _ & Ha0 & _).
  pose proof insert_list as HL. destruct insert_links as (_ & _ & _ & Hflags).
  split; [apply (tlsf_inv_update s s' B a z THole TFree); try done|].
  - apply insert_hdrs.
  - intros f [= <-]. done.
  - intros i Hi. by rewrite Eh, rd_wr_ne.
  - intros b zb Hb' Hcl. assert (Hba : b <> a) by congruence.
    assert (Hbh : h <> 0 -> b <> h).
    { intros Hh ->. destruct (insert_head_ne Hh) as (zh & Hzh & Hch & _). congruence. }
    split; apply insert_rd; try (apply (cell_ne HI _ _ _ _ _ _ _ _ Hb' Ha Hba); lia).
    all: intros Hh; destruct (insert_head_ne Hh) as (zh & Hzh & _).
    all: apply (cell_ne HI _ _ _ _ _ _ _ _ Hb' Hzh); [by apply Hbh|lia|lia].
  - by rewrite Eh, rd_wr_eq.
  - rewrite Eh, Esl, Efl, Ec. apply bits_set; [apply HI|done|done|lia].
  - split; try done. intros b zb kb c Hb' Hk Hc. destruct (tlsf_blk_range HI _ _ _ Ha) as (_ & ? & _).
    assert (Hba : b <> a) by (intros ->; rewrite Ha in Hb'; by simplify_eq).
    pose proof (pt_disj _ _ _ (i_til _ _ HI) _ _ _ _ _ _ Hb' Ha Hba). apply insert_rd; [lia..|].
    intros Hh. destruct (insert_head_ne Hh) as (zh & Hzh & _).
    assert (Hbh : b <> h) by (intros ->; rewrite Hzh in Hb'; by simplify_eq).
    destruct (tlsf_blk_range HI _ _ _ Hzh) as (_ & ? & _).
    pose proof (pt_disj _ _ _ (i_til _ _ HI) _ _ _ _ _ _ Hb' Hzh Hbh). lia.
Qed.
End Insert.

(** ** Taking a free block off its list *)

Section Remove.
Context (s : tlsf) (B : pblocks) (a z : Z).
Context (HI : inv s B) (Ha : B !! a = Some (z, TFree)).

Local Abbreviation h := (rd (heads s) (class_of z)).
Local Abbreviation p := (prev_free s a).
Local Abbreviation n := (next_free s a).
Local Abbreviation s' := (fl_remove s a).

Lemma remove_neighbours :
  (p = 0 -> h = a) /\
  (p <> 0 -> h <> a /\ (exists zp, B !! p = Some (zp, TFree)) /\ p <> a) /\
  (n <> 0 -> (exists zn, B !! n = Some (zn, TFree)) /\ n <> a /\ n <> p).
Proof.
  assert (Hin : free_at B (class_of z) a) by (by exists z).
  destruct (dlist_inner 16 24 _ _ _ _ (i_free _ _ HI (class_of z)) Hin) as (H1 & H2 & H3).
  unfold prev_free, next_free. split; [done|]. split.
  - intros Hp. destruct (H2 Hp) as (? & (zp & Hzp & _) & ? & _). eauto.
  - intros Hn. destruct (H3 Hn) as ((zn & Hzn & _) & ? & ? & _). eauto.
Qed.

Lemma head_ne : h <> 0.
Proof.
  apply (dlist_empty 16 24 _ _ _ a (i_free _ _ HI (class_of z))). by exists z.
Qed.

Lemma remove_fields :
  exists fi si, 0 <= fi < 32 /\ 0 <= si < 16 /\ class_of z = idx fi si /\
  base s' = base s /\ total s' = total s /\ fl_count s' = fl_count s /\
  allocated_bytes s' = allocated_bytes s /\ tombstoned_bytes s' = tombstoned_bytes s /\
  temporal_active s' = temporal_active s /\ temporal_rotor s' = temporal_rotor s /\
  heads s' = (if p =? 0 then wr (heads s) (class_of z) n else heads s) /\
  sl_bitmap s' = (if p =? 0 then sl_after (sl_bitmap s) fi si n else sl_bitmap s) /\
  fl_bitmap s' = (if p =? 0 then fl_after (sl_bitmap s) (fl_bitmap s) fi si n else fl_bitmap s) /\
  mem s' = (let m := if p =? 0 then mem s else wr (mem s) (p + 16) n in
            if n =? 0 then m else wr m (n + 24) p).
Proof.
  destruct (blk_class HI _ _ _ Ha) as (fi & si & E & Hfi & Hsi & Ec).
  pose proof (fl_count_le HI). pose proof head_ne as Hh. exists fi, si.
  unfold fl_remove. rewrite (i_size _ _ HI _ _ _ Ha), E, <- Ec.
  split; [lia|]. split; [lia|]. split; [done|]. unfold fl_after, sl_after.
  destruct (Z.eqb_spec p 0) as [Ep|Ep]; destruct (Z.eqb_spec n 0) as [En|En];
    cbn [negb heads set_heads set_next_free set_prev_free set_mem andb]; rewrite ?rd_wr_eq.
  - rewrite En. cbn [Z.eqb heads sl_bitmap set_sl set_heads]. rewrite rd_wr_eq.
    destruct (_ =? 0); by repeat split.
  - destruct (Z.eqb_spec n 0); [done|]. by repeat split.
  - destruct (Z.eqb_spec h 0); [done|]. by repeat split.
  - destruct (Z.eqb_spec h 0); [done|]. by repeat split.
Qed.

Lemma remove_rd c :
  (p <> 0 -> c <> p + 16) -> (n <> 0 -> c <> n + 24) -> rd (mem s') c = rd (mem s) c.
Proof.
  intros Hp Hn. destruct remove_fields as (fi & si & _ & _ & _ & _ & _ & _ & _ & _ & _ & _ & _ & _ & _ & ->).
  cbn zeta. destruct (Z.eqb_spec p 0) as [Ep|Ep], (Z.eqb_spec n 0) as [En|En];
    rewrite ?rd_wr_ne; try done.
  all: intros <-; first [exact (Hp Ep eq_refl)|exact (Hn En eq_refl)].
Qed.

Lemma remove_links :
  (p <> 0 -> rd (mem s') (p + 16) = n) /\ (n <> 0 -> rd (mem s') (n + 24) = p).
Proof.
  destruct remove_neighbours as (_ & Hp & Hn).
  destruct remove_fields as (fi & si & _ & _ & _ & _ & _ & _ & _ & _ & _ & _ & _ & _ & _ & ->).
  cbn zeta. destruct (Z.eqb_spec p 0) as [Ep|Ep], (Z.eqb_spec n 0) as [En|En];
    rewrite ?rd_wr_eq; split; try done.
  intros _. rewrite rd_wr_ne; [by rewrite rd_wr_eq|].
  destruct (Hp Ep) as (_ & (zp & Hzp) & _). destruct (Hn En) as ((zn & Hzn) & _ & Hnp).
  apply (cell_ne HI _ _ _ _ _ _ _ _ Hzn Hzp); [done|lia|lia].
Qed.

Lemma remove_hdrs : hdrs_kept s s' B a.
Proof.
  destruct remove_neighbours as (_ & Hp & Hn). intros b d Hb Hd. apply remove_rd.
  - intros Ep. destruct (Hp Ep) as (_ & (zp & Hzp) & _).
    destruct (Z.eq_dec b p) as [->|Hne]; [lia|].
    intros E. symmetry in E. revert E. apply (place_ne s B p zp TFree b); auto; lia.
  - intros En. destruct (Hn En) as ((zn & Hzn) & _).
    destruct (Z.eq_dec b n) as [->|Hne]; [lia|].
    intros E. symmetry in E. revert E. apply (place_ne s B n zn TFree b); auto; lia.
Qed.

(** Headers, the removed block's flags included, are kept. *)
Lemma remove_header b d : hdr_place s B b -> d = 0 \/ d = 4 \/ d = 8 ->
  rd (mem s') (b + d) = rd (mem s) (b + d).
Proof.
  destruct remove_neighbours as (_ & Hp & Hn). intros Hb Hd. apply remove_rd.
  - intros Ep. destruct (Hp Ep) as (_ & (zp & Hzp) & _).
    destruct (Z.eq_dec b p) as [->|Hne]; [lia|].
    intros E. symmetry in E. revert E. apply (place_ne s B p zp TFree b); auto; lia.
  - intros En. destruct (Hn En) as ((zn & Hzn) & _).
    destruct (Z.eq_dec b n) as [->|Hne]; [lia|].
    intros E. symmetry in E. revert E. apply (place_ne s B n zn TFree b); auto; lia.
Qed.

Lemma remove_list :
  dlist (mem s') 16 24 (if p =? 0 then n else h) (free_at (<[a := (z, THole)]> B) (class_of z)).
Proof.
  destruct remove_links as [Hp Hn]. destruct remove_neighbours as (_ & Hpn & Hnn).
  assert (Hcell : forall x zx d y zy d', B !! x = Some (zx, TFree) -> B !! y = Some (zy, TFree) ->
    0 <= d < 32 -> 0 <= d' < 32 -> x <> y \/ d <> d' -> x + d <> y + d').
  { intros x zx d y zy d' Hx Hy Hd Hd' Hne. destruct (Z.eq_dec x y) as [->|Hxy].
    - destruct Hne; [done|lia].
    - by apply (cell_ne HI _ _ _ _ _ _ _ _ Hx Hy). }
  eapply dlist_frame;
    [apply (dlist_remove 16 24 (mem s) (mem s') h (free_at B (class_of z)) a)| |done].
  - apply (i_free _ _ HI).
  - by exists z.
  - exact Hp.
  - exact Hn.
  - intros x (zx & Hx & _) Hxa Hxp. apply remove_rd.
    + intros Ep. destruct (Hpn Ep) as (_ & (zp & Hzp) & _).
      apply (Hcell x zx 16 p zp 16); auto; lia.
    + intros En. destruct (Hnn En) as ((zn & Hzn) & _). apply (Hcell x zx 16 n zn 24); auto; lia.
  - intros x (zx & Hx & _) Hxa Hxn. apply remove_rd.
    + intros Ep. destruct (Hpn Ep) as (_ & (zp & Hzp) & _). apply (Hcell x zx 24 p zp 16); auto; lia.
    + intros En. destruct (Hnn En) as ((zn & Hzn) & _). apply (Hcell x zx 24 n zn 24); auto; lia.
  - intros x. split.
    + intros ((zx & Hx & Hc) & Hxa). exists zx. by rewrite lookup_insert_ne.
    + intros (zx & Hx & Hc). destruct (Z.eq_dec a x) as [<-|Hne].
      { rewrite lookup_insert_eq in Hx. simplify_eq. }
      rewrite lookup_insert_ne in Hx by done. split; [by exists zx|done].
Qed.

Lemma inv_fl_remove : inv s' (<[a := (z, THole)]> B) /\ quiet B s s' /\
  prev_phys s' (a + z) = a.
Proof.
  destruct remove_fields as (fi & si & Hfi & Hsi & Ec & Eb & Et & Ef & Eal & Etb & Eac & Er & Eh & Esl & Efl & _).
  pose proof remove_list as HL. destruct remove_neighbours as (_ & Hpn & Hnn).
  pose proof head_ne as Hh. split; [|split].
  - apply (tlsf_inv_update s s' B a z TFree THole); try done.
    + apply remove_hdrs.
    + intros i Hi. rewrite Eh. destruct (p =? 0); [by rewrite rd_wr_ne|done].
    + intros b zb Hb Hcl.
      assert (Hno : forall y zy d d', B !! y = Some (zy, TFree) -> class_of zy = class_of z ->
        0 <= d < 32 -> 0 <= d' < 32 -> b + d <> y + d').
      { intros y zy d d' Hy Hcy Hd Hd'. assert (b <> y) by congruence.
        by apply (cell_ne HI _ _ _ _ _ _ _ _ Hb Hy). }
      assert (Hin : free_at B (class_of z) a) by (by exists z).
      destruct (dlist_inner 16 24 _ _ _ _ (i_free _ _ HI (class_of z)) Hin) as (_ & H2 & H3).
      split; apply remove_rd.
      all: try (intros Ep; destruct (H2 Ep) as (_ & (zp & Hzp & Hcp) & _);
                by apply (Hno p zp); auto; lia).
      all: intros En; destruct (H3 En) as ((zn & Hzn & Hcn) & _); by apply (Hno n zn); auto; lia.
    + rewrite Eh. destruct (p =? 0); [by rewrite rd_wr_eq|done].
    + rewrite Eh, Esl, Efl. destruct (p =? 0); [|apply HI].
      rewrite Ec. apply bits_clear; [apply HI|done|done|by rewrite <- Ec].
  - split; try done. intros b zb kb c Hb Hk Hc.
    assert (Hdis : forall y zy, B !! y = Some (zy, TFree) -> forall d, 0 <= d < 32 -> c <> y + d).
    { intros y zy Hy d Hd. assert (Hby : b <> y) by (intros ->; rewrite Hy in Hb; by simplify_eq).
      destruct (tlsf_blk_range HI _ _ _ Hy) as (_ & ? & _).
      pose proof (pt_disj _ _ _ (i_til _ _ HI) _ _ _ _ _ _ Hb Hy Hby). lia. }
    apply remove_rd.
    + intros Ep. destruct (Hpn Ep) as (_ & (zp & Hzp) & _). by apply (Hdis p zp); [|lia].
    + intros En. destruct (Hnn En) as ((zn & Hzn) & _). by apply (Hdis n zn); [|lia].
  - unfold prev_phys. rewrite remove_header; [by apply (i_back _ _ HI a z TFree)| |auto].
    by apply (hdr_place_end s B a z TFree).
Qed.
End Remove.

(** The search takes the head of a list, which is [fl_remove] of it. *)
Lemma take_head_remove s B fi si :
  inv s B -> 0 <= si < 16 -> rd (heads s) (idx fi si) <> 0 ->
  exists z, B !! rd (heads s) (idx fi si) = Some (z, TFree) /\ class_of z = idx fi si /\
    take_head s fi si = (rd (heads s) (idx fi si), fl_remove s (rd (heads s) (idx fi si))).
Proof.
  intros HI Hsi Hne. destruct (tlsf_free_head HI _ Hne) as (z & Hz & Hc & Hp). exists z.
  split; [done|]. split; [done|]. destruct (blk_class HI _ _ _ Hz) as (f & i & E & Hf & Hi & Ec).
  rewrite Hc in Ec. apply idx_inj in Ec as [<- <-]; [|done|done].
  unfold take_head, fl_remove. rewrite (i_size _ _ HI _ _ _ Hz), E, Hp. cbn [Z.eqb negb].
  destruct (Z.eqb_spec (next_free s (rd (heads s) (idx fi si))) 0) as [En|En]; cbn [negb].
  - cbn [heads set_heads]. rewrite rd_wr_eq, En. cbn [Z.eqb sl_bitmap set_sl set_heads].
    by rewrite rd_wr_eq.
  - cbn [heads set_heads set_prev_free set_mem]. rewrite rd_wr_eq.
    by destruct (Z.eqb_spec (next_free s (rd (heads s) (idx fi si))) 0).
Qed.
