(* ===== verification/TlsfOps.v ===== *)
(** * The two-level segregated fit list: cutting, joining, searching

    The physical steps on blocks in transit, then [find_free], [try_split] and
    [coalesce_and_free]. *)

From S2P Require Import Prelude.
From S2P Require Import Intrusive.
From S2P Require Import Config.
From S2P Require Import Tlsf.
From S2P Require Import TlsfClass.
From S2P Require Import TlsfInv.

(** ** Steps that only rewrite headers *)

(** A step that rewrites headers, and keeps the free blocks and their links,
    preserves the invariant if the headers describe the new blocks. *)
Lemma inv_rewrite s B m' B' :
  inv s B ->
  (forall b zb, B' !! b = Some (zb, TFree) <-> B !! b = Some (zb, TFree)) ->
  (forall b zb, B !! b = Some (zb, TFree) ->
     rd m' (b + 16) = rd (mem s) (b + 16) /\ rd m' (b + 24) = rd (mem s) (b + 24)) ->
  ptile (lo s) (hi s) B' ->
  (forall a z k, B' !! a = Some (z, k) -> rd m' (a + 0) = z) ->
  (forall a z k f, B' !! a = Some (z, k) -> tflags k = Some f -> rd m' (a + 4) = f) ->
  (forall a z k, B' !! a = Some (z, k) -> k <> THole -> rd m' (a + z + 8) = a) ->
  rd m' (lo s + 8) = base s ->
  (forall d, d = 0 \/ d = 4 -> rd m' (base s + d) = rd (mem s) (base s + d)) ->
  (forall d, d = 0 \/ d = 4 -> rd m' (hi s + d) = rd (mem s) (hi s + d)) ->
  inv (set_mem s m') B'.
Proof.
  intros HI Hfree Hlinks HT Hs Hf Hb H1 H2 H3. split; try done.
  - by destruct (i_geo _ _ HI).
  - unfold flags. cbn. rewrite H2 by auto. apply HI.
  - unfold flags, hi. cbn. fold (hi s). rewrite H3 by auto. apply HI.
  - intros i. eapply dlist_frame; [apply (i_free _ _ HI)| |].
    + intros x. unfold free_at. by setoid_rewrite Hfree.
    + intros x (zx & Hx & _). by apply (Hlinks x zx).
  - apply HI.
  - unfold bsize. cbn. rewrite H2 by auto. apply HI.
  - unfold bsize, hi. cbn. fold (hi s). rewrite H3 by auto. apply HI.
Qed.

(** Distinctness of a header cell from the cells of another place *)
Lemma place_cell s B a z k b d d' :
  inv s B -> B !! a = Some (z, k) -> hdr_place s B b -> 0 <= d < 32 -> 0 <= d' < 32 ->
  b <> a \/ d <> d' -> a + d <> b + d'.
Proof.
  intros HI Ha Hb Hd Hd' Hne. destruct (Z.eq_dec b a) as [->|Hba].
  - destruct Hne; [done|lia].
  - by apply (place_ne s B a z k b).
Qed.

(** The cell of a place is not one of the links of a free block. *)
Lemma place_link s B b d x zx e :
  inv s B -> hdr_place s B b -> B !! x = Some (zx, TFree) ->
  d = 0 \/ d = 4 \/ d = 8 -> e = 16 \/ e = 24 -> b + d <> x + e.
Proof.
  intros HI Hb Hx Hd He E. symmetry in E. revert E.
  apply (place_cell s B x zx TFree b); auto; lia.
Qed.

Lemma place_block s B a z k : B !! a = Some (z, k) -> hdr_place s B a.
Proof. intros Ha. left. eauto. Qed.

(** The data region starts with a block. *)
Lemma place_lo s B : inv s B -> hdr_place s B (lo s).
Proof.
  intros HI. destruct (pt_cover _ _ _ (i_til _ _ HI) (lo s)) as (b & zb & kb & Hb & Hr).
  { destruct (i_geo _ _ HI). unfold lo, hi in *. lia. }
  destruct (pt_range _ _ _ (i_til _ _ HI) _ _ _ Hb) as (? & _).
  left. assert (lo s = b) as -> by lia. eauto.
Qed.

Lemma base_lo s B a z k : inv s B -> B !! a = Some (z, k) -> base s + 32 <= a /\ a + 64 <= hi s.
Proof.
  intros HI Ha. destruct (tlsf_blk_range HI _ _ _ Ha) as (Hl & ? & _ & _ & Hh & _).
  unfold lo in Hl. change __block_align with 32 in Hl. lia.
Qed.

(** The back link behind a hole *)
Lemma inv_set_back s B a z :
  inv s B -> B !! a = Some (z, THole) ->
  inv (set_prev_phys s (a + z) a) B /\ prev_phys (set_prev_phys s (a + z) a) (a + z) = a /\
  quiet B s (set_prev_phys s (a + z) a).
Proof.
  intros HI Ha. pose proof (hdr_place_end s B a z THole HI Ha) as Hpl.
  destruct (base_lo s B a z THole HI Ha) as [Hl Hh].
  destruct (tlsf_blk_range HI _ _ _ Ha) as (_ & Hz & _ & _ & Hend & _).
  (* the written cell is the back link of that place only *)
  assert (Hother : forall b d, hdr_place s B b -> d = 0 \/ d = 4 \/ d = 8 -> b <> a + z \/ d <> 8 ->
    a + z + 8 <> b + d).
  { intros b d Hb Hd Hne. destruct Hpl as [(zn & kn & Hn)|[E|E]].
    - apply (place_cell s B (a + z) zn kn b); auto; lia.
    - unfold hi in *. change __block_align with 32 in *. lia.
    - destruct Hb as [(zb & kb & Hb)|[-> | ->]].
      + destruct (base_lo s B b zb kb HI Hb). lia.
      + unfold hi in *. change __block_align with 32 in *. lia.
      + lia. }
  split; [|split].
  - apply (inv_rewrite s B); try done.
    + intros b zb Hb. split; rewrite rd_wr_ne; try done; by apply (place_link s B _ 8 b zb); auto.
    + apply HI.
    + intros b zb kb Hb. rewrite rd_wr_ne; [by apply (i_size _ _ HI b zb kb)|].
      apply Hother; [by apply (place_block s _ _ _ _ Hb)|auto|lia].
    + intros b zb kb f Hb Hf. rewrite rd_wr_ne; [by apply (i_flags _ _ HI b zb kb)|].
      apply Hother; [by apply (place_block s _ _ _ _ Hb)|auto|lia].
    + intros b zb kb Hb Hk. rewrite rd_wr_ne; [by apply (i_back _ _ HI b zb kb)|].
      apply Hother; [by eapply hdr_place_end|auto|left]. intros E.
      assert (b = a) as -> by (by eapply (pt_end_inj (i_til _ _ HI))). congruence.
    + rewrite rd_wr_ne; [apply HI|]. unfold lo. change __block_align with 32. lia.
    + intros d Hd. apply rd_wr_ne. lia.
    + intros d Hd. apply rd_wr_ne, Hother; [by right; right|lia|lia].
  - apply rd_wr_eq.
  - split; try done. intros b zb kb c Hb Hk Hc. cbn. apply rd_wr_ne. intros <-.
    destruct Hpl as [(zn & kn & Hn)|[E|E]].
    + destruct (Z.eq_dec (a + z) b) as [E|Hne]; [lia|].
      destruct (tlsf_blk_range HI _ _ _ Hn) as (_ & ? & _).
      pose proof (pt_disj _ _ _ (i_til _ _ HI) _ _ _ _ _ _ Hn Hb Hne). lia.
    + lia.
    + destruct (tlsf_blk_range HI _ _ _ Hb) as (_ & _ & _ & _ & ? & _). lia.
Qed.

(** Joining two holes: only the first size is rewritten; the back link behind
    the joined hole is not yet right. *)
Lemma inv_join s B a z z' :
  inv s B -> B !! a = Some (z, THole) -> B !! (a + z) = Some (z', THole) ->
  let s' := set_bsize s a (u32 (bsize s a + bsize s (a + z))) in
  let B' := <[a := (z + z', THole)]> (delete (a + z) B) in
  inv s' B' /\ quiet B s s' /\ same_use B B'.
Proof.
  intros HI Ha Hb s' B'. destruct (tlsf_blk_range HI _ _ _ Ha) as (_ & Hz & _ & _ & _ & _ & Ha0 & _).
  destruct (tlsf_blk_range HI _ _ _ Hb) as (_ & Hz' & _ & _ & Hend & _).
  destruct (base_lo s B a z THole HI Ha) as [Hl Hh].
  assert (Hu : u32 (bsize s a + bsize s (a + z)) = z + z').
  { rewrite (i_size _ _ HI _ _ _ Ha), (i_size _ _ HI _ _ _ Hb). apply u32_small.
    destruct (i_geo _ _ HI) as [? ? Ht ? ?]. unfold hi in Hend. change __block_align with 32 in Hend. lia. }
  assert (Hlk : forall j zj kj, kj <> THole -> B' !! j = Some (zj, kj) <-> B !! j = Some (zj, kj)).
  { intros j zj kj Hk. subst B'. destruct (Z.eq_dec a j) as [<-|].
    { rewrite lookup_insert_eq, Ha. split; congruence. }
    rewrite lookup_insert_ne by done. destruct (Z.eq_dec (a + z) j) as [<-|].
    { rewrite lookup_delete_eq, Hb. split; congruence. }
    by rewrite lookup_delete_ne. }
  assert (Hcell : forall b d, hdr_place s B b -> 0 <= d < 32 -> b <> a \/ d <> 0 -> a + 0 <> b + d).
  { intros b d Hpl Hd Hne. apply (place_cell s B a z THole b); auto; lia. }
  split; [|split].
  - subst s'. unfold set_bsize. rewrite Hu. apply (inv_rewrite s B); try done.
    + intros b zb. by apply Hlk.
    + intros b zb Hbb. assert (b <> a) by congruence.
      pose proof (place_block s _ _ _ _ Hbb).
      split; (rewrite rd_wr_ne; [done|]); apply Hcell; auto; lia.
    + eapply ptile_join; [apply HI|done|done].
    + intros b zb kb Hbb. subst B'. destruct (Z.eq_dec a b) as [<-|Hne].
      { rewrite lookup_insert_eq in Hbb. simplify_eq. apply rd_wr_eq. }
      rewrite lookup_insert_ne in Hbb by done. apply lookup_delete_Some in Hbb as [_ Hbb].
      rewrite rd_wr_ne; [by apply (i_size _ _ HI b zb kb)|].
      apply Hcell; [by apply (place_block s _ _ _ _ Hbb)|lia|left; congruence].
    + intros b zb kb f Hbb Hf. assert (kb <> THole) by (by intros ->). apply Hlk in Hbb; [|done].
      rewrite rd_wr_ne; [by apply (i_flags _ _ HI b zb kb)|]. apply Hcell; [by apply (place_block s _ _ _ _ Hbb)|lia|lia].
    + intros b zb kb Hbb Hk. apply Hlk in Hbb; [|done].
      rewrite rd_wr_ne; [by apply (i_back _ _ HI b zb kb)|].
      apply Hcell; [by eapply hdr_place_end|lia|lia].
    + rewrite rd_wr_ne; [apply HI|]. apply Hcell; [by apply place_lo|lia|lia].
    + intros d Hd. apply rd_wr_ne. lia.
    + intros d Hd. apply rd_wr_ne, Hcell; [by right; right|lia|lia].
  - split; try done. intros b zb kb c Hbb Hk Hc. cbn. apply rd_wr_ne. intros <-.
    assert (Hba : b <> a) by (intros ->; rewrite Ha in Hbb; by simplify_eq).
    pose proof (pt_disj _ _ _ (i_til _ _ HI) _ _ _ _ _ _ Hbb Ha Hba). lia.
  - intros j zj kj Hk. symmetry. apply Hlk. by intros ->.
Qed.

(** Cutting a hole in two, as [try_split] rewrites the headers. *)
Definition cut (s : tlsf) (a n r : Z) : tlsf :=
  let s := set_bsize s a n in
  let s := set_bsize s (a + n) r in
  let s := set_prev_phys s (a + n) a in
  set_prev_phys s (a + n + r) (a + n).

Lemma inv_cut s B a z n :
  inv s B -> B !! a = Some (z, THole) -> 64 <= n -> 64 <= z - n -> (32 | n) ->
  let s' := cut s a n (z - n) in
  let B' := <[a := (n, THole)]> (<[a + n := (z - n, THole)]> B) in
  inv s' B' /\ quiet B s s' /\ same_use B B' /\
  prev_phys s' (a + n) = a /\ prev_phys s' (a + z) = a + n /\
  bsize s' (a + n) = z - n.
Proof.
  intros HI Ha Hn Hr Hdn s' B'. destruct (tlsf_blk_range HI _ _ _ Ha) as (_ & Hz & _ & _ & Hend & _ & Ha0 & _).
  destruct (base_lo s B a z THole HI Ha) as [Hl Hh].
  destruct (ptile_split (i_til _ _ HI) a z THole n THole THole Ha Hn Hr Hdn) as [HT Hnone].
  assert (Hlk : forall j zj kj, kj <> THole -> B' !! j = Some (zj, kj) <-> B !! j = Some (zj, kj)).
  { intros j zj kj Hk. subst B'. destruct (Z.eq_dec a j) as [<-|].
    { rewrite lookup_insert_eq, Ha. split; congruence. }
    rewrite lookup_insert_ne by done. destruct (Z.eq_dec (a + n) j) as [<-|].
    { rewrite lookup_insert_eq, Hnone. split; congruence. }
    by rewrite lookup_insert_ne. }
  assert (Em : mem s' = wr (wr (wr (wr (mem s) a n) (a + n) (z - n)) (a + n + 8) a) (a + z + 8) (a + n)).
  { subst s'. unfold cut, set_bsize, set_prev_phys. cbn. rewrite !Z.add_0_r.
    by replace (a + n + (z - n)) with (a + z) by lia. }
  (* a cell outside the hole, other than the back link behind it, is kept *)
  assert (Hkeep : forall c, (c < a \/ a + z <= c) -> c <> a + z + 8 -> rd (mem s') c = rd (mem s) c).
  { intros c Hc Hc8. rewrite Em, !rd_wr_ne by lia. done. }
  assert (Hrd : rd (mem s') (a + 0) = n /\ rd (mem s') (a + n + 0) = z - n /\
    rd (mem s') (a + n + 8) = a /\ rd (mem s') (a + z + 8) = a + n).
  { rewrite Em, !Z.add_0_r. split_and!; repeat first [rewrite rd_wr_eq; done|rewrite rd_wr_ne by lia]. }
  destruct Hrd as (R1 & R2 & R3 & R4).
  assert (Hplace : forall b zb kb d, B !! b = Some (zb, kb) -> b <> a -> 0 <= d < 32 ->
    b <> a + z \/ d <> 8 -> rd (mem s') (b + d) = rd (mem s) (b + d)).
  { intros b zb kb d Hb Hne Hd H8. destruct (tlsf_blk_range HI _ _ _ Hb) as (_ & ? & _).
    pose proof (pt_disj _ _ _ (i_til _ _ HI) _ _ _ _ _ _ Hb Ha Hne). apply Hkeep; [lia|].
    intros E. destruct (pt_next (i_til _ _ HI) a z THole Ha) as [Ehi|(zn & kn & Hzn)].
    - destruct (tlsf_blk_range HI _ _ _ Hb) as (_ & _ & _ & _ & ? & _). lia.
    - destruct (Z.eq_dec b (a + z)) as [->|Hbn]; [lia|].
      revert E. apply (cell_ne HI _ _ _ _ _ _ d 8 Hb Hzn); lia. }
  split_and!; try done.
  - assert (HI' : inv (set_mem s (mem s')) B'); [|by destruct s].
    apply (inv_rewrite s B); try done.
    + intros b zb. by apply Hlk.
    + intros b zb Hb. assert (b <> a) by congruence. split; by apply (Hplace b zb TFree); auto; lia.
    + intros b zb kb Hb. subst B'. destruct (Z.eq_dec a b) as [<-|Hne].
      { rewrite lookup_insert_eq in Hb. by simplify_eq. }
      rewrite lookup_insert_ne in Hb by done. destruct (Z.eq_dec (a + n) b) as [<-|Hne2].
      { rewrite lookup_insert_eq in Hb. by simplify_eq. }
      rewrite lookup_insert_ne in Hb by done.
      rewrite (Hplace b zb kb) by (done || lia || auto). by apply (i_size _ _ HI b zb kb).
    + intros b zb kb f Hb Hf. assert (kb <> THole) by (by intros ->). apply Hlk in Hb; [|done].
      rewrite (Hplace b zb kb) by (done || lia || congruence). by apply (i_flags _ _ HI b zb kb).
    + intros b zb kb Hb Hk. apply Hlk in Hb; [|done].
      assert (Hba : b <> a) by congruence.
      assert (Hbe : b + zb <> a + z).
      { intros E. by apply Hba, (pt_end_inj (i_til _ _ HI) _ _ _ _ _ _ Hb Ha). }
      destruct (tlsf_blk_range HI _ _ _ Hb) as (_ & Hzb & _).
      rewrite <- (i_back _ _ HI b zb kb Hb Hk) at 2. unfold prev_phys.
      destruct (pt_disj _ _ _ (i_til _ _ HI) _ _ _ _ _ _ Hb Ha Hba) as [Hd|Hd].
      * destruct (Z.eq_dec (b + zb) a) as [E|E].
        -- rewrite E, Em, !rd_wr_ne by lia. done.
        -- destruct (pt_next (i_til _ _ HI) b zb kb Hb) as [E'|(zn & kn & Hzn)]; [lia|].
           by apply (Hplace (b + zb) zn kn); [|done|lia|left].
      * apply Hkeep; lia.
    + destruct (Z.eq_dec a (lo s)) as [E|Hne].
      * rewrite <- E, Em, !rd_wr_ne, E by lia. apply HI.
      * destruct (pt_prev (i_til _ _ HI) a z THole Ha) as [|(b & zb & kb & Hb & E)]; [done|].
        destruct (tlsf_blk_range HI _ _ _ Hb) as (? & ? & _). rewrite Hkeep; [apply HI|lia|lia].
    + intros d Hd. apply Hkeep; lia.
    + intros d Hd. apply Hkeep; [lia|].
      destruct (pt_next (i_til _ _ HI) a z THole Ha) as [E|(zn & kn & Hzn)]; [lia|].
      destruct (tlsf_blk_range HI _ _ _ Hzn) as (_ & ? & _ & _ & ? & _). lia.
  - split; try done. intros b zb kb c Hb Hk Hc.
    assert (Hba : b <> a) by (intros ->; rewrite Ha in Hb; by simplify_eq).
    pose proof (pt_disj _ _ _ (i_til _ _ HI) _ _ _ _ _ _ Hb Ha Hba).
    apply Hkeep; [lia|]. intros ->. destruct (pt_next (i_til _ _ HI) a z THole Ha) as [E|(zn & kn & Hzn)].
    + destruct (tlsf_blk_range HI _ _ _ Hb) as (_ & _ & _ & _ & ? & _). lia.
    + destruct (Z.eq_dec b (a + z)) as [E|Hbn]; [lia|].
      destruct (tlsf_blk_range HI _ _ _ Hzn) as (_ & ? & _).
      pose proof (pt_disj _ _ _ (i_til _ _ HI) _ _ _ _ _ _ Hb Hzn Hbn). lia.
  - intros j zj kj Hk. symmetry. apply Hlk. by intros ->.
Qed.
