(* ===== verification/TlsfFind.v ===== *)
(** * The two-level segregated fit list: searching, splitting, merging

    What [find_free], [try_split] and [coalesce_and_free] do to the blocks. *)

From S2P Require Import Prelude.
From S2P Require Import Intrusive.
From S2P Require Import Config.
From S2P Require Import Tlsf.
From S2P Require Import TlsfClass.
From S2P Require Import TlsfInv.
From S2P Require Import TlsfOps.

(** ** Changing the use of a block that is on no list *)

Lemma free_at_unlisted B a z k k' i x :
  B !! a = Some (z, k) -> k <> TFree -> k' <> TFree ->
  free_at B i x <-> free_at (<[a := (z, k')]> B) i x.
Proof.
  intros Ha Hk Hk'. split; intros (zx & Hx & Hc); exists zx; (split; [|done]).
  - rewrite lookup_insert_ne; [done|]. intros <-. congruence.
  - destruct (Z.eq_dec a x) as [<-|Hne]; [|by rewrite lookup_insert_ne in Hx].
    rewrite lookup_insert_eq in Hx. congruence.
Qed.

Lemma inv_set_flags s B a z k k' f :
  inv s B -> B !! a = Some (z, k) -> k <> TFree -> k' <> TFree -> tflags k' = Some f ->
  prev_phys s (a + z) = a -> inv (set_flags s a f) (<[a := (z, k')]> B).
Proof.
  intros HI Ha Hk Hk' Hf Hb.
  assert (Hlk : forall b zb, B !! b = Some (zb, TFree) -> forall d, 0 <= d < 32 -> a + 4 <> b + d).
  { intros b zb Hbb d Hd. assert (a <> b) by congruence.
    by apply (cell_ne HI _ _ _ _ _ _ _ _ Ha Hbb). }
  apply (tlsf_inv_update s _ B a z k k'); try done.
  - intros b d Hpl Hd. cbn. apply rd_wr_ne.
    destruct (Z.eq_dec b a) as [->|Hne]; [lia|]. apply (place_ne s B a z k b); auto; lia.
  - intros f' Hf'. unfold flags. cbn. rewrite rd_wr_eq. congruence.
  - intros b zb Hbb _. cbn. by rewrite !rd_wr_ne by (apply (Hlk b zb Hbb); lia).
  - cbn. eapply dlist_frame; [apply (i_free _ _ HI (class_of z))| |].
    + intros x. by apply free_at_unlisted with (k := k).
    + intros x (zx & Hx & _). by rewrite !rd_wr_ne by (apply (Hlk x zx Hx); lia).
  - apply HI.
Qed.

(** A block in use becomes a hole without a write. *)
Lemma inv_open s B a z k :
  inv s B -> B !! a = Some (z, k) -> in_use k = true ->
  inv s (<[a := (z, THole)]> B) /\ prev_phys s (a + z) = a.
Proof.
  intros HI Ha Hk. assert (Hb : prev_phys s (a + z) = a)
    by (apply (i_back _ _ HI a z k Ha); by intros ->).
  split; [|done]. apply (tlsf_inv_update s s B a z k THole); try done.
  - eapply dlist_frame; [apply (i_free _ _ HI (class_of z))| |done].
    intros x. apply free_at_unlisted with (k := k); [done|by intros ->|done].
  - apply HI.
Qed.

(** ** Searching *)

(** The result of a search: the head of a list of large enough blocks is
    unlinked, or there is none. *)
Lemma find_free_spec s B n :
  inv s B -> 64 <= n <= 2 ^ 63 ->
  (exists a z, B !! a = Some (z, TFree) /\ class_for n <= class_of z /\
     find_free s n = (a, fl_remove s a)) \/
  (find_free s n = (0, s) /\ forall a z, B !! a = Some (z, TFree) -> class_of z < class_for n).
Proof.
  intros HI Hn. destruct (class_for_bounds n Hn) as (_ & _ & Hi & _ & Em & Hw).
  set (w := n + (2 ^ (Z.log2 n - 4) - 1)) in *.
  assert (Hp : 0 < 2 ^ (Z.log2 n - 4)).
  { apply pow2_gt0. pose proof (Z.log2_le_mono 64 n ltac:(lia)). change (Z.log2 64) with 6 in *. lia. }
  destruct (mapping_insert_eq w ltac:(lia)) as (Ew & Hq & Hl). rewrite Ew in Em.
  set (fi := Z.log2 w - 6) in *. set (si := w / 2 ^ (Z.log2 w - 4) - 16) in *.
  assert (Ec : class_for n = idx fi si) by (unfold class_for; by rewrite Em).
  pose proof (fl_count_le HI) as Hfc. destruct (i_bits _ _ HI) as [Hs Hsb Hf Hfb].
  unfold find_free. rewrite Em, Ec.
  (* a set bit leads to a block *)
  assert (Htake : forall f i, 0 <= f -> 0 <= i < 16 -> idx fi si <= idx f i ->
    Z.testbit (rd (sl_bitmap s) f) i = true ->
    exists a z, B !! a = Some (z, TFree) /\ idx fi si <= class_of z /\
      take_head s f i = (a, fl_remove s a)).
  { intros f i Hf0 Hi0 Hle Hbit. rewrite Hsb in Hbit by lia.
    destruct (take_head_remove s B f i HI ltac:(lia)) as (z & Hz & Hcz & E).
    { intros E. by rewrite E in Hbit. }
    eexists _, z. split; [exact Hz|]. rewrite Hcz. done. }
  (* a block's bit is set *)
  assert (Hbit : forall a z, B !! a = Some (z, TFree) -> exists f i, class_of z = idx f i /\
    0 <= f < fl_count s /\ 0 <= i < 16 /\ Z.testbit (rd (sl_bitmap s) f) i = true).
  { intros a z Ha. destruct (blk_class HI _ _ _ Ha) as (f & i & _ & ? & ? & E). exists f, i.
    split_and!; try done; try lia. rewrite Hsb, <- E by lia.
    assert (rd (heads s) (class_of z) <> 0); [|by case_g].
    eapply dlist_empty; [apply (i_free _ _ HI (class_of z))|]. by exists z. }
  unfold idx in *. change __sl_count with 16 in *.
  destruct (Z.leb_spec (fl_count s) fi).
  { right. split; [done|]. intros a z Ha. destruct (tlsf_blk_range HI _ _ _ Ha) as (_ & _ & _ & _ & _ & _ & _ & _ & ?). lia. }
  destruct (Z.eqb_spec (Z.land (rd (sl_bitmap s) fi) (ones_from si)) 0) as [E|E]; cbn [negb].
  - destruct (Z.eqb_spec (Z.land (fl_bitmap s) (ones_from (fi + 1))) 0) as [E'|E'].
    + right. split; [done|]. intros a z Ha. destruct (Hbit a z Ha) as (f & i & Ez & Hf0 & Hi0 & Hb).
      destruct (Z.lt_ge_cases (class_of z) (fi * 16 + si)) as [|Hge]; [done|exfalso].
      destruct (Z.eq_dec f fi) as [->|Hne].
      * rewrite (masked_zero _ si i) in Hb; [done|apply Hs|lia|done|lia].
      * assert (Hrow : Z.testbit (fl_bitmap s) f = false) by (apply (masked_zero _ (fi + 1)); lia).
        rewrite Hfb in Hrow by lia. apply negb_false_iff, Z.eqb_eq in Hrow.
        by rewrite Hrow, Z.bits_0 in Hb.
    + left. destruct (masked_ctz (fl_bitmap s) (fi + 1)) as [Hc Hcb]; try lia.
      set (f := ctz _) in *. rewrite Hfb in Hcb by lia.
      assert (Hr : rd (sl_bitmap s) f <> 0) by (intros Er; by rewrite Er in Hcb).
      pose proof (Hs f) as Hsf. destruct (ctz_spec (rd (sl_bitmap s) f) ltac:(lia)) as (? & Ht & _).
      pose proof (ctz_lt (rd (sl_bitmap s) f) 16 ltac:(lia)).
      apply Htake; [lia|lia|lia|done].
  - left. pose proof (Hs fi) as Hsf. destruct (masked_ctz (rd (sl_bitmap s) fi) si) as [Hc Hcb]; try lia.
    set (i := ctz _) in *.
    assert (i < 16). { destruct (Z.lt_ge_cases i 16) as [|Hge]; [done|].
      rewrite (testbit_above _ 16) in Hcb by lia. done. }
    apply Htake; [lia|lia|lia|done].
Qed.

(** ** Neighbours *)

(** No two neighbouring blocks are both unused; [sepx B a] says so of all
    neighbours but those of the block at [a]. *)
Definition sep (B : pblocks) : Prop :=
  forall x zx kx zy ky, B !! x = Some (zx, kx) -> B !! (x + zx) = Some (zy, ky) ->
    in_use kx = true \/ in_use ky = true.

Definition sepx (B : pblocks) (a : Z) : Prop :=
  forall x zx kx zy ky, B !! x = Some (zx, kx) -> B !! (x + zx) = Some (zy, ky) ->
    x <> a -> x + zx <> a -> in_use kx = true \/ in_use ky = true.

(** The block at [a] is the only one that may be in transit. *)
Definition only_hole (B : pblocks) (a : Z) : Prop := forall x z, B !! x = Some (z, THole) -> x = a.
Definition no_hole (B : pblocks) : Prop := forall x z, B !! x <> Some (z, THole).

Lemma no_hole_only B a : no_hole B -> only_hole B a.
Proof. intros H x z Hx. by apply H in Hx. Qed.

Lemma only_hole_insert B a v : only_hole B a -> only_hole (<[a := v]> B) a.
Proof.
  intros H x z. destruct (Z.eq_dec a x) as [<-|]; [done|]. rewrite lookup_insert_ne by done. apply H.
Qed.

Lemma only_hole_delete B a b : only_hole B a -> only_hole (delete b B) a.
Proof. intros H x z [_ Hx]%lookup_delete_Some. by eapply H. Qed.

Lemma only_hole_fill B a z k : only_hole B a -> k <> THole -> no_hole (<[a := (z, k)]> B).
Proof.
  intros H Hk x zx. destruct (Z.eq_dec a x) as [<-|].
  - rewrite lookup_insert_eq. congruence.
  - rewrite lookup_insert_ne by done. intros Hx. by apply H in Hx.
Qed.

Lemma sepx_insert B a v : sepx B a -> sepx (<[a := v]> B) a.
Proof.
  intros H x zx kx zy ky Hx Hy Hxa Hya. rewrite lookup_insert_ne in Hx by done.
  rewrite lookup_insert_ne in Hy by done. by apply (H x zx kx zy ky).
Qed.

Lemma sepx_delete B a b : sepx B a -> sepx (delete b B) a.
Proof.
  intros H x zx kx zy ky [_ Hx]%lookup_delete_Some [_ Hy]%lookup_delete_Some Hxa Hya.
  by apply (H x zx kx zy ky).
Qed.

Lemma sep_sepx B a : sep B -> sepx B a.
Proof. intros H x zx kx zy ky Hx Hy _ _. by apply (H x zx kx zy ky). Qed.

Lemma sepx_sep B a :
  sepx B a ->
  (forall z k zy ky, B !! a = Some (z, k) -> B !! (a + z) = Some (zy, ky) ->
    in_use k = true \/ in_use ky = true) ->
  (forall z k x zx kx, B !! a = Some (z, k) -> B !! x = Some (zx, kx) -> x + zx = a ->
    in_use kx = true \/ in_use k = true) ->
  sep B.
Proof.
  intros H Hn Hp x zx kx zy ky Hx Hy. destruct (Z.eq_dec x a) as [->|Hxa]; [by eapply Hn|].
  destruct (Z.eq_dec (x + zx) a) as [E|Hya]; [|by apply (H x zx kx zy ky)].
  rewrite E in Hy. by apply (Hp zy ky x zx kx).
Qed.

(** Recolouring an unused block as unused keeps the neighbours apart. *)
Lemma sep_recolor B a z k k' :
  sep B -> B !! a = Some (z, k) -> (in_use k = true -> in_use k' = true) -> sep (<[a := (z, k')]> B).
Proof.
  intros H Ha Hk.
  assert (Hlk : forall j zj kj, <[a := (z, k')]> B !! j = Some (zj, kj) ->
    exists kj', B !! j = Some (zj, kj') /\ (in_use kj' = true -> in_use kj = true)).
  { intros j zj kj Hj. destruct (Z.eq_dec a j) as [<-|].
    - rewrite lookup_insert_eq in Hj. simplify_eq. eauto.
    - rewrite lookup_insert_ne in Hj by done. eauto. }
  intros x zx kx zy ky Hx Hy. destruct (Hlk _ _ _ Hx) as (kx' & Hx' & Hkx).
  destruct (Hlk _ _ _ Hy) as (ky' & Hy' & Hky). destruct (H _ _ _ _ _ Hx' Hy'); auto.
Qed.

(** The flags of a place tell whether it is a free block. *)
Lemma flags_free_iff s B a b :
  inv s B -> only_hole B a -> hdr_place s B b -> b <> a ->
  flags s b = __block_free <-> exists z, B !! b = Some (z, TFree).
Proof.
  intros HI Ho Hb Hne. split.
  - intros Hf. destruct Hb as [(z & k & Hz)|[-> | ->]].
    + exists z. destruct k as [|[]| |]; try done.
      * by rewrite (i_flags _ _ HI b z _ _ Hz eq_refl) in Hf.
      * by rewrite (i_flags _ _ HI b z _ _ Hz eq_refl) in Hf.
      * by rewrite (i_flags _ _ HI b z _ _ Hz eq_refl) in Hf.
      * by apply Ho in Hz.
    + by rewrite (i_ss _ _ HI) in Hf.
    + by rewrite (i_es _ _ HI) in Hf.
  - intros [z Hz]. by apply (i_flags _ _ HI b z TFree).
Qed.

(** ** Splitting *)

(** The remainder of a split has no unused neighbour but the block it was cut
    from. *)
Lemma sepx_split B lo hi a z n :
  sep B -> B !! a = Some (z, THole) -> ptile lo hi B -> 0 < n -> 0 < z - n ->
  sepx (<[a + n := (z - n, TFree)]> (<[a := (n, THole)]> (<[a + n := (z - n, THole)]> B))) a.
Proof.
  intros Hs Ha HT Hn Hr x zx kx zy ky Hx Hy Hxa Hya.
  rewrite insert_insert_ne in Hx, Hy by lia. rewrite lookup_insert_ne in Hx, Hy by done.
  destruct (Z.eq_dec (a + n) x) as [<-|Hne].
  - rewrite lookup_insert_eq in Hx. injection Hx as <- <-.
    rewrite !lookup_insert_ne in Hy by lia. replace (a + n + (z - n)) with (a + z) in Hy by lia.
    by apply (Hs a z THole zy ky).
  - rewrite !lookup_insert_ne in Hx by done. destruct (Z.eq_dec (a + n) (x + zx)) as [E|Hne'].
    + destruct (pt_range _ _ _ HT _ _ _ Hx) as (_ & ? & _).
      destruct (pt_disj _ _ _ HT _ _ _ _ _ _ Ha Hx ltac:(done)); lia.
    + rewrite !lookup_insert_ne in Hy by done. by apply (Hs x zx kx zy ky).
Qed.

Lemma try_split_spec s B a z n :
  inv s B -> B !! a = Some (z, THole) -> prev_phys s (a + z) = a ->
  only_hole B a -> sep B -> 64 <= n <= z -> (32 | n) ->
  let s' := try_split s a n in
  exists z' B', inv s' B' /\ B' !! a = Some (z', THole) /\ prev_phys s' (a + z') = a /\
    (z' = n \/ z' = n + 32) /\ quiet B s s' /\ same_use B B' /\ only_hole B' a /\ sepx B' a.
Proof.
  intros HI Ha Hb Ho Hs Hn Hdn s'.
  destruct (tlsf_blk_range HI _ _ _ Ha) as (_ & Hz & Hdz & _ & _ & _ & _ & Hz32 & _).
  assert (Hsub : u64 (bsize s a - n) = z - n).
  { rewrite (i_size _ _ HI _ _ _ Ha). apply u64_small. lia. }
  subst s'. unfold try_split. rewrite Hsub. change __min_block with 64.
  destruct (Z.ltb_spec (z - n) 64) as [Hlt|Hge].
  { exists z, B. split_and!; try done; [|by apply sep_sepx].
    destruct Hdn as [p ->], Hdz as [q ->]. lia. }
  destruct (inv_cut s B a z n HI Ha) as (HI1 & HQ1 & HU1 & Hpr & Hpe & Hbr); [lia|lia|done|].
  set (B1 := <[a := (n, THole)]> (<[a + n := (z - n, THole)]> B)) in *.
  assert (Hr : B1 !! (a + n) = Some (z - n, THole)).
  { subst B1. by rewrite lookup_insert_ne, lookup_insert_eq by lia. }
  assert (Ecut : set_prev_phys (set_prev_phys (set_bsize (set_bsize s a (u32 n)) (a + n) (u32 (z - n)))
      (a + n) a) (next_phys (set_prev_phys (set_bsize (set_bsize s a (u32 n)) (a + n) (u32 (z - n)))
      (a + n) a) (a + n)) (a + n) = cut s a n (z - n)).
  { unfold cut. rewrite !u32_small by lia. do 2 f_equal. unfold next_phys, bsize. cbn.
    rewrite rd_wr_ne, rd_wr_eq by lia. done. }
  cbn zeta. rewrite Ecut. replace (a + z) with (a + n + (z - n)) in Hpe by lia.
  destruct (inv_fl_insert _ B1 (a + n) (z - n) HI1 Hr Hpe) as (HI2 & HQ2).
  assert (Hk : in_use (THole) = false) by done.
  assert (Ha1 : B1 !! a = Some (n, THole)) by (subst B1; by rewrite lookup_insert_eq).
  exists n, (<[a + n := (z - n, TFree)]> B1). split_and!; [done| | |by left| | | |].
  - by rewrite lookup_insert_ne by lia.
  - unfold prev_phys. rewrite (insert_hdrs _ B1 (a + n) (z - n) HI1 Hr); [done| |auto].
    left. eauto.
  - by eapply tlsf_quiet_trans.
  - etrans; [exact HU1|]. by apply (same_use_insert B1 (a + n) (z - n) THole).
  - intros x zx Hx. destruct (Z.eq_dec (a + n) x) as [<-|]; [by rewrite lookup_insert_eq in Hx|].
    rewrite lookup_insert_ne in Hx by done. subst B1. destruct (Z.eq_dec a x) as [<-|]; [done|].
    rewrite !lookup_insert_ne in Hx by done. by eapply Ho.
  - by apply (sepx_split B (lo s) (hi s) a z n); [..|apply HI|lia|lia].
Qed.

(** ** Merging *)

(** A step of [coalesce_and_free]: the hole grows, other blocks in use and the
    neighbours of other blocks are as before. *)
Record grown (s : tlsf) (B : pblocks) (s' : tlsf) (B' : pblocks) (a z : Z) : Prop := {
  gr_inv : inv s' B';
  gr_hole : B' !! a = Some (z, THole);
  gr_only : only_hole B' a;
  gr_sepx : sepx B' a;
  gr_quiet : quiet B s s';
  gr_use : same_use B B'
}.

Lemma grown_refl s B a z :
  inv s B -> B !! a = Some (z, THole) -> only_hole B a -> sepx B a -> grown s B s B a z.
Proof. intros. split; try done. Qed.

Lemma grown_trans s1 B1 s2 B2 s3 B3 a z a' z' :
  grown s1 B1 s2 B2 a z -> grown s2 B2 s3 B3 a' z' -> grown s1 B1 s3 B3 a' z'.
Proof.
  intros [] []. split; try done; [by eapply tlsf_quiet_trans|by etrans].
Qed.

(** Taking the free block [b] and joining the holes [a] and [a + z] *)
Lemma join_free s B a z z' b :
  inv s B -> B !! a = Some (z, if b =? a then TFree else THole) ->
  B !! (a + z) = Some (z', if b =? a then THole else TFree) ->
  b = a \/ b = a + z -> only_hole B (if b =? a then a + z else a) ->
  sepx B (if b =? a then a + z else a) ->
  let s1 := fl_remove s b in
  let s' := set_bsize s1 a (u32 (bsize s1 a + bsize s1 (a + z))) in
  let B' := <[a := (z + z', THole)]> (delete (a + z) B) in
  grown s B s' B' a (z + z').
Proof.
  intros HI Ha Haz Hb Ho Hs s1 s' B'.
  destruct (tlsf_blk_range HI _ _ _ Ha) as (_ & Hz & _). destruct (tlsf_blk_range HI _ _ _ Haz) as (_ & Hz' & _).
  set (zb := if b =? a then z else z').
  assert (Hbb : B !! b = Some (zb, TFree)).
  { subst zb. destruct Hb as [-> | ->]; [by rewrite Z.eqb_refl in *|].
    destruct (Z.eqb_spec (a + z) a); [lia|done]. }
  destruct (inv_fl_remove s B b zb HI Hbb) as (HI1 & HQ1 & _). fold s1 in HI1, HQ1.
  set (B1 := <[b := (zb, THole)]> B) in *.
  assert (HU1 : same_use B B1) by (by apply (same_use_insert B b zb TFree)).
  assert (Ha1 : B1 !! a = Some (z, THole) /\ B1 !! (a + z) = Some (z', THole)).
  { subst B1 zb. destruct Hb as [-> | ->].
    - rewrite Z.eqb_refl in *. rewrite lookup_insert_eq, lookup_insert_ne by lia. done.
    - destruct (Z.eqb_spec (a + z) a); [lia|].
      rewrite lookup_insert_eq, lookup_insert_ne by lia. done. }
  destruct Ha1 as [Ha1 Haz1].
  destruct (inv_join s1 B1 a z z' HI1 Ha1 Haz1) as (HI2 & HQ2 & HU2).
  assert (EB : <[a := (z + z', THole)]> (delete (a + z) B1) = B').
  { subst B1 B'. destruct Hb as [-> | ->].
    - by rewrite delete_insert_ne, insert_insert_eq by lia.
    - by rewrite delete_insert_eq. }
  rewrite EB in HI2, HU2. fold s' in HI2, HQ2.
  split; [done| | | | |by etrans].
  - apply lookup_insert_eq.
  - intros x zx Hx. subst B'. destruct (Z.eq_dec a x) as [<-|Hne]; [done|].
    rewrite lookup_insert_ne in Hx by done. apply lookup_delete_Some in Hx as [Hx1 Hx].
    apply Ho in Hx. destruct (b =? a); congruence.
  - intros x zx kx zy ky Hx Hy Hxa Hya. subst B'. rewrite lookup_insert_ne in Hx by done.
    rewrite lookup_insert_ne in Hy by done. apply lookup_delete_Some in Hx as [Hx1 Hx].
    apply lookup_delete_Some in Hy as [Hy1 Hy].
    apply (Hs x zx kx zy ky Hx Hy); destruct (b =? a); congruence.
  - by eapply tlsf_quiet_trans.
Qed.

(** The two halves of [coalesce_and_free] *)
Definition merge_next (s : tlsf) (block : Z) : tlsf * bool :=
  let next := next_phys s block in
  if flags s next =? __block_free then
    let s := fl_remove s next in
    (set_bsize s block (u32 (bsize s block + bsize s next)), true)
  else (s, false).

Definition merge_prev (s : tlsf) (block : Z) (merged : bool) : tlsf * Z * bool :=
  let prev := prev_phys s block in
  if negb (prev =? 0) && (flags s prev =? __block_free) then
    let s := fl_remove s prev in
    (set_bsize s prev (u32 (bsize s prev + bsize s block)), prev, true)
  else (s, block, merged).

Lemma coalesce_and_free_eq s block :
  coalesce_and_free s block =
  let '(s, merged) := merge_next s block in
  let '(s, block, merged) := merge_prev s block merged in
  fl_insert (if (merged : bool) then set_prev_phys s (next_phys s block) block else s) block.
Proof. done. Qed.

Lemma merge_next_spec s B a z :
  inv s B -> B !! a = Some (z, THole) -> only_hole B a -> sepx B a ->
  let '(s', m) := merge_next s a in
  exists z' B', grown s B s' B' a z' /\
    (forall zy ky, B' !! (a + z') = Some (zy, ky) -> in_use ky = true) /\
    (m = false -> s' = s /\ z' = z) /\
    flags s' a = flags s a /\ z <= z' /\ (forall q zq kq, q < a -> B !! q = Some (zq, kq) -> B' !! q = Some (zq, kq)).
Proof.
  intros HI Ha Ho Hs. destruct (tlsf_blk_range HI _ _ _ Ha) as (_ & Hz & _).
  unfold merge_next, next_phys. rewrite (i_size _ _ HI _ _ _ Ha).
  assert (Hpl := hdr_place_end s B a z THole HI Ha).
  destruct (Z.eqb_spec (flags s (a + z)) __block_free) as [Hf|Hf].
  - apply (flags_free_iff s B a) in Hf as [z' Hz']; [|done..|lia].
    exists (z + z'), (<[a := (z + z', THole)]> (delete (a + z) B)).
    assert (HG := join_free s B a z z' (a + z)). rewrite (proj2 (Z.eqb_neq (a + z) a)) in HG by lia.
    destruct (tlsf_blk_range HI _ _ _ Hz') as (_ & Hz2 & _).
    split_and!; [apply HG; auto| |done| |lia|].
    2: { unfold flags, set_bsize. cbn. rewrite rd_wr_ne by lia.
         apply (remove_header s B (a + z) z' HI Hz' a 4); [left; eauto|auto]. }
    2: { intros q zq kq Hq Hlk. by rewrite lookup_insert_ne, lookup_delete_ne by lia. }
    clear HG. intros zy ky Hy. rewrite lookup_insert_ne in Hy by lia. apply lookup_delete_Some in Hy as [_ Hy].
    rewrite Z.add_assoc in Hy. by destruct (Hs (a + z) z' TFree zy ky Hz' Hy ltac:(lia) ltac:(lia)).
  - exists z, B. split_and!; [by apply grown_refl| |done|done|lia|done].
    intros zy ky Hy. destruct (in_use ky) eqn:Ek; [done|]. exfalso. apply Hf.
    apply (flags_free_iff s B a); [done..|lia|]. exists zy. destruct ky; try done.
    apply Ho in Hy. lia.
Qed.

Lemma prev_place s B a z :
  inv s B -> B !! a = Some (z, THole) -> only_hole B a ->
  (prev_phys s a = base s /\ forall x zx kx, B !! x = Some (zx, kx) -> x + zx <> a) \/
  exists p zp kp, B !! p = Some (zp, kp) /\ p + zp = a /\ prev_phys s a = p /\ kp <> THole.
Proof.
  intros HI Ha Ho. destruct (pt_prev (i_til _ _ HI) a z THole Ha) as [->|(p & zp & kp & Hp & E)].
  - left. split; [apply HI|]. intros x zx kx Hx E.
    destruct (tlsf_blk_range HI _ _ _ Hx) as (? & ? & _). lia.
  - right. exists p, zp, kp. destruct (tlsf_blk_range HI _ _ _ Hp) as (_ & ? & _).
    assert (kp <> THole) by (intros ->; apply Ho in Hp; lia).
    split_and!; try done. rewrite <- E. by apply (i_back _ _ HI p zp kp).
Qed.

Lemma merge_prev_spec s B a z m :
  inv s B -> B !! a = Some (z, THole) -> only_hole B a -> sepx B a ->
  (forall zy ky, B !! (a + z) = Some (zy, ky) -> in_use ky = true) ->
  let '(s', b, m') := merge_prev s a m in
  exists z' B', grown s B s' B' b z' /\ sep B' /\ (m' = false -> m = false /\ s' = s /\ b = a /\ z' = z).
Proof.
  intros HI Ha Ho Hs Hnext. destruct (tlsf_blk_range HI _ _ _ Ha) as (_ & Hz & _).
  destruct (i_geo _ _ HI) as [Hbase _ _ _ _].
  assert (Hsep : (forall x zx kx, B !! x = Some (zx, kx) -> x + zx = a -> in_use kx = true) -> sep B).
  { intros Hp. apply (sepx_sep B a Hs).
    - intros z0 k zy ky Ha' Hy. rewrite Ha in Ha'. simplify_eq. right. by eapply Hnext.
    - intros z0 k x zx kx _ Hx E. left. by eapply Hp. }
  unfold merge_prev.
  destruct (prev_place s B a z HI Ha Ho) as [[Ep Hnone]|(p & zp & kp & Hp & Epa & Ep & Hk)]; rewrite Ep.
  - rewrite (i_ss _ _ HI). rewrite andb_false_r. exists z, B.
    split_and!; [by apply grown_refl| |done]. apply Hsep. intros x zx kx Hx E. by apply (Hnone x zx kx) in E.
  - destruct (tlsf_blk_range HI _ _ _ Hp) as (_ & Hzp & _ & _ & _ & _ & Hp0 & _).
    destruct (Z.eqb_spec p 0); [lia|]. cbn [negb andb].
    assert (Hpl : hdr_place s B p) by (left; eauto).
    destruct (Z.eqb_spec (flags s p) __block_free) as [Hf|Hf].
    + apply (flags_free_iff s B a) in Hf as [zp' Hp']; [|done..|lia].
      rewrite Hp in Hp'. injection Hp' as <- ->.
      assert (HG := join_free s B p zp z p). rewrite Z.eqb_refl, Epa in HG.
      exists (zp + z), (<[p := (zp + z, THole)]> (delete a B)).
      assert (HG' := HG HI Hp Ha (or_introl eq_refl) Ho Hs). clear HG.
      split_and!; [done| |done]. apply (sepx_sep _ p (gr_sepx _ _ _ _ _ _ HG')).
      * intros z0 k zy ky H1 H2. rewrite lookup_insert_eq in H1. injection H1 as <- <-.
        rewrite lookup_insert_ne in H2 by lia. apply lookup_delete_Some in H2 as [_ H2].
        right. apply (Hnext zy ky). by replace (a + z) with (p + (zp + z)) by lia.
      * intros z0 k x zx kx _ Hx E. assert (Hxp : p <> x).
        { intros ->. rewrite lookup_insert_eq in Hx. simplify_eq. lia. }
        rewrite lookup_insert_ne in Hx by done. apply lookup_delete_Some in Hx as [Hxa Hx].
        left. rewrite <- E in Hp. by destruct (Hs x zx kx zp TFree Hx Hp ltac:(lia) ltac:(lia)).
    + exists z, B. split_and!; [by apply grown_refl| |done]. apply Hsep. intros x zx kx Hx E.
      assert (x = p) as -> by (by eapply (pt_end_inj (i_til _ _ HI) _ _ _ _ _ _ Hx Hp); lia).
      rewrite Hp in Hx. injection Hx as <- <-. destruct kp as [|[]| |]; try done.
      exfalso. apply Hf. by apply (i_flags _ _ HI p zp TFree).
Qed.

(** Returning a hole: afterwards no block is in transit, no two neighbours are
    both free, and the blocks in use are the same. *)
Lemma coalesce_and_free_spec s B a z :
  inv s B -> B !! a = Some (z, THole) -> prev_phys s (a + z) = a -> only_hole B a -> sepx B a ->
  let s' := coalesce_and_free s a in
  exists B', inv s' B' /\ no_hole B' /\ sep B' /\ quiet B s s' /\ same_use B B'.
Proof.
  intros HI Ha Hb Ho Hs. cbn zeta. rewrite coalesce_and_free_eq.
  pose proof (merge_next_spec s B a z HI Ha Ho Hs) as H1.
  destruct (merge_next s a) as [s1 m]. destruct H1 as (z1 & B1 & HG1 & Hnext & Hm1 & _).
  pose proof (merge_prev_spec s1 B1 a z1 m (gr_inv _ _ _ _ _ _ HG1) (gr_hole _ _ _ _ _ _ HG1)
    (gr_only _ _ _ _ _ _ HG1) (gr_sepx _ _ _ _ _ _ HG1) Hnext) as H2.
  destruct (merge_prev s1 a m) as [[s2 b] m']. destruct H2 as (z2 & B2 & HG2 & Hsep & Hm2).
  pose proof (grown_trans _ _ _ _ _ _ _ _ _ _ HG1 HG2) as [HI2 Hb2 Ho2 _ HQ2 HU2].
  set (s3 := if m' then set_prev_phys s2 (next_phys s2 b) b else s2).
  assert (H3 : inv s3 B2 /\ prev_phys s3 (b + z2) = b /\ quiet B2 s2 s3).
  { subst s3. destruct m'.
    - unfold next_phys. rewrite (i_size _ _ HI2 _ _ _ Hb2). by apply inv_set_back.
    - destruct (Hm2 eq_refl) as (-> & -> & -> & ->). destruct (Hm1 eq_refl) as (-> & ->).
      split_and!; try done. }
  destruct H3 as (HI3 & Hb3 & HQ3).
  destruct (inv_fl_insert s3 B2 b z2 HI3 Hb2 Hb3) as (HI4 & HQ4).
  exists (<[b := (z2, TFree)]> B2). split_and!; [done| | | |].
  - by apply only_hole_fill.
  - by apply (sep_recolor B2 b z2 THole).
  - apply (tlsf_quiet_trans B B2 s s2 _ HU2 HQ2). by apply (tlsf_quiet_trans B2 B2 s2 s3).
  - etrans; [exact HU2|]. by apply (same_use_insert B2 b z2 THole).
Qed.

(** ** The header a merge leaves behind *)

Lemma merge_prev_free s B a z m q zq :
  inv s B -> B !! a = Some (z, THole) -> B !! q = Some (zq, TFree) -> q + zq = a -> only_hole B a -> sepx B a ->
  exists s', merge_prev s a m = (s', q, true) /\ inv s' (<[q := (zq + z, THole)]> (delete a B)) /\
    flags s' a = flags s a /\ bsize s' a = bsize s a.
Proof.
  intros HI Ha Hq E Ho Hs. destruct (tlsf_blk_range HI _ _ _ Hq) as (_ & Hzq & _ & _ & _ & _ & Hq0 & _).
  assert (Ep : prev_phys s a = q) by (rewrite <- E; by apply (i_back _ _ HI q zq TFree)).
  assert (Ef : flags s q = __block_free) by (by apply (i_flags _ _ HI q zq TFree)).
  assert (HG := join_free s B q zq z q). rewrite Z.eqb_refl, E in HG.
  specialize (HG HI Hq Ha (or_introl eq_refl) Ho Hs).
  assert (Hkeep : forall d, d = 0 \/ d = 4 -> rd (mem (fl_remove s q)) (a + d) = rd (mem s) (a + d)).
  { intros d Hd. apply (remove_header s B q zq HI Hq a d); [left; eauto|lia]. }
  unfold merge_prev. rewrite Ep, Ef. destruct (Z.eqb_spec q 0); [lia|]. cbn [negb andb Z.eqb Pos.eqb]. rewrite Z.eqb_refl.
  eexists. split; [reflexivity|]. split; [apply HG|].
  split; [unfold flags|unfold bsize]; unfold set_bsize; cbn; (rewrite rd_wr_ne by lia); by apply Hkeep; auto.
Qed.

(** A block that is merged into the free block before it keeps its old flags in
    what is now free memory; its old size, or that with the free block behind. *)
Lemma coalesce_stale s B a z q zq :
  inv s B -> B !! a = Some (z, THole) -> only_hole B a -> sepx B a -> B !! q = Some (zq, TFree) -> q + zq = a ->
  let s' := coalesce_and_free s a in flags s' a = flags s a /\ z <= bsize s' a < 2 ^ 32.
Proof.
  intros HI Ha Ho Hs Hq E. cbn zeta. rewrite coalesce_and_free_eq.
  pose proof (merge_next_spec s B a z HI Ha Ho Hs) as H1.
  destruct (merge_next s a) as [s1 m]. destruct H1 as (z1 & B1 & HG1 & _ & _ & Ef1 & Hz1 & Hk1).
  destruct (tlsf_blk_range HI _ _ _ Hq) as (_ & Hzq & _).
  pose proof (gr_inv _ _ _ _ _ _ HG1) as HI1. pose proof (gr_hole _ _ _ _ _ _ HG1) as Ha1.
  destruct (tlsf_blk_range HI _ _ _ Ha) as (_ & Hz & _).
  destruct (tlsf_blk_range HI1 _ _ _ Ha1) as (_ & _ & _ & _ & _ & _ & _ & Hz32 & _).
  destruct (merge_prev_free s1 B1 a z1 m q zq HI1 Ha1 (Hk1 q zq TFree ltac:(lia) Hq) E
    (gr_only _ _ _ _ _ _ HG1) (gr_sepx _ _ _ _ _ _ HG1)) as (s2 & -> & HI2 & Ef2 & Es2).
  set (B2 := <[q := (zq + z1, THole)]> (delete a B1)) in *.
  assert (Hq2 : B2 !! q = Some (zq + z1, THole)) by apply lookup_insert_eq.
  unfold next_phys. rewrite (i_size _ _ HI2 _ _ _ Hq2).
  destruct (inv_set_back s2 B2 q (zq + z1) HI2 Hq2) as (HI3 & Hb3 & _).
  set (s3 := set_prev_phys s2 _ q) in *.
  assert (Hkeep : forall d, d = 0 \/ d = 4 -> rd (mem (fl_insert s3 q)) (a + d) = rd (mem s2) (a + d)).
  { intros d Hd. rewrite (insert_rd s3 B2 q (zq + z1) HI3 Hq2); [subst s3; cbn; apply rd_wr_ne; lia|lia|lia|lia|].
    intros Hh. destruct (insert_head_ne s3 B2 q (zq + z1) HI3 Hq2 Hh) as (zh & Hzh & _ & Hne).
    destruct (tlsf_blk_range HI3 _ _ _ Hzh) as (_ & Hzh64 & _).
    pose proof (pt_disj _ _ _ (i_til _ _ HI3) _ _ _ _ _ _ Hzh Hq2 Hne). lia. }
  unfold flags, bsize in *. rewrite !Hkeep, Ef2, Ef1, Es2 by auto.
  fold (bsize s1 a). rewrite (i_size _ _ HI1 _ _ _ Ha1). split; [done|lia].
Qed.
