(* ===== verification/TlsfWf.v ===== *)
(** * The two-level segregated fit list: well-formed states

    [wf] adds the byte counters and the ring of temporal blocks to [inv]; every
    operation preserves it and is described by its effect on the blocks. *)

From S2P Require Import Prelude.
From S2P Require Import Intrusive.
From S2P Require Import Config.
From S2P Require Import Tlsf.
From S2P Require Import TlsfClass.
From S2P Require Import TlsfInv.
From S2P Require Import TlsfOps.
From S2P Require Import TlsfFind.

(** ** Byte counts *)

Definition size_if (p : tkind -> bool) (x : Z * tkind) : Z := if p x.2 then x.1 else 0.
Definition is_alloc (k : tkind) : bool := match k with TAlloc _ => true | _ => false end.
Definition is_tomb (k : tkind) : bool := match k with TTomb => true | _ => false end.

Lemma blocks_total s B : inv s B -> msum fst B = total s.
Proof.
  intros HI. destruct (i_geo _ _ HI) as [_ _ Ht _ _].
  replace (total s) with (hi s - lo s) by (unfold hi, lo; lia).
  apply msum_cover; [unfold hi, lo; lia| | |].
  - intros i [z k] Hi. destruct (tlsf_blk_range HI _ _ _ Hi) as (? & ? & _ & _ & ? & _). cbn. lia.
  - intros i [z k] j [z' k'] Hi Hj Hne. by apply (pt_disj _ _ _ (i_til _ _ HI) i z k j z' k').
  - intros j Hj. destruct (pt_cover _ _ _ (i_til _ _ HI) j Hj) as (a & z & k & Ha & Hr).
    by exists a, (z, k).
Qed.

(** Disjoint kinds of blocks fit together in the data region. *)
Lemma size_bound s B p q :
  inv s B -> (forall k, p k && q k = false) ->
  0 <= msum (size_if p) B /\ 0 <= msum (size_if q) B /\
  msum (size_if p) B + msum (size_if q) B <= total s.
Proof.
  intros HI Hpq. rewrite <- (blocks_total s B HI).
  assert (Hz : forall i x, B !! i = Some x -> 0 <= x.1).
  { intros i [z k] Hi. destruct (tlsf_blk_range HI _ _ _ Hi) as (_ & ? & _). cbn. lia. }
  rewrite <- msum_add. split_and!.
  - apply (msum_mono _ fst). intros i x Hx. specialize (Hz i x Hx). unfold size_if. destruct (p x.2); lia.
  - apply (msum_mono _ fst). intros i x Hx. specialize (Hz i x Hx). unfold size_if. destruct (q x.2); lia.
  - apply msum_mono. intros i x Hx. specialize (Hz i x Hx). specialize (Hpq x.2). unfold size_if.
    destruct (p x.2), (q x.2); try done; lia.
Qed.

(** The sum changes by the one block that differs. *)
Lemma size_new p B B' a z k :
  (forall k, p k = true -> in_use k = true) ->
  B' !! a = Some (z, k) -> (forall zy ky, B !! a = Some (zy, ky) -> in_use ky = false) ->
  (forall j zj kj, in_use kj = true -> j <> a -> B !! j = Some (zj, kj) <-> B' !! j = Some (zj, kj)) ->
  msum (size_if p) B' = size_if p (z, k) + msum (size_if p) B.
Proof.
  intros Hp Ha Hfree Hj. rewrite (msum_delete _ B' a _ Ha). f_equal.
  apply msum_agree. intros j [zj kj] Hw. unfold size_if in Hw. cbn in Hw.
  destruct (p kj) eqn:Ek; [|done]. apply Hp in Ek. destruct (Z.eq_dec a j) as [<-|Hne].
  - rewrite lookup_delete_eq. split; [done|]. intros Hb. apply Hfree in Hb. congruence.
  - rewrite lookup_delete_ne by done. symmetry. by apply Hj.
Qed.

(** ** The ring of temporal blocks *)

Definition slot (s : tlsf) (i r : Z) : Z := rd (temporal_active s) (i * __temporal_ring + r).

Record ring (s : tlsf) (B : pblocks) : Prop := {
  r_slot i r : 0 <= r < 2 -> slot s i r <> 0 ->
    exists z, B !! slot s i r = Some (z, TAlloc true) /\ 0 <= i < fl_count s * 16 /\
      (class_for z = i \/ (64 < z /\ class_for (z - 32) = i));
  r_once i r i' r' : 0 <= r < 2 -> 0 <= r' < 2 -> slot s i r <> 0 -> slot s i r = slot s i' r' ->
    i = i' /\ r = r';
  r_one i : slot s i 0 = 0 \/ slot s i 1 = 0;
  r_rotor i : 0 <= rd (temporal_rotor s) i < 2
}.

Record wf (s : tlsf) (B : pblocks) : Prop := {
  w_inv : inv s B;
  w_holes : no_hole B;
  w_sep : sep B;
  w_alloc : allocated_bytes s = msum (size_if is_alloc) B;
  w_tomb : tombstoned_bytes s = msum (size_if is_tomb) B;
  w_ring : ring s B
}.

Lemma inv_ext s s' B :
  inv s B -> mem s' = mem s -> base s' = base s -> total s' = total s ->
  fl_count s' = fl_count s -> heads s' = heads s -> sl_bitmap s' = sl_bitmap s ->
  fl_bitmap s' = fl_bitmap s -> inv s' B.
Proof.
  intros [[] HT Hs Hf Hb H1 H2 H3 Hl Hbits H4 H5] Em Eb Et Ef Eh Es El.
  assert (Elo : lo s' = lo s) by (unfold lo; congruence).
  assert (Ehi : hi s' = hi s) by (unfold hi; congruence).
  split; unfold bsize, flags, prev_phys in *; rewrite ?Elo, ?Ehi, ?Em, ?Eb, ?Et, ?Ef, ?Eh, ?Es, ?El; try done.
  split; rewrite ?Ehi, ?Eb, ?Et, ?Ef; done.
Qed.

Lemma tlsf_ring_mono s B s' B' :
  ring s B -> temporal_active s' = temporal_active s -> temporal_rotor s' = temporal_rotor s ->
  fl_count s' = fl_count s ->
  (forall a z, B !! a = Some (z, TAlloc true) -> B' !! a = Some (z, TAlloc true)) -> ring s' B'.
Proof.
  intros [Hs Ho H1 Hr] Ea Er Ef HB. unfold slot in *.
  split; unfold slot; rewrite ?Ea, ?Er, ?Ef; try done.
  intros i r Hr' Hne. destruct (Hs i r Hr' Hne) as (z & Hz & Hi & Hc). exists z. auto.
Qed.

(** ** Serving a request *)

(** What a served request does: one block that was free is in use, other blocks
    in use keep their place and contents. *)
Record served (s : tlsf) (B : pblocks) (s' : tlsf) (B' : pblocks) (a z : Z) (k : tkind) : Prop := {
  sv_inv : inv s' B';
  sv_holes : no_hole B';
  sv_sep : sep B';
  sv_blk : B' !! a = Some (z, k);
  sv_fresh : exists z0, B !! a = Some (z0, TFree);
  sv_others j zj kj : in_use kj = true -> j <> a -> B !! j = Some (zj, kj) <-> B' !! j = Some (zj, kj);
  sv_mem j zj kj c : B !! j = Some (zj, kj) -> in_use kj = true -> j + 32 <= c < j + zj ->
    rd (mem s') c = rd (mem s) c;
  sv_base : base s' = base s;
  sv_total : total s' = total s;
  sv_fl : fl_count s' = fl_count s;
  sv_alloc : allocated_bytes s' = u64 (allocated_bytes s + z);
  sv_tomb : tombstoned_bytes s' = tombstoned_bytes s;
  sv_active : temporal_active s' = temporal_active s;
  sv_rotor : temporal_rotor s' = temporal_rotor s
}.

Lemma tlsf_commit_served s B a z0 n k f :
  inv s B -> no_hole B -> sep B -> B !! a = Some (z0, TFree) -> 64 <= n <= z0 -> (32 | n) ->
  in_use k = true -> tflags k = Some f ->
  exists z B', served s B (commit (fl_remove s a) a n f) B' a z k /\ (z = n \/ z = n + 32) /\
    bsize (commit (fl_remove s a) a n f) a = z.
Proof.
  intros HI Hh Hs Ha Hn Hdn Hk Hf.
  assert (HkF : k <> TFree) by (by intros ->). assert (HkH : k <> THole) by (by intros ->).
  destruct (inv_fl_remove s B a z0 HI Ha) as (HI1 & HQ1 & Hb1).
  set (B1 := <[a := (z0, THole)]> B) in *. set (s1 := fl_remove s a) in *.
  assert (HU1 : same_use B B1) by (by apply (same_use_insert B a z0 TFree)).
  assert (Ha1 : B1 !! a = Some (z0, THole)) by apply lookup_insert_eq.
  assert (Ho1 : only_hole B1 a) by (by apply only_hole_insert, no_hole_only).
  assert (Hs1 : sep B1) by (by apply (sep_recolor B a z0 TFree)).
  destruct (try_split_spec s1 B1 a z0 n HI1 Ha1 Hb1 Ho1 Hs1 Hn Hdn)
    as (z & B2 & HI2 & Ha2 & Hb2 & Hz & HQ2 & HU2 & Ho2 & Hs2).
  set (s2 := try_split s1 a n) in *.
  assert (HI3 : inv (set_flags s2 a f) (<[a := (z, k)]> B2)) by (by apply (inv_set_flags s2 B2 a z THole)).
  pose proof (tlsf_quiet_trans B B1 s s1 s2 HU1 HQ1 HQ2) as HQ.
  assert (HU : same_use B B2) by (by etrans).
  exists z, (<[a := (z, k)]> B2).
  assert (Esz : bsize (set_flags s2 a f) a = z).
  { eapply (i_size _ _ HI3). apply lookup_insert_eq. }
  split; [|by split]. unfold commit. fold s1 s2. split.
  - by apply (inv_ext (set_flags s2 a f)).
  - by apply only_hole_fill.
  - apply (sepx_sep _ a); [by apply sepx_insert| |].
    + intros z' k' zy ky Hx _. rewrite lookup_insert_eq in Hx. simplify_eq. by left.
    + intros z' k' x zx kx Hx _ _. rewrite lookup_insert_eq in Hx. simplify_eq. by right.
  - apply lookup_insert_eq.
  - by exists z0.
  - intros j zj kj Hkj Hne. rewrite lookup_insert_ne by done. by apply HU.
  - intros j zj kj c Hj Hkj Hc. cbn. rewrite rd_wr_ne; [by apply (q_mem _ _ _ HQ j zj kj)|].
    assert (Hne : a <> j) by (intros ->; rewrite Ha in Hj; by simplify_eq).
    destruct (tlsf_blk_range HI _ _ _ Ha) as (_ & ? & _).
    pose proof (pt_disj _ _ _ (i_til _ _ HI) _ _ _ _ _ _ Ha Hj Hne). lia.
  - apply HQ.
  - apply HQ.
  - apply HQ.
  - cbn. f_equal. rewrite (q_alloc _ _ _ HQ). f_equal. exact Esz.
  - apply HQ.
  - apply HQ.
  - apply HQ.
Qed.

Lemma served_wf s B s' B' a z t :
  wf s B -> served s B s' B' a z (TAlloc t) -> wf s' B'.
Proof.
  intros HW HS. pose proof (sv_inv _ _ _ _ _ _ _ HS) as HI'.
  destruct (sv_fresh _ _ _ _ _ _ _ HS) as [z0 Hz0].
  assert (Hfree : forall zy ky, B !! a = Some (zy, ky) -> in_use ky = false)
    by (intros zy ky Hy; rewrite Hz0 in Hy; by simplify_eq).
  assert (Halloc : forall k, is_alloc k = true -> in_use k = true) by (by intros []).
  assert (Htomb : forall k, is_tomb k = true -> in_use k = true) by (by intros []).
  pose proof (size_new is_alloc B B' a z _ Halloc (sv_blk _ _ _ _ _ _ _ HS) Hfree (sv_others _ _ _ _ _ _ _ HS)) as E1.
  pose proof (size_new is_tomb B B' a z _ Htomb (sv_blk _ _ _ _ _ _ _ HS) Hfree (sv_others _ _ _ _ _ _ _ HS)) as E2.
  destruct (size_bound s' B' is_alloc is_tomb HI') as (? & ? & ?); [by intros []|].
  destruct (i_geo _ _ HI') as [_ _ Ht _ _].
  split; try done.
  - apply HS.
  - apply HS.
  - rewrite (sv_alloc _ _ _ _ _ _ _ HS), (w_alloc _ _ HW), E1. cbn. rewrite u64_small; cbn in *; lia.
  - rewrite (sv_tomb _ _ _ _ _ _ _ HS), (w_tomb _ _ HW), E2. done.
  - apply (tlsf_ring_mono s B); try apply HS; [apply HW|]. intros j zj Hj.
    apply (sv_others _ _ _ _ _ _ _ HS); [done| |done]. intros ->. congruence.
Qed.

Lemma tlsf_served_used s B s' B' a z t :
  wf s B -> served s B s' B' a z (TAlloc t) -> wf s' B' -> used s' = used s + z.
Proof.
  intros HW HS HW'. pose proof (sv_alloc _ _ _ _ _ _ _ HS) as E.
  unfold used. rewrite (w_alloc _ _ HW'), (w_alloc _ _ HW).
  destruct (sv_fresh _ _ _ _ _ _ _ HS) as [z0 Hz0].
  rewrite (size_new is_alloc B B' a z (TAlloc t)); [unfold size_if at 1; cbn; lia|by intros []|apply HS| |apply HS].
  intros zy ky Hy. rewrite Hz0 in Hy. by simplify_eq.
Qed.

(** ** Requests *)

(** Requests the caller may pass: the arena refuses more than half of the
    address space. *)
Definition request (n : Z) : Prop := 0 <= n < 2 ^ 63 - 128.

Lemma adjusted_block_size_spec n :
  request n ->
  let m := adjusted_block_size n in
  (32 | m) /\ n + 64 <= m < n + 96 /\ 64 <= m <= 2 ^ 63.
Proof.
  intros Hn m. unfold request in Hn. subst m. unfold adjusted_block_size.
  change (32 + __hdr_offset) with 64. change (__block_align - 1) with (2 ^ 5 - 1).
  change __min_block with 64. unfold usize_max.
  destruct (Z.ltb_spec (2 ^ 64 - 1 - 64 - (2 ^ 5 - 1)) n); [lia|].
  rewrite ldiff_mask by lia. set (v := n + 64 + (2 ^ 5 - 1)).
  pose proof (Z.div_mod v (2 ^ 5) ltac:(lia)). pose proof (Z.mod_pos_bound v (2 ^ 5) ltac:(lia)).
  destruct (Z.ltb_spec (2 ^ 5 * (v / 2 ^ 5)) 64); [lia|].
  split; [apply Z.divide_factor_l|]. lia.
Qed.

(** A search that takes a block serves the request. *)
Lemma search_commit s B n k f :
  wf s B -> 64 <= n <= 2 ^ 63 -> (32 | n) -> k = TAlloc (negb (f =? __block_alloc)) -> tflags k = Some f ->
  (exists a z B', let s' := commit (fl_remove s a) a n f in
     find_free s n = (a, fl_remove s a) /\ a <> 0 /\ served s B s' B' a z k /\ wf s' B' /\
     (z = n \/ z = n + 32) /\ bsize s' a = z) \/
  (find_free s n = (0, s) /\ forall a z, B !! a = Some (z, TFree) -> class_of z < class_for n).
Proof.
  intros HW Hn Hdn Ek Hf. pose proof (w_inv _ _ HW) as HI.
  destruct (find_free_spec s B n HI Hn) as [(a & z0 & Ha & Hc & E)|]; [left|by right].
  destruct (tlsf_blk_range HI _ _ _ Ha) as (_ & Hz0 & _ & _ & _ & _ & Ha0 & ? & _).
  pose proof (class_for_enough n z0 Hn ltac:(lia) Hc) as Hle.
  destruct (tlsf_commit_served s B a z0 n k f HI (w_holes _ _ HW) (w_sep _ _ HW) Ha) as (z & B' & HS & Hz & Eb);
    [lia|done|by rewrite Ek|done|].
  exists a, z, B'. split_and!; try done; [lia|]. rewrite Ek in HS. by apply (served_wf s B _ _ a z _ HW HS).
Qed.

Lemma tlsf_allocate_spec s B n :
  wf s B -> request n ->
  let m := adjusted_block_size n in
  (exists a z s' B', allocate s n = (Chunk (a + 32) (z - 32), s') /\
     served s B s' B' a z (TAlloc false) /\ wf s' B' /\ (z = m \/ z = m + 32)) \/
  (allocate s n = (null_chunk, s) /\ forall a z, B !! a = Some (z, TFree) -> class_of z < class_for m).
Proof.
  intros HW Hn m. pose proof (w_inv _ _ HW) as HI. destruct (i_geo _ _ HI) as [Hb _ _ _ _].
  destruct (adjusted_block_size_spec n Hn) as (Hd & _ & Hm). fold m in Hd, Hm.
  unfold allocate. fold m. destruct (Z.eqb_spec (base s) 0); [lia|]. destruct (Z.eqb_spec m 0); [lia|].
  destruct (search_commit s B m (TAlloc false) __block_alloc HW Hm Hd eq_refl eq_refl)
    as [(a & z & B' & E & Ha & HS & HW' & Hz & Eb)|[E Hno]]; rewrite E.
  - left. destruct (Z.eqb_spec a 0); [done|]. eexists a, z, _, B'.
    split; [rewrite Eb; reflexivity|]. done.
  - right. done.
Qed.

Lemma class_lo_pow2 n : 64 <= n < 2 ^ 64 -> Z.land n (n - 1) = 0 -> class_lo (class_of n) = n.
Proof.
  intros Hn Hp. destruct (mapping_insert_eq n Hn) as (E & _ & Hl).
  pose proof (Z.log2_spec n ltac:(lia)) as [Hlo Hhi].
  assert (En : n = 2 ^ Z.log2 n).
  { destruct (Z.eq_dec n (2 ^ Z.log2 n)) as [|Hne]; [done|exfalso].
    assert (E1 : Z.log2 (n - 1) = Z.log2 n) by (apply Z.log2_unique; lia).
    assert (Hb : Z.testbit (Z.land n (n - 1)) (Z.log2 n) = true).
    { rewrite Z.land_spec, Z.bit_log2, <- E1, Z.bit_log2 by lia. done. }
    by rewrite Hp, Z.bits_0 in Hb. }
  unfold class_of. rewrite E. set (l := Z.log2 n) in *. rewrite En at 1.
  replace l with (4 + (l - 4)) at 2 by lia. rewrite Z.pow_add_r, Z.div_mul by (pose proof (pow2_gt0 (l - 4)); lia).
  change (2 ^ 4 - 16) with 0. unfold idx, class_lo. change __sl_count with 16.
  rewrite Z.add_0_r, Z.mod_mul, Z.div_mul by lia. rewrite En. change (16 + 0) with (2 ^ 4).
  rewrite <- Z.pow_add_r by lia. f_equal. lia.
Qed.

Lemma tlsf_allocate_exact_spec s B n :
  wf s B -> 0 <= n < 2 ^ 64 ->
  allocate_exact s n = (null_chunk, s) \/
  exists a z s' B', allocate_exact s n = (Chunk (a + 32) (z - 32), s') /\
    served s B s' B' a z (TAlloc false) /\ wf s' B' /\ B !! a = Some (z, TFree) /\ n <= z.
Proof.
  intros HW Hn. pose proof (w_inv _ _ HW) as HI. unfold allocate_exact.
  destruct (Z.eqb_spec (base s) 0); [by left|]. change __min_block with 64.
  destruct (Z.ltb_spec n 64); [by left|]. destruct (Z.land n (n - 1) =? 0) eqn:Ep; [|by left]. cbn [negb].
  destruct (mapping_insert n) as [fi si] eqn:Em. destruct (_ || _); [by left|].
  destruct (Z.eqb_spec (rd (heads s) (idx fi si)) 0); [by left|]. right.
  destruct (tlsf_free_head HI _ n1) as (z & Hz & Hc & _). set (a := rd (heads s) (idx fi si)) in *.
  destruct (tlsf_blk_range HI _ _ _ Hz) as (_ & Hz0 & Hdz & _ & _ & _ & _ & Hz32 & _).
  assert (Hle : n <= z).
  { rewrite <- (class_lo_pow2 n ltac:(lia)) by lia. destruct (class_of_bounds z ltac:(lia)) as [[Hl _] _].
    unfold class_of at 1. rewrite Em. by rewrite <- Hc. }
  destruct (tlsf_commit_served s B a z z (TAlloc false) __block_alloc HI (w_holes _ _ HW) (w_sep _ _ HW) Hz)
    as (z' & B' & HS & Hz' & Eb); [lia|done|done|done|].
  assert (Eu : try_split (fl_remove s a) a z = fl_remove s a).
  { unfold try_split. destruct (inv_fl_remove s B a z HI Hz) as (HI1 & _).
    rewrite (i_size _ _ HI1 a z THole) by apply lookup_insert_eq. by rewrite Z.sub_diag. }
  unfold commit in HS, Eb. rewrite Eu in HS, Eb.
  exists a, z. eexists _, B'.
  assert (Ez : z' = z).
  { rewrite <- Eb. destruct (inv_fl_remove s B a z HI Hz) as (HI1 & _).
    unfold bsize. cbn. rewrite rd_wr_ne by lia. apply (i_size _ _ HI1 a z THole), lookup_insert_eq. }
  rewrite Ez in *. split; [cbn zeta; by rewrite Eb|]. split; [done|].
  split; [by apply (served_wf s B _ _ a z false)|done].
Qed.

(** ** Temporal requests *)

Lemma class_for_parts m :
  64 <= m <= 2 ^ 63 -> exists fi si, mapping_search m = (fi, si) /\ 0 <= fi /\ 0 <= si < 16 /\
    class_for m = idx fi si.
Proof.
  intros Hm. destruct (class_for_bounds m Hm) as (_ & _ & Hi & _ & Em & Hw).
  assert (Hp : 0 < 2 ^ (Z.log2 m - 4)).
  { apply pow2_gt0. pose proof (Z.log2_le_mono 64 m ltac:(lia)). change (Z.log2 64) with 6 in *. lia. }
  destruct (mapping_insert_eq (m + (2 ^ (Z.log2 m - 4) - 1)) ltac:(lia)) as (Ew & Hq & Hl).
  rewrite Ew in Em. eexists _, _. split; [exact Em|]. unfold class_for. rewrite Em. lia.
Qed.

(** Any block a temporal request of class [i] can share: what the ring holds *)
Lemma temporal_shared s B n r :
  wf s B -> request n -> 0 <= r < 2 ->
  let i := class_for (adjusted_block_size n) in
  let a := slot s i r in
  a <> 0 ->
  exists v, 0 <= v < 2 /\ temporal_allocate s n =
    (Chunk (a + __hdr_offset) (bsize s a - __hdr_offset), set_rotor s (wr (temporal_rotor s) i v)).
Proof.
  intros HW Hn Hr i a Ha. destruct (i_geo _ _ (w_inv _ _ HW)) as [Hb _ _ _ _].
  destruct (adjusted_block_size_spec n Hn) as (_ & _ & Hm).
  destruct (r_slot _ _ (w_ring _ _ HW) i r Hr Ha) as (z & _ & Hi & _).
  destruct (class_for_parts _ Hm) as (fi & si & Em & Hfi & Hsi & Ei). fold i in Ei.
  unfold temporal_allocate. destruct (Z.eqb_spec (base s) 0); [lia|].
  destruct (Z.eqb_spec (adjusted_block_size n) 0); [lia|]. rewrite Em, <- Ei.
  assert (Hv : (0 <=? fi) && (fi <? fl_count s) = true).
  { rewrite Ei in Hi. unfold idx in Hi. change __sl_count with 16 in Hi. by repeat case_g. }
  rewrite Hv. pose proof (r_rotor _ _ (w_ring _ _ HW) i) as Hrot. set (q := rd (temporal_rotor s) i) in *.
  assert (Eq : Z.land q (__temporal_ring - 1) = q) by (assert (q = 0 \/ q = 1) as [-> | ->] by lia; done).
  rewrite Eq. fold (slot s i q).
  assert (Hx : 0 <= Z.lxor q 1 < 2 /\ (Z.lxor q 1 = 1 - q)) by (assert (q = 0 \/ q = 1) as [-> | ->] by lia; done).
  destruct Hx as [Hx Ex].
  pose proof (r_one _ _ (w_ring _ _ HW) i) as H1.
  destruct (Z.eqb_spec (slot s i q) 0) as [E|E].
  - fold (slot s i (Z.lxor q 1)). assert (Er : r = Z.lxor q 1).
    { rewrite Ex. destruct (Z.eq_dec r q) as [->|]; [done|]. lia. }
    rewrite <- Er. fold a. destruct (Z.eqb_spec a 0); [done|]. cbn [negb andb].
    exists (Z.lxor r 1). split; [|done]. rewrite Er, Ex.
    assert (q = 0 \/ q = 1) as [-> | ->] by lia; done.
  - assert (Er : r = q).
    { subst a. assert (Hcase : (r = 0 \/ r = 1) /\ (q = 0 \/ q = 1)) by lia.
      destruct Hcase as [[-> | ->] [-> | ->]]; try done; destruct H1; done. }
    rewrite <- Er. fold a. destruct (Z.eqb_spec a 0); [done|]. cbn [negb andb].
    exists (Z.lxor r 1). split; [|done]. rewrite Er. done.
Qed.

(** A shared block may be smaller than the request, by less than a sixteenth of
    its size. *)
Lemma temporal_shared_size s B n r :
  wf s B -> request n -> 0 <= r < 2 ->
  let m := adjusted_block_size n in let i := class_for m in
  slot s i r <> 0 ->
  exists a z r v, temporal_allocate s n = (Chunk (a + 32) (z - 32), set_rotor s (wr (temporal_rotor s) i v)) /\
     B !! a = Some (z, TAlloc true) /\ 0 <= r < 2 /\ slot s i r = a /\ 0 <= v < 2 /\ m < z + z / 16 + 1.
Proof.
  intros HW Hn Hr m i Ha. pose proof (w_inv _ _ HW) as HI.
  destruct (adjusted_block_size_spec n Hn) as (_ & _ & Hm). fold m in Hm.
  destruct (temporal_shared s B n r HW Hn Hr Ha) as (v & Hv & E). fold m i in E.
  destruct (r_slot _ _ (w_ring _ _ HW) i r Hr Ha) as (z & Hz & _ & Hc).
  rewrite (i_size _ _ HI _ _ _ Hz) in E. exists (slot s i r), z, r, v. split_and!; try done; try lia.
  destruct (tlsf_blk_range HI _ _ _ Hz) as (_ & Hz0 & Hdz & _ & _ & _ & _ & Hz32 & _).
  destruct (class_for_bounds m Hm) as (Hlo & _ & _). fold i in Hlo.
  destruct Hc as [Hc|[Hz64 Hc]].
  - destruct (class_for_bounds z ltac:(lia)) as (_ & Hhi & _). rewrite Hc in Hhi. lia.
  - assert (96 <= z) by (destruct Hdz as [q ->]; lia).
    destruct (class_for_bounds (z - 32) ltac:(lia)) as (_ & Hhi & _). rewrite Hc in Hhi.
    pose proof (Z.div_le_mono (z - 32) z 16 ltac:(lia) ltac:(lia)). lia.
Qed.

Lemma tlsf_wf_set_rotor s B i v : wf s B -> 0 <= v < 2 -> wf (set_rotor s (wr (temporal_rotor s) i v)) B.
Proof.
  intros [HI ? ? ? ? [Hs Ho H1 Hr]] Hv. split; try done; [by apply (inv_ext s)|].
  split; try done. intros j. cbn. rewrite rd_wr. case_g. apply Hr.
Qed.

(** A fresh temporal block goes into an empty pair of slots. *)
Lemma wf_set_slot s B a z i r v :
  wf s B -> B !! a = Some (z, TAlloc true) -> 0 <= i < fl_count s * 16 -> 0 <= r < 2 -> 0 <= v < 2 ->
  class_for z = i \/ (64 < z /\ class_for (z - 32) = i) ->
  (forall j q, 0 <= q < 2 -> slot s j q <> a) -> slot s i 0 = 0 -> slot s i 1 = 0 ->
  let s' := set_rotor (set_active s (wr (temporal_active s) (i * __temporal_ring + r) a))
              (wr (temporal_rotor s) i v) in
  wf s' B /\ slot s' i r = a.
Proof.
  intros HW Ha Hi Hr Hv Hc Hnew H0 H1' s'. destruct (w_ring _ _ HW) as [Hs Ho H1 Hrot].
  assert (Hslot : forall j q, 0 <= q < 2 -> slot s' j q = if (j =? i) && (q =? r) then a else slot s j q).
  { intros j q Hq. unfold slot. subst s'. cbn. change __temporal_ring with 2. rewrite rd_wr.
    repeat case_b; done. }
  split; [|rewrite Hslot, !Z.eqb_refl by done; done].
  destruct HW as [HI ? ? ? ? _]. split; try done; [by apply (inv_ext s)|]. split.
  - intros j q Hq. rewrite Hslot by done. destruct (Z.eqb_spec j i) as [->|]; cbn [andb]; [|by apply Hs].
    destruct (Z.eqb_spec q r); [|by apply Hs]. intros _. by exists z.
  - intros j q j' q' Hq Hq'. rewrite !Hslot by done.
    destruct (Z.eqb_spec j i), (Z.eqb_spec q r), (Z.eqb_spec j' i), (Z.eqb_spec q' r); cbn [andb];
      subst; try done; intros Hne E; try (by apply Ho); try (by destruct (Hnew _ _ Hq' (eq_sym E)));
      by destruct (Hnew _ _ Hq E).
  - intros j. rewrite !Hslot by lia. destruct (Z.eqb_spec j i) as [->|]; cbn [andb]; [|apply H1].
    destruct (Z.eqb_spec 0 r), (Z.eqb_spec 1 r); try lia; auto.
  - intros j. subst s'. cbn. rewrite rd_wr. case_g. apply Hrot.
Qed.

Lemma temporal_spec s B n :
  wf s B -> request n ->
  let m := adjusted_block_size n in let i := class_for m in
  (exists a z r v, temporal_allocate s n = (Chunk (a + 32) (z - 32), set_rotor s (wr (temporal_rotor s) i v)) /\
     B !! a = Some (z, TAlloc true) /\ 0 <= r < 2 /\ slot s i r = a /\ 0 <= v < 2 /\ m < z + z / 16 + 1) \/
  (exists a z s1 s' B' r, temporal_allocate s n = (Chunk (a + 32) (z - 32), s') /\
     served s B s1 B' a z (TAlloc true) /\ wf s' B' /\ (z = m \/ z = m + 32) /\
     0 <= r < 2 /\ slot s' i r = a /\ mem s' = mem s1 /\ base s' = base s /\ total s' = total s) \/
  (temporal_allocate s n = (null_chunk, s) /\ forall a z, B !! a = Some (z, TFree) -> class_of z < class_for m).
Proof.
  intros HW Hn m i. pose proof (w_inv _ _ HW) as HI. destruct (i_geo _ _ HI) as [Hb _ _ _ _].
  destruct (adjusted_block_size_spec n Hn) as (Hd & _ & Hm). fold m in Hd, Hm.
  destruct (Z.eq_dec (slot s i 0) 0) as [E0|E0]; [destruct (Z.eq_dec (slot s i 1) 0) as [E1|E1]|].
  - (* both slots are empty *)
    right. destruct (class_for_parts m Hm) as (fi & si & Em & Hfi & Hsi & Ei). fold i in Ei.
    unfold temporal_allocate. fold m. destruct (Z.eqb_spec (base s) 0); [lia|].
    destruct (Z.eqb_spec m 0); [lia|]. rewrite Em, <- Ei.
    pose proof (r_rotor _ _ (w_ring _ _ HW) i) as Hrot. set (q := rd (temporal_rotor s) i) in *.
    assert (Eq : Z.land q (__temporal_ring - 1) = q /\ slot s i q = 0 /\ slot s i (Z.lxor q 1) = 0).
    { assert (q = 0 \/ q = 1) as [E|E] by lia; rewrite E; done. }
    destruct Eq as (-> & Eq1 & Eq2). fold (slot s i q). rewrite Eq1. cbn [Z.eqb].
    fold (slot s i (Z.lxor q 1)). rewrite Eq2. cbn [Z.eqb negb]. rewrite andb_false_r.
    destruct (search_commit s B m (TAlloc true) (Z.lor __block_alloc __block_temporal) HW Hm Hd eq_refl eq_refl)
      as [(a & z & B' & E & Ha & HS & HW' & Hz & Eb)|[E Hno]]; rewrite E; [left|right; done].
    destruct (Z.eqb_spec a 0); [done|].
    set (s1 := commit _ _ _ _) in *.
    assert (Hfi' : fi < fl_count s).
    { unfold find_free in E. rewrite Em in E. destruct (Z.leb_spec (fl_count s) fi); [|done].
      by injection E as <-. }
    assert (Hv : (0 <=? fi) && (fi <? fl_count s) = true) by (by repeat case_g).
    rewrite Hv. pose proof (sv_rotor _ _ _ _ _ _ _ HS) as Ero. pose proof (sv_active _ _ _ _ _ _ _ HS) as Eac.
    assert (Eqq : rd (temporal_rotor s1) i = q) by (by rewrite Ero).
    destruct (wf_set_slot s1 B' a z i q (Z.lxor q 1) HW') as [HW2 Hsl].
    + apply HS.
    + rewrite (sv_fl _ _ _ _ _ _ _ HS), Ei. unfold idx. change __sl_count with 16. lia.
    + done.
    + assert (q = 0 \/ q = 1) as [-> | ->] by lia; done.
    + subst i. destruct Hz as [-> | ->]; [by left|right]. split; [lia|]. f_equal. lia.
    + intros j p Hp Hj. unfold slot in Hj. rewrite Eac in Hj. fold (slot s j p) in Hj.
      destruct (r_slot _ _ (w_ring _ _ HW) j p Hp ltac:(congruence)) as (z' & Hz' & _).
      destruct (sv_fresh _ _ _ _ _ _ _ HS) as [z0 Hz0]. congruence.
    + unfold slot. by rewrite Eac.
    + unfold slot. by rewrite Eac.
    + set (s2 := set_rotor _ _) in HW2, Hsl. exists a, z, s1, s2, B', q.
      split; [subst s2; rewrite Eb, <- Eqq; reflexivity|]. split_and!; try done; try lia; apply HS.
  - left. by apply (temporal_shared_size s B n 1).
  - left. by apply (temporal_shared_size s B n 0).
Qed.

(** ** Returning a block *)

Lemma clear_class s B a z :
  wf s B -> a <> 0 -> 64 <= z <= 2 ^ 63 ->
  let i := class_for z in
  (exists r, 0 <= r < 2 /\ slot s i r = a /\
     __clear_temporal_class s a z = (true, set_active s (wr (temporal_active s) (i * 2 + r) 0))) \/
  (__clear_temporal_class s a z = (false, s) /\ forall r, 0 <= r < 2 -> slot s i r <> a).
Proof.
  intros HW Ha Hz i. destruct (class_for_parts z Hz) as (fi & si & Em & Hfi & Hsi & Ei). fold i in Ei.
  unfold __clear_temporal_class. rewrite Em, <- Ei.
  destruct (Z.ltb_spec fi 0); [lia|]. destruct (Z.leb_spec (fl_count s) fi); cbn [orb].
  { right. split; [done|]. intros r Hr E.
    destruct (r_slot _ _ (w_ring _ _ HW) i r Hr ltac:(congruence)) as (_ & _ & Hi & _).
    rewrite Ei in Hi. unfold idx in Hi. change __sl_count with 16 in Hi. lia. }
  fold (slot s i 0). fold (slot s i 1).
  destruct (Z.eqb_spec (slot s i 0) a) as [E0|E0]; [left; by exists 0|].
  destruct (Z.eqb_spec (slot s i 1) a) as [E1|E1]; [left; by exists 1|]. right. split; [done|].
  intros r Hr. assert (r = 0 \/ r = 1) as [-> | ->] by lia; done.
Qed.

(** [s'] is [s] with block [a] taken out of the ring. *)
Definition unringed (s : tlsf) (a : Z) (s' : tlsf) : Prop :=
  exists act, s' = set_active s act /\
    forall i r, 0 <= r < 2 -> slot s' i r = if slot s i r =? a then 0 else slot s i r.

Lemma unringed_none s a : (forall i r, 0 <= r < 2 -> slot s i r <> a) -> unringed s a s.
Proof.
  intros H. exists (temporal_active s). split; [by destruct s|]. intros i r Hr.
  by destruct (Z.eqb_spec (slot s i r) a) as [E|]; [apply H in E|].
Qed.

Lemma unringed_one s B a i r :
  wf s B -> 0 <= r < 2 -> slot s i r = a -> a <> 0 ->
  unringed s a (set_active s (wr (temporal_active s) (i * 2 + r) 0)).
Proof.
  intros HW Hr E Ha. eexists. split; [done|]. intros j q Hq. unfold slot at 1. cbn.
  change __temporal_ring with 2. rewrite rd_wr. destruct (Z.eqb_spec (i * 2 + r) (j * 2 + q)) as [Ec|Ec].
  - assert (j = i /\ q = r) as [-> ->] by lia. rewrite E, Z.eqb_refl. done.
  - fold (slot s j q). destruct (Z.eqb_spec (slot s j q) a) as [Es|]; [|done].
    destruct (r_once _ _ (w_ring _ _ HW) i r j q Hr Hq); [congruence|congruence|]. lia.
Qed.

(** The slot of a temporal block is found, whichever of the two sizes it was
    filed under. *)
Lemma clear_temporal_spec s B a z :
  wf s B -> B !! a = Some (z, TAlloc true) -> unringed s a (__clear_temporal s a z).
Proof.
  intros HW Ha. destruct (tlsf_blk_range (w_inv _ _ HW) _ _ _ Ha) as (_ & Hz & Hdz & _ & _ & _ & Ha0 & Hz32 & _).
  unfold __clear_temporal.
  destruct (clear_class s B a z HW ltac:(lia) ltac:(lia)) as [(r & Hr & Es & E)|[E Hn]]; rewrite E.
  { apply (unringed_one s B); auto; lia. }
  change __min_block with 64. change __block_align with 32. destruct (Z.ltb_spec 64 z) as [Hlt|Hge].
  - assert (96 <= z) by (destruct Hdz as [q ->]; lia).
    destruct (clear_class s B a (z - 32) HW ltac:(lia) ltac:(lia)) as [(r & Hr & Es & E')|[E' Hn']]; rewrite E'; cbn [snd].
    { apply (unringed_one s B); auto; lia. }
    apply unringed_none. intros i r Hr Es.
    destruct (r_slot _ _ (w_ring _ _ HW) i r Hr ltac:(lia)) as (z' & Hz' & _ & Hc).
    rewrite Es, Ha in Hz'. injection Hz' as <-. destruct Hc as [<-|[_ <-]]; [by apply (Hn r)|by apply (Hn' r)].
  - apply unringed_none. intros i r Hr Es.
    destruct (r_slot _ _ (w_ring _ _ HW) i r Hr ltac:(lia)) as (z' & Hz' & _ & Hc).
    rewrite Es, Ha in Hz'. injection Hz' as <-. destruct Hc as [<-|[? _]]; [by apply (Hn r)|lia].
Qed.

Lemma clear_temporal_bytes s x y a z :
  __clear_temporal (set_bytes s x y) a z = set_bytes (__clear_temporal s a z) x y.
Proof.
  assert (Hc : forall w, __clear_temporal_class (set_bytes s x y) a w =
    let '(b, s') := __clear_temporal_class s a w in (b, set_bytes s' x y)).
  { intros w. unfold __clear_temporal_class. destruct (mapping_search w) as [fi si].
    cbn [fl_count temporal_active set_bytes]. by repeat case_match. }
  unfold __clear_temporal. rewrite Hc.
  assert (Hf : forall w, (__clear_temporal_class s a w).1 = false -> (__clear_temporal_class s a w).2 = s).
  { intros w. unfold __clear_temporal_class. by repeat case_match. }
  specialize (Hf z). destruct (__clear_temporal_class s a z) as [[] s']; [done|].
  rewrite (Hf eq_refl : s' = s) in *. destruct (__min_block <? z); [|done]. rewrite Hc.
  by destruct (__clear_temporal_class s a (z - __block_align)).
Qed.

(** What releasing the block at [a] does. *)
Record released (s : tlsf) (B : pblocks) (s' : tlsf) (B' : pblocks) (a z : Z) : Prop := {
  rl_wf : wf s' B';
  rl_gone zy ky : B' !! a = Some (zy, ky) -> in_use ky = false;
  rl_others j zj kj : in_use kj = true -> j <> a -> B !! j = Some (zj, kj) <-> B' !! j = Some (zj, kj);
  rl_mem j zj kj c : B !! j = Some (zj, kj) -> in_use kj = true -> j <> a -> j + 32 <= c < j + zj ->
    rd (mem s') c = rd (mem s) c;
  rl_base : base s' = base s;
  rl_total : total s' = total s;
  rl_alloc : allocated_bytes s' = allocated_bytes s - z;
  rl_tomb : tombstoned_bytes s' = tombstoned_bytes s
}.

Lemma alloc_flags t f : tflags (TAlloc t) = Some f ->
  (f =? __block_free) = false /\ has_flag f __block_tombstone = false /\ has_flag f __block_temporal = t /\
  has_flag f __block_alloc = true.
Proof. intros E. destruct t; by injection E as <-. Qed.

(** Clearing the slot of a block keeps the ring when the block goes. *)
Lemma ring_drop s B s' B' a z k :
  ring s B -> B !! a = Some (z, k) -> temporal_rotor s' = temporal_rotor s -> fl_count s' = fl_count s ->
  (forall i r, 0 <= r < 2 -> slot s' i r = if slot s i r =? a then 0 else slot s i r) ->
  (forall j zj kj, in_use kj = true -> j <> a -> B !! j = Some (zj, kj) <-> B' !! j = Some (zj, kj)) ->
  ring s' B'.
Proof.
  intros [Hs Ho H1 Hr] Ha Er Ef Hsl Hoth. split.
  - intros i r Hr'. rewrite Hsl by done. destruct (Z.eqb_spec (slot s i r) a); [done|]. intros Hne.
    destruct (Hs i r Hr' Hne) as (z' & Hz' & Hi & Hc). exists z'. rewrite Ef. split; [|done].
    by apply Hoth.
  - intros i r i' r' H H'. rewrite !Hsl by done.
    destruct (Z.eqb_spec (slot s i r) a), (Z.eqb_spec (slot s i' r') a); try done.
    by apply Ho.
  - intros i. rewrite !Hsl by lia. destruct (H1 i) as [-> | ->]; [left|right]; by case_g.
  - intros i. rewrite Er. apply Hr.
Qed.

Lemma released_counts s B s' B' a z t :
  wf s B -> inv s' B' -> B !! a = Some (z, TAlloc t) ->
  (forall zy ky, B' !! a = Some (zy, ky) -> in_use ky = false) ->
  (forall j zj kj, in_use kj = true -> j <> a -> B !! j = Some (zj, kj) <-> B' !! j = Some (zj, kj)) ->
  u64 (allocated_bytes s - z) = allocated_bytes s - z /\
  allocated_bytes s - z = msum (size_if is_alloc) B' /\
  tombstoned_bytes s = msum (size_if is_tomb) B'.
Proof.
  intros HW HI' Ha Hgone Hoth.
  assert (Halloc : forall k, is_alloc k = true -> in_use k = true) by (by intros []).
  assert (Htomb : forall k, is_tomb k = true -> in_use k = true) by (by intros []).
  assert (Hoth' : forall j zj kj, in_use kj = true -> j <> a -> B' !! j = Some (zj, kj) <-> B !! j = Some (zj, kj))
    by (intros; symmetry; by apply Hoth).
  pose proof (size_new is_alloc B' B a z _ Halloc Ha Hgone Hoth') as E1.
  pose proof (size_new is_tomb B' B a z _ Htomb Ha Hgone Hoth') as E2.
  destruct (size_bound s' B' is_alloc is_tomb HI') as (? & ? & ?); [by intros []|].
  destruct (i_geo _ _ HI') as [_ _ Ht _ _].
  change (size_if is_alloc (z, TAlloc t)) with z in E1. change (size_if is_tomb (z, TAlloc t)) with 0 in E2.
  rewrite (w_alloc _ _ HW), (w_tomb _ _ HW). rewrite u64_small; lia.
Qed.

(** The return of a block in use: its bytes and its slot go, then it is merged. *)
Definition undone (s : tlsf) (z : Z) (act : zmap) : tlsf :=
  set_active (set_bytes s (u64 (allocated_bytes s - z)) (tombstoned_bytes s)) act.

Lemma deallocate_opens s B a z t :
  wf s B -> B !! a = Some (z, TAlloc t) ->
  exists act, let s2 := undone s z act in let B1 := <[a := (z, THole)]> B in
    deallocate s (a + 32) = (__flag_ok, coalesce_and_free s2 a) /\
    (forall i r, 0 <= r < 2 -> slot s2 i r = if slot s i r =? a then 0 else slot s i r) /\
    inv s2 B1 /\ prev_phys s2 (a + z) = a /\ only_hole B1 a /\ sepx B1 a.
Proof.
  intros HW Ha. pose proof (w_inv _ _ HW) as HI. destruct (i_geo _ _ HI) as [Hb _ _ _ _].
  destruct (tlsf_blk_range HI _ _ _ Ha) as (_ & Hz & _ & _ & _ & _ & Ha0 & Hz32 & _).
  destruct (inv_open s B a z (TAlloc t) HI Ha eq_refl) as [HI1 Hb1].
  set (B1 := <[a := (z, THole)]> B) in *.
  assert (Ef : exists f, tflags (TAlloc t) = Some f /\ flags s a = f).
  { destruct t; eexists; (split; [reflexivity|]); by eapply (i_flags _ _ HI). }
  destruct Ef as (f & Etf & Ef). destruct (alloc_flags t f Etf) as (Ef1 & Ef2 & Ef3 & _).
  unfold deallocate. change __hdr_offset with 32. replace (a + 32 - 32) with a by lia.
  destruct (Z.eqb_spec (a + 32) 0); [lia|]. destruct (Z.eqb_spec (base s) 0); [lia|]. cbn [orb].
  rewrite Ef, Ef1, Ef2, Ef3, (i_size _ _ HI _ _ _ Ha).
  set (s1 := set_bytes s (u64 (allocated_bytes s - z)) (tombstoned_bytes s)).
  set (s2 := if t then __clear_temporal s1 a z else s1).
  assert (Hun : exists act, s2 = undone s z act /\
    forall i r, 0 <= r < 2 -> slot s2 i r = if slot s i r =? a then 0 else slot s i r).
  { assert (HU : unringed s a (if t then __clear_temporal s a z else s)).
    { destruct t; [by eapply clear_temporal_spec|]. apply unringed_none. intros i r Hr Es.
      destruct (r_slot _ _ (w_ring _ _ HW) i r Hr ltac:(lia)) as (z' & Hz' & _).
      rewrite Es, Ha in Hz'. done. }
    destruct HU as (act & Eact & Hsl). exists act. subst s2 s1. rewrite clear_temporal_bytes.
    destruct t; rewrite Eact in *; by split. }
  destruct Hun as (act & E2 & Hsl). exists act. cbv zeta. rewrite <- E2. split_and!; try done.
  - rewrite E2. by apply (inv_ext s).
  - by rewrite E2.
  - apply only_hole_insert, no_hole_only, HW.
  - apply sepx_insert, sep_sepx, HW.
Qed.

Lemma tlsf_deallocate_wf s B a z t :
  wf s B -> B !! a = Some (z, TAlloc t) ->
  exists s' B', deallocate s (a + 32) = (__flag_ok, s') /\ released s B s' B' a z.
Proof.
  intros HW Ha. destruct (deallocate_opens s B a z t HW Ha) as (act & -> & Hsl & HI2 & Hb1 & Ho & Hsx).
  set (s2 := undone s z act) in *. set (B1 := <[a := (z, THole)]> B) in *. assert (E2 : s2 = undone s z act) by done.
  destruct (coalesce_and_free_spec s2 B1 a z HI2) as (B' & HI' & Hh' & Hs' & HQ & HU); [apply lookup_insert_eq|done..|].
  - set (s' := coalesce_and_free s2 a) in *. exists s', B'. split; [done|].
    assert (Hoth : forall j zj kj, in_use kj = true -> j <> a -> B !! j = Some (zj, kj) <-> B' !! j = Some (zj, kj)).
    { intros j zj kj Hk Hne. rewrite <- (HU j zj kj Hk). subst B1. by rewrite lookup_insert_ne. }
    assert (Hgone : forall zy ky, B' !! a = Some (zy, ky) -> in_use ky = false).
    { intros zy ky Hy. destruct (in_use ky) eqn:Ek; [|done]. apply HU in Hy; [|done]. subst B1.
      rewrite lookup_insert_eq in Hy. by simplify_eq. }
    assert (Hact : temporal_active s' = temporal_active s2 /\ temporal_rotor s' = temporal_rotor s /\
      base s' = base s /\ total s' = total s /\ fl_count s' = fl_count s /\
      allocated_bytes s' = u64 (allocated_bytes s - z) /\ tombstoned_bytes s' = tombstoned_bytes s).
    { split; [apply HQ|]. rewrite (q_rotor _ _ _ HQ), (q_base _ _ _ HQ), (q_total _ _ _ HQ),
        (q_fl _ _ _ HQ), (q_alloc _ _ _ HQ), (q_tomb _ _ _ HQ), E2. done. }
    destruct Hact as (Ea & Er & Ebs & Et & Efl & Eal & Etb).
    assert (Hring : ring s' B').
    { apply (ring_drop s B s' B' a z (TAlloc t)); try done; [apply HW|].
      intros i r Hr. unfold slot at 1. rewrite Ea. by apply Hsl. }
    destruct (released_counts s B s' B' a z t HW HI' Ha Hgone Hoth) as (H0 & H1 & H2).
    assert (Hwf : wf s' B') by (split; try done; by rewrite ?Eal, ?Etb, ?H0).
    split; try done.
    + intros j zj kj c Hj Hk Hne Hc. rewrite (q_mem _ _ _ HQ j zj kj c); [by rewrite E2| |done|done].
      subst B1. by rewrite lookup_insert_ne.
    + by rewrite Eal, H0.
Qed.

(** A returned block that is merged into the free block before it leaves its header
    as it was, but for a size that counts the free block behind. *)
Lemma deallocate_stale s B a z t q zq :
  wf s B -> B !! a = Some (z, TAlloc t) -> B !! q = Some (zq, TFree) -> q + zq = a ->
  let s' := (deallocate s (a + 32)).2 in flags s' a = flags s a /\ z <= bsize s' a < 2 ^ 32.
Proof.
  intros HW Ha Hq E. destruct (deallocate_opens s B a z t HW Ha) as (act & -> & _ & HI2 & _ & Ho & Hsx). cbn [snd].
  assert (Hne : a <> q) by (intros <-; congruence).
  destruct (coalesce_stale (undone s z act) _ a z q zq HI2 (lookup_insert_eq _ _ _) Ho Hsx) as [Ef Es];
    [by rewrite lookup_insert_ne|done|done].
Qed.

(** ** Pointers that are not claims *)

Lemma deallocate_refused s p :
  (p = 0 \/ base s = 0 -> deallocate s p = (__flag_failure, s)) /\
  (p <> 0 -> base s <> 0 -> flags s (p - 32) = __block_free -> deallocate s p = (__flag_invalid, s)).
Proof.
  unfold deallocate. change __hdr_offset with 32. split.
  - intros [-> | ->]; [done|]. by rewrite orb_true_r.
  - intros Hp Hb ->. by rewrite (proj2 (Z.eqb_neq _ _) Hp), (proj2 (Z.eqb_neq _ _) Hb).
Qed.

Lemma fl_insert_bytes s b : allocated_bytes (fl_insert s b) = allocated_bytes s /\ total (fl_insert s b) = total s.
Proof. unfold fl_insert. destruct (mapping_insert _). by destruct (negb _). Qed.

Lemma fl_remove_bytes s b : allocated_bytes (fl_remove s b) = allocated_bytes s /\ total (fl_remove s b) = total s.
Proof. unfold fl_remove. destruct (mapping_insert _). cbv zeta. by repeat case_match. Qed.

Lemma coalesce_bytes s b :
  allocated_bytes (coalesce_and_free s b) = allocated_bytes s /\ total (coalesce_and_free s b) = total s.
Proof.
  assert (Hn : allocated_bytes (merge_next s b).1 = allocated_bytes s /\ total (merge_next s b).1 = total s).
  { unfold merge_next. case_match; [|done]. apply (fl_remove_bytes s). }
  rewrite coalesce_and_free_eq. destruct (merge_next s b) as [s1 m]. cbn [fst] in Hn.
  assert (Hp : allocated_bytes (merge_prev s1 b m).1.1 = allocated_bytes s1 /\ total (merge_prev s1 b m).1.1 = total s1).
  { unfold merge_prev. case_match; [|done]. apply (fl_remove_bytes s1). }
  destruct (merge_prev s1 b m) as [[s2 b'] m']. cbn [fst] in Hp.
  destruct (fl_insert_bytes (if m' then set_prev_phys s2 (next_phys s2 b') b' else s2) b') as [-> ->].
  destruct Hn as [<- <-], Hp as [<- <-]. by destruct m'.
Qed.

Lemma clear_temporal_counts s b z :
  allocated_bytes (__clear_temporal s b z) = allocated_bytes s /\ total (__clear_temporal s b z) = total s.
Proof.
  assert (Hc : forall s w, allocated_bytes (__clear_temporal_class s b w).2 = allocated_bytes s /\ total (__clear_temporal_class s b w).2 = total s).
  { intros s' w. unfold __clear_temporal_class. destruct (mapping_search w). by repeat case_match. }
  unfold __clear_temporal. pose proof (Hc s z) as H1. destruct (__clear_temporal_class s b z) as [[] s1]; [done|]. cbn [snd] in H1.
  destruct (__min_block <? z); [|done]. destruct H1 as [<- <-]. apply Hc.
Qed.

(** Whatever the header says of an address that is not marked free is believed. *)
Lemma deallocate_believes s p :
  p <> 0 -> base s <> 0 -> flags s (p - 32) <> __block_free ->
  (deallocate s p).1 = __flag_ok /\ used (deallocate s p).2 = u64 (used s - bsize s (p - 32)) /\
  __total (deallocate s p).2 = __total s.
Proof.
  intros Hp Hb Hf. unfold deallocate, used, __total. change __hdr_offset with 32.
  rewrite (proj2 (Z.eqb_neq _ _) Hp), (proj2 (Z.eqb_neq _ _) Hb), (proj2 (Z.eqb_neq _ _) Hf). cbn [orb fst snd].
  set (s1 := set_bytes s _ _). split; [done|]. destruct (has_flag _ __block_temporal).
  - destruct (coalesce_bytes (__clear_temporal s1 (p - 32) (bsize s (p - 32))) (p - 32)) as [-> ->]. exact (clear_temporal_counts s1 _ _).
  - destruct (coalesce_bytes s1 (p - 32)) as [-> ->]. done.
Qed.

(** ** Tombstones and client writes *)

Lemma tombstone_wf s B a z :
  wf s B -> B !! a = Some (z, TAlloc false) ->
  exists s', tombstone s (a + 32) = (__flag_tombstoned, s') /\ wf s' (<[a := (z, TTomb)]> B) /\
    used s' = used s - z /\ tombstoned s' = tombstoned s + z /\ base s' = base s /\ total s' = total s /\
    forall j zj kj c, B !! j = Some (zj, kj) -> in_use kj = true -> j + 32 <= c < j + zj ->
      rd (mem s') c = rd (mem s) c.
Proof.
  intros HW Ha. pose proof (w_inv _ _ HW) as HI.
  assert (Hf : flags s a = __block_alloc) by (by apply (i_flags _ _ HI a z (TAlloc false))).
  assert (Hb : prev_phys s (a + z) = a) by (by apply (i_back _ _ HI a z (TAlloc false))).
  assert (HI' : inv (set_flags s a __block_tombstone) (<[a := (z, TTomb)]> B)).
  { by apply (inv_set_flags s B a z (TAlloc false) TTomb). }
  unfold tombstone. change __hdr_offset with 32. replace (a + 32 - 32) with a by lia.
  rewrite Hf. change (has_flag __block_alloc __block_alloc) with true. cbn [negb].
  rewrite (i_size _ _ HI _ _ _ Ha). eexists. split; [reflexivity|].
  destruct (size_bound _ _ is_alloc is_tomb HI') as (Hba & Hbt & Hbs); [by intros []|].
  destruct (i_geo _ _ HI) as [_ _ Ht _ _]. cbn in Hbs.
  assert (E1 : allocated_bytes s - z = msum (size_if is_alloc) (<[a := (z, TTomb)]> B)).
  { rewrite (msum_update _ B a _ _ Ha), (w_alloc _ _ HW). unfold size_if at 3 4. cbn. lia. }
  assert (E2 : tombstoned_bytes s + z = msum (size_if is_tomb) (<[a := (z, TTomb)]> B)).
  { rewrite (msum_update _ B a _ _ Ha), (w_tomb _ _ HW). unfold size_if at 3 4. cbn. lia. }
  split_and!; try done.
  - split.
    + by apply (inv_ext (set_flags s a __block_tombstone)).
    + apply only_hole_fill; [|done]. apply no_hole_only, HW.
    + by apply (sep_recolor B a z (TAlloc false)); [apply HW|..].
    + cbn. rewrite <- E1. apply u64_small. rewrite E1. lia.
    + cbn. rewrite <- E2. apply u64_small. rewrite E2. lia.
    + apply (tlsf_ring_mono s B); try done; [apply HW|]. intros b zb Hbb. rewrite lookup_insert_ne; [done|].
      intros <-. congruence.
  - unfold used. cbn. apply u64_small. rewrite E1. lia.
  - unfold tombstoned. cbn. apply u64_small. rewrite E2. lia.
  - intros j zj kj c Hj Hk Hc. cbn. apply rd_wr_ne. intros <-.
    destruct (tlsf_blk_range HI _ _ _ Ha) as (_ & ? & _).
    destruct (Z.eq_dec a j) as [<-|Hne]; [lia|].
    pose proof (pt_disj _ _ _ (i_til _ _ HI) _ _ _ _ _ _ Ha Hj Hne). lia.
Qed.

(** A write to the payload of a block in use *)
Lemma tlsf_client_write_wf s B a z k c v :
  wf s B -> B !! a = Some (z, k) -> in_use k = true -> a + 32 <= c < a + z ->
  wf (set_mem s (wr (mem s) c v)) B.
Proof.
  intros HW Ha Hk Hc. pose proof (w_inv _ _ HW) as HI.
  destruct (tlsf_blk_range HI _ _ _ Ha) as (Hlo & Hz & _ & _ & Hhi & _).
  assert (Hne : forall b d, hdr_place s B b -> 0 <= d < 32 -> c <> b + d).
  { intros b d [(zb & kb & Hb)|[-> | ->]] Hd.
    - destruct (tlsf_blk_range HI _ _ _ Hb) as (_ & Hzb & _). destruct (Z.eq_dec a b) as [<-|Hab]; [lia|].
      pose proof (pt_disj _ _ _ (i_til _ _ HI) _ _ _ _ _ _ Ha Hb Hab). lia.
    - unfold lo in Hlo. change __block_align with 32 in Hlo. lia.
    - lia. }
  split; try apply HW.
  - apply (inv_rewrite s B); try done.
    + intros b zb Hb. pose proof (place_block s _ _ _ _ Hb).
      split; apply rd_wr_ne, Hne; (done || lia).
    + apply HI.
    + intros b zb kb Hb. pose proof (place_block s _ _ _ _ Hb).
      rewrite rd_wr_ne; [by apply (i_size _ _ HI b zb kb)|]. apply Hne; (done || lia).
    + intros b zb kb f Hb Hf. pose proof (place_block s _ _ _ _ Hb).
      rewrite rd_wr_ne; [by apply (i_flags _ _ HI b zb kb)|]. apply Hne; (done || lia).
    + intros b zb kb Hb Hkb. pose proof (hdr_place_end s B b zb kb HI Hb).
      rewrite rd_wr_ne; [by apply (i_back _ _ HI b zb kb)|]. apply Hne; (done || lia).
    + rewrite rd_wr_ne; [apply HI|]. apply Hne; [by apply place_lo|lia].
    + intros d Hd. apply rd_wr_ne, Hne; [by right; left|lia].
    + intros d Hd. apply rd_wr_ne, Hne; [by right; right|lia].
  - by apply (tlsf_ring_mono s B); [apply HW|..].
Qed.

(** ** A fresh region *)

(** The region before its one block is put on a list *)
Definition init_state (s : tlsf) (b data : Z) : tlsf :=
  let s := Tlsf (mem s) b data (Z.log2 data - 5) (allocated_bytes s) (tombstoned_bytes s) 0 ∅ ∅ ∅ ∅ in
  let s := init_sentinel s b 0 in
  let es := b + 32 + data in
  let s := init_sentinel s es 0 in
  let blk := b + 32 in
  let s := set_bsize s blk data in
  let s := set_flags s blk __block_free in
  let s := set_prev_phys s blk b in
  set_prev_phys s es blk.

Lemma init_region_eq s b data :
  64 <= data < 2 ^ 32 -> init_region s b data = fl_insert (init_state s b data) (b + 32).
Proof.
  intros Hd. assert (Hl : 6 <= Z.log2 data < 32).
  { split; [apply (Z.log2_le_mono 64); lia|apply Z.log2_lt_pow2; lia]. }
  unfold init_region, fls64. rewrite clzll_pos by lia. change __fl_shift with 6. change __fl_count with 26.
  replace (63 - (63 - Z.log2 data) - 6 + 1) with (Z.log2 data - 5) by lia.
  destruct (Z.ltb_spec 26 (Z.log2 data - 5)); [lia|].
  destruct (Z.ltb_spec (Z.log2 data - 5) 1); [lia|]. cbn [total base __impl_zero_arrays init_sentinel set_mem
    set_prev_free set_next_free set_prev_phys set_flags set_bsize]. rewrite (u32_small data) by lia. done.
Qed.

Lemma init_state_inv s b data :
  0 < b -> (32 | b) -> (32 | data) -> 64 <= data < 2 ^ 32 -> b + 32 + data + 32 < 2 ^ 64 ->
  inv (init_state s b data) {[b + 32 := (data, THole)]} /\
  prev_phys (init_state s b data) (b + 32 + data) = b + 32.
Proof.
  intros Hb Hdb Hdd Hd He.
  assert (Hlk : forall a z k, ({[b + 32 := (data, THole)]} : pblocks) !! a = Some (z, k) ->
    a = b + 32 /\ z = data /\ k = THole) by (intros a z k [<- E]%lookup_singleton_Some; by simplify_eq).
  split; [|unfold prev_phys, init_state; apply rd_wr_eq]. split.
  - split; unfold hi; cbn; change __block_align with 32; lia || done.
  - unfold lo, hi. cbn [base total init_state set_prev_phys set_flags set_bsize set_mem init_sentinel
      set_next_free set_prev_free]. change __block_align with 32. split.
    + intros a z k (-> & -> & _)%Hlk. split_and!; try lia; [done|]. rewrite Z.sub_diag. apply Z.divide_0_r.
    + intros a z k a' z' k' (-> & -> & _)%Hlk (-> & -> & _)%Hlk. done.
    + intros j Hj. exists (b + 32), data, THole. rewrite lookup_singleton_eq. split; [done|lia].
  - intros a z k (-> & -> & _)%Hlk. unfold bsize. cbn. by cells.
  - by intros a z k f (_ & _ & ->)%Hlk.
  - by intros a z k (_ & _ & ->)%Hlk.
  - unfold prev_phys, lo. cbn. change __block_align with 32. by cells.
  - unfold flags. cbn. by cells.
  - unfold flags, hi. cbn. change __block_align with 32. by cells.
  - intros i. cbn. apply dlist_null. by intros a (z & (_ & _ & ?)%Hlk & _).
  - split.
    + by intros fi.
    + intros fi si _. cbn. apply Z.bits_0.
    + done.
    + intros fi _. cbn. apply Z.bits_0.
  - unfold bsize. cbn. by cells.
  - unfold bsize, hi. cbn. change __block_align with 32. by cells.
Qed.

Lemma init_memory_wf s p l :
  0 < p -> 0 <= l -> p + l + 32 < 2 ^ 64 -> allocated_bytes s = 0 -> tombstoned_bytes s = 0 ->
  let s' := __impl_init_memory s p l in
  base s' <> 0 ->
  wf s' {[lo s' := (total s', TFree)]} /\ p <= base s' /\ hi s' + 32 <= p + l /\ p + l < hi s' + 96.
Proof.
  intros Hp Hl Hend Ha Ht. cbn zeta. unfold __impl_init_memory. change __block_align with (2 ^ 5).
  destruct (align_up_bounds p 5) as [Hal Hmod]; [lia..|]. set (r := align_up p (2 ^ 5)) in *.
  change (2 ^ 5) with 32 in *. apply Z.mod_divide in Hmod; [|lia].
  destruct (Z.leb_spec l (r - p)); [done|]. set (us := (l - (r - p)) / 32 * 32).
  change (2 * 32 + __min_block) with 128. destruct (Z.ltb_spec us 128); [done|].
  destruct (Z.ltb_spec 4294967295 (us - 2 * 32)); [done|]. intros _.
  pose proof (Z.div_mod (l - (r - p)) 32 ltac:(lia)). pose proof (Z.mod_pos_bound (l - (r - p)) 32 ltac:(lia)).
  set (d := us - 2 * 32). assert (Hdd : (32 | d)).
  { subst d us. apply Z.divide_sub_r; [apply Z.divide_factor_r|]. by exists 2. }
  assert (Hd : 64 <= d < 2 ^ 32) by (subst d us; lia).
  rewrite init_region_eq by done.
  destruct (init_state_inv s r d) as [HI Hpp]; [lia|done|done|done|subst d us; lia|].
  destruct (inv_fl_insert _ _ (r + 32) d HI) as [HI' HQ]; [apply lookup_singleton_eq|done|].
  set (s' := fl_insert (init_state s r d) (r + 32)) in *.
  assert (Es : base s' = r /\ total s' = d /\ allocated_bytes s' = 0 /\ tombstoned_bytes s' = 0 /\
    temporal_active s' = ∅ /\ temporal_rotor s' = ∅).
  { rewrite (q_base _ _ _ HQ), (q_total _ _ _ HQ), (q_alloc _ _ _ HQ), (q_tomb _ _ _ HQ),
      (q_active _ _ _ HQ), (q_rotor _ _ _ HQ). cbn. by rewrite Ha, Ht. }
  destruct Es as (Eb & Et & Eal & Etb & Eac & Ero).
  rewrite insert_singleton_eq in HI'. unfold lo, hi. rewrite Eb, Et. change __block_align with 32.
  split; [|subst d us; lia]. split; try done.
  - intros a z [_ E]%lookup_singleton_Some. done.
  - intros x zx kx zy ky [<- E]%lookup_singleton_Some [E' _]%lookup_singleton_Some. injection E as <- _. lia.
  - unfold msum. by rewrite Eal, map_fold_singleton.
  - unfold msum. by rewrite Etb, map_fold_singleton.
  - split; unfold slot; rewrite ?Eac, ?Ero; try done; by left.
Qed.
