(* ===== verification/TlsfSpec.v ===== *)
(** * The two-level segregated fit list: what its clients may rely on

    The client of a pool knows the chunks it was given and has not returned:
    its claims, from user pointer to length and use.  The steps of a client
    that keeps to its claims define the reachable pairs of pool and claims;
    [refines] relates the claims to the blocks of the pool. *)

From S2P Require Import Prelude.
From S2P Require Import Intrusive.
From S2P Require Import Config.
From S2P Require Import Tlsf.
From S2P Require Import TlsfClass.
From S2P Require Import TlsfInv.
From S2P Require Import TlsfOps.
From S2P Require Import TlsfFind.
From S2P Require Import TlsfWf.

Abbreviation claims := (gmap Z (Z * tkind)).

(** What a client adds to its claims when it is given the chunk [c]. *)
Definition claim (L : claims) (c : chunk) (t : bool) : claims :=
  if ptr c =? 0 then L else <[ptr c := (len c, TAlloc t)]> L.

(** Releasing a tombstoned block and tombstoning a temporal block are left
    out: both corrupt the counters or the ring, as they do in the buddy list. *)
Inductive tstep : tlsf * claims -> tlsf * claims -> Prop :=
  | ts_allocate s L n : request n ->
      tstep (s, L) ((allocate s n).2, claim L (allocate s n).1 false)
  | ts_temporal s L n : request n ->
      tstep (s, L) ((temporal_allocate s n).2, claim L (temporal_allocate s n).1 true)
  | ts_exact s L n : 0 <= n < 2 ^ 64 ->
      tstep (s, L) ((allocate_exact s n).2, claim L (allocate_exact s n).1 false)
  | ts_deallocate s L p n t : L !! p = Some (n, TAlloc t) ->
      tstep (s, L) ((deallocate s p).2, delete p L)
  | ts_tombstone s L p n : L !! p = Some (n, TAlloc false) ->
      tstep (s, L) ((tombstone s p).2, <[p := (n, TTomb)]> L)
  | ts_write s L p n k a v : L !! p = Some (n, k) -> p <= a < p + n ->
      tstep (s, L) (set_mem s (wr (mem s) a v), L).

(** A pool fresh from its constructor, then used *)
Inductive reach : tlsf -> claims -> Prop :=
  | reach_init s0 p l :
      0 < p -> 0 <= l -> p + l + 32 < 2 ^ 64 -> allocated_bytes s0 = 0 -> tombstoned_bytes s0 = 0 ->
      base (__impl_init_memory s0 p l) <> 0 -> reach (__impl_init_memory s0 p l) ∅
  | reach_step s L s' L' : reach s L -> tstep (s, L) (s', L') -> reach s' L'.

(** The claims are the blocks in use, without their headers. *)
Definition refines (B : pblocks) (L : claims) : Prop :=
  forall p n k, L !! p = Some (n, k) <-> in_use k = true /\ B !! (p - 32) = Some (n + 32, k).

Lemma refines_at B L a z k :
  refines B L -> B !! a = Some (z, k) -> in_use k = true -> L !! (a + 32) = Some (z - 32, k).
Proof.
  intros HR Ha Hk. apply HR. split; [done|].
  replace (a + 32 - 32) with a by lia. by replace (z - 32 + 32) with z by lia.
Qed.

(** The blocks change at [a] only, the claims at [a + 32] only. *)
Lemma refines_update B L B' L' a :
  refines B L ->
  (forall j zj kj, in_use kj = true -> j <> a -> B !! j = Some (zj, kj) <-> B' !! j = Some (zj, kj)) ->
  (forall p, p <> a + 32 -> L' !! p = L !! p) ->
  (forall n k, L' !! (a + 32) = Some (n, k) <-> in_use k = true /\ B' !! a = Some (n + 32, k)) ->
  refines B' L'.
Proof.
  intros HR HB HL Ha p n k. destruct (Z.eq_dec p (a + 32)) as [->|Hne].
  - replace (a + 32 - 32) with a by lia. apply Ha.
  - rewrite HL by done. rewrite (HR p n k). split; intros [Hk Hp]; (split; [done|]).
    + apply HB; [done|lia|done].
    + apply HB; [done|lia|done].
Qed.

Lemma served_refines s B L s' B' a z t :
  refines B L -> served s B s' B' a z (TAlloc t) -> a + 32 <> 0 ->
  refines B' (claim L (Chunk (a + 32) (z - 32)) t).
Proof.
  intros HR HS Ha. unfold claim. cbn [ptr len]. destruct (Z.eqb_spec (a + 32) 0); [done|].
  apply (refines_update B L B' _ a HR); [apply HS| |].
  - intros p Hp. by rewrite lookup_insert_ne.
  - intros n' k. rewrite lookup_insert_eq, (sv_blk _ _ _ _ _ _ _ HS). split.
    + intros [= <- <-]. split; [done|]. do 2 f_equal. lia.
    + intros [_ [= E <-]]. do 2 f_equal. lia.
Qed.

Lemma released_refines s B L s' B' a z :
  refines B L -> released s B s' B' a z -> refines B' (delete (a + 32) L).
Proof.
  intros HR HS. apply (refines_update B L B' _ a HR); [apply HS| |].
  - intros p Hp. by rewrite lookup_delete_ne.
  - intros n k. rewrite lookup_delete_eq. split; [done|]. intros [Hk Hb].
    apply (rl_gone _ _ _ _ _ _ HS) in Hb. congruence.
Qed.

Lemma tstep_wf s L s' L' B :
  tstep (s, L) (s', L') -> wf s B -> refines B L -> exists B', wf s' B' /\ refines B' L'.
Proof.
  intros HT HW HR. pose proof (w_inv _ _ HW) as HI.
  assert (Hnull : forall t, claim L null_chunk t = L) by done.
  assert (Hpos : forall s1 B1 a z k, inv s1 B1 -> B1 !! a = Some (z, k) -> a + 32 <> 0).
  { intros s1 B1 a z k HI1 Ha. destruct (tlsf_blk_range HI1 _ _ _ Ha) as (_ & _ & _ & _ & _ & _ & ? & _). lia. }
  inversion HT; subst.
  - destruct (tlsf_allocate_spec s B n HW) as [(a & z & s' & B' & E & HS & HW' & _)|[E _]]; [done| |];
      rewrite E; cbn [fst snd].
    + exists B'. split; [done|]. eapply served_refines; [done..|]. by eapply Hpos; [|apply HS]; apply HS.
    + rewrite Hnull. by exists B.
  - destruct (temporal_spec s B n HW) as [(a & z & r & v & E & Ha & Hr & Hs & Hv & _)|
      [(a & z & s1 & s' & B' & r & E & HS & HW' & _)|[E _]]]; [done| | |]; rewrite E; cbn [fst snd].
    + exists B. split; [by apply tlsf_wf_set_rotor|]. unfold claim. cbn [ptr len].
      destruct (Z.eqb_spec (a + 32) 0); [done|]. rewrite insert_id; [done|]. by eapply refines_at.
    + exists B'. split; [done|]. eapply served_refines; [done..|]. by eapply Hpos; [|apply HS]; apply HS.
    + rewrite Hnull. by exists B.
  - destruct (tlsf_allocate_exact_spec s B n HW) as [E|(a & z & s' & B' & E & HS & HW' & _)]; [done| |];
      rewrite E; cbn [fst snd].
    + rewrite Hnull. by exists B.
    + exists B'. split; [done|]. eapply served_refines; [done..|]. by eapply Hpos; [|apply HS]; apply HS.
  - match goal with H : L !! p = _ |- _ => apply HR in H as [_ Hp] end.
    destruct (tlsf_deallocate_wf s B (p - 32) (n + 32) t HW Hp) as (s' & B' & E & HS).
    replace (p - 32 + 32) with p in E by lia. rewrite E. exists B'. split; [apply HS|].
    apply (released_refines _ _ L) in HS; [|done]. by replace (p - 32 + 32) with p in HS by lia.
  - match goal with H : L !! p = _ |- _ => apply HR in H as [_ Hp] end.
    destruct (tombstone_wf s B (p - 32) (n + 32) HW Hp) as (s' & E & HW' & _).
    replace (p - 32 + 32) with p in E by lia. rewrite E. eexists. split; [exact HW'|].
    apply (refines_update B L _ _ (p - 32) HR).
    + intros j zj kj _ Hne. by rewrite lookup_insert_ne.
    + intros q Hq. rewrite lookup_insert_ne by lia. done.
    + intros m k. replace (p - 32 + 32) with p by lia. rewrite !lookup_insert_eq. split.
      * by intros [= <- <-].
      * intros [_ [= E' <-]]. do 2 f_equal. lia.
  - match goal with H : L' !! p = _ |- _ => apply HR in H as [Hk Hp] end. exists B. split; [|done].
    apply (tlsf_client_write_wf s B (p - 32) (n + 32) k); [done..|lia].
Qed.

Lemma reach_wf s L : reach s L -> exists B, wf s B /\ refines B L.
Proof.
  induction 1 as [s0 p l Hp Hl He Ha Ht Hb|s L s' L' _ (B & HW & HR) HT].
  - destruct (init_memory_wf s0 p l Hp Hl He Ha Ht Hb) as (HW & _). eexists. split; [exact HW|].
    intros q n k. split; [done|]. intros [Hk [_ E]%lookup_singleton_Some]. by simplify_eq.
  - by apply (tstep_wf s L s' L' B).
Qed.
