(* ===== verification/TlsfProps.v ===== *)
(** * The two-level segregated fit list: properties

    The theorems about src/src/cache_list.hpp, for every reachable pool and
    claims, with a concrete pool for the witnesses. *)

From S2P Require Import Prelude.
From S2P Require Import Intrusive.
From S2P Require Import Config.
From S2P Require Import Tlsf.
From S2P Require Import TlsfClass.
From S2P Require Import TlsfInv.
From S2P Require Import TlsfOps.
From S2P Require Import TlsfFind.
From S2P Require Import TlsfWf.
From S2P Require Import TlsfSpec.

(** A pool in a 64 KiB chunk at 4096, and the same after two requests *)
Definition tdemo : tlsf := __impl_init_memory (blank ∅) 4096 65536.
Definition tdemo1 : tlsf := (allocate tdemo 1000).2.
Definition tdemo2 : tlsf := (allocate tdemo1 3000).2.
Definition tclaims1 : claims := {[4160 := (1056, TAlloc false)]}.
Definition tclaims2 : claims := <[5248 := (3040, TAlloc false)]> tclaims1.

Lemma tdemo_reach : reach tdemo ∅.
Proof. apply reach_init; try lia; try reflexivity. by vm_compute. Qed.

Lemma tdemo1_reach : reach tdemo1 tclaims1.
Proof.
  eapply reach_step; [exact tdemo_reach|].
  replace tclaims1 with (claim ∅ (allocate tdemo 1000).1 false) by (vm_compute; reflexivity).
  apply ts_allocate. unfold request. lia.
Qed.

Lemma tdemo2_reach : reach tdemo2 tclaims2.
Proof.
  eapply reach_step; [exact tdemo1_reach|].
  replace tclaims2 with (claim tclaims1 (allocate tdemo1 3000).1 false) by (vm_compute; reflexivity).
  apply ts_allocate. unfold request. lia.
Qed.

(** Nothing that is claimed meets the addresses from [a] to [b]. *)
Definition unclaimed (L : claims) (a b : Z) : Prop :=
  forall p n k, L !! p = Some (n, k) -> p + n <= a \/ b <= p - 32.

(** No run of unclaimed addresses in the data region has room for a block of
    [m] bytes and a sixteenth more. *)
Definition no_room (s : tlsf) (L : claims) (m : Z) : Prop :=
  forall a b, lo s <= a -> b <= hi s -> unclaimed L a b -> b - a < m + m / 16 + 1.

(** [p] is a new claim of [n] bytes apart from all others, whose contents are
    kept. *)
Definition fresh_claim (s : tlsf) (L : claims) (p n : Z) (s' : tlsf) : Prop :=
  L !! p = None /\ (32 | p) /\ lo s <= p - 32 /\ p + n <= hi s /\ unclaimed L (p - 32) (p + n) /\
  forall q n' k a, L !! q = Some (n', k) -> q <= a < q + n' -> rd (mem s') a = rd (mem s) a.

(** Unclaimed addresses are within one free block: neighbours are merged. *)
Lemma unclaimed_block s B L a b :
  wf s B -> refines B L -> lo s <= a < b -> b <= hi s -> unclaimed L a b ->
  exists x z, B !! x = Some (z, TFree) /\ x <= a /\ b <= x + z.
Proof.
  intros HW HR Ha Hb HU. pose proof (w_inv _ _ HW) as HI.
  assert (Hfree : forall x z k, B !! x = Some (z, k) -> x < b -> a < x + z -> k = TFree).
  { intros x z k Hx H1 H2. destruct (in_use k) eqn:Ek.
    - pose proof (refines_at B L x z k HR Hx Ek) as HL. apply HU in HL. lia.
    - destruct k as [|[]| |]; try done. by apply (w_holes _ _ HW) in Hx. }
  destruct (pt_cover _ _ _ (i_til _ _ HI) a) as (x & z & k & Hx & Hr); [lia|].
  pose proof (Hfree x z k Hx ltac:(lia) ltac:(lia)) as ->. exists x, z. split_and!; try done; [lia|].
  destruct (Z.le_gt_cases b (x + z)) as [|Hgt]; [done|exfalso].
  destruct (pt_next (i_til _ _ HI) x z TFree Hx) as [E|(z' & k' & Hn)]; [lia|].
  destruct (tlsf_blk_range HI _ _ _ Hn) as (_ & ? & _).
  pose proof (Hfree (x + z) z' k' Hn ltac:(lia) ltac:(lia)) as ->.
  by destruct (w_sep _ _ HW x z TFree z' TFree Hx Hn).
Qed.

Lemma tlsf_exhausted_no_room s B L m :
  wf s B -> refines B L -> 64 <= m <= 2 ^ 63 ->
  (forall a z, B !! a = Some (z, TFree) -> class_of z < class_for m) -> no_room s L m.
Proof.
  intros HW HR Hm Hno a b Ha Hb HU. destruct (class_for_bounds m Hm) as (_ & Hhi & Hi & _).
  destruct (Z.lt_ge_cases a b) as [Hlt|Hge]; [|pose proof (Z.div_pos m 16); lia].
  destruct (unclaimed_block s B L a b HW HR ltac:(lia) Hb HU) as (x & z & Hx & H1 & H2).
  destruct (tlsf_blk_range (w_inv _ _ HW) _ _ _ Hx) as (_ & Hz & _ & _ & _ & _ & _ & Hz32 & _).
  pose proof (class_of_lt z (class_for m) ltac:(lia) (Hno x z Hx)). lia.
Qed.

Lemma tlsf_served_fresh s B L s' B' a z k :
  wf s B -> refines B L -> served s B s' B' a z k -> in_use k = true ->
  fresh_claim s L (a + 32) (z - 32) s'.
Proof.
  intros HW HR HS Hk. pose proof (sv_inv _ _ _ _ _ _ _ HS) as HI'. pose proof (sv_blk _ _ _ _ _ _ _ HS) as Hb.
  destruct (tlsf_blk_range HI' _ _ _ Hb) as (Hlo & Hz & _ & Hda & Hhi & _).
  unfold lo, hi in *. rewrite (sv_base _ _ _ _ _ _ _ HS) in Hlo, Hhi.
  rewrite (sv_total _ _ _ _ _ _ _ HS) in Hhi. destruct (sv_fresh _ _ _ _ _ _ _ HS) as [z0 Hz0].
  split_and!; unfold lo, hi; try lia.
  - destruct (L !! (a + 32)) as [[n' k']|] eqn:E; [|done]. apply HR in E as [Hk' E].
    replace (a + 32 - 32) with a in E by lia. rewrite Hz0 in E. by simplify_eq.
  - apply Z.divide_add_r; [done|apply Z.divide_refl].
  - intros q n' k' Hq. apply HR in Hq as [Hk' Hq].
    assert (Hne : q - 32 <> a) by (intros E; rewrite E, Hz0 in Hq; by simplify_eq).
    pose proof Hq as Hq'. apply (sv_others _ _ _ _ _ _ _ HS) in Hq'; [|done|done].
    pose proof (pt_disj _ _ _ (i_til _ _ HI') _ _ _ _ _ _ Hb Hq' ltac:(done)). lia.
  - intros q n' k' c Hq Hc. apply HR in Hq as [Hk' Hq].
    apply (sv_mem _ _ _ _ _ _ _ HS (q - 32) (n' + 32) k'); [done|done|lia].
Qed.

(** C15. An allocation either returns a new chunk large enough, apart from every
    claim, and keeps the contents of all claims, or returns the null chunk,
    changes nothing, and every run of unclaimed addresses is shorter than the
    request plus a sixteenth. *)
Theorem tlsf_allocate_correct s L n :
  reach s L -> request n ->
  let m := adjusted_block_size n in
  let '(c, s') := allocate s n in
  (c = null_chunk /\ s' = s /\ no_room s L m) \/
  (reach s' (<[ptr c := (len c, TAlloc false)]> L) /\ n + 32 <= len c < n + 96 /\
   used s' = used s + len c + 32 /\ fresh_claim s L (ptr c) (len c) s').
Proof.
  intros Hr Hn m. destruct (reach_wf s L Hr) as (B & HW & HR).
  pose proof (reach_step _ _ _ _ Hr (ts_allocate s L n Hn)) as Hr'.
  destruct (adjusted_block_size_spec n Hn) as (Hd & Hb & Hm). fold m in Hd, Hb, Hm.
  destruct (tlsf_allocate_spec s B n HW Hn) as [(a & z & s' & B' & E & HS & HW' & Hz)|[E Hno]];
    rewrite E in *; cbn [fst snd ptr len] in Hr'.
  - right. destruct (tlsf_blk_range (w_inv _ _ HW') _ _ _ (sv_blk _ _ _ _ _ _ _ HS)) as (_ & Hz64 & _ & _ & _ & _ & Ha & _).
    unfold claim in Hr'. cbn [ptr len] in Hr'. destruct (Z.eqb_spec (a + 32) 0); [lia|].
    fold m in Hz. cbn [ptr len]. split_and!; try done; try lia; [|by eapply tlsf_served_fresh].
    rewrite (tlsf_served_used s B s' B' a z false HW HS HW'). lia.
  - left. split_and!; try done. by eapply tlsf_exhausted_no_room.
Qed.

Lemma tlsf_allocate_correct_witness :
  reach tdemo1 tclaims1 /\ request 3000 /\ ptr (allocate tdemo1 3000).1 = 5248 /\
  fresh_claim tdemo1 tclaims1 5248 3040 tdemo2.
Proof.
  split; [exact tdemo1_reach|]. assert (Hn : request 3000) by (unfold request; lia). split; [exact Hn|].
  pose proof (tlsf_allocate_correct tdemo1 tclaims1 3000 tdemo1_reach Hn) as H.
  assert (E : (allocate tdemo1 3000).1 = Chunk 5248 3040) by (vm_compute; reflexivity).
  unfold tdemo2. destruct (allocate tdemo1 3000) as [c s'] eqn:Ea. cbn in E |- *. rewrite E in H |- *.
  split; [reflexivity|]. destruct H as [(Hc & _)|(_ & _ & _ & H)]; [discriminate|exact H].
Defined.

(** What a client can tell of where blocks start: the data region starts with one,
    and one starts behind every claim but the last. *)
Definition boundary (s : tlsf) (L : claims) (p : Z) : Prop :=
  p - 32 < hi s /\ (p - 32 = lo s \/ exists q n k, L !! q = Some (n, k) /\ q + n = p - 32).

(** A block starts there, and it is free when it is not claimed. *)
Lemma boundary_block s B L p :
  wf s B -> refines B L -> boundary s L p -> exists z k, B !! (p - 32) = Some (z, k) /\ (L !! p = None -> k = TFree).
Proof.
  intros HW HR [Hhi Hb]. pose proof (w_inv _ _ HW) as HI.
  assert (Hk : exists z k, B !! (p - 32) = Some (z, k)).
  { destruct Hb as [->|(q & n & k & Hq & E)].
    - destruct (place_lo s B HI) as [|[E|E]]; [done|..]; destruct (i_geo _ _ HI); unfold lo, hi in *; change __block_align with 32 in *; lia.
    - apply HR in Hq as [_ Hq]. destruct (pt_next (i_til _ _ HI) _ _ _ Hq) as [E'|Hn]; [lia|].
      by replace (p - 32) with (q - 32 + (n + 32)) by lia. }
  destruct Hk as (z & k & Hk). exists z, k. split; [done|]. intros Hn. destruct (in_use k) eqn:Ek.
  - apply (refines_at B L _ _ _ HR) in Hk; [|done]. replace (p - 32 + 32) with p in Hk by lia. congruence.
  - destruct k as [|[]| |]; try done. by apply (w_holes _ _ HW) in Hk.
Qed.

Lemma boundary_refused s L p :
  reach s L -> L !! p = None -> boundary s L p -> deallocate s p = (__flag_invalid, s).
Proof.
  intros Hr Hn Hbd. destruct (reach_wf s L Hr) as (B & HW & HR). pose proof (w_inv _ _ HW) as HI.
  destruct (boundary_block s B L p HW HR Hbd) as (z & k & Hk & ->%(fun H => H Hn)).
  destruct (tlsf_blk_range HI _ _ _ Hk) as (_ & _ & _ & _ & _ & _ & Hp & _). destruct (i_geo _ _ HI) as [Hb _ _ _ _].
  apply deallocate_refused; [lia|lia|]. by apply (i_flags _ _ HI (p - 32) z TFree).
Qed.

(** Where a claim is not at a boundary, a free block ends. *)
Lemma unbounded_free s B L p n t :
  wf s B -> refines B L -> L !! p = Some (n, TAlloc t) -> ~ boundary s L p ->
  exists q zq, B !! q = Some (zq, TFree) /\ q + zq = p - 32.
Proof.
  intros HW HR Hp Hnb. pose proof (w_inv _ _ HW) as HI. destruct (proj1 (HR _ _ _) Hp) as [_ Hb].
  destruct (tlsf_blk_range HI _ _ _ Hb) as (_ & Hz & _ & _ & Hhi & _).
  destruct (pt_prev (i_til _ _ HI) _ _ _ Hb) as [E|(q & zq & kq & Hq & E)]; [destruct Hnb; split; [lia|by left]|].
  exists q, zq. split; [|done]. destruct (in_use kq) eqn:Ek.
  - destruct Hnb. split; [lia|right]. apply (refines_at B L _ _ _ HR) in Hq; [|done].
    exists (q + 32), (zq - 32), kq. split; [done|lia].
  - destruct kq as [|[]| |]; try done. by apply (w_holes _ _ HW) in Hq.
Qed.

(** C16. A claim that is not tombstoned can be returned: it is no longer claimed, its
    bytes are no longer used, and all other claims keep their contents.  A null
    pointer, and the start of a block that is not claimed (as far as the claims
    tell: at the start of the data region or right behind a claim), is refused
    without effect; so is the pointer just returned, unless free memory lay
    before its block, which [tlsf_double_free_unnoticed] is about. *)
Theorem tlsf_deallocate_correct s L p :
  reach s L ->
  (forall n t, L !! p = Some (n, TAlloc t) ->
     let '(r, s') := deallocate s p in
     r = __flag_ok /\ reach s' (delete p L) /\ used s' = used s - (n + 32) /\
     (forall q n' k a, q <> p -> L !! q = Some (n', k) -> q <= a < q + n' -> rd (mem s') a = rd (mem s) a) /\
     (boundary s L p -> deallocate s' p = (__flag_invalid, s'))) /\
  (p = 0 -> deallocate s p = (__flag_failure, s)) /\
  (L !! p = None -> boundary s L p -> deallocate s p = (__flag_invalid, s)).
Proof.
  intros Hr. split; [intros n t Hp|split; [intros E; apply deallocate_refused; by left|by apply boundary_refused]]. destruct (reach_wf s L Hr) as (B & HW & HR).
  pose proof (reach_step _ _ _ _ Hr (ts_deallocate s L p n t Hp)) as Hr'.
  destruct (proj1 (HR _ _ _) Hp) as [_ Hb]. destruct (tlsf_deallocate_wf s B (p - 32) (n + 32) t HW Hb) as (s' & B' & E & HS).
  replace (p - 32 + 32) with p in E by lia. rewrite E in *. split_and!; try done; [apply HS|..].
  - intros q n' k a Hne Hq Ha. apply HR in Hq as [Hk Hq].
    apply (rl_mem _ _ _ _ _ _ HS (q - 32) (n' + 32) k); [done|done|lia|lia].
  - intros [Hhi Hbd]. apply (boundary_refused s' (delete p L) p Hr'); [apply lookup_delete_eq|].
    unfold boundary, lo, hi in *. rewrite (rl_base _ _ _ _ _ _ HS), (rl_total _ _ _ _ _ _ HS). split; [done|].
    destruct Hbd as [|(q & n' & k & Hq & Eq)]; [by left|right]. exists q, n', k. split; [|done].
    pose proof Hq as Hq'. apply HR in Hq' as [_ Hq']. destruct (tlsf_blk_range (w_inv _ _ HW) _ _ _ Hq') as (_ & ? & _).
    rewrite lookup_delete_ne by lia. done.
Qed.

(** The first claim is returned, and once more; the block behind both is refused. *)
Lemma tlsf_deallocate_correct_witness :
  reach tdemo2 tclaims2 /\ used (deallocate tdemo2 4160).2 = used tdemo2 - (1056 + 32) /\
  (deallocate (deallocate tdemo2 4160).2 4160).1 = __flag_invalid /\ deallocate tdemo2 8320 = (__flag_invalid, tdemo2).
Proof.
  split; [exact tdemo2_reach|].
  assert (Hp : tclaims2 !! 4160 = Some (1056, TAlloc false)) by reflexivity.
  destruct (tlsf_deallocate_correct tdemo2 tclaims2 4160 tdemo2_reach) as [H _]. specialize (H _ _ Hp).
  destruct (deallocate tdemo2 4160) as [r s']. cbn [snd]. destruct H as (_ & _ & Hu & _ & H2).
  assert (Hb : boundary tdemo2 tclaims2 4160) by (split; [by vm_compute|left; by vm_compute]).
  split; [exact Hu|]. split; [rewrite (H2 Hb); reflexivity|].
  destruct (tlsf_deallocate_correct tdemo2 tclaims2 8320 tdemo2_reach) as (_ & _ & H3). apply H3; [reflexivity|].
  split; [by vm_compute|right]. exists 5248, 3040, (TAlloc false). split; reflexivity.
Defined.

(** C17. Merging is complete: when nothing is claimed the pool is one free block
    again, nothing is used, and any request that fits with a sixteenth to spare
    gets the start of the data region. *)
Theorem tlsf_full_coalescing s n :
  reach s ∅ -> request n ->
  let m := adjusted_block_size n in
  m + m / 16 + 1 <= total s ->
  used s = 0 /\ available s = total s /\ ptr (allocate s n).1 = lo s + 32.
Proof.
  intros Hr Hn m Hfit. destruct (reach_wf s ∅ Hr) as (B & HW & HR). pose proof (w_inv _ _ HW) as HI.
  destruct (i_geo _ _ HI) as [Hb _ Ht _ _].
  assert (Huse : forall a z k, B !! a = Some (z, k) -> k = TFree).
  { intros a z k Ha. destruct (in_use k) eqn:Ek; [by apply (refines_at B ∅ a z k HR) in Ek|].
    destruct k as [|[]| |]; try done. by apply (w_holes _ _ HW) in Ha. }
  assert (Hused : used s = 0).
  { unfold used. rewrite (w_alloc _ _ HW). rewrite <- (msum_agree (size_if is_alloc) ∅ B); [done|].
    intros i [z k] Hw. rewrite lookup_empty. split; [done|]. intros Hi. by rewrite (Huse _ _ _ Hi) in Hw. }
  split; [done|]. split.
  { unfold available, used in *. destruct (Z.eqb_spec (base s) 0); [lia|]. rewrite Hused, Z.sub_0_r. apply u64_small. lia. }
  destruct (adjusted_block_size_spec n Hn) as (_ & _ & Hm). fold m in Hm.
  destruct (tlsf_allocate_spec s B n HW Hn) as [(a & z & s' & B' & E & HS & _)|[E Hno]]; rewrite E; cbn [fst ptr].
  - destruct (sv_fresh _ _ _ _ _ _ _ HS) as [z0 Hz0].
    destruct (pt_prev (i_til _ _ HI) a z0 TFree Hz0) as [->|(p & zp & kp & Hp & Epa)]; [done|].
    exfalso. rewrite <- Epa in Hz0. rewrite (Huse _ _ _ Hp) in Hp. by destruct (w_sep _ _ HW _ _ _ _ _ Hp Hz0).
  - exfalso. assert (HU : unclaimed ∅ (lo s) (hi s)) by (by intros p n' k Hp).
    pose proof (tlsf_exhausted_no_room s B ∅ m HW HR Hm Hno (lo s) (hi s) ltac:(lia) ltac:(lia) HU).
    unfold lo, hi in *. lia.
Qed.

Lemma tlsf_full_coalescing_witness :
  adjusted_block_size 1000 + adjusted_block_size 1000 / 16 + 1 <= total tdemo /\
  ptr (allocate tdemo 1000).1 = lo tdemo + 32.
Proof.
  assert (Hf : adjusted_block_size 1000 + adjusted_block_size 1000 / 16 + 1 <= total tdemo).
  { apply Z.leb_le. vm_compute. reflexivity. }
  split; [exact Hf|].
  exact (proj2 (proj2 (tlsf_full_coalescing tdemo 1000 tdemo_reach ltac:(unfold request; lia) Hf))).
Defined.

(** Claims lie in the data region behind their headers, do not overlap, and the
    observers report them. *)
Theorem tlsf_claims_apart s L p n k q n' k' :
  reach s L -> L !! p = Some (n, k) -> L !! q = Some (n', k') -> p <> q ->
  lo s + 32 <= p /\ p + n <= hi s /\ (32 | p) /\ 32 <= n /\
  (p + n <= q - 32 \/ q + n' <= p - 32) /\
  is_allocated s p = true /\ block_size s p = n + 32 /\ is_temporal s p = bool_decide (k = TAlloc true) /\
  is_tombstoned s p = bool_decide (k = TTomb).
Proof.
  intros Hr Hp Hq Hne. destruct (reach_wf s L Hr) as (B & HW & HR). pose proof (w_inv _ _ HW) as HI.
  apply HR in Hp as [Hk Hp]. apply HR in Hq as [Hk' Hq].
  destruct (tlsf_blk_range HI _ _ _ Hp) as (Hlo & Hz & _ & Hd & Hhi & _ & Hp0 & _).
  pose proof (pt_disj _ _ _ (i_til _ _ HI) _ _ _ _ _ _ Hp Hq ltac:(lia)) as Hdis.
  assert (Hdp : (32 | p)).
  { replace p with (p - 32 + 32) by lia. apply Z.divide_add_r; [done|apply Z.divide_refl]. }
  destruct (i_geo _ _ HI) as [Hb _ _ _ _].
  assert (Hin : in_data s p = true).
  { unfold in_data, lo, hi in *. change __hdr_offset with 32. by repeat case_g. }
  assert (Hf : exists f, tflags k = Some f /\ flags s (p - 32) = f).
  { destruct k as [|[]| |]; try done; eexists; (split; [reflexivity|]); by eapply (i_flags _ _ HI). }
  destruct Hf as (f & Etf & Ef).
  split_and!; try done; try lia.
  - unfold is_allocated. destruct (Z.eqb_spec p 0); [lia|]. destruct (Z.eqb_spec (base s) 0); [lia|].
    rewrite Hin. change __hdr_offset with 32. rewrite Ef. by destruct k as [|[]| |]; try done; injection Etf as <-.
  - unfold block_size. destruct (Z.eqb_spec p 0); [lia|]. destruct (Z.eqb_spec (base s) 0); [lia|].
    rewrite Hin. by apply (i_size _ _ HI _ _ k).
  - unfold is_temporal. change __hdr_offset with 32. rewrite Ef.
    by destruct k as [|[]| |]; try done; injection Etf as <-.
  - unfold is_tombstoned. change __hdr_offset with 32. rewrite Ef.
    by destruct k as [|[]| |]; try done; injection Etf as <-.
Qed.

Lemma tlsf_claims_apart_witness :
  reach tdemo2 tclaims2 /\ (4160 + 1056 <= 5248 - 32 \/ 5248 + 3040 <= 4160 - 32).
Proof.
  split; [exact tdemo2_reach|].
  pose proof (tlsf_claims_apart tdemo2 tclaims2 4160 1056 (TAlloc false) 5248 3040 (TAlloc false)
    tdemo2_reach eq_refl eq_refl ltac:(lia)) as (_ & _ & _ & _ & H & _). exact H.
Defined.

(** A temporal request is answered with a temporal claim: a fresh one, or the
    one its size class already shares; and until that claim is returned every
    further request of the same class gets the same chunk. A shared chunk may
    be shorter than the request by less than a sixteenth of its block. *)
Theorem tlsf_temporal_shares s L n :
  reach s L -> request n ->
  let m := adjusted_block_size n in
  let '(c, s') := temporal_allocate s n in
  (c = null_chunk /\ s' = s /\ no_room s L m) \/
  (reach s' (<[ptr c := (len c, TAlloc true)]> L) /\
   ((n + 32 <= len c /\ fresh_claim s L (ptr c) (len c) s') \/
    (L !! ptr c = Some (len c, TAlloc true) /\ m < (len c + 32) + (len c + 32) / 16 + 1)) /\
   forall n', request n' -> class_for (adjusted_block_size n') = class_for m ->
     (temporal_allocate s' n').1 = c).
Proof.
  intros Hr Hn m. destruct (reach_wf s L Hr) as (B & HW & HR). pose proof (w_inv _ _ HW) as HI.
  pose proof (reach_step _ _ _ _ Hr (ts_temporal s L n Hn)) as Hr'.
  destruct (adjusted_block_size_spec n Hn) as (_ & Hb & Hm). fold m in Hb, Hm.
  assert (Hagain : forall s1 B1 a z r, wf s1 B1 -> B1 !! a = Some (z, TAlloc true) -> 0 <= r < 2 ->
    slot s1 (class_for m) r = a -> forall n', request n' -> class_for (adjusted_block_size n') = class_for m ->
    (temporal_allocate s1 n').1 = Chunk (a + 32) (z - 32)).
  { intros s1 B1 a z r HW1 Ha Hr1 Hs n' Hn' Ec.
    destruct (tlsf_blk_range (w_inv _ _ HW1) _ _ _ Ha) as (_ & _ & _ & _ & _ & _ & Ha0 & _).
    destruct (temporal_shared s1 B1 n' r HW1 Hn' Hr1) as (v & _ & E); rewrite Ec in *; [lia|].
    rewrite Hs, (i_size _ _ (w_inv _ _ HW1) _ _ _ Ha) in E. by rewrite E. }
  destruct (temporal_spec s B n HW Hn) as [(a & z & r & v & E & Ha & Hr1 & Hs & Hv & Hsz)|
    [(a & z & s1 & s' & B' & r & E & HS & HW' & Hz & Hr1 & Hs & Em & _)|[E Hno]]];
    rewrite E in *; cbn [fst snd ptr len] in Hr' |- *.
  - right. pose proof (refines_at B L a z _ HR Ha eq_refl) as HL.
    rewrite (insert_id L _ _ HL). unfold claim in Hr'. cbn [ptr len] in Hr'.
    rewrite (insert_id L _ _ HL) in Hr'. split_and!; [by destruct (_ =? 0)| |].
    + right. split; [done|]. replace (z - 32 + 32) with z by lia. exact Hsz.
    + by apply (Hagain _ B a z r); [apply tlsf_wf_set_rotor|..].
  - right. fold m in Hz. pose proof (sv_blk _ _ _ _ _ _ _ HS) as Hblk.
    destruct (tlsf_blk_range (sv_inv _ _ _ _ _ _ _ HS) _ _ _ Hblk) as (_ & _ & _ & _ & _ & _ & Ha & _).
    unfold claim in Hr'. cbn [ptr len] in Hr'. destruct (Z.eqb_spec (a + 32) 0); [lia|].
    split_and!; [done| |by apply (Hagain _ B' a z r)].
    left. split; [lia|]. destruct (tlsf_served_fresh s B L s1 B' a z _ HW HR HS eq_refl) as (? & ? & ? & ? & ? & Hmem).
    split_and!; try done. intros q n' k c Hq Hc. rewrite Em. by apply (Hmem q n' k).
  - left. split_and!; try done. by eapply tlsf_exhausted_no_room.
Qed.

Lemma tlsf_temporal_shares_witness :
  reach tdemo1 tclaims1 /\ request 500 /\
  (temporal_allocate (temporal_allocate tdemo1 500).2 490).1 = (temporal_allocate tdemo1 500).1.
Proof.
  split; [exact tdemo1_reach|]. assert (Hn : request 500) by (unfold request; lia). split; [exact Hn|].
  pose proof (tlsf_temporal_shares tdemo1 tclaims1 500 tdemo1_reach Hn) as H.
  assert (Hc : (temporal_allocate tdemo1 500).1 <> null_chunk) by (vm_compute; discriminate).
  destruct (temporal_allocate tdemo1 500) as [c s']. cbn [fst snd] in *.
  destruct H as [(E & _)|(_ & _ & H)]; [contradiction|].
  apply H; [unfold request; lia|vm_compute; reflexivity].
Defined.

(** C19. A temporal request can be given a chunk that is too short for it: the
    chunk its class shares was sized for an earlier, smaller request. *)
Theorem tlsf_temporal_short :
  exists s L n c s', reach s L /\ request n /\ temporal_allocate s n = (c, s') /\
    ptr c <> 0 /\ len c < n.
Proof.
  exists (temporal_allocate tdemo 2016).2, (claim ∅ (temporal_allocate tdemo 2016).1 true), 2112.
  eexists _, _. split; [|split; [unfold request; lia|split; [by vm_compute|split; by vm_compute]]].
  eapply reach_step; [exact tdemo_reach|]. apply ts_temporal. unfold request. lia.
Qed.

(** A constructed pool is one free block between two sentinels inside the
    chunk it was given; less than 96 bytes of the chunk are left over. *)
Theorem tlsf_constructor_places_pool `{ChunkOps} Min m c s :
  0 < ptr c -> 0 <= len c -> ptr c + len c + 32 < 2 ^ 64 ->
  __tlsf_list Min m c = Some s -> base s <> 0 ->
  reach s ∅ /\ wf s {[lo s := (total s, TFree)]} /\
  ptr c <= base s /\ hi s + 32 <= ptr c + len c < hi s + 96 /\ (32 | base s).
Proof.
  intros Hp Hl He E Hb. unfold __tlsf_list in E. destruct (_ || _); [done|]. injection E as <-.
  destruct (init_memory_wf (__impl_zero_arrays (blank m)) (ptr c) (len c)) as (HW & ? & ? & ?); try done.
  split; [by apply reach_init|]. split; [done|]. split; [done|]. split; [done|].
  apply (g_align _ (i_geo _ _ (w_inv _ _ HW))).
Qed.

(** The search class of a request is the least class all of whose blocks are
    large enough, and its least block exceeds the request by less than a
    sixteenth. *)
Theorem tlsf_search_class z :
  64 <= z < 2 ^ 62 ->
  let '(fi, si) := mapping_search z in
  let i := idx fi si in
  (forall z', 64 <= z' < 2 ^ 64 -> i <= class_of z' -> z <= z') /\
  (i = 0 \/ class_lo (i - 1) < z) /\ class_lo i < z + z / 16 + 1 /\ 0 <= si < 16.
Proof.
  intros Hz. destruct (class_for_parts z ltac:(lia)) as (fi & si & E & Hfi & Hsi & Ec). rewrite E, <- Ec.
  split_and!; try lia.
  - intros z' Hz'. apply class_for_enough; lia.
  - by apply class_for_least.
  - by destruct (class_for_bounds z ltac:(lia)) as (_ & ? & _).
Qed.

Lemma tlsf_search_class_witness :
  64 <= 1088 < 2 ^ 62 /\ (forall z', 64 <= z' < 2 ^ 64 -> 65 <= class_of z' -> 1088 <= z').
Proof.
  split; [lia|]. assert (E : mapping_search 1088 = (4, 1)) by (vm_compute; reflexivity).
  pose proof (tlsf_search_class 1088 ltac:(lia)) as H. rewrite E in H. exact (proj1 H).
Defined.

(** The byte counters never wrap: used and tombstoned bytes fit together in
    the data region, and [available] is the exact difference. *)
Theorem tlsf_byte_counts s L :
  reach s L ->
  0 <= used s /\ 0 <= tombstoned s /\ used s + tombstoned s <= __total s < 2 ^ 32 /\
  available s = __total s - used s.
Proof.
  intros Hr. destruct (reach_wf s L Hr) as (B & HW & _). pose proof (w_inv _ _ HW) as HI.
  destruct (i_geo _ _ HI) as [Hb _ Ht _ _].
  destruct (size_bound s B is_alloc is_tomb HI) as (? & ? & ?); [by intros []|].
  unfold used, tombstoned, available, __total. rewrite (w_alloc _ _ HW), (w_tomb _ _ HW).
  destruct (Z.eqb_spec (base s) 0); [lia|]. rewrite u64_small by lia. lia.
Qed.

Lemma tlsf_byte_counts_witness : reach tdemo2 tclaims2 /\ available tdemo2 = __total tdemo2 - used tdemo2.
Proof.
  split; [exact tdemo2_reach|]. exact (proj2 (proj2 (proj2 (tlsf_byte_counts tdemo2 tclaims2 tdemo2_reach)))).
Defined.

(** C20. A second return of a block that has been merged into the free block before it
    is not noticed.  When free memory lies right before a claim, its return leaves
    the header inside the merged block as it was: [is_allocated] still answers
    true, [deallocate] accepts the pointer again and takes at least the bytes of
    the claim off the used count once more, which wraps when less was in use. *)
Theorem tlsf_double_free_unnoticed s L p n t :
  reach s L -> L !! p = Some (n, TAlloc t) -> ~ boundary s L p ->
  let s1 := (deallocate s p).2 in
  is_allocated s1 p = true /\ is_temporal s1 p = t /\ n + 32 <= block_size s1 p /\
  let '(r, s2) := deallocate s1 p in
  r = __flag_ok /\ (block_size s1 p <= used s1 -> used s2 = used s1 - block_size s1 p) /\
  (used s1 < block_size s1 p -> used s2 = used s1 - block_size s1 p + 2 ^ 64 /\ __total s2 < used s2).
Proof.
  intros Hr Hp Hnb. destruct (reach_wf s L Hr) as (B & HW & HR). pose proof (w_inv _ _ HW) as HI.
  pose proof (reach_step _ _ _ _ Hr (ts_deallocate s L p n t Hp)) as Hr1. cbv zeta.
  destruct (proj1 (HR _ _ _) Hp) as [_ Hb]. destruct (unbounded_free s B L p n t HW HR Hp Hnb) as (q & zq & Hq & E).
  destruct (deallocate_stale s B _ _ t q zq HW Hb Hq E) as [Ef Es]. destruct (tlsf_deallocate_wf s B _ _ t HW Hb) as (s' & B' & E' & HS).
  replace (p - 32 + 32) with p in * by lia. rewrite E' in *. cbn [snd] in *.
  destruct (tlsf_blk_range HI _ _ _ Hb) as (Hlo & Hz & _ & _ & Hhi & _ & Hp0 & _). destruct (i_geo _ _ HI) as [Hbase _ Ht _ _].
  assert (Hin : in_data s' p = true).
  { unfold in_data, lo, hi in *. change __hdr_offset with 32. rewrite (rl_base _ _ _ _ _ _ HS), (rl_total _ _ _ _ _ _ HS). by repeat case_g. }
  assert (Hb' : base s' <> 0) by (rewrite (rl_base _ _ _ _ _ _ HS); lia).
  assert (Hf : exists f, tflags (TAlloc t) = Some f /\ flags s' (p - 32) = f).
  { destruct t; eexists; (split; [reflexivity|]); rewrite Ef; by eapply (i_flags _ _ HI). }
  destruct Hf as (f & Etf & Ef'). destruct (alloc_flags t f Etf) as (Hf1 & _ & Hf3 & _).
  assert (Hbs : block_size s' p = bsize s' (p - 32)).
  { unfold block_size. rewrite Hin, (proj2 (Z.eqb_neq _ _) Hb'). by destruct (Z.eqb_spec p 0); [lia|]. }
  split; [|split; [|split]].
  - unfold is_allocated. change __hdr_offset with 32. rewrite Hin, Ef', Hf1, (proj2 (Z.eqb_neq _ _) Hb').
    by destruct (Z.eqb_spec p 0); [lia|].
  - unfold is_temporal. change __hdr_offset with 32. by rewrite Ef'.
  - rewrite Hbs. lia.
  - destruct (deallocate_believes s' p ltac:(lia) Hb') as (E1 & E2 & E3); [by rewrite Ef'; apply Z.eqb_neq|].
    destruct (deallocate s' p) as [r s2]. cbn [fst snd] in *. rewrite Hbs, E2, E3.
    destruct (tlsf_byte_counts s' (delete p L) Hr1) as (Hu & Htb & Hut & _).
    split; [done|]. split; intros Hc; [apply u64_small; lia|].
    rewrite (u64_wrapped _ (used s' - bsize s' (p - 32) + 2 ^ 64)) by lia. lia.
Qed.

(** The pool after the first claim is returned: free memory lies before the second. *)
Definition tdemo3 : tlsf := (deallocate tdemo2 4160).2.

Lemma tdemo3_reach : reach tdemo3 (delete 4160 tclaims2).
Proof. eapply reach_step; [exact tdemo2_reach|]. by apply (ts_deallocate _ _ 4160 1056 false). Qed.

Lemma tlsf_double_free_unnoticed_witness :
  let s1 := (deallocate tdemo3 5248).2 in
  is_allocated s1 5248 = true /\ (deallocate s1 5248).1 = __flag_ok /\ used s1 = 0 /\ __total (deallocate s1 5248).2 < used (deallocate s1 5248).2.
Proof.
  assert (Hp : delete 4160 tclaims2 !! 5248 = Some (3040, TAlloc false)) by reflexivity.
  assert (Hb : ~ boundary tdemo3 (delete 4160 tclaims2) 5248).
  { intros [_ [E|(q & n & k & Hq & E)]]; [by vm_compute in E|]. apply lookup_delete_Some in Hq as [Hne Hq].
    unfold tclaims2, tclaims1 in Hq. apply lookup_insert_Some in Hq as [[<- [= <- <-]]|[_ Hq]]; [lia|].
    apply lookup_singleton_Some in Hq as [<- _]. by apply Hne. }
  destruct (tlsf_double_free_unnoticed tdemo3 _ 5248 3040 false tdemo3_reach Hp Hb) as (Ha & _ & Hz & H). cbv zeta.
  assert (Hu : used (deallocate tdemo3 5248).2 = 0) by (vm_compute; reflexivity).
  set (s1 := (deallocate tdemo3 5248).2) in *. destruct (deallocate s1 5248) as [r s2]. destruct H as (Er & _ & H2).
  split; [exact Ha|]. split; [exact Er|]. split; [exact Hu|]. apply H2. lia.
Defined.

(** Tombstoning a claim that is not temporal moves its bytes from the used to
    the tombstoned count and keeps the contents of every claim. *)
Theorem tlsf_tombstone_correct s L p n :
  reach s L -> L !! p = Some (n, TAlloc false) ->
  let '(r, s') := tombstone s p in
  r = __flag_tombstoned /\ reach s' (<[p := (n, TTomb)]> L) /\
  used s' = used s - (n + 32) /\ tombstoned s' = tombstoned s + (n + 32) /\ is_tombstoned s' p = true /\
  forall q n' k a, L !! q = Some (n', k) -> q <= a < q + n' -> rd (mem s') a = rd (mem s) a.
Proof.
  intros Hr Hp. destruct (reach_wf s L Hr) as (B & HW & HR).
  pose proof (reach_step _ _ _ _ Hr (ts_tombstone s L p n Hp)) as Hr'. destruct (proj1 (HR _ _ _) Hp) as [_ Hb].
  destruct (tombstone_wf s B (p - 32) (n + 32) HW Hb) as (s' & E & HW' & Hu & Ht & _ & _ & Hmem).
  replace (p - 32 + 32) with p in E by lia. rewrite E in *. split_and!; try done.
  - unfold is_tombstoned. change __hdr_offset with 32.
    by rewrite (i_flags _ _ (w_inv _ _ HW') (p - 32) (n + 32) TTomb _ (lookup_insert_eq _ _ _) eq_refl).
  - intros q n' k a Hq Ha. apply HR in Hq as [Hk Hq]. apply (Hmem (q - 32) (n' + 32) k); [done|done|lia].
Qed.

Lemma tlsf_tombstone_correct_witness :
  reach tdemo2 tclaims2 /\ is_tombstoned (tombstone tdemo2 5248).2 5248 = true.
Proof.
  split; [exact tdemo2_reach|].
  pose proof (tlsf_tombstone_correct tdemo2 tclaims2 5248 3040 tdemo2_reach eq_refl) as H.
  destruct (tombstone tdemo2 5248) as [r s']. exact (proj1 (proj2 (proj2 (proj2 (proj2 H))))).
Defined.

(** C18. Every reachable pool satisfies the representation invariant for blocks
    that the claims abstract. *)
Theorem tlsf_refines_claims s L : reach s L -> exists B, wf s B /\ refines B L.
Proof. exact (reach_wf s L). Qed.

Lemma tlsf_refines_claims_witness : exists B, wf tdemo2 B /\ refines B tclaims2.
Proof. exact (tlsf_refines_claims tdemo2 tclaims2 tdemo2_reach). Defined.
