(* ===== verification/Tcache.v ===== *)
(** * The front caches of a tier (src/src/tcache.hpp)

    [Tier] is [__tier_tcache<Slots>], a stack of chunks searched linearly;
    [Slab] is [__slab_tcache], sixteen stacks of equal payloads found through a
    bitmap; [Zero] is [__tier_tcache<0>].  Each is shown to be a bag of chunks:
    what is pushed is what is popped, drained or invalidated, once. *)

From S2P Require Import Prelude.
From S2P Require Import Config.
From S2P Require Import Tlsf.
From S2P Require Import TlsfWf.

(** ** Arrays as lists *)

(** The first [n] values of an indexed family *)
Definition upto {A} (f : Z -> A) (n : Z) : list A := f <$> seqZ 0 n.

Lemma upto_snoc {A} (f : Z -> A) n : 0 <= n -> upto f (n + 1) = upto f n ++ [f n].
Proof. intros Hn. unfold upto. rewrite seqZ_app, fmap_app by lia. done. Qed.

Lemma upto_ext {A} (f g : Z -> A) n : (forall i, 0 <= i < n -> f i = g i) -> upto f n = upto g n.
Proof.
  intros H. unfold upto. apply list_fmap_ext. intros j x Hx. apply H.
  apply lookup_seqZ in Hx. lia.
Qed.

Lemma elem_of_upto {A} (f : Z -> A) n x : x ∈ upto f n <-> exists i, 0 <= i < n /\ f i = x.
Proof.
  unfold upto. rewrite list_elem_of_fmap. split.
  - intros (i & -> & Hi%elem_of_seqZ). exists i. split; [lia|done].
  - intros (i & Hi & <-). exists i. split; [done|]. apply elem_of_seqZ. lia.
Qed.

(** Overwriting entry [i] with the last one and dropping the last removes
    entry [i] from the bag. *)
Lemma upto_swap {A} (f g : Z -> A) n i :
  0 <= i < n -> (forall j, 0 <= j < n - 1 -> g j = if j =? i then f (n - 1) else f j) ->
  upto f n ≡ₚ f i :: upto g (n - 1).
Proof.
  intros Hi Hg. replace n with (n - 1 + 1) at 1 by lia. rewrite upto_snoc by lia.
  destruct (Z.eq_dec i (n - 1)) as [->|Hne].
  - rewrite (upto_ext g f) by (intros j Hj; rewrite Hg by done; destruct (Z.eqb_spec j (n - 1)); [lia|done]).
    symmetry. apply Permutation_cons_append.
  - assert (Hl : upto f (n - 1) !! Z.to_nat i = Some (f i)).
    { unfold upto. rewrite list_lookup_fmap, lookup_seqZ_lt by lia. cbn. do 2 f_equal. lia. }
    assert (Eg : upto g (n - 1) = <[Z.to_nat i := f (n - 1)]> (upto f (n - 1))).
    { apply list_eq. intros k. unfold upto. destruct (decide (k < Z.to_nat (n - 1))%nat) as [Hk|Hk].
      - rewrite list_lookup_fmap, lookup_seqZ_lt by lia. cbn. rewrite Hg by lia.
        destruct (decide (k = Z.to_nat i)) as [->|Hki].
        + rewrite list_lookup_insert_eq by (rewrite length_fmap, length_seqZ; lia).
          destruct (Z.eqb_spec (0 + Z.of_nat (Z.to_nat i)) i); [done|lia].
        + rewrite list_lookup_insert_ne, list_lookup_fmap, lookup_seqZ_lt by lia.
          destruct (Z.eqb_spec (0 + Z.of_nat k) i); [lia|done].
      - rewrite !lookup_ge_None_2; [done|..]; rewrite ?length_insert, length_fmap, length_seqZ; lia. }
    rewrite Eg, insert_take_drop by (by eapply lookup_lt_Some).
    rewrite <- (take_drop_middle _ _ _ Hl) at 1. rewrite <- app_assoc. cbn.
    rewrite <- Permutation_middle. f_equiv. f_equiv. symmetry. apply Permutation_cons_append.
Qed.

(** [__tcache_chunk] *)
Record tchunk := TChunk { tptr : Z; tsize : Z }.

(** ** The linear cache *)

Module TierCache.

Record cache := Cache { _size : zmap; _ptr : zmap; _count : Z }.

Definition init : cache := Cache ∅ ∅ 0.

(** [for ( u32 i = n; i > 0; --i ) if ( p(_size[i - 1]) ) return i - 1;] *)
Fixpoint probe_loop (t : cache) (p : Z -> bool) (n : nat) : Z :=
  match n with
  | O => -1
  | S i => if p (rd (_size t) (Z.of_nat i)) then Z.of_nat i else probe_loop t p i
  end.

Definition probe (t : cache) (sz : Z) : Z :=
  if _count t =? 0 then -1 else probe_loop t (fun x => x =? sz) (Z.to_nat (_count t)).

Definition probe_ge (t : cache) (sz : Z) : Z :=
  if _count t =? 0 then -1 else probe_loop t (fun x => sz <=? x) (Z.to_nat (_count t)).

Definition push (Slots : Z) (t : cache) (p sz : Z) : bool * cache :=
  if Slots <=? _count t then (false, t)
  else (true, Cache (wr (_size t) (_count t) sz) (wr (_ptr t) (_count t) p) (u32 (_count t + 1))).

Fixpoint contains_loop (t : cache) (p : Z) (i : Z) (n : nat) : bool :=
  match n with
  | O => false
  | S n' => if rd (_ptr t) i =? p then true else contains_loop t p (i + 1) n'
  end.

Definition contains (t : cache) (p : Z) : bool := contains_loop t p 0 (Z.to_nat (_count t)).

Definition pop_at (t : cache) (idx : Z) : tchunk * cache :=
  let out := TChunk (rd (_ptr t) idx) (rd (_size t) idx) in
  let c := u32 (_count t - 1) in
  if negb (idx =? c)
  then (out, Cache (wr (_size t) idx (rd (_size t) c)) (wr (_ptr t) idx (rd (_ptr t) c)) c)
  else (out, Cache (_size t) (_ptr t) c).

(** The loop of [invalidate_range]: [r] reads, [w] writes. *)
Fixpoint compact (t : cache) (lo hi : Z) (w r : Z) (n : nat) : cache :=
  match n with
  | O => Cache (_size t) (_ptr t) w
  | S n' =>
      if (rd (_ptr t) r <? lo) || (hi <=? rd (_ptr t) r) then
        let t := if negb (w =? r)
                 then Cache (wr (_size t) w (rd (_size t) r)) (wr (_ptr t) w (rd (_ptr t) r)) (_count t)
                 else t in
        compact t lo hi (w + 1) (r + 1) n'
      else compact t lo hi w (r + 1) n'
  end.

Definition invalidate_range (t : cache) (lo hi : Z) : cache :=
  compact t lo hi 0 0 (Z.to_nat (_count t)).

(** [fn] is applied to the entries in order; it threads the caller's state. *)
Fixpoint drain_loop {X} (t : cache) (fn : Z -> Z -> X -> X) (x : X) (i : Z) (n : nat) : X :=
  match n with
  | O => x
  | S n' => drain_loop t fn (fn (rd (_ptr t) i) (rd (_size t) i) x) (i + 1) n'
  end.

Definition drain {X} (t : cache) (fn : Z -> Z -> X -> X) (x : X) : X * cache :=
  (drain_loop t fn x 0 (Z.to_nat (_count t)), Cache (_size t) (_ptr t) 0).

(** *** The bag of a cache *)

Definition entry (t : cache) (i : Z) : tchunk := TChunk (rd (_ptr t) i) (rd (_size t) i).
Definition bag (t : cache) : list tchunk := upto (entry t) (_count t).

Definition wf (Slots : Z) (t : cache) : Prop := 0 <= _count t <= Slots /\ Slots < 2 ^ 32.

Lemma bag_sizes t (P : Z -> Prop) :
  (forall j, 0 <= j < _count t -> P (rd (_size t) j)) -> forall c, c ∈ bag t -> P (tsize c).
Proof. intros H c (i & Hi & <-)%elem_of_upto. by apply H. Qed.

Lemma probe_loop_spec t p n :
  let i := probe_loop t p n in
  (i = -1 /\ forall j, 0 <= j < Z.of_nat n -> p (rd (_size t) j) = false) \/
  (0 <= i < Z.of_nat n /\ p (rd (_size t) i) = true /\
   forall j, i < j < Z.of_nat n -> p (rd (_size t) j) = false).
Proof.
  induction n as [|n IH]; cbn [probe_loop]; [left; split; [done|lia]|].
  destruct (p (rd (_size t) (Z.of_nat n))) eqn:E.
  - right. split_and!; [lia|lia|done|lia].
  - destruct IH as [[-> H]|(Hi & Hp & H)]; [left; split; [done|]|right; split_and!; try lia; [done|]];
      intros j Hj; (destruct (Z.eq_dec j (Z.of_nat n)) as [->|]; [done|]); apply H; lia.
Qed.

Lemma probe_ge_spec Slots t sz :
  wf Slots t ->
  let i := probe_ge t sz in
  (i = -1 /\ forall j, 0 <= j < _count t -> rd (_size t) j < sz) \/
  (0 <= i < _count t /\ sz <= rd (_size t) i).
Proof.
  intros [Hc _]. unfold probe_ge. destruct (Z.eqb_spec (_count t) 0) as [E|E].
  { left. split; [done|lia]. }
  destruct (probe_loop_spec t (fun x => sz <=? x) (Z.to_nat (_count t))) as [[-> H]|(Hi & Hp & _)].
  - left. split; [done|]. intros j Hj. specialize (H j ltac:(lia)). by apply Z.leb_gt in H.
  - right. apply Z.leb_le in Hp. split; [lia|done].
Qed.

Lemma probe_spec Slots t sz :
  wf Slots t ->
  let i := probe t sz in
  (i = -1 /\ forall j, 0 <= j < _count t -> rd (_size t) j <> sz) \/
  (0 <= i < _count t /\ rd (_size t) i = sz).
Proof.
  intros [Hc _]. unfold probe. destruct (Z.eqb_spec (_count t) 0) as [E|E].
  { left. split; [done|lia]. }
  destruct (probe_loop_spec t (fun x => x =? sz) (Z.to_nat (_count t))) as [[-> H]|(Hi & Hp & _)].
  - left. split; [done|]. intros j Hj. specialize (H j ltac:(lia)). by apply Z.eqb_neq in H.
  - right. apply Z.eqb_eq in Hp. split; [lia|done].
Qed.

Lemma push_spec Slots t p sz :
  wf Slots t ->
  (_count t = Slots /\ push Slots t p sz = (false, t)) \/
  (exists t', push Slots t p sz = (true, t') /\ wf Slots t' /\ bag t' = bag t ++ [TChunk p sz]).
Proof.
  intros [Hc HS]. unfold push. destruct (Z.leb_spec Slots (_count t)); [left; split; [lia|done]|right].
  eexists. split; [reflexivity|]. rewrite u32_small by lia. split; [split; cbn; lia|].
  unfold bag. cbn [_count]. rewrite upto_snoc by lia. f_equal.
  - apply upto_ext. intros i Hi. unfold entry. cbn. by rewrite !rd_wr_ne by lia.
  - unfold entry. cbn. by rewrite !rd_wr_eq.
Qed.

Lemma contains_loop_spec t p n : forall i,
  contains_loop t p i n = true <-> exists j, i <= j < i + Z.of_nat n /\ rd (_ptr t) j = p.
Proof.
  induction n as [|n IH]; intros i; cbn [contains_loop]; [split; [done|intros (j & ? & _); lia]|].
  destruct (Z.eqb_spec (rd (_ptr t) i) p) as [E|E].
  - split; [intros _; exists i; split; [lia|done]|done].
  - rewrite IH. split; intros (j & Hj & Hp); exists j; (split; [|done]); [lia|].
    assert (i <> j) by congruence. lia.
Qed.

Lemma contains_spec Slots t p : wf Slots t -> contains t p = true <-> exists c, c ∈ bag t /\ tptr c = p.
Proof.
  intros [Hc _]. unfold contains. rewrite contains_loop_spec. unfold bag. split.
  - intros (j & Hj & Hp). exists (entry t j). split; [|done]. apply elem_of_upto. exists j. split; [lia|done].
  - intros (c & (i & Hi & <-)%elem_of_upto & Hp). exists i. split; [lia|done].
Qed.

Lemma pop_at_spec Slots t idx :
  wf Slots t -> 0 <= idx < _count t ->
  let '(c, t') := pop_at t idx in
  c = entry t idx /\ wf Slots t' /\ bag t ≡ₚ c :: bag t'.
Proof.
  intros [Hc HS] Hi. unfold pop_at. rewrite u32_small by lia.
  assert (Hgen : forall t', _count t' = _count t - 1 ->
    (forall j, 0 <= j < _count t - 1 -> entry t' j = if j =? idx then entry t (_count t - 1) else entry t j) ->
    entry t idx = entry t idx /\ wf Slots t' /\ bag t ≡ₚ entry t idx :: bag t').
  { intros t' Ec He. split; [done|]. split; [split; lia|]. unfold bag. rewrite Ec. by apply upto_swap. }
  destruct (Z.eqb_spec idx (_count t - 1)) as [E|E]; cbn [negb]; apply Hgen; try done.
  - intros j Hj. destruct (Z.eqb_spec j idx); [lia|done].
  - intros j Hj. unfold entry. cbn. rewrite !rd_wr, (Z.eqb_sym idx j). by destruct (Z.eqb_spec j idx) as [->|].
Qed.

Definition outside (lo hi : Z) (c : tchunk) : bool := (tptr c <? lo) || (hi <=? tptr c).

Lemma compact_spec lo hi n : forall t w r,
  0 <= w <= r ->
  let t' := compact t lo hi w r n in
  w <= _count t' <= w + Z.of_nat n /\
  bag t' = upto (entry t) w ++ filter (fun c => outside lo hi c = true) ((fun i => entry t i) <$> seqZ r (Z.of_nat n)).
Proof.
  induction n as [|n IH]; intros t w r Hw; cbn [compact].
  - cbn. rewrite app_nil_r. split; [lia|done].
  - rewrite Nat2Z.inj_succ, seqZ_cons, Z.pred_succ by lia. cbn [fmap list_fmap].
    rewrite filter_cons. change ((rd (_ptr t) r <? lo) || (hi <=? rd (_ptr t) r)) with (outside lo hi (entry t r)).
    rewrite <- Z.add_1_r. destruct (decide (outside lo hi (entry t r) = true)) as [E|E].
    + rewrite E.
      set (t1 := if negb (w =? r) then _ else t).
      assert (Hlt : forall i, i <> w -> entry t1 i = entry t i).
      { intros i Hi. subst t1. destruct (w =? r); cbn [negb]; [done|]. unfold entry. cbn. by rewrite !rd_wr_ne by lia. }
      assert (Hw1 : entry t1 w = entry t r).
      { subst t1. destruct (Z.eqb_spec w r) as [->|]; cbn [negb]; [done|]. unfold entry. cbn. by rewrite !rd_wr_eq. }
      destruct (IH t1 (w + 1) (r + 1) ltac:(lia)) as [Hc Hb]. split; [lia|]. rewrite Hb, <- (Z.add_1_r r).
      rewrite upto_snoc, <- app_assoc by lia. cbn. rewrite Hw1. f_equal; [apply upto_ext; intros; apply Hlt; lia|].
      f_equal. f_equal. apply list_fmap_ext. intros j x Hx. apply Hlt. apply lookup_seqZ in Hx. lia.
    + apply not_true_is_false in E. rewrite E. destruct (IH t w (r + 1) ltac:(lia)) as [Hc Hb]. split; [lia|done].
Qed.

Lemma invalidate_range_spec Slots t lo hi :
  wf Slots t ->
  wf Slots (invalidate_range t lo hi) /\
  bag (invalidate_range t lo hi) = filter (fun c => outside lo hi c = true) (bag t).
Proof.
  intros [Hc HS]. destruct (compact_spec lo hi (Z.to_nat (_count t)) t 0 0 ltac:(lia)) as [Hn Hb].
  unfold invalidate_range. rewrite Z2Nat.id in * by lia. split; [split; lia|]. exact Hb.
Qed.

Lemma drain_loop_spec {X} t (fn : Z -> Z -> X -> X) n : forall x i,
  drain_loop t fn x i n =
  foldl (fun x c => fn (tptr c) (tsize c) x) x ((fun j => entry t j) <$> seqZ i (Z.of_nat n)).
Proof.
  induction n as [|n IH]; intros x i; cbn [drain_loop]; [done|].
  rewrite Nat2Z.inj_succ, seqZ_cons, Z.pred_succ by lia. cbn [fmap list_fmap foldl]. by rewrite IH.
Qed.

Lemma drain_spec {X} Slots t (fn : Z -> Z -> X -> X) x :
  wf Slots t ->
  let '(x', t') := drain t fn x in
  x' = foldl (fun x c => fn (tptr c) (tsize c) x) x (bag t) /\ wf Slots t' /\ bag t' = [].
Proof.
  intros [Hc HS]. unfold drain. rewrite drain_loop_spec, Z2Nat.id by lia. split; [done|].
  split; [split; cbn; lia|done].
Qed.
End TierCache.

(** ** The classed cache *)

Module Slab.

Definition __num_classes : Z := 16.
Definition __slots_per : Z := 8.
Definition __class_step : Z := 32.
Definition __class_min_payload : Z := 64.
Definition __class_max_payload : Z := __class_min_payload + (__num_classes - 1) * __class_step.
Definition __class_max_user : Z := __num_classes * __class_step.

(** [_buckets[c][s]] is the cell [c * 8 + s]. *)
Record cache := Cache { _buckets : zmap; _counts : zmap; _occupied : Z }.

Definition init : cache := Cache ∅ ∅ 0.

Definition class_for_user (user_n : Z) : Z :=
  if (user_n =? 0) || (__class_max_user <? user_n) then -1 else Z.shiftr (user_n - 1) 5.

Definition class_for_payload (payload : Z) : Z :=
  if (payload <? __class_min_payload) || (__class_max_payload <? payload) then -1 else
  if negb (Z.land payload 31 =? 0) then -1 else Z.shiftr (payload - __class_min_payload) 5.

Definition encode_hit (c s : Z) : Z := Z.lor (Z.shiftl c 16) (Z.land s 65535).

Definition probe_ge (t : cache) (user_n : Z) : Z :=
  let c := class_for_user user_n in
  if c <? 0 then -1 else
  if negb (rd (_counts t) c =? 0) then encode_hit c (rd (_counts t) c - 1) else
  let m := Z.land (_occupied t) (ones_from c) in
  if m =? 0 then -1 else
  let hit := ctz m in
  encode_hit hit (rd (_counts t) hit - 1).

Definition probe (t : cache) (user_n : Z) : Z :=
  let c := class_for_user user_n in
  if (c <? 0) || (rd (_counts t) c =? 0) then -1 else encode_hit c (rd (_counts t) c - 1).

Definition push (t : cache) (p sz : Z) : bool * cache :=
  let c := class_for_payload sz in
  if c <? 0 then (false, t) else
  if __slots_per <=? rd (_counts t) c then (false, t) else
  (true, Cache (wr (_buckets t) (c * __slots_per + rd (_counts t) c) p)
           (wr (_counts t) c (u8 (rd (_counts t) c + 1)))
           (if rd (_counts t) c =? 0 then bit_set (_occupied t) c else _occupied t)).

Definition pop_at (t : cache) (enc : Z) : tchunk * cache :=
  let c := Z.shiftr enc 16 in
  let s := Z.land enc 65535 in
  let out := TChunk (rd (_buckets t) (c * __slots_per + s)) (__class_min_payload + c * __class_step) in
  let n := u8 (rd (_counts t) c - 1) in
  let b := if negb (s =? n) then wr (_buckets t) (c * __slots_per + s) (rd (_buckets t) (c * __slots_per + n))
           else _buckets t in
  (out, Cache b (wr (_counts t) c n) (if n =? 0 then bit_clr (_occupied t) c else _occupied t)).

Fixpoint bucket_contains (t : cache) (p c i : Z) (n : nat) : bool :=
  match n with
  | O => false
  | S n' => if rd (_buckets t) (c * __slots_per + i) =? p then true else bucket_contains t p c (i + 1) n'
  end.

Definition contains (t : cache) (p : Z) : bool :=
  existsb (fun c => bucket_contains t p c 0 (Z.to_nat (rd (_counts t) c))) (seqZ 0 __num_classes).

(** The inner loop of [invalidate_range]; gives the bucket array and [w]. *)
Fixpoint compact (b : zmap) (lo hi c w r : Z) (n : nat) : zmap * Z :=
  match n with
  | O => (b, w)
  | S n' =>
      let p := rd b (c * __slots_per + r) in
      if (p <? lo) || (hi <=? p) then
        compact (if negb (w =? r) then wr b (c * __slots_per + w) p else b) lo hi c (w + 1) (r + 1) n'
      else compact b lo hi c w (r + 1) n'
  end.

Definition invalidate_class (lo hi : Z) (t : cache) (c : Z) : cache :=
  let '(b, w) := compact (_buckets t) lo hi c 0 0 (Z.to_nat (rd (_counts t) c)) in
  Cache b (wr (_counts t) c (u8 w)) (if w =? 0 then bit_clr (_occupied t) c else _occupied t).

Definition invalidate_range (t : cache) (lo hi : Z) : cache :=
  foldl (invalidate_class lo hi) t (seqZ 0 __num_classes).

Fixpoint drain_bucket {X} (t : cache) (fn : Z -> Z -> X -> X) (x : X) (c i : Z) (n : nat) : X :=
  match n with
  | O => x
  | S n' => drain_bucket t fn (fn (rd (_buckets t) (c * __slots_per + i)) (__class_min_payload + c * __class_step) x)
              c (i + 1) n'
  end.

(** One class: the callbacks, then its count is cleared. *)
Definition drain_class {X} (fn : Z -> Z -> X -> X) (xt : X * cache) (c : Z) : X * cache :=
  let '(x, t) := xt in
  (drain_bucket t fn x c 0 (Z.to_nat (rd (_counts t) c)), Cache (_buckets t) (wr (_counts t) c 0) (_occupied t)).

Definition drain {X} (t : cache) (fn : Z -> Z -> X -> X) (x : X) : X * cache :=
  let '(x, t) := foldl (drain_class fn) (x, t) (seqZ 0 __num_classes) in
  (x, Cache (_buckets t) (_counts t) 0).

(** *** The bag of a cache *)

Definition payload (c : Z) : Z := __class_min_payload + c * __class_step.
Definition bucket (t : cache) (c : Z) : list tchunk :=
  upto (fun i => TChunk (rd (_buckets t) (c * __slots_per + i)) (payload c)) (rd (_counts t) c).
Definition bag (t : cache) : list tchunk := concat (bucket t <$> seqZ 0 __num_classes).

Record wf (t : cache) : Prop := {
  wf_counts c : 0 <= c < 16 -> 0 <= rd (_counts t) c <= 8;
  wf_occ : 0 <= _occupied t < 2 ^ 16;
  wf_bit c : 0 <= c < 16 -> Z.testbit (_occupied t) c = negb (rd (_counts t) c =? 0)
}.

Lemma init_wf : wf init /\ bag init = [].
Proof. split; [|reflexivity]. split; [|done|]; intros c Hc; cbn -[rd]; rewrite rd_empty; [lia|apply Z.bits_0]. Qed.

(** A bag changes where a bucket does. *)
Lemma bag_change {A} (f g : Z -> list A) (x : list A) k l :
  NoDup l -> k ∈ l -> f k ≡ₚ x ++ g k -> (forall j, j ∈ l -> j <> k -> f j = g j) ->
  concat (f <$> l) ≡ₚ x ++ concat (g <$> l).
Proof.
  intros Hnd Hk Hf Hj. apply list_elem_of_split in Hk as (l1 & l2 & ->).
  apply NoDup_app in Hnd as (_ & Hn1 & Hn2). apply NoDup_cons in Hn2 as [Hk2 _].
  assert (Hsame : forall l', (forall j, j ∈ l' -> j ∈ l1 ++ k :: l2 /\ j <> k) ->
    f <$> (l' : list Z) = g <$> l').
  { intros l' H. apply list_fmap_ext. intros i y Hy. apply list_elem_of_lookup_2 in Hy.
    destruct (H y Hy). by apply Hj. }
  rewrite !fmap_app, !concat_app. cbn [fmap list_fmap concat].
  rewrite (Hsame l1), (Hsame l2), Hf.
  - rewrite <- !app_assoc. apply Permutation_app_swap_app.
  - intros j Hj2. split; [set_solver|]. intros ->. done.
  - intros j Hj1. split; [set_solver|]. intros ->. apply (Hn1 k Hj1). set_solver.
Qed.

Lemma bag_change16 t t' x c :
  0 <= c < 16 -> bucket t c ≡ₚ x ++ bucket t' c ->
  (forall j, 0 <= j < 16 -> j <> c -> bucket t j = bucket t' j) -> bag t ≡ₚ x ++ bag t'.
Proof.
  intros Hc Hb Hj. apply (bag_change _ _ _ c); [apply NoDup_seqZ|by apply elem_of_seqZ|done|].
  intros j Hj16%elem_of_seqZ Hne. by apply Hj.
Qed.

Lemma class_for_user_spec n :
  0 <= n -> let c := class_for_user n in
  (c = -1 /\ (n = 0 \/ 512 < n)) \/ (0 <= c < 16 /\ 32 * c < n <= 32 * (c + 1)).
Proof.
  intros Hn c. subst c. unfold class_for_user. change __class_max_user with 512.
  destruct (Z.eqb_spec n 0); cbn [orb]; [left; lia|]. destruct (Z.ltb_spec 512 n); [left; lia|right].
  rewrite Z.shiftr_div_pow2 by lia. change (2 ^ 5) with 32.
  pose proof (Z.div_mod (n - 1) 32 ltac:(lia)). pose proof (Z.mod_pos_bound (n - 1) 32 ltac:(lia)). lia.
Qed.

Lemma class_for_payload_spec n :
  0 <= n -> let c := class_for_payload n in
  (c = -1 /\ forall k, 0 <= k < 16 -> n <> payload k) \/ (0 <= c < 16 /\ n = payload c).
Proof.
  intros Hn c. subst c. unfold class_for_payload, payload.
  change __class_max_payload with 544. change __class_min_payload with 64. change __class_step with 32.
  destruct (Z.ltb_spec n 64); cbn [orb]; [left; split; [done|lia]|].
  destruct (Z.ltb_spec 544 n); [left; split; [done|lia]|].
  change 31 with (2 ^ 5 - 1). rewrite land_mask, Z.shiftr_div_pow2 by lia. change (2 ^ 5) with 32.
  pose proof (Z.div_mod (n - 64) 32 ltac:(lia)). pose proof (Z.mod_pos_bound (n - 64) 32 ltac:(lia)).
  destruct (Z.eqb_spec (n mod 32) 0) as [E|E]; cbn [negb].
  - right. assert ((n - 64) mod 32 = 0).
    { replace (n - 64) with (n + (-2) * 32) by lia. by rewrite Z.mod_add by lia. }
    lia.
  - left. split; [done|]. intros k Hk ->. apply E. rewrite Z.mul_comm.
    replace (64 + 32 * k) with ((2 + k) * 32) by lia. apply Z.mod_mul. lia.
Qed.

(** The encoding of a hit keeps class and slot. *)
Lemma decode_hit c s :
  0 <= c < 16 -> 0 <= s < 8 ->
  0 <= encode_hit c s /\ Z.shiftr (encode_hit c s) 16 = c /\ Z.land (encode_hit c s) 65535 = s.
Proof.
  intros Hc Hs. assert (Hb : (c = 0 \/ c = 1 \/ c = 2 \/ c = 3 \/ c = 4 \/ c = 5 \/ c = 6 \/ c = 7 \/ c = 8 \/
    c = 9 \/ c = 10 \/ c = 11 \/ c = 12 \/ c = 13 \/ c = 14 \/ c = 15) /\
    (s = 0 \/ s = 1 \/ s = 2 \/ s = 3 \/ s = 4 \/ s = 5 \/ s = 6 \/ s = 7)) by lia.
  destruct Hb as [Hcs Hss]. unfold encode_hit.
  repeat (destruct Hcs as [->|Hcs]); try rewrite Hcs;
    repeat (destruct Hss as [->|Hss]); try rewrite Hss; done.
Qed.

(** A hit names the last entry of a bucket that is not empty. *)
Definition hit (t : cache) (enc c : Z) : Prop :=
  0 <= c < 16 /\ 1 <= rd (_counts t) c /\ enc = encode_hit c (rd (_counts t) c - 1).

Lemma slab_probe_ge_spec t n :
  wf t -> 0 <= n ->
  (probe_ge t n = -1 /\ (1 <= n <= 512 -> forall x, x ∈ bag t -> tsize x < n + 32)) \/
  (exists c, hit t (probe_ge t n) c /\ n + 32 <= payload c /\ 1 <= n <= 512 /\
     forall x, x ∈ bag t -> n + 32 <= tsize x -> payload c <= tsize x).
Proof.
  intros [Hc Ho Hb] Hn. unfold probe_ge.
  destruct (class_for_user_spec n Hn) as [[-> Hbad]|[Hcl Hnc]].
  { left. split; [done|lia]. }
  set (c := class_for_user n) in *. destruct (Z.ltb_spec c 0); [lia|].
  assert (Hin : forall x, x ∈ bag t -> exists k, 0 <= k < 16 /\ tsize x = payload k /\ rd (_counts t) k <> 0).
  { intros x Hx. apply list_elem_of_In, in_concat in Hx as (l & Hl & Hx).
    apply list_elem_of_In, list_elem_of_fmap in Hl as (k & -> & Hk%elem_of_seqZ). exists k. split; [done|].
    apply list_elem_of_In, elem_of_upto in Hx as (i & Hi & <-). split; [done|lia]. }
  unfold payload in *. change __class_min_payload with 64 in *. change __class_step with 32 in *.
  destruct (Z.eqb_spec (rd (_counts t) c) 0) as [E|E]; cbn [negb].
  - destruct (Z.eqb_spec (Z.land (_occupied t) (ones_from c)) 0) as [Em|Em].
    + left. split; [done|]. intros _ x Hx. destruct (Hin x Hx) as (k & Hk & -> & Hne).
      destruct (Z.le_gt_cases c k) as [Hck|]; [exfalso|lia].
      pose proof (masked_zero (_occupied t) c k ltac:(lia) ltac:(lia) Em ltac:(lia)) as Hz.
      rewrite Hb in Hz by done. by apply negb_false_iff, Z.eqb_eq in Hz.
    + right. destruct (masked_ctz (_occupied t) c) as [Hm Hbit]; [lia|lia|done|].
      set (k := ctz _) in *.
      assert (k < 16). { destruct (Z.lt_ge_cases k 16) as [|Hge]; [done|].
        rewrite (testbit_above _ 16) in Hbit by lia. done. }
      rewrite Hb in Hbit by lia. apply negb_true_iff, Z.eqb_neq in Hbit. pose proof (Hc k ltac:(lia)).
      exists k. split_and!; try lia; [by split_and!; lia|].
      intros x Hx Hsz. destruct (Hin x Hx) as (j & Hj & Ej & Hne). rewrite Ej in *.
      destruct (Z.le_gt_cases k j) as [|Hjk]; [lia|exfalso].
      (* a bit below the lowest set one *)
      assert (Hland : 0 < Z.land (_occupied t) (ones_from c)).
      { assert (0 <= Z.land (_occupied t) (ones_from c)) by (apply Z.land_nonneg; lia). lia. }
      destruct (ctz_spec _ Hland) as (_ & _ & Hlow). fold k in Hlow. specialize (Hlow j ltac:(lia)).
      rewrite Z.land_spec, testbit_ones_from, Hb in Hlow by lia. revert Hlow.
      destruct (Z.eqb_spec (rd (_counts t) j) 0); [done|]. by repeat case_g.
  - right. pose proof (Hc c ltac:(lia)). exists c. split_and!; try lia; [by split_and!; lia|].
    intros x Hx Hsz. destruct (Hin x Hx) as (j & Hj & Ej & Hne). rewrite Ej in *. lia.
Qed.

Lemma slab_push_spec t p sz :
  wf t -> 0 <= sz ->
  (push t p sz = (false, t)) \/
  (exists t', push t p sz = (true, t') /\ wf t' /\ bag t' ≡ₚ TChunk p sz :: bag t).
Proof.
  intros [Hc Ho Hb] Hsz. unfold push. destruct (class_for_payload_spec sz Hsz) as [[-> _]|[Hcl Esz]]; [by left|].
  set (c := class_for_payload sz) in *. destruct (Z.ltb_spec c 0); [lia|].
  change __slots_per with 8. destruct (Z.leb_spec 8 (rd (_counts t) c)) as [|Hlt]; [by left|right].
  pose proof (Hc c Hcl) as Hcc. eexists. split; [reflexivity|]. rewrite u8_small by lia. split.
  - split; cbn.
    + intros k Hk. rewrite rd_wr. case_g. by apply Hc.
    + case_g. apply bit_set_range; lia.
    + intros k Hk. rewrite rd_wr. destruct (Z.eqb_spec c k) as [<-|Hne].
      * destruct (Z.eqb_spec (rd (_counts t) c) 0) as [E|E].
        -- rewrite testbit_bit_set, Z.eqb_refl, orb_true_r by lia. by case_g.
        -- rewrite Hb by done. by repeat case_g.
      * case_g; [|by apply Hb]. rewrite testbit_bit_set, Hb by lia. by repeat case_g.
  - set (t' := Cache _ _ _). symmetry. change (TChunk p sz :: bag t) with ([TChunk p sz] ++ bag t).
    symmetry. apply (bag_change16 t' t [TChunk p sz] c Hcl).
    + unfold bucket. subst t'. cbn [_counts _buckets]. rewrite rd_wr_eq, upto_snoc by lia.
      cbn [app]. rewrite <- Permutation_cons_append. rewrite Esz. change __slots_per with 8. rewrite rd_wr_eq.
      f_equiv. rewrite (upto_ext _ (fun i => TChunk (rd (_buckets t) (c * 8 + i)) (payload c))); [done|].
      intros i Hi. by rewrite rd_wr_ne by lia.
    + intros j Hj Hne. unfold bucket. subst t'. cbn [_counts _buckets]. rewrite rd_wr_ne by lia.
      pose proof (Hc j Hj). apply upto_ext. intros i Hi. change __slots_per with 8. by rewrite rd_wr_ne by lia.
Qed.

Lemma slab_pop_at_spec t enc c :
  wf t -> hit t enc c ->
  let '(x, t') := pop_at t enc in
  tsize x = payload c /\ wf t' /\ bag t ≡ₚ x :: bag t'.
Proof.
  intros [Hc Ho Hb] (Hcl & Hpos & ->). pose proof (Hc c Hcl) as Hcc.
  destruct (decode_hit c (rd (_counts t) c - 1) Hcl ltac:(lia)) as (_ & E1 & E2).
  unfold pop_at. rewrite E1, E2, u8_small, Z.eqb_refl by lia. cbn [negb]. split; [done|]. split.
  - split; cbn.
    + intros k Hk. rewrite rd_wr. case_g. by apply Hc.
    + case_g. apply bit_clr_range; lia.
    + intros k Hk. rewrite rd_wr. destruct (Z.eqb_spec c k) as [<-|Hne].
      * case_g; [rewrite testbit_bit_clr, Z.eqb_refl, andb_false_r by lia; done|].
        rewrite Hb by done. by repeat case_g.
      * case_g; [|by apply Hb]. rewrite testbit_bit_clr, Hb by lia. by repeat case_g.
  - set (t' := Cache _ _ _). set (x := TChunk _ _).
    change (x :: bag t') with ([x] ++ bag t'). apply (bag_change16 t t' [x] c Hcl).
    + unfold bucket. subst t' x. cbn [_counts _buckets]. rewrite rd_wr_eq.
      replace (rd (_counts t) c) with (rd (_counts t) c - 1 + 1) at 1 by lia. rewrite upto_snoc by lia.
      cbn [app]. symmetry. apply Permutation_cons_append.
    + intros j Hj Hne. unfold bucket. subst t'. cbn [_counts _buckets]. by rewrite rd_wr_ne by lia.
Qed.

(** *** Invalidating a range *)

Definition outside (lo hi : Z) (x : tchunk) : bool := (tptr x <? lo) || (hi <=? tptr x).

Local Abbreviation chunk_at b c i := (TChunk (rd b (c * 8 + i)) (payload c)).

Lemma slab_compact_spec lo hi c n : forall b w r,
  0 <= w <= r -> r + Z.of_nat n <= 8 ->
  let '(b', w') := compact b lo hi c w r n in
  w <= w' <= w + Z.of_nat n /\ (forall k, k < c * 8 \/ c * 8 + 8 <= k -> rd b' k = rd b k) /\
  upto (fun i => chunk_at b' c i) w' = upto (fun i => chunk_at b c i) w ++
    filter (fun x => outside lo hi x = true) ((fun i => chunk_at b c i) <$> seqZ r (Z.of_nat n)).
Proof.
  induction n as [|n IH]; intros b w r Hw Hr; cbn [compact].
  - cbn. rewrite app_nil_r. split_and!; [lia|lia|done|done].
  - rewrite Nat2Z.inj_succ, seqZ_cons, Z.pred_succ by lia. cbn [fmap list_fmap].
    rewrite filter_cons, <- Z.add_1_r. change __slots_per with 8.
    change ((rd b (c * 8 + r) <? lo) || (hi <=? rd b (c * 8 + r))) with (outside lo hi (chunk_at b c r)).
    destruct (decide (outside lo hi (chunk_at b c r) = true)) as [E|E].
    + rewrite E. set (b1 := if negb (w =? r) then _ else b).
      assert (Hlt : forall k, k <> c * 8 + w -> rd b1 k = rd b k).
      { intros k Hk. subst b1. destruct (w =? r); cbn [negb]; [done|]. by rewrite rd_wr_ne by lia. }
      assert (Hw1 : rd b1 (c * 8 + w) = rd b (c * 8 + r)).
      { subst b1. destruct (Z.eqb_spec w r) as [->|]; cbn [negb]; [done|]. by rewrite rd_wr_eq. }
      specialize (IH b1 (w + 1) (r + 1) ltac:(lia) ltac:(lia)).
      destruct (compact b1 lo hi c (w + 1) (r + 1) n) as [b' w']. destruct IH as (Hc & Hk & Hb).
      split_and!; try lia.
      { intros k Hkk. rewrite Hk by done. apply Hlt. lia. }
      rewrite Hb, <- (Z.add_1_r r), upto_snoc, <- app_assoc, Hw1 by lia. cbn.
      f_equal; [apply upto_ext; intros; by rewrite Hlt by lia|].
      f_equal. f_equal. apply list_fmap_ext. intros j x Hx. apply lookup_seqZ in Hx. by rewrite Hlt by lia.
    + apply not_true_is_false in E. rewrite E. specialize (IH b w (r + 1) ltac:(lia) ltac:(lia)).
      destruct (compact b lo hi c w (r + 1) n) as [b' w']. rewrite <- Z.add_1_r. destruct IH as (Hc & Hk & Hb).
      split_and!; try lia; done.
Qed.

Lemma invalidate_class_spec lo hi t c :
  wf t -> 0 <= c < 16 ->
  wf (invalidate_class lo hi t c) /\
  bucket (invalidate_class lo hi t c) c = filter (fun x => outside lo hi x = true) (bucket t c) /\
  forall j, 0 <= j < 16 -> j <> c -> bucket (invalidate_class lo hi t c) j = bucket t j.
Proof.
  intros [Hc Ho Hb] Hcl. pose proof (Hc c Hcl) as Hcc. unfold invalidate_class.
  pose proof (slab_compact_spec lo hi c (Z.to_nat (rd (_counts t) c)) (_buckets t) 0 0 ltac:(lia) ltac:(lia)) as Hs.
  destruct (compact _ _ _ _ _ _ _) as [b w]. destruct Hs as (Hw & Hk & Hbk). rewrite Z2Nat.id in * by lia.
  rewrite u8_small by lia. split_and!.
  - split; cbn.
    + intros k Hk'. rewrite rd_wr. case_g. by apply Hc.
    + case_g. apply bit_clr_range; lia.
    + intros k Hk'. rewrite rd_wr. destruct (Z.eqb_spec c k) as [<-|Hne].
      * destruct (Z.eqb_spec w 0) as [E|E]; [rewrite testbit_bit_clr, Z.eqb_refl, andb_false_r by lia; done|].
        rewrite Hb by done. by repeat case_g.
      * case_g; [|by apply Hb]. rewrite testbit_bit_clr, Hb by lia. by repeat case_g.
  - unfold bucket at 1. cbn [_counts _buckets]. rewrite rd_wr_eq. exact Hbk.
  - intros j Hj Hne. unfold bucket. cbn [_counts _buckets]. rewrite rd_wr_ne by lia. pose proof (Hc j Hj).
    apply upto_ext. intros i Hi. change __slots_per with 8. by rewrite Hk by lia.
Qed.

Lemma slab_invalidate_range_spec lo hi t :
  wf t ->
  wf (invalidate_range t lo hi) /\
  bag (invalidate_range t lo hi) = filter (fun x => outside lo hi x = true) (bag t).
Proof.
  intros HW. unfold invalidate_range.
  (* after the classes of [l], their buckets are filtered and the others kept *)
  assert (H : forall l t0, wf t0 -> NoDup l -> (forall c, c ∈ l -> 0 <= c < 16) ->
    let t' := foldl (invalidate_class lo hi) t0 l in
    wf t' /\ forall c, 0 <= c < 16 -> bucket t' c =
      if decide (c ∈ l) then filter (fun x => outside lo hi x = true) (bucket t0 c) else bucket t0 c).
  { induction l as [|k l IH]; intros t0 HW0 Hnd Hin; cbn [foldl].
    - split; [done|]. intros c Hc. rewrite decide_False; [done|set_solver].
    - apply NoDup_cons in Hnd as [Hk Hnd].
      destruct (invalidate_class_spec lo hi t0 k HW0 (Hin k ltac:(set_solver))) as (HW1 & Hbk & Hbo).
      destruct (IH _ HW1 Hnd) as [HW2 Hb2]; [set_solver|]. split; [done|]. intros c Hc. rewrite Hb2 by done.
      destruct (Z.eq_dec c k) as [->|Hne].
      + rewrite decide_False, decide_True by set_solver. done.
      + rewrite Hbo by done. destruct (decide (c ∈ l)); [rewrite decide_True|rewrite decide_False]; set_solver. }
  destruct (H (seqZ 0 __num_classes) t HW (NoDup_seqZ _ _)) as [HW' Hb].
  { intros c Hc%elem_of_seqZ. exact Hc. }
  split; [done|]. unfold bag at 1. set (t' := foldl _ _ _) in *.
  assert (E : bucket t' <$> seqZ 0 __num_classes =
    (fun c => filter (fun x => outside lo hi x = true) (bucket t c)) <$> seqZ 0 __num_classes).
  { apply list_fmap_ext. intros i c Hc. apply list_elem_of_lookup_2 in Hc. rewrite Hb by (by apply elem_of_seqZ in Hc).
    by rewrite decide_True. }
  rewrite E. unfold bag. clear. induction (seqZ 0 __num_classes) as [|c l IH]; [done|].
  cbn [fmap list_fmap concat]. rewrite filter_app. by f_equal.
Qed.

(** *** Draining *)

Lemma drain_bucket_spec {X} t (fn : Z -> Z -> X -> X) c n : forall x i,
  drain_bucket t fn x c i n =
  foldl (fun x k => fn (tptr k) (tsize k) x) x ((fun j => chunk_at (_buckets t) c j) <$> seqZ i (Z.of_nat n)).
Proof.
  induction n as [|n IH]; intros x i; cbn [drain_bucket]; [done|].
  rewrite Nat2Z.inj_succ, seqZ_cons, Z.pred_succ by lia. cbn [fmap list_fmap foldl]. by rewrite IH.
Qed.

(** Every chunk is handed to the callback once, and the cache is empty. *)
Lemma slab_drain_spec {X} t (fn : Z -> Z -> X -> X) x :
  wf t ->
  let '(x', t') := drain t fn x in
  x' = foldl (fun x k => fn (tptr k) (tsize k) x) x (bag t) /\ wf t' /\ bag t' = [].
Proof.
  intros [Hc Ho Hb]. unfold drain.
  assert (H : forall l x0 t0, NoDup l -> (forall c, c ∈ l -> 0 <= c < 16 /\ rd (_counts t0) c = rd (_counts t) c) ->
    _buckets t0 = _buckets t ->
    let '(x', t') := foldl (drain_class fn) (x0, t0) l in
    x' = foldl (fun x k => fn (tptr k) (tsize k) x) x0 (concat (bucket t <$> l)) /\ _buckets t' = _buckets t /\
    forall c, rd (_counts t') c = if decide (c ∈ l) then 0 else rd (_counts t0) c).
  { induction l as [|k l IH]; intros x0 t0 Hnd Hin Eb; cbn [foldl].
    - by split_and!.
    - apply NoDup_cons in Hnd as [Hk Hnd]. cbn [drain_class].
      destruct (Hin k ltac:(set_solver)) as [Hk16 Ek]. pose proof (Hc k Hk16).
      set (t1 := Cache _ _ _). set (x1 := drain_bucket _ _ _ _ _ _).
      specialize (IH x1 t1 Hnd). destruct (foldl _ (x1, t1) l) as [x' t'].
      destruct IH as (-> & Eb' & Hcnt).
      { intros c Hcl. destruct (Hin c ltac:(set_solver)) as [? <-]. split; [done|].
        subst t1. cbn. rewrite rd_wr_ne; [done|]. intros ->. done. }
      { done. }
      split_and!; [|done|].
      + cbn [fmap list_fmap concat]. rewrite foldl_app. f_equal. subst x1.
        rewrite drain_bucket_spec, Ek, Z2Nat.id, Eb by lia. done.
      + intros c. rewrite Hcnt. subst t1. cbn. rewrite rd_wr.
        destruct (Z.eqb_spec k c) as [->|Hne].
        * rewrite decide_False, decide_True by set_solver. done.
        * destruct (decide (c ∈ l)); [rewrite decide_True|rewrite decide_False]; set_solver. }
  specialize (H (seqZ 0 __num_classes) x t (NoDup_seqZ _ _)).
  destruct (foldl (drain_class fn) (x, t) (seqZ 0 __num_classes)) as [x' t'].
  destruct H as (-> & _ & Hcnt); [by intros c Hcc%elem_of_seqZ|done|].
  assert (Hz : forall c, 0 <= c < 16 -> rd (_counts t') c = 0).
  { intros c Hcc. rewrite Hcnt, decide_True; [done|]. by apply elem_of_seqZ. }
  split; [done|]. split.
  - split; cbn; [|done|]; intros c Hcc; rewrite Hz by done; [lia|apply Z.bits_0].
  - unfold bag. assert (E : forall l, (forall c, c ∈ l -> 0 <= c < 16) ->
      concat (bucket (Cache (_buckets t') (_counts t') 0) <$> l) = []).
    { induction l as [|c l IH]; intros Hl; [done|]. cbn [fmap list_fmap concat].
      rewrite IH by set_solver. unfold bucket. cbn [_counts]. by rewrite Hz by set_solver. }
    apply E. intros c Hcc%elem_of_seqZ. exact Hcc.
Qed.
End Slab.

(** ** The cache without slots *)

Module Zero.

Record cache := Cache { _count : Z }.

Definition init : cache := Cache 0.
Definition probe (t : cache) (sz : Z) : Z := -1.
Definition probe_ge (t : cache) (sz : Z) : Z := -1.
Definition push (t : cache) (p sz : Z) : bool * cache := (false, t).
Definition pop_at (t : cache) (idx : Z) : tchunk * cache := (TChunk 0 0, t).
Definition contains (t : cache) (p : Z) : bool := false.
Definition invalidate_range (t : cache) (lo hi : Z) : cache := t.
Definition drain {X} (t : cache) (fn : Z -> Z -> X -> X) (x : X) : X * cache := (x, t).
End Zero.

(** ** Properties *)

(** The linear cache is a bag of chunks. A push adds the chunk unless the cache
    is full; a probe fails only when no entry is large enough, and otherwise
    names an entry that popping takes out once; invalidation removes exactly
    the chunks that start in the range; draining hands every chunk out once. *)
Theorem tier_cache_bag Slots t :
  TierCache.wf Slots t ->
  (forall p sz, (TierCache.push Slots t p sz = (false, t) /\ Z.of_nat (length (TierCache.bag t)) = Slots) \/
     exists t', TierCache.push Slots t p sz = (true, t') /\ TierCache.wf Slots t' /\
       TierCache.bag t' ≡ₚ TChunk p sz :: TierCache.bag t) /\
  (forall sz, (TierCache.probe_ge t sz = -1 /\ forall c, c ∈ TierCache.bag t -> tsize c < sz) \/
     let '(c, t') := TierCache.pop_at t (TierCache.probe_ge t sz) in
     sz <= tsize c /\ TierCache.wf Slots t' /\ TierCache.bag t ≡ₚ c :: TierCache.bag t') /\
  (forall sz, (TierCache.probe t sz = -1 /\ forall c, c ∈ TierCache.bag t -> tsize c <> sz) \/
     let '(c, t') := TierCache.pop_at t (TierCache.probe t sz) in
     tsize c = sz /\ TierCache.wf Slots t' /\ TierCache.bag t ≡ₚ c :: TierCache.bag t') /\
  (forall lo hi, TierCache.bag (TierCache.invalidate_range t lo hi) =
     filter (fun c => TierCache.outside lo hi c = true) (TierCache.bag t)) /\
  (forall p, TierCache.contains t p = true <-> exists c, c ∈ TierCache.bag t /\ tptr c = p) /\
  (forall x : list tchunk, let '(x', t') := TierCache.drain t (fun p sz l => TChunk p sz :: l) x in
     x' ≡ₚ TierCache.bag t ++ x /\ TierCache.bag t' = []).
Proof.
  intros HW. assert (Hn : 0 <= TierCache._count t) by apply HW.
  split_and!.
  - intros p sz. destruct (TierCache.push_spec Slots t p sz HW) as [[E1 E2]|(t' & E & HW' & Eb)].
    + left. split; [done|]. unfold TierCache.bag, upto. rewrite length_fmap, length_seqZ. lia.
    + right. exists t'. split_and!; [done|done|]. rewrite Eb. symmetry. apply Permutation_cons_append.
  - intros sz. destruct (TierCache.probe_ge_spec Slots t sz HW) as [[E H]|[Hi H]]; [left|right].
    + split; [done|]. by apply (TierCache.bag_sizes t (fun x => x < sz)).
    + pose proof (TierCache.pop_at_spec Slots t _ HW Hi) as Hp.
      destruct (TierCache.pop_at t _) as [c t']. destruct Hp as (-> & ? & ?). by split_and!.
  - intros sz. destruct (TierCache.probe_spec Slots t sz HW) as [[E H]|[Hi H]]; [left|right].
    + split; [done|]. by apply (TierCache.bag_sizes t (fun x => x <> sz)).
    + pose proof (TierCache.pop_at_spec Slots t _ HW Hi) as Hp.
      destruct (TierCache.pop_at t _) as [c t']. destruct Hp as (-> & ? & ?). by split_and!.
  - intros lo hi. by apply (TierCache.invalidate_range_spec Slots).
  - intros p. by apply (TierCache.contains_spec Slots).
  - intros x. pose proof (TierCache.drain_spec Slots t (fun p sz l => TChunk p sz :: l) x HW) as Hd.
    destruct (TierCache.drain _ _ _) as [x' t']. destruct Hd as (-> & _ & ->). split; [|done].
    generalize (TierCache.bag t). clear. intros l. revert x. induction l as [|c l IH]; intros x; cbn; [done|].
    rewrite IH. destruct c. symmetry. apply Permutation_middle.
Qed.

Lemma tier_cache_bag_witness :
  TierCache.contains (TierCache.push 4 TierCache.init 4096 96).2 4096 = true.
Proof.
  assert (HW : TierCache.wf 4 (TierCache.push 4 TierCache.init 4096 96).2) by (split; vm_compute; intuition discriminate).
  apply (proj2 (proj1 (proj2 (proj2 (proj2 (proj2 (tier_cache_bag 4 _ HW))))) 4096)).
  exists (TChunk 4096 96). split; [|reflexivity]. vm_compute. by left.
Defined.

(** The classed cache is a bag of chunks. A request for [n] bytes is refused
    only when it is out of range or every cached payload is smaller than
    [n + 32]; otherwise popping takes out once a chunk of the least cached
    payload that is large enough. Pushing, invalidating and draining are as for
    the linear cache. *)
Theorem slab_cache_bag t :
  Slab.wf t ->
  (forall p sz, 0 <= sz -> Slab.push t p sz = (false, t) \/
     exists t', Slab.push t p sz = (true, t') /\ Slab.wf t' /\ Slab.bag t' ≡ₚ TChunk p sz :: Slab.bag t) /\
  (forall n, 0 <= n ->
     (Slab.probe_ge t n = -1 /\ (1 <= n <= 512 -> forall x, x ∈ Slab.bag t -> tsize x < n + 32)) \/
     let '(x, t') := Slab.pop_at t (Slab.probe_ge t n) in
     1 <= n <= 512 /\ n + 32 <= tsize x /\ Slab.wf t' /\ Slab.bag t ≡ₚ x :: Slab.bag t' /\
     forall y, y ∈ Slab.bag t -> n + 32 <= tsize y -> tsize x <= tsize y) /\
  (forall lo hi, Slab.wf (Slab.invalidate_range t lo hi) /\
     Slab.bag (Slab.invalidate_range t lo hi) = filter (fun x => Slab.outside lo hi x = true) (Slab.bag t)) /\
  (forall x : list tchunk, let '(x', t') := Slab.drain t (fun p sz l => TChunk p sz :: l) x in
     x' ≡ₚ Slab.bag t ++ x /\ Slab.wf t' /\ Slab.bag t' = []).
Proof.
  intros HW. split_and!.
  - intros p sz Hsz. by apply Slab.slab_push_spec.
  - intros n Hn. destruct (Slab.slab_probe_ge_spec t n HW Hn) as [|(c & Hc & Hp & Hn' & Hleast)]; [by left|right].
    pose proof (Slab.slab_pop_at_spec t _ c HW Hc) as H. destruct (Slab.pop_at t _) as [x t'].
    destruct H as (-> & HW' & Hb). split_and!; try done; lia.
  - intros lo hi. by apply Slab.slab_invalidate_range_spec.
  - intros x. pose proof (Slab.slab_drain_spec t (fun p sz l => TChunk p sz :: l) x HW) as Hd.
    destruct (Slab.drain _ _ _) as [x' t']. destruct Hd as (-> & HW' & ->). split; [|done].
    generalize (Slab.bag t). clear. intros l. revert x. induction l as [|c l IH]; intros x; cbn; [done|].
    rewrite IH. destruct c. symmetry. apply Permutation_middle.
Qed.

Definition slab_demo : Slab.cache := (Slab.push (Slab.push Slab.init 8192 128).2 4096 96).2.

Lemma slab_cache_bag_witness :
  Slab.wf slab_demo /\ (tsize (Slab.pop_at slab_demo (Slab.probe_ge slab_demo 70)).1 = 128 ->
    70 + 32 <= tsize (Slab.pop_at slab_demo (Slab.probe_ge slab_demo 70)).1).
Proof.
  assert (HW : Slab.wf slab_demo).
  { destruct (Slab.slab_push_spec Slab.init 8192 128 (proj1 Slab.init_wf) ltac:(lia)) as [E|(t1 & E1 & HW1 & _)]; [done|].
    unfold slab_demo. rewrite E1. cbn [snd].
    destruct (Slab.slab_push_spec t1 4096 96 HW1 ltac:(lia)) as [E|(t2 & E2 & HW2 & _)]; [by rewrite E|by rewrite E2]. }
  split; [exact HW|]. intros _.
  destruct (proj1 (proj2 (slab_cache_bag slab_demo HW)) 70 ltac:(lia)) as [[E _]|H].
  - exfalso. revert E. vm_compute. discriminate.
  - destruct (Slab.pop_at slab_demo (Slab.probe_ge slab_demo 70)) as [x t']. exact (proj1 (proj2 H)).
Defined.

(** The chunk a pool cuts exactly for a small request is cached under the class
    that the same request looks up. *)
Theorem slab_class_of_pool_chunk n :
  1 <= n <= 512 ->
  Slab.class_for_payload (adjusted_block_size n - __hdr_offset) = Slab.class_for_user n /\
  0 <= Slab.class_for_user n < 16.
Proof.
  intros Hn.
  assert (H : forallb (fun n => (Slab.class_for_payload (adjusted_block_size n - __hdr_offset) =? Slab.class_for_user n)
    && (0 <=? Slab.class_for_user n) && (Slab.class_for_user n <? 16)) (seqZ 1 512) = true) by (vm_compute; reflexivity).
  rewrite forallb_forall in H. specialize (H n). rewrite !andb_true_iff in H.
  destruct H as [[?%Z.eqb_eq ?%Z.leb_le] ?%Z.ltb_lt]; [|lia].
  apply list_elem_of_In, elem_of_seqZ. lia.
Qed.

Lemma slab_class_of_pool_chunk_witness :
  Slab.class_for_payload (adjusted_block_size 200 - __hdr_offset) = Slab.class_for_user 200.
Proof. exact (proj1 (slab_class_of_pool_chunk 200 ltac:(lia))). Defined.
