(* ===== verification/Mpsc.v ===== *)
(** * The remote-free queue (src/src/mpsc_free.hpp)

    [__mpsc_free_queue<N>]: a bounded ring of cells with sequence numbers, into
    which any number of threads push blocks they free and from which the owner
    pops.  [push_step] and [pop_step] are the atomic accesses of [push] and
    [pop], one per step; [sstep] interleaves any number of producers with the
    consumer, sequentially consistently.  The ghost lists [enq] and [deq] record
    the pushes in the order of their compare-and-swap and the pops.

    Counters are 64 bits wide; the theorems hold for the first 2^62 pushes. *)

From S2P Require Import Prelude.

(** [static_cast<long long>] of a [usize] *)
Definition s64 (z : Z) : Z := if z <? 2 ^ 63 then z else z - 2 ^ 64.

Lemma s64_small z : 0 <= z < 2 ^ 63 -> s64 z = z.
Proof. intros. unfold s64. by destruct (Z.ltb_spec z (2 ^ 63)); [|lia]. Qed.

(** [__cells], as one array per field; a payload is a pair of pointer and size. *)
Record queue := Queue { seqs : zmap; ptrs : zmap; sizes : zmap; tail : Z; head : Z }.

Definition set_seqs (q : queue) v := Queue v (ptrs q) (sizes q) (tail q) (head q).
Definition set_ptrs (q : queue) v := Queue (seqs q) v (sizes q) (tail q) (head q).
Definition set_sizes (q : queue) v := Queue (seqs q) (ptrs q) v (tail q) (head q).
Definition set_tail (q : queue) v := Queue (seqs q) (ptrs q) (sizes q) v (head q).
Definition set_head (q : queue) v := Queue (seqs q) (ptrs q) (sizes q) (tail q) v.

(** Where a producer is: about to load the tail, to load the sequence number of
    the cell of tail [t], to compare and swap, to write the two halves of the
    payload, to publish; or returned. *)
Inductive ppc :=
  | PLoad (p sz : Z)
  | PSeq (p sz t : Z)
  | PCas (p sz t : Z)
  | PPtr (p sz t : Z)
  | PSize (p sz t : Z)
  | PPub (p sz t : Z)
  | PRet (r : bool).

(** Where the consumer is: about to look at the cell of its head [h], to copy
    the payload, to release the cell, to advance the head; or returned. *)
Inductive cpc :=
  | CLook
  | CCopy (h : Z)
  | CRel (h : Z) (out : Z * Z)
  | CHead (h : Z) (out : Z * Z)
  | CRet (r : option (Z * Z)).

Section Mpsc.
Context (N : Z).

Definition cell (k : Z) : Z := Z.land k (N - 1).

(** The constructor *)
Definition init : queue := Queue (foldl (fun m i => wr m i i) ∅ (seqZ 0 N)) ∅ ∅ 0 0.

Definition maybe_nonempty (q : queue) : bool := negb (tail q =? head q).

(** One access of [push]; [fail] is a spurious failure of the weak
    compare-and-swap. *)
Definition push_step (fail : bool) (q : queue) (pc : ppc) : queue * ppc :=
  match pc with
  | PLoad p sz => (q, PSeq p sz (tail q))
  | PSeq p sz t =>
      let diff := s64 (rd (seqs q) (cell t)) - s64 t in
      if diff =? 0 then (q, PCas p sz t)
      else if diff <? 0 then (q, PRet false)
      else (q, PLoad p sz)
  | PCas p sz t =>
      if negb fail && (tail q =? t) then (set_tail q (u64 (t + 1)), PPtr p sz t) else (q, PLoad p sz)
  | PPtr p sz t => (set_ptrs q (wr (ptrs q) (cell t) p), PSize p sz t)
  | PSize p sz t => (set_sizes q (wr (sizes q) (cell t) sz), PPub p sz t)
  | PPub p sz t => (set_seqs q (wr (seqs q) (cell t) (u64 (t + 1))), PRet true)
  | PRet r => (q, PRet r)
  end.

(** One access of [pop]. *)
Definition pop_step (q : queue) (pc : cpc) : queue * cpc :=
  match pc with
  | CLook =>
      let h := head q in
      let diff := s64 (rd (seqs q) (cell h)) - s64 (u64 (h + 1)) in
      if negb (diff =? 0) then (q, CRet None) else (q, CCopy h)
  | CCopy h => (q, CRel h (rd (ptrs q) (cell h), rd (sizes q) (cell h)))
  | CRel h out => (set_seqs q (wr (seqs q) (cell h) (u64 (h + N))), CHead h out)
  | CHead h out => (set_head q (u64 (h + 1)), CRet (Some out))
  | CRet r => (q, CRet r)
  end.

(** The calls run without interference *)
Fixpoint push_run (fuel : nat) (q : queue) (pc : ppc) : option (bool * queue) :=
  match fuel with
  | O => None
  | S n => match pc with
           | PRet r => Some (r, q)
           | _ => let '(q, pc) := push_step false q pc in push_run n q pc
           end
  end.

(** [push] takes at most six accesses when nobody interferes. *)
Definition push (q : queue) (p sz : Z) : option (bool * queue) := push_run 7 q (PLoad p sz).

Definition pop (q : queue) : option (Z * Z) * queue :=
  let '(q, pc) := pop_step q CLook in
  match pc with
  | CCopy _ =>
      let '(q, pc) := pop_step q pc in
      let '(q, pc) := pop_step q pc in
      let '(q, pc) := pop_step q pc in
      (match pc with CRet r => r | _ => None end, q)
  | _ => (None, q)
  end.

(** [while ( pop(p) ) { fn(...); ++n; }], at most [fuel] rounds *)
Fixpoint drain {X} (fuel : nat) (fn : Z -> Z -> X -> X) (x : X) (n : Z) (q : queue) : X * Z * queue :=
  match fuel with
  | O => (x, n, q)
  | S f =>
      match pop q with
      | (Some (p, sz), q) => drain f fn (fn p sz x) (u32 (n + 1)) q
      | (None, q) => (x, n, q)
      end
  end.

(** ** Interleavings *)

Record sys := Sys {
  sq : queue;
  prods : gmap nat ppc;
  cons : cpc;
  enq : list (Z * Z);
  deq : list (Z * Z)
}.

(** What a step adds to the ghost lists *)
Definition pushed (pc pc' : ppc) : list (Z * Z) :=
  match pc, pc' with PCas p sz _, PPtr _ _ _ => [(p, sz)] | _, _ => [] end.
Definition popped (pc : cpc) : list (Z * Z) :=
  match pc with CHead _ out => [out] | _ => [] end.

Inductive sstep (s : sys) : sys -> Prop :=
  | ss_start i p sz :
      (prods s !! i = None \/ exists r, prods s !! i = Some (PRet r)) ->
      sstep s (Sys (sq s) (<[i := PLoad p sz]> (prods s)) (cons s) (enq s) (deq s))
  | ss_push i pc fail q pc' :
      prods s !! i = Some pc -> push_step fail (sq s) pc = (q, pc') ->
      sstep s (Sys q (<[i := pc']> (prods s)) (cons s) (enq s ++ pushed pc pc') (deq s))
  | ss_pop q pc' :
      pop_step (sq s) (cons s) = (q, pc') ->
      sstep s (Sys q (prods s) pc' (enq s) (deq s ++ popped (cons s)))
  | ss_call r : cons s = CRet r -> sstep s (Sys (sq s) (prods s) CLook (enq s) (deq s)).

Definition start : sys := Sys init ∅ CLook [] [].
Definition reachable (s : sys) : Prop := rtc sstep start s.

(** ** The invariant *)

(** The position a producer has reserved and not yet published *)
Definition owns (pc : ppc) : option (Z * (Z * Z)) :=
  match pc with
  | PPtr p sz t | PSize p sz t | PPub p sz t => Some (t, (p, sz))
  | _ => None
  end.

(** The first position whose cell the consumer has not released *)
Definition low (s : sys) : Z :=
  match cons s with CHead h _ => h + 1 | _ => head (sq s) end.

Local Abbreviation seq_at s k := (rd (seqs (sq s)) (cell k)).

Definition owner_ok (s : sys) (pc : ppc) : Prop :=
  match pc with
  | PLoad _ _ | PRet _ => True
  | PSeq _ _ t => 0 <= t <= tail (sq s)
  | PCas _ _ t => 0 <= t <= tail (sq s) /\ (t = tail (sq s) -> t < low s + N)
  | PPtr _ _ t => low s <= t < tail (sq s) /\ seq_at s t = t
  | PSize p _ t => low s <= t < tail (sq s) /\ seq_at s t = t /\ rd (ptrs (sq s)) (cell t) = p
  | PPub p sz t => low s <= t < tail (sq s) /\ seq_at s t = t /\ rd (ptrs (sq s)) (cell t) = p /\
      rd (sizes (sq s)) (cell t) = sz
  end.

Definition consumer_ok (s : sys) : Prop :=
  match cons s with
  | CLook | CRet _ => True
  | CCopy h => h = head (sq s) /\ h < tail (sq s) /\ seq_at s h = h + 1
  | CRel h out => h = head (sq s) /\ h < tail (sq s) /\ seq_at s h = h + 1 /\ enq s !! Z.to_nat h = Some out
  | CHead h out => h = head (sq s) /\ h < tail (sq s) /\ enq s !! Z.to_nat h = Some out
  end.

Record inv (s : sys) : Prop := {
  v_tail : tail (sq s) = Z.of_nat (length (enq s));
  v_head : head (sq s) = Z.of_nat (length (deq s));
  v_deq : deq s = take (length (deq s)) (enq s);
  v_gap : head (sq s) <= low s <= tail (sq s) /\ tail (sq s) <= low s + N;
  v_used k : low s <= k < tail (sq s) ->
    (seq_at s k = k /\ exists i pc x, prods s !! i = Some pc /\ owns pc = Some (k, x)) \/
    (seq_at s k = k + 1 /\
     enq s !! Z.to_nat k = Some (rd (ptrs (sq s)) (cell k), rd (sizes (sq s)) (cell k)));
  v_free k : tail (sq s) <= k < low s + N -> seq_at s k = k;
  v_prod i pc : prods s !! i = Some pc -> owner_ok s pc;
  v_enq i pc t x : prods s !! i = Some pc -> owns pc = Some (t, x) -> enq s !! Z.to_nat t = Some x;
  v_uniq i pc j pc' t x x' : prods s !! i = Some pc -> prods s !! j = Some pc' ->
    owns pc = Some (t, x) -> owns pc' = Some (t, x') -> i = j;
  v_cons : consumer_ok s
}.
End Mpsc.

(** ** Power-of-two capacities of at least two cells *)

Section Proofs.
Context (N n : Z) (HN : N = 2 ^ n) (Hn : 1 <= n <= 60).

Local Abbreviation cl := (cell N).
Local Abbreviation inv := (inv N).

Lemma N_range : 2 <= N <= 2 ^ 60.
Proof using HN Hn.
  rewrite HN. split; [apply (Z.pow_le_mono_r 2 1 n)|apply Z.pow_le_mono_r]; lia.
Qed.

Lemma cell_mod k : cl k = k mod N.
Proof using HN Hn. unfold cell. rewrite HN. apply land_mask. lia. Qed.

Lemma mpsc_cell_inj k k' : cl k = cl k' -> k < k' + N -> k' < k + N -> k = k'.
Proof using HN Hn.
  rewrite !cell_mod. intros E H1 H2. pose proof N_range.
  pose proof (Z.div_mod k N ltac:(lia)). pose proof (Z.div_mod k' N ltac:(lia)).
  assert (Hd : N * (k / N - k' / N) = k - k') by lia.
  destruct (Z.lt_trichotomy (k / N - k' / N) 0) as [Hs|[Hs|Hs]]; [nia| |nia]. lia.
Qed.

Lemma cell_add k : cl (k + N) = cl k.
Proof using HN Hn.
  rewrite !cell_mod. pose proof N_range. replace (k + N) with (k + 1 * N) by lia. apply Z.mod_add. lia.
Qed.

Lemma init_seq k : 0 <= k < N -> rd (seqs (init N)) (cl k) = k.
Proof using HN Hn.
  intros Hk. rewrite cell_mod, Z.mod_small by lia. unfold init. cbn [seqs].
  assert (H : forall m : nat, Z.of_nat m <= N -> forall k, 0 <= k < Z.of_nat m ->
    rd (foldl (fun z i => wr z i i) ∅ (seqZ 0 (Z.of_nat m))) k = k).
  { induction m as [|m IH]; intros Hm j Hj; [lia|]. rewrite seqZ_S, foldl_app. cbn.
    rewrite rd_wr. case_g. apply IH; lia. }
  specialize (H (Z.to_nat N) ltac:(lia) k ltac:(lia)). by rewrite Z2Nat.id in H by lia.
Qed.

Lemma inv_start : inv (start N).
Proof using HN Hn.
  pose proof N_range. split; cbn -[init]; try done; cbn; try lia.
  intros k Hk. apply init_seq. lia.
Qed.

(** ** Preservation *)

(** The room counted by the ghost list *)
Definition few (s : sys) : Prop := Z.of_nat (length (enq s)) <= 2 ^ 62.

Lemma seq_small s : inv s -> few s -> 0 <= head (sq s) <= tail (sq s) /\ tail (sq s) <= 2 ^ 62 /\ 0 <= low s.
Proof using HN Hn.
  intros HI Hf. pose proof (v_tail _ _ HI). pose proof (v_head _ _ HI). pose proof (v_gap _ _ HI).
  unfold few in Hf. lia.
Qed.

(** The sequence number a position can have *)
Lemma seq_cases s k :
  inv s -> low s <= k < low s + N -> rd (seqs (sq s)) (cl k) = k \/
    (rd (seqs (sq s)) (cl k) = k + 1 /\ k < tail (sq s)).
Proof using HN Hn.
  intros HI Hk. destruct (Z.lt_ge_cases k (tail (sq s))) as [Hlt|Hge].
  - destruct (v_used _ _ HI k ltac:(lia)) as [[E _]|[E _]]; auto.
  - left. apply (v_free _ _ HI). lia.
Qed.

(** Any cell is the cell of a position within reach. *)
Lemma window s t : 0 <= t -> low s <= t + N * ((low s - t + N - 1) / N) < low s + N.
Proof using HN Hn.
  intros Ht. pose proof N_range. pose proof (Z.div_mod (low s - t + N - 1) N ltac:(lia)).
  pose proof (Z.mod_pos_bound (low s - t + N - 1) N ltac:(lia)). lia.
Qed.

Lemma cell_add_mul k j : cl (k + N * j) = cl k.
Proof using HN Hn. rewrite !cell_mod. pose proof N_range. rewrite Z.mul_comm. apply Z.mod_add. lia. Qed.

(** What a producer learns from the sequence number of the cell of a tail it
    loaded: equal means that the position is free if the tail is still the
    same, less means that the ring is full. *)
Lemma seq_reading s t :
  inv s -> few s -> 0 <= t <= tail (sq s) ->
  let d := s64 (rd (seqs (sq s)) (cl t)) - s64 t in
  (d = 0 -> t = tail (sq s) -> t < low s + N) /\
  (d < 0 -> tail (sq s) = low s + N).
Proof using HN Hn.
  intros HI Hf Ht d. pose proof N_range. destruct (seq_small s HI Hf) as (Hh & Hb & Hl).
  pose proof (window s t ltac:(lia)) as Hw. set (j := (low s - t + N - 1) / N) in *.
  set (k := t + N * j) in *. assert (Ec : cl t = cl k) by (subst k; by rewrite cell_add_mul).
  pose proof (v_gap _ _ HI) as Hg.
  assert (Hd : d = rd (seqs (sq s)) (cl t) - t).
  { subst d. rewrite !s64_small; [done|lia|]. rewrite Ec. destruct (seq_cases s k HI Hw); lia. }
  assert (Hkt : k = t \/ k <= t - N \/ t + N <= k).
  { subst k. destruct (Z.lt_trichotomy j 0) as [Hj|[Hj|Hj]]; [right; left; nia|left; rewrite Hj; lia|right; right; nia]. }
  rewrite Hd, Ec. destruct (seq_cases s k HI Hw) as [E|[E Hk]]; rewrite E; lia.
Qed.

(** A producer moves between states that reserve nothing. *)
Lemma inv_local s i pc' :
  inv s -> (forall pc, prods s !! i = Some pc -> owns pc = None) -> owns pc' = None -> owner_ok N s pc' ->
  inv (Sys (sq s) (<[i := pc']> (prods s)) (cons s) (enq s) (deq s)).
Proof using HN Hn.
  intros [Ht Hh Hd Hg Hu Hf Hp He Hq Hc] Hi Hown Hok.
  assert (Hlk : forall j pc, <[i := pc']> (prods s) !! j = Some pc ->
    (j = i /\ pc = pc') \/ prods s !! j = Some pc).
  { intros j pc Hj. destruct (decide (i = j)) as [<-|Hne].
    - rewrite lookup_insert_eq in Hj. left. split; congruence.
    - rewrite lookup_insert_ne in Hj by done. by right. }
  split; try done.
  - intros k Hk. destruct (Hu k Hk) as [(E & j & pc & x & Hj & Hx)|]; [left|by right].
    split; [done|]. exists j, pc, x. split; [|done]. cbn. rewrite lookup_insert_ne; [done|].
    intros <-. by rewrite (Hi _ Hj) in Hx.
  - intros j pc Hj. destruct (Hlk j pc Hj) as [[-> ->]|Hj']; [done|by apply (Hp j pc)].
  - intros j pc t x Hj Hx. destruct (Hlk j pc Hj) as [[-> ->]|Hj']; [congruence|by apply (He j pc t x)].
  - intros j pc j' pc2 t x x' Hj Hj' Hx Hx'.
    destruct (Hlk j pc Hj) as [[-> ->]|H1]; [congruence|].
    destruct (Hlk j' pc2 Hj') as [[-> ->]|H2]; [congruence|]. by apply (Hq j pc j' pc2 t x x').
Qed.

(** A compare-and-swap that succeeds reserves the position at the tail. *)
Lemma inv_reserve s i p sz :
  inv s -> few s -> prods s !! i = Some (PCas p sz (tail (sq s))) ->
  inv (Sys (set_tail (sq s) (tail (sq s) + 1)) (<[i := PPtr p sz (tail (sq s))]> (prods s)) (cons s)
    (enq s ++ [(p, sz)]) (deq s)).
Proof using HN Hn.
  intros HI Hfew Hi. destruct (seq_small s HI Hfew) as (Hh0 & Hb & Hl).
  destruct HI as [Ht Hh Hd Hg Hu Hf Hp He Hq Hc].
  destruct (Hp i _ Hi) as [_ Hroom]. specialize (Hroom eq_refl). set (t := tail (sq s)) in *.
  assert (Hpre : forall k x, enq s !! Z.to_nat k = Some x -> (enq s ++ [(p, sz)]) !! Z.to_nat k = Some x).
  { intros k x Hk. by apply lookup_app_l_Some. }
  assert (Hlk : forall j pc, <[i := PPtr p sz t]> (prods s) !! j = Some pc ->
    (j = i /\ pc = PPtr p sz t) \/ (j <> i /\ prods s !! j = Some pc)).
  { intros j pc Hj. destruct (decide (i = j)) as [<-|Hne].
    - rewrite lookup_insert_eq in Hj. left. split; congruence.
    - rewrite lookup_insert_ne in Hj by done. by right. }
  assert (Hother : forall j pc t' x, prods s !! j = Some pc -> owns pc = Some (t', x) -> t' < t).
  { intros j pc t' x Hj Hx. specialize (Hp j pc Hj). destruct pc; try done; injection Hx as <- <-; cbn in Hp; lia. }
  split; cbn [sq prods cons enq deq tail head set_tail]; try done.
  - rewrite length_app. cbn. lia.
  - rewrite take_app_le; [done|]. lia.
  - unfold low in *. cbn [sq cons head set_tail] in *. lia.
  - intros k Hk. destruct (Z.eq_dec k t) as [->|Hne].
    + left. split; [apply Hf; lia|]. exists i, (PPtr p sz t), (p, sz). split; [|done]. cbn. by rewrite lookup_insert_eq.
    + destruct (Hu k) as [(E & j & pc & x & Hj & Hx)|[E Hx]]; [unfold low in *; cbn [sq cons head set_tail] in *; lia| |].
      * left. split; [done|]. exists j, pc, x. split; [|done]. cbn. rewrite lookup_insert_ne; [done|].
        intros <-. rewrite Hi in Hj. by injection Hj as <-.
      * right. split; [done|]. by apply Hpre.
  - intros k Hk. apply Hf. unfold low in *. cbn [sq cons head set_tail] in *. lia.
  - intros j pc Hj. destruct (Hlk j pc Hj) as [[-> ->]|[Hne Hj']].
    + cbn. split; [unfold low in *; cbn in *; lia|]. apply Hf. lia.
    + specialize (Hp j pc Hj'). destruct pc; cbn in *; unfold low in *; cbn in *; try done; try (split_and!; (done || lia)).
  - intros j pc t' x Hj Hx. destruct (Hlk j pc Hj) as [[-> ->]|[Hne Hj']].
    + injection Hx as <- <-. rewrite lookup_app_r by lia. by replace (Z.to_nat t - length (enq s))%nat with 0%nat by lia.
    + apply Hpre. by apply (He j pc t' x).
  - intros j pc j' pc2 t' x x' Hj Hj' Hx Hx'.
    destruct (Hlk j pc Hj) as [[-> ->]|[Hne Hj1]], (Hlk j' pc2 Hj') as [[-> ->]|[Hne' Hj2]]; [done| | |].
    + injection Hx as <- <-. specialize (Hother _ _ _ _ Hj2 Hx'). lia.
    + injection Hx' as <- <-. specialize (Hother _ _ _ _ Hj1 Hx). lia.
    + by apply (Hq j pc j' pc2 t' x x').
  - unfold consumer_ok in *. cbn [cons sq head tail seqs enq set_tail].
    destruct (cons s); try done; split_and!; try lia; intuition auto.
Qed.

(** A producer writes the cell it has reserved; publishing ends the
    reservation. *)
Lemma inv_cell s i pc pc' q' t x :
  inv s -> prods s !! i = Some pc -> owns pc = Some (t, x) ->
  tail q' = tail (sq s) -> head q' = head (sq s) ->
  (forall c, c <> cl t -> rd (seqs q') c = rd (seqs (sq s)) c /\ rd (ptrs q') c = rd (ptrs (sq s)) c /\
    rd (sizes q') c = rd (sizes (sq s)) c) ->
  (owns pc' = Some (t, x) /\ rd (seqs q') (cl t) = t) \/
  (owns pc' = None /\ rd (seqs q') (cl t) = t + 1 /\ (rd (ptrs q') (cl t), rd (sizes q') (cl t)) = x) ->
  let s' := Sys q' (<[i := pc']> (prods s)) (cons s) (enq s) (deq s) in
  owner_ok N s' pc' -> inv s'.
Proof using HN Hn.
  intros [Ht Hh Hd Hg Hu Hf Hp He Hq Hc] Hi Hown Etl Ehd Hcells Hcase s' Hok.
  assert (Hpos : low s <= t < tail (sq s) /\ rd (seqs (sq s)) (cl t) = t).
  { specialize (Hp i pc Hi). destruct pc; try done; injection Hown as <- <-; cbn in Hp; intuition. }
  destruct Hpos as [Hpos Hseq]. assert (El : low s' = low s) by (unfold low; cbn; by rewrite Ehd).
  assert (Hne : forall k, low s <= k < low s + N -> k <> t -> cl k <> cl t).
  { intros k Hk Hkt E. apply Hkt. apply (mpsc_cell_inj k t E); lia. }
  assert (Hlk : forall j pcj, <[i := pc']> (prods s) !! j = Some pcj ->
    (j = i /\ pcj = pc') \/ (j <> i /\ prods s !! j = Some pcj)).
  { intros j pcj Hj. destruct (decide (i = j)) as [<-|Hne'].
    - rewrite lookup_insert_eq in Hj. left. split; congruence.
    - rewrite lookup_insert_ne in Hj by done. by right. }
  split; try (subst s'; cbn [sq prods cons enq deq]; rewrite ?Etl, ?Ehd; done).
  - rewrite El. subst s'. cbn [sq]. by rewrite Ehd, Etl.
  - rewrite El. subst s'. cbn [sq prods enq]. rewrite Etl. intros k Hk.
    destruct (Z.eq_dec k t) as [->|Hkt].
    + destruct Hcase as [[H1 H2]|(H1 & H2 & H3)]; [left|right]; (split; [done|]).
      * exists i, pc', x. by rewrite lookup_insert_eq.
      * rewrite H3. by apply (He i pc).
    + destruct (Hcells (cl k)) as (E1 & E2 & E3); [apply Hne; lia|]. rewrite E1, E2, E3.
      destruct (Hu k Hk) as [(E & j & pcj & y & Hj & Hy)|]; [left|by right]. split; [done|].
      exists j, pcj, y. split; [|done]. rewrite lookup_insert_ne; [done|]. intros <-.
      rewrite Hi in Hj. injection Hj as <-. congruence.
  - rewrite El. subst s'. cbn [sq]. rewrite Etl. intros k Hk.
    destruct (Hcells (cl k)) as (-> & _ & _); [apply Hne; lia|]. by apply Hf.
  - intros j pcj Hj. destruct (Hlk j pcj Hj) as [[-> ->]|[Hji Hj']]; [done|].
    specialize (Hp j pcj Hj').
    assert (Hot : forall t' y, owns pcj = Some (t', y) -> low s <= t' < tail (sq s) -> cl t' <> cl t).
    { intros t' y Hy Hr. apply Hne; [lia|]. intros ->. apply Hji. by apply (Hq j pcj i pc t y x). }
    destruct pcj; cbn [owner_ok] in *; rewrite ?El; subst s'; cbn [sq]; rewrite ?Etl; try done;
      destruct Hp as [Hr Hp]; (destruct (Hcells (cl t0)) as (E1 & E2 & E3); [by eapply Hot|by rewrite ?E1, ?E2, ?E3]).
  - intros j pcj t' y Hj Hy. destruct (Hlk j pcj Hj) as [[-> ->]|[Hji Hj']]; [|by apply (He j pcj)].
    destruct Hcase as [[H1 _]|(H1 & _)]; rewrite H1 in Hy; [|done]. injection Hy as <- <-. by apply (He i pc).
  - intros j pcj j' pc2 t' y y' Hj Hj' Hy Hy'.
    assert (Hold : forall k pck z, <[i := pc']> (prods s) !! k = Some pck -> owns pck = Some (t', z) ->
      exists pc0 z0, prods s !! k = Some pc0 /\ owns pc0 = Some (t', z0)).
    { intros k pck z Hk Hz. destruct (Hlk k pck Hk) as [[-> ->]|[Hki Hk']]; [|by exists pck, z].
      destruct Hcase as [[H1 _]|(H1 & _)]; rewrite H1 in Hz; [|done]. injection Hz as <- <-. by exists pc, x. }
    destruct (Hold _ _ _ Hj Hy) as (pc0 & z0 & H1 & H2). destruct (Hold _ _ _ Hj' Hy') as (pc1 & z1 & H3 & H4).
    by apply (Hq j pc0 j' pc1 t' z0 z1).
  - unfold consumer_ok in *. subst s'. cbn [cons sq enq]. rewrite Ehd, Etl.
    assert (Hlow : forall h, h = head (sq s) -> h < tail (sq s) -> low s = head (sq s) ->
      rd (seqs (sq s)) (cl h) = h + 1 -> rd (seqs q') (cl h) = h + 1).
    { intros h Eh Hlt El' E. destruct (Hcells (cl h)) as (-> & _ & _); [|done]. apply Hne; [lia|].
      intros ->. lia. }
    unfold low in Hlow. destruct (cons s); try done; split_and!; try apply Hlow; intuition.
Qed.

(** ** The consumer *)

(** The consumer moves without writing and without moving the low end. *)
Lemma inv_consumer s c' :
  inv s -> low (Sys (sq s) (prods s) c' (enq s) (deq s)) = low s ->
  consumer_ok N (Sys (sq s) (prods s) c' (enq s) (deq s)) ->
  inv (Sys (sq s) (prods s) c' (enq s) (deq s)).
Proof using HN Hn.
  intros [Ht Hh Hd Hg Hu Hf Hp He Hq Hc] El Hok. split; rewrite ?El; try done.
  intros i pc Hi. specialize (Hp i pc Hi). destruct pc; cbn [owner_ok] in *; rewrite ?El; done.
Qed.

(** Releasing the cell of the head *)
Lemma mpsc_inv_release s h out :
  inv s -> few s -> cons s = CRel h out ->
  inv (Sys (set_seqs (sq s) (wr (seqs (sq s)) (cl h) (h + N))) (prods s) (CHead h out) (enq s) (deq s)).
Proof using HN Hn.
  intros HI Hfew Ec. destruct (seq_small s HI Hfew) as (Hh0 & Hb & Hl0). pose proof N_range.
  destruct HI as [Ht Hh Hd Hg Hu Hf Hp He Hq Hc].
  unfold consumer_ok in Hc. rewrite Ec in Hc. destruct Hc as (Eh & Hht & Hs & Hout).
  assert (El : low s = h) by (unfold low; by rewrite Ec). rewrite El in *.
  set (s' := Sys _ _ _ _ _). assert (El' : low s' = h + 1) by done.
  assert (Hne : forall k, h < k < h + N -> cl h <> cl k).
  { intros k Hk E. assert (h = k) by (apply (mpsc_cell_inj h k E); lia). lia. }
  split; rewrite ?El'; cbn [s' sq prods cons enq deq tail head ptrs sizes seqs set_seqs]; try done.
  - lia.
  - intros k Hk. rewrite rd_wr_ne by (apply Hne; lia). apply Hu. lia.
  - intros k Hk. destruct (Z.eq_dec k (h + N)) as [->|Hkn].
    + rewrite cell_add, rd_wr_eq. done.
    + rewrite rd_wr_ne by (apply Hne; lia). apply Hf. lia.
  - intros i pc Hi. specialize (Hp i pc Hi).
    assert (Hot : forall t, h <= t < tail (sq s) -> rd (seqs (sq s)) (cl t) = t -> h < t < h + N).
    { intros t Hr E. assert (t <> h) by (intros ->; lia). lia. }
    destruct pc; cbn [owner_ok] in *; rewrite ?El, ?El' in *; cbn [s' sq tail head ptrs sizes seqs set_seqs];
      try done; try (split; [lia|lia]); destruct Hp as [Hr Hp];
      (pose proof (Hot t Hr ltac:(tauto)); rewrite rd_wr_ne by (apply Hne; lia); split; [lia|done]).
Qed.

(** Advancing the head *)
Lemma inv_advance s h out :
  inv s -> few s -> cons s = CHead h out ->
  inv (Sys (set_head (sq s) (h + 1)) (prods s) (CRet (Some out)) (enq s) (deq s ++ [out])).
Proof using HN Hn.
  intros HI Hfew Ec. destruct (seq_small s HI Hfew) as (Hh0 & Hb & Hl0).
  destruct HI as [Ht Hh Hd Hg Hu Hf Hp He Hq Hc].
  unfold consumer_ok in Hc. rewrite Ec in Hc. destruct Hc as (Eh & Hht & Hout).
  assert (El : low s = h + 1) by (unfold low; by rewrite Ec). rewrite El in *.
  set (s' := Sys _ _ _ _ _). assert (El' : low s' = h + 1) by done.
  split; rewrite ?El'; cbn [s' sq prods cons enq deq tail head ptrs sizes seqs set_head]; try done.
  - rewrite length_app. cbn. lia.
  - rewrite length_app. cbn [length]. rewrite Nat.add_1_r.
    rewrite (take_S_r _ _ out); [by f_equal|]. replace (length (deq s)) with (Z.to_nat h) by lia. done.
  - lia.
  - intros i pc Hi. specialize (Hp i pc Hi).
    by destruct pc; cbn [owner_ok] in *; rewrite ?El, ?El' in *; cbn [s' sq tail head ptrs sizes seqs set_head].
Qed.

(** ** Every step *)

Lemma push_step_inv s i pc fail q pc' :
  inv s -> few s -> prods s !! i = Some pc -> push_step N fail (sq s) pc = (q, pc') ->
  inv (Sys q (<[i := pc']> (prods s)) (cons s) (enq s ++ pushed pc pc') (deq s)).
Proof using HN Hn.
  intros HI Hf Hi E. destruct (seq_small s HI Hf) as (Hh & Hb & Hl).
  pose proof (v_prod _ _ HI i pc Hi) as Hok.
  assert (Hlocal : forall p0, owns pc = None -> owns p0 = None -> owner_ok N s p0 ->
    inv (Sys (sq s) (<[i := p0]> (prods s)) (cons s) (enq s ++ []) (deq s))).
  { intros p0 H1 H2 H3. rewrite app_nil_r. apply inv_local; try done. intros pc0 H0. congruence. }
  destruct pc as [p sz|p sz t|p sz t|p sz t|p sz t|p sz t|r]; cbn [push_step] in E.
  - injection E as <- <-. apply Hlocal; try done. cbn. lia.
  - cbn in Hok. destruct (seq_reading s t HI Hf Hok) as [H1 _]. revert E H1.
    set (d := s64 _ - s64 _). destruct (Z.eqb_spec d 0); [|destruct (Z.ltb_spec d 0)]; intros [= <- <-] H1;
      apply Hlocal; try done. cbn. split; [lia|]. by apply H1.
  - destruct (negb fail && (tail (sq s) =? t)) eqn:Eb; injection E as <- <-; [|by apply Hlocal].
    apply andb_true_iff in Eb as [_ <-%Z.eqb_eq]. rewrite u64_small by lia. by apply inv_reserve.
  - injection E as <- <-. cbn [pushed]. rewrite app_nil_r. destruct Hok as [Hr Hs].
    apply (inv_cell s i (PPtr p sz t) _ _ t (p, sz)); try done.
    + intros c Hc. cbn. by rewrite !rd_wr_ne.
    + by left.
    + cbn. by rewrite rd_wr_eq.
  - injection E as <- <-. cbn [pushed]. rewrite app_nil_r. destruct Hok as (Hr & Hs & Hp).
    apply (inv_cell s i (PSize p sz t) _ _ t (p, sz)); try done.
    + intros c Hc. cbn. by rewrite !rd_wr_ne.
    + by left.
    + cbn. by rewrite rd_wr_eq.
  - injection E as <- <-. cbn [pushed]. rewrite app_nil_r. destruct Hok as (Hr & Hs & Hp & Hz).
    rewrite u64_small by lia. apply (inv_cell s i (PPub p sz t) _ _ t (p, sz)); try done.
    + intros c Hc. cbn. by rewrite !rd_wr_ne.
    + right. cbn. rewrite rd_wr_eq. split_and!; try done. by f_equal.
  - injection E as <- <-. by apply Hlocal.
Qed.

Lemma pop_step_inv s q pc' :
  inv s -> few s -> pop_step N (sq s) (cons s) = (q, pc') ->
  inv (Sys q (prods s) pc' (enq s) (deq s ++ popped (cons s))).
Proof using HN Hn.
  intros HI Hf E. destruct (seq_small s HI Hf) as (Hh & Hb & Hl). pose proof N_range as HNr.
  pose proof (v_cons _ _ HI) as Hc. unfold consumer_ok in Hc.
  destruct (cons s) as [|h|h out|h out|r] eqn:Ec; cbn [pop_step popped] in *; rewrite ?app_nil_r.
  - assert (El : low s = head (sq s)) by (unfold low; by rewrite Ec). revert E.
    set (h := head (sq s)) in *. destruct (seq_cases s h HI ltac:(lia)) as [Es|[Es Hlt]]; rewrite Es.
    + rewrite (s64_small h), u64_small, s64_small by lia. destruct (Z.eqb_spec (h - (h + 1)) 0); [lia|].
      intros [= <- <-]. by apply inv_consumer.
    + rewrite u64_small, s64_small, Z.sub_diag by lia. intros [= <- <-]. apply inv_consumer; [done|done|].
      cbn. done.
  - injection E as <- <-. destruct Hc as (-> & Hlt & Hs). apply inv_consumer; [done|unfold low; by rewrite Ec|].
    cbn. split_and!; try done. destruct (v_used _ _ HI (head (sq s))) as [[E _]|[_ E]]; [|lia|done].
    unfold low. rewrite Ec. lia.
  - destruct Hc as (Eh & Hlt & _). injection E as <- <-. rewrite u64_small by lia. by apply mpsc_inv_release.
  - destruct Hc as (Eh & Hlt & _). injection E as <- <-. rewrite u64_small by lia. by apply inv_advance.
  - injection E as <- <-. apply inv_consumer; [done|unfold low; by rewrite Ec|done].
Qed.

Lemma sstep_few s s' : sstep N s s' -> few s' -> few s.
Proof. unfold few. intros [] Hf; cbn in Hf; try done. rewrite length_app in Hf. lia. Qed.

Lemma sstep_inv s s' : sstep N s s' -> inv s -> few s -> inv s'.
Proof using HN Hn.
  intros Hs HI Hf. destruct Hs as [i p sz Hi|i pc fail q pc' Hi E|q pc' E|r Ec].
  - apply inv_local; try done. intros pc Hpc. destruct Hi as [Hi|[r Hi]]; [congruence|].
    rewrite Hi in Hpc. by injection Hpc as <-.
  - by eapply push_step_inv.
  - by apply pop_step_inv.
  - apply inv_consumer; [done|unfold low; by rewrite Ec|done].
Qed.

Lemma reachable_inv s : reachable N s -> few s -> inv s.
Proof using HN Hn.
  intros Hr. apply (rtc_ind_r (R := sstep N) (fun s => few s -> inv s) (start N)); [| |exact Hr]; clear s Hr.
  - intros _. by apply inv_start.
  - intros s s' _ Hs IH Hf. apply (sstep_inv s); try done; [apply IH|]; by eapply sstep_few.
Qed.

(** ** Properties *)

(** No producer is between its compare-and-swap and its publication. *)
Definition settled (s : sys) : Prop := forall i pc, prods s !! i = Some pc -> owns pc = None.

Lemma empty_at_look s :
  inv s -> few s -> cons s = CLook -> settled s -> (pop_step N (sq s) CLook).2 = CRet None ->
  deq s = enq s.
Proof using HN Hn.
  intros HI Hf Ec Hset Hp. destruct (seq_small s HI Hf) as (Hh & Hb & _).
  assert (El : low s = head (sq s)) by (unfold low; by rewrite Ec).
  rewrite (v_deq _ _ HI), take_ge; [done|].
  destruct (Z.le_gt_cases (tail (sq s)) (head (sq s))) as [|Hlt].
  { pose proof (v_tail _ _ HI). pose proof (v_head _ _ HI). lia. }
  exfalso. destruct (v_used _ _ HI (head (sq s)) ltac:(lia)) as [(_ & i & pc & x & Hi & Hx)|[E _]].
  { by rewrite (Hset i pc Hi) in Hx. }
  cbn [pop_step] in Hp. rewrite E, u64_small, s64_small, Z.sub_diag in Hp by lia. done.
Qed.

(** C34. Blocks leave the queue in the order of the pushes, each once and none made
    up; at most [N] are in the ring; and a pop that finds nothing while no push
    is under way has seen every push. *)
Theorem mpsc_fifo s :
  reachable N s -> few s ->
  deq s = take (length (deq s)) (enq s) /\
  Z.of_nat (length (enq s)) - Z.of_nat (length (deq s)) <= N + 1 /\
  (cons s = CLook -> settled s -> (pop_step N (sq s) CLook).2 = CRet None -> deq s = enq s).
Proof using HN Hn.
  intros Hr Hf. pose proof (reachable_inv s Hr Hf) as HI. split; [apply HI|]. split.
  - pose proof (v_tail _ _ HI). pose proof (v_head _ _ HI). pose proof (v_gap _ _ HI).
    assert (low s <= head (sq s) + 1); [|lia]. unfold low. pose proof (v_cons _ _ HI) as Hc.
    unfold consumer_ok in Hc. destruct (cons s); lia.
  - by apply empty_at_look.
Qed.

(** A push is refused only when, at the moment it looks, the ring holds [N]
    blocks that have not been popped. *)
Theorem mpsc_full s i p sz t fail :
  reachable N s -> few s -> prods s !! i = Some (PSeq p sz t) ->
  (push_step N fail (sq s) (PSeq p sz t)).2 = PRet false ->
  N <= Z.of_nat (length (enq s)) - Z.of_nat (length (deq s)).
Proof using HN Hn.
  intros Hr Hf Hi. pose proof (reachable_inv s Hr Hf) as HI. pose proof (v_prod _ _ HI i _ Hi) as Hok. cbn in Hok.
  destruct (seq_reading s t HI Hf Hok) as [_ H2]. revert H2. cbn [push_step].
  set (d := s64 _ - s64 _). destruct (Z.eqb_spec d 0); [done|]. destruct (Z.ltb_spec d 0); [|done].
  intros H2 _. specialize (H2 ltac:(lia)).
  pose proof (v_tail _ _ HI). pose proof (v_head _ _ HI). pose proof (v_gap _ _ HI). lia.
Qed.

(** *** Draining *)

Lemma pop_run s x :
  inv s -> few s -> cons s = CLook -> settled s -> enq s !! length (deq s) = Some x ->
  exists q', pop N (sq s) = (Some x, q') /\ inv (Sys q' (prods s) CLook (enq s) (deq s ++ [x])).
Proof using HN Hn.
  intros HI Hf Ec Hset Hx. destruct (seq_small s HI Hf) as (Hh & Hb & _).
  pose proof (v_tail _ _ HI) as Ht. pose proof (v_head _ _ HI) as Hhd.
  pose proof (lookup_lt_Some _ _ _ Hx) as Hlt. set (h := head (sq s)) in *.
  assert (E1 : pop_step N (sq s) CLook = (sq s, CCopy h)).
  { destruct (v_used _ _ HI h) as [(_ & i & pc & y & Hi & Hy)|[E _]].
    - unfold low. rewrite Ec. fold h. lia.
    - by rewrite (Hset i pc Hi) in Hy.
    - cbn [pop_step]. fold h. by rewrite E, u64_small, s64_small, Z.sub_diag by lia. }
  pose proof (pop_step_inv s _ _ HI Hf ltac:(by rewrite Ec)) as HI1. rewrite Ec in HI1. cbn [popped] in HI1.
  rewrite app_nil_r in HI1. set (s1 := Sys (sq s) (prods s) (CCopy h) (enq s) (deq s)) in *.
  pose proof (pop_step_inv s1 _ _ HI1 Hf eq_refl) as HI2. cbn [s1 cons sq popped deq enq prods] in HI2.
  rewrite app_nil_r in HI2. set (y := (rd (ptrs (sq s)) (cl h), rd (sizes (sq s)) (cl h))) in *.
  set (s2 := Sys (sq s) (prods s) (CRel h y) (enq s) (deq s)) in *.
  assert (Ey : y = x).
  { destruct (v_cons _ _ HI2) as (_ & _ & _ & Hy). cbn in Hy. replace (Z.to_nat h) with (length (deq s)) in Hy by lia.
    congruence. }
  pose proof (pop_step_inv s2 _ _ HI2 Hf eq_refl) as HI3. cbn [s2 cons sq popped deq enq prods] in HI3.
  rewrite app_nil_r in HI3. set (q3 := set_seqs _ _) in *. set (s3 := Sys q3 _ _ _ _) in *.
  pose proof (pop_step_inv s3 _ _ HI3 Hf eq_refl) as HI4. cbn [s3 cons sq popped deq enq prods] in HI4.
  exists (set_head q3 (u64 (h + 1))). split.
  - unfold pop. rewrite E1. cbn. by rewrite <- Ey.
  - rewrite <- Ey. by apply (inv_consumer _ CLook) in HI4.
Qed.

Lemma pop_empty s :
  inv s -> few s -> cons s = CLook -> (length (enq s) <= length (deq s))%nat -> pop N (sq s) = (None, sq s).
Proof using HN Hn.
  intros HI Hf Ec Hle. destruct (seq_small s HI Hf) as (Hh & Hb & _). pose proof N_range.
  pose proof (v_tail _ _ HI). pose proof (v_head _ _ HI). unfold pop. cbn [pop_step].
  rewrite (v_free _ _ HI (head (sq s))) by (unfold low; rewrite Ec; lia).
  rewrite (s64_small (head (sq s))), u64_small, s64_small by lia.
  by destruct (Z.eqb_spec (head (sq s) - (head (sq s) + 1)) 0); [lia|].
Qed.

(** Nothing is left in the queue. *)
Lemma drained {X} (fn : Z -> Z -> X -> X) fuel s x k :
  inv s -> few s -> cons s = CLook -> (length (enq s) <= length (deq s))%nat ->
  drain N fuel fn x k (sq s) = (x, k, sq s) /\ inv (Sys (sq s) (prods s) CLook (enq s) (enq s)).
Proof using HN Hn.
  intros HI Hf Ec Hle. split; [destruct fuel; cbn [drain]; by rewrite ?(pop_empty s)|].
  pose proof (v_deq _ _ HI) as Hd. rewrite take_ge in Hd by done. rewrite <- Hd at 2. rewrite <- Ec. by destruct s.
Qed.

(** Draining a settled queue runs [fn] over what is in it and leaves it empty. *)
Lemma drain_all {X} (fn : Z -> Z -> X -> X) fuel : forall s x k,
  inv s -> few s -> cons s = CLook -> settled s ->
  (length (enq s) <= fuel + length (deq s))%nat -> 0 <= k ->
  k + (Z.of_nat (length (enq s)) - Z.of_nat (length (deq s))) < 2 ^ 32 ->
  let rest := drop (length (deq s)) (enq s) in
  exists q', drain N fuel fn x k (sq s) = (foldl (fun x b => fn b.1 b.2 x) x rest, k + Z.of_nat (length rest), q') /\
    inv (Sys q' (prods s) CLook (enq s) (enq s)).
Proof using HN Hn.
  induction fuel as [|f IH]; intros s x k HI Hf Ec Hset Hfuel Hk Hkn; cbn zeta.
  { destruct (drained fn 0 s x k HI Hf Ec Hfuel) as [-> HI']. exists (sq s). rewrite drop_ge, Z.add_0_r by done. by split. }
  destruct (enq s !! length (deq s)) as [[p sz]|] eqn:Hx.
  - destruct (pop_run s (p, sz) HI Hf Ec Hset Hx) as (q' & E & HI'). cbn [drain]. rewrite E.
    pose proof (lookup_lt_Some _ _ _ Hx) as Hlt. rewrite u32_small by lia.
    specialize (IH _ (fn p sz x) (k + 1) HI' Hf eq_refl Hset). cbn [sq enq deq prods] in IH.
    rewrite length_app in IH. cbn [length] in IH. rewrite Nat.add_1_r in IH.
    specialize (IH ltac:(lia) ltac:(lia) ltac:(lia)) as (q2 & -> & HI2). exists q2.
    rewrite (drop_S _ _ _ Hx). cbn [foldl length fst snd]. split; [do 2 f_equal; lia|done].
  - apply lookup_ge_None in Hx. destruct (drained fn (S f) s x k HI Hf Ec Hx) as [-> HI']. exists (sq s).
    rewrite drop_ge, Z.add_0_r by done. by split.
Qed.

(** C35. Draining a settled queue hands over every block still in it, in order, and
    stops: one round more than there are blocks is enough. *)
Theorem mpsc_drain {X} (fn : Z -> Z -> X -> X) s fuel x k :
  reachable N s -> few s -> cons s = CLook -> settled s ->
  (length (enq s) < fuel + length (deq s))%nat -> 0 <= k -> k + N < 2 ^ 32 ->
  let rest := drop (length (deq s)) (enq s) in
  let '(x', k', q') := drain N fuel fn x k (sq s) in
  x' = foldl (fun x b => fn b.1 b.2 x) x rest /\ k' = k + Z.of_nat (length rest) /\ (pop N q').1 = None.
Proof using HN Hn.
  intros Hr Hf Ec Hset Hfuel Hk Hkn. pose proof (reachable_inv s Hr Hf) as HI.
  assert (Hgap : Z.of_nat (length (enq s)) - Z.of_nat (length (deq s)) <= N).
  { pose proof (v_tail _ _ HI). pose proof (v_head _ _ HI). pose proof (v_gap _ _ HI) as Hg. unfold low in Hg. rewrite Ec in Hg. lia. }
  destruct (drain_all fn fuel s x k HI Hf Ec Hset ltac:(lia) Hk ltac:(lia)) as (q' & -> & HI').
  split_and!; [done|done|]. pose proof (pop_empty _ HI' Hf eq_refl ltac:(done)) as E. cbn [sq] in E. by rewrite E.
Qed.
End Proofs.

(** ** Schedules

    A schedule picks the step to take; running one reaches a state. *)

Inductive act := AStart (i : nat) (p sz : Z) | APush (i : nat) | APop | ACall.

Section Schedules.
Context (N : Z).

Definition act_step (s : sys) (a : act) : option sys :=
  match a with
  | AStart i p sz =>
      match prods s !! i with
      | None | Some (PRet _) => Some (Sys (sq s) (<[i := PLoad p sz]> (prods s)) (cons s) (enq s) (deq s))
      | _ => None
      end
  | APush i =>
      match prods s !! i with
      | Some pc =>
          let '(q, pc') := push_step N false (sq s) pc in
          Some (Sys q (<[i := pc']> (prods s)) (cons s) (enq s ++ pushed pc pc') (deq s))
      | None => None
      end
  | APop =>
      let '(q, pc') := pop_step N (sq s) (cons s) in
      Some (Sys q (prods s) pc' (enq s) (deq s ++ popped (cons s)))
  | ACall =>
      match cons s with
      | CRet _ => Some (Sys (sq s) (prods s) CLook (enq s) (deq s))
      | _ => None
      end
  end.

Fixpoint run (s : sys) (l : list act) : option sys :=
  match l with
  | [] => Some s
  | a :: l => match act_step s a with Some s' => run s' l | None => None end
  end.

Lemma act_step_sound s a s' : act_step s a = Some s' -> sstep N s s'.
Proof.
  destruct a as [i p sz|i| |]; cbn [act_step].
  - destruct (prods s !! i) as [[]|] eqn:E; try done; intros [= <-]; apply ss_start; [right|left]; eauto.
  - destruct (prods s !! i) as [pc|] eqn:E; [|done].
    destruct (push_step N false (sq s) pc) as [q pc'] eqn:Ep. intros [= <-]. by eapply ss_push.
  - destruct (pop_step N (sq s) (cons s)) as [q pc'] eqn:Ep. intros [= <-]. by apply ss_pop.
  - destruct (cons s) eqn:E; try done. intros [= <-]. by eapply ss_call.
Qed.

Lemma run_reachable l : forall s s', rtc (sstep N) (start N) s -> run s l = Some s' -> reachable N s'.
Proof.
  induction l as [|a l IH]; intros s s' Hs E; cbn [run] in E; [by injection E as <-|].
  destruct (act_step s a) as [s1|] eqn:Ea; [|done]. apply (IH s1); [|done].
  eapply rtc_r; [exact Hs|]. by eapply act_step_sound.
Qed.
End Schedules.

(** A whole push by one thread *)
Definition push_acts (i : nat) (p sz : Z) : list act := AStart i p sz :: repeat (APush i) 6.

(** Thread 7 has pushed a block into a ring of four; and a ring of two in which
    two pushes of two threads were interleaved and a third has loaded the
    tail. *)
Definition mdemo : sys := default (start 4) (run 4 (start 4) (push_acts 7 4096 64)).
Definition mfull_acts : list act :=
  [AStart 1 4096 64; AStart 2 8192 96; APush 1; APush 2; APush 2; APush 2; APush 1] ++ repeat (APush 2) 3 ++
  repeat (APush 1) 7 ++ [AStart 1 12288 32; APush 1].
Definition mfull : sys := default (start 2) (run 2 (start 2) mfull_acts).

Lemma mdemo_reachable : reachable 4 mdemo.
Proof. apply (run_reachable 4 (push_acts 7 4096 64) (start 4)); [apply rtc_refl|vm_compute; reflexivity]. Qed.

Lemma mfull_reachable : reachable 2 mfull.
Proof. apply (run_reachable 2 mfull_acts (start 2)); [apply rtc_refl|vm_compute; reflexivity]. Qed.

Lemma mdemo_settled : settled mdemo.
Proof.
  intros i pc Hi. assert (E : prods mdemo = {[7%nat := PRet true]}) by (vm_compute; reflexivity).
  rewrite E in Hi. by apply lookup_singleton_Some in Hi as [_ <-].
Qed.

Lemma mpsc_fifo_witness :
  reachable 4 mdemo /\ Z.of_nat (length (enq mdemo)) - Z.of_nat (length (deq mdemo)) <= 4 + 1.
Proof.
  split; [exact mdemo_reachable|].
  exact (proj1 (proj2 (mpsc_fifo 4 2 eq_refl ltac:(lia) mdemo mdemo_reachable ltac:(by vm_compute)))).
Defined.

Lemma mpsc_full_witness : (push_step 2 false (sq mfull) (PSeq 12288 32 2)).2 = PRet false /\
  2 <= Z.of_nat (length (enq mfull)) - Z.of_nat (length (deq mfull)).
Proof.
  assert (E : (push_step 2 false (sq mfull) (PSeq 12288 32 2)).2 = PRet false) by (vm_compute; reflexivity).
  split; [exact E|].
  exact (mpsc_full 2 1 eq_refl ltac:(lia) mfull 1%nat 12288 32 2 false mfull_reachable ltac:(by vm_compute)
    ltac:(vm_compute; reflexivity) E).
Defined.

Lemma mpsc_drain_witness :
  (drain 4 2 (fun p sz l => (p, sz) :: l) [] 0 (sq mdemo)).1.1 = [(4096, 64)].
Proof.
  pose proof (mpsc_drain 4 2 eq_refl ltac:(lia) (fun p sz l => (p, sz) :: l) mdemo 2 [] 0 mdemo_reachable
    ltac:(by vm_compute) ltac:(vm_compute; reflexivity) mdemo_settled ltac:(vm_compute; lia) ltac:(lia) ltac:(lia)) as H.
  cbn zeta in H. destruct (drain 4 2 _ [] 0 (sq mdemo)) as [[x' k'] q']. rewrite (proj1 H). vm_compute. reflexivity.
Defined.

(** A ring of one cell, which the template accepts, loses blocks: a second push
    is accepted while the first block is still there, and then nothing can be
    popped. *)
Example capacity_one_loses :
  match push 1 (init 1) 4096 64 with
  | Some (true, q) =>
      match push 1 q 8192 64 with
      | Some (true, q) => (pop 1 q).1 = None
      | _ => False
      end
  | _ => False
  end.
Proof. vm_compute. reflexivity. Qed.
