(* ===== verification/VaReserve.v ===== *)
(** * The address-space reservation (src/src/va_reserve.hpp)

    One large reservation is carved into runs of 2 MiB granules: a bump cursor
    for new runs and an array of released runs searched best-fit.  The lock and
    the compare-and-swap make each operation atomic, so each is one function on
    the state.  What the kernel answers is an argument: the base of the
    reservation, and whether a commit succeeds. *)

From S2P Require Import Prelude.
From S2P Require Import Tcache.

Definition __sheet_align_log2 : Z := 21.
Definition __sheet_align : Z := Z.shiftl 1 __sheet_align_log2.
Definition __sheet_align_mask : Z := __sheet_align - 1.
Definition __va_reservation_size : Z := Z.shiftl 256 30.
Definition __va_free_granules : Z := Z.shiftr __va_reservation_size __sheet_align_log2.
Definition __va_free_cap : Z := __va_free_granules.

(** [__va_base] (0 for null), [__va_offset], [__va_free_runs] field by field,
    [__va_free_count] *)
Record va := Va {
  va_base : Z;
  va_offset : Z;
  run_off : zmap;
  run_granules : zmap;
  va_free_count : Z
}.

Definition va_init : va := Va 0 0 ∅ ∅ 0.

(** [os] is what mmap answers: the base, or [None] when it fails. *)
Definition __va_reserve_once (os : option Z) (s : va) : Z * va :=
  if negb (va_base s =? 0) then (va_base s, s) else
  match os with
  | Some b => if b =? 0 then (0, s)
              else (b, Va b (va_offset s) (run_off s) (run_granules s) (va_free_count s))
  | None => (0, s)
  end.

(** [ok] is whether the mapping succeeds. *)
Definition __va_commit (ok : bool) (slot : Z) : Z := if ok then slot else 0.

Definition __va_bump_fail : Z := usize_max.

Definition __va_bump (s : va) (rounded : Z) : Z * va :=
  let off := va_offset s in
  if __va_reservation_size <? u64 (off + rounded) then (__va_bump_fail, s)
  else (off, Va (va_base s) (u64 (off + rounded)) (run_off s) (run_granules s) (va_free_count s)).

(** The search of [__va_reuse], from the last run down *)
Fixpoint reuse_scan (s : va) (want best : Z) (n : nat) : Z :=
  match n with
  | O => best
  | S i =>
      let g := rd (run_granules s) (Z.of_nat i) in
      if g <? want then reuse_scan s want best i else
      let best := if (best =? usize_max) || (g <? rd (run_granules s) best) then Z.of_nat i else best in
      if g =? want then best else reuse_scan s want best i
  end.

Definition __va_reuse (s : va) (want : Z) : Z * va :=
  let best := reuse_scan s want usize_max (Z.to_nat (va_free_count s)) in
  if best =? usize_max then (__va_bump_fail, s) else
  let off := rd (run_off s) best in
  let g := rd (run_granules s) best in
  if want <? g then
    (off, Va (va_base s) (va_offset s)
            (wr (run_off s) best (u64 (off + Z.shiftl want __sheet_align_log2)))
            (wr (run_granules s) best (u32 (g - want))) (va_free_count s))
  else
    let c := u64 (va_free_count s - 1) in
    (off, Va (va_base s) (va_offset s) (wr (run_off s) best (rd (run_off s) c))
            (wr (run_granules s) best (rd (run_granules s) c)) c).

Definition round_up (bytes : Z) : Z := Z.ldiff (u64 (bytes + __sheet_align_mask)) __sheet_align_mask.
Definition granules_of (bytes : Z) : Z := u32 (Z.shiftr (round_up bytes) __sheet_align_log2).

(** [ok1] and [ok2] are the answers to the commit of a reused and of a new run. *)
Definition __va_carve (os : option Z) (ok1 ok2 : bool) (s : va) (bytes : Z) : Z * va :=
  let '(base, s) := if va_base s =? 0 then __va_reserve_once os s else (va_base s, s) in
  if base =? 0 then (0, s) else
  let rounded := round_up bytes in
  let want := granules_of bytes in
  let '(reuse_off, s) := __va_reuse s want in
  let got := if negb (reuse_off =? __va_bump_fail) then __va_commit ok1 (base + reuse_off) else 0 in
  if negb (got =? 0) then (got, s) else
  let '(off, s) := __va_bump s rounded in
  if off =? __va_bump_fail then (0, s) else
  (__va_commit ok2 (base + off), s).

Definition __va_carve_reserved (os : option Z) (s : va) (bytes : Z) : Z * va :=
  let '(base, s) := if va_base s =? 0 then __va_reserve_once os s else (va_base s, s) in
  if base =? 0 then (0, s) else
  let rounded := round_up bytes in
  let want := granules_of bytes in
  let '(reuse_off, s) := __va_reuse s want in
  if negb (reuse_off =? __va_bump_fail) then (base + reuse_off, s) else
  let '(off, s) := __va_bump s rounded in
  if off =? __va_bump_fail then (0, s) else (base + off, s).

Definition __va_release (s : va) (slot bytes : Z) : va :=
  if slot =? 0 then s else
  let base := va_base s in
  if base =? 0 then s else
  if (slot <? base) || (base + __va_reservation_size <=? slot) then s else
  let off := slot - base in
  let granules := granules_of bytes in
  if va_free_count s <? __va_free_cap then
    Va base (va_offset s) (wr (run_off s) (va_free_count s) off)
      (wr (run_granules s) (va_free_count s) granules) (u64 (va_free_count s + 1))
  else s.

Definition __va_contains (s : va) (p : Z) : bool :=
  if va_base s =? 0 then false else (va_base s <=? p) && (p <? va_base s + __va_reservation_size).

(** ** Runs as sets of granules *)

(** A run is its byte offset and its length in granules. *)
Definition run_at (s : va) (i : Z) : Z * Z := (rd (run_off s) i, rd (run_granules s) i).
Definition runs (s : va) : list (Z * Z) := upto (run_at s) (va_free_count s).

Definition granules (r : Z * Z) : list Z := seqZ (r.1 / 2097152) r.2.
Definition cover (l : list (Z * Z)) : list Z := concat (granules <$> l).

Lemma cover_perm l l' : l ≡ₚ l' -> cover l ≡ₚ cover l'.
Proof. intros H. unfold cover. rewrite H. done. Qed.

Lemma cover_app l l' : cover (l ++ l') = cover l ++ cover l'.
Proof. unfold cover. by rewrite fmap_app, concat_app. Qed.

(** No granule is in two live or released runs, and all are below the cursor. *)
Record inv (s : va) (live : list (Z * Z)) : Prop := {
  v_nodup : NoDup (cover (live ++ runs s));
  v_below g : g ∈ cover (live ++ runs s) -> 0 <= g < va_offset s / 2097152;
  v_run r : r ∈ live ++ runs s -> (2097152 | r.1) /\ 1 <= r.2 < 2 ^ 32;
  v_off : (2097152 | va_offset s) /\ 0 <= va_offset s <= __va_reservation_size;
  v_count : 0 <= va_free_count s
}.

Lemma inv_init : inv va_init [].
Proof.
  split; cbn; try (by intros ? ?%elem_of_nil); [apply NoDup_nil_2|split; [apply Z.divide_0_r|done]|done].
Qed.

(** ** Rounding *)

Lemma round_up_any bytes :
  0 < bytes < 2 ^ 52 ->
  (2097152 | round_up bytes) /\ bytes <= round_up bytes < bytes + 2097152 /\
  round_up bytes = 2097152 * granules_of bytes /\ 1 <= granules_of bytes < 2 ^ 32.
Proof.
  intros Hb. assert (E : round_up bytes = 2 ^ 21 * ((bytes + (2 ^ 21 - 1)) / 2 ^ 21)).
  { unfold round_up. change __sheet_align_mask with (2 ^ 21 - 1). rewrite u64_small by lia. by apply ldiff_mask. }
  unfold granules_of. rewrite E. change __sheet_align_log2 with 21. rewrite Z.shiftr_div_pow2 by lia.
  rewrite (Z.mul_comm (2 ^ 21)), Z.div_mul by lia. set (v := bytes + (2 ^ 21 - 1)) in *.
  pose proof (Z.div_mod v (2 ^ 21) ltac:(lia)). pose proof (Z.mod_pos_bound v (2 ^ 21) ltac:(lia)).
  rewrite u32_small by lia. split; [apply Z.divide_factor_r|]. lia.
Qed.

Lemma round_up_spec bytes :
  0 < bytes <= __va_reservation_size ->
  (2097152 | round_up bytes) /\ bytes <= round_up bytes < bytes + 2097152 /\
  round_up bytes = 2097152 * granules_of bytes /\ 1 <= granules_of bytes <= __va_free_granules.
Proof.
  intros Hb. change __va_reservation_size with (2 ^ 38) in Hb. change __va_free_granules with (2 ^ 17).
  destruct (round_up_any bytes) as ([q Eq] & Hr & Er & Hg); [lia|]. split_and!; [by exists q|lia..].
Qed.

(** ** The search *)

Lemma reuse_scan_spec s want n : forall best,
  (best = usize_max \/ (Z.of_nat n <= best < usize_max /\ want <= rd (run_granules s) best)) ->
  Z.of_nat n < usize_max ->
  let b := reuse_scan s want best n in
  (b = usize_max /\ best = usize_max /\ forall i, 0 <= i < Z.of_nat n -> rd (run_granules s) i < want) \/
  (b <> usize_max /\ want <= rd (run_granules s) b /\ (0 <= b < Z.of_nat n \/ b = best) /\
   (best <> usize_max -> rd (run_granules s) b <= rd (run_granules s) best) /\
   forall i, 0 <= i < Z.of_nat n -> want <= rd (run_granules s) i -> rd (run_granules s) b <= rd (run_granules s) i).
Proof.
  induction n as [|n IH]; intros best Hbest Hn; cbn [reuse_scan].
  - destruct Hbest as [->|[Hb Hw]]; [left; split_and!; [done|done|lia]|right; split_and!; try lia].
  - set (g := rd (run_granules s) (Z.of_nat n)).
    destruct (Z.ltb_spec g want) as [Hlt|Hge].
    + destruct (IH best) as [(E1 & E2 & H)|(Hne & Hw & Hin & Hb & H)]; [|lia|left|right].
      * destruct Hbest as [->|[Hb Hw]]; [by left|right]. split; [lia|done].
      * split_and!; try done. intros i Hi. destruct (Z.eq_dec i (Z.of_nat n)) as [->|]; [done|]. apply H. lia.
      * split_and!; try done; [destruct Hin; [left; lia|by right]|]. intros i Hi Hwi.
        destruct (Z.eq_dec i (Z.of_nat n)) as [->|]; [unfold g in *; lia|]. apply H; [lia|done].
    + set (best' := if (best =? usize_max) || (g <? rd (run_granules s) best) then Z.of_nat n else best).
      assert (Hbest' : best' <> usize_max /\ want <= rd (run_granules s) best' /\ Z.of_nat n <= best' < usize_max /\
        (best' = Z.of_nat n \/ best' = best) /\ rd (run_granules s) best' <= g /\
        (best <> usize_max -> rd (run_granules s) best' <= rd (run_granules s) best)).
      { subst best'. destruct (Z.eqb_spec best usize_max) as [E|E]; cbn [orb].
        - fold g. split_and!; lia.
        - destruct Hbest as [|[Hb Hw]]; [done|]. destruct (Z.ltb_spec g (rd (run_granules s) best)); fold g;
            split_and!; lia. }
      destruct Hbest' as (Hne' & Hw' & Hr' & Hcase & Hg' & Hbb).
      assert (Hlow : want = g \/ want < g) by lia.
      destruct (Z.eqb_spec g want) as [Eg|Eg].
      * right. split_and!; try done; [|].
        -- destruct Hcase as [E|E]; rewrite E; [left; lia|by right].
        -- intros i Hi Hwi. lia.
      * destruct (IH best') as [(E1 & E2 & H)|(Hne & Hw & Hin & Hb & H)]; [right; split; [lia|done]|lia|done|].
        right. specialize (Hb Hne'). split_and!; try done.
        -- destruct Hin as [|Ein]; [left; lia|]. rewrite Ein. destruct Hcase as [E|E]; rewrite E; [left; lia|by right].
        -- intros Hbn. specialize (Hbb Hbn). lia.
        -- intros i Hi Hwi. destruct (Z.eq_dec i (Z.of_nat n)) as [->|]; [fold g; lia|]. apply H; [lia|done].
Qed.

(** ** Counting *)

Lemma cover_length l : (forall r, r ∈ l -> 1 <= r.2) -> (length l <= length (cover l))%nat.
Proof.
  induction l as [|r l IH]; intros H; [done|]. unfold cover in *. cbn [fmap list_fmap concat].
  rewrite length_app. unfold granules at 1. rewrite length_seqZ. pose proof (H r ltac:(set_solver)).
  cbn [length]. specialize (IH ltac:(set_solver)). lia.
Qed.

Lemma count_bound s live : inv s live -> Z.of_nat (length (live ++ runs s)) <= va_offset s / 2097152 <= 2 ^ 17.
Proof.
  intros [Hnd Hb Hr [Hd Ho] Hc]. change __va_reservation_size with (2 ^ 38) in Ho.
  assert (Hq : 0 <= va_offset s / 2097152 <= 2 ^ 17).
  { split; [apply Z.div_pos; lia|]. apply Z.div_le_upper_bound; lia. }
  split; [|lia]. pose proof (cover_length (live ++ runs s)) as Hl.
  assert (Hsub : cover (live ++ runs s) ⊆+ seqZ 0 (va_offset s / 2097152)).
  { apply NoDup_submseteq; [done|]. intros g Hg. apply elem_of_seqZ. specialize (Hb g Hg). lia. }
  apply submseteq_length in Hsub. rewrite length_seqZ in Hsub.
  specialize (Hl ltac:(intros r Hrr; by apply Hr)). lia.
Qed.

Lemma runs_length s live : inv s live -> Z.of_nat (length (runs s)) = va_free_count s.
Proof. intros [_ _ _ _ Hc]. unfold runs, upto. rewrite length_fmap, length_seqZ. lia. Qed.

Lemma free_count_bound s live :
  inv s live -> Z.of_nat (length live) + va_free_count s <= va_offset s / 2097152 <= 2 ^ 17.
Proof.
  intros HI. pose proof (count_bound s live HI) as H. rewrite length_app in H.
  pose proof (runs_length s live HI). lia.
Qed.

(** The invariant speaks of the runs as a bag. *)
Lemma inv_bag s live s' live' :
  inv s live -> cover (live' ++ runs s') ≡ₚ cover (live ++ runs s) ->
  (forall r, r ∈ live' ++ runs s' -> (2097152 | r.1) /\ 1 <= r.2 < 2 ^ 32) ->
  va_offset s' = va_offset s -> 0 <= va_free_count s' -> inv s' live'.
Proof.
  intros [Hnd Hb Hr Ho Hc] Hp Hr' Eo Hc'. split; try done.
  - by rewrite Hp.
  - intros g Hg. rewrite Eo. apply Hb. by rewrite <- Hp.
  - by rewrite Eo.
Qed.

Lemma granules_split off g want :
  (2097152 | off) -> 0 <= want <= g ->
  granules (off, g) = granules (off, want) ++ granules (off + want * 2097152, g - want).
Proof.
  intros [q ->] Hw. unfold granules. cbn [fst snd].
  rewrite <- Z.mul_add_distr_r, !Z.div_mul by lia. rewrite <- seqZ_app by lia. f_equal. lia.
Qed.

(** One entry of an indexed family changes. *)
Lemma upto_update {A} (f g : Z -> A) n i :
  0 <= i < n -> (forall j, 0 <= j < n -> j <> i -> g j = f j) ->
  exists R, upto f n ≡ₚ f i :: R /\ upto g n ≡ₚ g i :: R.
Proof.
  intros Hi Hg. exists (upto (fun j => if j =? i then f (n - 1) else f j) (n - 1)). split.
  - by apply upto_swap.
  - apply upto_swap; [done|]. intros j Hj. destruct (Z.eqb_spec j i) as [->|Hne].
    + rewrite Hg; [done|lia|lia].
    + rewrite Hg; [done|lia|done].
Qed.

(** ** Reusing a released run *)

Lemma va_reuse_spec s live want :
  inv s live -> 1 <= want < 2 ^ 32 ->
  (__va_reuse s want = (__va_bump_fail, s) /\ forall r, r ∈ runs s -> r.2 < want) \/
  exists off g s', __va_reuse s want = (off, s') /\ off < va_offset s /\ 0 <= off /\
    inv s' ((off, want) :: live) /\ va_base s' = va_base s /\ va_offset s' = va_offset s /\
    (off, g) ∈ runs s /\ want <= g /\ forall r, r ∈ runs s -> want <= r.2 -> g <= r.2.
Proof.
  intros HI Hw. pose proof (free_count_bound s live HI) as Hcb. pose proof HI as [Hnd Hb Hr Ho Hc].
  unfold __va_reuse.
  destruct (reuse_scan_spec s want (Z.to_nat (va_free_count s)) usize_max) as [(E & _ & H)|(Hne & Hge & Hin & _ & Hbest)];
    [by left|unfold usize_max; lia| |].
  { left. rewrite E, Z.eqb_refl. split; [done|]. intros r (i & Hi & <-)%elem_of_upto. apply H. lia. }
  right. set (b := reuse_scan _ _ _ _) in *. destruct (Z.eqb_spec b usize_max); [done|].
  destruct Hin as [Hin|]; [|done]. rewrite Z2Nat.id in * by lia.
  set (off := rd (run_off s) b) in *. set (g := rd (run_granules s) b) in *.
  assert (Hmem : (off, g) ∈ runs s) by (apply elem_of_upto; by exists b).
  destruct (Hr (off, g)) as [Hdo Hg]; [set_solver|]. cbn [fst snd] in Hdo, Hg.
  assert (Hoff : 0 <= off < va_offset s /\ off + want * 2097152 <= va_offset s).
  { destruct Ho as [[q Eq] Ho]. destruct Hdo as [p Ep].
    assert (Hcov : forall c, p <= c < p + g -> 0 <= c < q).
    { intros c Hcc. assert (0 <= c < va_offset s / 2097152); [|rewrite Eq, Z.div_mul in *; lia].
      apply Hb. rewrite cover_app, elem_of_app. right. unfold cover.
      apply list_elem_of_In, in_concat. exists (granules (off, g)). split.
      - apply list_elem_of_In, list_elem_of_fmap. by exists (off, g).
      - apply list_elem_of_In. unfold granules. cbn [fst snd]. rewrite Ep, Z.div_mul by lia. by apply elem_of_seqZ. }
    pose proof (Hcov p ltac:(lia)). pose proof (Hcov (p + g - 1) ltac:(lia)). nia. }
  destruct (Z.ltb_spec want g) as [Hlt|Hle].
  - assert (Eo : u64 (off + Z.shiftl want __sheet_align_log2) = off + want * 2097152).
    { change __sheet_align_log2 with 21. rewrite Z.shiftl_mul_pow2 by lia. change (2 ^ 21) with 2097152.
      apply u64_small. change __va_reservation_size with (2 ^ 38) in Ho. lia. }
    rewrite Eo, (u32_small (g - want)) by lia. eexists off, g, _. split; [reflexivity|].
    set (s' := Va _ _ _ _ _).
    destruct (upto_update (run_at s) (run_at s') (va_free_count s) b Hin) as (R & H1 & H2).
    { intros j Hj Hjb. unfold run_at. subst s'. cbn. by rewrite !rd_wr_ne by lia. }
    assert (E1 : run_at s b = (off, g)) by done.
    assert (E2 : run_at s' b = (off + want * 2097152, g - want)) by (unfold run_at; subst s'; cbn; by rewrite !rd_wr_eq).
    rewrite E1 in H1. rewrite E2 in H2. fold (runs s) in H1. change (upto (run_at s') (va_free_count s)) with (runs s') in H2.
    split_and!; try done; try lia.
    + apply (inv_bag s live); try done.
      * rewrite (cover_perm (live ++ runs s) _ ltac:(by rewrite H1)).
        rewrite (cover_perm (((off, want) :: live) ++ runs s') ((off, want) :: (off + want * 2097152, g - want) :: live ++ R)).
        -- rewrite (cover_perm (live ++ (off, g) :: R) ((off, g) :: live ++ R)) by (by rewrite <- Permutation_middle).
           unfold cover. cbn [fmap list_fmap concat]. rewrite app_assoc, <- granules_split by (done || lia). done.
        -- cbn [app]. f_equiv. rewrite H2, <- Permutation_middle. done.
      * intros r Hrr. cbn [app] in Hrr. rewrite H2 in Hrr.
        apply elem_of_cons in Hrr as [->|Hrr]; [cbn; split; [done|lia]|].
        apply elem_of_app in Hrr as [Hrr|Hrr]; [apply Hr; set_solver|].
        apply elem_of_cons in Hrr as [->|Hrr].
        -- cbn. split; [apply Z.divide_add_r; [done|apply Z.divide_factor_r]|lia].
        -- apply Hr. apply elem_of_app. right. rewrite H1. set_solver.
    + intros r (i & Hi & <-)%elem_of_upto Hwr. by apply Hbest.
  - assert (Eg : want = g) by lia. rewrite (u64_small (va_free_count s - 1)) by lia.
    eexists off, g, _. split; [reflexivity|]. set (s' := Va _ _ _ _ _).
    assert (H1 : runs s ≡ₚ (off, g) :: runs s').
    { apply (upto_swap (run_at s) (run_at s')); [done|]. intros j Hj. unfold run_at. subst s'. cbn.
      rewrite !rd_wr, (Z.eqb_sym b j). by destruct (Z.eqb_spec j b) as [->|]. }
    split_and!; try done; try lia.
    apply (inv_bag s live); try done; [| |subst s'; cbn; lia].
    + apply cover_perm. rewrite H1, Eg. cbn [app]. apply Permutation_middle.
    + intros r Hrr. apply Hr. rewrite H1, <- Permutation_middle, <- Eg. exact Hrr.
Qed.

Lemma inv_base s live b : inv s live -> inv (Va b (va_offset s) (run_off s) (run_granules s) (va_free_count s)) live.
Proof. by intros []. Qed.

(** Runs that nobody will return can be forgotten. *)
Lemma inv_drop s live r : inv s (r :: live) -> inv s live.
Proof.
  intros [Hnd Hb Hr Ho Hc]. split; try done.
  - unfold cover in *. cbn [app fmap list_fmap concat] in Hnd. by apply NoDup_app in Hnd as (_ & _ & ?).
  - intros g Hg. apply Hb. unfold cover in *. cbn [app fmap list_fmap concat]. set_solver.
  - intros r' Hr'. apply Hr. set_solver.
Qed.

(** ** Carving new runs *)

Lemma va_bump_spec s live bytes :
  inv s live -> 0 < bytes <= __va_reservation_size ->
  (__va_bump s (round_up bytes) = (__va_bump_fail, s) /\ __va_reservation_size < va_offset s + round_up bytes) \/
  exists s', __va_bump s (round_up bytes) = (va_offset s, s') /\ va_base s' = va_base s /\
    va_offset s' = va_offset s + round_up bytes /\ inv s' ((va_offset s, granules_of bytes) :: live).
Proof.
  intros HI Hb. destruct (round_up_spec bytes Hb) as (Hd & Hru & Er & Hg).
  destruct HI as [Hnd Hbl Hr [Hdo Ho] Hc]. unfold __va_bump.
  change __va_free_granules with (2 ^ 17) in Hg. change __va_reservation_size with (2 ^ 38) in *.
  rewrite u64_small by lia.
  destruct (Z.ltb_spec (2 ^ 38) (va_offset s + round_up bytes)); [by left|right].
  eexists. split; [reflexivity|]. split; [done|]. split; [done|].
  assert (Ediv : (va_offset s + round_up bytes) / 2097152 = va_offset s / 2097152 + granules_of bytes).
  { rewrite Er. rewrite (Z.mul_comm 2097152), Z.div_add by lia. done. }
  assert (Egr : granules (va_offset s, granules_of bytes) = seqZ (va_offset s / 2097152) (granules_of bytes)) by done.
  split; cbn [va_offset va_free_count].
  - unfold cover. cbn [app fmap list_fmap concat]. apply NoDup_app. split; [apply NoDup_seqZ|]. split; [|done].
    intros g Hg1 Hg2. rewrite Egr in Hg1. apply elem_of_seqZ in Hg1. specialize (Hbl g Hg2). lia.
  - intros g Hgm. unfold cover in Hgm. cbn [app fmap list_fmap concat] in Hgm.
    assert (0 <= va_offset s / 2097152) by (apply Z.div_pos; lia). rewrite Ediv.
    apply elem_of_app in Hgm as [Hgm|Hgm]; [rewrite Egr in Hgm; apply elem_of_seqZ in Hgm; lia|].
    specialize (Hbl g Hgm). lia.
  - intros r Hrr. cbn [app] in Hrr. apply elem_of_cons in Hrr as [->|Hrr]; [cbn; split; [done|lia]|by apply Hr].
  - change __va_reservation_size with (2 ^ 38). split; [by apply Z.divide_add_r|lia].
  - done.
Qed.

(** What the kernel may answer to the reservation *)
Definition base_ok (os : option Z) (s : va) : Prop :=
  0 <= va_base s /\ va_base s + __va_reservation_size < 2 ^ 64 /\
  forall b, os = Some b -> 0 <= b /\ b + __va_reservation_size < 2 ^ 64.

(** A carved address range *)
Definition carved (s : va) (slot bytes : Z) (off : Z) : Prop :=
  slot = va_base s + off /\ 0 < va_base s /\ va_base s + __va_reservation_size < 2 ^ 64 /\ (2097152 | off) /\ 0 <= off /\
  off + round_up bytes <= __va_reservation_size /\ bytes <= round_up bytes.

Lemma live_in_range s live off g :
  inv s live -> (off, g) ∈ live -> 0 <= off /\ off + g * 2097152 <= va_offset s.
Proof.
  intros [Hnd Hb Hr [[q Eq] Ho] Hc] Hin. destruct (Hr (off, g)) as [[p Ep] Hg]; [set_solver|].
  cbn [fst snd] in *. rewrite Eq, Z.div_mul in Hb by lia.
  assert (Hcov : forall c, p <= c < p + g -> 0 <= c < q).
  { intros c Hcc. apply Hb. rewrite cover_app, elem_of_app. left. unfold cover.
    apply list_elem_of_In, in_concat. exists (granules (off, g)). split.
    - apply list_elem_of_In, list_elem_of_fmap. by exists (off, g).
    - apply list_elem_of_In. unfold granules. cbn [fst snd]. rewrite Ep, Z.div_mul by lia. by apply elem_of_seqZ. }
  pose proof (Hcov p ltac:(lia)). pose proof (Hcov (p + g - 1) ltac:(lia)). lia.
Qed.

(** The base stays. *)
Lemma carve_base os ok1 ok2 s bytes : va_base s <> 0 -> va_base (__va_carve os ok1 ok2 s bytes).2 = va_base s.
Proof.
  intros Hb. assert (Hbump : forall s' n, va_base (__va_bump s' n).2 = va_base s') by (intros; unfold __va_bump; by case_match).
  assert (Hreuse : va_base (__va_reuse s (granules_of bytes)).2 = va_base s) by (unfold __va_reuse; by repeat case_match).
  unfold __va_carve. rewrite (proj2 (Z.eqb_neq (va_base s) 0)) by done. cbn iota. rewrite (proj2 (Z.eqb_neq (va_base s) 0)) by done.
  destruct (__va_reuse s _) as [off s1]. cbn [snd] in Hreuse.
  match goal with |- context [if negb (?g =? 0) then _ else _] => destruct (negb (g =? 0)) end; [done|]. pose proof (Hbump s1 (round_up bytes)) as Hb1.
  destruct (__va_bump s1 _) as [off2 s2]. cbn [snd] in Hb1. case_match; cbn [snd]; congruence.
Qed.

Lemma carved_live s live off bytes :
  inv s ((off, granules_of bytes) :: live) -> 0 < va_base s -> va_base s + __va_reservation_size < 2 ^ 64 ->
  0 < bytes <= __va_reservation_size ->
  carved s (va_base s + off) bytes off.
Proof.
  intros HI Hb Hbe Hby. destruct (round_up_spec bytes Hby) as (_ & Hru & Er & _).
  destruct (live_in_range s _ off (granules_of bytes) HI ltac:(set_solver)) as [H0 H1].
  destruct (v_run _ _ HI (off, granules_of bytes) ltac:(set_solver)) as [Hd _].
  pose proof (v_off _ _ HI) as [_ Ho]. split_and!; try done; lia.
Qed.

(** Two live runs do not overlap. *)
Lemma live_apart s live off g :
  inv s ((off, g) :: live) -> forall off' g', (off', g') ∈ live ->
  off + g * 2097152 <= off' \/ off' + g' * 2097152 <= off.
Proof.
  intros HI off' g' Hin. pose proof HI as [Hnd Hb Hr Ho Hc].
  destruct (Hr (off, g)) as [[p Ep] Hg]; [set_solver|].
  destruct (Hr (off', g')) as [[p' Ep'] Hg']; [set_solver|]. cbn [fst snd] in *.
  destruct (Z.le_gt_cases (p + g) p') as [|H1]; [left; lia|].
  destruct (Z.le_gt_cases (p' + g') p) as [|H2]; [right; lia|]. exfalso.
  unfold cover in Hnd. cbn [app fmap list_fmap concat] in Hnd. apply NoDup_app in Hnd as (_ & Hdis & _).
  assert (Hc1 : Z.max p p' ∈ granules (off, g)).
  { unfold granules. cbn [fst snd]. rewrite Ep, Z.div_mul by lia. apply elem_of_seqZ. lia. }
  apply (Hdis _ Hc1). apply list_elem_of_In, in_concat. exists (granules (off', g')). split.
  - apply list_elem_of_In, list_elem_of_fmap. exists (off', g'). split; [done|]. set_solver.
  - apply list_elem_of_In. unfold granules. cbn [fst snd]. rewrite Ep', Z.div_mul by lia. apply elem_of_seqZ. lia.
Qed.

(** A new run, committed or not *)
Lemma new_run s live bytes b o ok :
  inv s live -> 0 < bytes <= __va_reservation_size -> va_base s = b -> va_offset s = o ->
  0 < b -> b + __va_reservation_size < 2 ^ 64 ->
  let '(off, s1) := __va_bump s (round_up bytes) in
  let '(slot, s') := if off =? __va_bump_fail then (0, s1) else (__va_commit ok (b + off), s1) in
  (slot = 0 /\ inv s' live /\ (ok = false \/ __va_reservation_size < o + round_up bytes)) \/
  exists off, carved s' slot bytes off /\ inv s' ((off, granules_of bytes) :: live).
Proof.
  intros HI Hby <- <- Hbn Hbe. destruct (va_bump_spec s live bytes HI Hby) as [[-> H]|(s1 & -> & Eb & Eo & HI1)].
  - left. split_and!; try done. by right.
  - pose proof (v_off _ _ HI) as [_ Ho]. change __va_reservation_size with (2 ^ 38) in Ho.
    unfold __va_bump_fail, usize_max. destruct (Z.eqb_spec (va_offset s) (2 ^ 64 - 1)); [lia|].
    destruct ok; cbn [__va_commit].
    + right. exists (va_offset s). split; [|done]. rewrite <- Eb. apply (carved_live s1 live); [done|lia|lia|done].
    + left. split_and!; [done|by eapply inv_drop|by left].
Qed.

(** ** Properties *)

(** A request that fits the reservation is answered with an aligned, in-range
    run that overlaps no live run, or with null; null only when the kernel
    refused or no released run is large enough and the rest of the reservation
    is too short. *)
Lemma carve_spec os ok1 ok2 s live bytes :
  inv s live -> base_ok os s -> 0 < bytes <= __va_reservation_size ->
  let '(slot, s') := __va_carve os ok1 ok2 s bytes in
  (slot = 0 /\ inv s' live /\
   (va_base s' = 0 \/ ok1 = false \/ ok2 = false \/
    ((forall r, r ∈ runs s -> r.2 < granules_of bytes) /\ __va_reservation_size < va_offset s + round_up bytes))) \/
  exists off, carved s' slot bytes off /\ inv s' ((off, granules_of bytes) :: live) /\
    forall off' g, (off', g) ∈ live ->
      off + round_up bytes <= off' \/ off' + g * 2097152 <= off.
Proof.
  intros HI (Hb0 & Hbr & Hos) Hby. destruct (round_up_spec bytes Hby) as (_ & _ & Er & Hg).
  change __va_free_granules with (2 ^ 17) in Hg. unfold __va_carve.
  set (bs := if va_base s =? 0 then __va_reserve_once os s else (va_base s, s)).
  assert (Hbs : exists b s1, bs = (b, s1) /\ b = va_base s1 /\ 0 <= b /\ b + __va_reservation_size < 2 ^ 64 /\
    inv s1 live /\ runs s1 = runs s /\ va_offset s1 = va_offset s).
  { subst bs. destruct (Z.eqb_spec (va_base s) 0) as [E|E].
    - unfold __va_reserve_once. rewrite E. cbn [Z.eqb negb]. destruct os as [b|]; [|by exists 0, s; rewrite E in *].
      destruct (Z.eqb_spec b 0); [by exists 0, s; rewrite E in *|]. eexists b, _. split; [done|].
      destruct (Hos b eq_refl). split_and!; try done. by apply inv_base.
    - by exists (va_base s), s. }
  destruct Hbs as (b & s1 & -> & -> & Hb1 & Hb2 & HI1 & Er1 & Eo1).
  destruct (Z.eqb_spec (va_base s1) 0) as [E|Hbn].
  { left. split_and!; [done|done|by left]. }
  assert (Hbump : forall s2 ok, inv s2 live -> va_base s2 = va_base s1 -> va_offset s2 = va_offset s -> _)
    by exact (fun s2 ok H1 H2 H3 => new_run s2 live bytes (va_base s1) (va_offset s) ok H1 Hby H2 H3 ltac:(lia) Hb2).
  assert (Hsum : forall slot s', (exists off, carved s' slot bytes off /\ inv s' ((off, granules_of bytes) :: live)) ->
    exists off, carved s' slot bytes off /\ inv s' ((off, granules_of bytes) :: live) /\
    forall off' g, (off', g) ∈ live -> off + round_up bytes <= off' \/ off' + g * 2097152 <= off).
  { intros slot s' (off & Hc & HI'). exists off. split_and!; try done. intros off' g Hin.
    rewrite Er, Z.mul_comm. by apply (live_apart s' live). }
  destruct (va_reuse_spec s1 live (granules_of bytes) HI1 ltac:(lia)) as
    [[-> Hno]|(off & g & s2 & -> & Hlt & H0 & HI2 & Eb2 & Eo2 & _)].
  - change (negb (__va_bump_fail =? __va_bump_fail)) with false. cbn [Z.eqb negb].
    specialize (Hbump s1 ok2 HI1 eq_refl Eo1).
    destruct (__va_bump s1 (round_up bytes)) as [off s3].
    destruct (if off =? __va_bump_fail then _ else _) as [slot s'].
    destruct Hbump as [(-> & HI' & Hc)|H]; [left|right; by apply Hsum].
    split_and!; try done. rewrite <- Er1. destruct Hc; auto.
  - pose proof (v_off _ _ HI1) as [_ Ho]. change __va_reservation_size with (2 ^ 38) in *.
    assert (Ef : (off =? __va_bump_fail) = false) by (apply Z.eqb_neq; unfold __va_bump_fail, usize_max; lia).
    rewrite Ef. cbn [negb]. destruct ok1; cbn [__va_commit].
    + destruct (Z.eqb_spec (va_base s1 + off) 0); [lia|]. cbn [negb]. right. apply Hsum. exists off.
      split; [|done]. rewrite <- Eb2. apply (carved_live s2 live); [done|rewrite Eb2; lia|by rewrite Eb2|done].
    + cbn [Z.eqb negb]. specialize (Hbump s2 ok2 (inv_drop _ _ _ HI2) Eb2 ltac:(congruence)).
      destruct (__va_bump s2 (round_up bytes)) as [off2 s3].
      destruct (if off2 =? __va_bump_fail then _ else _) as [slot s'].
      destruct Hbump as [(-> & HI' & Hc)|H]; [left; split_and!; auto|right; by apply Hsum].
Qed.

(** A reservation at 4096 with one granule in use *)
Definition va_demo : va := Va 4096 2097152 ∅ ∅ 0.

Lemma va_demo_inv : inv va_demo [(0, 1)].
Proof.
  change (runs va_demo) with (@nil (Z * Z)). split; change (runs va_demo) with (@nil (Z * Z)).
  - vm_compute. apply NoDup_singleton.
  - intros g Hg. vm_compute in Hg. apply list_elem_of_singleton in Hg as ->. by vm_compute.
  - intros r Hr. apply list_elem_of_singleton in Hr as ->. split; [apply Z.divide_0_r|cbn; lia].
  - split; [apply Z.divide_refl|by vm_compute].
  - done.
Qed.

Lemma va_demo_base os : (forall b, os = Some b -> b = 4096) -> base_ok os va_demo.
Proof.
  intros H. split; [done|]. split; [by vm_compute|]. intros b Hb. rewrite (H b Hb). split; [lia|by vm_compute].
Qed.

(** Returning a live run makes it available again: it is never dropped, because
    there is a place in the array for every granule, and a request of its size
    is then served without moving the cursor. *)
Lemma release_spec s live off bytes :
  inv s ((off, granules_of bytes) :: live) -> base_ok None s -> va_base s <> 0 ->
  0 < bytes <= __va_reservation_size ->
  let s' := __va_release s (va_base s + off) bytes in
  inv s' live /\ runs s' = runs s ++ [(off, granules_of bytes)] /\
  exists off', 0 <= off' /\ (__va_carve None true true s' bytes).1 = va_base s + off' /\
    va_offset (__va_carve None true true s' bytes).2 = va_offset s.
Proof.
  intros HI (Hb0 & Hbr & _) Hbn Hby. destruct (round_up_spec bytes Hby) as (_ & _ & Er & Hg).
  change __va_free_granules with (2 ^ 17) in Hg.
  destruct (live_in_range s _ off (granules_of bytes) HI ltac:(set_solver)) as [H0 H1].
  pose proof (free_count_bound s _ HI) as Hc. cbn [length] in Hc.
  pose proof (v_off _ _ HI) as [_ Ho]. pose proof (v_count _ _ HI) as Hc0.
  set (s' := __va_release s (va_base s + off) bytes).
  assert (Es : s' = Va (va_base s) (va_offset s) (wr (run_off s) (va_free_count s) off)
      (wr (run_granules s) (va_free_count s) (granules_of bytes)) (va_free_count s + 1)).
  { subst s'. unfold __va_release. destruct (Z.eqb_spec (va_base s + off) 0); [lia|].
    destruct (Z.eqb_spec (va_base s) 0); [done|]. destruct (Z.ltb_spec (va_base s + off) (va_base s)); [lia|].
    destruct (Z.leb_spec (va_base s + __va_reservation_size) (va_base s + off)); [lia|]. cbn [orb].
    change __va_free_cap with (2 ^ 17). destruct (Z.ltb_spec (va_free_count s) (2 ^ 17)); [|lia].
    rewrite u64_small by lia. f_equal. f_equal. lia. }
  assert (Eruns : runs s' = runs s ++ [(off, granules_of bytes)]).
  { rewrite Es. unfold runs. cbn [va_free_count]. rewrite upto_snoc by lia. f_equal.
    - apply upto_ext. intros i Hi. unfold run_at. cbn. by rewrite !rd_wr_ne by lia.
    - unfold run_at. cbn. by rewrite !rd_wr_eq. }
  assert (HI' : inv s' live).
  { apply (inv_bag s ((off, granules_of bytes) :: live)); [done| | |by rewrite Es|rewrite Es; cbn; lia].
    - apply cover_perm. rewrite Eruns, app_assoc. cbn [app]. symmetry. apply Permutation_cons_append.
    - intros r Hr. rewrite Eruns in Hr. apply (v_run _ _ HI). cbn [app]. set_solver. }
  split; [done|]. split; [done|].
  destruct (va_reuse_spec s' live (granules_of bytes) HI' ltac:(lia)) as
    [[_ Hno]|(o & g & s2 & E & Hlt & Ho0 & HI2 & Eb2 & Eo2 & _)].
  - specialize (Hno (off, granules_of bytes)). rewrite Eruns in Hno. cbn in Hno.
    specialize (Hno ltac:(set_solver)). lia.
  - assert (Ebs : va_base s' = va_base s) by (by rewrite Es).
    assert (Eos : va_offset s' = va_offset s) by (by rewrite Es).
    exists o. unfold __va_carve. rewrite (proj2 (Z.eqb_neq (va_base s') 0)) by congruence. cbn iota.
    rewrite (proj2 (Z.eqb_neq (va_base s') 0)) by congruence. cbn iota. rewrite E, Ebs.
    change __va_reservation_size with (2 ^ 38) in *.
    assert (Ef : (o =? __va_bump_fail) = false) by (apply Z.eqb_neq; unfold __va_bump_fail, usize_max; lia).
    rewrite Ef. cbn [negb __va_commit]. destruct (Z.eqb_spec (va_base s + o) 0); [lia|].
    cbn [negb fst snd]. split_and!; [lia|done|congruence].
Qed.
