(* ===== verification/Owner.v ===== *)
(** * Who owns an address (src/src/sheet_header.hpp)

    The owner table maps every 2 MiB granule of the reservation to the arena
    whose sheet covers it; sheets outside the reservation are on a list that
    only grows, whose nodes are retired and revived.  An arena is a nonzero
    identifier, 0 is the null pointer.  Atomic loads, stores and
    compare-and-swaps on the list are single steps here. *)

From S2P Require Import Prelude.
From S2P Require Import VaReserve.

(** [__oor_sheet] without its link: the list is [__oor_head] first. *)
Record onode := ONode { n_lo : Z; n_hi : Z; n_owner : Z }.

(** [__block_owner_table], the list of [__oor_head], [__oor_live] *)
Record owners := Owners { table : zmap; nodes : list onode; oor_live : Z }.

Definition owners_init : owners := Owners ∅ [] 0.

Definition __block_index (base p : Z) : Z := Z.shiftr (u64 (p - base)) __sheet_align_log2.

(** The first loop of [__oor_insert]: a retired node of the same range *)
Fixpoint revive (arena lo hi : Z) (l : list onode) : option (list onode) :=
  match l with
  | [] => None
  | n :: l =>
      if negb (n_lo n =? lo) || negb (n_hi n =? hi) then option_map (cons n) (revive arena lo hi l)
      else if n_owner n =? 0 then Some (ONode (n_lo n) (n_hi n) arena :: l)
      else option_map (cons n) (revive arena lo hi l)
  end.

(** [mem] tells whether memory for a new node was available. *)
Definition __oor_insert (mem : bool) (o : owners) (arena base len : Z) : owners :=
  let lo := base in
  let hi := u64 (lo + len) in
  match revive arena lo hi (nodes o) with
  | Some l => Owners (table o) l (u32 (oor_live o + 1))
  | None =>
      if negb mem then o
      else Owners (table o) (ONode lo hi arena :: nodes o) (u32 (oor_live o + 1))
  end.

Fixpoint retire (lo hi : Z) (l : list onode) : option (list onode) :=
  match l with
  | [] => None
  | n :: l =>
      if (n_lo n =? lo) && (n_hi n =? hi) && negb (n_owner n =? 0)
      then Some (ONode (n_lo n) (n_hi n) 0 :: l)
      else option_map (cons n) (retire lo hi l)
  end.

Definition __oor_retire (o : owners) (base len : Z) : owners :=
  if oor_live o =? 0 then o else
  match retire base (u64 (base + len)) (nodes o) with
  | Some l => Owners (table o) l (u32 (oor_live o - 1))
  | None => o
  end.

Fixpoint oor_find (a : Z) (l : list onode) : Z :=
  match l with
  | [] => 0
  | n :: l => if (n_lo n <=? a) && (a <? n_hi n) then n_owner n else oor_find a l
  end.

Definition __oor_owner_of (o : owners) (p : Z) : Z :=
  if oor_live o =? 0 then 0 else oor_find p (nodes o).

Definition blocks_of (len : Z) : Z := Z.shiftr (u64 (len + __sheet_align_mask)) __sheet_align_log2.

Definition __sheet_register (mem : bool) (s : va) (o : owners) (arena base len : Z) : owners :=
  if negb (__va_contains s base) then __oor_insert mem o arena base len else
  Owners (fill (table o) (__block_index (va_base s) base) (Z.to_nat (blocks_of len)) arena) (nodes o) (oor_live o).

Definition __sheet_unregister (s : va) (o : owners) (base len : Z) : owners :=
  if negb (__va_contains s base) then __oor_retire o base len else
  Owners (fill (table o) (__block_index (va_base s) base) (Z.to_nat (blocks_of len)) 0) (nodes o) (oor_live o).

Definition __owner_of (s : va) (o : owners) (p : Z) : Z :=
  if negb (__va_contains s p) then __oor_owner_of o p else rd (table o) (__block_index (va_base s) p).

(** ** The table *)

Lemma contains_iff s p :
  va_base s <> 0 -> __va_contains s p = true <-> va_base s <= p < va_base s + __va_reservation_size.
Proof.
  intros Hb. unfold __va_contains. destruct (Z.eqb_spec (va_base s) 0); [done|].
  rewrite andb_true_iff, Z.leb_le, Z.ltb_lt. done.
Qed.

Lemma block_index_eq s p :
  va_base s <= p < va_base s + __va_reservation_size -> 0 <= va_base s ->
  va_base s + __va_reservation_size < 2 ^ 64 ->
  __block_index (va_base s) p = (p - va_base s) / 2097152.
Proof.
  intros Hp Hb He. unfold __block_index. change __va_reservation_size with (2 ^ 38) in *.
  rewrite u64_small by lia. change __sheet_align_log2 with 21. by rewrite Z.shiftr_div_pow2 by lia.
Qed.

(** Registering a run of granules makes every address in it belong to the
    arena, unregistering makes it belong to nobody, and no other address of the
    reservation changes hands. *)
Lemma owner_of_sheet s o arena off bytes p mem :
  carved s (va_base s + off) bytes off -> 0 < bytes <= __va_reservation_size ->
  va_base s <= p < va_base s + __va_reservation_size ->
  let inside := (va_base s + off <=? p) && (p <? va_base s + off + round_up bytes) in
  __owner_of s (__sheet_register mem s o arena (va_base s + off) bytes) p =
    (if inside then arena else __owner_of s o p) /\
  __owner_of s (__sheet_unregister s o (va_base s + off) bytes) p =
    (if inside then 0 else __owner_of s o p).
Proof.
  intros (_ & Hb0 & He & [k Ek] & H0 & Hend & _) Hby Hp inside. assert (Hb : va_base s <> 0) by lia.
  destruct (round_up_spec bytes Hby) as ([q Eq] & Hru & Er & Hg).
  assert (Hin : va_base s <= va_base s + off < va_base s + __va_reservation_size) by lia.
  assert (Eb : blocks_of bytes = q).
  { assert (E : blocks_of bytes = round_up bytes / 2097152).
    { unfold blocks_of, round_up. change __sheet_align_mask with (2 ^ 21 - 1). change __sheet_align_log2 with 21.
      change __va_reservation_size with (2 ^ 38) in *. rewrite u64_small by lia.
      rewrite Z.shiftr_div_pow2, ldiff_mask by lia. change 2097152 with (2 ^ 21).
      by rewrite Z.mul_comm, Z.div_mul. }
    rewrite E, Eq. by apply Z.div_mul. }
  assert (Hq : 1 <= q) by lia.
  unfold __owner_of, __sheet_register, __sheet_unregister.
  rewrite (proj2 (contains_iff s (va_base s + off) Hb) Hin), (proj2 (contains_iff s p Hb) Hp). cbn [negb table].
  rewrite !rd_fill, Eb, Z2Nat.id, !block_index_eq by lia.
  replace (va_base s + off - va_base s) with (k * 2097152) by lia. rewrite Z.div_mul by lia.
  assert (Hcond : (k <=? (p - va_base s) / 2097152) && ((p - va_base s) / 2097152 <? k + q) = inside).
  { subst inside. pose proof (Z.div_mod (p - va_base s) 2097152 ltac:(lia)).
    pose proof (Z.mod_pos_bound (p - va_base s) 2097152 ltac:(lia)). repeat case_g; done. }
  rewrite Hcond. by destruct inside.
Qed.

(** ** The list *)

Definition apart (n m : onode) : Prop := n_hi n <= n_lo m \/ n_hi m <= n_lo n.

(** Ranges of distinct nodes do not meet, and the counter counts the owned
    ones. *)
Record list_ok (o : owners) : Prop := {
  lo_range n : n ∈ nodes o -> n_lo n < n_hi n;
  lo_apart i j n m : nodes o !! i = Some n -> nodes o !! j = Some m -> i <> j -> apart n m;
  lo_live : oor_live o = Z.of_nat (length (filter (fun n => n_owner n <> 0) (nodes o)));
  lo_small : Z.of_nat (length (nodes o)) < 2 ^ 32
}.

(** The only node around an address decides. *)
Lemma oor_find_at l a i n :
  (forall i j n m, l !! i = Some n -> l !! j = Some m -> i <> j -> apart n m) ->
  l !! i = Some n -> n_lo n <= a < n_hi n -> oor_find a l = n_owner n.
Proof.
  revert i. induction l as [|m l IH]; intros i Hap Hi Ha; [done|]. cbn [oor_find].
  destruct i as [|i].
  - injection Hi as ->. by destruct (Z.leb_spec (n_lo n) a), (Z.ltb_spec a (n_hi n)); try lia.
  - cbn in Hi. pose proof (Hap 0%nat (S i) m n eq_refl Hi ltac:(done)) as Hd.
    replace ((n_lo m <=? a) && (a <? n_hi m)) with false.
    + apply (IH i); [|done|done]. intros i1 j1 n1 m1 H1 H2 Hne. apply (Hap (S i1) (S j1)); [done|done|congruence].
    + symmetry. apply andb_false_iff. rewrite Z.leb_gt, Z.ltb_ge. destruct Hd; [right|left]; lia.
Qed.

Lemma oor_find_none l a : (forall n, n ∈ l -> a < n_lo n \/ n_hi n <= a) -> oor_find a l = 0.
Proof.
  induction l as [|m l IH]; intros H; [done|]. cbn [oor_find].
  destruct (H m ltac:(set_solver)); case_g; try (case_g); apply IH; set_solver.
Qed.

Lemma live_zero_find o p : list_ok o -> __oor_owner_of o p = oor_find p (nodes o).
Proof.
  intros [_ _ Hl _]. unfold __oor_owner_of. destruct (Z.eqb_spec (oor_live o) 0) as [E|]; [|done].
  assert (Hz : forall n, n ∈ nodes o -> n_owner n = 0).
  { intros n Hn. destruct (decide (n_owner n = 0)) as [|Hne]; [done|].
    assert (Hin : n ∈ filter (fun n => n_owner n <> 0) (nodes o)) by (by apply list_elem_of_filter).
    destruct (filter _ (nodes o)); [set_solver|cbn in Hl; lia]. }
  clear -Hz. induction (nodes o) as [|n l IH]; [done|]. cbn [oor_find].
  rewrite <- IH by set_solver. rewrite (Hz n) by set_solver. by destruct (_ && _).
Qed.

(** Changing the owner of one node changes the owner of its range. *)
Lemma oor_find_update l p i n v :
  (forall i j n m, l !! i = Some n -> l !! j = Some m -> i <> j -> apart n m) ->
  l !! i = Some n ->
  oor_find p (<[i := ONode (n_lo n) (n_hi n) v]> l) =
  if (n_lo n <=? p) && (p <? n_hi n) then v else oor_find p l.
Proof.
  revert i. induction l as [|m l IH]; intros i Hap Hi; [done|]. destruct i as [|i].
  - injection Hi as ->. cbn. by destruct ((n_lo n <=? p) && (p <? n_hi n)).
  - pose proof (Hap 0%nat (S i) m n eq_refl Hi ltac:(done)) as Hd. cbn in Hi.
    change (<[S i := ONode (n_lo n) (n_hi n) v]> (m :: l)) with (m :: <[i := ONode (n_lo n) (n_hi n) v]> l).
    cbn [oor_find]. rewrite (IH i); [|intros i1 j1 n1 m1 H1 H2 Hne; apply (Hap (S i1) (S j1)); [done|done|congruence]|done].
    destruct Hd; repeat case_g; done.
Qed.

Lemma revive_spec arena lo hi l :
  (exists i n, l !! i = Some n /\ n_lo n = lo /\ n_hi n = hi /\ n_owner n = 0 /\
     revive arena lo hi l = Some (<[i := ONode (n_lo n) (n_hi n) arena]> l)) \/
  (revive arena lo hi l = None /\ forall n, n ∈ l -> n_lo n = lo -> n_hi n = hi -> n_owner n <> 0).
Proof.
  induction l as [|n l IH]; [right; split; [done|set_solver]|]. cbn [revive].
  assert (Hskip : (n_lo n <> lo \/ n_hi n <> hi \/ n_owner n <> 0) ->
    (exists i m, (n :: l) !! i = Some m /\ n_lo m = lo /\ n_hi m = hi /\ n_owner m = 0 /\
       option_map (cons n) (revive arena lo hi l) = Some (<[i := ONode (n_lo m) (n_hi m) arena]> (n :: l))) \/
    (option_map (cons n) (revive arena lo hi l) = None /\
     forall m, m ∈ n :: l -> n_lo m = lo -> n_hi m = hi -> n_owner m <> 0)).
  { intros Hn. destruct IH as [(i & m & H1 & H2 & H3 & H4 & ->)|[-> H]].
    - left. by exists (S i), m.
    - right. split; [done|]. intros m [->|Hm]%elem_of_cons; [|by apply H]. intros; by intuition. }
  destruct (Z.eqb_spec (n_lo n) lo), (Z.eqb_spec (n_hi n) hi); cbn [negb orb]; try (by apply Hskip; auto).
  destruct (Z.eqb_spec (n_owner n) 0); [|by apply Hskip; auto]. left. by exists 0%nat, n.
Qed.

Lemma retire_spec lo hi l :
  (exists i n, l !! i = Some n /\ n_lo n = lo /\ n_hi n = hi /\ n_owner n <> 0 /\
     retire lo hi l = Some (<[i := ONode (n_lo n) (n_hi n) 0]> l)) \/
  (retire lo hi l = None /\ forall n, n ∈ l -> n_lo n = lo -> n_hi n = hi -> n_owner n = 0).
Proof.
  induction l as [|n l IH]; [right; split; [done|set_solver]|]. cbn [retire].
  destruct (Z.eqb_spec (n_lo n) lo), (Z.eqb_spec (n_hi n) hi), (Z.eqb_spec (n_owner n) 0); cbn [negb andb];
    [|left; by exists 0%nat, n|..];
    (destruct IH as [(i & m & H1 & H2 & H3 & H4 & ->)|[-> H]]; [left; by exists (S i), m|right; split; [done|]];
     intros m [->|Hm]%elem_of_cons; [done|by apply H]).
Qed.

Lemma live_update (l : list onode) i n v :
  l !! i = Some n ->
  let cnt l := Z.of_nat (length (filter (fun n => n_owner n <> 0) l)) in
  cnt (<[i := ONode (n_lo n) (n_hi n) v]> l) =
  cnt l - (if n_owner n =? 0 then 0 else 1) + (if v =? 0 then 0 else 1).
Proof.
  intros Hi. cbn zeta. rewrite insert_take_drop by (by eapply lookup_lt_Some).
  rewrite <- (take_drop_middle _ _ _ Hi) at 3.
  rewrite !filter_app, !length_app, !filter_cons. cbn [n_owner].
  destruct (Z.eqb_spec (n_owner n) 0), (Z.eqb_spec v 0);
    repeat (first [rewrite decide_True by done|rewrite decide_False by auto]); cbn [length]; lia.
Qed.

(** Giving a node another owner keeps the list in order. *)
Lemma list_ok_update o i n v :
  list_ok o -> nodes o !! i = Some n ->
  list_ok (Owners (table o) (<[i := ONode (n_lo n) (n_hi n) v]> (nodes o))
    (oor_live o - (if n_owner n =? 0 then 0 else 1) + (if v =? 0 then 0 else 1))).
Proof.
  intros [Hr Ha Hl Hs] Hi.
  assert (Hlk : forall j m, <[i := ONode (n_lo n) (n_hi n) v]> (nodes o) !! j = Some m ->
    exists m', nodes o !! j = Some m' /\ n_lo m' = n_lo m /\ n_hi m' = n_hi m).
  { intros j m Hj. destruct (decide (i = j)) as [<-|Hne].
    - rewrite list_lookup_insert_eq in Hj by (by eapply lookup_lt_Some). injection Hj as <-. by exists n.
    - rewrite list_lookup_insert_ne in Hj by done. by exists m. }
  split; cbn [nodes oor_live].
  - intros m (j & Hj)%list_elem_of_lookup. destruct (Hlk j m Hj) as (m' & Hm' & E1 & E2).
    apply list_elem_of_lookup_2 in Hm'. specialize (Hr m' Hm'). lia.
  - intros j k m m' Hj Hk Hne. destruct (Hlk j m Hj) as (x & Hx & E1 & E2).
    destruct (Hlk k m' Hk) as (y & Hy & E3 & E4). specialize (Ha j k x y Hx Hy Hne).
    unfold apart in *. by rewrite <- E1, <- E2, <- E3, <- E4.
  - rewrite (live_update _ i n v Hi), Hl. done.
  - by rewrite length_insert.
Qed.

Lemma filter_le (l : list onode) :
  Z.of_nat (length (filter (fun n => n_owner n <> 0) l)) <= Z.of_nat (length l).
Proof. apply inj_le, length_filter. Qed.

(** A sheet outside the reservation owns its range from registration to
    unregistration, and no other address changes hands; provided the ranges on
    the list are equal or disjoint. *)
Theorem oor_owner o arena lo len p :
  list_ok o -> 0 <= lo -> 0 < len -> lo + len < 2 ^ 64 -> arena <> 0 ->
  Z.of_nat (length (nodes o)) + 1 < 2 ^ 32 ->
  (forall n, n ∈ nodes o -> (n_lo n = lo /\ n_hi n = lo + len /\ n_owner n = 0) \/
     n_hi n <= lo \/ lo + len <= n_lo n) ->
  let o1 := __oor_insert true o arena lo len in
  let o2 := __oor_retire o1 lo len in
  let inside := (lo <=? p) && (p <? lo + len) in
  list_ok o1 /\ __oor_owner_of o1 p = (if inside then arena else __oor_owner_of o p) /\
  list_ok o2 /\ __oor_owner_of o2 p = (if inside then 0 else __oor_owner_of o p).
Proof.
  intros HO H0 Hlen Hend Har Hroom Hfresh o1 o2 inside.
  (* after the insertion one node carries the range and the arena *)
  assert (H1 : list_ok o1 /\ __oor_owner_of o1 p = (if inside then arena else __oor_owner_of o p) /\
    exists i n, nodes o1 !! i = Some n /\ n_lo n = lo /\ n_hi n = lo + len /\ n_owner n = arena).
  { subst o1. unfold __oor_insert. rewrite u64_small by lia. cbn [negb].
    pose proof (filter_le (nodes o)) as Hfl. pose proof (lo_live _ HO) as Hll.
    destruct (revive_spec arena lo (lo + len) (nodes o)) as [(i & n & Hi & El & Eh & Eo & ->)|[-> Hnone]].
    - pose proof (list_ok_update o i n arena HO Hi) as HO'. rewrite Eo in HO'. cbn [Z.eqb] in HO'.
      rewrite (proj2 (Z.eqb_neq arena 0) Har) in HO'.
      rewrite u32_small by lia. replace (oor_live o + 1) with (oor_live o - 0 + 1) by lia.
      split; [done|]. rewrite !live_zero_find by done. cbn [nodes].
      rewrite (oor_find_update _ p i n arena (lo_apart _ HO) Hi), El, Eh. split; [done|].
      exists i, (ONode lo (lo + len) arena). split; [|done].
      apply list_lookup_insert_eq. by eapply lookup_lt_Some.
    - rewrite u32_small by lia. assert (HO' : list_ok (Owners (table o) (ONode lo (lo + len) arena :: nodes o) (oor_live o + 1))).
      { destruct HO as [Hr Ha Hl Hs].
        assert (Hd : forall m, m ∈ nodes o -> n_hi m <= lo \/ lo + len <= n_lo m).
        { intros m Hm. destruct (Hfresh m Hm) as [(E1 & E2 & E3)|]; [|done]. by destruct (Hnone m Hm E1 E2). }
        split; cbn [nodes oor_live].
        - intros m [->|Hm]%elem_of_cons; [cbn; lia|by apply Hr].
        - intros [|i] [|j] n m Hi Hj Hne; [done| | |apply (Ha i j); [done|done|congruence]].
          + injection Hi as <-. cbn in Hj. apply list_elem_of_lookup_2, Hd in Hj. unfold apart. cbn. lia.
          + injection Hj as <-. cbn in Hi. apply list_elem_of_lookup_2, Hd in Hi. unfold apart. cbn. lia.
        - rewrite filter_cons, decide_True by done. cbn [length]. lia.
        - cbn [length]. lia. }
      split; [done|]. rewrite !live_zero_find by done. split; [done|].
      by exists 0%nat, (ONode lo (lo + len) arena). }
  destruct H1 as (HO1 & Eo1 & i & n & Hi & El & Eh & Eo). split; [done|]. split; [done|].
  assert (Hlive : oor_live o1 <> 0).
  { rewrite (lo_live _ HO1). assert (Hin : n ∈ filter (fun n => n_owner n <> 0) (nodes o1)).
    { apply list_elem_of_filter. split; [by rewrite Eo|]. by eapply list_elem_of_lookup_2. }
    destruct (filter _ (nodes o1)); [set_solver|cbn; lia]. }
  subst o2. unfold __oor_retire. rewrite (proj2 (Z.eqb_neq (oor_live o1) 0) Hlive), u64_small by lia.
  destruct (retire_spec lo (lo + len) (nodes o1)) as [(j & m & Hj & El' & Eh' & Eo' & ->)|[_ Hnone]].
  - pose proof (list_ok_update o1 j m 0 HO1 Hj) as HO'. rewrite (proj2 (Z.eqb_neq (n_owner m) 0) Eo') in HO'.
    change (0 =? 0) with true in HO'. cbn iota in HO'.
    pose proof (filter_le (nodes o1)). pose proof (lo_live _ HO1). pose proof (lo_small _ HO1).
    rewrite u32_small by lia. replace (oor_live o1 - 1) with (oor_live o1 - 1 + 0) by lia.
    split; [done|]. rewrite (live_zero_find _ _ HO'). cbn [nodes].
    rewrite (oor_find_update _ p j m 0 (lo_apart _ HO1) Hj), El', Eh', <- (live_zero_find _ _ HO1), Eo1.
    fold inside. by destruct inside.
  - exfalso. apply Har. rewrite <- Eo. apply Hnone; [by eapply list_elem_of_lookup_2|done|done].
Qed.

Lemma oor_owner_witness :
  __oor_owner_of (__oor_insert true owners_init 9 40960 8192) 41000 = 9.
Proof.
  assert (HO : list_ok owners_init) by (split; [set_solver|done|reflexivity|reflexivity]).
  exact (proj1 (proj2 (oor_owner owners_init 9 40960 8192 41000 HO ltac:(lia) ltac:(lia) ltac:(lia) ltac:(lia)
    ltac:(cbn; lia) ltac:(set_solver)))).
Defined.

(** Without that proviso a retired node hides a live one: after a range and a
    part of it have been used and retired in turn, the range is used again, and
    the addresses of the part belong to nobody. *)
Example retired_node_hides_sheet :
  let o := __oor_insert true owners_init 9 40960 8192 in
  let o := __oor_retire o 40960 8192 in
  let o := __oor_insert true o 9 40960 4096 in
  let o := __oor_retire o 40960 4096 in
  let o := __oor_insert true o 9 40960 8192 in
  __oor_owner_of o 41000 = 0 /\ __oor_owner_of o 46000 = 9.
Proof. split; vm_compute; reflexivity. Qed.
