(* ===== verification/External.v ===== *)
(** * The registry of external ranges (src/src/external.hpp)

    Pages of slots hold the address ranges that were handed out outside the
    arenas.  Every operation runs under the registry's lock.  The number of
    slots of a page comes from the page size of the system, a parameter. *)

From S2P Require Import Prelude.

Inductive external_provenance := p_none | p_caller | p_fixed | p_guarded | p_huge | p_secure | p_immutable.

(** [__external_range]; a null base marks a free slot. *)
Record range := Range { r_base : Z; r_len : Z; r_prov : external_provenance }.
Definition null_range : range := Range 0 0 p_none.

(** [__external_page] without its link: the list is [__external_pages] first. *)
Record page := Page { capacity : Z; used : Z; high_water : Z; ranges : list range }.

(** [__external_pages] and [__external_count] *)
Record registry := Registry { pages : list page; count : Z }.

Definition __external_bounds (base len : Z) : option (Z * Z) :=
  if (base =? 0) || (len =? 0) then None else
  if usize_max - base <? len then None else
  let hi := base + len in
  if base <? hi then Some (base, hi) else None.

Definition __external_overlap (alo ahi : Z) (r : range) : bool :=
  if r_base r =? 0 then false else
  let blo := r_base r in
  let bhi := u64 (blo + r_len r) in
  (alo <? bhi) && (blo <? ahi).

(** Where the scan of [__external_register_slow] can put a range: the first free
    slot below a high-water mark, and the first page with unused slots. *)
Record scan := Scan { vacant : option (nat * nat); tail_vacant : option nat }.

Fixpoint scan_ranges (lo hi : Z) (k i : nat) (rs : list range) (v : option (nat * nat)) : option (option (nat * nat)) :=
  match rs with
  | [] => Some v
  | r :: rs =>
      if __external_overlap lo hi r then None
      else scan_ranges lo hi k (S i) rs
             (match v with None => if r_base r =? 0 then Some (k, i) else None | _ => v end)
  end.

Fixpoint scan_pages (lo hi : Z) (k : nat) (ps : list page) (sc : scan) : option scan :=
  match ps with
  | [] => Some sc
  | p :: ps =>
      match scan_ranges lo hi k 0 (take (Z.to_nat (high_water p)) (ranges p)) (vacant sc) with
      | None => None
      | Some v =>
          scan_pages lo hi (S k) ps
            (Scan v (match v, tail_vacant sc with
                     | None, None => if high_water p <? capacity p then Some k else None
                     | _, t => t
                     end))
      end
  end.

(** [ranges[i] = r; ++used], and the high-water mark becomes [hw]. *)
Definition put (r : range) (i : nat) (hw : Z) (p : page) : page :=
  Page (capacity p) (used p + 1) hw (<[i := r]> (ranges p)).

Definition external_is_present (s : registry) (base : Z) : bool :=
  if base =? 0 then false else
  existsb (fun p => existsb (fun r => r_base r =? base) (take (Z.to_nat (high_water p)) (ranges p))) (pages s).

Definition external_within (s : registry) (address : Z) : bool :=
  if address =? 0 then false else
  existsb (fun p => existsb (fun r => negb (r_base r =? 0) && (r_base r <=? address) && (u64 (address - r_base r) <? r_len r))
    (take (Z.to_nat (high_water p)) (ranges p))) (pages s).

(** The first range with the given base *)
Definition find_base (s : registry) (base : Z) : option range :=
  snd <$> list_find (fun r => r_base r = base)
    (concat ((fun p => take (Z.to_nat (high_water p)) (ranges p)) <$> pages s)).

Definition external_query_size (s : registry) (base : Z) : Z :=
  if base =? 0 then 0 else match find_base s base with Some r => r_len r | None => 0 end.

Definition external_query_provenance (s : registry) (base : Z) : external_provenance :=
  if base =? 0 then p_none else match find_base s base with Some r => r_prov r | None => p_none end.

(** [while ( hw && ranges[hw - 1].base == nullptr ) --hw;] *)
Fixpoint lower (rs : list range) (hw : nat) : nat :=
  match hw with
  | O => O
  | S h => match rs !! h with
           | Some r => if r_base r =? 0 then lower rs h else hw
           | None => hw
           end
  end.

(** The search of [__external_unregister_slow] in one page: [None] when the base
    is not there, [Some None] when the length differs. *)
Fixpoint unregister_page (base len : Z) (p : page) (i : nat) (rs : list range) : option (option page) :=
  match rs with
  | [] => None
  | r :: rs =>
      if negb (r_base r =? base) then unregister_page base len p (S i) rs else
      if negb (r_len r =? len) then Some None else
      let rs' := <[i := null_range]> (ranges p) in
      let hw := if Z.of_nat i + 1 =? high_water p then Z.of_nat (lower rs' (Z.to_nat (high_water p))) else high_water p in
      Some (Some (Page (capacity p) (used p - 1) hw rs'))
  end.

Fixpoint unregister_pages (base len : Z) (ps : list page) : option (list page) :=
  match ps with
  | [] => None
  | p :: ps =>
      match unregister_page base len p 0 (take (Z.to_nat (high_water p)) (ranges p)) with
      | Some (Some p') => Some (p' :: ps)
      | Some None => None
      | None => option_map (cons p) (unregister_pages base len ps)
      end
  end.

Definition __external_unregister_slow (s : registry) (base len : Z) : bool * registry :=
  match unregister_pages base len (pages s) with
  | Some ps => (true, Registry ps (count s - 1))
  | None => (false, s)
  end.

Definition unregister_external (s : registry) (base len : Z) : bool * registry :=
  if (base =? 0) || (len =? 0) then (false, s) else
  match pages s with
  | p :: ps =>
      match ranges p with
      | r :: rs =>
          if negb (high_water p =? 0) && (r_base r =? base) then
            if negb (r_len r =? len) then (false, s) else
            (true, Registry (Page (capacity p) (used p - 1) (if high_water p =? 1 then 0 else high_water p)
                               (null_range :: rs) :: ps) (count s - 1))
          else __external_unregister_slow s base len
      | [] => __external_unregister_slow s base len
      end
  | [] => __external_unregister_slow s base len
  end.

Section Registry.
Context (page_size : Z).

Definition header : Z := 32.
Definition sizeof_range : Z := 24.

(** A fresh page, if the kernel gives memory *)
Definition __external_new_page (mem : bool) : option page :=
  if negb mem then None else
  let mapping_len := if page_size <? header + sizeof_range then header + sizeof_range else page_size in
  let cap := (mapping_len - header) / sizeof_range in
  Some (Page cap 0 1 (replicate (Z.to_nat cap) null_range)).

Definition __external_register_slow (mem : bool) (s : registry) (r : range) (lo hi : Z) : bool * registry :=
  match scan_pages lo hi 0 (pages s) (Scan None None) with
  | None => (false, s)
  | Some (Scan (Some (k, i)) _) =>
      (true, Registry (alter (fun p => put r i (high_water p) p) k (pages s)) (count s + 1))
  | Some (Scan None (Some k)) =>
      (true, Registry (alter (fun p => put r (Z.to_nat (high_water p)) (high_water p + 1) p) k (pages s)) (count s + 1))
  | Some (Scan None None) =>
      match __external_new_page mem with
      | None => (false, s)
      | Some p => (true, Registry (put r 0 (high_water p) p :: pages s) (count s + 1))
      end
  end.

Definition register_external (mem : bool) (s : registry) (base len : Z) (prov : external_provenance) : bool * registry :=
  match __external_bounds base len with
  | None => (false, s)
  | Some (lo, hi) =>
      match pages s with
      | p :: ps =>
          if count s =? 0 then
            (true, Registry (Page (capacity p) 1 1 (<[0%nat := Range base len prov]> (ranges p)) :: ps) 1)
          else __external_register_slow mem s (Range base len prov) lo hi
      | [] => __external_register_slow mem s (Range base len prov) lo hi
      end
  end.
End Registry.

(** ** The registered ranges *)

Definition is_live (r : range) : Prop := r_base r <> 0.
Definition live_of (p : page) : list range := filter is_live (ranges p).
Definition entries (s : registry) : list range := concat (live_of <$> pages s).

Record page_ok (p : page) : Prop := {
  po_cap : capacity p = Z.of_nat (length (ranges p)) /\ 1 <= capacity p;
  po_hw : 0 <= high_water p <= capacity p;
  po_above i r : ranges p !! i = Some r -> high_water p <= Z.of_nat i -> r_base r = 0;
  po_top : 0 < high_water p -> exists r, ranges p !! Z.to_nat (high_water p - 1) = Some r /\ is_live r;
  po_used : used p = Z.of_nat (length (live_of p))
}.

Record inv (s : registry) : Prop := {
  i_pages p : p ∈ pages s -> page_ok p;
  i_count : count s = Z.of_nat (length (entries s));
  i_valid r : r ∈ entries s -> 0 < r_base r /\ 0 < r_len r /\ r_base r + r_len r < 2 ^ 64;
  i_apart i j r r' : entries s !! i = Some r -> entries s !! j = Some r' -> i <> j ->
    r_base r + r_len r <= r_base r' \/ r_base r' + r_len r' <= r_base r
}.

Lemma inv_empty : inv (Registry [] 0).
Proof. split; cbn; try done; set_solver. Qed.

(** ** Bags of ranges *)

Definition disjoint (r r' : range) : Prop :=
  r_base r + r_len r <= r_base r' \/ r_base r' + r_len r' <= r_base r.

Definition spread (l : list range) : Prop :=
  forall i j r r', l !! i = Some r -> l !! j = Some r' -> i <> j -> disjoint r r'.

Lemma spread_perm l l' : l ≡ₚ l' -> spread l -> spread l'.
Proof.
  intros Hp Hs i j r r' Hi Hj Hne. symmetry in Hp. apply Permutation_inj in Hp as (_ & f & Hf & Hlk).
  rewrite Hlk in Hi, Hj. apply (Hs (f i) (f j)); [done|done|]. intros E. by apply Hne, Hf.
Qed.

Lemma spread_cons r l : (forall r', r' ∈ l -> disjoint r r') -> spread l -> spread (r :: l).
Proof.
  intros Hr Hs [|i] [|j] a b Hi Hj Hne; [done| | |].
  - injection Hi as <-. apply Hr. by eapply (list_elem_of_lookup_2 l j).
  - injection Hj as <-. cbn in Hi. destruct (Hr a); [by eapply (list_elem_of_lookup_2 l i)|by right|by left].
  - apply (Hs i j); [done|done|congruence].
Qed.

Lemma spread_tail r l : spread (r :: l) -> spread l.
Proof. intros Hs i j a b Hi Hj Hne. apply (Hs (S i) (S j)); [done|done|congruence]. Qed.

(** A registry with one more, or one less, range. *)
Lemma inv_add s s' r :
  inv s -> entries s' ≡ₚ r :: entries s -> (forall p, p ∈ pages s' -> page_ok p) -> count s' = count s + 1 ->
  0 < r_base r -> 0 < r_len r -> r_base r + r_len r < 2 ^ 64 ->
  (forall r', r' ∈ entries s -> disjoint r r') -> inv s'.
Proof.
  intros [Hpg Hc Hv Ha] Hp Hpg' Hc' H1 H2 H3 Hd. split; [done| | |].
  - rewrite Hp, Hc', Hc. cbn [length]. lia.
  - intros r' Hr'. rewrite Hp in Hr'. apply elem_of_cons in Hr' as [->|Hr']; [done|by apply Hv].
  - apply (spread_perm (r :: entries s)); [by symmetry|]. by apply spread_cons.
Qed.

Lemma inv_sub s s' r :
  inv s -> entries s ≡ₚ r :: entries s' -> (forall p, p ∈ pages s' -> page_ok p) -> count s' = count s - 1 -> inv s'.
Proof.
  intros [Hpg Hc Hv Ha] Hp Hpg' Hc'. split; [done| | |].
  - rewrite Hc', Hc, Hp. cbn [length]. lia.
  - intros r' Hr'. apply Hv. rewrite Hp. set_solver.
  - by apply (spread_tail r), (spread_perm (entries s)).
Qed.

(** ** Pages *)

Lemma live_app l l' : filter is_live (l ++ l') = filter is_live l ++ filter is_live l'.
Proof. apply filter_app. Qed.

Lemma live_none l : (forall r, r ∈ l -> r_base r = 0) -> filter is_live l = [].
Proof.
  induction l as [|r l IH]; intros H; [done|]. rewrite filter_cons, decide_False; [apply IH; set_solver|].
  intros Hl. apply Hl, H. set_solver.
Qed.

(** The slots below the high-water mark hold all live ranges. *)
Lemma live_take p : page_ok p -> filter is_live (take (Z.to_nat (high_water p)) (ranges p)) = live_of p.
Proof.
  intros HP. unfold live_of. rewrite <- (take_drop (Z.to_nat (high_water p)) (ranges p)) at 2.
  rewrite live_app, (live_none (drop _ _)); [by rewrite app_nil_r|].
  intros r (i & Hi)%list_elem_of_lookup. rewrite lookup_drop in Hi. apply (po_above _ HP _ _ Hi).
  pose proof (po_hw _ HP). lia.
Qed.

(** Overwriting a slot *)
Lemma live_insert (l : list range) i r0 r :
  l !! i = Some r0 ->
  exists R, filter is_live l ≡ₚ filter is_live [r0] ++ R /\ filter is_live (<[i := r]> l) ≡ₚ filter is_live [r] ++ R.
Proof.
  intros Hi. exists (filter is_live (take i l) ++ filter is_live (drop (S i) l)). split.
  - rewrite <- (take_drop_middle _ _ _ Hi) at 1. change (r0 :: drop (S i) l) with ([r0] ++ drop (S i) l).
    rewrite !live_app. apply Permutation_app_swap_app.
  - rewrite insert_take_drop by (by eapply lookup_lt_Some). change (r :: drop (S i) l) with ([r] ++ drop (S i) l).
    rewrite !live_app. apply Permutation_app_swap_app.
Qed.

Lemma live_one r : filter is_live [r] = if r_base r =? 0 then [] else [r].
Proof.
  rewrite filter_cons. destruct (Z.eqb_spec (r_base r) 0) as [E|E].
  - by rewrite decide_False by (intros H; by apply H).
  - by rewrite decide_True.
Qed.

(** A range put into a free slot that is below the mark or at it *)
Lemma put_spec p i r :
  page_ok p -> Z.of_nat i <= high_water p < capacity p \/ Z.of_nat i < high_water p -> is_live r ->
  (forall r0, ranges p !! i = Some r0 -> r_base r0 = 0) ->
  let hw := if Z.of_nat i =? high_water p then high_water p + 1 else high_water p in
  page_ok (put r i hw p) /\ live_of (put r i hw p) ≡ₚ r :: live_of p.
Proof.
  intros [[Hc1 Hc2] Hh Ha Ht Hu] Hi Hr Hnull hw.
  destruct (lookup_lt_is_Some_2 (ranges p) i) as [r0 Hr0]; [lia|].
  specialize (Hnull r0 Hr0). destruct (live_insert (ranges p) i r0 r Hr0) as (R & H1 & H2).
  rewrite live_one, Hnull in H1. rewrite live_one, (proj2 (Z.eqb_neq (r_base r) 0) Hr) in H2. cbn [app Z.eqb] in H1, H2.
  assert (Hlive : live_of (put r i hw p) ≡ₚ r :: live_of p) by (unfold live_of; cbn [put ranges]; by rewrite H2, H1).
  split; [|done]. split; cbn [put capacity used high_water ranges].
  - by rewrite length_insert.
  - subst hw. case_b.
  - intros j r' Hj Hge. destruct (decide (i = j)) as [<-|Hne].
    + exfalso. subst hw. case_b.
    + rewrite list_lookup_insert_ne in Hj by done. apply (Ha j); [done|]. subst hw. case_b.
  - intros Hpos. subst hw. destruct (Z.eqb_spec (Z.of_nat i) (high_water p)) as [E|E].
    + exists r. replace (Z.to_nat (high_water p + 1 - 1)) with i by lia.
      split; [|done]. apply list_lookup_insert_eq. by eapply lookup_lt_Some.
    + destruct (Ht Hpos) as (rt & Hrt & Hlt). exists rt. split; [|done].
      rewrite list_lookup_insert_ne; [done|]. intros ->. apply Hlt. rewrite Hr0 in Hrt. congruence.
  - rewrite Hlive. cbn [length]. lia.
Qed.

(** ** Scanning *)

Definition no_overlap (lo hi : Z) (l : list range) : Prop := forall r, r ∈ l -> __external_overlap lo hi r = false.

Lemma scan_ranges_spec lo hi k rs : forall i v,
  match scan_ranges lo hi k i rs v with
  | None => exists r, r ∈ rs /\ __external_overlap lo hi r = true
  | Some v' => no_overlap lo hi rs /\
      match v with
      | Some _ => v' = v
      | None => match v' with
                | Some (k', j) => k' = k /\ (i <= j)%nat /\ exists r, rs !! (j - i)%nat = Some r /\ r_base r = 0
                | None => True
                end
      end
  end.
Proof.
  induction rs as [|r rs IH]; intros i v; cbn [scan_ranges].
  - split; [intros r Hr; set_solver|]. by destruct v as [[]|].
  - destruct (__external_overlap lo hi r) eqn:Eo; [exists r; split; [set_solver|done]|].
    set (v1 := match v with None => if r_base r =? 0 then Some (k, i) else None | _ => v end).
    specialize (IH (S i) v1). destruct (scan_ranges lo hi k (S i) rs v1) as [v'|].
    + destruct IH as [Hno Hv]. split; [intros x [->|Hx]%elem_of_cons; [done|by apply Hno]|].
      destruct v as [[kv jv]|]; [exact Hv|]. subst v1. destruct (Z.eqb_spec (r_base r) 0) as [E|E].
      * rewrite Hv. split_and!; [done|lia|]. exists r. by rewrite Nat.sub_diag.
      * destruct v' as [[k' j]|]; [|done]. destruct Hv as (-> & Hij & r0 & Hr0 & E0).
        split_and!; [done|lia|]. exists r0. by replace (j - i)%nat with (S (j - S i)) by lia.
    + destruct IH as (x & Hx & Ho). exists x. split; [set_solver|done].
Qed.

(** What the scan of all pages finds *)
Definition vacant_ok (ps : list page) (v : option (nat * nat)) : Prop :=
  match v with
  | Some (k, i) => exists p r, ps !! k = Some p /\ ranges p !! i = Some r /\ r_base r = 0 /\ Z.of_nat i < high_water p
  | None => True
  end.
Definition tail_ok (ps : list page) (t : option nat) : Prop :=
  match t with
  | Some k => exists p, ps !! k = Some p /\ high_water p < capacity p
  | None => True
  end.

Lemma scan_pages_spec lo hi all : forall ps pre sc,
  all = pre ++ ps -> (forall p, p ∈ ps -> page_ok p) -> vacant_ok all (vacant sc) -> tail_ok all (tail_vacant sc) ->
  match scan_pages lo hi (length pre) ps sc with
  | None => exists p r, p ∈ ps /\ r ∈ take (Z.to_nat (high_water p)) (ranges p) /\ __external_overlap lo hi r = true
  | Some sc' =>
      (forall p, p ∈ ps -> no_overlap lo hi (take (Z.to_nat (high_water p)) (ranges p))) /\
      vacant_ok all (vacant sc') /\ tail_ok all (tail_vacant sc')
  end.
Proof.
  induction ps as [|p ps IH]; intros pre sc -> Hok Hv Ht; cbn [scan_pages]; [split_and!; try done; set_solver|].
  assert (Hp : (pre ++ p :: ps) !! length pre = Some p) by (rewrite lookup_app_r, Nat.sub_diag by lia; done).
  assert (HP : page_ok p) by (apply Hok; set_solver).
  pose proof (scan_ranges_spec lo hi (length pre) (take (Z.to_nat (high_water p)) (ranges p)) 0 (vacant sc)) as Hsc.
  destruct (scan_ranges _ _ _ _ _ _) as [v|].
  - destruct Hsc as [Hno Hvac]. set (sc1 := Scan v _).
    specialize (IH (pre ++ [p]) sc1). rewrite <- app_assoc, length_app, Nat.add_1_r in IH.
    specialize (IH eq_refl ltac:(intros x Hx; apply Hok; set_solver)).
    assert (H1 : vacant_ok (pre ++ p :: ps) (vacant sc1)).
    { subst sc1. cbn [vacant]. destruct (vacant sc) as [[kv jv]|]; [by rewrite Hvac|].
      destruct v as [[k j]|]; [|done]. destruct Hvac as (-> & _ & r & Hr & E). rewrite Nat.sub_0_r in Hr.
      pose proof (lookup_lt_Some _ _ _ Hr) as Hlt. rewrite length_take in Hlt.
      rewrite lookup_take_lt in Hr by lia. exists p, r. split_and!; try done. lia. }
    assert (H2 : tail_ok (pre ++ p :: ps) (tail_vacant sc1)).
    { subst sc1. cbn [tail_vacant]. destruct v; [done|]. destruct (tail_vacant sc); [done|].
      destruct (Z.ltb_spec (high_water p) (capacity p)); [|done]. by exists p. }
    specialize (IH H1 H2). cbn [app length] in IH. destruct (scan_pages lo hi _ ps sc1) as [sc'|].
    + destruct IH as (H3 & H4 & H5). split_and!; try done. intros x [->|Hx]%elem_of_cons; [done|by apply H3].
    + destruct IH as (x & r & Hx & Hr). exists x, r. split; [set_solver|done].
  - destruct Hsc as (r & Hr & Ho). exists p, r. split_and!; try done. set_solver.
Qed.

Lemma elem_of_entries s r : r ∈ entries s <-> exists p, p ∈ pages s /\ r ∈ live_of p.
Proof.
  unfold entries. rewrite list_elem_of_In, in_concat. split.
  - intros (l & Hl & Hr). apply list_elem_of_In, list_elem_of_fmap in Hl as (p & -> & Hp).
    exists p. split; [done|by apply list_elem_of_In].
  - intros (p & Hp & Hr). exists (live_of p). rewrite <- !list_elem_of_In. split; [|done].
    apply list_elem_of_fmap. by exists p.
Qed.

(** The slots a loop visits hold exactly the entries. *)
Lemma visited s r :
  inv s -> is_live r ->
  (exists p, p ∈ pages s /\ r ∈ take (Z.to_nat (high_water p)) (ranges p)) <-> r ∈ entries s.
Proof.
  intros HI Hl. rewrite elem_of_entries. split; intros (p & Hp & Hr); exists p; (split; [done|]).
  - rewrite <- live_take by (by apply HI). by apply list_elem_of_filter.
  - rewrite <- live_take in Hr by (by apply HI). by apply list_elem_of_filter in Hr as [_ ?].
Qed.

Lemma overlap_iff lo hi r :
  0 < r_base r -> 0 < r_len r -> r_base r + r_len r < 2 ^ 64 ->
  __external_overlap lo hi r = true <-> lo < r_base r + r_len r /\ r_base r < hi.
Proof.
  intros H1 H2 H3. unfold __external_overlap. destruct (Z.eqb_spec (r_base r) 0); [lia|].
  rewrite u64_small, andb_true_iff, !Z.ltb_lt by lia. done.
Qed.

Lemma overlap_null lo hi r : __external_overlap lo hi r = true -> is_live r.
Proof. unfold __external_overlap. by destruct (Z.eqb_spec (r_base r) 0). Qed.

(** Changing page [k] *)
Lemma alter_at (l : list page) f k p : l !! k = Some p -> alter f k l = take k l ++ f p :: drop (S k) l.
Proof.
  revert k. induction l as [|q l IH]; intros [|k] Hk; [done|done|by injection Hk as ->|].
  change (q :: alter f k l = q :: (take k l ++ f p :: drop (S k) l)). f_equal. by apply IH.
Qed.

Lemma entries_at s k p :
  pages s !! k = Some p -> entries s ≡ₚ live_of p ++ concat (live_of <$> take k (pages s) ++ drop (S k) (pages s)).
Proof.
  intros Hk. unfold entries. rewrite <- (take_drop_middle _ _ _ Hk) at 1.
  rewrite !fmap_app, !concat_app. cbn. apply Permutation_app_swap_app.
Qed.

Lemma entries_alter s k p f r n :
  pages s !! k = Some p -> live_of (f p) ≡ₚ r :: live_of p ->
  entries (Registry (alter f k (pages s)) n) ≡ₚ r :: entries s.
Proof.
  intros Hk Hf. rewrite (entries_at _ _ _ Hk). unfold entries. cbn [pages].
  rewrite (alter_at _ _ _ _ Hk), !fmap_app, !concat_app. cbn. rewrite Permutation_app_swap_app, Hf. done.
Qed.

Lemma pages_alter s k p f :
  pages s !! k = Some p -> (forall q, q ∈ pages s -> page_ok q) -> page_ok (f p) ->
  forall q, q ∈ alter f k (pages s) -> page_ok q.
Proof.
  intros Hk Ha Hf q. rewrite (alter_at _ _ _ _ Hk). rewrite elem_of_app, elem_of_cons.
  intros [Hq|[->|Hq]]; [|done|].
  - apply Ha. rewrite <- (take_drop k). set_solver.
  - apply Ha. rewrite <- (take_drop (S k)). set_solver.
Qed.

(** ** Registering *)

Lemma bounds_spec base len :
  0 <= base < 2 ^ 64 -> 0 <= len < 2 ^ 64 ->
  match __external_bounds base len with
  | Some (lo, hi) => lo = base /\ hi = base + len /\ 0 < base /\ 0 < len /\ base + len < 2 ^ 64
  | None => base = 0 \/ len = 0 \/ 2 ^ 64 <= base + len
  end.
Proof.
  intros Hb Hl. unfold __external_bounds, usize_max. repeat case_b; lia.
Qed.

(** What registration promises: the range is taken exactly when it is a proper
    range apart from the ones there, and memory for a page can be had if one is needed. *)
Definition registered (mem : bool) (s : registry) (base len : Z) (prov : external_provenance) (res : bool * registry) : Prop :=
  if fst res then
    inv (snd res) /\ entries (snd res) ≡ₚ Range base len prov :: entries s /\
    0 < base /\ 0 < len /\ base + len < 2 ^ 64 /\ (forall r, r ∈ entries s -> disjoint (Range base len prov) r)
  else
    snd res = s /\
    (base = 0 \/ len = 0 \/ 2 ^ 64 <= base + len \/
     (exists r, r ∈ entries s /\ ~ disjoint (Range base len prov) r) \/ mem = false).

Lemma no_overlap_disjoint s base len prov :
  inv s -> 0 < base -> 0 < len -> base + len < 2 ^ 64 ->
  (forall p, p ∈ pages s -> no_overlap base (base + len) (take (Z.to_nat (high_water p)) (ranges p))) ->
  forall r, r ∈ entries s -> disjoint (Range base len prov) r.
Proof.
  intros HI H1 H2 H3 Hno r Hr. destruct (i_valid _ HI _ Hr) as (Hb & Hl & Hs).
  apply visited in Hr as (p & Hp & Hrt); [|done|unfold is_live; lia].
  specialize (Hno p Hp r Hrt). unfold disjoint. cbn [r_base r_len].
  destruct (Z.le_gt_cases (base + len) (r_base r)); [by left|]. right.
  destruct (Z.le_gt_cases (r_base r + r_len r) base); [done|].
  rewrite (proj2 (overlap_iff base (base + len) r Hb Hl Hs)) in Hno; [done|lia].
Qed.

Section Theorems.
Context (page_size : Z).

(** A fresh page holding one range *)
Lemma new_page_spec r :
  is_live r ->
  exists p, __external_new_page page_size true = Some p /\
    page_ok (put r 0 (high_water p) p) /\ live_of (put r 0 (high_water p) p) = [r].
Proof.
  intros Hr. unfold __external_new_page, header, sizeof_range. cbn [negb].
  set (len := if page_size <? 32 + 24 then 32 + 24 else page_size). assert (Hlen : 32 + 24 <= len) by (subst len; case_b).
  assert (Hcap : 1 <= (len - 32) / 24) by (apply Z.div_le_lower_bound; lia).
  set (cap := (len - 32) / 24) in *. eexists. split; [done|]. cbn [high_water].
  destruct (Z.to_nat cap) as [|n] eqn:En; [lia|].
  assert (Hlive : live_of (put r 0 1 (Page cap 0 1 (replicate (S n) null_range))) = [r]).
  { unfold live_of, put. cbn [ranges replicate]. change (<[0%nat:=r]> (null_range :: replicate n null_range))
      with (r :: replicate n null_range). rewrite filter_cons, decide_True by done. f_equal.
    apply live_none. by intros x [-> _]%elem_of_replicate. }
  split; [|done]. split.
  - cbn. rewrite length_replicate. lia.
  - cbn. lia.
  - cbn [put ranges high_water]. intros [|i] x Hx Hi; [lia|]. by apply lookup_replicate in Hx as [-> _].
  - intros _. exists r. split; [done|done].
  - rewrite Hlive. done.
Qed.

Lemma register_slow_spec mem s base len prov :
  inv s -> 0 < base -> 0 < len -> base + len < 2 ^ 64 ->
  registered mem s base len prov (__external_register_slow page_size mem s (Range base len prov) base (base + len)).
Proof.
  intros HI H1 H2 H3. unfold __external_register_slow. set (r := Range base len prov).
  assert (Hlive : is_live r) by (unfold is_live; cbn; lia).
  pose proof (scan_pages_spec base (base + len) (pages s) (pages s) [] (Scan None None) eq_refl (i_pages _ HI) I I) as Hsc.
  cbn [length] in Hsc. destruct (scan_pages _ _ _ _ _) as [[v t]|].
  2:{ destruct Hsc as (p & x & Hp & Hx & Ho). split; [done|]. right. right. right. left.
      assert (Hxe : x ∈ entries s) by (apply visited; [done|by eapply overlap_null|by exists p]).
      exists x. split; [done|]. destruct (i_valid _ HI _ Hxe) as (Hb & Hl & Hs).
      apply (overlap_iff base (base + len) x Hb Hl Hs) in Ho. unfold disjoint. cbn [r_base r_len r]. lia. }
  destruct Hsc as (Hno & Hv & Ht). cbn [vacant tail_vacant] in *.
  pose proof (no_overlap_disjoint s base len prov HI H1 H2 H3 Hno) as Hd. fold r in Hd.
  assert (Hadd : forall s', entries s' ≡ₚ r :: entries s -> (forall p, p ∈ pages s' -> page_ok p) ->
    count s' = count s + 1 -> registered mem s base len prov (true, s')).
  { intros s' He Hp Hc. split_and!; try done. by apply (inv_add s s' r). }
  destruct v as [[k i]|]; [|destruct t as [k|]].
  - destruct Hv as (p & r0 & Hk & Hi & E0 & Hlt).
    destruct (put_spec p i r) as [Hok Hperm]; [by eapply i_pages, list_elem_of_lookup_2|by right|done| |].
    { intros r1 Hr1. by rewrite Hi in Hr1; injection Hr1 as <-. }
    rewrite (proj2 (Z.eqb_neq (Z.of_nat i) (high_water p))) in Hok, Hperm by lia. apply Hadd; [| |done].
    + by apply (entries_alter s k p).
    + by apply (pages_alter s k p); [done|by apply i_pages|].
  - destruct Ht as (p & Hk & Hlt).
    assert (HP : page_ok p) by (by eapply i_pages, list_elem_of_lookup_2). pose proof (po_hw _ HP) as Hhw.
    destruct (put_spec p (Z.to_nat (high_water p)) r) as [Hok Hperm]; [done|left; lia|done| |].
    { intros r1 Hr1. apply (po_above _ HP _ _ Hr1). lia. }
    rewrite (proj2 (Z.eqb_eq _ (high_water p))) in Hok, Hperm by lia. apply Hadd; [| |done].
    + by apply (entries_alter s k p).
    + by apply (pages_alter s k p); [done|by apply i_pages|].
  - destruct mem; [|split; [done|by do 4 right]].
    destruct (new_page_spec r Hlive) as (p & -> & Hok & El). apply Hadd; [| |done].
    + unfold entries. cbn [pages fmap list_fmap concat]. by rewrite El.
    + cbn [pages]. intros q [->|Hq]%elem_of_cons; [done|by apply HI].
Qed.

(** The first page takes the range directly when nothing is registered. *)
Lemma register_fast_spec s p ps r :
  inv s -> pages s = p :: ps -> count s = 0 -> is_live r ->
  let p' := Page (capacity p) 1 1 (<[0%nat := r]> (ranges p)) in
  page_ok p' /\ entries (Registry (p' :: ps) 1) ≡ₚ r :: entries s.
Proof.
  intros HI Hpg Hc Hr p'. assert (HP : page_ok p) by (apply HI; rewrite Hpg; set_solver).
  assert (Hnil : entries s = []) by (apply nil_length_inv; pose proof (i_count _ HI); lia).
  assert (Hl : live_of p = []).
  { destruct (live_of p) as [|x l] eqn:El; [done|]. exfalso.
    assert (x ∈ entries s) as Hx by (apply elem_of_entries; exists p; rewrite Hpg, El; set_solver).
    rewrite Hnil in Hx. set_solver. }
  assert (Hz : high_water p = 0).
  { destruct (Z.eq_dec (high_water p) 0) as [E|E]; [done|]. pose proof (po_hw _ HP).
    destruct (po_top _ HP) as (x & Hx & Hxl); [lia|].
    assert (x ∈ live_of p) as H0 by (apply list_elem_of_filter; split; [done|by eapply list_elem_of_lookup_2]).
    rewrite Hl in H0. set_solver. }
  destruct (put_spec p 0 r) as [Hok Hp]; [done| |done| |].
  - left. pose proof (po_cap _ HP). lia.
  - intros r0 Hr0. apply (po_above _ HP _ _ Hr0). lia.
  - assert (Eu : used p = 0) by (rewrite (po_used _ HP), Hl; done).
    assert (Ep : put r 0 (if Z.of_nat 0 =? high_water p then high_water p + 1 else high_water p) p = p')
      by (unfold put, p'; rewrite Eu, Hz; done).
    rewrite Ep in Hok, Hp. split; [exact Hok|].
    unfold entries in *. cbn [pages]. rewrite Hpg in *. cbn in *. by rewrite Hp.
Qed.

(** C36. Registering takes the range exactly when it is a proper range that overlaps
    no registered one (or fails for lack of memory), adds that range and no
    other to the registered ones, keeps the pages' bookkeeping, and changes
    nothing when it fails. *)
Theorem external_register mem s base len prov :
  inv s -> 0 <= base < 2 ^ 64 -> 0 <= len < 2 ^ 64 ->
  registered mem s base len prov (register_external page_size mem s base len prov).
Proof.
  intros HI Hb Hl. unfold register_external. pose proof (bounds_spec base len Hb Hl) as Hbd.
  destruct (__external_bounds base len) as [[lo hi]|].
  2:{ split; [done|]. cbn. tauto. }
  destruct Hbd as (-> & -> & H1 & H2 & H3).
  destruct (pages s) as [|p ps] eqn:Hpg; [by apply register_slow_spec|].
  destruct (Z.eqb_spec (count s) 0) as [E|E]; [|by apply register_slow_spec].
  set (r := Range base len prov). assert (Hlive : is_live r) by (unfold is_live; cbn; lia).
  destruct (register_fast_spec s p ps r HI Hpg E Hlive) as [Hok Hent].
  assert (Hnil : entries s = []) by (apply nil_length_inv; pose proof (i_count _ HI); lia).
  assert (Hd : forall r', r' ∈ entries s -> disjoint r r') by (rewrite Hnil; set_solver).
  split_and!; try done. apply (inv_add s _ r); try done; [|cbn; lia].
  cbn [pages]. intros q [->|Hq]%elem_of_cons; [done|apply HI; rewrite Hpg; set_solver].
Qed.
End Theorems.

(** ** Unregistering *)

Lemma lower_spec rs : forall hw, (hw <= length rs)%nat ->
  (lower rs hw <= hw)%nat /\
  (forall i r, rs !! i = Some r -> (lower rs hw <= i < hw)%nat -> r_base r = 0) /\
  ((0 < lower rs hw)%nat -> exists r, rs !! (lower rs hw - 1)%nat = Some r /\ is_live r).
Proof.
  induction hw as [|h IH]; intros Hle; cbn [lower]; [split_and!; intros; lia|].
  destruct (lookup_lt_is_Some_2 rs h) as [r Hr]; [lia|]. rewrite Hr.
  destruct (Z.eqb_spec (r_base r) 0) as [E|E].
  - destruct IH as (H1 & H2 & H3); [lia|]. split_and!; [lia| |done].
    intros i x Hx Hi. destruct (decide (i = h)) as [->|Hne]; [congruence|]. apply (H2 i x Hx). lia.
  - split_and!; [lia|intros; lia|]. intros _. exists r. split; [|done]. by replace (S h - 1)%nat with h by lia.
Qed.

(** Freeing slot [i] of a page *)
Definition clear (i : nat) (p : page) : page :=
  let rs' := <[i := null_range]> (ranges p) in
  let hw := if Z.of_nat i + 1 =? high_water p then Z.of_nat (lower rs' (Z.to_nat (high_water p))) else high_water p in
  Page (capacity p) (used p - 1) hw rs'.

Lemma clear_spec p i r :
  page_ok p -> ranges p !! i = Some r -> is_live r -> Z.of_nat i < high_water p ->
  page_ok (clear i p) /\ live_of p ≡ₚ r :: live_of (clear i p).
Proof.
  intros [[Hc1 Hc2] Hh Ha Ht Hu] Hi Hr Hlt.
  destruct (live_insert (ranges p) i r null_range Hi) as (R & H1 & H2).
  rewrite live_one, (proj2 (Z.eqb_neq (r_base r) 0) Hr) in H1. rewrite live_one in H2. cbn [app Z.eqb null_range r_base] in H1, H2.
  assert (Hp : live_of p ≡ₚ r :: live_of (clear i p)) by (unfold live_of, clear; cbn [ranges]; by rewrite H2, H1).
  split; [|done]. set (rs' := <[i := null_range]> (ranges p)).
  destruct (lower_spec rs' (Z.to_nat (high_water p))) as (L1 & L2 & L3); [subst rs'; rewrite length_insert; lia|].
  split; unfold clear; cbn [capacity used high_water ranges]; fold rs'.
  - subst rs'. by rewrite length_insert.
  - case_b.
  - intros j x Hj Hge. destruct (decide (j = i)) as [->|Hne].
    { subst rs'. rewrite list_lookup_insert_eq in Hj by (by eapply lookup_lt_Some). by injection Hj as <-. }
    destruct (Z.of_nat i + 1 =? high_water p).
    + destruct (Z.le_gt_cases (high_water p) (Z.of_nat j)); [|apply (L2 j x Hj); lia].
      subst rs'. rewrite list_lookup_insert_ne in Hj by done. by apply (Ha j).
    + subst rs'. rewrite list_lookup_insert_ne in Hj by done. by apply (Ha j).
  - destruct (Z.eqb_spec (Z.of_nat i + 1) (high_water p)) as [E|E]; intros Hpos.
    + rewrite <- (Nat2Z.id (_ - 1)%nat) in L3. replace (Z.to_nat (Z.of_nat _ - 1)) with
        (lower rs' (Z.to_nat (high_water p)) - 1)%nat by lia. rewrite Nat2Z.id in L3. apply L3. lia.
    + destruct (Ht Hpos) as (x & Hx & Hxl). exists x. split; [|done]. subst rs'. rewrite list_lookup_insert_ne; [done|lia].
  - change (used p - 1 = Z.of_nat (length (live_of (clear i p)))). rewrite Hu, Hp. cbn [length]. lia.
Qed.

Lemma unregister_page_spec base len p rs : forall i,
  match unregister_page base len p i rs with
  | None => forall r, r ∈ rs -> r_base r <> base
  | Some None => exists r, r ∈ rs /\ r_base r = base /\ r_len r <> len
  | Some (Some p') => exists j r, rs !! j = Some r /\ r_base r = base /\ r_len r = len /\ p' = clear (i + j) p
  end.
Proof.
  induction rs as [|r rs IH]; intros i; cbn [unregister_page]; [intros r Hr; set_solver|].
  destruct (Z.eqb_spec (r_base r) base) as [E|E]; cbn [negb].
  - destruct (Z.eqb_spec (r_len r) len) as [E'|E']; cbn [negb].
    + exists 0%nat, r. split_and!; try done. by rewrite Nat.add_0_r.
    + exists r. split; [set_solver|done].
  - specialize (IH (S i)). destruct (unregister_page base len p (S i) rs) as [[p'|]|].
    + destruct IH as (j & x & Hj & H1 & H2 & ->). exists (S j), x. split_and!; try done. f_equal. lia.
    + destruct IH as (x & Hx & H1). exists x. split; [set_solver|done].
    + intros x [->|Hx]%elem_of_cons; [done|by apply IH].
Qed.

Lemma unregister_pages_spec base len : forall ps,
  match unregister_pages base len ps with
  | None =>
      (forall p r, p ∈ ps -> r ∈ take (Z.to_nat (high_water p)) (ranges p) -> r_base r <> base) \/
      exists p r, p ∈ ps /\ r ∈ take (Z.to_nat (high_water p)) (ranges p) /\ r_base r = base /\ r_len r <> len
  | Some ps' =>
      exists k p i r, ps !! k = Some p /\ ranges p !! i = Some r /\ Z.of_nat i < high_water p /\
        r_base r = base /\ r_len r = len /\ ps' = alter (clear i) k ps
  end.
Proof.
  induction ps as [|p ps IH]; cbn [unregister_pages]; [left; set_solver|].
  pose proof (unregister_page_spec base len p (take (Z.to_nat (high_water p)) (ranges p)) 0) as Hp.
  destruct (unregister_page _ _ _ _ _) as [[p'|]|].
  - destruct Hp as (j & r & Hj & H1 & H2 & ->). pose proof (lookup_lt_Some _ _ _ Hj) as Hlt. rewrite length_take in Hlt.
    rewrite lookup_take_lt in Hj by lia. exists 0%nat, p, j, r. split_and!; try done. lia.
  - destruct Hp as (r & Hr & H1). right. exists p, r. split; [set_solver|done].
  - destruct (unregister_pages base len ps) as [ps'|]; cbn [option_map].
    + destruct IH as (k & q & i & r & Hk & Hi & Hlt & H1 & H2 & ->). exists (S k), q, i, r. split_and!; done.
    + destruct IH as [IH|(q & r & Hq & Hr & H1)]; [left|right].
      * intros q r [->|Hq]%elem_of_cons Hr; [by apply Hp|by eapply IH].
      * exists q, r. split; [set_solver|done].
Qed.

(** Two registered ranges with the same base are the same. *)
Lemma entries_base s r r' : inv s -> r ∈ entries s -> r' ∈ entries s -> r_base r = r_base r' -> r = r'.
Proof.
  intros HI Hr Hr' E. destruct (i_valid _ HI _ Hr) as (_ & H1 & _), (i_valid _ HI _ Hr') as (_ & H2 & _).
  apply list_elem_of_lookup in Hr as [i Hi], Hr' as [j Hj].
  destruct (decide (i = j)) as [->|Hne]; [congruence|]. destruct (i_apart _ HI i j r r' Hi Hj Hne); lia.
Qed.

(** What unregistering promises *)
Definition unregistered (s : registry) (base len : Z) (res : bool * registry) : Prop :=
  if fst res then
    inv (snd res) /\ exists r, r_base r = base /\ r_len r = len /\ entries s ≡ₚ r :: entries (snd res)
  else
    snd res = s /\ forall r, r ∈ entries s -> ~ (r_base r = base /\ r_len r = len).

Lemma unregister_clear s k p i r base len :
  inv s -> base <> 0 -> pages s !! k = Some p -> ranges p !! i = Some r -> Z.of_nat i < high_water p ->
  r_base r = base -> r_len r = len ->
  unregistered s base len (true, Registry (alter (clear i) k (pages s)) (count s - 1)).
Proof.
  intros HI Hb Hk Hi Hlt E1 E2. assert (HP : page_ok p) by (by eapply i_pages, list_elem_of_lookup_2).
  destruct (clear_spec p i r HP Hi) as [Hok Hperm]; [unfold is_live; congruence|done|].
  assert (Hent : entries s ≡ₚ r :: entries (Registry (alter (clear i) k (pages s)) (count s - 1))).
  { rewrite (entries_at _ _ _ Hk). unfold entries. cbn [pages].
    rewrite (alter_at _ _ _ _ Hk), !fmap_app, !concat_app, Hperm. cbn. apply perm_skip, Permutation_app_swap_app. }
  split; [|by exists r]. apply (inv_sub s _ r); try done. cbn [snd pages].
  by apply (pages_alter s k p); [done|by apply i_pages|].
Qed.

Lemma unregister_mismatch s base len r :
  inv s -> r ∈ entries s -> r_base r = base -> r_len r <> len -> unregistered s base len (false, s).
Proof.
  intros HI Hr E1 E2. split; [done|]. intros x Hx [E3 E4]. apply E2.
  rewrite (entries_base s r x HI Hr Hx) by congruence. done.
Qed.

Lemma unregister_slow_spec s base len :
  inv s -> base <> 0 -> unregistered s base len (__external_unregister_slow s base len).
Proof.
  intros HI Hb. unfold __external_unregister_slow.
  pose proof (unregister_pages_spec base len (pages s)) as Hp. destruct (unregister_pages base len (pages s)) as [ps'|].
  - destruct Hp as (k & p & i & r & Hk & Hi & Hlt & H1 & H2 & ->). by eapply unregister_clear.
  - destruct Hp as [Hno|(p & r & Hp & Hr & H1 & H2)].
    + split; [done|]. intros r Hr [E _]. apply visited in Hr as (p & Hp & Hrt); [|done|unfold is_live; congruence].
      by apply (Hno p r).
    + eapply unregister_mismatch; try done. apply visited; [done|unfold is_live; congruence|by exists p].
Qed.

(** Unregistering succeeds exactly when a range with that base and that length is
    registered, takes out that one only, keeps the bookkeeping of the pages, and
    changes nothing when it fails. *)
Theorem external_unregister s base len :
  inv s -> unregistered s base len (unregister_external s base len).
Proof.
  intros HI. unfold unregister_external.
  destruct ((base =? 0) || (len =? 0)) eqn:E0.
  { split; [done|]. intros r Hr [E1 E2]. destruct (i_valid _ HI _ Hr) as (H1 & H2 & _).
    apply orb_true_iff in E0 as [E0|E0]; apply Z.eqb_eq in E0; lia. }
  apply orb_false_iff in E0 as [Eb _]. apply Z.eqb_neq in Eb.
  destruct (pages s) as [|p ps] eqn:Hpg; [by apply unregister_slow_spec|].
  destruct (ranges p) as [|r rs] eqn:Hrs; [by apply unregister_slow_spec|].
  destruct (negb (high_water p =? 0) && (r_base r =? base)) eqn:Ef; [|by apply unregister_slow_spec].
  apply andb_true_iff in Ef as [Hhw Er]. apply negb_true_iff, Z.eqb_neq in Hhw. apply Z.eqb_eq in Er.
  assert (HP : page_ok p) by (apply HI; rewrite Hpg; set_solver). pose proof (po_hw _ HP) as Hh.
  assert (H0 : ranges p !! 0%nat = Some r) by (by rewrite Hrs).
  destruct (Z.eqb_spec (r_len r) len) as [El|El]; cbn [negb].
  - pose proof (unregister_clear s 0 p 0 r base len HI Eb ltac:(by rewrite Hpg) H0 ltac:(lia) Er El) as Hu.
    rewrite Hpg in Hu. cbn [alter list_alter] in Hu. unfold clear in Hu. rewrite Hrs in Hu. cbn [insert list_insert] in Hu.
    destruct (Z.eqb_spec (high_water p) 1) as [E1|E1]; [rewrite E1 in Hu|rewrite (proj2 (Z.eqb_neq _ _)) in Hu by lia]; exact Hu.
  - eapply unregister_mismatch; try done. apply elem_of_entries. exists p. rewrite Hpg. split; [set_solver|].
    apply list_elem_of_filter. split; [unfold is_live; congruence|by eapply list_elem_of_lookup_2].
Qed.

(** ** Queries *)

Lemma existsb_visited s (f : range -> bool) :
  inv s -> (forall r, f r = true -> is_live r) ->
  existsb (fun p => existsb f (take (Z.to_nat (high_water p)) (ranges p))) (pages s) = true <->
  exists r, r ∈ entries s /\ f r = true.
Proof.
  intros HI Hf. rewrite existsb_exists. setoid_rewrite existsb_exists. split.
  - intros (p & Hp & r & Hr & E). exists r. split; [|done]. apply visited; [done|by apply Hf|].
    exists p. by rewrite !list_elem_of_In.
  - intros (r & Hr & E). apply visited in Hr as (p & Hp & Hr); [|done|by apply Hf].
    exists p. rewrite <- list_elem_of_In. split; [done|]. exists r. by rewrite <- list_elem_of_In.
Qed.

Lemma find_base_spec s base :
  inv s -> base <> 0 ->
  match find_base s base with
  | Some r => r ∈ entries s /\ r_base r = base
  | None => forall r, r ∈ entries s -> r_base r <> base
  end.
Proof.
  intros HI Hb. unfold find_base. set (l := concat _).
  assert (Hl : forall r, is_live r -> r ∈ l <-> r ∈ entries s).
  { intros r Hr. rewrite <- visited by done. subst l. rewrite list_elem_of_In, in_concat. split.
    - intros (x & Hx & Hrx). apply list_elem_of_In, list_elem_of_fmap in Hx as (p & -> & Hp).
      exists p. split; [done|by apply list_elem_of_In].
    - intros (p & Hp & Hrp). eexists. split; [|by apply list_elem_of_In].
      apply list_elem_of_In, list_elem_of_fmap. by exists p. }
  destruct (list_find _ l) as [[i r]|] eqn:E; cbn.
  - apply list_find_Some in E as (Hi & Hr & _). split; [|done]. apply Hl; [unfold is_live; congruence|].
    by eapply list_elem_of_lookup_2.
  - apply list_find_None in E. rewrite Forall_forall in E. intros r Hr E1.
    apply (E r); [|done]. apply Hl; [unfold is_live; congruence|done].
Qed.

(** Queries answer what is registered: a base is present, an address is within,
    and the size and provenance of a base are those of the one range registered
    there; a base that is not registered has size 0 and no provenance. *)
Theorem external_queries s base :
  inv s -> 0 <= base < 2 ^ 64 ->
  (external_is_present s base = true <-> exists r, r ∈ entries s /\ r_base r = base) /\
  (external_within s base = true <-> exists r, r ∈ entries s /\ r_base r <= base < r_base r + r_len r) /\
  (forall r, r ∈ entries s -> r_base r = base ->
    external_query_size s base = r_len r /\ external_query_provenance s base = r_prov r) /\
  (~ (exists r, r ∈ entries s /\ r_base r = base) ->
    external_query_size s base = 0 /\ external_query_provenance s base = p_none).
Proof.
  intros HI Hb. unfold external_is_present, external_within, external_query_size, external_query_provenance.
  destruct (Z.eqb_spec base 0) as [E0|E0].
  { split_and!; [split; [done|]|split; [done|]| |done]; intros; exfalso.
    - destruct H as (r & Hr & E). pose proof (i_valid _ HI _ Hr). lia.
    - destruct H as (r & Hr & E). pose proof (i_valid _ HI _ Hr). lia.
    - pose proof (i_valid _ HI _ H). lia. }
  pose proof (find_base_spec s base HI E0) as Hf. split_and!.
  - rewrite existsb_visited; [|done|intros r E; apply Z.eqb_eq in E; unfold is_live; congruence].
    by setoid_rewrite Z.eqb_eq.
  - rewrite existsb_visited.
    + split; intros (r & Hr & E); exists r; (split; [done|]); destruct (i_valid _ HI _ Hr) as (H1 & H2 & H3).
      * rewrite !andb_true_iff, Z.leb_le, Z.ltb_lt in E. destruct E as [[_ E1] E2]. rewrite u64_small in E2 by lia. lia.
      * rewrite !andb_true_iff, negb_true_iff, Z.eqb_neq, Z.leb_le, Z.ltb_lt, u64_small by lia. lia.
    + done.
    + intros r E. apply andb_true_iff in E as [[E _]%andb_true_iff _]. apply negb_true_iff, Z.eqb_neq in E. done.
  - intros r Hr E. destruct (find_base s base) as [x|].
    + destruct Hf as [Hx Ex]. by rewrite (entries_base s x r) by congruence.
    + by destruct (Hf r Hr).
  - intros Hno. destruct (find_base s base) as [x|]; [|done]. destruct Hno. by exists x.
Qed.

(** ** Witnesses *)

(** Two registered ranges *)
Definition demo1 : registry :=
  snd (__external_register_slow 4096 true (Registry [] 0) (Range 8192 4096 p_fixed) 8192 (8192 + 4096)).
Definition demo : registry :=
  snd (__external_register_slow 4096 true demo1 (Range 65536 100 p_huge) 65536 (65536 + 100)).

Lemma register_slow_inv s base len prov :
  inv s -> 0 < base -> 0 < len -> base + len < 2 ^ 64 ->
  inv (snd (__external_register_slow 4096 true s (Range base len prov) base (base + len))).
Proof.
  intros HI H1 H2 H3. pose proof (register_slow_spec 4096 true s base len prov HI H1 H2 H3) as H.
  unfold registered in H. destruct (fst _); [by destruct H|destruct H as [-> _]; done].
Qed.

Lemma demo_inv : inv demo.
Proof. apply register_slow_inv; [apply register_slow_inv; [apply inv_empty|done..]|done..]. Qed.

(** The second range is registered, overlaps what is tried next, and is freed. *)
Lemma external_register_witness :
  fst (register_external 4096 true demo 65600 8 p_caller) = false /\
  registered true demo 200000 8 p_caller (register_external 4096 true demo 200000 8 p_caller) /\
  fst (register_external 4096 true demo 200000 8 p_caller) = true.
Proof.
  split_and!; [vm_compute; reflexivity| |vm_compute; reflexivity].
  apply (external_register 4096 true demo 200000 8 p_caller); [apply demo_inv|done|done].
Defined.

Lemma external_unregister_witness :
  unregistered demo 65536 100 (unregister_external demo 65536 100) /\
  fst (unregister_external demo 65536 100) = true /\ fst (unregister_external demo 65536 99) = false.
Proof.
  split_and!; [|vm_compute; reflexivity|vm_compute; reflexivity].
  apply external_unregister, demo_inv.
Defined.

Lemma external_queries_witness :
  external_within demo 65599 = true /\ exists r, r ∈ entries demo /\ r_base r <= 65599 < r_base r + r_len r.
Proof.
  assert (E : external_within demo 65599 = true) by (vm_compute; reflexivity). split; [exact E|].
  destruct (external_queries demo 65599 demo_inv ltac:(done)) as (_ & H & _). by apply H.
Defined.
