(* ===== verification/Tier.v ===== *)
(** * Size-class tiers (src/src/arena.hpp, [__arena::__tier])

    A tier keeps its sheets in an index sorted by address, a bitmap of several
    words telling which of them may have space, a hint at the sheet that last
    served a request, and the list of nodes that own the sheets.  Inserting a
    sheet shifts index, bitmap and hint together; so does removing one. *)

From S2P Require Import Prelude.
From S2P Require Import Config.
From S2P Require Import Tlsf.
From S2P Require Import Tcache.

(** [__range]: the bounds of a sheet and the node that owns it *)
Record trange := TRange { lo : Z; hi : Z; nd : Z }.

Section Tier.
(** [MaxSheets]; the bounds of a sheet, its [addr()] and [addr_end()]; the
    address of the embedded [head] node *)
Context (MaxSheets : Z) (addr addr_end : Z -> Z) (head : Z).

Definition __max_sheets : Z := MaxSheets.
Definition __no_hit : Z := __max_sheets.
Definition __detail_words : Z := (MaxSheets + 63) / 64.

(** The fields of [__tier] but its cache, see [Tcache]; [links] is the memory of
    the nodes, [nd] at offset 0, [prev] at 8 and [nxt] at 16. *)
Record tier := Tier {
  links : zmap;
  tail : Z;
  __idx : gmap Z trange;
  __count : Z;
  __space_mask : zmap;
  __last_hit : Z;
  __dealloc_count : Z
}.

Definition entry (ix : gmap Z trange) (i : Z) : trange := default (TRange 0 0 0) (ix !! i).

(** ** The bitmap *)

Definition __mask_get (m : zmap) (pos : Z) : bool :=
  negb (Z.land (Z.shiftr (rd m (Z.shiftr pos 6)) (Z.land pos 63)) 1 =? 0).
Definition __mask_set (m : zmap) (pos : Z) : zmap :=
  wr m (Z.shiftr pos 6) (bit_set (rd m (Z.shiftr pos 6)) (Z.land pos 63)).
Definition __mask_clear (m : zmap) (pos : Z) : zmap :=
  wr m (Z.shiftr pos 6) (bit_clr (rd m (Z.shiftr pos 6)) (Z.land pos 63)).

(** [for ( i = word + 1; i < __detail_words; ++i )], [n] words left *)
Fixpoint insert_carry (m : zmap) (c i : Z) (n : nat) : zmap :=
  match n with
  | O => m
  | S n =>
      let nc := Z.land (Z.shiftr (rd m i) 63) 1 in
      insert_carry (wr m i (Z.lor (u64 (Z.shiftl (rd m i) 1)) c)) nc (i + 1) n
  end.

Definition __mask_insert (m : zmap) (pos : Z) (value : bool) : zmap :=
  let word := Z.shiftr pos 6 in
  let bit := Z.land pos 63 in
  let w := rd m word in
  let carry := Z.land (Z.shiftr w 63) 1 in
  let lo_mask := if bit =? 0 then 0 else Z.shiftl 1 bit - 1 in
  let lo := Z.land w lo_mask in
  let hi_keep_mask := if bit =? 63 then 0 else u64 (Z.lnot (Z.shiftl 1 (bit + 1) - 1)) in
  let hi := Z.land (u64 (Z.shiftl w 1)) hi_keep_mask in
  let m := wr m word (Z.lor (Z.lor lo hi) (Z.shiftl (if value then 1 else 0) bit)) in
  insert_carry m carry (word + 1) (Z.to_nat (__detail_words - (word + 1))).

Fixpoint remove_carry (m : zmap) (i : Z) (n : nat) : zmap :=
  match n with
  | O => m
  | S n =>
      let next_carry := if i + 1 <? __detail_words then Z.land (rd m (i + 1)) 1 else 0 in
      remove_carry (wr m i (Z.lor (Z.shiftr (rd m i) 1) (Z.shiftl next_carry 63))) (i + 1) n
  end.

Definition __mask_remove (m : zmap) (pos : Z) : zmap :=
  let word := Z.shiftr pos 6 in
  let bit := Z.land pos 63 in
  let carry_in := if word + 1 <? __detail_words then Z.land (rd m (word + 1)) 1 else 0 in
  let w := rd m word in
  let lo_mask := if bit =? 0 then 0 else Z.shiftl 1 bit - 1 in
  let lo := Z.land w lo_mask in
  let hi_keep_mask :=
    if bit =? 0 then Z.shiftl 1 63 - 1 else Z.land (Z.shiftl 1 63 - 1) (u64 (Z.lnot (Z.shiftl 1 bit - 1))) in
  let hi := Z.land (Z.shiftr w 1) hi_keep_mask in
  let m := wr m word (Z.lor (Z.lor lo hi) (Z.shiftl carry_in 63)) in
  remove_carry m (word + 1) (Z.to_nat (__detail_words - (word + 1))).

(** ** The operations *)

(** [init] writes nothing into the index. *)
Definition init (t : tier) : tier :=
  Tier (wr (wr (wr (links t) (head + 0) 0) (head + 8) 0) (head + 16) 0) 0 (__idx t) 0
    (foldl (fun m i => wr m i 0) (__space_mask t) (seqZ 0 __detail_words)) __no_hit 0.

Definition set_links (t : tier) (m : zmap) (tl : Z) : tier :=
  Tier m tl (__idx t) (__count t) (__space_mask t) (__last_hit t) (__dealloc_count t).
Definition set_mask (t : tier) (m : zmap) : tier :=
  Tier (links t) (tail t) (__idx t) (__count t) m (__last_hit t) (__dealloc_count t).

Definition link_at_tail (t : tier) (n : Z) : tier :=
  let m := wr (wr (links t) (n + 8) (tail t)) (n + 16) 0 in
  let m := if tail t =? 0 then m else wr m (tail t + 16) n in
  set_links t m n.

Definition unlink_node (t : tier) (n : Z) : tier :=
  let m := links t in
  let m := if rd m (n + 8) =? 0 then m else wr m (rd m (n + 8) + 16) (rd m (n + 16)) in
  let m := if rd m (n + 16) =? 0 then m else wr m (rd m (n + 16) + 8) (rd m (n + 8)) in
  set_links t m (if n =? tail t then rd m (n + 8) else tail t).

(** [while ( pos < __count and __idx[pos].lo < lo ) ++pos;] *)
Fixpoint scan_pos (ix : gmap Z trange) (a pos : Z) (n : nat) : Z :=
  match n with
  | O => pos
  | S n => if lo (entry ix pos) <? a then scan_pos ix a (pos + 1) n else pos
  end.

(** [for ( i = __count; i > pos; --i ) __idx[i] = __idx[i - 1];] *)
Fixpoint shift_right (ix : gmap Z trange) (i : Z) (n : nat) : gmap Z trange :=
  match n with
  | O => ix
  | S n => shift_right (<[i := entry ix (i - 1)]> ix) (i - 1) n
  end.

(** [for ( i = pos; i + 1 < __count; ++i ) __idx[i] = __idx[i + 1];] *)
Fixpoint shift_left (ix : gmap Z trange) (i : Z) (n : nat) : gmap Z trange :=
  match n with
  | O => ix
  | S n => shift_left (<[i := entry ix (i + 1)]> ix) (i + 1) n
  end.

Definition register_sheet (t : tier) (n : Z) : Z * tier :=
  if __max_sheets <=? __count t then (__max_sheets, t) else
  let lo := addr (rd (links t) (n + 0)) in
  let hi := addr_end (rd (links t) (n + 0)) in
  let pos := scan_pos (__idx t) lo 0 (Z.to_nat (__count t)) in
  let ix := shift_right (__idx t) (__count t) (Z.to_nat (__count t - pos)) in
  let ix := <[pos := TRange lo hi n]> ix in
  let m := __mask_insert (__space_mask t) pos true in
  let lh :=
    if negb (__last_hit t =? __no_hit) && (pos <=? __last_hit t) && (__last_hit t + 1 <? __max_sheets)
    then __last_hit t + 1 else __last_hit t in
  (pos, Tier (links t) (tail t) ix (__count t + 1) m lh (__dealloc_count t)).

Definition unregister (t : tier) (pos : Z) : tier :=
  if __count t <=? pos then t else
  let ix := shift_left (__idx t) pos (Z.to_nat (__count t - 1 - pos)) in
  let m := __mask_remove (__space_mask t) pos in
  let lh :=
    if __last_hit t =? __no_hit then __last_hit t else
    if pos =? __last_hit t then __no_hit else
    if pos <? __last_hit t then __last_hit t - 1 else __last_hit t in
  Tier (links t) (tail t) ix (__count t - 1) m lh (__dealloc_count t).

(** The binary search; [None] when the fuel does not reach the end. *)
Fixpoint find_loop (ix : gmap Z trange) (a l h : Z) (fuel : nat) : option Z :=
  match fuel with
  | O => None
  | S fuel =>
      if h <? l then Some (-1) else
      let mid := l + Z.shiftr (h - l) 1 in
      if a <? lo (entry ix mid) then find_loop ix a l (mid - 1) fuel else
      if hi (entry ix mid) <=? a then find_loop ix a (mid + 1) h fuel else Some mid
  end.

Definition find_range (t : tier) (a : Z) : option Z :=
  find_loop (__idx t) a 0 (__count t - 1) (S (Z.to_nat (__count t))).

Definition mark_exhausted (t : tier) (pos : Z) : tier := set_mask t (__mask_clear (__space_mask t) pos).
Definition mark_available (t : tier) (pos : Z) : tier := set_mask t (__mask_set (__space_mask t) pos).

Definition has_space (t : tier) : bool :=
  existsb (fun i => negb (rd (__space_mask t) i =? 0)) (seqZ 0 __detail_words).

Definition __default_tombstone_sweep_interval : Z := 64.

Definition bump_dealloc (t : tier) : bool * tier :=
  let c := u32 (__dealloc_count t + 1) in
  (__default_tombstone_sweep_interval <=? c,
   Tier (links t) (tail t) (__idx t) (__count t) (__space_mask t) (__last_hit t) c).

Definition empty (t : tier) : bool := rd (links t) (head + 0) =? 0.
Definition zeroed (t : tier) : bool := (rd (links t) (head + 0) =? 0) && (rd (links t) (head + 16) =? 0).

(** [ret += fn(...)] over the sheets in index order, [usize] values; the sheet of
    a node is the [nd] it holds. *)
Definition for_each (t : tier) (fn : Z -> Z) : Z :=
  foldl (fun ret i =>
    let n := nd (entry (__idx t) i) in
    if negb (n =? 0) && negb (rd (links t) (n + 0) =? 0) then u64 (ret + fn (rd (links t) (n + 0))) else ret)
    0 (seqZ 0 (__count t)).

Definition for_each_void {X} (t : tier) (fn : X -> Z -> X) (x : X) : X :=
  foldl (fun x i =>
    let n := nd (entry (__idx t) i) in
    if negb (n =? 0) && negb (rd (links t) (n + 0) =? 0) then fn x (rd (links t) (n + 0)) else x)
    x (seqZ 0 (__count t)).
End Tier.

(** ** The bitmap as a list of booleans *)

Lemma land_one x : Z.land x 1 = Z.b2z (Z.testbit x 0).
Proof. rewrite Z.bit0_mod. change 1 with (Z.ones 1) at 1. by rewrite Z.land_ones by lia. Qed.

Lemma top_bit w k : 0 <= k -> Z.land (Z.shiftr w k) 1 = Z.b2z (Z.testbit w k).
Proof. intros Hk. rewrite land_one, Z.shiftr_spec by lia. done. Qed.

Lemma b2z_testbit b i : Z.testbit (Z.b2z b) i = (i =? 0) && b.
Proof.
  destruct b; cbn [Z.b2z]; [|by rewrite Z.bits_0, andb_false_r].
  rewrite andb_true_r. destruct (Z.eqb_spec i 0) as [->|Hi]; [done|].
  destruct (Z.lt_ge_cases i 0); [by apply Z.testbit_neg_r|]. apply Z.bits_above_log2; [lia|cbn; lia].
Qed.

Lemma u64_testbit x i : 0 <= i < 64 -> Z.testbit (u64 x) i = Z.testbit x i.
Proof. intros Hi. unfold u64. apply Z.mod_pow2_bits_low. lia. Qed.

Lemma below_testbit n i : 0 <= n -> 0 <= i -> Z.testbit (Z.shiftl 1 n - 1) i = (i <? n).
Proof.
  intros Hn Hi. change (Z.shiftl 1 n - 1) with (Z.ones n). rewrite Z.testbit_ones by done.
  by rewrite (proj2 (Z.leb_le 0 i) Hi).
Qed.

Lemma mask_get_testbit m p : 0 <= p -> __mask_get m p = Z.testbit (rd m (p / 64)) (p mod 64).
Proof.
  intros Hp. unfold __mask_get. rewrite top_bit by (apply Z.land_nonneg; lia).
  rewrite Z.shiftr_div_pow2 by lia. change 63 with (Z.ones 6). rewrite Z.land_ones by lia.
  change (2 ^ 6) with 64. by destruct (Z.testbit _ _).
Qed.

(** The words hold 64-bit values. *)
Definition words_ok (m : zmap) : Prop := forall i, 0 <= rd m i < 2 ^ 64.

Lemma words_ok_wr m k v : words_ok m -> 0 <= v < 2 ^ 64 -> words_ok (wr m k v).
Proof. intros Hm Hv i. rewrite rd_wr. case_b. apply Hm. Qed.

Lemma lor_range a b n : 0 <= n -> 0 <= a < 2 ^ n -> 0 <= b < 2 ^ n -> 0 <= Z.lor a b < 2 ^ n.
Proof.
  intros Hn Ha Hb. assert (0 <= Z.lor a b) by (apply Z.lor_nonneg; lia). split; [done|].
  apply nonneg_bits_below; [done..|]. intros i Hi. by rewrite Z.lor_spec, !(testbit_above _ n).
Qed.

Lemma land_range a b n : 0 <= n -> 0 <= a < 2 ^ n -> 0 <= Z.land a b < 2 ^ n.
Proof.
  intros Hn Ha. assert (0 <= Z.land a b) by (apply Z.land_nonneg; lia). split; [done|].
  apply nonneg_bits_below; [done..|]. intros i Hi. by rewrite Z.land_spec, (testbit_above a n).
Qed.

Lemma shiftl_bit_range v b : 0 <= v <= 1 -> 0 <= b < 64 -> 0 <= Z.shiftl v b < 2 ^ 64.
Proof.
  intros Hv Hb. rewrite Z.shiftl_mul_pow2 by lia. pose proof (Z.pow_lt_mono_r 2 b 64 ltac:(lia) ltac:(lia) ltac:(lia)).
  pose proof (Z.pow_nonneg 2 b ltac:(lia)). nia.
Qed.

Lemma shiftr_range w : 0 <= w < 2 ^ 64 -> 0 <= Z.shiftr w 1 < 2 ^ 64.
Proof. intros Hw. rewrite Z.shiftr_div_pow2 by lia. split; [by apply Z.div_pos; lia|apply Z.div_lt_upper_bound; lia]. Qed.

Lemma b2z_range b : 0 <= Z.b2z b <= 1.
Proof. destruct b; cbn; lia. Qed.

(** The word an insertion changes, bit by bit *)
Lemma insert_word w bit v i :
  0 <= bit < 64 -> 0 <= i < 64 ->
  Z.testbit (Z.lor (Z.lor (Z.land w (if bit =? 0 then 0 else Z.shiftl 1 bit - 1))
               (Z.land (u64 (Z.shiftl w 1)) (if bit =? 63 then 0 else u64 (Z.lnot (Z.shiftl 1 (bit + 1) - 1)))))
               (Z.shiftl (if v : bool then 1 else 0) bit)) i =
  if i <? bit then Z.testbit w i else if i =? bit then v else Z.testbit w (i - 1).
Proof.
  intros Hb Hi. change (if v then 1 else 0) with (Z.b2z v).
  rewrite !Z.lor_spec, !Z.land_spec, u64_testbit, !Z.shiftl_spec, b2z_testbit by lia.
  assert (E1 : Z.testbit (if bit =? 0 then 0 else Z.shiftl 1 bit - 1) i = (i <? bit)).
  { destruct (Z.eqb_spec bit 0) as [->|]; [rewrite Z.bits_0; symmetry; apply Z.ltb_ge; lia|]. apply below_testbit; lia. }
  assert (E2 : Z.testbit (if bit =? 63 then 0 else u64 (Z.lnot (Z.shiftl 1 (bit + 1) - 1))) i = (bit <? i)).
  { destruct (Z.eqb_spec bit 63) as [->|]; [rewrite Z.bits_0; symmetry; apply Z.ltb_ge; lia|].
    rewrite u64_testbit, Z.lnot_spec, below_testbit by lia. repeat case_b; done. }
  rewrite E1, E2. repeat case_b; try lia; rewrite ?andb_true_r, ?andb_false_r, ?orb_false_r; try done.
Qed.

Lemma insert_word_range w bit v :
  0 <= bit < 64 -> 0 <= w < 2 ^ 64 ->
  0 <= Z.lor (Z.lor (Z.land w (if bit =? 0 then 0 else Z.shiftl 1 bit - 1))
               (Z.land (u64 (Z.shiftl w 1)) (if bit =? 63 then 0 else u64 (Z.lnot (Z.shiftl 1 (bit + 1) - 1)))))
               (Z.shiftl (if v : bool then 1 else 0) bit) < 2 ^ 64.
Proof.
  intros Hb Hw. apply lor_range; [lia| |apply shiftl_bit_range; [destruct v; lia|lia]].
  apply lor_range; [lia|apply land_range; lia|apply land_range; [lia|apply u64_range]].
Qed.

(** The word a removal changes *)
Lemma remove_word w bit c i :
  0 <= bit < 64 -> 0 <= i < 64 -> 0 <= w < 2 ^ 64 ->
  Z.testbit (Z.lor (Z.lor (Z.land w (if bit =? 0 then 0 else Z.shiftl 1 bit - 1))
               (Z.land (Z.shiftr w 1) (if bit =? 0 then Z.shiftl 1 63 - 1
                  else Z.land (Z.shiftl 1 63 - 1) (u64 (Z.lnot (Z.shiftl 1 bit - 1))))))
               (Z.shiftl (Z.b2z c) 63)) i =
  if i <? bit then Z.testbit w i else if i =? 63 then c else Z.testbit w (i + 1).
Proof.
  intros Hb Hi Hw.
  rewrite !Z.lor_spec, !Z.land_spec, !Z.shiftl_spec, Z.shiftr_spec, b2z_testbit by lia.
  assert (E1 : Z.testbit (if bit =? 0 then 0 else Z.shiftl 1 bit - 1) i = (i <? bit)).
  { destruct (Z.eqb_spec bit 0) as [->|]; [rewrite Z.bits_0; symmetry; apply Z.ltb_ge; lia|]. apply below_testbit; lia. }
  assert (E2 : Z.testbit (if bit =? 0 then Z.shiftl 1 63 - 1
                  else Z.land (Z.shiftl 1 63 - 1) (u64 (Z.lnot (Z.shiftl 1 bit - 1)))) i = (bit <=? i) && (i <? 63)).
  { destruct (Z.eqb_spec bit 0) as [->|].
    - rewrite below_testbit by lia. repeat case_b; done.
    - rewrite Z.land_spec, u64_testbit, Z.lnot_spec, !below_testbit by lia. repeat case_b; done. }
  rewrite E1, E2. repeat case_b; try lia; rewrite ?andb_true_r, ?andb_false_r, ?orb_false_r; try done.
Qed.

Lemma insert_carry_spec n : forall m c i k b, 0 <= b < 64 ->
  Z.testbit (rd (insert_carry m (Z.b2z c) i n) k) b =
  if (i <=? k) && (k <? i + Z.of_nat n) then
    if b =? 0 then if k =? i then c else Z.testbit (rd m (k - 1)) 63 else Z.testbit (rd m k) (b - 1)
  else Z.testbit (rd m k) b.
Proof.
  induction n as [|n IH]; intros m c i k b Hb; cbn [insert_carry]; [repeat case_b; done|].
  rewrite top_bit, IH by lia. rewrite !rd_wr.
  destruct (Z.eq_dec k i) as [->|Hne].
  - rewrite (proj2 (Z.leb_gt (i + 1) i)), Z.leb_refl, Z.eqb_refl by lia. cbn [andb].
    rewrite (proj2 (Z.ltb_lt i (i + Z.of_nat (S n)))) by lia.
    rewrite Z.lor_spec, u64_testbit, Z.shiftl_spec, b2z_testbit by lia.
    destruct (Z.eqb_spec b 0) as [->|]; [by rewrite Z.testbit_neg_r by lia|by rewrite orb_false_r].
  - destruct (Z.eqb_spec i k); [lia|]. destruct (Z.eqb_spec i (k - 1)).
    + subst i. repeat case_b; done || (f_equal; f_equal; lia).
    + repeat case_b; done.
Qed.

Lemma insert_carry_ok n : forall m c i, words_ok m -> words_ok (insert_carry m (Z.b2z c) i n).
Proof.
  induction n as [|n IH]; intros m c i Hm; cbn [insert_carry]; [done|]. rewrite top_bit by lia.
  apply IH, words_ok_wr; [done|]. apply lor_range; [lia|apply u64_range|].
  pose proof (b2z_range c). lia.
Qed.

Section MaskLemmas.
Context (MaxSheets : Z).
#[local] Abbreviation words := (__detail_words MaxSheets).

Lemma remove_carry_spec n : forall m i k b, 0 <= b < 64 -> words_ok m ->
  Z.testbit (rd (remove_carry MaxSheets m i n) k) b =
  if (i <=? k) && (k <? i + Z.of_nat n) then
    if b =? 63 then if k + 1 <? words then Z.testbit (rd m (k + 1)) 0 else false else Z.testbit (rd m k) (b + 1)
  else Z.testbit (rd m k) b.
Proof.
  induction n as [|n IH]; intros m i k b Hb Hm; cbn [remove_carry]; [repeat case_b; done|].
  assert (Ec : (if i + 1 <? words then Z.land (rd m (i + 1)) 1 else 0) =
               Z.b2z (if i + 1 <? words then Z.testbit (rd m (i + 1)) 0 else false)).
  { destruct (i + 1 <? words); [apply land_one|done]. }
  rewrite Ec. set (c := if i + 1 <? words then Z.testbit (rd m (i + 1)) 0 else false).
  assert (Hw : words_ok (wr m i (Z.lor (Z.shiftr (rd m i) 1) (Z.shiftl (Z.b2z c) 63)))).
  { apply words_ok_wr; [done|]. apply lor_range; [lia|apply shiftr_range, Hm|apply shiftl_bit_range; [apply b2z_range|lia]]. }
  rewrite IH by done. rewrite !rd_wr. destruct (Z.eq_dec k i) as [->|Hne].
  - rewrite (proj2 (Z.leb_gt (i + 1) i)), Z.leb_refl, Z.eqb_refl by lia. cbn [andb].
    rewrite (proj2 (Z.ltb_lt i (i + Z.of_nat (S n)))) by lia.
    rewrite Z.lor_spec, Z.shiftr_spec, Z.shiftl_spec, b2z_testbit by lia.
    destruct (Z.eqb_spec b 63) as [->|].
    + rewrite (testbit_above (rd m i) 64) by (apply Hm || lia). done.
    + rewrite (proj2 (Z.eqb_neq (b - 63) 0)) by lia. by rewrite orb_false_r.
  - destruct (Z.eqb_spec i k); [lia|]. destruct (Z.eqb_spec i (k + 1)); repeat case_b; done.
Qed.

Lemma remove_carry_ok n : forall m i, words_ok m -> words_ok (remove_carry MaxSheets m i n).
Proof.
  induction n as [|n IH]; intros m i Hm; cbn [remove_carry]; [done|].
  apply IH, words_ok_wr; [done|]. apply lor_range; [lia|apply shiftr_range, Hm|].
  apply shiftl_bit_range; [|lia]. destruct (i + 1 <? words); [rewrite land_one; apply b2z_range|lia].
Qed.

Lemma shiftr6 p : 0 <= p -> Z.shiftr p 6 = p / 64 /\ Z.land p 63 = p mod 64.
Proof.
  intros Hp. rewrite Z.shiftr_div_pow2 by lia. change 63 with (Z.ones 6). by rewrite Z.land_ones by lia.
Qed.

(** Insertion shifts the bits from [pos] on up by one. *)
Lemma mask_insert_spec m pos v j :
  0 <= pos < 64 * words -> 0 <= j < 64 * words -> words_ok m ->
  __mask_get (__mask_insert MaxSheets m pos v) j =
  if j <? pos then __mask_get m j else if j =? pos then v else __mask_get m (j - 1).
Proof.
  intros Hp Hj Hm. unfold __mask_insert. destruct (shiftr6 pos) as [-> ->]; [lia|].
  rewrite top_bit, mask_get_testbit by lia. pose proof (Z.mod_pos_bound pos 64). pose proof (Z.mod_pos_bound j 64).
  rewrite insert_carry_spec by lia. rewrite Z2Nat.id by (Z.div_mod_to_equations; lia).
  rewrite !rd_wr. destruct (Z.eqb_spec (pos / 64) (j / 64)) as [E|E].
  - rewrite (proj2 (Z.leb_gt (pos / 64 + 1) (j / 64))) by lia. cbn [andb]. rewrite insert_word by lia.
    destruct (Z.ltb_spec (j mod 64) (pos mod 64)).
    { rewrite (proj2 (Z.ltb_lt j pos)), mask_get_testbit, E by (Z.div_mod_to_equations; lia). done. }
    rewrite (proj2 (Z.ltb_ge j pos)) by (Z.div_mod_to_equations; lia).
    destruct (Z.eqb_spec (j mod 64) (pos mod 64)).
    { rewrite (proj2 (Z.eqb_eq j pos)) by (Z.div_mod_to_equations; lia). done. }
    rewrite (proj2 (Z.eqb_neq j pos)) by (Z.div_mod_to_equations; lia).
    rewrite mask_get_testbit by (Z.div_mod_to_equations; lia). rewrite E. f_equal; [f_equal|]; Z.div_mod_to_equations; lia.
  - destruct (Z.ltb_spec j pos).
    { rewrite (proj2 (Z.leb_gt (pos / 64 + 1) (j / 64))), mask_get_testbit by (Z.div_mod_to_equations; lia). done. }
    rewrite (proj2 (Z.leb_le (pos / 64 + 1) (j / 64))), (proj2 (Z.ltb_lt (j / 64) _)), (proj2 (Z.eqb_neq j pos))
      by (Z.div_mod_to_equations; lia). cbn [andb].
    rewrite mask_get_testbit by (Z.div_mod_to_equations; lia). destruct (Z.eqb_spec (j mod 64) 0) as [E0|E0].
    + replace ((j - 1) / 64) with (j / 64 - 1) by (Z.div_mod_to_equations; lia).
      replace ((j - 1) mod 64) with 63 by (Z.div_mod_to_equations; lia).
      destruct (Z.eqb_spec (j / 64) (pos / 64 + 1)) as [E1|E1].
      * by replace (j / 64 - 1) with (pos / 64) by lia.
      * destruct (Z.eqb_spec (pos / 64) (j / 64 - 1)); [lia|done].
    + replace ((j - 1) / 64) with (j / 64) by (Z.div_mod_to_equations; lia).
      by replace ((j - 1) mod 64) with (j mod 64 - 1) by (Z.div_mod_to_equations; lia).
Qed.

(** Removal shifts the bits after [pos] down by one. *)
Lemma mask_remove_spec m pos j :
  0 <= pos < 64 * words -> 0 <= j < 64 * words -> words_ok m ->
  __mask_get (__mask_remove MaxSheets m pos) j =
  if j <? pos then __mask_get m j else if j + 1 <? 64 * words then __mask_get m (j + 1) else false.
Proof.
  intros Hp Hj Hm. unfold __mask_remove. destruct (shiftr6 pos) as [-> ->]; [lia|].
  assert (Ec : (if pos / 64 + 1 <? words then Z.land (rd m (pos / 64 + 1)) 1 else 0) =
               Z.b2z (if pos / 64 + 1 <? words then Z.testbit (rd m (pos / 64 + 1)) 0 else false)).
  { destruct (pos / 64 + 1 <? words); [apply land_one|done]. }
  rewrite Ec, mask_get_testbit by lia. pose proof (Z.mod_pos_bound pos 64). pose proof (Z.mod_pos_bound j 64).
  set (c := if pos / 64 + 1 <? words then Z.testbit (rd m (pos / 64 + 1)) 0 else false).
  set (w' := Z.lor _ (Z.shiftl (Z.b2z c) 63)).
  assert (Hw : words_ok (wr m (pos / 64) w')).
  { apply words_ok_wr; [done|]. apply lor_range; [lia| |apply shiftl_bit_range; [apply b2z_range|lia]].
    apply lor_range; [lia|apply land_range; [lia|apply Hm]|apply land_range; [lia|apply shiftr_range, Hm]]. }
  rewrite remove_carry_spec by (done || lia). rewrite Z2Nat.id by (Z.div_mod_to_equations; lia).
  rewrite !rd_wr. destruct (Z.eqb_spec (pos / 64) (j / 64)) as [E|E].
  - rewrite (proj2 (Z.leb_gt (pos / 64 + 1) (j / 64))) by lia. cbn [andb].
    subst w'. rewrite remove_word by (lia || apply Hm).
    destruct (Z.ltb_spec (j mod 64) (pos mod 64)).
    { rewrite (proj2 (Z.ltb_lt j pos)), mask_get_testbit, E by (Z.div_mod_to_equations; lia). done. }
    rewrite (proj2 (Z.ltb_ge j pos)) by (Z.div_mod_to_equations; lia).
    destruct (Z.eqb_spec (j mod 64) 63) as [E1|E1].
    + subst c. rewrite E. destruct (Z.ltb_spec (j / 64 + 1) words).
      * rewrite (proj2 (Z.ltb_lt (j + 1) _)), mask_get_testbit by (Z.div_mod_to_equations; lia).
        f_equal; [f_equal|]; Z.div_mod_to_equations; lia.
      * rewrite (proj2 (Z.ltb_ge (j + 1) _)) by (Z.div_mod_to_equations; lia). done.
    + rewrite (proj2 (Z.ltb_lt (j + 1) _)), mask_get_testbit by (Z.div_mod_to_equations; lia).
      rewrite E. f_equal; [f_equal|]; Z.div_mod_to_equations; lia.
  - destruct (Z.ltb_spec j pos).
    { rewrite (proj2 (Z.leb_gt (pos / 64 + 1) (j / 64))), mask_get_testbit by (Z.div_mod_to_equations; lia). done. }
    rewrite (proj2 (Z.leb_le (pos / 64 + 1) (j / 64))), (proj2 (Z.ltb_lt (j / 64) _)) by (Z.div_mod_to_equations; lia).
    cbn [andb]. destruct (Z.eqb_spec (pos / 64) (j / 64 + 1)); [Z.div_mod_to_equations; lia|].
    destruct (Z.eqb_spec (j mod 64) 63) as [E1|E1].
    + destruct (Z.ltb_spec (j / 64 + 1) words).
      * rewrite (proj2 (Z.ltb_lt (j + 1) _)), mask_get_testbit by (Z.div_mod_to_equations; lia).
        f_equal; [f_equal|]; Z.div_mod_to_equations; lia.
      * rewrite (proj2 (Z.ltb_ge (j + 1) _)) by (Z.div_mod_to_equations; lia). done.
    + rewrite (proj2 (Z.ltb_lt (j + 1) _)), mask_get_testbit by (Z.div_mod_to_equations; lia).
      f_equal; [f_equal|]; Z.div_mod_to_equations; lia.
Qed.
End MaskLemmas.

(** ** The index *)

Lemma entry_insert ix k e j : entry (<[k := e]> ix) j = if k =? j then e else entry ix j.
Proof.
  unfold entry. destruct (Z.eqb_spec k j) as [->|Hne]; [by rewrite lookup_insert_eq|by rewrite lookup_insert_ne].
Qed.

Lemma shift_right_spec n : forall ix i j,
  entry (shift_right ix i n) j = if (i - Z.of_nat n <? j) && (j <=? i) then entry ix (j - 1) else entry ix j.
Proof.
  induction n as [|n IH]; intros ix i j; cbn [shift_right]; [repeat case_b; done|].
  rewrite IH, !entry_insert. repeat case_b; try done. by subst.
Qed.

Lemma shift_left_spec n : forall ix i j,
  entry (shift_left ix i n) j = if (i <=? j) && (j <? i + Z.of_nat n) then entry ix (j + 1) else entry ix j.
Proof.
  induction n as [|n IH]; intros ix i j; cbn [shift_left]; [repeat case_b; done|].
  rewrite IH, !entry_insert. repeat case_b; try done. by subst.
Qed.

Lemma scan_pos_spec ix a n : forall pos,
  let p := scan_pos ix a pos n in
  pos <= p <= pos + Z.of_nat n /\ (forall j, pos <= j < p -> lo (entry ix j) < a) /\
  (p < pos + Z.of_nat n -> a <= lo (entry ix p)).
Proof.
  induction n as [|n IH]; intros pos; cbn [scan_pos]; [split_and!; intros; lia|].
  destruct (Z.ltb_spec (lo (entry ix pos)) a) as [Hlt|Hge]; [|split_and!; intros; lia].
  destruct (IH (pos + 1)) as (H1 & H2 & H3). split_and!; [lia|lia| |intros; apply H3; lia].
  intros j Hj. destruct (Z.eq_dec j pos) as [->|Hne]; [done|]. apply H2. lia.
Qed.

Lemma upto_lookup {A} (f : Z -> A) n i : upto f n !! i = if Z.of_nat i <? n then Some (f (Z.of_nat i)) else None.
Proof.
  unfold upto. rewrite list_lookup_fmap. destruct (Z.ltb_spec (Z.of_nat i) n).
  - by rewrite lookup_seqZ_lt by lia.
  - by rewrite lookup_seqZ_ge by lia.
Qed.

Lemma upto_length {A} (f : Z -> A) n : length (upto f n) = Z.to_nat n.
Proof. unfold upto. by rewrite length_fmap, length_seqZ. Qed.

(** Shifting a family up from [p] inserts into the list, down deletes from it. *)
Lemma upto_insert {A} (f g : Z -> A) n p :
  0 <= p <= n -> (forall j, 0 <= j < p -> g j = f j) -> (forall j, p < j <= n -> g j = f (j - 1)) ->
  upto g (n + 1) = take (Z.to_nat p) (upto f n) ++ g p :: drop (Z.to_nat p) (upto f n).
Proof.
  intros Hp Hlo Hhi. apply list_eq. intros i. rewrite upto_lookup.
  assert (Hl : length (take (Z.to_nat p) (upto f n)) = Z.to_nat p) by (rewrite length_take, upto_length; lia).
  destruct (Z.lt_trichotomy (Z.of_nat i) p) as [Hi|[Hi|Hi]].
  - rewrite lookup_app_l, lookup_take_lt, upto_lookup by lia. repeat case_b. by rewrite Hlo by lia.
  - rewrite lookup_app_r by lia. rewrite Hl. replace (i - Z.to_nat p)%nat with 0%nat by lia. cbn. case_b.
    by rewrite Hi.
  - rewrite lookup_app_r by lia. rewrite Hl. replace (i - Z.to_nat p)%nat with (S (i - 1 - Z.to_nat p)) by lia.
    cbn [lookup list_lookup]. change (_ !! _) with (drop (Z.to_nat p) (upto f n) !! (i - 1 - Z.to_nat p)%nat).
    rewrite lookup_drop, upto_lookup. replace (Z.to_nat p + (i - 1 - Z.to_nat p))%nat with (i - 1)%nat by lia.
    repeat case_b; [|done]. rewrite Hhi by lia. do 2 f_equal. lia.
Qed.

Lemma upto_delete {A} (f g : Z -> A) n p :
  0 <= p < n -> (forall j, 0 <= j < p -> g j = f j) -> (forall j, p <= j < n - 1 -> g j = f (j + 1)) ->
  upto g (n - 1) = take (Z.to_nat p) (upto f n) ++ drop (S (Z.to_nat p)) (upto f n).
Proof.
  intros Hp Hlo Hhi. apply list_eq. intros i. rewrite upto_lookup.
  assert (Hl : length (take (Z.to_nat p) (upto f n)) = Z.to_nat p) by (rewrite length_take, upto_length; lia).
  destruct (Z.lt_ge_cases (Z.of_nat i) p) as [Hi|Hi].
  - rewrite lookup_app_l, lookup_take_lt, upto_lookup by lia. repeat case_b. by rewrite Hlo by lia.
  - rewrite lookup_app_r, Hl, lookup_drop, upto_lookup by lia.
    replace (S (Z.to_nat p) + (i - Z.to_nat p))%nat with (S i) by lia.
    repeat case_b; [|done]. rewrite Hhi by lia. do 2 f_equal. lia.
Qed.

(** ** Registering, removing and finding sheets *)

Section Correct.
Context (MaxSheets : Z) (HM : 0 < MaxSheets).
#[local] Abbreviation words := (__detail_words MaxSheets).

Lemma words_cover : MaxSheets <= 64 * words.
Proof using HM. unfold __detail_words. Z.div_mod_to_equations. lia. Qed.

(** The sheets in address order, each with its space bit *)
Definition sheet_at (t : tier) (i : Z) : trange * bool := (entry (__idx t) i, __mask_get (__space_mask t) i).
Definition sheets (t : tier) : list (trange * bool) := upto (sheet_at t) (__count t).

(** The sheet the hint names *)
Definition hint (t : tier) : option trange :=
  if __last_hit t =? __no_hit MaxSheets then None else Some (entry (__idx t) (__last_hit t)).

Record inv (t : tier) : Prop := {
  i_count : 0 <= __count t <= MaxSheets;
  i_sorted i j : 0 <= i -> i < j -> j < __count t -> hi (entry (__idx t) i) <= lo (entry (__idx t) j);
  i_proper i : 0 <= i < __count t -> lo (entry (__idx t) i) < hi (entry (__idx t) i);
  i_words : words_ok (__space_mask t);
  i_unused j : __count t <= j < 64 * words -> __mask_get (__space_mask t) j = false;
  i_hint : __last_hit t = __no_hit MaxSheets \/ 0 <= __last_hit t < __count t
}.

Definition clear_of (r : trange) (l h : Z) : Prop := hi r <= l \/ h <= lo r.

Lemma mask_insert_ok m pos v : 0 <= pos -> words_ok m -> words_ok (__mask_insert MaxSheets m pos v).
Proof.
  intros Hp Hm. unfold __mask_insert. destruct (shiftr6 pos Hp) as [-> ->]. rewrite top_bit by lia.
  apply insert_carry_ok, words_ok_wr; [done|]. apply insert_word_range; [|apply Hm].
  apply Z.mod_pos_bound. lia.
Qed.

Lemma mask_remove_ok m pos : 0 <= pos -> words_ok m -> words_ok (__mask_remove MaxSheets m pos).
Proof.
  intros Hp Hm. unfold __mask_remove. apply remove_carry_ok, words_ok_wr; [done|].
  apply lor_range; [lia| |apply shiftl_bit_range; [|lia]].
  - apply lor_range; [lia|apply land_range; [lia|apply Hm]|apply land_range; [lia|apply shiftr_range, Hm]].
  - case_match; [rewrite land_one; apply b2z_range|lia].
Qed.

(** Where a sheet goes, and what the index holds then *)
Lemma register_index ix c l h n p :
  0 <= c -> (forall i j, 0 <= i -> i < j -> j < c -> hi (entry ix i) <= lo (entry ix j)) ->
  (forall i, 0 <= i < c -> lo (entry ix i) < hi (entry ix i)) ->
  (forall i, 0 <= i < c -> clear_of (entry ix i) l h) -> l < h ->
  p = scan_pos ix l 0 (Z.to_nat c) ->
  0 <= p <= c /\ (forall j, 0 <= j < p -> hi (entry ix j) <= l) /\ (forall j, p <= j < c -> h <= lo (entry ix j)) /\
  (forall j, 0 <= j <= c -> entry (<[p := TRange l h n]> (shift_right ix c (Z.to_nat (c - p)))) j =
    if j <? p then entry ix j else if j =? p then TRange l h n else entry ix (j - 1)).
Proof.
  intros Hc Hs Hpr Hcl Hlh ->. destruct (scan_pos_spec ix l (Z.to_nat c) 0) as (H1 & H2 & H3).
  set (p := scan_pos ix l 0 (Z.to_nat c)) in *. split_and!; [lia|lia| | |].
  - intros j Hj. specialize (H2 j Hj). destruct (Hcl j) as [|Hge]; [lia|done|lia].
  - intros j Hj. assert (Hlo : l <= lo (entry ix j)).
    { destruct (Z.eq_dec j p) as [->|Hne]; [apply H3; lia|].
      pose proof (H3 ltac:(lia)). pose proof (Hpr p ltac:(lia)). pose proof (Hs p j ltac:(lia) ltac:(lia) ltac:(lia)). lia. }
    pose proof (Hpr j ltac:(lia)). destruct (Hcl j) as [|]; [lia|lia|done].
  - intros j Hj. rewrite entry_insert, shift_right_spec, Z2Nat.id by lia. repeat case_b; done.
Qed.

(** [t'] is [t] with a sheet at [p]: what registering does to each field. *)
Record inserted (t t' : tier) (p l h n : Z) : Prop := {
  n_pos : 0 <= p <= __count t;
  n_count : __count t' = __count t + 1;
  n_below j : 0 <= j < p -> hi (entry (__idx t) j) <= l;
  n_above j : p <= j < __count t -> h <= lo (entry (__idx t) j);
  n_entry j : 0 <= j <= __count t ->
    entry (__idx t') j = if j <? p then entry (__idx t) j else if j =? p then TRange l h n else entry (__idx t) (j - 1);
  n_words : words_ok (__space_mask t');
  n_bit j : 0 <= j < 64 * words ->
    __mask_get (__space_mask t') j =
    if j <? p then __mask_get (__space_mask t) j else if j =? p then true else __mask_get (__space_mask t) (j - 1);
  n_hint : __last_hit t' =
    if __last_hit t =? MaxSheets then MaxSheets else if p <=? __last_hit t then __last_hit t + 1 else __last_hit t
}.

Lemma register_inserted (addr addr_end : Z -> Z) t n :
  inv t ->
  let l := addr (rd (links t) (n + 0)) in
  let h := addr_end (rd (links t) (n + 0)) in
  l < h -> (forall i, 0 <= i < __count t -> clear_of (entry (__idx t) i) l h) -> __count t <> MaxSheets ->
  let pt := register_sheet MaxSheets addr addr_end t n in
  inserted t pt.2 pt.1 l h n.
Proof using HM.
  intros [Hc Hs Hpr Hw Hu Hh] l h Hlh Hcl E pt. subst pt. unfold register_sheet, __max_sheets.
  rewrite (proj2 (Z.leb_gt _ _)) by lia. fold l. fold h. cbn [fst snd].
  set (p := scan_pos (__idx t) l 0 (Z.to_nat (__count t))). pose proof words_cover as Hwc.
  destruct (register_index (__idx t) (__count t) l h n p) as (Hp & Hbe & Hab & Hent); try done; [lia|].
  split; cbn [__count __idx __space_mask __last_hit]; try done.
  - apply mask_insert_ok; [lia|done].
  - intros j Hj. apply mask_insert_spec; [lia|lia|done].
  - unfold __no_hit, __max_sheets in *. destruct Hh as [->|Hh]; [by rewrite Z.eqb_refl|].
    rewrite (proj2 (Z.eqb_neq (__last_hit t) MaxSheets)) by lia. cbn [negb andb].
    by rewrite (proj2 (Z.ltb_lt (__last_hit t + 1) _)), andb_true_r by lia.
Qed.

Lemma inserted_inv t t' p l h n : inv t -> inserted t t' p l h n -> l < h -> __count t < MaxSheets -> inv t'.
Proof using HM.
  intros [Hc Hs Hpr Hw Hu Hh] [Hp Hn Hbe Hab Hent Hok Hbit Hhint] Hlh Hlt. pose proof words_cover as Hwc.
  split; rewrite ?Hn.
  - lia.
  - intros i j Hi Hij Hj. rewrite !Hent by lia.
    repeat case_g; cbn [lo hi]; first [apply Hs; lia|apply Hbe; lia|apply Hab; lia].
  - intros i Hi. rewrite Hent by lia. repeat case_g; cbn [lo hi]; first [done|apply Hpr; lia].
  - done.
  - intros j Hj. rewrite Hbit by lia. repeat case_g. apply Hu. lia.
  - unfold __no_hit, __max_sheets in *. rewrite Hhint. destruct Hh as [->|Hh]; [rewrite Z.eqb_refl; by left|].
    right. repeat case_g.
Qed.

Lemma inserted_hint t t' p l h n : inv t -> inserted t t' p l h n -> __count t < MaxSheets -> hint t' = hint t.
Proof using HM.
  intros [_ _ _ _ _ Hh] [Hp Hn _ _ Hent _ _ Hhint] Hlt. unfold hint, __no_hit, __max_sheets in *. rewrite Hhint.
  destruct Hh as [->|Hh]; [by rewrite !Z.eqb_refl|]. rewrite (proj2 (Z.eqb_neq (__last_hit t) MaxSheets)) by lia.
  destruct (Z.leb_spec p (__last_hit t)).
  - rewrite (proj2 (Z.eqb_neq (__last_hit t + 1) MaxSheets)), Hent by lia. repeat case_g. do 2 f_equal. lia.
  - rewrite (proj2 (Z.eqb_neq (__last_hit t) MaxSheets)), Hent by lia. repeat case_g. done.
Qed.

Lemma inserted_sheets t t' p l h n :
  inserted t t' p l h n -> __count t < MaxSheets ->
  sheets t' = take (Z.to_nat p) (sheets t) ++ (TRange l h n, true) :: drop (Z.to_nat p) (sheets t).
Proof using HM.
  intros [Hp Hn _ _ Hent _ Hbit _] Hlt. pose proof words_cover as Hwc. unfold sheets. rewrite Hn.
  rewrite (upto_insert (sheet_at t) (sheet_at t') (__count t) p); [|lia|..]; unfold sheet_at.
  - rewrite Hent, Hbit by lia. by rewrite Z.ltb_irrefl, Z.eqb_refl.
  - intros j Hj. rewrite Hent, Hbit by lia. by rewrite (proj2 (Z.ltb_lt j p)) by lia.
  - intros j Hj. rewrite Hent, Hbit by lia. by rewrite (proj2 (Z.ltb_ge j p)), (proj2 (Z.eqb_neq j p)) by lia.
Qed.

(** C33. Registering a sheet that overlaps none of the tier's puts it, with its space
    bit set, at its place in address order; the other sheets keep their order
    and their bits, the hint keeps naming the same sheet, and the sentinel
    [MaxSheets] with an unchanged tier is returned exactly when the tier is full. *)
Theorem tier_register (addr addr_end : Z -> Z) t n :
  inv t ->
  let l := addr (rd (links t) (n + 0)) in
  let h := addr_end (rd (links t) (n + 0)) in
  l < h -> (forall i, 0 <= i < __count t -> clear_of (entry (__idx t) i) l h) ->
  let pt := register_sheet MaxSheets addr addr_end t n in
  if __count t =? MaxSheets then pt = (MaxSheets, t)
  else
    inv pt.2 /\ 0 <= pt.1 <= __count t /\ hint pt.2 = hint t /\
    sheets pt.2 = take (Z.to_nat pt.1) (sheets t) ++ (TRange l h n, true) :: drop (Z.to_nat pt.1) (sheets t).
Proof using HM.
  intros HI l h Hlh Hcl pt. pose proof (i_count _ HI) as Hc. destruct (Z.eqb_spec (__count t) MaxSheets) as [E|E].
  - subst pt. unfold register_sheet, __max_sheets. by rewrite (proj2 (Z.leb_le _ _)) by lia.
  - pose proof (register_inserted addr addr_end t n HI Hlh Hcl E) as Hins. fold pt l h in Hins.
    assert (Hlt : __count t < MaxSheets) by lia. pose proof (n_pos _ _ _ _ _ _ Hins) as Hpos.
    split_and!; [by eapply inserted_inv|lia|lia|by eapply inserted_hint|by apply inserted_sheets].
Qed.

(** What removing an entry does to the index, the bitmap and the rest *)
Record removed (t t' : tier) (pos : Z) : Prop := {
  r_count : __count t' = __count t - 1;
  r_links : links t' = links t;
  r_entry j : 0 <= j < __count t - 1 ->
    entry (__idx t') j = if j <? pos then entry (__idx t) j else entry (__idx t) (j + 1);
  r_bit j : 0 <= j < 64 * words ->
    __mask_get (__space_mask t') j =
    if j <? pos then __mask_get (__space_mask t) j
    else if j + 1 <? 64 * words then __mask_get (__space_mask t) (j + 1) else false;
  r_words : words_ok (__space_mask t');
  r_hint : __last_hit t' =
    if __last_hit t =? MaxSheets then MaxSheets else if pos =? __last_hit t then MaxSheets
    else if pos <? __last_hit t then __last_hit t - 1 else __last_hit t
}.

Lemma unregister_removed t pos : inv t -> 0 <= pos < __count t -> removed t (unregister MaxSheets t pos) pos.
Proof using HM.
  intros [Hc Hs Hpr Hw Hu Hh] Hp. unfold unregister. rewrite (proj2 (Z.leb_gt _ _)) by lia. pose proof words_cover as Hwc.
  split; cbn [links __count __idx __space_mask __last_hit]; try done.
  - intros j Hj. rewrite shift_left_spec, Z2Nat.id by lia. repeat case_b; done.
  - intros j Hj. apply mask_remove_spec; [lia|lia|done].
  - apply mask_remove_ok; [lia|done].
  - unfold __no_hit, __max_sheets. by destruct (Z.eqb_spec (__last_hit t) MaxSheets).
Qed.

Lemma removed_inv t t' pos : inv t -> 0 <= pos < __count t -> removed t t' pos -> inv t'.
Proof using HM.
  intros [Hc Hs Hpr Hw Hu Hh] Hp [Hn _ Hent Hbit Hok Hhint]. pose proof words_cover as Hwc. split; rewrite ?Hn.
  - lia.
  - intros i j Hi Hij Hj. rewrite !Hent by lia. repeat case_g; apply Hs; lia.
  - intros i Hi. rewrite Hent by lia. repeat case_g; apply Hpr; lia.
  - done.
  - intros j Hj. rewrite Hbit by lia. repeat case_g. apply Hu. lia.
  - unfold __no_hit, __max_sheets in *. rewrite Hhint. destruct Hh as [->|Hh]; [rewrite Z.eqb_refl; by left|].
    rewrite (proj2 (Z.eqb_neq (__last_hit t) MaxSheets)) by lia. repeat case_g.
Qed.

(** Removing the sheet at a position takes out that sheet and its space bit; the
    rest keeps its order and bits, and the hint is dropped exactly when it named
    the removed sheet. *)
Theorem tier_unregister t pos :
  inv t -> 0 <= pos < __count t ->
  let t' := unregister MaxSheets t pos in
  inv t' /\ sheets t' = take (Z.to_nat pos) (sheets t) ++ drop (S (Z.to_nat pos)) (sheets t) /\
  hint t' = (if __last_hit t =? pos then None else hint t).
Proof using HM.
  intros HI Hp t'. pose proof (unregister_removed t pos HI Hp) as HR. pose proof (removed_inv _ _ _ HI Hp HR) as HI'.
  fold t' in HR, HI'. pose proof HI as [Hc _ _ _ _ Hh]. destruct HR as [Hn _ Hent Hbit _ Hhint]. pose proof words_cover as Hwc.
  split_and!; [done| |].
  - unfold sheets. rewrite Hn. apply upto_delete; [lia| |]; intros j Hj; unfold sheet_at; rewrite Hent, Hbit by lia.
    + by rewrite (proj2 (Z.ltb_lt j pos)) by lia.
    + by rewrite (proj2 (Z.ltb_ge j pos)), (proj2 (Z.ltb_lt (j + 1) _)) by lia.
  - unfold hint, __no_hit, __max_sheets in *. rewrite Hhint. destruct Hh as [Hh|Hh].
    + rewrite Hh, !Z.eqb_refl. destruct (Z.eqb_spec MaxSheets pos); [lia|done].
    + rewrite (proj2 (Z.eqb_neq (__last_hit t) MaxSheets)) by lia.
      destruct (Z.eqb_spec pos (__last_hit t)) as [<-|Hne]; [by rewrite !Z.eqb_refl|].
      rewrite (proj2 (Z.eqb_neq (__last_hit t) pos)) by lia. destruct (Z.ltb_spec pos (__last_hit t)).
      * rewrite (proj2 (Z.eqb_neq (__last_hit t - 1) MaxSheets)), Hent by lia. repeat case_g. do 2 f_equal. lia.
      * rewrite (proj2 (Z.eqb_neq (__last_hit t) MaxSheets)), Hent by lia. repeat case_g. done.
Qed.

Definition covers (r : trange) (a : Z) : Prop := lo r <= a < hi r.

(** What lies below [l] ends before the address, what lies above [h] starts after it. *)
Lemma find_loop_spec ix c a fuel : forall l h,
  (forall i, 0 <= i < c -> lo (entry ix i) < hi (entry ix i)) ->
  (forall i j, 0 <= i -> i < j -> j < c -> hi (entry ix i) <= lo (entry ix j)) ->
  0 <= l -> h < c -> (forall j, 0 <= j < l -> hi (entry ix j) <= a) -> (forall j, h < j < c -> a < lo (entry ix j)) ->
  (Z.to_nat (h - l + 1) < fuel)%nat ->
  exists r, find_loop ix a l h fuel = Some r /\
    (r = -1 /\ (forall j, 0 <= j < c -> ~ covers (entry ix j) a) \/ 0 <= r < c /\ covers (entry ix r) a).
Proof.
  induction fuel as [|fuel IH]; intros l h Hpr Hs Hl Hh Hlo Hhi Hf; [lia|]. cbn [find_loop].
  destruct (Z.ltb_spec h l) as [Hlt|Hge].
  { exists (-1). split; [done|]. left. split; [done|]. intros j Hj [H1 H2].
    destruct (Z.lt_ge_cases j l) as [Hjl|Hjl]; [specialize (Hlo j ltac:(lia))|specialize (Hhi j ltac:(lia))]; lia. }
  assert (Hmid : l <= l + Z.shiftr (h - l) 1 <= h).
  { rewrite Z.shiftr_div_pow2 by lia. change (2 ^ 1) with 2. Z.div_mod_to_equations. lia. }
  set (mid := l + Z.shiftr (h - l) 1) in *. pose proof (Hpr mid ltac:(lia)) as Hpm.
  destruct (Z.ltb_spec a (lo (entry ix mid))) as [Ha|Ha].
  { apply IH; try done; [lia| |lia]. intros j Hj. destruct (Z.eq_dec j mid) as [->|Hne]; [done|].
    destruct (Z.lt_ge_cases h j); [apply Hhi; lia|]. pose proof (Hs mid j ltac:(lia) ltac:(lia) ltac:(lia)). lia. }
  destruct (Z.leb_spec (hi (entry ix mid)) a) as [Hb|Hb].
  { apply IH; try done; [lia| |lia]. intros j Hj. destruct (Z.eq_dec j mid) as [->|Hne]; [done|].
    destruct (Z.lt_ge_cases j l); [apply Hlo; lia|].
    pose proof (Hs j mid ltac:(lia) ltac:(lia) ltac:(lia)). pose proof (Hpr mid ltac:(lia)). lia. }
  exists mid. split; [done|]. right. split; [lia|done].
Qed.

(** The binary search ends, and finds the sheet an address is in: it returns the
    index of a sheet covering the address, or [-1] when no sheet of the tier does. *)
Theorem tier_find_range t a :
  inv t ->
  exists r, find_range t a = Some r /\
    (r = -1 /\ (forall j, 0 <= j < __count t -> ~ covers (entry (__idx t) j) a) \/
     0 <= r < __count t /\ covers (entry (__idx t) r) a).
Proof using HM. intros [Hc Hs Hpr _ _ _]. unfold find_range. apply find_loop_spec; try done; intros; lia. Qed.

(** [has_space] scans whole words: it holds exactly when some sheet's bit is set. *)
Lemma has_space_spec t : inv t -> has_space MaxSheets t = true <-> exists i, 0 <= i < __count t /\ __mask_get (__space_mask t) i = true.
Proof using HM.
  intros HI. unfold has_space. rewrite existsb_exists. setoid_rewrite <- list_elem_of_In. setoid_rewrite elem_of_seqZ. split.
  - intros (w & Hw & Hz). apply negb_true_iff, Z.eqb_neq in Hz.
    pose proof (i_words _ HI w) as Hr. set (x := rd (__space_mask t) w) in *.
    assert (Hlog : 0 <= Z.log2 x < 64) by (split; [apply Z.log2_nonneg|apply Z.log2_lt_pow2; lia]).
    assert (Eget : __mask_get (__space_mask t) (64 * w + Z.log2 x) = true).
    { rewrite mask_get_testbit by lia. replace ((64 * w + Z.log2 x) / 64) with w by (Z.div_mod_to_equations; lia).
      replace ((64 * w + Z.log2 x) mod 64) with (Z.log2 x) by (Z.div_mod_to_equations; lia). apply Z.bit_log2. lia. }
    exists (64 * w + Z.log2 x). split; [|done].
    destruct (Z.lt_ge_cases (64 * w + Z.log2 x) (__count t)); [lia|].
    rewrite (i_unused _ HI) in Eget by lia. done.
  - intros (i & Hi & E). pose proof words_cover. pose proof (i_count _ HI).
    exists (i / 64). split; [Z.div_mod_to_equations; lia|].
    apply negb_true_iff, Z.eqb_neq. intros E0. rewrite mask_get_testbit, E0, Z.bits_0 in E by lia. done.
Qed.

(** Marking a sheet exhausted or available changes its bit only. *)
Lemma mark_spec t pos b :
  inv t -> 0 <= pos < __count t ->
  let t' := if b : bool then mark_available t pos else mark_exhausted t pos in
  inv t' /\ sheets t' = <[Z.to_nat pos := (entry (__idx t) pos, b)]> (sheets t) /\ hint t' = hint t.
Proof using HM.
  intros HI Hp t'. pose proof words_cover as Hwc. pose proof (i_count _ HI) as Hc. pose proof (i_words _ HI) as Hw.
  assert (Hm : __mask_get (__space_mask t') = fun j => __mask_get (__space_mask t') j) by done.
  assert (Hbits : words_ok (__space_mask t') /\ forall j, 0 <= j ->
    __mask_get (__space_mask t') j = if j =? pos then b else __mask_get (__space_mask t) j).
  { pose proof (Z.mod_pos_bound pos 64 ltac:(lia)) as Hmod.
    assert (E : __space_mask t' = wr (__space_mask t) (pos / 64)
      ((if b then bit_set else bit_clr) (rd (__space_mask t) (pos / 64)) (pos mod 64))).
    { subst t'. destruct (shiftr6 pos) as [E1 E2]; [lia|].
      destruct b; cbn; unfold __mask_set, __mask_clear; by rewrite E1, E2. }
    rewrite E. split.
    - apply words_ok_wr; [done|]. destruct b; [apply bit_set_range; [apply Hw|lia]|apply bit_clr_range; [apply Hw|lia..]].
    - intros j Hj. rewrite !mask_get_testbit, rd_wr by lia. pose proof (Z.mod_pos_bound j 64 ltac:(lia)).
      destruct (Z.eqb_spec (pos / 64) (j / 64)) as [E1|E1].
      + destruct (Z.eqb_spec j pos) as [->|Hne].
        * destruct b; [rewrite testbit_bit_set by lia|rewrite testbit_bit_clr by lia]; rewrite Z.eqb_refl;
            [by rewrite orb_true_r|by rewrite andb_false_r].
        * assert (pos mod 64 <> j mod 64) by (Z.div_mod_to_equations; lia).
          destruct b; [rewrite testbit_bit_set by lia|rewrite testbit_bit_clr by lia];
            rewrite (proj2 (Z.eqb_neq (pos mod 64) (j mod 64))) by done; rewrite E1;
            [by rewrite orb_false_r|by rewrite andb_true_r].
      + destruct (Z.eqb_spec j pos) as [->|Hne]; [done|done]. }
  destruct Hbits as [Hok Hbit].
  assert (Ei : __idx t' = __idx t /\ __count t' = __count t /\ __last_hit t' = __last_hit t) by (by destruct b).
  destruct Ei as (E1 & E2 & E3). split_and!.
  - destruct HI. split; rewrite ?E1, ?E2, ?E3; try done. intros j Hj. rewrite Hbit by lia. case_b. by apply i_unused0.
  - unfold sheets. rewrite E2. apply list_eq. intros i. destruct (decide (i = Z.to_nat pos)) as [->|Hne].
    + rewrite list_lookup_insert_eq by (rewrite upto_length; lia). rewrite upto_lookup. case_b.
      unfold sheet_at. rewrite E1, Hbit by lia. by rewrite Z2Nat.id, Z.eqb_refl by lia.
    + rewrite list_lookup_insert_ne, !upto_lookup by done. case_b; [|done]. unfold sheet_at. rewrite E1, Hbit by lia.
      by rewrite (proj2 (Z.eqb_neq _ _)) by lia.
  - unfold hint. by rewrite E1, E3.
Qed.

(** ** [init] *)

Lemma rd_foldl_zero l : forall m j, rd (foldl (fun m i => wr m i 0) m l) j = if bool_decide (j ∈ l) then 0 else rd m j.
Proof.
  induction l as [|i l IH]; intros m j; cbn [foldl]; [done|]. rewrite IH, rd_wr.
  destruct (Z.eqb_spec i j); repeat case_bool_decide; set_solver.
Qed.

(** Whatever memory a tier is constructed in, [init] makes it an empty index. *)
Lemma init_inv h t : words_ok (__space_mask t) -> inv (init MaxSheets h t).
Proof using HM.
  intros Hw. assert (Hrd : forall j, rd (__space_mask (init MaxSheets h t)) j = if bool_decide (0 <= j < words) then 0 else rd (__space_mask t) j).
  { intros j. unfold init. cbn [__space_mask]. rewrite rd_foldl_zero.
    by rewrite (bool_decide_ext _ (0 <= j < words)) by (rewrite elem_of_seqZ; lia). }
  split; try (intros; cbn in *; lia).
  - intros j. rewrite Hrd. case_bool_decide; [lia|apply Hw].
  - intros j Hj. rewrite mask_get_testbit, Hrd by (cbn in Hj; lia).
    rewrite bool_decide_true; [apply Z.bits_0|]. cbn in Hj. Z.to_euclidean_division_equations. lia.
Qed.
End Correct.

(** ** A tier of three sheets *)

Definition demo_addr (s : Z) : Z := s * 4096.
Definition demo_end (s : Z) : Z := s * 4096 + 4096.
Definition demo_links : zmap := wr (wr (wr ∅ 100 7) 200 3) 300 5.
Definition tier_empty : tier := init 70 64 (Tier demo_links 0 ∅ 0 ∅ 0 0).
Definition tier_demo : tier :=
  (register_sheet 70 demo_addr demo_end (register_sheet 70 demo_addr demo_end tier_empty 100).2 200).2.

Lemma tier_empty_inv : inv 70 tier_empty.
Proof. apply init_inv; [done|]. intros i. by rewrite rd_empty. Qed.

Lemma tier_demo_inv : inv 70 tier_demo.
Proof.
  assert (H1 : inserted 70 tier_empty (register_sheet 70 demo_addr demo_end tier_empty 100).2 0 28672 32768 100).
  { apply (register_inserted 70 eq_refl demo_addr demo_end tier_empty 100 tier_empty_inv); [done| |done].
    intros i Hi. cbn in Hi. lia. }
  pose proof (inserted_inv 70 eq_refl _ _ _ _ _ _ tier_empty_inv H1 eq_refl eq_refl) as HI1.
  assert (H2 : inserted 70 (register_sheet 70 demo_addr demo_end tier_empty 100).2 tier_demo 0 12288 16384 200).
  { apply (register_inserted 70 eq_refl demo_addr demo_end _ 200 HI1); [done| |done].
    intros i Hi. assert (i = 0) as -> by (cbn in Hi; lia). right. done. }
  by apply (inserted_inv 70 eq_refl _ _ _ _ _ _ HI1 H2).
Qed.

(** A third sheet goes between the two. *)
Lemma tier_register_witness :
  sheets (register_sheet 70 demo_addr demo_end tier_demo 300).2 =
  [(TRange 12288 16384 200, true); (TRange 20480 24576 300, true); (TRange 28672 32768 100, true)].
Proof.
  pose proof (tier_register 70 eq_refl demo_addr demo_end tier_demo 300 tier_demo_inv eq_refl) as H.
  destruct H as (_ & _ & _ & ->); [|vm_compute; reflexivity].
  intros i Hi. change (__count tier_demo) with 2 in Hi.
  assert (i = 0 \/ i = 1) as [->| ->] by lia; [left|right]; vm_compute; discriminate.
Defined.

Lemma tier_unregister_witness : sheets (unregister 70 tier_demo 0) = [(TRange 28672 32768 100, true)].
Proof.
  destruct (tier_unregister 70 eq_refl tier_demo 0 tier_demo_inv) as (_ & -> & _); [done|vm_compute; reflexivity].
Defined.

Lemma tier_find_range_witness :
  (exists r, find_range tier_demo 30000 = Some r /\
    (r = -1 /\ (forall j, 0 <= j < __count tier_demo -> ~ covers (entry (__idx tier_demo) j) 30000) \/
     0 <= r < __count tier_demo /\ covers (entry (__idx tier_demo) r) 30000)) /\
  find_range tier_demo 30000 = Some 1 /\ find_range tier_demo 16384 = Some (-1).
Proof.
  split_and!; [apply (tier_find_range 70 eq_refl), tier_demo_inv|vm_compute; reflexivity|vm_compute; reflexivity].
Defined.
