(* ===== verification/Predict.v ===== *)
(** * The request size predictor (src/src/prediction.hpp)

    A ring of the last thirty-two requests with its sum and its number of
    nonzero entries maintained incrementally; the mean of the ring widens a
    request of the same class to the size expected next. *)

From S2P Require Import Prelude.
From S2P Require Import Config.

Definition __max_cached : Z := 32.

(** [alloc_predictor]: [allocs] is the array, [index] the slot written next. *)
Record alloc_predictor := Predictor { allocs : list Z; running_sum : Z; running_div : Z; index : Z }.

Definition alloc_predictor_init : alloc_predictor := Predictor (replicate 32 0) 0 0 0.

Definition align_to_page (n : Z) : Z := Z.ldiff (u64 (u64 (n + __system_pagesize) - 1)) (__system_pagesize - 1).

Definition of_class (sz : Z) : Z :=
  if sz <? __class_small then __class_precise
  else if sz <? __class_medium then __class_small
  else if sz <? __class_large then __class_medium
  else if sz <? __class_1mb then __class_large
  else if sz <? __class_gb then __class_1mb
  else __class_gb.

(** [operator+=] *)
Definition add_request (p : alloc_predictor) (n : Z) : alloc_predictor :=
  let i := index p in
  let old := default 0 (allocs p !! Z.to_nat i) in
  let sum := u64 (running_sum p - old) in
  let div := u64 (running_div p - (if negb (old =? 0) then 1 else 0)) in
  let al := <[Z.to_nat i := n]> (allocs p) in
  let sum := u64 (sum + n) in
  let div := u64 (div + (if negb (n =? 0) then 1 else 0)) in
  Predictor al sum div (Z.land (u32 (i + 1)) (__max_cached - 1)).

Definition predict_size (p : alloc_predictor) (n : Z) : Z :=
  if running_div p =? 0 then align_to_page n else
  let mean_alloc := running_sum p / running_div p in
  if (mean_alloc =? 0) || (u64 (mean_alloc * 3) <? n) || negb (of_class n =? of_class mean_alloc)
  then align_to_page n
  else align_to_page (if n <? mean_alloc then mean_alloc else n).

(** ** The incremental sums *)

Definition total_of (l : list Z) : Z := foldr Z.add 0 l.
Definition nonzero (x : Z) : Z := if negb (x =? 0) then 1 else 0.
Definition count_of (l : list Z) : Z := total_of (nonzero <$> l).

Lemma total_insert l i x y : l !! i = Some x -> total_of (<[i := y]> l) = total_of l - x + y.
Proof.
  revert i. induction l as [|a l IH]; intros [|i] Hi; [done|done| |]; cbn in Hi |- *.
  - injection Hi as ->. unfold total_of. lia.
  - change (a + total_of (<[i := y]> l) = a + total_of l - x + y). rewrite (IH i Hi). lia.
Qed.

Lemma count_bounds l : 0 <= count_of l <= Z.of_nat (length l).
Proof.
  induction l as [|x l IH]; [done|]. cbn [length]. change (count_of (x :: l)) with (nonzero x + count_of l).
  unfold nonzero. destruct (negb (x =? 0)); lia.
Qed.

(** The ring's sum and count are those of its entries, the sum modulo [2^64]. *)
Record sums_ok (p : alloc_predictor) : Prop := {
  so_len : length (allocs p) = 32%nat;
  so_index : 0 <= index p < 32;
  so_range x : x ∈ allocs p -> 0 <= x < 2 ^ 64;
  so_sum : running_sum p = u64 (total_of (allocs p));
  so_div : running_div p = count_of (allocs p)
}.

Lemma init_ok : sums_ok alloc_predictor_init.
Proof.
  split; try done. intros x [-> _]%elem_of_replicate. lia.
Qed.

Lemma next_index i : 0 <= i < 32 -> Z.land (u32 (i + 1)) (__max_cached - 1) = (i + 1) mod 32.
Proof.
  intros Hi. rewrite u32_small by lia. change (__max_cached - 1) with (Z.ones 5). by rewrite Z.land_ones by lia.
Qed.

Lemma add_request_ok p n : sums_ok p -> 0 <= n < 2 ^ 64 -> sums_ok (add_request p n).
Proof.
  intros [Hl Hi Hr Hs Hd] Hn. destruct (lookup_lt_is_Some_2 (allocs p) (Z.to_nat (index p))) as [old Hold]; [lia|].
  assert (Hro : 0 <= old < 2 ^ 64) by (apply Hr; by eapply list_elem_of_lookup_2).
  unfold add_request. rewrite Hold. change (default 0 (Some old)) with old. fold (nonzero old) (nonzero n).
  split; cbn [allocs running_sum running_div index].
  - by rewrite length_insert.
  - rewrite next_index by done. by apply Z.mod_pos_bound.
  - intros x (j & Hj)%list_elem_of_lookup. destruct (decide (Z.to_nat (index p) = j)) as [<-|Hne].
    + rewrite list_lookup_insert_eq in Hj by lia. by injection Hj as <-.
    + rewrite list_lookup_insert_ne in Hj by done. apply Hr. by eapply list_elem_of_lookup_2.
  - rewrite (total_insert _ _ _ _ Hold), Hs. unfold u64.
    rewrite Zminus_mod_idemp_l, Zplus_mod_idemp_l. done.
  - unfold count_of in *. rewrite list_fmap_insert, (total_insert _ _ (nonzero old)), Hd.
    + pose proof (count_bounds (allocs p)) as Hb. unfold count_of in Hb. rewrite Hl in Hb.
      assert (Hpos : nonzero old <= total_of (nonzero <$> allocs p)).
      { pose proof (count_bounds (<[Z.to_nat (index p) := 0]> (allocs p))) as Hb'. unfold count_of in Hb'.
        rewrite list_fmap_insert, (total_insert _ _ (nonzero old)) in Hb'; [cbn in Hb'; lia|].
        by rewrite list_lookup_fmap, Hold. }
      assert (0 <= nonzero old <= 1 /\ 0 <= nonzero n <= 1) by (unfold nonzero; split; case_match; lia).
      rewrite (u64_small (_ - _)) by lia. rewrite u64_small by lia. done.
    + by rewrite list_lookup_fmap, Hold.
Qed.

(** ** The requests of a program *)

Definition after (ns : list Z) : alloc_predictor := foldl add_request alloc_predictor_init ns.

Lemma after_snoc ns n : after (ns ++ [n]) = add_request (after ns) n.
Proof. unfold after. by rewrite foldl_app. Qed.

Lemma after_ok ns : Forall (fun n => 0 <= n < 2 ^ 64) ns -> sums_ok (after ns).
Proof.
  induction ns as [|n ns IH] using rev_ind; [intros _; apply init_ok|].
  rewrite Forall_app, after_snoc, Forall_singleton. intros [H Hn]. by apply add_request_ok; [apply IH|].
Qed.

(** The ring read from its oldest slot: the last thirty-two of the requests,
    after as many zeros as are missing. *)
Definition rotated (p : alloc_predictor) : list Z := drop (Z.to_nat (index p)) (allocs p) ++ take (Z.to_nat (index p)) (allocs p).
Definition window (ns : list Z) : list Z := drop (length ns) (replicate 32 0 ++ ns).

Lemma rotate_step (l : list Z) i n :
  (i < length l)%nat ->
  let j := if decide (S i = length l) then 0%nat else S i in
  drop j (<[i := n]> l) ++ take j (<[i := n]> l) = drop 1 (drop i l ++ take i l) ++ [n].
Proof.
  intros Hi. destruct (lookup_lt_is_Some_2 l i Hi) as [x Hx].
  rewrite (insert_take_drop l i n) by done.
  assert (Hlen : length (take i l) = i) by (rewrite length_take; lia).
  rewrite (drop_S _ _ _ Hx). cbn [app drop]. destruct (decide (S i = length l)) as [E|E].
  - rewrite (drop_ge l (S i)) by lia. by rewrite app_nil_r.
  - rewrite drop_app, take_app, Hlen. replace (S i - i)%nat with 1%nat by lia.
    rewrite (drop_ge (take i l)), (take_ge (take i l)) by lia. cbn. by rewrite !drop_0, take_0, <- app_assoc.
Qed.

Lemma window_length ns : length (window ns) = 32%nat.
Proof. unfold window. rewrite length_drop, length_app, length_replicate. lia. Qed.

Lemma rotated_window ns : Forall (fun n => 0 <= n < 2 ^ 64) ns -> rotated (after ns) = window ns.
Proof.
  induction ns as [|n ns IH] using rev_ind; [done|].
  rewrite Forall_app, Forall_singleton. intros [H Hn]. pose proof (after_ok ns H) as [Hl Hi _ _ _].
  rewrite after_snoc. unfold rotated. cbn [add_request allocs index]. rewrite next_index by done.
  assert (Ej : Z.to_nat ((index (after ns) + 1) mod 32) =
    if decide (S (Z.to_nat (index (after ns))) = length (allocs (after ns))) then 0%nat else S (Z.to_nat (index (after ns)))).
  { rewrite Hl. case_decide as E; [|rewrite Z.mod_small by lia; lia].
    replace (index (after ns) + 1) with 32 by lia. done. }
  rewrite Ej, rotate_step by lia. fold (rotated (after ns)). rewrite (IH H). unfold window.
  rewrite drop_drop, length_app, app_assoc, (drop_app_le (replicate 32 0 ++ ns)); [done|].
  rewrite length_app, length_replicate. cbn. lia.
Qed.

Lemma total_app l l' : total_of (l ++ l') = total_of l + total_of l'.
Proof. induction l as [|x l IH]; [done|]. cbn in *. unfold total_of in *. lia. Qed.

Lemma total_rotated p : total_of (rotated p) = total_of (allocs p).
Proof.
  unfold rotated. rewrite total_app, Z.add_comm, <- total_app. by rewrite take_drop.
Qed.

Lemma count_rotated p : count_of (rotated p) = count_of (allocs p).
Proof.
  unfold rotated, count_of. rewrite fmap_app, total_app, Z.add_comm, <- total_app, <- fmap_app. by rewrite take_drop.
Qed.

(** After any requests the incremental sum and count are those of the last
    thirty-two requests, the sum modulo [2^64], and the count never wraps. *)
Theorem predictor_window ns :
  Forall (fun n => 0 <= n < 2 ^ 64) ns ->
  running_sum (after ns) = u64 (total_of (window ns)) /\
  running_div (after ns) = count_of (window ns) /\ 0 <= running_div (after ns) <= 32.
Proof.
  intros H. pose proof (after_ok ns H) as [Hl _ _ Hs Hd]. rewrite <- (rotated_window ns H), total_rotated, count_rotated.
  split_and!; try done; rewrite Hd; pose proof (count_bounds (allocs (after ns))); lia.
Qed.

Lemma predictor_window_witness :
  running_sum (after (seqZ 1 40)) = total_of (seqZ 9 32) /\ running_div (after (seqZ 1 40)) = 32.
Proof.
  assert (H : Forall (fun n => 0 <= n < 2 ^ 64) (seqZ 1 40)).
  { apply Forall_forall. intros x Hx%elem_of_seqZ. lia. }
  destruct (predictor_window (seqZ 1 40) H) as (E1 & E2 & _). rewrite E1, E2. split; vm_compute; reflexivity.
Defined.

(** ** Predictions *)

Lemma align_to_page_bounds n :
  0 <= n -> n + 4096 <= 2 ^ 64 -> n <= align_to_page n < n + 4096 /\ align_to_page n mod 4096 = 0.
Proof.
  intros H0 H1. assert (E : align_to_page n = align_up n (2 ^ 12)).
  { unfold align_to_page, align_up. f_equal. unfold u64. by rewrite Zminus_mod_idemp_l. }
  rewrite E. apply align_up_bounds; lia.
Qed.

Lemma total_le l b : 0 <= b -> (forall x, x ∈ l -> 0 <= x <= b) -> 0 <= total_of l <= b * count_of l.
Proof.
  intros Hb. induction l as [|x l IH]; intros H; [cbn; lia|].
  change (total_of (x :: l)) with (x + total_of l). change (count_of (x :: l)) with (nonzero x + count_of l).
  assert (Hx : 0 <= x <= b) by (apply H; set_solver). specialize (IH ltac:(intros y Hy; apply H; set_solver)).
  unfold nonzero. destruct (Z.eqb_spec x 0); cbn [negb]; nia.
Qed.

Lemma window_elem ns x : x ∈ window ns -> x = 0 \/ x ∈ ns.
Proof.
  unfold window. intros Hx. assert (Hx' : x ∈ replicate 32 0 ++ ns).
  { rewrite <- (take_drop (length ns)). set_solver. }
  apply elem_of_app in Hx' as [[-> _]%elem_of_replicate|Hx']; auto.
Qed.

(** A prediction is page aligned, no smaller than the request, and less than a
    page above the larger of the request and the largest request remembered;
    it exceeds the request by a page only for a mean of the request's class. *)
Theorem predict_covers ns n b :
  Forall (fun x => 0 <= x <= b) ns -> 0 <= n <= b -> b + 4096 <= 2 ^ 64 ->
  let r := predict_size (after ns) n in
  let mean := u64 (total_of (window ns)) / count_of (window ns) in
  r mod 4096 = 0 /\ n <= r < b + 4096 /\
  (n + 4096 <= r -> n < mean /\ r < mean + 4096 /\ of_class n = of_class mean).
Proof.
  intros Hns Hn Hb r mean.
  assert (Hr : Forall (fun x => 0 <= x < 2 ^ 64) ns) by (eapply Forall_impl; [done|]; cbn; lia).
  pose proof (after_ok ns Hr) as [Hl _ _ Hs Hd]. rewrite <- total_rotated, (rotated_window ns Hr) in Hs.
  rewrite <- count_rotated, (rotated_window ns Hr) in Hd. pose proof (count_bounds (window ns)) as Hc.
  assert (Hmean : 0 <= mean <= b).
  { assert (Ht : 0 <= total_of (window ns) <= b * count_of (window ns)).
    { apply total_le; [lia|]. intros x Hx. rewrite Forall_forall in Hns.
      apply window_elem in Hx as [->|Hx]; [lia|by apply Hns]. }
    assert (Hu : 0 <= u64 (total_of (window ns)) <= total_of (window ns)).
    { pose proof (u64_range (total_of (window ns))). split; [lia|]. by apply Z.mod_le; lia. }
    subst mean. destruct (Z.eq_dec (count_of (window ns)) 0) as [->|Hne]; [rewrite Zdiv_0_r; lia|].
    split; [apply Z.div_pos; lia|]. apply Z.div_le_upper_bound; lia. }
  pose proof (align_to_page_bounds n ltac:(lia) ltac:(lia)) as [Han Hmn].
  subst r. unfold predict_size. rewrite Hs, Hd. fold mean.
  destruct (Z.eqb_spec (count_of (window ns)) 0); [split_and!; lia|].
  destruct ((mean =? 0) || (u64 (mean * 3) <? n) || negb (of_class n =? of_class mean)) eqn:E; [split_and!; lia|].
  apply orb_false_iff in E as [_ E]. apply negb_false_iff, Z.eqb_eq in E.
  destruct (Z.ltb_spec n mean); [|split_and!; lia].
  pose proof (align_to_page_bounds mean ltac:(lia) ltac:(lia)) as [Ham Hmm]. split_and!; try done; lia.
Qed.

Lemma predict_covers_witness :
  predict_size (after [60000; 70000; 80000]) 50000 = 73728 /\
  50000 <= predict_size (after [60000; 70000; 80000]) 50000 < 80000 + 4096.
Proof.
  split; [vm_compute; reflexivity|].
  assert (H : Forall (fun x => 0 <= x <= 80000) [60000; 70000; 80000]) by (repeat constructor; lia).
  exact (proj1 (proj2 (predict_covers [60000; 70000; 80000] 50000 80000 H ltac:(lia) ltac:(lia)))).
Defined.
