(* ===== verification/Harden.v ===== *)
(** * Hardening (src/src/harden.hpp)

    The checks around the allocator: argument validation, fills of the memory
    handed out or taken back, and the canaries around a block.  The switches
    are compile-time constants; the class [Hardening] carries them, and
    [Amd64.hardening] is their setting in config_amd64.hpp.  Diagnostic output
    is left out, as is the doctor, which is not compiled in by default. *)

From S2P Require Import Prelude.
From S2P Require Import Config.

Class Hardening := {
  __default_fail_result : Z;
  __default_double_free_action : Z;
  __is_constrained : bool;
  __alloc_limit : Z;
  __default_check_alignment : bool;
  __default_sanitize : bool;
  __default_sanitize_with_on_alloc : Z;
  __default_zero_on_alloc : bool;
  __default_zero_on_free : bool;
  __default_full_on_free : bool;
  ABC_EFF_POISON_ON_FREE : bool;
  __default_poison_byte : Z;
  __default_redzone : bool;
  __default_redzone_byte : Z;
  __default_redzone_size : Z
}.

(** The settings of the two files, with the canaries switched by their macro *)
Module Amd64.
Definition hardening (redzone : bool) : Hardening := {|
  __default_fail_result := 0;
  __default_double_free_action := 2;
  __is_constrained := false;
  __alloc_limit := 0;
  __default_check_alignment := false;
  __default_sanitize := false;
  __default_sanitize_with_on_alloc := 204;
  __default_zero_on_alloc := false;
  __default_zero_on_free := false;
  __default_full_on_free := false;
  ABC_EFF_POISON_ON_FREE := false;
  __default_poison_byte := 123;
  __default_redzone := redzone;
  __default_redzone_byte := 193;
  __default_redzone_size := 16
|}.
End Amd64.

(** What a failure handler does: it ends the process, or returns. *)
Inductive outcome := Aborts | Returns (b : bool).

Section Harden.
Context `{Hardening}.

Definition abort_state : outcome := Aborts.

Definition fail_state : outcome :=
  if __default_fail_result =? 0 then abort_state else
  if __default_fail_result =? 1 then abort_state else
  if __default_fail_result =? 2 then Returns false else Returns true.

Definition handle_double_free (addr : Z) : outcome :=
  if __default_double_free_action =? 0 then Returns false else
  if __default_double_free_action =? 1 then Returns false else
  if __default_double_free_action =? 2 then abort_state else Returns false.

Definition check_constraint (sz : Z) : bool :=
  if __is_constrained && ((__alloc_limit <? sz) && negb (__alloc_limit =? 0)) then true else
  if Z.shiftr usize_max 1 <? sz then true else false.

(** The overflow builtins store the wrapped result. *)
Definition check_mul_overflow (a b : Z) : bool * Z := (usize_max <? a * b, u64 (a * b)).
Definition check_add_overflow (a b : Z) : bool * Z := (usize_max <? a + b, u64 (a + b)).

Definition check_alignment (addr : Z) : bool :=
  if __default_check_alignment then if negb (Z.land addr (8 - 1) =? 0) then false else true else true.

(** [memset] and [bzero] on the byte memory *)
Definition memset (m : zmap) (addr byte sz : Z) : zmap := fill m addr (Z.to_nat sz) byte.

Definition sanitize_on_alloc (m : zmap) (addr sz : Z) : zmap :=
  if __default_sanitize then memset m addr __default_sanitize_with_on_alloc sz else m.
Definition zero_on_alloc (m : zmap) (addr sz : Z) : zmap :=
  if __default_zero_on_alloc then memset m addr 0 sz else m.
Definition poison_on_free (m : zmap) (addr sz : Z) : zmap :=
  if ABC_EFF_POISON_ON_FREE then memset m addr __default_poison_byte sz else m.
Definition zero_on_free (m : zmap) (addr sz : Z) : zmap :=
  if __default_zero_on_free then memset m addr 0 sz else m.
Definition full_on_free (m : zmap) (addr sz : Z) : zmap :=
  if __default_full_on_free then memset m addr 255 sz else m.

Definition write_redzone (m : zmap) (user_ptr user_sz : Z) : zmap :=
  if __default_redzone then
    let lo := user_ptr - __default_redzone_size in
    let m := memset m lo __default_redzone_byte __default_redzone_size in
    let hi := user_ptr + user_sz in
    memset m hi __default_redzone_byte __default_redzone_size
  else m.

(** [for ( i = 0; i < __default_redzone_size; ++i ) if ( lo[i] != byte ) return false;] *)
Fixpoint canary_loop (m : zmap) (lo i : Z) (n : nat) : bool :=
  match n with
  | O => true
  | S n => if negb (rd m (lo + i) =? __default_redzone_byte) then false else canary_loop m lo (i + 1) n
  end.

Definition verify_redzone_leading (m : zmap) (user_ptr : Z) : bool :=
  if __default_redzone then
    canary_loop m (user_ptr - __default_redzone_size) 0 (Z.to_nat __default_redzone_size)
  else true.

Definition verify_redzone (m : zmap) (user_ptr user_sz : Z) : bool :=
  if __default_redzone then
    if negb (verify_redzone_leading m user_ptr) then false
    else canary_loop m (user_ptr + user_sz) 0 (Z.to_nat __default_redzone_size)
  else true.

Definition check_ptr_valid (p : Z) : bool :=
  if p =? 0 then false else if p =? usize_max then false else true.

Definition check_chunk_valid (p len : Z) : bool :=
  if negb (check_ptr_valid p) then false else
  if len =? 0 then false else
  if u64 (p + len) <? p then false else true.

(** ** Canaries *)

Lemma canary_loop_spec m lo n : forall i,
  canary_loop m lo i n = true <-> forall a, lo + i <= a < lo + i + Z.of_nat n -> rd m a = __default_redzone_byte.
Proof.
  induction n as [|n IH]; intros i; cbn [canary_loop]; [split; [intros _ a Ha; lia|done]|].
  destruct (Z.eqb_spec (rd m (lo + i)) __default_redzone_byte) as [E|E]; cbn [negb].
  - rewrite IH. split; intros Hall a Ha; [|apply Hall; lia].
    destruct (Z.eq_dec a (lo + i)) as [->|Hne]; [done|]. apply Hall. lia.
  - split; [done|]. intros Hall. destruct E. apply Hall. lia.
Qed.

(** The canary bytes of a block *)
Definition canary (p n a : Z) : Prop :=
  p - __default_redzone_size <= a < p \/ p + n <= a < p + n + __default_redzone_size.

Lemma verify_spec m p n :
  __default_redzone = true -> 0 <= __default_redzone_size ->
  verify_redzone m p n = true <-> forall a, canary p n a -> rd m a = __default_redzone_byte.
Proof.
  intros Hr Hs. unfold verify_redzone, verify_redzone_leading. rewrite Hr.
  destruct (canary_loop m (p - __default_redzone_size) 0 _) eqn:E; cbn [negb].
  - rewrite canary_loop_spec in *. rewrite Z2Nat.id in * by done. unfold canary.
    split; intros Hall a Ha; [destruct Ha; [apply E|apply Hall]; lia|apply Hall; lia].
  - split; [done|]. intros Hall. rewrite <- E. apply canary_loop_spec. rewrite Z2Nat.id by done.
    intros a Ha. apply Hall. left. lia.
Qed.

Lemma write_spec m p n a :
  __default_redzone = true -> 0 <= n -> 0 <= __default_redzone_size ->
  (canary p n a -> rd (write_redzone m p n) a = __default_redzone_byte) /\
  (~ canary p n a -> rd (write_redzone m p n) a = rd m a).
Proof.
  intros Hr Hn Hs. unfold write_redzone, memset, canary. rewrite Hr, !rd_fill, !Z2Nat.id by done.
  split; intros Ha; repeat case_g; done.
Qed.

(** C40. Canaries round trip: after they are written, verification succeeds as long as
    no canary byte changes, whatever is written elsewhere, and fails as soon as
    any of them differs from the canary value; writing them touches no byte of
    the block itself. *)
Theorem redzone_guards m p n :
  __default_redzone = true -> 0 <= n -> 0 <= __default_redzone_size ->
  let m1 := write_redzone m p n in
  verify_redzone m1 p n = true /\
  (forall m2, (forall a, canary p n a -> rd m2 a = rd m1 a) -> verify_redzone m2 p n = true) /\
  (forall m2 a, canary p n a -> rd m2 a <> __default_redzone_byte -> verify_redzone m2 p n = false) /\
  (forall a, p <= a < p + n -> rd m1 a = rd m a).
Proof.
  intros Hr Hn Hs m1.
  assert (Hm : forall m2, (forall a, canary p n a -> rd m2 a = rd m1 a) -> verify_redzone m2 p n = true).
  { intros m2 H2. apply verify_spec; [done..|]. intros a Ha. rewrite H2 by done. by apply write_spec. }
  split_and!; [by apply Hm|exact Hm| |].
  - intros m2 a Ha Hne. apply not_true_iff_false. intros Hv. apply Hne. by eapply verify_spec.
  - intros a Ha. apply write_spec; [done..|]. unfold canary. lia.
Qed.

(** ** Argument checks *)

(** A valid chunk neither wraps nor starts at null or at [-1]. *)
Lemma check_chunk_valid_spec p len :
  0 <= p < 2 ^ 64 -> 0 <= len < 2 ^ 64 ->
  check_chunk_valid p len = true <-> 0 < p < usize_max /\ 0 < len /\ p + len < 2 ^ 64.
Proof.
  intros Hp Hl. unfold check_chunk_valid, check_ptr_valid.
  assert (Hu : u64 (p + len) < p <-> 2 ^ 64 <= p + len).
  { destruct (Z.lt_ge_cases (p + len) (2 ^ 64)) as [Hlt|Hge]; [rewrite u64_small by lia; lia|].
    unfold u64. replace (p + len) with (p + len - 2 ^ 64 + 1 * 2 ^ 64) at 1 by lia.
    rewrite Z.mod_add, Z.mod_small by lia. lia. }
  unfold usize_max in *. repeat case_g; cbn [negb]; split; intros; try done; lia.
Qed.

(** The overflow checks report exactly the results that do not fit. *)
Lemma check_overflow_spec a b :
  0 <= a < 2 ^ 64 -> 0 <= b < 2 ^ 64 ->
  (if fst (check_add_overflow a b) then 2 ^ 64 <= a + b else snd (check_add_overflow a b) = a + b) /\
  (if fst (check_mul_overflow a b) then 2 ^ 64 <= a * b else snd (check_mul_overflow a b) = a * b).
Proof.
  intros Ha Hb. unfold check_add_overflow, check_mul_overflow, usize_max. cbn [fst snd].
  assert (0 <= a * b) by nia. split; case_g; apply u64_small; lia.
Qed.
End Harden.

Lemma redzone_guards_witness :
  let H := Amd64.hardening true in
  verify_redzone (wr (write_redzone ∅ 4096 100) 4150 7) 4096 100 = true /\
  verify_redzone (wr (write_redzone ∅ 4096 100) 4196 7) 4096 100 = false.
Proof.
  intros H. destruct (redzone_guards ∅ 4096 100) as (_ & H1 & H2 & _); [reflexivity|lia|cbn; lia|]. split.
  - apply H1. intros a Ha. apply rd_wr_ne. unfold canary in Ha. cbn in Ha. lia.
  - apply (H2 _ 4196); [right; cbn; lia|]. rewrite rd_wr_eq. cbn. lia.
Defined.
