(* ===== verification/Stats.v ===== *)
(** * Counters (src/src/stats.hpp)

    The counters kept when [MICRON_ABC_STATS] is defined.  Each atomic
    operation is one step; the compare-and-swap loop of
    [__subtract_current_memory] is modelled with the values other threads may
    put between its load and its exchange. *)

From S2P Require Import Prelude.

(** [__stats_storage] *)
Record stats_storage := Stats {
  alloc_requests : Z;
  dealloc_requests : Z;
  total_memory_req : Z;
  total_memory_throughput : Z;
  total_memory_freed : Z;
  current_memory_usage : Z;
  current_page_usage : Z
}.

Inductive stat_type :=
  | st_alloc | st_dealloc | st_total_memory_req | st_total_memory_throughput | st_total_memory_freed
  | st_current_memory_usage | st_current_page_usage | st_end.

Definition zero_stats : stats_storage := Stats 0 0 0 0 0 0 0.

(** One round of the loop: [observed] was loaded before, [actual] is what the
    counter holds at the exchange; [inl] is the value to retry with. *)
Definition subtract_round (n observed actual : Z) : Z + Z :=
  let next := if observed <? n then 0 else observed - n in
  if observed =? actual then inr next else inl actual.

(** The loop when the counter holds [actuals] at its exchanges, in turn: the
    value it writes, and the value that was there. *)
Fixpoint subtract_loop (n observed : Z) (actuals : list Z) : option (Z * Z) :=
  match actuals with
  | [] => None
  | actual :: actuals =>
      match subtract_round n observed actual with
      | inr next => Some (next, actual)
      | inl observed => subtract_loop n observed actuals
      end
  end.

(** Undisturbed, the first exchange succeeds. *)
Definition __subtract_current_memory (s : stats_storage) (n : Z) : stats_storage :=
  let c := current_memory_usage s in
  let c' := match subtract_loop n c [c] with Some (next, _) => next | None => c end in
  Stats (alloc_requests s) (dealloc_requests s) (total_memory_req s) (total_memory_throughput s)
    (total_memory_freed s) c' (current_page_usage s).

Definition collect_stats (S : stat_type) (s : stats_storage) (n : Z) : stats_storage :=
  match S with
  | st_alloc => Stats (u64 (alloc_requests s + 1)) (dealloc_requests s) (total_memory_req s)
      (total_memory_throughput s) (total_memory_freed s) (current_memory_usage s) (current_page_usage s)
  | st_dealloc => Stats (alloc_requests s) (u64 (dealloc_requests s + 1)) (total_memory_req s)
      (total_memory_throughput s) (total_memory_freed s) (current_memory_usage s) (current_page_usage s)
  | st_total_memory_req => Stats (alloc_requests s) (dealloc_requests s) (u64 (total_memory_req s + n))
      (total_memory_throughput s) (total_memory_freed s) (current_memory_usage s) (current_page_usage s)
  | st_total_memory_throughput => Stats (alloc_requests s) (dealloc_requests s) (total_memory_req s)
      (u64 (total_memory_throughput s + n)) (total_memory_freed s) (u64 (current_memory_usage s + n)) (current_page_usage s)
  | st_total_memory_freed => __subtract_current_memory (Stats (alloc_requests s) (dealloc_requests s)
      (total_memory_req s) (total_memory_throughput s) (u64 (total_memory_freed s + n)) (current_memory_usage s)
      (current_page_usage s)) n
  | _ => s
  end.

(** [stats_t]: whether counting is on, and a snapshot of the counters *)
Definition get_stats (s : stats_storage) : bool * stats_storage := (true, s).
Definition stats (s : stats_storage) : bool * stats_storage := get_stats s.

Definition reset_stats (s : stats_storage) : stats_storage := zero_stats.

(** However often it is disturbed, the loop replaces some value the counter held
    by that value less [n], or by 0. *)
Lemma subtract_loop_spec n acts : forall observed next actual,
  subtract_loop n observed acts = Some (next, actual) ->
  actual ∈ acts /\ next = Z.max 0 (actual - n).
Proof.
  induction acts as [|a acts IH]; intros observed next actual; cbn [subtract_loop]; [done|].
  unfold subtract_round. destruct (Z.eqb_spec observed a) as [->|Hne].
  - intros [= <- <-]. split; [set_solver|]. case_g.
  - intros E. apply IH in E as [Hin ->]. split; [set_solver|done].
Qed.

Lemma subtract_current s n :
  current_memory_usage (__subtract_current_memory s n) = Z.max 0 (current_memory_usage s - n).
Proof. unfold __subtract_current_memory, subtract_loop, subtract_round. rewrite Z.eqb_refl. cbn. case_g. Qed.

(** ** The balance of a run *)

Definition run_stats (l : list (stat_type * Z)) (s : stats_storage) : stats_storage :=
  foldl (fun s e => collect_stats e.1 s e.2) s l.

(** Bytes in use after a run: what went through, less what was freed *)
Definition delta (e : stat_type * Z) : Z :=
  match e.1 with st_total_memory_throughput => e.2 | st_total_memory_freed => - e.2 | _ => 0 end.
Definition balance (l : list (stat_type * Z)) : Z := foldr (fun e acc => delta e + acc) 0 l.

(** No prefix frees more than went through before it. *)
Definition solvent (b : Z) (l : list (stat_type * Z)) : Prop :=
  forall k, 0 <= b + balance (take k l) < 2 ^ 64.

(** As long as no more is freed than was handed out, the usage counter is exact. *)
Lemma usage_exact l s : 
  solvent (current_memory_usage s) l ->
  current_memory_usage (run_stats l s) = current_memory_usage s + balance l.
Proof.
  revert s. induction l as [|[S n] l IH]; intros s Hs; [cbn; lia|].
  change (run_stats ((S, n) :: l) s) with (run_stats l (collect_stats S s n)).
  change (balance ((S, n) :: l)) with (delta (S, n) + balance l).
  assert (E : current_memory_usage (collect_stats S s n) = current_memory_usage s + delta (S, n)).
  { pose proof (Hs 1%nat) as H1. cbn in H1. rewrite take_0 in H1. cbn in H1.
    unfold delta in *. cbn [fst snd] in *.
    destruct S; cbn [collect_stats current_memory_usage] in *; try lia; [by rewrite u64_small by lia|].
    rewrite subtract_current. cbn [current_memory_usage]. lia. }
  rewrite IH; [rewrite E; lia|]. intros k. specialize (Hs (Datatypes.S k)). rewrite E.
  change (balance (take _ _)) with (delta (S, n) + balance (take k l)) in Hs. lia.
Qed.
