(* ===== verification/Hooks.v ===== *)
(** * Memory for sheets (src/src/hooks.hpp, src/src/__sys.hpp)

    A sheet's memory is carved from the reservation, or mapped directly when
    the reservation is exhausted.  The kernel's answers are parameters: [map]
    is the address [mmap] returns, [None] when it refuses, which ends the
    process. *)

From S2P Require Import Prelude.
From S2P Require Import Config.
From S2P Require Import Tcache.
From S2P Require Import VaReserve.

(** [micron::sys_allocator<byte>::alloc] and [dealloc]; [None] is the critical error. *)
Definition sys_alloc (map : option Z) (n : Z) : option Z :=
  match map with
  | Some p => if p =? 0 then None else Some p
  | None => None
  end.

Definition sys_dealloc (unmap_ok : bool) (mem len : Z) : option unit :=
  if mem =? 0 then Some tt else if unmap_ok then Some tt else None.

Definition __get_kernel_memory (map : option Z) (sz : Z) : option Z := sys_alloc map sz.

(** On this target [usize] and [u64] are the same. *)
Definition __saturate_pages_to_bytes (pages : Z) : Z :=
  let ps := __system_pagesize in
  if usize_max / ps <? pages then Z.ldiff usize_max (ps - 1) else u64 (pages * ps).

Definition __saturate_bytes (bytes : Z) : Z := if usize_max <? bytes then usize_max else bytes.

Definition __get_kernel_chunk (os : option Z) (ok1 ok2 : bool) (map : option Z) (s : va) (sz : Z) : option chunk * va :=
  let '(p, s) := __va_carve os ok1 ok2 s sz in
  if negb (p =? 0) then
    let rounded := Z.ldiff (u64 (sz + __sheet_align_mask)) __sheet_align_mask in
    (Some (Chunk p rounded), s)
  else
    match sys_alloc map sz with
    | Some q => (Some (Chunk q sz), s)
    | None => (None, s)
    end.

Definition __release_kernel_chunk (unmap_ok : bool) (s : va) (mem : chunk) : option va :=
  if __va_contains s (ptr mem) then Some (__va_release s (ptr mem) (len mem)) else
  match sys_dealloc unmap_ok (ptr mem) (len mem) with
  | Some _ => Some s
  | None => None
  end.

(** ** Rounding twice *)

Lemma round_up_round bytes :
  0 < bytes <= __va_reservation_size ->
  0 < round_up bytes <= __va_reservation_size /\ round_up (round_up bytes) = round_up bytes /\
  granules_of (round_up bytes) = granules_of bytes.
Proof.
  intros Hb. destruct (round_up_spec bytes Hb) as ([q Eq] & Hr & Er & Hg).
  change __va_free_granules with (2 ^ 17) in Hg. change __va_reservation_size with (2 ^ 38) in *.
  assert (Hb' : 0 < round_up bytes <= 2 ^ 38) by lia. split; [done|].
  destruct (round_up_spec (round_up bytes) Hb') as ([q' Eq'] & Hr' & Er' & _).
  assert (E : round_up (round_up bytes) = round_up bytes) by lia. split; [done|]. lia.
Qed.

(** The pages-to-bytes conversion never wraps, and is exact when it fits. *)
Lemma saturate_pages_spec pages :
  0 <= pages ->
  __saturate_pages_to_bytes pages = Z.min (pages * 4096) (2 ^ 64 - 4096).
Proof.
  intros Hp. unfold __saturate_pages_to_bytes. change (usize_max / __system_pagesize) with (2 ^ 52 - 1).
  change (Z.ldiff usize_max (__system_pagesize - 1)) with (2 ^ 64 - 4096). change __system_pagesize with 4096.
  destruct (Z.ltb_spec (2 ^ 52 - 1) pages); [lia|]. rewrite u64_small by lia. lia.
Qed.

(** ** Chunks of the reservation *)

(** C32. A chunk is either a whole number of granules inside the reservation, aligned
    and apart from every chunk in use, or, only when the kernel refused to commit
    or the reservation has no room left, what the direct mapping gave. *)
Theorem kernel_chunk_get os ok1 ok2 map s live sz :
  inv s live -> base_ok os s -> 0 < sz <= __va_reservation_size ->
  let '(r, s') := __get_kernel_chunk os ok1 ok2 map s sz in
  (exists off, r = Some (Chunk (va_base s' + off) (round_up sz)) /\
    carved s' (va_base s' + off) sz off /\ __va_contains s' (va_base s' + off) = true /\
    inv s' ((off, granules_of sz) :: live) /\
    forall off' g, (off', g) ∈ live -> off + round_up sz <= off' \/ off' + g * 2097152 <= off) \/
  (inv s' live /\ r = option_map (fun q => Chunk q sz) (sys_alloc map sz) /\
   (va_base s' = 0 \/ ok1 = false \/ ok2 = false \/
    ((forall r, r ∈ runs s -> r.2 < granules_of sz) /\ __va_reservation_size < va_offset s + round_up sz))).
Proof.
  intros HI Hb Hsz. unfold __get_kernel_chunk. pose proof (carve_spec os ok1 ok2 s live sz HI Hb Hsz) as Hc.
  destruct (__va_carve os ok1 ok2 s sz) as [p s']. destruct Hc as [(-> & HI' & Hwhy)|(off & Hc & HI' & Hap)].
  - cbn [Z.eqb negb]. destruct (sys_alloc map sz); by right.
  - pose proof Hc as (-> & Hb0 & Hbe & [q Eq] & H0 & Hend & Hle).
    assert (Hbn : va_base s' <> 0) by lia.
    assert (Hcon : __va_contains s' (va_base s' + off) = true).
    { unfold __va_contains. rewrite (proj2 (Z.eqb_neq _ _) Hbn). apply andb_true_iff.
      rewrite Z.leb_le, Z.ltb_lt. lia. }
    assert (Hne : va_base s' + off <> 0) by lia.
    rewrite (proj2 (Z.eqb_neq _ _) Hne). cbn [negb]. fold (round_up sz). left. by exists off.
Qed.

(** A chunk of the reservation, returned with the length it was given out with,
    is available again as a whole: its run is recorded, and a request of its
    size is then served without taking new address space. *)
Theorem kernel_chunk_release s live off sz unmap_ok :
  inv s ((off, granules_of sz) :: live) -> base_ok None s -> va_base s <> 0 ->
  0 < sz <= __va_reservation_size ->
  exists s', __release_kernel_chunk unmap_ok s (Chunk (va_base s + off) (round_up sz)) = Some s' /\
    inv s' live /\ runs s' = runs s ++ [(off, granules_of sz)] /\
    exists c s'', __get_kernel_chunk None true true None s' (round_up sz) = (Some c, s'') /\
      va_offset s'' = va_offset s.
Proof.
  intros HI Hbase Hbn Hsz. destruct (round_up_round sz Hsz) as (Hsz' & Err & Egr).
  rewrite <- Egr in HI. destruct (release_spec s live off (round_up sz) HI Hbase Hbn Hsz') as (HI' & Hruns & off' & Hoff' & E1 & E2).
  rewrite Egr in Hruns. destruct (live_in_range s _ off (granules_of (round_up sz)) HI ltac:(set_solver)) as [H0 H1].
  destruct (round_up_spec _ Hsz') as (_ & _ & Er & Hg). pose proof (v_off _ _ HI) as [_ Ho].
  change __va_free_granules with (2 ^ 17) in Hg. exists (__va_release s (va_base s + off) (round_up sz)).
  destruct Hbase as (Hb0 & Hend & _).
  assert (Hcon : __va_contains s (va_base s + off) = true).
  { unfold __va_contains. rewrite (proj2 (Z.eqb_neq _ _) Hbn). apply andb_true_iff. rewrite Z.leb_le, Z.ltb_lt. lia. }
  unfold __release_kernel_chunk. cbn [ptr len]. rewrite Hcon. split_and!; try done.
  set (s1 := __va_release s (va_base s + off) (round_up sz)) in *. unfold __get_kernel_chunk.
  destruct (__va_carve None true true s1 (round_up sz)) as [p s2]. cbn [fst snd] in E1, E2.
  rewrite (proj2 (Z.eqb_neq p 0)) by lia. cbn [negb]. by eexists _, s2.
Qed.

Lemma kernel_chunk_get_witness :
  (__get_kernel_chunk None true true None va_demo 100000).1 = Some (Chunk (4096 + 2097152) 2097152) /\
  exists off, carved (__get_kernel_chunk None true true None va_demo 100000).2 (4096 + off) 100000 off.
Proof.
  assert (E : (__get_kernel_chunk None true true None va_demo 100000).1 = Some (Chunk (4096 + 2097152) 2097152))
    by (vm_compute; reflexivity). split; [exact E|].
  assert (Eb : va_base (__get_kernel_chunk None true true None va_demo 100000).2 = 4096) by (vm_compute; reflexivity).
  pose proof (kernel_chunk_get None true true None va_demo [(0, 1)] 100000 va_demo_inv (va_demo_base None ltac:(done))
    ltac:(split; [lia|by vm_compute])) as H.
  destruct (__get_kernel_chunk None true true None va_demo 100000) as [r s']. cbn [fst snd] in *.
  destruct H as [(off & _ & Hc & _)|(_ & Hr & _)]; [exists off; by rewrite Eb in Hc|cbn in Hr; congruence].
Defined.

Lemma kernel_chunk_release_witness :
  exists s', __release_kernel_chunk true va_demo (Chunk (4096 + 0) 2097152) = Some s' /\ runs s' = [(0, 1)].
Proof.
  destruct (kernel_chunk_release va_demo [] 0 100000 true va_demo_inv (va_demo_base None ltac:(done))
    ltac:(vm_compute; discriminate) ltac:(split; [lia|by vm_compute])) as (s' & E & _ & Hr & _).
  exists s'. split; [exact E|exact Hr].
Defined.
