(* ===== verification/Book.v ===== *)
(** * What a sheet's book promises

    A sheet keeps its memory in a book, the buddy list or the two-level list.
    [Book] is the set of operations the sheet calls; [BookLaws] states what it
    relies on, in terms of the grants: the chunks given out and not returned,
    from user pointer to length and use. *)

From S2P Require Import Prelude.
From S2P Require Import Config.

Inductive use := Live (temporal : bool) | Dead.

#[export] Instance use_eq_dec : EqDecision use.
Proof. solve_decision. Defined.

Abbreviation grants := (gmap Z (Z * use)).

Class Book (B : Type) := {
  bk_make : zmap -> chunk -> option B;
  bk_move : B -> B * B;
  bk_assign : B -> B -> B * B;
  bk_allocate : B -> Z -> chunk * B;
  bk_temporal_allocate : B -> Z -> chunk * B;
  bk_deallocate : B -> Z -> ret_flag * B;
  bk_deallocate_node : B -> chunk -> ret_flag * B;
  bk_tombstone : B -> Z -> ret_flag * B;
  bk_tombstone_node : B -> chunk -> ret_flag * B;
  bk_is_allocated : B -> Z -> bool;
  bk_is_tombstoned : B -> Z -> bool;
  bk_is_temporal : B -> Z -> bool;
  bk_block_size : B -> Z -> Z;
  bk_available : B -> Z;
  bk_total : B -> Z;
  bk_used : B -> Z;
  bk_tombstoned : B -> Z
}.

(** Requests the arena lets through *)
Definition requested (n : Z) : Prop := 0 <= n < 2 ^ 63 - 128.

(** Two runs of addresses that do not meet *)
Definition apart (p n q m : Z) : Prop := p + n <= q \/ q + m <= p.

(** [c] is a chunk of at least [n] bytes in the region from [l] to [h] that
    meets no grant. *)
Record fresh (L : grants) (l h n : Z) (c : chunk) : Prop := {
  f_new : L !! ptr c = None;
  f_size : n <= len c /\ 0 < len c;
  f_region : l <= ptr c /\ ptr c + len c <= h;
  f_apart q m u : L !! q = Some (m, u) -> apart (ptr c) (len c) q m
}.

Class BookLaws (B : Type) `{ChunkOps} `{Book B} := {
  (** the book [b] has exactly the grants [L] *)
  bk_rep : B -> grants -> Prop;
  (** the region it serves, and whether its constructor could place one *)
  bk_lo : B -> Z;
  bk_hi : B -> Z;
  bk_placed : B -> bool;
  bk_region b L : bk_rep b L -> 0 < bk_lo b /\ bk_hi b < 2 ^ 64;
  bk_grant b L p n u : bk_rep b L -> L !! p = Some (n, u) ->
    bk_lo b <= p /\ p + n <= bk_hi b /\ 0 < n /\
    bk_is_allocated b p = true /\ bk_is_tombstoned b p = bool_decide (u = Dead) /\
    bk_is_temporal b p = bool_decide (u = Live true) /\ bk_block_size b p = n + __hdr_offset;
  bk_apart b L p n u q m v : bk_rep b L -> L !! p = Some (n, u) -> L !! q = Some (m, v) -> p <> q -> apart p n q m;
  (** nothing is used only when every grant is a tombstone *)
  bk_idle b L p n u : bk_rep b L -> bk_used b = 0 -> L !! p = Some (n, u) -> u = Dead;
  bk_made m c b : bk_make m c = Some b -> bk_placed b = true ->
    0 < ptr c -> 0 <= len c -> ptr c + len c + 2 ^ 41 < 2 ^ 64 ->
    bk_rep b ∅ /\ ptr c <= bk_lo b /\ bk_hi b <= ptr c + len c;
  (** a chunk of a megabyte or more is enough, up to the length it can manage *)
  bk_most : Z;
  bk_places m c b : bk_make m c = Some b -> 0 < ptr c -> 2 ^ 20 <= len c <= bk_most -> ptr c + len c + 2 ^ 41 < 2 ^ 64 ->
    bk_placed b = true;
  bk_allocated b L n : bk_rep b L -> requested n ->
    let '(c, b') := bk_allocate b n in
    (c = null_chunk /\ b' = b) \/
    (fresh L (bk_lo b) (bk_hi b) n c /\ bk_rep b' (<[ptr c := (len c, Live false)]> L) /\
     bk_lo b' = bk_lo b /\ bk_hi b' = bk_hi b);
  bk_temporal b L n : bk_rep b L -> requested n ->
    let '(c, b') := bk_temporal_allocate b n in
    (c = null_chunk /\ b' = b) \/
    ((fresh L (bk_lo b) (bk_hi b) n c \/ L !! ptr c = Some (len c, Live true)) /\
     bk_rep b' (<[ptr c := (len c, Live true)]> L) /\ bk_lo b' = bk_lo b /\ bk_hi b' = bk_hi b);
  bk_deallocated b L p n t : bk_rep b L -> L !! p = Some (n, Live t) ->
    exists b', bk_deallocate b p = (__flag_ok, b') /\ bk_rep b' (delete p L) /\
      bk_lo b' = bk_lo b /\ bk_hi b' = bk_hi b;
  bk_tombstoned_ b L p n : bk_rep b L -> L !! p = Some (n, Live false) ->
    exists b', bk_tombstone b p = (__flag_tombstoned, b') /\ bk_rep b' (<[p := (n, Dead)]> L) /\
      bk_lo b' = bk_lo b /\ bk_hi b' = bk_hi b;
  bk_node b c :
    bk_deallocate_node b c = (if (ptr c =? 0) || (len c =? 0) then (__flag_invalid, b) else bk_deallocate b (ptr c)) /\
    bk_tombstone_node b c = (if (ptr c =? 0) || (len c =? 0) then (__flag_invalid, b) else bk_tombstone b (ptr c))
}.
