(* ===== verification/BuddyBook.v ===== *)
(** * The buddy list keeps the promises of a book *)

From S2P Require Import Prelude.
From S2P Require Import Config.
From S2P Require Import Tiling.
From S2P Require Import Buddy.
From S2P Require Import BuddyInv.
From S2P Require Import BuddyOps.
From S2P Require Import BuddyWf.
From S2P Require Import BuddyFree.
From S2P Require Import BuddyReach.
From S2P Require Import BuddyInit.
From S2P Require Import BuddySpec.
From S2P Require Import Book.

(** The book of [sheet]; [Sz] is the size class. *)
#[export] Instance buddy_book `{ChunkOps} (Sz : Z) : Book buddy := {|
  bk_make := Buddy.__buddy_list Sz;
  bk_move := Buddy.move_ctor;
  bk_assign := Buddy.move_assign Sz;
  bk_allocate := Buddy.allocate Sz;
  bk_temporal_allocate := Buddy.temporal_allocate Sz;
  bk_deallocate := Buddy.deallocate Sz;
  bk_deallocate_node := Buddy.deallocate_node Sz;
  bk_tombstone := Buddy.tombstone Sz;
  bk_tombstone_node := Buddy.tombstone_node Sz;
  bk_is_allocated := Buddy.is_allocated Sz;
  bk_is_tombstoned := Buddy.is_tombstoned Sz;
  bk_is_temporal := Buddy.is_temporal Sz;
  bk_block_size := Buddy.block_size Sz;
  bk_available := Buddy.available;
  bk_total := Buddy.__total;
  bk_used := Buddy.used;
  bk_tombstoned := Buddy.tombstoned
|}.

Section BuddyBook.
Context (Min : Z) {HM : BuddyMin Min}.

#[local] Abbreviation at_ := (BuddyInv.at_ Min).
#[local] Abbreviation wf := (BuddyWf.wf Min).

Definition use_of (k : bkind) : use := match k with BAlloc t => Live t | _ => Dead end.

(** The grants are the live blocks without their headers. *)
Definition granted (s : buddy) (B : blocks) (G : grants) : Prop :=
  forall p n u, G !! p = Some (n, u) <->
    exists i o k, B !! i = Some (o, k) /\ live k = true /\ p = at_ (base s) i /\ n = Min * 2 ^ o - 32 /\ u = use_of k.

Definition buddy_rep (s : buddy) (G : grants) : Prop := exists B, wf s B /\ granted s B G.
Definition buddy_lo (s : buddy) : Z := base s.
Definition buddy_hi (s : buddy) : Z := base s + total s.

Lemma granted_at s B G i o k :
  granted s B G -> B !! i = Some (o, k) -> live k = true -> G !! at_ (base s) i = Some (Min * 2 ^ o - 32, use_of k).
Proof. intros HG Hi Hk. apply HG. eauto 8. Qed.

Lemma granted_none s B G i :
  granted s B G -> (forall o k, live k = true -> B !! i <> Some (o, k)) -> G !! at_ (base s) i = None.
Proof.
  intros HG Hno. destruct (G !! at_ (base s) i) as [[n u]|] eqn:E; [|done].
  apply HG in E as (j & o & k & Hj & Hk & Ej & _). apply at_inj in Ej as ->; [|done]. by apply Hno in Hj.
Qed.

(** Blocks and grants change at one place only. *)
Lemma granted_update s B G s' B' G' i :
  granted s B G -> others Min B B' s s' i ->
  (forall p, p <> at_ (base s) i -> G' !! p = G !! p) ->
  (forall n u, G' !! at_ (base s) i = Some (n, u) <->
    exists o k, B' !! i = Some (o, k) /\ live k = true /\ n = Min * 2 ^ o - 32 /\ u = use_of k) ->
  granted s' B' G'.
Proof.
  intros HG HO HL Hi p n u. rewrite (o_base _ _ _ _ _ _ HO). destruct (Z.eq_dec p (at_ (base s) i)) as [->|Hne].
  - rewrite Hi. split.
    + intros (o & k & Hb & Hk & -> & ->). eauto 8.
    + intros (j & o & k & Hb & Hk & Ej & -> & ->). apply at_inj in Ej as <-; [eauto 6|done].
  - rewrite HL by done. rewrite (HG p n u). split; intros (j & o & k & Hb & Hk & -> & -> & ->);
      exists j, o, k; split_and!; try done; apply (o_live _ _ _ _ _ _ HO); try done; congruence.
Qed.

Lemma served_grant s B G n t c s' B' i o :
  wf s B -> granted s B G -> served Min s B n t c s' B' i o ->
  fresh G (buddy_lo s) (buddy_hi s) n c /\ buddy_rep s' (<[ptr c := (len c, Live t)]> G) /\
  buddy_lo s' = buddy_lo s /\ buddy_hi s' = buddy_hi s.
Proof.
  intros HW HG [HW' -> _ Hsz Hbl Hfr HO _]. cbn [ptr len] in *.
  pose proof (w_inv _ _ _ HW') as HI'. pose proof (Min_range Min) as HMr.
  destruct (blk_range Min HI' _ _ _ Hbl) as (Hi0 & Ho & _ & Hp2 & Hend).
  destruct (i_geo _ _ _ HI') as [_ _ Ht _ Hcap]. pose proof (geo_units Min HI') as (_ & _ & _ & Htot).
  assert (Eb : base s' = base s) by apply HO. assert (Et : total s' = total s) by apply HO.
  unfold buddy_lo, buddy_hi. rewrite Eb, Et in *. change __hdr_offset with 32 in *. split_and!; try done.
  - split; cbn [ptr len].
    + apply (granted_none s B G i HG). intros o' k Hk. by apply Hfr.
    + nia.
    + unfold BuddyInv.at_. nia.
    + intros q m u Hq. apply HG in Hq as (j & oj & kj & Hj & Hkj & -> & -> & ->).
      assert (Hji : j <> i) by (intros ->; by apply (Hfr kj Hkj oj) in Hj).
      assert (Hj' : B' !! j = Some (oj, kj)) by (by apply (o_live _ _ _ _ _ _ HO)).
      unfold apart, BuddyInv.at_. destruct (tl_disj _ _ (i_til _ _ _ HI') _ _ _ _ _ _ Hbl Hj'); [done|left|right]; nia.
  - exists B'. split; [done|]. apply (granted_update s B G s' B' _ i HG HO).
    + intros p Hp. by rewrite lookup_insert_ne.
    + intros m u. rewrite lookup_insert_eq, Hbl. split.
      * intros [= <- <-]. by exists o, (BAlloc t).
      * by intros (? & ? & [= <- <-] & _ & -> & ->).
Qed.

Lemma buddy_rep_region s G : buddy_rep s G -> 0 < buddy_lo s /\ buddy_hi s < 2 ^ 64.
Proof. intros (B & HW & _). destruct (i_geo _ _ _ (w_inv _ _ _ HW)) as [? ? _ _ _]. done. Qed.

Lemma buddy_rep_grant s G p n u :
  buddy_rep s G -> G !! p = Some (n, u) ->
  buddy_lo s <= p /\ p + n <= buddy_hi s /\ 0 < n /\ is_allocated Min s p = true /\
  is_tombstoned Min s p = bool_decide (u = Dead) /\ is_temporal Min s p = bool_decide (u = Live true) /\
  block_size Min s p = n + __hdr_offset.
Proof.
  intros (B & HW & HG) Hp. pose proof (w_inv _ _ _ HW) as HI. apply HG in Hp as (i & o & k & Hi & Hk & -> & -> & ->).
  destruct (blk_range Min HI _ _ _ Hi) as (Hi0 & Ho & _ & Hp2 & Hend). pose proof (Min_range Min).
  destruct (i_geo _ _ _ HI) as [_ _ Ht _ _]. destruct (flags_live Min s B i o k HI Hi Hk) as [Htm Hte].
  rewrite Htm, Hte, (block_size_live Min s B i o k HI Hi Hk). unfold buddy_lo, buddy_hi, __hdr_offset.
  split_and!; try (unfold BuddyInv.at_; nia).
  - apply (is_allocated_iff Min s B _ HI (w_holes _ _ _ HW)). eauto 6.
  - by destruct k as [|[]| | |].
  - by destruct k as [|[]| | |].
Qed.

Lemma buddy_rep_allocated s G n :
  buddy_rep s G -> requested n ->
  let '(c, s') := allocate Min s n in
  (c = null_chunk /\ s' = s) \/
  (fresh G (buddy_lo s) (buddy_hi s) n c /\ buddy_rep s' (<[ptr c := (len c, Live false)]> G) /\
   buddy_lo s' = buddy_lo s /\ buddy_hi s' = buddy_hi s).
Proof.
  intros (B & HW & HG) Hn. unfold requested in Hn.
  destruct (allocate_spec Min s B n HW) as [(i & o & c & s' & B' & -> & HS)|[-> _]]; [lia| |by left].
  right. by apply (served_grant s B G n false c s' B' i o).
Qed.

Lemma buddy_rep_temporal s G n :
  buddy_rep s G -> requested n ->
  let '(c, s') := temporal_allocate Min s n in
  (c = null_chunk /\ s' = s) \/
  ((fresh G (buddy_lo s) (buddy_hi s) n c \/ G !! ptr c = Some (len c, Live true)) /\
   buddy_rep s' (<[ptr c := (len c, Live true)]> G) /\ buddy_lo s' = buddy_lo s /\ buddy_hi s' = buddy_hi s).
Proof.
  intros (B & HW & HG) Hn. unfold requested in Hn.
  destruct (temporal_allocate_spec Min s B n HW) as
    [(i & s' & -> & Hi & HW' & _ & HO & _)|[(i & c & s' & B' & -> & HS & _)|[-> _]]]; [lia| | |by left].
  - right. pose proof (granted_at s B G i _ _ HG Hi eq_refl) as Hg. cbn [ptr len] in *. change __hdr_offset with 32.
    split; [by right|]. rewrite (insert_id _ _ _ Hg). unfold buddy_lo, buddy_hi.
    rewrite (o_base _ _ _ _ _ _ HO), (o_total _ _ _ _ _ _ HO). split; [|done].
    exists B. split; [done|]. intros p m u. rewrite (o_base _ _ _ _ _ _ HO). apply HG.
  - right. destruct (served_grant s B G n true c s' B' i _ HW HG HS) as (H1 & H2 & H3). split; [by left|done].
Qed.

Lemma live_grant s B G p n u :
  wf s B -> granted s B G -> G !! p = Some (n, u) -> u <> Dead ->
  exists i o t, p = at_ (base s) i /\ B !! i = Some (o, BAlloc t) /\ n = Min * 2 ^ o - 32 /\ u = Live t.
Proof.
  intros HW HG Hp Hu. apply HG in Hp as (i & o & k & Hi & Hk & -> & -> & ->).
  destruct k as [|t| | |]; try done. by exists i, o, t.
Qed.

Lemma buddy_rep_deallocated s G p n t :
  buddy_rep s G -> G !! p = Some (n, Live t) ->
  exists s', deallocate Min s p = (__flag_ok, s') /\ buddy_rep s' (delete p G) /\
    buddy_lo s' = buddy_lo s /\ buddy_hi s' = buddy_hi s.
Proof.
  intros (B & HW & HG) Hp. destruct (live_grant s B G p n _ HW HG Hp) as (i & o & t' & -> & Hi & _ & _); [done|].
  destruct (deallocate_wf Min s B i o t' HW Hi) as (s' & B' & E & HW' & HO & Hgone & _).
  exists s'. split; [done|]. unfold buddy_lo, buddy_hi. rewrite (o_base _ _ _ _ _ _ HO), (o_total _ _ _ _ _ _ HO).
  split; [|done]. exists B'. split; [done|]. apply (granted_update s B G s' B' _ i HG HO).
  - intros q Hq. by rewrite lookup_delete_ne.
  - intros m u. rewrite lookup_delete_eq. split; [done|]. intros (o' & k & Hb & Hk & _). by apply Hgone in Hb.
Qed.

Lemma tombstone_place s p : base (tombstone Min s p).2 = base s /\ total (tombstone Min s p).2 = total s.
Proof. unfold tombstone. by repeat case_match. Qed.

Lemma buddy_rep_tombstoned s G p n :
  buddy_rep s G -> G !! p = Some (n, Live false) ->
  exists s', tombstone Min s p = (__flag_tombstoned, s') /\ buddy_rep s' (<[p := (n, Dead)]> G) /\
    buddy_lo s' = buddy_lo s /\ buddy_hi s' = buddy_hi s.
Proof.
  intros (B & HW & HG) Hp. destruct (live_grant s B G p n _ HW HG Hp) as (i & o & t' & -> & Hi & -> & Et); [done|].
  injection Et as <-. destruct (tombstone_spec Min s B i o HW Hi) as (s' & E & HW' & _).
  destruct (tombstone_place s (at_ (base s) i)) as [Eb Etot]. rewrite E in Eb, Etot. cbn [snd] in *.
  exists s'. split; [done|]. unfold buddy_lo, buddy_hi. rewrite Eb, Etot. split; [|done].
  exists (<[i := (o, BTomb)]> B). split; [done|]. intros q m u. rewrite Eb.
  destruct (Z.eq_dec q (at_ (base s) i)) as [->|Hne].
  - rewrite lookup_insert_eq. split.
    + intros [= <- <-]. exists i, o, BTomb. by rewrite lookup_insert_eq.
    + intros (j & o' & k & Hb & Hk & Ej & -> & ->). apply at_inj in Ej as <-; [|done].
      rewrite lookup_insert_eq in Hb. by injection Hb as <- <-.
  - rewrite lookup_insert_ne by done. rewrite (HG q m u).
    split; intros (j & o' & k & Hb & Hk & -> & -> & ->); exists j, o', k; split_and!; try done;
      assert (j <> i) by congruence; rewrite lookup_insert_ne in * by done; done.
Qed.

Lemma buddy_rep_apart s G p n u q m v :
  buddy_rep s G -> G !! p = Some (n, u) -> G !! q = Some (m, v) -> p <> q -> apart p n q m.
Proof.
  intros (B & HW & HG) Hp Hq Hne. apply HG in Hp as (i & o & k & Hi & _ & -> & -> & _).
  apply HG in Hq as (j & o' & k' & Hj & _ & -> & -> & _). pose proof (Min_range Min) as HMr.
  assert (Hij : i <> j) by congruence. unfold apart, BuddyInv.at_.
  destruct (tl_disj _ _ (i_til _ _ _ (w_inv _ _ _ HW)) _ _ _ _ _ _ Hi Hj Hij); [left|right]; nia.
Qed.

Lemma buddy_rep_idle s G p n u : buddy_rep s G -> used s = 0 -> G !! p = Some (n, u) -> u = Dead.
Proof.
  intros (B & HW & HG) H0 Hp. apply HG in Hp as (i & o & k & Hi & Hk & _ & _ & ->).
  destruct k as [|t| | |]; try done. exfalso. pose proof (w_inv _ _ _ HW) as HI. pose proof (Min_range Min) as HMr.
  unfold used in H0. rewrite (w_alloc _ _ _ HW) in H0.
  assert (Hz : weight is_alloc (o, BAlloc t) = 0).
  { apply (msum_zero (weight is_alloc) B i); [|fold (wsum is_alloc B); nia|done]. intros j [oj kj] _.
    unfold weight. cbn. destruct (is_alloc kj); lia. }
  destruct (blk_range Min HI _ _ _ Hi) as (_ & Ho & _). unfold weight in Hz. cbn in Hz. lia.
Qed.

Lemma buddy_rep_made `{ChunkOps} m c s :
  __buddy_list Min m c = Some s -> negb (base s =? 0) = true ->
  0 < ptr c -> 0 <= len c -> ptr c + len c + 2 ^ 41 < 2 ^ 64 ->
  buddy_rep s ∅ /\ ptr c <= buddy_lo s /\ buddy_hi s <= ptr c + len c.
Proof.
  intros E Hb Hp Hl He. unfold __buddy_list in E. destruct (chunk_zero c || (len c <? Min)); [done|].
  injection E as <-. apply negb_true_iff, Z.eqb_neq in Hb. pose proof (Min_range Min) as HMr.
  destruct (init_memory_spec Min (__impl_zero_arrays (blank m false)) (ptr c) (len c) 0) as [H0|(HW & Hpl & _)];
    try done; [lia|].
  destruct Hpl as [[H1 H2] _ _]. split; [|done]. eexists. split; [exact HW|].
  intros q n u. split; [done|]. intros (i & o & k & [_ Ek]%lookup_singleton_Some & Hk & _). by simplify_eq.
Qed.

(** The tags of a chunk take less than half of it. *)
Lemma buddy_places `{ChunkOps} m c s :
  __buddy_list Min m c = Some s -> 0 < ptr c -> 2 ^ 20 <= len c <= 2 ^ 60 -> ptr c + len c + 2 ^ 41 < 2 ^ 64 ->
  negb (base s =? 0) = true.
Proof.
  intros E Hp Hl He. unfold __buddy_list in E. destruct (chunk_zero c || (len c <? Min)); [done|].
  injection E as <-. pose proof (Min_range Min) as HMr. pose proof (lg_range (Min := Min)).
  assert (Hmin : Min <= 2 ^ 18) by (rewrite (Min_eq (Min := Min)); apply Z.pow_le_mono_r; lia). apply negb_true_iff, Z.eqb_neq.
  destruct (align_up_bounds (ptr c) 3 ltac:(lia) ltac:(lia) ltac:(lia)) as [Hal _]. change (2 ^ 3) with 8 in Hal.
  unfold __impl_init_memory. set (r := align_up (ptr c) 8) in *. clearbody r. rewrite (proj2 (Z.leb_gt _ _)) by lia. cbn [Z.eqb negb].
  set (us := len c - (r - ptr c)). assert (Hus : 2 ^ 20 - 8 < us <= 2 ^ 60) by lia. rewrite (u64_small (us + Min)) by lia.
  set (ap := (us + Min) / (Min + 1)). pose proof (Z.div_mod (us + Min) (Min + 1) ltac:(lia)) as Hd.
  pose proof (Z.mod_pos_bound (us + Min) (Min + 1) ltac:(lia)) as Hm. fold ap in Hd.
  assert (Hap : 0 <= ap /\ 2 * ap <= us) by nia.
  assert (Hta : ap <= align_up ap Min < ap + Min).
  { rewrite (Min_eq (Min := Min)) in HMr, Hmin |- *. refine (proj1 (align_up_bounds ap (lg Min) _ _ _)); lia. }
  set (ta := align_up ap Min) in *. clearbody ta. rewrite (proj2 (Z.leb_gt us ta)) by lia.
  pose proof (Z.div_mod (us - ta) Min ltac:(lia)). pose proof (Z.mod_pos_bound (us - ta) Min ltac:(lia)).
  set (k := (us - ta) / Min) in *. assert (Hk : 0 < k < 2 ^ 58) by (split; nia).
  rewrite (proj2 (Z.ltb_ge (k * Min) Min)) by nia.
  destruct (init_region_fields Min (__impl_zero_arrays (blank m false)) (r + ta) k r false Hk ltac:(lia)) as (-> & _). lia.
Qed.

Lemma buddy_rep_node s c :
  deallocate_node Min s c = (if (ptr c =? 0) || (len c =? 0) then (__flag_invalid, s) else deallocate Min s (ptr c)) /\
  tombstone_node Min s c = (if (ptr c =? 0) || (len c =? 0) then (__flag_invalid, s) else tombstone Min s (ptr c)).
Proof. done. Qed.

#[export] Instance buddy_book_laws `{ChunkOps} : @BookLaws buddy _ (buddy_book Min) :=
  Build_BookLaws buddy _ (buddy_book Min) buddy_rep buddy_lo buddy_hi (fun s => negb (base s =? 0))
    buddy_rep_region buddy_rep_grant buddy_rep_apart buddy_rep_idle buddy_rep_made (2 ^ 60) buddy_places buddy_rep_allocated buddy_rep_temporal buddy_rep_deallocated buddy_rep_tombstoned buddy_rep_node.
End BuddyBook.
