(* ===== verification/TlsfBook.v ===== *)
(** * The two-level list keeps the promises of a book *)

From S2P Require Import Prelude.
From S2P Require Import Config.
From S2P Require Import Tlsf.
From S2P Require Import TlsfClass.
From S2P Require Import TlsfInv.
From S2P Require Import TlsfOps.
From S2P Require Import TlsfFind.
From S2P Require Import TlsfWf.
From S2P Require Import TlsfSpec.
From S2P Require Import TlsfProps.
From S2P Require Import Book.

(** The book of [tlsf_sheet]; [Sz] is the size class. *)
#[export] Instance tlsf_book `{ChunkOps} (Sz : Z) : Book tlsf := {|
  bk_make := Tlsf.__tlsf_list Sz;
  bk_move := Tlsf.move_ctor;
  bk_assign := Tlsf.move_assign;
  bk_allocate := Tlsf.allocate;
  bk_temporal_allocate := Tlsf.temporal_allocate;
  bk_deallocate := Tlsf.deallocate;
  bk_deallocate_node := Tlsf.deallocate_node;
  bk_tombstone := Tlsf.tombstone;
  bk_tombstone_node := Tlsf.tombstone_node;
  bk_is_allocated := Tlsf.is_allocated;
  bk_is_tombstoned := Tlsf.is_tombstoned;
  bk_is_temporal := Tlsf.is_temporal;
  bk_block_size := Tlsf.block_size;
  bk_available := Tlsf.available;
  bk_total := Tlsf.__total;
  bk_used := Tlsf.used;
  bk_tombstoned := Tlsf.tombstoned
|}.

(** A claim as a grant *)
Definition use_of (k : tkind) : use := match k with TAlloc t => Live t | _ => Dead end.
Definition grant_of (c : Z * tkind) : Z * use := (c.1, use_of c.2).

Definition tlsf_rep (s : tlsf) (G : grants) : Prop :=
  exists L B, wf s B /\ refines B L /\ G = grant_of <$> L.

Lemma grant_claim B L p n u :
  refines B L -> (grant_of <$> L) !! p = Some (n, u) ->
  exists k, L !! p = Some (n, k) /\ in_use k = true /\ u = use_of k /\ (u = Live true -> k = TAlloc true) /\
    (u = Live false -> k = TAlloc false).
Proof.
  intros HR Hp. rewrite lookup_fmap in Hp. destruct (L !! p) as [[m k]|] eqn:E; [|done].
  injection Hp as <- <-. pose proof E as E'. apply HR in E' as [Hk _].
  exists k. split_and!; try done; by destruct k as [|[]| |].
Qed.

Lemma claim_fresh s B L n a z s' B' t :
  wf s B -> refines B L -> served s B s' B' a z (TAlloc t) -> n + 32 <= z ->
  fresh (grant_of <$> L) (lo s) (hi s) n (Chunk (a + 32) (z - 32)).
Proof.
  intros HW HR HS Hn. destruct (tlsf_served_fresh s B L s' B' a z (TAlloc t) HW HR HS eq_refl) as (H1 & _ & H3 & H4 & H5 & _).
  destruct (tlsf_blk_range (sv_inv _ _ _ _ _ _ _ HS) _ _ _ (sv_blk _ _ _ _ _ _ _ HS)) as (_ & Hz & _).
  split; cbn [ptr len].
  - by rewrite lookup_fmap, H1.
  - lia.
  - lia.
  - intros q m u Hq. apply (grant_claim B) in Hq as (k & Hq & _); [|done]. unfold apart.
    destruct (H5 q m k Hq); lia.
Qed.

Lemma grants_insert (L : claims) p n t : grant_of <$> <[p := (n, TAlloc t)]> L = <[p := (n, Live t)]> (grant_of <$> L).
Proof. by rewrite fmap_insert. Qed.

(** The served block becomes a grant; the pool may have changed its ring since. *)
Lemma served_rep s B L s1 s' B' a z t :
  refines B L -> served s B s1 B' a z (TAlloc t) -> wf s' B' -> base s' = base s -> total s' = total s ->
  tlsf_rep s' (<[a + 32 := (z - 32, Live t)]> (grant_of <$> L)) /\ lo s' = lo s /\ hi s' = hi s.
Proof.
  intros HR HS HW' Eb Et.
  destruct (tlsf_blk_range (w_inv _ _ HW') _ _ _ (sv_blk _ _ _ _ _ _ _ HS)) as (_ & _ & _ & _ & _ & _ & Ha & _).
  assert (Hne : a + 32 <> 0) by lia. pose proof (served_refines s B L s1 B' a z t HR HS Hne) as HR'.
  unfold claim in HR'. cbn [ptr len] in HR'. rewrite (proj2 (Z.eqb_neq _ _) Hne) in HR'. split.
  - exists (<[a + 32 := (z - 32, TAlloc t)]> L), B'. split_and!; try done. by rewrite grants_insert.
  - unfold lo, hi. by rewrite Eb, Et.
Qed.

Lemma tlsf_rep_region s G : tlsf_rep s G -> 0 < lo s /\ hi s < 2 ^ 64.
Proof.
  intros (L & B & HW & _). destruct (i_geo _ _ (w_inv _ _ HW)) as [Hb _ _ He _].
  unfold lo in *. change __block_align with 32. lia.
Qed.

Lemma tlsf_rep_grant s G p n u :
  tlsf_rep s G -> G !! p = Some (n, u) ->
  lo s <= p /\ p + n <= hi s /\ 0 < n /\ is_allocated s p = true /\ is_tombstoned s p = bool_decide (u = Dead) /\
  is_temporal s p = bool_decide (u = Live true) /\ block_size s p = n + __hdr_offset.
Proof.
  intros (L & B & HW & HR & ->) Hp. pose proof (w_inv _ _ HW) as HI.
  apply (grant_claim B) in Hp as (k & Hk & Hu & -> & _); [|done]. apply HR in Hk as [_ Hb].
  destruct (tlsf_blk_range HI _ _ _ Hb) as (Hlo & Hz & _ & _ & Hhi & _ & Hp0 & _).
  destruct (i_geo _ _ HI) as [Hbase _ _ _ _]. pose proof (i_size _ _ HI _ _ _ Hb) as Hs.
  assert (Hin : in_data s p = true) by (unfold in_data, lo, hi in *; change __hdr_offset with 32; by repeat case_g).
  assert (Hf : exists f, tflags k = Some f /\ flags s (p - 32) = f).
  { destruct k as [|[]| |]; try done; eexists; (split; [reflexivity|]); by eapply (i_flags _ _ HI). }
  destruct Hf as (f & Etf & Ef).
  unfold is_allocated, is_tombstoned, is_temporal, block_size. rewrite Hin. change __hdr_offset with 32. rewrite Ef.
  rewrite (proj2 (Z.eqb_neq p 0)), (proj2 (Z.eqb_neq (base s) 0)) by lia. cbn [orb negb].
  split_and!; try lia; by destruct k as [|[]| |]; try done; injection Etf as <-.
Qed.

Lemma tlsf_rep_allocated s G n :
  tlsf_rep s G -> requested n ->
  let '(c, s') := allocate s n in
  (c = null_chunk /\ s' = s) \/
  (fresh G (lo s) (hi s) n c /\ tlsf_rep s' (<[ptr c := (len c, Live false)]> G) /\ lo s' = lo s /\ hi s' = hi s).
Proof.
  intros (L & B & HW & HR & ->) Hn. destruct (adjusted_block_size_spec n Hn) as (_ & Hb & _).
  destruct (tlsf_allocate_spec s B n HW Hn) as [(a & z & s' & B' & -> & HS & HW' & Hz)|[-> _]]; [|by left].
  right. split; [|apply (served_rep s B L s' s' B'); try done; apply HS].
  apply (claim_fresh s B L n a z s' B' false HW HR HS). lia.
Qed.

Lemma tlsf_rep_temporal s G n :
  tlsf_rep s G -> requested n ->
  let '(c, s') := temporal_allocate s n in
  (c = null_chunk /\ s' = s) \/
  ((fresh G (lo s) (hi s) n c \/ G !! ptr c = Some (len c, Live true)) /\
   tlsf_rep s' (<[ptr c := (len c, Live true)]> G) /\ lo s' = lo s /\ hi s' = hi s).
Proof.
  intros (L & B & HW & HR & ->) Hn. destruct (adjusted_block_size_spec n Hn) as (_ & Hb & _).
  destruct (temporal_spec s B n HW Hn) as [(a & z & r & v & -> & Ha & Hr & Hs & Hv & _)|
    [(a & z & s1 & s' & B' & r & -> & HS & HW' & Hz & _ & _ & _ & Eb & Et)|[-> _]]]; [| |by left].
  - right. pose proof (refines_at B L a z _ HR Ha eq_refl) as HL.
    assert (HG : (grant_of <$> L) !! (a + 32) = Some (z - 32, Live true)) by (by rewrite lookup_fmap, HL).
    split; [by right|]. cbn [ptr len]. rewrite (insert_id _ _ _ HG). split; [|done].
    exists L, B. split_and!; [by apply tlsf_wf_set_rotor|done|done].
  - right. split; [left; apply (claim_fresh s B L n a z s1 B' true HW HR HS); lia|].
    by apply (served_rep s B L s1 s' B').
Qed.

Lemma tlsf_rep_deallocated s G p n t :
  tlsf_rep s G -> G !! p = Some (n, Live t) ->
  exists s', deallocate s p = (__flag_ok, s') /\ tlsf_rep s' (delete p G) /\ lo s' = lo s /\ hi s' = hi s.
Proof.
  intros (L & B & HW & HR & ->) Hp. apply (grant_claim B) in Hp as (k & Hk & _ & Eu & H1 & H2); [|done].
  assert (Ek : k = TAlloc t) by (destruct t; [by apply H1|by apply H2]). subst k. apply HR in Hk as [_ Hb].
  destruct (tlsf_deallocate_wf s B (p - 32) (n + 32) t HW Hb) as (s' & B' & E & HS).
  replace (p - 32 + 32) with p in E by lia. exists s'. split; [done|]. split.
  - exists (delete p L), B'. split_and!; [apply HS| |by rewrite fmap_delete].
    apply (released_refines _ _ L) in HS; [|done]. by replace (p - 32 + 32) with p in HS by lia.
  - unfold lo, hi. by rewrite (rl_base _ _ _ _ _ _ HS), (rl_total _ _ _ _ _ _ HS).
Qed.

Lemma tlsf_rep_tombstoned s G p n :
  tlsf_rep s G -> G !! p = Some (n, Live false) ->
  exists s', tombstone s p = (__flag_tombstoned, s') /\ tlsf_rep s' (<[p := (n, Dead)]> G) /\ lo s' = lo s /\ hi s' = hi s.
Proof.
  intros (L & B & HW & HR & ->) Hp. apply (grant_claim B) in Hp as (k & Hk & _ & Eu & _ & H2); [|done].
  specialize (H2 eq_refl) as ->. apply HR in Hk as [_ Hb].
  destruct (tombstone_wf s B (p - 32) (n + 32) HW Hb) as (s' & E & HW' & _ & _ & Eb & Et & _).
  replace (p - 32 + 32) with p in E by lia. exists s'. split; [done|]. split; [|unfold lo, hi; by rewrite Eb, Et].
  exists (<[p := (n, TTomb)]> L), (<[p - 32 := (n + 32, TTomb)]> B). split_and!; [done| |by rewrite fmap_insert].
  apply (refines_update B L _ _ (p - 32) HR).
  - intros j zj kj _ Hne. by rewrite lookup_insert_ne.
  - intros q Hq. rewrite lookup_insert_ne by lia. done.
  - intros m k. replace (p - 32 + 32) with p by lia. rewrite !lookup_insert_eq. split.
    + by intros [= <- <-].
    + intros [_ [= E' <-]]. do 2 f_equal. lia.
Qed.

Lemma tlsf_rep_apart s G p n u q m v :
  tlsf_rep s G -> G !! p = Some (n, u) -> G !! q = Some (m, v) -> p <> q -> apart p n q m.
Proof.
  intros (L & B & HW & HR & ->) Hp Hq Hne.
  apply (grant_claim B) in Hp as (k & Hp & _); [|done]. apply (grant_claim B) in Hq as (k' & Hq & _); [|done].
  apply HR in Hp as [_ Hp]. apply HR in Hq as [_ Hq].
  pose proof (pt_disj _ _ _ (i_til _ _ (w_inv _ _ HW)) _ _ _ _ _ _ Hp Hq ltac:(lia)). unfold apart. lia.
Qed.

Lemma tlsf_rep_idle s G p n u : tlsf_rep s G -> used s = 0 -> G !! p = Some (n, u) -> u = Dead.
Proof.
  intros (L & B & HW & HR & ->) H0 Hp. apply (grant_claim B) in Hp as (k & Hp & Hk & -> & _); [|done].
  apply HR in Hp as [_ Hb]. destruct k as [|t| |]; try done. exfalso. pose proof (w_inv _ _ HW) as HI.
  assert (Hpos : forall a z k', B !! a = Some (z, k') -> 0 < z).
  { intros a z k' Ha. destruct (tlsf_blk_range HI _ _ _ Ha) as (_ & Hz & _). lia. }
  unfold used in H0. rewrite (w_alloc _ _ HW) in H0.
  assert (Hz : size_if is_alloc (n + 32, TAlloc t) = 0).
  { apply (msum_zero (size_if is_alloc) B (p - 32)); [|done|done]. intros j [z k'] Hj. specialize (Hpos _ _ _ Hj).
    unfold size_if. cbn. destruct (is_alloc k'); lia. }
  specialize (Hpos _ _ _ Hb). unfold size_if in Hz. cbn in Hz. lia.
Qed.

Lemma tlsf_rep_made `{ChunkOps} Sz m c s :
  __tlsf_list Sz m c = Some s -> negb (base s =? 0) = true ->
  0 < ptr c -> 0 <= len c -> ptr c + len c + 2 ^ 41 < 2 ^ 64 ->
  tlsf_rep s ∅ /\ ptr c <= lo s /\ hi s <= ptr c + len c.
Proof.
  intros E Hb Hp Hl He. unfold __tlsf_list in E. destruct (chunk_zero c || (len c <? Sz)); [done|].
  injection E as <-. apply negb_true_iff, Z.eqb_neq in Hb.
  destruct (init_memory_wf (__impl_zero_arrays (blank m)) (ptr c) (len c)) as (HW & H1 & H2 & _); try done; [lia|].
  split_and!; [|unfold lo; change __block_align with 32; lia|lia].
  exists ∅. eexists. split_and!; [exact HW| |by rewrite fmap_empty].
  intros q n k. split; [done|]. intros [Hk [_ E]%lookup_singleton_Some]. by simplify_eq.
Qed.

(** A chunk is placed up to the four gigabytes a block's size field holds. *)
Lemma tlsf_places `{ChunkOps} Sz m c s :
  __tlsf_list Sz m c = Some s -> 0 < ptr c -> 2 ^ 20 <= len c <= 2 ^ 32 -> ptr c + len c + 2 ^ 41 < 2 ^ 64 ->
  negb (base s =? 0) = true.
Proof.
  intros E Hp Hl He. unfold __tlsf_list in E. destruct (chunk_zero c || (len c <? Sz)); [done|]. injection E as <-.
  apply negb_true_iff, Z.eqb_neq. unfold __impl_init_memory. change __block_align with (2 ^ 5).
  destruct (align_up_bounds (ptr c) 5) as [Hal Hmod]; [lia..|]. set (r := align_up (ptr c) (2 ^ 5)) in *. clearbody r.
  change (2 ^ 5) with 32 in *. rewrite (proj2 (Z.leb_gt _ _)) by lia. set (us := (len c - (r - ptr c)) / 32 * 32).
  pose proof (Z.div_mod (len c - (r - ptr c)) 32 ltac:(lia)). pose proof (Z.mod_pos_bound (len c - (r - ptr c)) 32 ltac:(lia)).
  change (2 * 32 + __min_block) with 128. rewrite (proj2 (Z.ltb_ge us 128)) by (subst us; lia).
  rewrite (proj2 (Z.ltb_ge 4294967295 (us - 2 * 32))) by (subst us; lia). rewrite init_region_eq by (subst us; lia).
  assert (Hdd : (32 | us - 2 * 32)) by (subst us; apply Z.divide_sub_r; [apply Z.divide_factor_r|by exists 2]).
  apply Z.mod_divide in Hmod; [|lia].
  destruct (init_state_inv (__impl_zero_arrays (blank m)) r (us - 2 * 32)) as [HI Hpp]; [lia|done|done|subst us; lia|subst us; lia|].
  destruct (inv_fl_insert _ _ (r + 32) (us - 2 * 32) HI) as [_ HQ]; [apply lookup_singleton_eq|done|].
  rewrite (q_base _ _ _ HQ). cbn. lia.
Qed.

Lemma tlsf_rep_node s c :
  deallocate_node s c = (if (ptr c =? 0) || (len c =? 0) then (__flag_invalid, s) else deallocate s (ptr c)) /\
  tombstone_node s c = (if (ptr c =? 0) || (len c =? 0) then (__flag_invalid, s) else tombstone s (ptr c)).
Proof. done. Qed.

#[export] Instance tlsf_book_laws `{ChunkOps} (Sz : Z) : @BookLaws tlsf _ (tlsf_book Sz) :=
  Build_BookLaws tlsf _ (tlsf_book Sz) tlsf_rep lo hi (fun s => negb (base s =? 0))
    tlsf_rep_region tlsf_rep_grant tlsf_rep_apart tlsf_rep_idle (tlsf_rep_made Sz) (2 ^ 32) (tlsf_places Sz) tlsf_rep_allocated tlsf_rep_temporal tlsf_rep_deallocated tlsf_rep_tombstoned tlsf_rep_node.
