(* ===== verification/Sheet.v ===== *)
(** * Sheets (src/src/book.hpp)

    A sheet is a chunk of kernel memory with the book that divides it.  The
    class templates [sheet] and [tlsf_sheet] have the same members and differ
    in the book only; both are instances of [Sheet] below, whose theorems are
    proved against the interface of [Book].  [None] is [micron::abort()]. *)

From S2P Require Import Prelude.
From S2P Require Import Config.
From S2P Require Import Tcache.
From S2P Require Import VaReserve.
From S2P Require Import Owner.
From S2P Require Import Hooks.
From S2P Require Import Book.

(** The members of the two class templates *)
Record sheet (B : Type) := Sheet { __kernel_memory : chunk; __book : B; __guard_offset : Z }.
Arguments Sheet {B}.
Arguments __kernel_memory {B}.
Arguments __book {B}.
Arguments __guard_offset {B}.

(** The parts of the process a sheet touches: the reservation and the owners *)
Record world := World { w_va : va; w_owners : owners }.

Section Sheet.
Context {B : Type} `{ChunkOps} `{Book B}.

Definition set_book (sh : sheet B) (b : B) : sheet B := Sheet (__kernel_memory sh) b (__guard_offset sh).

(** [__impl_release], which is also [release], [reset] and the destructor;
    [unmap_ok] is the kernel's answer to [munmap]. *)
Definition __impl_release (unmap_ok : bool) (w : world) (sh : sheet B) : option (world * sheet B) :=
  let km := __kernel_memory sh in
  if negb (chunk_zero km) then
    let o := __sheet_unregister (w_va w) (w_owners w) (ptr km) (len km) in
    match __release_kernel_chunk unmap_ok (w_va w) km with
    | Some v => Some (World v o, Sheet (Chunk 0 0) (__book sh) (__guard_offset sh))
    | None => None
    end
  else Some (w, sh).

(** The constructors: the book first, then the owner table; [oom] is whether
    memory for a list node can be had. *)
Definition sheet_make (oom : bool) (w : world) (owner : Z) (m : zmap) (mem : chunk) : option (world * sheet B) :=
  match bk_make m mem with
  | None => None
  | Some b =>
      Some (World (w_va w) (__sheet_register oom (w_va w) (w_owners w) owner (ptr mem) (len mem)), Sheet mem b 0)
  end.

Definition sheet_make_guarded (oom : bool) (w : world) (owner : Z) (m : zmap) (mem : chunk) (offset : Z)
    : option (world * sheet B) :=
  match bk_make m (Chunk (ptr mem) (u64 (len mem - offset))) with
  | None => None
  | Some b =>
      Some (World (w_va w) (__sheet_register oom (w_va w) (w_owners w) owner (ptr mem) (len mem)), Sheet mem b offset)
  end.

(** Moving leaves the source with an empty book and no guard; [chunk_move] is
    the chunk's own move, (new, moved-from). *)
Definition sheet_move (chunk_move : chunk -> chunk * chunk) (o : sheet B) : sheet B * sheet B :=
  let '(km, km') := chunk_move (__kernel_memory o) in
  let '(b, b') := bk_move (__book o) in
  (Sheet km b (__guard_offset o), Sheet km' b' 0).

Definition sheet_assign (chunk_move : chunk -> chunk * chunk) (this o : sheet B) : sheet B * sheet B :=
  let '(km, km') := chunk_move (__kernel_memory o) in
  let '(b, b') := bk_assign (__book this) (__book o) in
  (Sheet km b (__guard_offset o), Sheet km' b' 0).

(** [mprotect] answers 0 on success; [prot_read] is the protection of [freeze()]. *)
Definition freeze (mprotect : Z -> Z -> Z -> Z) (prot : Z) (sh : sheet B) : bool :=
  if negb (mprotect (ptr (__kernel_memory sh)) (len (__kernel_memory sh)) prot =? 0) then false else true.

Definition empty (sh : sheet B) : bool := chunk_zero (__kernel_memory sh).

Definition mark (sh : sheet B) (mem_sz : Z) : chunk * sheet B :=
  if empty sh then (null_chunk, sh) else
  let '(p, b) := bk_allocate (__book sh) mem_sz in
  if chunk_zero p || chunk_invalid p then (null_chunk, set_book sh b) else (p, set_book sh b).

Definition temporal_mark (sh : sheet B) (mem_sz : Z) : chunk * sheet B :=
  if empty sh then (null_chunk, sh) else
  let '(p, b) := bk_temporal_allocate (__book sh) mem_sz in
  if chunk_zero p || chunk_invalid p then (null_chunk, set_book sh b) else (p, set_book sh b).

Definition try_mark (sh : sheet B) (mem_sz : Z) : option (chunk * sheet B) :=
  if empty sh then None else
  let '(p, b) := bk_allocate (__book sh) mem_sz in
  if chunk_zero p || chunk_invalid p then Some (max_chunk, set_book sh b) else Some (p, set_book sh b).

(** The three failure flags make [false]. *)
Definition flag_result (r : ret_flag) : bool :=
  if r =? __flag_out_of_space then false else
  if (r =? __flag_invalid) || (r =? __flag_failure) then false else true.

Definition try_unmark (sh : sheet B) (p : chunk) : option (bool * sheet B) :=
  if empty sh then None else
  if chunk_zero p then None else
  let '(r, b) := bk_deallocate_node (__book sh) p in
  Some (flag_result r, set_book sh b).

Definition try_tombstone (sh : sheet B) (p : chunk) : option (bool * sheet B) :=
  if empty sh then None else
  if chunk_zero p then None else
  let '(r, b) := bk_tombstone_node (__book sh) p in
  Some (flag_result r, set_book sh b).

Definition try_unmark_no_size (sh : sheet B) (p : Z) : option (bool * sheet B) :=
  if empty sh then None else
  if p =? 0 then None else
  Some (true, set_book sh (bk_deallocate (__book sh) p).2).

Definition try_tombstone_no_size (sh : sheet B) (p : Z) : option (bool * sheet B) :=
  if empty sh then None else
  if p =? 0 then None else
  Some (true, set_book sh (bk_tombstone (__book sh) p).2).

Definition find (sh : sheet B) (p : Z) : option bool :=
  if p =? 0 then Some false else
  if empty sh then None else
  if p =? 0 then None else
  Some (bk_is_allocated (__book sh) p && negb (bk_is_tombstoned (__book sh) p)).

Definition block_size_of (sh : sheet B) (p : Z) : Z := bk_block_size (__book sh) p.
Definition is_block_allocated (sh : sheet B) (p : Z) : bool :=
  bk_is_allocated (__book sh) p && negb (bk_is_tombstoned (__book sh) p).
Definition is_temporal_block (sh : sheet B) (p : Z) : bool := bk_is_temporal (__book sh) p.

Definition available (sh : sheet B) : Z := if empty sh then 0 else bk_available (__book sh).
Definition total (sh : sheet B) : Z := if empty sh then 0 else bk_total (__book sh).
Definition ftotal (sh : sheet B) : Z := bk_total (__book sh).
Definition used (sh : sheet B) : Z := bk_used (__book sh).
Definition tombstoned (sh : sheet B) : Z := bk_tombstoned (__book sh).
Definition allocated (sh : sheet B) : Z := u64 (len (__kernel_memory sh) - __guard_offset sh).

Definition addr (sh : sheet B) : Z := ptr (__kernel_memory sh).
Definition addr_end (sh : sheet B) : Z :=
  u64 (ptr (__kernel_memory sh) + len (__kernel_memory sh) - __guard_offset sh).
Definition is_at (sh : sheet B) (a : Z) : bool :=
  if (addr sh <=? a) && (a <? addr_end sh) then true else false.

(** [make_sheet] and [make_tlsf_sheet] *)
Definition make_sheet (os : option Z) (ok1 ok2 : bool) (map : option Z) (oom : bool) (w : world) (owner : Z)
    (m : zmap) (req_size : Z) : option (world * sheet B) :=
  let '(r, v) := __get_kernel_chunk os ok1 ok2 map (w_va w) req_size in
  match r with
  | Some mem => sheet_make oom (World v (w_owners w)) owner m mem
  | None => None
  end.
End Sheet.
