(* ===== verification/TlsfSheet.v ===== *)
(** * Sheets over the two-level list (src/src/book.hpp, [tlsf_sheet])

    The members of the second class template, which repeat those of [sheet]
    with [__tlsf_list] for the book. *)

From S2P Require Import Prelude.
From S2P Require Import Config.
From S2P Require Import Tlsf.
From S2P Require Import VaReserve.
From S2P Require Import Owner.
From S2P Require Import Hooks.
From S2P Require Import Book.
From S2P Require Import TlsfBook.
From S2P Require Import Sheet.

Section TlsfSheet.
Context `{ChunkOps} (Sz : Z).
#[local] Instance the_book : Book tlsf := tlsf_book Sz.

Definition __impl_release (unmap_ok : bool) (w : world) (sh : sheet tlsf) := Sheet.__impl_release (B := tlsf) unmap_ok w sh.
Definition sheet_make (oom : bool) (w : world) (owner : Z) (m : zmap) (mem : chunk) := Sheet.sheet_make (B := tlsf) oom w owner m mem.
Definition sheet_make_guarded (oom : bool) (w : world) (owner : Z) (m : zmap) (mem : chunk) (offset : Z) := Sheet.sheet_make_guarded (B := tlsf) oom w owner m mem offset.
Definition sheet_move (chunk_move : chunk -> chunk * chunk) (o : sheet tlsf) := Sheet.sheet_move (B := tlsf) chunk_move o.
Definition sheet_assign (chunk_move : chunk -> chunk * chunk) (this o : sheet tlsf) := Sheet.sheet_assign (B := tlsf) chunk_move this o.
Definition freeze (mprotect : Z -> Z -> Z -> Z) (prot : Z) (sh : sheet tlsf) := Sheet.freeze (B := tlsf) mprotect prot sh.
Definition empty (sh : sheet tlsf) := Sheet.empty (B := tlsf) sh.
Definition mark (sh : sheet tlsf) (mem_sz : Z) := Sheet.mark (B := tlsf) sh mem_sz.
Definition temporal_mark (sh : sheet tlsf) (mem_sz : Z) := Sheet.temporal_mark (B := tlsf) sh mem_sz.
Definition try_mark (sh : sheet tlsf) (mem_sz : Z) := Sheet.try_mark (B := tlsf) sh mem_sz.
Definition try_unmark (sh : sheet tlsf) (p : chunk) := Sheet.try_unmark (B := tlsf) sh p.
Definition try_tombstone (sh : sheet tlsf) (p : chunk) := Sheet.try_tombstone (B := tlsf) sh p.
Definition try_unmark_no_size (sh : sheet tlsf) (p : Z) := Sheet.try_unmark_no_size (B := tlsf) sh p.
Definition try_tombstone_no_size (sh : sheet tlsf) (p : Z) := Sheet.try_tombstone_no_size (B := tlsf) sh p.
Definition find (sh : sheet tlsf) (p : Z) := Sheet.find (B := tlsf) sh p.
Definition available (sh : sheet tlsf) := Sheet.available (B := tlsf) sh.
Definition total (sh : sheet tlsf) := Sheet.total (B := tlsf) sh.
Definition ftotal (sh : sheet tlsf) := Sheet.ftotal (B := tlsf) sh.
Definition used (sh : sheet tlsf) := Sheet.used (B := tlsf) sh.
Definition tombstoned (sh : sheet tlsf) := Sheet.tombstoned (B := tlsf) sh.
Definition allocated (sh : sheet tlsf) := Sheet.allocated (B := tlsf) sh.
Definition block_size_of (sh : sheet tlsf) (p : Z) := Sheet.block_size_of (B := tlsf) sh p.
Definition is_block_allocated (sh : sheet tlsf) (p : Z) := Sheet.is_block_allocated (B := tlsf) sh p.
Definition is_temporal_block (sh : sheet tlsf) (p : Z) := Sheet.is_temporal_block (B := tlsf) sh p.
Definition addr (sh : sheet tlsf) := Sheet.addr (B := tlsf) sh.
Definition addr_end (sh : sheet tlsf) := Sheet.addr_end (B := tlsf) sh.
Definition is_at (sh : sheet tlsf) (a : Z) := Sheet.is_at (B := tlsf) sh a.
Definition make_tlsf_sheet (os : option Z) (ok1 ok2 : bool) (map : option Z) (oom : bool) (w : world) (owner : Z)
    (m : zmap) (req_size : Z) := Sheet.make_sheet (B := tlsf) os ok1 ok2 map oom w owner m req_size.
End TlsfSheet.
