(* ===== verification/SheetProps.v ===== *)
(** * What a sheet promises

    Proved once, against the interface of the book ([Book], [BookLaws]) and of
    the chunk predicates ([ChunkLaws]); the witnesses instantiate the book with
    the two-level list. *)

From S2P Require Import Prelude.
From S2P Require Import Config.
From S2P Require Import Tcache.
From S2P Require Import VaReserve.
From S2P Require Import Owner.
From S2P Require Import Hooks.
From S2P Require Import Book.
From S2P Require Import Tlsf.
From S2P Require Import TlsfBook.
From S2P Require Import Sheet.

(** ** The sheet over its book *)

Section SheetLaws.
Context {B : Type} `{CL : ChunkLaws} `{BK : !Book B} `{BL : !BookLaws B}.

(** A sheet with the grants [L]: its book divides memory between [addr] and
    [addr_end], which lie in the address space. *)
Record sheet_ok (sh : sheet B) (L : grants) : Prop := {
  so_full : empty sh = false;
  so_rep : bk_rep (__book sh) L;
  so_lo : addr sh <= bk_lo (__book sh);
  so_hi : bk_hi (__book sh) <= addr_end sh
}.

(** What a request does to the sheet when it is served. *)
Definition granted (sh sh' : sheet B) (L : grants) (c : chunk) (u : use) : Prop :=
  sheet_ok sh' (<[ptr c := (len c, u)]> L) /\ is_at sh (ptr c) = true /\
  __kernel_memory sh' = __kernel_memory sh /\ __guard_offset sh' = __guard_offset sh.

Lemma set_book_same (sh : sheet B) : set_book sh (__book sh) = sh.
Proof. by destruct sh. Qed.

(** A chunk inside the sheet passes the chunk predicates. *)
Lemma inside_valid sh L c :
  sheet_ok sh L -> bk_lo (__book sh) <= ptr c -> ptr c + len c <= bk_hi (__book sh) -> 0 < len c ->
  chunk_zero c = false /\ chunk_invalid c = false /\ chunk_failed_allocation c = false /\ is_at sh (ptr c) = true.
Proof.
  intros [_ Hr Hl Hh] H1 H2 H3. destruct (bk_region _ _ Hr) as [H0 H64].
  assert (Hp : 0 < ptr c < usize_max) by (unfold usize_max; lia).
  split_and!; [by apply chunk_valid_not_zero|by apply chunk_valid_not_invalid|by apply chunk_valid_not_failed|].
  unfold is_at. repeat case_g; done.
Qed.

(** Replacing the book by one that serves the same region *)
Lemma sheet_ok_set sh L b L' :
  sheet_ok sh L -> bk_rep b L' -> bk_lo b = bk_lo (__book sh) -> bk_hi b = bk_hi (__book sh) ->
  sheet_ok (set_book sh b) L'.
Proof. intros [He Hr Hl Hh] Hb El Eh. split; cbn; [done|done|rewrite El|rewrite Eh]; done. Qed.

Lemma granted_set sh L b c u :
  sheet_ok sh L -> bk_rep b (<[ptr c := (len c, u)]> L) -> bk_lo b = bk_lo (__book sh) ->
  bk_hi b = bk_hi (__book sh) -> is_at sh (ptr c) = true -> granted sh (set_book sh b) L c u.
Proof. intros Hs Hb El Eh Hat. split_and!; try done. by eapply sheet_ok_set. Qed.

Lemma fresh_weaken L l h l' h' n c : fresh L l h n c -> l' <= l -> h <= h' -> fresh L l' h' n c.
Proof. intros [H1 H2 H3 H4] Hl Hh. split; [done|done|lia|done]. Qed.

(** [mark] on the grants *)
Lemma sheet_mark_spec sh L n :
  sheet_ok sh L -> requested n ->
  let '(c, sh') := mark sh n in
  (c = null_chunk /\ sh' = sh) \/ (fresh L (addr sh) (addr_end sh) n c /\ granted sh sh' L c (Live false)).
Proof.
  intros Hs Hn. pose proof Hs as [He Hr Hl Hh]. unfold mark. rewrite He.
  pose proof (bk_allocated _ _ n Hr Hn) as Ha. destruct (bk_allocate (__book sh) n) as [c b].
  destruct Ha as [[-> ->]|(Hf & Hb & El & Eh)].
  - rewrite chunk_zero_null, set_book_same. by left.
  - destruct (inside_valid sh L c Hs) as (E1 & E2 & E3 & Hat); try (destruct Hf; tauto).
    rewrite E1, E2. right. split; [by eapply fresh_weaken|by apply granted_set].
Qed.

Lemma mark_granted sh L n :
  sheet_ok sh L -> requested n -> (mark sh n).1 <> null_chunk ->
  sheet_ok (mark sh n).2 (<[ptr (mark sh n).1 := (len (mark sh n).1, Live false)]> L).
Proof.
  intros Hs Hn Hne. pose proof (sheet_mark_spec sh L n Hs Hn) as Hm. destruct (mark sh n) as [c sh'].
  destruct Hm as [[-> _]|[_ Hg]]; [done|apply Hg].
Qed.

(** [try_mark] answers with [mark]'s chunk, or with one that [failed_allocation]
    recognises. *)
Lemma try_mark_spec sh L n :
  sheet_ok sh L -> requested n ->
  exists c sh', try_mark sh n = Some (c, sh') /\
    ((chunk_failed_allocation c = true /\ sh' = sh) \/
     (chunk_failed_allocation c = false /\ fresh L (addr sh) (addr_end sh) n c /\ granted sh sh' L c (Live false))).
Proof.
  intros Hs Hn. pose proof (sheet_mark_spec sh L n Hs Hn) as Hm. pose proof Hs as [He Hr Hl Hh].
  assert (Et : try_mark sh n = Some (if chunk_zero (mark sh n).1 then max_chunk else (mark sh n).1, (mark sh n).2)).
  { unfold try_mark, mark. rewrite He. destruct (bk_allocate (__book sh) n) as [c b].
    destruct (chunk_zero c) eqn:Ez, (chunk_invalid c); cbn; rewrite ?chunk_zero_null, ?Ez; done. }
  destruct (mark sh n) as [c sh']. cbn [fst snd] in Et. eexists _, sh'. split; [exact Et|].
  destruct Hm as [[-> ->]|[Hf HG]]; [left; split; [rewrite chunk_zero_null; apply chunk_max_failed|done]|right].
  pose proof HG as (Hok & _). destruct (bk_grant _ _ _ _ _ (so_rep _ _ Hok) (lookup_insert_eq _ _ _)) as (H1 & H2 & H3 & _).
  destruct (inside_valid sh' _ c Hok H1 H2 H3) as (E1 & _ & E3 & _). rewrite E1. done.
Qed.

(** C30. A served request is a chunk of the sheet; an unserved one leaves it alone
    and shows: [mark] answers null, [try_mark] the chunk that
    [failed_allocation] recognises. *)
Theorem sheet_mark sh L n :
  sheet_ok sh L -> requested n ->
  let '(c, sh') := mark sh n in
  ((c = null_chunk /\ sh' = sh) \/ (fresh L (addr sh) (addr_end sh) n c /\ granted sh sh' L c (Live false))) /\
  try_mark sh n = Some (if chunk_zero c then max_chunk else c, sh') /\
  chunk_failed_allocation (if chunk_zero c then max_chunk else c) = chunk_zero c.
Proof.
  intros Hs Hn. pose proof (sheet_mark_spec sh L n Hs Hn) as Hm. pose proof Hs as [He Hr Hl Hh].
  assert (Et : try_mark sh n = Some (if chunk_zero (mark sh n).1 then max_chunk else (mark sh n).1, (mark sh n).2)).
  { unfold try_mark, mark. rewrite He. destruct (bk_allocate (__book sh) n) as [c b].
    destruct (chunk_zero c) eqn:Ez, (chunk_invalid c); cbn; rewrite ?chunk_zero_null, ?Ez; done. }
  destruct (mark sh n) as [c sh']. split; [done|]. split; [done|].
  destruct Hm as [[-> _]|[Hf (Hok & Hat & Em & Eg)]]; [rewrite chunk_zero_null; apply chunk_max_failed|].
  destruct (bk_grant _ _ _ _ _ (so_rep _ _ Hok) (lookup_insert_eq _ _ _)) as (H1 & H2 & H3 & _).
  destruct (inside_valid sh' _ c Hok H1 H2 H3) as (E1 & _ & E3 & _). by rewrite E1.
Qed.

(** [temporal_mark] on the grants *)
Lemma temporal_mark_spec sh L n :
  sheet_ok sh L -> requested n ->
  let '(c, sh') := temporal_mark sh n in
  (c = null_chunk /\ sh' = sh) \/
  ((fresh L (addr sh) (addr_end sh) n c \/ L !! ptr c = Some (len c, Live true)) /\ granted sh sh' L c (Live true)).
Proof.
  intros Hs Hn. pose proof Hs as [He Hr Hl Hh]. unfold temporal_mark. rewrite He.
  pose proof (bk_temporal _ _ n Hr Hn) as Ha. destruct (bk_temporal_allocate (__book sh) n) as [c b].
  destruct Ha as [[-> ->]|(Hf & Hb & El & Eh)].
  - rewrite chunk_zero_null, set_book_same. by left.
  - assert (Hin : bk_lo (__book sh) <= ptr c /\ ptr c + len c <= bk_hi (__book sh) /\ 0 < len c).
    { destruct Hf as [Hf|Hf]; [destruct Hf; tauto|]. destruct (bk_grant _ _ _ _ _ Hr Hf); tauto. }
    destruct (inside_valid sh L c Hs) as (E1 & E2 & E3 & Hat); try tauto. rewrite E1, E2. right. split.
    + destruct Hf; [left; by eapply fresh_weaken|by right].
    + by apply granted_set.
Qed.

(** What the sheet answers about a grant: it is found exactly when it is not a
    tombstone, its temporal mark shows, and its block is the grant and its
    header. *)
Lemma sheet_grant sh L p n u :
  sheet_ok sh L -> L !! p = Some (n, u) ->
  p <> 0 /\ is_at sh p = true /\ chunk_zero (Chunk p n) = false /\ n <> 0 /\
  find sh p = Some (bool_decide (u <> Dead)) /\ is_block_allocated sh p = bool_decide (u <> Dead) /\
  is_temporal_block sh p = bool_decide (u = Live true) /\ block_size_of sh p = n + __hdr_offset.
Proof.
  intros Hs Hp. pose proof Hs as [He Hr Hl Hh]. destruct (bk_grant _ _ _ _ _ Hr Hp) as (H1 & H2 & H3 & E1 & E2 & E3 & E4).
  destruct (bk_region _ _ Hr) as [H0 H64].
  destruct (inside_valid sh L (Chunk p n) Hs) as (Z1 & Z2 & Z3 & Hat); try done.
  assert (Hp0 : p <> 0) by lia. unfold find, is_block_allocated, is_temporal_block, block_size_of.
  rewrite (proj2 (Z.eqb_neq p 0) Hp0), He, E1, E2, E3, E4, bool_decide_not. split_and!; try done. lia.
Qed.

(** Returning a live grant, with any nonzero size or none *)
Lemma unmark_spec sh L p n t k :
  sheet_ok sh L -> L !! p = Some (n, Live t) -> 0 < k ->
  exists sh', try_unmark sh (Chunk p k) = Some (true, sh') /\ try_unmark_no_size sh p = Some (true, sh') /\
    sheet_ok sh' (delete p L) /\ __kernel_memory sh' = __kernel_memory sh /\ __guard_offset sh' = __guard_offset sh.
Proof.
  intros Hs Hp Hk. pose proof Hs as [He Hr Hl Hh].
  destruct (bk_grant _ _ _ _ _ Hr Hp) as (H1 & H2 & H3 & _). destruct (bk_region _ _ Hr) as [H0 H64].
  destruct (bk_node (__book sh) (Chunk p k)) as [En _]. cbn [ptr len] in En.
  rewrite (proj2 (Z.eqb_neq p 0)), (proj2 (Z.eqb_neq k 0)) in En by lia. cbn [orb] in En.
  destruct (bk_deallocated _ _ _ _ _ Hr Hp) as (b & E & Hb & El & Eh). exists (set_book sh b).
  unfold try_unmark, try_unmark_no_size. rewrite He, En, E, (proj2 (Z.eqb_neq p 0)) by lia.
  rewrite chunk_valid_not_zero by (cbn; unfold usize_max; lia). split_and!; try done. by eapply sheet_ok_set.
Qed.

(** Tombstoning a live grant that is not temporal *)
Lemma sheet_tombstone_spec sh L p n k :
  sheet_ok sh L -> L !! p = Some (n, Live false) -> 0 < k ->
  exists sh', try_tombstone sh (Chunk p k) = Some (true, sh') /\ try_tombstone_no_size sh p = Some (true, sh') /\
    sheet_ok sh' (<[p := (n, Dead)]> L) /\ __kernel_memory sh' = __kernel_memory sh /\
    __guard_offset sh' = __guard_offset sh.
Proof.
  intros Hs Hp Hk. pose proof Hs as [He Hr Hl Hh].
  destruct (bk_grant _ _ _ _ _ Hr Hp) as (H1 & H2 & H3 & _). destruct (bk_region _ _ Hr) as [H0 H64].
  destruct (bk_node (__book sh) (Chunk p k)) as [_ Et]. cbn [ptr len] in Et.
  rewrite (proj2 (Z.eqb_neq p 0)), (proj2 (Z.eqb_neq k 0)) in Et by lia. cbn [orb] in Et.
  destruct (bk_tombstoned_ _ _ _ _ Hr Hp) as (b & E & Hb & El & Eh). exists (set_book sh b).
  unfold try_tombstone, try_tombstone_no_size. rewrite He, Et, E, (proj2 (Z.eqb_neq p 0)) by lia.
  rewrite chunk_valid_not_zero by (cbn; unfold usize_max; lia). split_and!; try done. by eapply sheet_ok_set.
Qed.

(** Returning a live grant succeeds, with or without its size, and takes exactly
    that grant away; tombstoning one makes it dead, so the sheet no longer finds
    it; the other grants stay as they were. *)
Theorem sheet_return sh L p n t :
  sheet_ok sh L -> L !! p = Some (n, Live t) ->
  find sh p = Some true /\
  (exists sh', try_unmark sh (Chunk p n) = Some (true, sh') /\ try_unmark_no_size sh p = Some (true, sh') /\
     sheet_ok sh' (delete p L)) /\
  (t = false -> exists sh', try_tombstone sh (Chunk p n) = Some (true, sh') /\
     try_tombstone_no_size sh p = Some (true, sh') /\ sheet_ok sh' (<[p := (n, Dead)]> L) /\ find sh' p = Some false).
Proof.
  intros Hs Hp. destruct (sheet_grant sh L p n (Live t) Hs Hp) as (Hp0 & Hat & Hz & Hn & Hf & _).
  destruct (bk_grant _ _ _ _ _ (so_rep _ _ Hs) Hp) as (_ & _ & Hn0 & _).
  split_and!.
  - rewrite Hf. by rewrite bool_decide_true.
  - destruct (unmark_spec sh L p n t n Hs Hp Hn0) as (sh' & E1 & E2 & Hok & _). by exists sh'.
  - intros ->. destruct (sheet_tombstone_spec sh L p n n Hs Hp Hn0) as (sh' & E1 & E2 & Hok & _). exists sh'. split_and!; try done.
    destruct (sheet_grant _ _ p n Dead Hok (lookup_insert_eq _ _ _)) as (_ & _ & _ & _ & Ef & _).
    rewrite Ef. by rewrite bool_decide_false by tauto.
Qed.
End SheetLaws.

(** ** From the reservation and back *)

Section Lifecycle.
Context {B : Type} `{CL : ChunkLaws} `{BK : !Book B} `{BL : !BookLaws B}.

(** The addresses of a run are those of the sheet that has it. *)
Lemma run_is_at s off sz (sh : sheet B) p :
  carved s (va_base s + off) sz off -> 0 < sz -> __kernel_memory sh = Chunk (va_base s + off) (round_up sz) ->
  __guard_offset sh = 0 ->
  (va_base s + off <=? p) && (p <? va_base s + off + round_up sz) = is_at sh p.
Proof.
  intros (_ & Hb0 & He & _ & H0 & Hend & Hr) Hsz Em Eg. unfold is_at, addr, addr_end. rewrite Em, Eg. cbn [ptr len].
  rewrite u64_small by lia. rewrite Z.sub_0_r. by destruct (_ && _).
Qed.

Lemma carved_round s slot sz off :
  carved s slot sz off -> 0 < sz <= __va_reservation_size -> carved s slot (round_up sz) off.
Proof.
  intros (H1 & H2 & H3 & H4 & H5 & H6 & H7) Hsz. destruct (round_up_round sz Hsz) as (_ & E & _).
  split_and!; try done; rewrite E; lia.
Qed.

(** A new sheet over the chunk [c] *)
Lemma made_ok m c b :
  bk_make m c = Some b -> bk_placed b = true -> 0 < ptr c -> 0 < len c -> ptr c + len c + 2 ^ 41 < 2 ^ 64 ->
  sheet_ok (Sheet c b 0) ∅.
Proof.
  intros Em Hpl H0 H1 H2. destruct (bk_made m c b Em Hpl) as (Hr & Hlo & Hhi); [lia..|]. split.
  - unfold empty. cbn. apply chunk_valid_not_zero; unfold usize_max; lia.
  - done.
  - done.
  - unfold addr_end. cbn [__kernel_memory __guard_offset __book]. rewrite u64_small by lia. lia.
Qed.

(** Releasing the sheet on a run *)
Lemma release_run unmap_ok w live off sz (sh : sheet B) :
  inv (w_va w) ((off, granules_of sz) :: live) -> carved (w_va w) (va_base (w_va w) + off) sz off ->
  0 < sz <= __va_reservation_size ->
  __kernel_memory sh = Chunk (va_base (w_va w) + off) (round_up sz) -> __guard_offset sh = 0 ->
  exists w' sh', __impl_release unmap_ok w sh = Some (w', sh') /\
    inv (w_va w') live /\ addr sh' = 0 /\ allocated sh' = 0 /\
    forall p, va_base (w_va w) <= p < va_base (w_va w) + __va_reservation_size ->
      __owner_of (w_va w') (w_owners w') p = if is_at sh p then 0 else __owner_of (w_va w) (w_owners w) p.
Proof.
  intros HI Hcv Hsz Em Eg. destruct (round_up_round sz Hsz) as (Hsz' & Err & Egr).
  pose proof Hcv as (_ & Hb0 & Hbe & _ & H0 & Hend & Hru). pose proof (carved_round _ _ _ _ Hcv Hsz) as Hcv'.
  assert (HI' : inv (w_va w) ((off, granules_of (round_up sz)) :: live)) by (by rewrite Egr).
  assert (Hbase : base_ok None (w_va w)) by (split_and!; [lia|done|done]).
  destruct (release_spec _ _ _ _ HI' Hbase ltac:(lia) Hsz') as (HIr & _ & _).
  assert (Hcon : __va_contains (w_va w) (va_base (w_va w) + off) = true) by (apply contains_iff; lia).
  assert (Eb : va_base (__va_release (w_va w) (va_base (w_va w) + off) (round_up sz)) = va_base (w_va w)).
  { unfold __va_release. repeat (case_match; try done). }
  unfold __impl_release. rewrite Em, chunk_valid_not_zero by (cbn; unfold usize_max; lia). cbn [negb].
  unfold __release_kernel_chunk. cbn [ptr len]. rewrite Hcon. eexists _, _. split; [done|].
  cbn [w_va w_owners]. split_and!; [done|done| |].
  - unfold allocated. cbn. by rewrite Eg.
  - intros p Hp. unfold __owner_of at 1. unfold __va_contains, __block_index. rewrite Eb.
    fold (__va_contains (w_va w) p) (__block_index (va_base (w_va w)) p).
    destruct (owner_of_sheet _ (w_owners w) 0 off (round_up sz) p true Hcv' Hsz' Hp) as [_ E].
    unfold __owner_of at 1 in E. rewrite E, Err, (run_is_at _ _ _ sh p Hcv ltac:(lia) Em Eg). done.
Qed.

(** C31. Making a sheet from the reservation: its memory is a whole run of granules,
    apart from every run in use, its book has no grant, every address of it
    belongs to the arena and no other address of the reservation changes hands.
    Releasing it undoes this: the run is free again and nobody owns it. *)
Theorem sheet_lifecycle os ok1 ok2 map oom w w' live owner m sz sh unmap_ok :
  inv (w_va w) live -> base_ok os (w_va w) -> 0 < sz <= __va_reservation_size ->
  (forall q, map = Some q -> __va_contains (w_va w') q = false) ->
  make_sheet os ok1 ok2 map oom w owner m sz = Some (w', sh) ->
  __va_contains (w_va w') (addr sh) = true -> addr sh + 2 ^ 42 < 2 ^ 64 ->
  bk_placed (__book sh) = true ->
  exists off,
    addr sh = va_base (w_va w') + off /\ allocated sh = round_up sz /\
    inv (w_va w') ((off, granules_of sz) :: live) /\ sheet_ok sh ∅ /\
    (forall p, va_base (w_va w') <= p < va_base (w_va w') + __va_reservation_size ->
       __owner_of (w_va w') (w_owners w') p = if is_at sh p then owner else __owner_of (w_va w') (w_owners w) p) /\
    exists w'' sh', __impl_release unmap_ok w' sh = Some (w'', sh') /\
      inv (w_va w'') live /\ addr sh' = 0 /\ allocated sh' = 0 /\
      (forall p, va_base (w_va w') <= p < va_base (w_va w') + __va_reservation_size ->
         __owner_of (w_va w'') (w_owners w'') p = if is_at sh p then 0 else __owner_of (w_va w') (w_owners w') p).
Proof.
  intros HI Hb Hsz Hmap E Hc Hu Hpl. unfold make_sheet, __get_kernel_chunk in E.
  pose proof (carve_spec os ok1 ok2 (w_va w) live sz HI Hb Hsz) as Hcarve.
  destruct (__va_carve os ok1 ok2 (w_va w) sz) as [q v].
  destruct Hcarve as [(-> & HI' & Hwhy)|(off & Hcv & HI' & Hap)].
  { exfalso. cbn [Z.eqb negb] in E. unfold sys_alloc in E. destruct map as [q|]; [|done].
    destruct (q =? 0); [done|]. unfold sheet_make in E. destruct (bk_make m _) as [b|]; [|done].
    cbn in E. injection E as <- <-. specialize (Hmap q eq_refl).
    change (__va_contains v q = true) in Hc. change (__va_contains v q = false) in Hmap. congruence. }
  pose proof Hcv as (-> & Hb0 & Hbe & _ & H0 & Hend & Hru).
  rewrite (proj2 (Z.eqb_neq (va_base v + off) 0)) in E by lia. cbn [negb] in E. fold (round_up sz) in E.
  destruct (round_up_round sz Hsz) as (Hsz' & Err & Egr). pose proof (carved_round _ _ _ _ Hcv Hsz) as Hcv'.
  unfold sheet_make in E. destruct (bk_make m _) as [b|] eqn:Em; [|done]. cbn in E. injection E as <- <-.
  cbn [w_va w_owners __book addr ptr len __kernel_memory] in *. exists off.
  change __va_reservation_size with (2 ^ 38) in Hsz', Hend, Hbe.
  assert (Hat : forall p, is_at (Sheet (Chunk (va_base v + off) (round_up sz)) b 0) p =
    (va_base v + off <=? p) && (p <? va_base v + off + round_up sz)).
  { intros p. symmetry. apply (run_is_at v); [done|lia|done|done]. }
  split_and!; [done|unfold allocated; cbn; rewrite u64_small; lia|done| | |].
  - by apply (made_ok m (Chunk (va_base v + off) (round_up sz))); cbn; try lia.
  - intros p Hp. destruct (owner_of_sheet v (w_owners w) owner off (round_up sz) p oom Hcv' Hsz' Hp) as [E' _].
    rewrite E', Err, Hat. done.
  - by apply (release_run unmap_ok (World v _) live off sz).
Qed.
End Lifecycle.

(** ** Witnesses: a two-level sheet of 2 MiB *)

Section Witness.
#[local] Existing Instance PlainChunk.ops.
#[local] Existing Instance PlainChunk.laws.
#[local] Instance demo_book : Book tlsf := tlsf_book __class_precise.
#[local] Instance demo_laws : BookLaws tlsf := tlsf_book_laws __class_precise.

Definition demo_world : world := World va_demo owners_init.
Definition demo_made : option (world * sheet tlsf) := make_sheet None true true None true demo_world 7 ∅ 100000.
Definition demo_world1 : world := default demo_world (fst <$> demo_made).
Definition demo_sheet : sheet tlsf := default (Sheet null_chunk (blank ∅) 0) (snd <$> demo_made).
Definition demo_c : chunk := Chunk 2101312 1056.
Definition demo_sheet1 : sheet tlsf := (mark demo_sheet 1000).2.
Definition demo_grants : grants := <[ptr demo_c := (len demo_c, Live false)]> ∅.

Lemma demo_made_eq : demo_made = Some (demo_world1, demo_sheet).
Proof. unfold demo_world1, demo_sheet. assert (E : is_Some demo_made) by (vm_compute; eauto). by destruct E as [[] ->]. Qed.

Lemma demo_sheet_ok : sheet_ok demo_sheet ∅.
Proof.
  assert (E : exists b, __book demo_sheet = b /\ bk_make ∅ (Chunk 2101248 2097152) = Some b /\
    demo_sheet = Sheet (Chunk 2101248 2097152) b 0 /\ bk_placed b = true).
  { eexists. split; [reflexivity|]. split_and!; vm_compute; reflexivity. }
  destruct E as (b & _ & Em & -> & Hpl). apply (made_ok ∅); try done; cbn; lia.
Qed.
Lemma demo_c_eq : (mark demo_sheet 1000).1 = demo_c.
Proof. vm_compute. reflexivity. Qed.

Lemma demo_sheet1_ok : sheet_ok demo_sheet1 demo_grants.
Proof.
  pose proof (mark_granted demo_sheet ∅ 1000 demo_sheet_ok ltac:(unfold requested; lia)) as H.
  rewrite demo_c_eq in H. apply H. discriminate.
Qed.

Lemma sheet_mark_witness :
  requested 1000 /\ fresh ∅ (addr demo_sheet) (addr_end demo_sheet) 1000 demo_c /\
  is_at demo_sheet (ptr demo_c) = true.
Proof.
  assert (Hn : requested 1000) by (unfold requested; lia). split; [exact Hn|].
  pose proof (sheet_mark demo_sheet ∅ 1000 demo_sheet_ok Hn) as H. pose proof demo_c_eq as Ec.
  destruct (mark demo_sheet 1000) as [c sh']. cbn [fst] in *.
  destruct H as [[[E _]|[Hf Hg]] _]; [rewrite Ec in E; discriminate|]. rewrite <- Ec. split; [exact Hf|apply Hg].
Defined.

Lemma sheet_return_witness :
  find demo_sheet1 (ptr demo_c) = Some true /\
  exists sh', try_unmark demo_sheet1 demo_c = Some (true, sh') /\ sheet_ok sh' ∅.
Proof.
  assert (Hp : demo_grants !! ptr demo_c = Some (len demo_c, Live false)) by apply lookup_insert_eq.
  destruct (sheet_return demo_sheet1 demo_grants (ptr demo_c) (len demo_c) false demo_sheet1_ok Hp)
    as (Hf & (sh' & E & _ & Hs) & _).
  split; [exact Hf|]. exists sh'. split; [exact E|]. unfold demo_grants in Hs.
  by rewrite delete_insert_id in Hs.
Defined.

Lemma sheet_lifecycle_witness :
  exists off w'' sh', addr demo_sheet = va_base (w_va demo_world1) + off /\
    __owner_of (w_va demo_world1) (w_owners demo_world1) (ptr demo_c) = 7 /\
    __impl_release true demo_world1 demo_sheet = Some (w'', sh') /\
    __owner_of (w_va w'') (w_owners w'') (ptr demo_c) = 0.
Proof.
  destruct (sheet_lifecycle None true true None true demo_world demo_world1 [(0, 1)] 7 ∅ 100000 demo_sheet true)
    as (off & Ea & _ & _ & _ & Ho & w'' & sh' & E & _ & _ & _ & Hr).
  - exact va_demo_inv.
  - by apply va_demo_base.
  - split; [lia|by vm_compute].
  - discriminate.
  - exact demo_made_eq.
  - by vm_compute.
  - by vm_compute.
  - by vm_compute.
  - assert (Hp : va_base (w_va demo_world1) <= ptr demo_c < va_base (w_va demo_world1) + __va_reservation_size)
      by (split; by vm_compute).
    assert (Hat : is_at demo_sheet (ptr demo_c) = true) by (vm_compute; reflexivity).
    specialize (Ho _ Hp). specialize (Hr _ Hp). rewrite Hat in Ho, Hr. exists off, w'', sh'. by split_and!.
Defined.
End Witness.
