(* ===== verification/Kernel.v ===== *)
(** * The process an arena runs in

    How a run of the allocator ends, the build settings of
    src/src/config_amd64.hpp the arena branches on, and what comes from outside
    the repository: the answers of the kernel, one per call and in order, and
    the floating-point growth curves of src/src/hooks.hpp, which are computed
    with the micron math library. *)

From S2P Require Import Prelude.
From S2P Require Import Config.
From S2P Require Import VaReserve.
From S2P Require Import Owner.
From S2P Require Import Hooks.
From S2P Require Import Book.
From S2P Require Import Sheet.

(** ** Outcomes *)

(** [Abort]: the process is ended deliberately ([abort_state], [micron::abort],
    an uncaught critical error).  [Stuck]: undefined behaviour, a null or
    dangling pointer is followed.  [OutOfFuel]: the model's recursion bound was
    reached, which is no behaviour of the program. *)
Inductive res (A : Type) := Ok (a : A) | Abort | Stuck | OutOfFuel.
Arguments Ok {A}.
Arguments Abort {A}.
Arguments Stuck {A}.
Arguments OutOfFuel {A}.

Definition bind {A B} (r : res A) (f : A -> res B) : res B :=
  match r with
  | Ok a => f a
  | Abort => Abort
  | Stuck => Stuck
  | OutOfFuel => OutOfFuel
  end.

Lemma Ok_pair {A B} (a c : A) (b d : B) : Ok (a, b) = Ok (c, d) -> a = c /\ b = d.
Proof. by intros [= -> ->]. Qed.

Notation "'let*' x := r 'in' f" := (bind r (fun x => f))
  (at level 200, x pattern, r at level 100, f at level 200, right associativity).

(** [or_abort], [or_stuck]: an optional result whose absence ends the process,
    or is undefined. *)
Definition or_abort {A} (o : option A) : res A := match o with Some a => Ok a | None => Abort end.
Definition or_stuck {A} (o : option A) : res A := match o with Some a => Ok a | None => Stuck end.
Definition or_fuel {A} (o : option A) : res A := match o with Some a => Ok a | None => OutOfFuel end.

(** ** Settings *)

Class Settings := {
  __default_guard_arena_metadata : bool;
  __default_insert_guard_pages : bool;
  __default_launder : bool;
  __default_per_class_free_cache : bool;
  __default_persistent_mode : bool;
  __default_lazy_construct : bool;
  __default_eager_hot_tiers : bool;
  __default_init_large_pages : bool;
  __default_self_cleanup : bool;
  __default_enforce_provenance : bool;
  __default_multithread_safe : bool;
  __default_collect_stats : bool;
  __default_oom_enable : bool;
  __tombstone_precise : bool;
  __tombstone_small : bool;
  __tombstone_medium : bool;
  __tombstone_large : bool;
  __tombstone_huge : bool;
  __default_max_retries : Z;
  __default_overcommit : Z;
  __default_cache_step : Z;
  __default_arena_page_buf : Z;
  __default_cache_size_factor : Z
}.

(** The defaults of config_amd64.hpp *)
Definition amd64_settings : Settings := {|
  __default_guard_arena_metadata := true;
  __default_insert_guard_pages := true;
  __default_launder := false;
  __default_per_class_free_cache := true;
  __default_persistent_mode := false;
  __default_lazy_construct := true;
  __default_eager_hot_tiers := true;
  __default_init_large_pages := false;
  __default_self_cleanup := false;
  __default_enforce_provenance := false;
  __default_multithread_safe := true;
  __default_collect_stats := false;
  __default_oom_enable := false;
  __tombstone_precise := false;
  __tombstone_small := false;
  __tombstone_medium := false;
  __tombstone_large := true;
  __tombstone_huge := true;
  __default_max_retries := 2;
  __default_overcommit := 1;
  __default_cache_step := 768;
  __default_arena_page_buf := 512;
  __default_cache_size_factor := Z.shiftl 1 13
|}.

(** [__default_magic_size] *)
Definition __default_magic_size : Z := usize_max.

(** ** The platform *)

(** What the kernel answers at one call: the base of the reservation, whether
    the two commits of a carve succeed, the address of a direct mapping, whether
    [munmap] and [mprotect] succeed; whether memory for an owner node can be
    had; the contents of the memory handed out; and whether [check_oom] finds
    too little memory free. *)
Record answers := Answers {
  a_os : option Z;
  a_commit1 : bool;
  a_commit2 : bool;
  a_map : option Z;
  a_unmap : bool;
  a_protect : bool;
  a_oom : bool;
  a_mem : zmap;
  a_pressure : bool
}.

(** [kernel i] answers the call number [i].  The [sizeof_] fields are the sizes
    the compiler gives the sheet classes, the weights compile-time constants
    computed with [powerf], [prealloc_size] a share of the installed memory. *)
Class Platform := {
  kernel : nat -> answers;
  mmap_failed : Z -> bool;
  __calculate_space_cache : Z -> Z;
  __calculate_space_small : Z -> Z;
  __calculate_space_medium : Z -> Z;
  __calculate_space_large : Z -> Z;
  __calculate_space_huge : Z -> Z;
  __calculate_space_bulk : Z -> Z;
  __weight_for_class : Z -> Z;
  __class_weight_denom : Z;
  prealloc_size : Z;
  sizeof_sheet : Z;
  sizeof_tlsf_sheet : Z
}.

(** [sizeof(node<T>)]: three pointers, aligned to 16 *)
Definition sizeof_node : Z := 32.

(** The process as the sheets see it, with the number of kernel calls made and
    the pages made inaccessible. *)
Record process := Process { p_world : world; p_tick : nat; p_guards : list chunk }.

Section Process.
Context `{ChunkOps} `{Platform}.

Definition ask (p : process) : answers * process :=
  (kernel (p_tick p), Process (p_world p) (S (p_tick p)) (p_guards p)).

Definition set_world (p : process) (w : world) : process := Process w (p_tick p) (p_guards p).

(** [__get_kernel_chunk] with the answer of the moment *)
Definition kernel_chunk (p : process) (sz : Z) : res (chunk * process) :=
  let '(a, p) := ask p in
  let w := p_world p in
  let '(r, v) := __get_kernel_chunk (a_os a) (a_commit1 a) (a_commit2 a) (a_map a) (w_va w) sz in
  let* c := or_abort r in
  Ok (c, set_world p (World v (w_owners w))).

(** [mprotect(mem.ptr + (mem.len - __system_pagesize), __system_pagesize, ...)];
    failing ends the process. *)
Definition __make_guard (p : process) (mem : chunk) : res process :=
  let '(a, p) := ask p in
  if negb (a_protect a) then Abort else
  Ok (Process (p_world p) (p_tick p)
        (Chunk (ptr mem + u64 (len mem - __system_pagesize)) __system_pagesize :: p_guards p)).

Definition __page_round (sz : Z) : Z :=
  Z.ldiff (u64 (u64 (sz + __system_pagesize) - 1)) (__system_pagesize - 1).

Definition __get_guarded_kernel_chunk (p : process) (sz : Z) : res (chunk * process) :=
  let* (c, p) := kernel_chunk p (u64 (sz + __system_pagesize)) in
  if chunk_zero c || mmap_failed (ptr c) then Abort else
  let* p := __make_guard p c in
  Ok (c, p).

Definition __kernel_chunk_valid (c : chunk) : bool :=
  negb (ptr c =? 0) && negb (mmap_failed (ptr c)) && negb (len c =? 0).

(** A sheet constructed over a chunk for the arena [owner], with or without a
    guard page at the chunk's end *)
Definition new_sheet {B} `{Book B} (owner : Z) (guarded : bool) (p : process) (c : chunk) : res (sheet B * process) :=
  let '(a, p) := ask p in
  let made := if guarded then sheet_make_guarded (a_oom a) (p_world p) owner (a_mem a) c __system_pagesize
              else sheet_make (a_oom a) (p_world p) owner (a_mem a) c in
  let* (w, sh) := or_abort made in
  Ok (sh, set_world p w).

(** [reset()] and [release()] *)
Definition release_sheet {B} `{Book B} (p : process) (sh : sheet B) : res (sheet B * process) :=
  let '(a, p) := ask p in
  let* (w, sh) := or_abort (__impl_release (a_unmap a) (p_world p) sh) in
  Ok (sh, set_world p w).
End Process.
