(* ===== verification/Ledger.v ===== *)
(** * The ledger of the doctor (src/src/doctor.hpp, lines 431-642, 805-822, 1588-1601, 1804-1885)

    The doctor keeps a record of every pointer handed out, in a hash table of
    its own with linear probing, and a ring of the last events.  Table and ring
    are anonymous mappings: a slot never written is an empty record.  Whether
    the kernel grants a mapping is an argument ([Mapper]).  Printing is left
    out. *)

From S2P Require Import Prelude.

Definition __doctor_bt_depth : Z := 4.
Definition __doctor_event_ring_cap : Z := Z.shiftl 1 16.
Definition __default_doctor_max_records : Z := Z.shiftl 1 24.

Inductive __rec_state := rs_empty | rs_live | rs_freed | rs_tombstoned | rs_quarantined.

#[export] Instance rec_state_eq_dec : EqDecision __rec_state.
Proof. solve_decision. Defined.

Definition __rec_flag_chunk : Z := 1.
Definition __rec_flag_pre_exe_init : Z := 2.

Record __rec := Rec {
  key : Z;
  req_size : Z;
  blk_size : Z;
  alloc_op : Z;
  free_op : Z;
  owner : Z;
  alloc_tid : Z;
  free_tid : Z;
  state : __rec_state;
  flags : Z;
  hdr_shadow : Z;
  free_len : Z;
  alloc_bt : list Z
}.

(** A slot of zero bytes *)
Definition no_rec : __rec := Rec 0 0 0 0 0 0 0 0 rs_empty 0 0 0 [].

Definition sizeof_rec : Z := 104.
Definition sizeof_event : Z := 32.

Record __event := Event { e_op : Z; e_key : Z; e_size : Z; e_tid : Z; e_kind : Z }.

(** [slots] and [ev] are null or a mapping; [mappings] counts the mappings asked
    for. *)
Record __doctor_state := Doctor {
  op_counter : Z;
  corruption_events : Z;
  remote_free_events : Z;
  lock : bool;
  slots : option (gmap Z __rec);
  cap : Z;
  mask : Z;
  occupied : Z;
  n_live : Z;
  n_freed : Z;
  ev : option (gmap Z __event);
  ev_total : Z;
  mappings : nat
}.

(** [inline __doctor_state __dr{}] *)
Definition __dr : __doctor_state := Doctor 0 0 0 false None 0 0 0 0 0 None 0 0.

Definition set_ops (d : __doctor_state) (op corr rem : Z) (l : bool) : __doctor_state :=
  Doctor op corr rem l (slots d) (cap d) (mask d) (occupied d) (n_live d) (n_freed d) (ev d) (ev_total d) (mappings d).
Definition set_table (d : __doctor_state) (m : option (gmap Z __rec)) (c k o : Z) : __doctor_state :=
  Doctor (op_counter d) (corruption_events d) (remote_free_events d) (lock d) m c k o (n_live d) (n_freed d) (ev d) (ev_total d) (mappings d).
Definition set_counts (d : __doctor_state) (l f : Z) : __doctor_state :=
  Doctor (op_counter d) (corruption_events d) (remote_free_events d) (lock d) (slots d) (cap d) (mask d) (occupied d) l f (ev d) (ev_total d) (mappings d).
Definition set_ring (d : __doctor_state) (r : option (gmap Z __event)) (t : Z) (n : nat) : __doctor_state :=
  Doctor (op_counter d) (corruption_events d) (remote_free_events d) (lock d) (slots d) (cap d) (mask d) (occupied d) (n_live d) (n_freed d) r t n.

(** [old[i]], [slots[i] = r] *)
Definition slot_of (m : gmap Z __rec) (i : Z) : __rec := default no_rec (m !! i).
Definition table (d : __doctor_state) : gmap Z __rec := default ∅ (slots d).
Definition put_slot (d : __doctor_state) (i : Z) (r : __rec) : __doctor_state :=
  set_table d (Some (<[i := r]> (table d))) (cap d) (mask d) (occupied d).

(** [fetch_add(1)] on [op_counter]: the old value *)
Definition next_op (d : __doctor_state) : Z * __doctor_state :=
  (op_counter d, set_ops d (u64 (op_counter d + 1)) (corruption_events d) (remote_free_events d) (lock d)).

(** splitmix64 *)
Definition __hash (k : Z) : Z :=
  let x := Z.shiftr k 4 in
  let x := Z.lxor x (Z.shiftr x 30) in
  let x := u64 (x * 0xbf58476d1ce4e5b9) in
  let x := Z.lxor x (Z.shiftr x 27) in
  let x := u64 (x * 0x94d049bb133111eb) in
  Z.lxor x (Z.shiftr x 31).

(** [map_granted i n]: the kernel grants the mapping number [i], of [n] bytes. *)
Class Mapper := { map_granted : nat -> Z -> bool }.

(** ** Probing *)

Fixpoint probe_slot (m : gmap Z __rec) (msk k i : Z) (n : nat) : option Z :=
  match n with
  | O => None
  | S n =>
      let s := slot_of m i in
      if bool_decide (state s = rs_empty) || (key s =? k) then Some i
      else probe_slot m msk k (Z.land (u64 (i + 1)) msk) n
  end.

Fixpoint probe_find (m : gmap Z __rec) (msk k i : Z) (n : nat) : option Z :=
  match n with
  | O => None
  | S n =>
      let s := slot_of m i in
      if bool_decide (state s = rs_empty) then None else
      if key s =? k then Some i
      else probe_find m msk k (Z.land (u64 (i + 1)) msk) n
  end.

Definition __slot_for (d : __doctor_state) (k : Z) : option Z :=
  match slots d with
  | None => None
  | Some m => probe_slot m (mask d) k (Z.land (__hash k) (mask d)) (Z.to_nat (cap d + 1))
  end.

Definition __find (d : __doctor_state) (k : Z) : option Z :=
  match slots d with
  | None => None
  | Some m => probe_find m (mask d) k (Z.land (__hash k) (mask d)) (Z.to_nat (cap d + 1))
  end.

(** ** Growing *)

(** The body of the loops that fill a fresh table *)
Definition move_in (d : __doctor_state) (r : __rec) : __doctor_state :=
  match __slot_for d (key r) with
  | Some j => set_table d (Some (<[j := r]> (table d))) (cap d) (mask d) (u64 (occupied d + 1))
  | None => d
  end.

(** What [__rehash] and [__drop_freed] keep *)
Definition used_rec (r : __rec) : bool := negb (bool_decide (state r = rs_empty)) && negb (key r =? 0).
Definition live_rec (r : __rec) : bool := bool_decide (state r = rs_live).

Definition refill (keep : __rec -> bool) (old : gmap Z __rec) (oldcap : Z) (d : __doctor_state) : __doctor_state :=
  foldl (fun d i => if keep (slot_of old i) then move_in d (slot_of old i) else d) d (seqZ 0 oldcap).

Section Ledger.
Context `{Mapper}.

Definition __mmap_bytes (d : __doctor_state) (n : Z) : bool * __doctor_state :=
  (map_granted (mappings d) n, set_ring d (ev d) (ev_total d) (S (mappings d))).

Definition __rehash (d : __doctor_state) (newcap : Z) : __doctor_state :=
  if newcap =? 0 then d else
  let '(ok, d1) := __mmap_bytes d (u64 (newcap * sizeof_rec)) in
  if negb ok then d1 else
  let fresh := set_table d1 (Some ∅) newcap (newcap - 1) 0 in
  match slots d with
  | None => fresh
  | Some old => refill used_rec old (cap d) fresh
  end.

Definition __ensure (d : __doctor_state) : __doctor_state :=
  match slots d with None => __rehash d (Z.shiftl 1 12) | Some _ => d end.

Definition __drop_freed (d : __doctor_state) : bool * __doctor_state :=
  match slots d with
  | None => (false, d)
  | Some old =>
      if occupied d <=? n_live d then (false, d) else
      let '(ok, d) := __mmap_bytes d (u64 (cap d * sizeof_rec)) in
      if negb ok then (false, d) else
      let d := refill live_rec old (cap d) (set_table d (Some ∅) (cap d) (cap d - 1) 0) in
      (true, set_counts d (n_live d) 0)
  end.

(** [occupied * 10 < cap * 7] *)
Definition below_load (d : __doctor_state) : bool := u64 (occupied d * 10) <? u64 (cap d * 7).

Definition __grow_if_needed (d : __doctor_state) : __doctor_state :=
  if cap d =? 0 then d else
  if below_load d then d else
  let newcap := u64 (Z.shiftl (cap d) 1) in
  if __default_doctor_max_records <? newcap then
    let '(dropped, d) := __drop_freed d in
    if dropped && below_load d then d else __rehash d newcap
  else __rehash d newcap.

(** ** The ring of events *)

Definition __push_event (d : __doctor_state) (kind k size op tid : Z) : __doctor_state :=
  let push d r :=
    set_ring d (Some (<[Z.land (ev_total d) (__doctor_event_ring_cap - 1) := Event op k size tid kind]> r))
      (u64 (ev_total d + 1)) (mappings d) in
  match ev d with
  | Some r => push d r
  | None =>
      let '(ok, d) := __mmap_bytes d (u64 (__doctor_event_ring_cap * sizeof_event)) in
      if ok : bool then push d ∅ else d
  end.

(** ** Changing records *)

(** The slot of a pointer about to be recorded: the start of [record_alloc] *)
Definition open_slot (d : __doctor_state) (p : Z) : __doctor_state * option Z :=
  let d := __ensure d in
  match slots d with
  | None => (d, None)
  | Some _ => let d := __grow_if_needed d in (d, __slot_for d p)
  end.

(** [if ( n ) --n] *)
Definition down (n : Z) : Z := if n =? 0 then 0 else n - 1.

(** The counters of [record_alloc], by the state the slot had *)
Definition count_alloc (d : __doctor_state) (s : __rec_state) : __doctor_state :=
  let d := if bool_decide (s = rs_empty) then set_table d (slots d) (cap d) (mask d) (u64 (occupied d + 1))
           else if bool_decide (s = rs_freed) || bool_decide (s = rs_tombstoned)
           then set_counts d (n_live d) (down (n_freed d)) else d in
  if negb (bool_decide (s = rs_live)) then set_counts d (u64 (n_live d + 1)) (n_freed d) else d.

Definition __mark_free_locked (d : __doctor_state) (p : Z) (to : __rec_state) (len tid : Z) : __doctor_state :=
  match __find d p with
  | None => d
  | Some i =>
      let s := slot_of (table d) i in
      if bool_decide (state s = rs_freed) || bool_decide (state s = rs_tombstoned) || bool_decide (state s = rs_quarantined)
      then d else
      let l := if bool_decide (state s = rs_live) then down (n_live d) else n_live d in
      let d := set_counts d l (u64 (n_freed d + 1)) in
      let '(op, d) := next_op d in
      let d := put_slot d i (Rec (key s) (req_size s) (blk_size s) (alloc_op s) op (owner s) (alloc_tid s) tid to
                               (flags s) (hdr_shadow s) len (alloc_bt s)) in
      __push_event d (if bool_decide (to = rs_tombstoned) then 2 else 1) (key s) len op tid
  end.
End Ledger.

Definition set_state (s : __rec) (to : __rec_state) : __rec :=
  Rec (key s) (req_size s) (blk_size s) (alloc_op s) (free_op s) (owner s) (alloc_tid s) (free_tid s) to
    (flags s) (hdr_shadow s) (free_len s) (alloc_bt s).
Definition set_flags (s : __rec) (f : Z) : __rec :=
  Rec (key s) (req_size s) (blk_size s) (alloc_op s) (free_op s) (owner s) (alloc_tid s) (free_tid s) (state s)
    f (hdr_shadow s) (free_len s) (alloc_bt s).
Definition set_request (s : __rec) (n blk shadow : Z) : __rec :=
  Rec (key s) n blk (alloc_op s) (free_op s) (owner s) (alloc_tid s) (free_tid s) (state s)
    (flags s) shadow (free_len s) (alloc_bt s).

Definition __quarantine_locked (d : __doctor_state) (p : Z) : __doctor_state :=
  match __find d p with
  | None => d
  | Some i =>
      let s := slot_of (table d) i in
      let l := if bool_decide (state s = rs_live) then down (n_live d) else n_live d in
      put_slot (set_counts d l (n_freed d)) i (set_state s rs_quarantined)
  end.

(** ** Searching *)

(** [r.key + r.req_size] *)
Definition rec_end (r : __rec) : Z := u64 (key r + req_size r).

Definition __find_preceding_live (d : __doctor_state) (p max_gap : Z) : option Z :=
  match slots d with
  | None => None
  | Some m =>
      fst (foldl (fun acc i =>
        let '(best, best_end) := acc in
        let r := slot_of m i in
        if negb (bool_decide (state r = rs_live)) then (best, best_end) else
        let e := rec_end r in
        if (e <=? p) && (p - e <=? max_gap) && (best_end <=? e) then (Some i, e) else (best, best_end))
        (None, 0) (seqZ 0 (cap d)))
  end.

Fixpoint first_slot (test : __rec -> bool) (m : gmap Z __rec) (l : list Z) : option Z :=
  match l with
  | [] => None
  | i :: l => if test (slot_of m i) then Some i else first_slot test m l
  end.

Definition __find_containing_live (d : __doctor_state) (p : Z) : option Z :=
  match slots d with
  | None => None
  | Some m => first_slot (fun r => bool_decide (state r = rs_live) && negb (key r =? p)
                                   && ((key r <? p) && (p <? rec_end r))) m (seqZ 0 (cap d))
  end.

Definition __find_containing_any (d : __doctor_state) (p : Z) : option Z :=
  match slots d with
  | None => None
  | Some m => first_slot (fun r => negb (bool_decide (state r = rs_empty) || (key r =? 0))
                                   && ((key r <=? p) && (p <? rec_end r))) m (seqZ 0 (cap d))
  end.
