(* ===== verification/LedgerInv.v ===== *)
(** * The ledger is a hash table (src/src/doctor.hpp, lines 512-634)

    Probing from the hash of a key meets no empty slot before the record of the
    key, keys are unique, and a fresh table filled from an old one holds the
    records that were to be kept. *)

From S2P Require Import Prelude.
From S2P Require Import Ledger.

(** The [n]-th slot probed for a key *)
Definition pos (c k n : Z) : Z := (__hash k + n) mod c.

(** The slots probed before the [n]-th hold other keys. *)
Definition busy (m : gmap Z __rec) (c k n : Z) : Prop :=
  forall j, 0 <= j < n -> exists r, m !! pos c k j = Some r /\ key r <> k.

Definition recs (m : gmap Z __rec) (r : __rec) : Prop := exists i, m !! i = Some r.

Record good_table (m : gmap Z __rec) (c : Z) : Prop := {
  gt_cap : exists e, 0 <= e < 62 /\ c = 2 ^ e;
  gt_used i r : m !! i = Some r -> 0 <= i < c /\ state r <> rs_empty /\ key r <> 0;
  gt_path i r : m !! i = Some r -> exists n, 0 <= n < c /\ i = pos c (key r) n /\ busy m c (key r) n
}.

(** The table as a map from keys *)
Definition keyed (m M : gmap Z __rec) : Prop := forall k r, M !! k = Some r <-> key r = k /\ recs m r.

Section Table.
Context (m : gmap Z __rec) (c : Z) (G : good_table m c).

Lemma cap_bounds : 0 < c < 2 ^ 62.
Proof using G. destruct (gt_cap _ _ G) as (e & He & ->). split; [|apply Z.pow_lt_mono_r]; lia. Qed.

Lemma pos_start k : Z.land (__hash k) (c - 1) = pos c k 0.
Proof using G. destruct (gt_cap _ _ G) as (e & He & E). unfold pos. by rewrite E, Z.add_0_r, land_mask by lia. Qed.

Lemma pos_next k n : Z.land (u64 (pos c k n + 1)) (c - 1) = pos c k (n + 1).
Proof using G.
  pose proof cap_bounds as Hc. unfold pos at 1. pose proof (Z.mod_pos_bound (__hash k + n) c ltac:(lia)).
  rewrite u64_small by lia. destruct (gt_cap _ _ G) as (e & He & E). unfold pos.
  rewrite E, land_mask, Z.add_mod_idemp_l, Z.add_assoc by lia. done.
Qed.

Lemma pos_range k n : 0 <= pos c k n < c.
Proof using G. pose proof cap_bounds. apply Z.mod_pos_bound. lia. Qed.

Lemma slot_some i r : m !! i = Some r -> slot_of m i = r.
Proof using. intros E. unfold slot_of. by rewrite E. Qed.

Lemma slot_empty i : state (slot_of m i) = rs_empty <-> m !! i = None.
Proof using G.
  unfold slot_of. destruct (m !! i) as [r|] eqn:E; cbn; [|done].
  destruct (gt_used _ _ G _ _ E) as (_ & Hs & _). by split; [intros|].
Qed.

Lemma busy_succ k n r : busy m c k n -> m !! pos c k n = Some r -> key r <> k -> busy m c k (n + 1).
Proof using.
  intros Hb E Hk j Hj. destruct (Z.eq_dec j n) as [->|]; [by exists r|]. apply Hb. lia.
Qed.

(** Probing for a slot: a free slot or the record of the key, or all slots have
    other keys. *)
Lemma probe_slot_spec k f : forall n, 0 <= n -> busy m c k n ->
  match probe_slot m (c - 1) k (pos c k n) f with
  | Some i => exists n', n <= n' < n + Z.of_nat f /\ i = pos c k n' /\ busy m c k n' /\
                (m !! i = None \/ exists r, m !! i = Some r /\ key r = k)
  | None => busy m c k (n + Z.of_nat f)
  end.
Proof using G.
  induction f as [|f IH]; intros n Hn Hb; cbn [probe_slot]; [by rewrite Z.add_0_r|].
  destruct (bool_decide_reflect (state (slot_of m (pos c k n)) = rs_empty)) as [He|He]; cbn [orb].
  { exists n. split; [lia|]. split; [done|]. split; [done|]. left. by apply slot_empty. }
  rewrite slot_empty in He. destruct (m !! pos c k n) as [r|] eqn:E; [|done]. rewrite (slot_some _ _ E).
  destruct (Z.eqb_spec (key r) k) as [Hk|Hk].
  { exists n. split; [lia|]. split; [done|]. split; [done|]. right. by exists r. }
  rewrite pos_next. specialize (IH (n + 1) ltac:(lia) (busy_succ _ _ _ Hb E Hk)).
  replace (n + Z.of_nat (S f)) with (n + 1 + Z.of_nat f) by lia.
  destruct (probe_slot m (c - 1) k (pos c k (n + 1)) f) as [i|]; [|done].
  destruct IH as (n' & Hn' & IH). exists n'. split; [lia|done].
Qed.

Lemma probe_find_spec k f : forall n, 0 <= n -> busy m c k n ->
  match probe_find m (c - 1) k (pos c k n) f with
  | Some i => exists r, m !! i = Some r /\ key r = k
  | None => (exists n', 0 <= n' /\ busy m c k n' /\ m !! pos c k n' = None) \/ busy m c k (n + Z.of_nat f)
  end.
Proof using G.
  induction f as [|f IH]; intros n Hn Hb; cbn [probe_find]; [right; by rewrite Z.add_0_r|].
  destruct (bool_decide_reflect (state (slot_of m (pos c k n)) = rs_empty)) as [He|He].
  { left. exists n. split; [done|]. split; [done|]. by apply slot_empty. }
  rewrite slot_empty in He. destruct (m !! pos c k n) as [r|] eqn:E; [|done]. rewrite (slot_some _ _ E).
  destruct (Z.eqb_spec (key r) k) as [Hk|Hk]; [by exists r|].
  rewrite pos_next. replace (n + Z.of_nat (S f)) with (n + 1 + Z.of_nat f) by lia.
  apply IH; [lia|]. by apply (busy_succ _ _ r).
Qed.

Lemma busy_0 k : busy m c k 0.
Proof using. intros j Hj. lia. Qed.

(** A record lies where its key is first met. *)
Lemma keys_unique i i' r r' : m !! i = Some r -> m !! i' = Some r' -> key r = key r' -> i = i'.
Proof using G.
  intros E E' Hk. destruct (gt_path _ _ G _ _ E) as (n & Hn & -> & Hb).
  destruct (gt_path _ _ G _ _ E') as (n' & Hn' & -> & Hb'). rewrite <- Hk in *.
  destruct (Z.lt_trichotomy n n') as [Hlt|[->|Hlt]]; [|done|].
  - destruct (Hb' n ltac:(lia)) as (x & Ex & Hx). congruence.
  - destruct (Hb n' ltac:(lia)) as (x & Ex & Hx). congruence.
Qed.

Lemma recs_unique r r' : recs m r -> recs m r' -> key r = key r' -> r = r'.
Proof using G. intros [i E] [i' E'] Hk. rewrite (keys_unique i i' r r' E E' Hk) in E. congruence. Qed.

(** A full round that finds only other keys means a full table. *)
Lemma busy_full k : busy m c k c -> c <= Z.of_nat (size m).
Proof using G.
  intros Hb. pose proof cap_bounds as Hc.
  assert (Hsub : list_to_set (seqZ 0 c) ⊆ dom m).
  { intros i Hi. apply elem_of_list_to_set, elem_of_seqZ in Hi. apply elem_of_dom.
    destruct (Hb ((i - __hash k) mod c)) as (r & E & _); [apply Z.mod_pos_bound; lia|].
    exists r. rewrite <- E. f_equal. unfold pos. rewrite Z.add_mod_idemp_r by lia.
    replace (__hash k + (i - __hash k)) with i by lia. rewrite Z.mod_small; lia. }
  apply subseteq_size in Hsub. rewrite size_list_to_set, length_seqZ in Hsub by apply NoDup_seqZ.
  rewrite size_dom in Hsub. lia.
Qed.

(** [__find], [__slot_for] on a table of this size *)
Definition search (k : Z) : option Z := probe_find m (c - 1) k (Z.land (__hash k) (c - 1)) (Z.to_nat (c + 1)).
Definition search_slot (k : Z) : option Z := probe_slot m (c - 1) k (Z.land (__hash k) (c - 1)) (Z.to_nat (c + 1)).

Lemma search_found i r : m !! i = Some r -> search (key r) = Some i.
Proof using G.
  intros E. pose proof cap_bounds as Hc. destruct (gt_path _ _ G _ _ E) as (n & Hn & Hi & Hb).
  pose proof (probe_find_spec (key r) (Z.to_nat (c + 1)) 0 ltac:(lia) (busy_0 _)) as S.
  unfold search. rewrite pos_start. destruct (probe_find _ _ _ _ _) as [i'|].
  - destruct S as (r' & E' & Hk). f_equal. by apply (keys_unique i' i r' r).
  - exfalso. destruct S as [(n' & H0 & Hb' & Hn')|Hb'].
    + destruct (Z.lt_trichotomy n' n) as [Hlt|[->|Hlt]]; [|congruence|].
      * destruct (Hb n' ltac:(lia)) as (x & Ex & _). congruence.
      * destruct (Hb' n ltac:(lia)) as (x & Ex & Hx). congruence.
    + destruct (Hb' n ltac:(lia)) as (x & Ex & Hx). congruence.
Qed.

Lemma search_key k i : search k = Some i -> exists r, m !! i = Some r /\ key r = k.
Proof using G.
  unfold search. rewrite pos_start. intros E.
  pose proof (probe_find_spec k (Z.to_nat (c + 1)) 0 ltac:(lia) (busy_0 _)) as S. by rewrite E in S.
Qed.

Lemma search_slot_found i r : m !! i = Some r -> search_slot (key r) = Some i.
Proof using G.
  intros E. pose proof cap_bounds as Hc. destruct (gt_path _ _ G _ _ E) as (n & Hn & Hi & Hb).
  pose proof (probe_slot_spec (key r) (Z.to_nat (c + 1)) 0 ltac:(lia) (busy_0 _)) as S.
  unfold search_slot. rewrite pos_start. destruct (probe_slot _ _ _ _ _) as [i'|].
  - destruct S as (n' & Hn' & -> & Hb' & [Hf|(r' & E' & Hk)]).
    + exfalso. destruct (Z.lt_trichotomy n' n) as [Hlt|[->|Hlt]]; [|congruence|].
      * destruct (Hb n' ltac:(lia)) as (x & Ex & _). congruence.
      * destruct (Hb' n ltac:(lia)) as (x & Ex & Hx). congruence.
    + f_equal. by apply (keys_unique _ _ r' r).
  - exfalso. destruct (S n ltac:(lia)) as (x & Ex & Hx). congruence.
Qed.

(** A slot for a key of its own, which a table that is not full always has *)
Lemma search_slot_key k i : search_slot k = Some i ->
  (exists r, m !! i = Some r /\ key r = k) \/
  m !! i = None /\ exists n, 0 <= n < c /\ i = pos c k n /\ busy m c k n.
Proof using G.
  unfold search_slot. rewrite pos_start. intros E. pose proof cap_bounds as Hc.
  pose proof (probe_slot_spec k (Z.to_nat (c + 1)) 0 ltac:(lia) (busy_0 _)) as S. rewrite E in S.
  destruct S as (n & Hn & -> & Hb & [Hf|Hf]); [right|by left]. split; [done|]. exists n.
  assert (n <> c); [|repeat split; try done; lia].
  intros ->. destruct (Hb 0 ltac:(lia)) as (r & Er & _).
  assert (pos c k c = pos c k 0) as Ep; [|congruence].
  unfold pos. rewrite <- (Z.mul_1_l c) at 1. rewrite Z.add_0_r. by rewrite Z.mod_add by lia.
Qed.

Lemma search_slot_room k : Z.of_nat (size m) < c -> search_slot k <> None.
Proof using G.
  unfold search_slot. rewrite pos_start. intros Hs E. pose proof cap_bounds as Hc.
  pose proof (probe_slot_spec k (Z.to_nat (c + 1)) 0 ltac:(lia) (busy_0 _)) as S. rewrite E in S.
  assert (c <= Z.of_nat (size m)); [|lia]. apply (busy_full k). intros j Hj. apply S. lia.
Qed.

(** ** Writing a slot *)

Lemma good_insert i r n :
  m !! i = None -> 0 <= n < c -> i = pos c (key r) n -> busy m c (key r) n ->
  state r <> rs_empty -> key r <> 0 -> good_table (<[i := r]> m) c.
Proof using G.
  intros Hi Hn Ei Hb Hs Hk.
  assert (Hmono : forall k q, busy m c k q -> busy (<[i := r]> m) c k q).
  { intros k q Hq j Hj. destruct (Hq j Hj) as (x & Ex & Hx). exists x. split; [|done].
    rewrite lookup_insert_ne; [done|congruence]. }
  split.
  - apply (gt_cap _ _ G).
  - intros i' r' [[<- <-]|[Hne E]]%lookup_insert_Some; [|by apply (gt_used _ _ G)].
    split; [|done]. rewrite Ei. apply pos_range.
  - intros i' r' [[<- <-]|[Hne E]]%lookup_insert_Some; [by exists n; auto|].
    destruct (gt_path _ _ G _ _ E) as (q & Hq & -> & Hbq). exists q. auto.
Qed.

Lemma good_update i s r :
  m !! i = Some s -> key r = key s -> state r <> rs_empty -> good_table (<[i := r]> m) c.
Proof using G.
  intros Hi Hk Hs.
  assert (Hmono : forall k q, busy m c k q -> busy (<[i := r]> m) c k q).
  { intros k q Hq j Hj. destruct (Hq j Hj) as (x & Ex & Hx).
    destruct (Z.eq_dec i (pos c k j)) as [Ej|Ej].
    - exists r. rewrite Ej, lookup_insert_eq. split; [done|]. congruence.
    - exists x. by rewrite lookup_insert_ne. }
  split.
  - apply (gt_cap _ _ G).
  - intros i' r' [[<- <-]|[Hne E]]%lookup_insert_Some; [|by apply (gt_used _ _ G)].
    destruct (gt_used _ _ G _ _ Hi) as (? & _ & ?). rewrite Hk. done.
  - intros i' r' [[<- <-]|[Hne E]]%lookup_insert_Some.
    + destruct (gt_path _ _ G _ _ Hi) as (q & Hq & Eq & Hbq). exists q. rewrite Hk. auto.
    + destruct (gt_path _ _ G _ _ E) as (q & Hq & -> & Hbq). exists q. auto.
Qed.
End Table.

(** ** The table as a map *)

Lemma keyed_empty : keyed ∅ ∅.
Proof. intros k r. rewrite lookup_empty. split; [done|]. by intros [_ [i Hi]]. Qed.

(** A record is written where its key is, or where no record was. *)
Lemma keyed_write m M i r :
  keyed m M -> (forall s, m !! i = Some s -> key s = key r) ->
  (forall i' s, m !! i' = Some s -> key s = key r -> i' = i) ->
  keyed (<[i := r]> m) (<[key r := r]> M).
Proof.
  intros HK Hi Hu k x. destruct (Z.eq_dec (key r) k) as [<-|Hne].
  - rewrite lookup_insert_eq. split.
    + intros [= <-]. split; [done|]. exists i. by rewrite lookup_insert_eq.
    + intros [Hk [j [[<- <-]|[Hne E]]%lookup_insert_Some]]; [done|]. by destruct (Hne (eq_sym (Hu j x E Hk))).
  - rewrite lookup_insert_ne, (HK k x) by done. split; intros [Hk [j E]]; (split; [done|]); exists j.
    + rewrite lookup_insert_ne; [done|]. intros <-. rewrite (Hi _ E) in Hk. done.
    + apply lookup_insert_Some in E as [[<- <-]|[_ E]]; done.
Qed.

Lemma keyed_none m M k : keyed m M -> M !! k = None -> forall i r, m !! i = Some r -> key r <> k.
Proof. intros HK HM i r E <-. assert (M !! key r = Some r) by (apply HK; split; [done|by exists i]). congruence. Qed.

(** Sums over the records may be taken over the keys. *)
Lemma msum_keyed (w : __rec -> Z) m : forall M,
  (forall i i' r r', m !! i = Some r -> m !! i' = Some r' -> key r = key r' -> i = i') ->
  keyed m M -> msum w m = msum w M.
Proof.
  induction m as [|i r m Hi IH] using map_ind; intros M Hu HK.
  { assert (M = ∅) as ->; [|done]. apply map_empty. intros k.
    destruct (M !! k) as [x|] eqn:E; [|done]. apply HK in E as [_ [j Hj]]. by rewrite lookup_empty in Hj. }
  assert (HM : M !! key r = Some r). { apply HK. split; [done|]. exists i. apply lookup_insert_eq. }
  rewrite msum_insert, (msum_delete w M _ _ HM) by done. f_equal. apply IH.
  - intros j j' x x' E E' Hk. assert (forall q y, m !! q = Some y -> <[i:=r]> m !! q = Some y).
    { intros q y Eq. rewrite lookup_insert_ne; [done|congruence]. }
    eapply Hu; eauto.
  - intros k x. rewrite lookup_delete_Some, (HK k x). split.
    + intros [Hne [Hk [j [[<- <-]|[Hj E]]%lookup_insert_Some]]]; [congruence|]. split; [done|by exists j].
    + intros [Hk [j E]]. assert (i <> j) by congruence. split; [|split; [done|exists j; by rewrite lookup_insert_ne]].
      intros Ek. assert (i = j); [|done]. apply (Hu i j r x); [apply lookup_insert_eq| |congruence].
      by rewrite lookup_insert_ne.
Qed.

(** ** A fresh table filled from an old one *)

Lemma good_empty e : 0 <= e < 62 -> good_table ∅ (2 ^ e).
Proof. intros He. split; [by exists e| |]; intros i r E; by rewrite lookup_empty in E. Qed.

Lemma slot_for_table d m c : slots d = Some m -> cap d = c -> mask d = c - 1 ->
  __slot_for d = search_slot m c /\ __find d = search m c.
Proof. intros E Ec Em. unfold __slot_for, __find. by rewrite E, Em, Ec. Qed.

Section Refill.
Context (keep : __rec -> bool) (old : gmap Z __rec) (oldcap : Z) (G : good_table old oldcap).

(** The records of the slots [is] that are kept *)
Definition kept (ix : list Z) (r : __rec) : Prop := exists i, i ∈ ix /\ old !! i = Some r /\ keep r = true.

Definition filled (c : Z) (ix : list Z) (m : gmap Z __rec) : Prop :=
  good_table m c /\ (size m <= length ix)%nat /\ forall r, recs m r <-> kept ix r.

Lemma filled_keep c ix m i r : oldcap <= c -> Z.of_nat (length ix) < oldcap -> i ∉ ix ->
  old !! i = Some r -> keep r = true -> filled c ix m ->
  exists j, search_slot m c (key r) = Some j /\ m !! j = None /\ filled c (ix ++ [i]) (<[j := r]> m).
Proof using G.
  intros Hc Hl Hi Eo Hk (Gm & Hs & Hr).
  destruct (search_slot m c (key r)) as [j|] eqn:E; [|by destruct (search_slot_room m c Gm (key r) ltac:(lia))].
  exists j. split; [done|]. apply search_slot_key in E as [(s & Es & Hks)|(En & n & Hn & Ej & Hb)]; [| |done].
  { exfalso. destruct (proj1 (Hr s)) as (i' & Hi' & Ei' & _); [by exists j|].
    by rewrite (keys_unique _ _ G i i' r s Eo Ei' (eq_sym Hks)) in Hi. }
  split; [done|]. destruct (gt_used _ _ G _ _ Eo) as (_ & Hst & Hnz). split; [|split].
  - by apply (good_insert m c Gm j r n).
  - rewrite map_size_insert_None, length_app by done. cbn. lia.
  - intros x. split.
    + intros [q [[<- <-]|[Hq Eq]]%lookup_insert_Some].
      * exists i. split; [|done]. apply elem_of_app. right. by apply list_elem_of_singleton.
      * destruct (proj1 (Hr x)) as (i' & Hi' & ?); [by exists q|]. exists i'. split; [|done]. apply elem_of_app. by left.
    + intros (i' & [Hi'|Hi'%list_elem_of_singleton]%elem_of_app & Ei' & Hkx).
      * destruct (proj2 (Hr x)) as [q Eq]; [by exists i'|]. exists q. rewrite lookup_insert_ne; congruence.
      * subst i'. assert (x = r) as -> by congruence. exists j. apply lookup_insert_eq.
Qed.

Lemma filled_skip c ix m i : (forall r, old !! i = Some r -> keep r = false) -> filled c ix m -> filled c (ix ++ [i]) m.
Proof using.
  intros Hk (Gm & Hs & Hr). split; [done|]. split; [rewrite length_app; lia|]. intros x. rewrite Hr. split.
  - intros (i' & Hi' & ?). exists i'. split; [|done]. apply elem_of_app. by left.
  - intros (i' & [Hi'|Hi'%list_elem_of_singleton]%elem_of_app & Ei' & Hkx); [by exists i'|].
    subst i'. rewrite (Hk _ Ei') in Hkx. done.
Qed.

(** The table under construction, as a state of the doctor *)
Definition building (d : __doctor_state) (c : Z) (m : gmap Z __rec) : __doctor_state :=
  set_table d (Some m) c (c - 1) (Z.of_nat (size m)).

(** One round of the loop *)
Lemma refill_step d c ix m i : oldcap <= c -> Z.of_nat (length ix) < oldcap -> i ∉ ix ->
  keep no_rec = false -> filled c ix m -> exists m',
  (if keep (slot_of old i) then move_in (building d c m) (slot_of old i) else building d c m) = building d c m' /\
  filled c (ix ++ [i]) m'.
Proof using G.
  intros Hc Hl Hi Hn F. destruct (old !! i) as [r|] eqn:Er.
  2:{ unfold slot_of. rewrite Er. cbn. rewrite Hn. exists m. split; [done|]. apply filled_skip; [|done]. congruence. }
  rewrite (slot_some _ _ _ Er). destruct (keep r) eqn:Hk.
  2:{ exists m. split; [done|]. apply filled_skip; [|done]. congruence. }
  destruct (filled_keep c ix m i r) as (j & Ej & Hj & F'); [done..|]. exists (<[j := r]> m). split; [|done].
  destruct F as (G' & Hs & _). pose proof (cap_bounds _ _ G).
  unfold move_in. rewrite (proj1 (slot_for_table (building d c m) m c ltac:(done) ltac:(done) ltac:(done))), Ej.
  unfold building, set_table, table. cbn. f_equal. rewrite map_size_insert_None, u64_small by (done || lia). lia.
Qed.

Lemma refill_from d c l : forall ix m, oldcap <= c -> keep no_rec = false -> seqZ 0 oldcap = ix ++ l -> filled c ix m ->
  exists m', foldl (fun d i => if keep (slot_of old i) then move_in d (slot_of old i) else d) (building d c m) l
             = building d c m' /\ filled c (ix ++ l) m'.
Proof using G.
  induction l as [|i l IH]; intros ix m Hc Hn Hl F; cbn [foldl]; [exists m; by rewrite app_nil_r|].
  assert (Hlen : length (seqZ 0 oldcap) = length (ix ++ i :: l)) by (by rewrite Hl).
  rewrite length_seqZ, length_app in Hlen. cbn in Hlen.
  assert (Hi : i ∉ ix).
  { pose proof (NoDup_seqZ 0 oldcap) as N. rewrite Hl in N. apply NoDup_app in N as (_ & N & _).
    intros Hi. apply (N i Hi). by left. }
  pose proof (cap_bounds _ _ G). destruct (refill_step d c ix m i) as (m1 & -> & F1); [done|lia|done..|].
  destruct (IH (ix ++ [i]) m1) as (m' & -> & F'); [done|done|by rewrite <- app_assoc|done|].
  exists m'. split; [done|]. by rewrite <- app_assoc in F'.
Qed.

Lemma refill_spec d c : oldcap <= c -> keep no_rec = false -> (exists e, 0 <= e < 62 /\ c = 2 ^ e) ->
  exists m, refill keep old oldcap (set_table d (Some ∅) c (c - 1) 0) = building d c m /\ filled c (seqZ 0 oldcap) m.
Proof using G.
  intros Hc Hn (e & He & ->). unfold refill. change (set_table d _ _ _ 0) with (building d (2 ^ e) ∅).
  apply (refill_from d (2 ^ e) (seqZ 0 oldcap) [] ∅); [done..|].
  split; [by apply good_empty|]. split; [done|]. intros r. split.
  - intros [i Ei]. by rewrite lookup_empty in Ei.
  - intros (i & Hi & _). by apply elem_of_nil in Hi.
Qed.

(** The new table as a map: the records kept *)
Lemma filled_keyed c m M : filled c (seqZ 0 oldcap) m -> keyed old M -> keyed m (filter (fun kr => keep kr.2 = true) M).
Proof using G.
  intros (_ & _ & Hr) HK k r. rewrite map_lookup_filter_Some, (HK k r), Hr. cbn. unfold kept. split.
  - intros [[Hk [i Ei]] Hkeep]. split; [done|]. exists i. split; [|done].
    apply elem_of_seqZ. destruct (gt_used _ _ G _ _ Ei). lia.
  - intros (Hk & i & _ & Ei & Hkeep). split; [|done]. split; [done|by exists i].
Qed.
End Refill.
