(* ===== verification/LedgerOps.v ===== *)
(** * What the operations do to the ledger (src/src/doctor.hpp, lines 541-634, 761-774, 805-822, 1804-1812)

    [ledger_ok] ties the table and its counters to the map [M] from pointers to
    records.  A mapping the kernel refuses leaves a state that is well formed
    all the same: the ledger then misses records, and never has a wrong one. *)

From S2P Require Import Prelude.
From S2P Require Import Ledger.
From S2P Require Import LedgerInv.

Definition w_live (r : __rec) : Z := if bool_decide (state r = rs_live) then 1 else 0.
Definition w_dead (r : __rec) : Z :=
  if bool_decide (state r = rs_freed) || bool_decide (state r = rs_tombstoned) then 1 else 0.

(** Comparisons of states that are known *)
Ltac states := repeat (case_bool_decide; try discriminate; cbn [negb orb andb] in *).

Definition live_only (M : gmap Z __rec) : gmap Z __rec := filter (fun kr => live_rec kr.2 = true) M.

(** [B] bounds the number of records ever made and of frees; [exact_freed] is
    whether [n_freed] is exact, which quarantining ends. *)
Record ledger_ok (exact_freed : bool) (B : Z) (d : __doctor_state) (M : gmap Z __rec) : Prop := {
  lo_bound : 0 <= B < 2 ^ 50;
  lo_null : slots d = None -> M = ∅ /\ cap d = 0 /\ occupied d = 0;
  lo_table m : slots d = Some m ->
    good_table m (cap d) /\ mask d = cap d - 1 /\ keyed m M /\ occupied d = Z.of_nat (size m);
  lo_cap : cap d <= 4096 + 3 * B;
  lo_occupied : occupied d <= B;
  lo_live : n_live d = msum w_live M;
  lo_freed : msum w_dead M <= n_freed d <= B;
  lo_exact : exact_freed = true -> n_freed d = msum w_dead M
}.

(** Two states with the same ledger; the rest is the ring, the lock and the
    operation counters. *)
Definition same_ledger (d d' : __doctor_state) : Prop :=
  slots d' = slots d /\ cap d' = cap d /\ mask d' = mask d /\ occupied d' = occupied d /\
  n_live d' = n_live d /\ n_freed d' = n_freed d.

#[export] Instance same_ledger_equiv : Equivalence same_ledger.
Proof. unfold same_ledger. split; [repeat split|intros d d'; intuition|intros d d' d''; intuition congruence]. Qed.

Lemma ok_same x B d d' M : same_ledger d d' -> ledger_ok x B d M -> ledger_ok x B d' M.
Proof.
  intros (E1 & E2 & E3 & E4 & E5 & E6) []. split; rewrite ?E1, ?E2, ?E3, ?E4, ?E5, ?E6; done.
Qed.

#[export] Instance ledger_ok_proper x B : Proper (same_ledger ==> eq ==> iff) (ledger_ok x B).
Proof. intros d d' E M ? <-. split; by apply ok_same. Qed.

#[export] Instance find_proper : Proper (same_ledger ==> eq ==> eq) __find.
Proof. intros d d' (E1 & E2 & E3 & _) k ? <-. unfold __find. by rewrite E1, E2, E3. Qed.

Lemma w_live_nonneg r : 0 <= w_live r <= 1.
Proof. unfold w_live. case_bool_decide; lia. Qed.
Lemma w_dead_nonneg r : 0 <= w_dead r <= 1.
Proof. unfold w_dead. repeat case_bool_decide; cbn; lia. Qed.

Lemma msum_size (m : gmap Z __rec) : msum (fun _ => 1) m = Z.of_nat (size m).
Proof.
  induction m as [|i r m Hi IH] using map_ind; [done|].
  rewrite msum_insert, map_size_insert_None, IH by done. lia.
Qed.

Lemma msum_live_only M : msum w_live (live_only M) = msum w_live M.
Proof.
  apply msum_agree. intros k r Hw. unfold live_only. rewrite map_lookup_filter_Some. cbn.
  unfold live_rec. unfold w_live in Hw. by case_bool_decide; intuition.
Qed.

Lemma msum_dead_live_only M : msum w_dead (live_only M) = 0.
Proof.
  transitivity (msum w_dead (∅ : gmap Z __rec)); [|done]. apply msum_agree. intros k r Hw. rewrite lookup_empty.
  split; [|done]. intros [_ Hl]%map_lookup_filter_Some. cbn in Hl. unfold live_rec in Hl.
  apply bool_decide_eq_true in Hl. unfold w_dead in Hw. rewrite Hl in Hw. done.
Qed.

Lemma table_some d m : slots d = Some m -> table d = m.
Proof. intros E. unfold table. by rewrite E. Qed.

Section Ok.
Context (x : bool) (B : Z) (d : __doctor_state) (M : gmap Z __rec) (K : ledger_ok x B d M).

Lemma find_key p i : __find d p = Some i -> exists m r,
  slots d = Some m /\ m !! i = Some r /\ slot_of (table d) i = r /\ key r = p /\ M !! p = Some r.
Proof using K.
  intros E. destruct (slots d) as [m|] eqn:Es; [|unfold __find in E; by rewrite Es in E].
  destruct (lo_table _ _ _ _ K m Es) as (G & Em & HK & _).
  rewrite (proj2 (slot_for_table d m (cap d) Es eq_refl Em)) in E.
  destruct (search_key m (cap d) G p i E) as (r & Er & Hk). exists m, r.
  split; [done|]. split; [done|]. split; [rewrite (table_some d m Es); by apply slot_some|]. split; [done|].
  apply HK. split; [done|by exists i].
Qed.

Lemma find_none p : __find d p = None -> M !! p = None.
Proof using K.
  intros E. destruct (slots d) as [m|] eqn:Es.
  - destruct (lo_table _ _ _ _ K m Es) as (G & Em & HK & _). destruct (M !! p) as [r|] eqn:Er; [|done].
    apply HK in Er as [<- [i Ei]]. rewrite (proj2 (slot_for_table d m (cap d) Es eq_refl Em)) in E.
    by rewrite (search_found m (cap d) G i r Ei) in E.
  - by destruct (lo_null _ _ _ _ K Es) as (-> & _).
Qed.

Lemma live_le : 0 <= msum w_live M <= occupied d.
Proof using K.
  split; [apply msum_nonneg; intros; apply w_live_nonneg|]. destruct (slots d) as [m|] eqn:Es.
  - destruct (lo_table _ _ _ _ K m Es) as (G & Em & HK & ->).
    rewrite <- (msum_keyed w_live m M) by (done || apply (keys_unique m _ G)).
    rewrite <- msum_size. apply msum_mono. intros. apply w_live_nonneg.
  - by destruct (lo_null _ _ _ _ K Es) as (-> & _ & ->).
Qed.

(** A record is replaced: the counters follow. *)
Lemma ok_update y i m s r l f b : slots d = Some m -> m !! i = Some s -> key r = key s -> state r <> rs_empty ->
  l = n_live d - w_live s + w_live r -> (y = true -> x = true /\ f = n_freed d - w_dead s + w_dead r) ->
  msum w_dead M - w_dead s + w_dead r <= f <= b -> B <= b < 2 ^ 50 ->
  ledger_ok y b (put_slot (set_counts d l f) i r) (<[key s := r]> M).
Proof using K.
  intros Es Ei Hk Hr Hl Hf Hb HB. destruct (lo_table _ _ _ _ K m Es) as (G & Em & HK & Eo).
  assert (HM : M !! key s = Some s) by (apply HK; split; [done|by exists i]).
  pose proof (lo_live _ _ _ _ K). pose proof (lo_cap _ _ _ _ K). pose proof (lo_occupied _ _ _ _ K).
  split; cbn [slots put_slot set_table set_counts cap mask occupied n_live n_freed].
  - pose proof (lo_bound _ _ _ _ K). lia.
  - done.
  - intros m' [= <-]. rewrite (table_some (set_counts d l f) m) by done.
    split; [by apply (good_update m (cap d) G i s)|]. split; [done|]. split.
    + rewrite <- Hk. apply keyed_write; [done| |]; [congruence|].
      intros i' s' E' Hk'. apply (keys_unique m _ G i' i s' s E' Ei). congruence.
    + by rewrite map_size_insert_Some by (by exists s).
  - lia.
  - lia.
  - rewrite (msum_update w_live _ _ s) by done. lia.
  - rewrite (msum_update w_dead _ _ s) by done. lia.
  - intros ->. destruct Hf as [-> ->]; [done|]. rewrite (msum_update w_dead _ _ s) by done.
    rewrite (lo_exact _ _ _ _ K) by done. lia.
Qed.
End Ok.

(** ** Room for a record *)

Lemma keep_all m c M : good_table m c -> keyed m M ->
  filter (fun kr => used_rec kr.2 = true) M = M.
Proof.
  intros G HK. apply map_filter_id. intros k r Hr. apply HK in Hr as [_ [i Ei]].
  destruct (gt_used _ _ G _ _ Ei) as (_ & Hs & Hk). cbn. unfold used_rec. rewrite bool_decide_eq_false_2 by done.
  destruct (Z.eqb_spec (key r) 0); done.
Qed.

Section Grow.
Context `{Mapper}.
Context (x : bool) (B : Z).
Implicit Types (d : __doctor_state) (M : gmap Z __rec).

Lemma mmap_ledger d n : same_ledger d (__mmap_bytes d n).2.
Proof. by repeat split. Qed.

(** A state whose table was replaced by [m] *)
Lemma ok_building d d' c m M M' : ledger_ok x B d M ->
  good_table m c -> keyed m M' -> c <= 4096 + 3 * B -> Z.of_nat (size m) <= B ->
  d' = building d c m -> msum w_live M' = msum w_live M -> msum w_dead M' = msum w_dead M ->
  ledger_ok x B d' M'.
Proof using.
  intros K G HK Hc Hs -> Hl Hf.
  split; cbn [slots building set_table cap mask occupied n_live n_freed]; rewrite ?Hl, ?Hf.
  - apply (lo_bound _ _ _ _ K).
  - done.
  - by intros m' [= <-].
  - done.
  - done.
  - apply (lo_live _ _ _ _ K).
  - apply (lo_freed _ _ _ _ K).
  - apply (lo_exact _ _ _ _ K).
Qed.

Lemma cap_positive d M m : ledger_ok x B d M -> slots d = Some m -> 0 < cap d < 2 ^ 62.
Proof using. intros K Es. apply (cap_bounds m). by apply (lo_table _ _ _ _ K m Es). Qed.

Lemma size_occupied d M m : ledger_ok x B d M -> slots d = Some m -> Z.of_nat (size m) <= B.
Proof using. intros K Es. destruct (lo_table _ _ _ _ K m Es) as (_ & _ & _ & E). pose proof (lo_occupied _ _ _ _ K). lia. Qed.

(** [__rehash] keeps the records, whether the mapping is granted or not. *)
Lemma rehash_ok d M e : ledger_ok x B d M -> 0 <= e < 62 -> cap d <= 2 ^ e -> 2 ^ e <= 4096 + 3 * B ->
  ledger_ok x B (__rehash d (2 ^ e)) M /\
  (map_granted (mappings d) (u64 (2 ^ e * sizeof_rec)) = true ->
   cap (__rehash d (2 ^ e)) = 2 ^ e /\ slots (__rehash d (2 ^ e)) <> None /\ occupied (__rehash d (2 ^ e)) <= cap d).
Proof using.
  intros K He Hc Hb. unfold __rehash. destruct (Z.eqb_spec (2 ^ e) 0) as [Ez|Ez].
  { exfalso. assert (0 < 2 ^ e) by (apply Z.pow_pos_nonneg; lia). lia. }
  unfold __mmap_bytes. destruct (map_granted _ _); cbn [negb]; [|by split; [apply (ok_same x B d)|]].
  set (d1 := set_ring d _ _ _). assert (K1 : ledger_ok x B d1 M) by (by apply (ok_same x B d)).
  pose proof (lo_bound _ _ _ _ K). destruct (slots d) as [old|] eqn:Es.
  - destruct (lo_table _ _ _ _ K old Es) as (G & Em & HK & Eo).
    destruct (refill_spec used_rec old (cap d) G d1 (2 ^ e)) as (m & -> & F); [done|done|by exists e|].
    assert (HKm := filled_keyed _ old (cap d) G (2 ^ e) m M F HK). rewrite (keep_all old (cap d) M) in HKm by done.
    destruct F as (Gm & Hs & Hr). rewrite length_seqZ in Hs. pose proof (cap_positive d M old K Es).
    assert (Hsm : Z.of_nat (size m) = Z.of_nat (size old)).
    { rewrite <- !msum_size, (msum_keyed _ m M), (msum_keyed _ old M); [done|apply (keys_unique _ _ G)|done|apply (keys_unique _ _ Gm)|done]. }
    pose proof (size_occupied d M old K Es). split.
    + apply (ok_building d1 _ (2 ^ e) m M M); [done|done|done|lia|lia|done..].
    + intros _. split; [done|]. split; [done|]. cbn. lia.
  - destruct (lo_null _ _ _ _ K Es) as (-> & Ec & _). split.
    + apply (ok_building d1 _ (2 ^ e) ∅ ∅ ∅); [done|by apply good_empty|apply keyed_empty|lia|rewrite map_size_empty; lia|done..].
    + intros _. split; [done|]. split; [done|]. cbn. lia.
Qed.

(** [__drop_freed] forgets the records that are not live, or changes nothing. *)
Lemma drop_freed_ok d M : ledger_ok x B d M ->
  exists M', (M' = M \/ M' = live_only M) /\ ledger_ok x B (__drop_freed d).2 M' /\
    cap (__drop_freed d).2 = cap d /\ (slots d <> None -> slots (__drop_freed d).2 <> None) /\
    ((__drop_freed d).1 = false -> below_load (__drop_freed d).2 = below_load d).
Proof using.
  intros K. unfold __drop_freed. destruct (slots d) as [old|] eqn:Es; [|exists M; cbn; rewrite Es; auto].
  destruct (occupied d <=? n_live d); [exists M; cbn; rewrite Es; auto|].
  unfold __mmap_bytes. destruct (map_granted _ _); cbn [negb].
  2:{ exists M. split; [by left|]. split; [by apply (ok_same x B d)|]. cbn. by rewrite Es. }
  set (d1 := set_ring d _ _ _). destruct (lo_table _ _ _ _ K old Es) as (G & Em & HK & Eo).
  change (cap d1) with (cap d).
  destruct (refill_spec live_rec old (cap d) G d1 (cap d)) as (m & -> & F); [done|done|apply (gt_cap _ _ G)|].
  assert (HKm := filled_keyed _ old (cap d) G _ m M F HK). fold (live_only M) in HKm.
  destruct F as (Gm & Hs & Hr). rewrite length_seqZ in Hs. exists (live_only M). split; [by right|].
  split; [|done]. pose proof (cap_positive d M old K Es). pose proof (lo_cap _ _ _ _ K).
  assert (Hsm : Z.of_nat (size m) <= Z.of_nat (size old)).
  { rewrite <- (msum_size old), (msum_keyed _ old M) by (apply (keys_unique _ _ G) || done).
    rewrite <- (msum_size m), (msum_keyed _ m (live_only M)) by (apply (keys_unique _ _ Gm) || done).
    rewrite !msum_size. apply inj_le. unfold live_only. apply map_size_filter. }
  pose proof (size_occupied d M old K Es).
  split; cbn [slots building set_table set_counts cap mask occupied n_live n_freed snd].
  - apply (lo_bound _ _ _ _ K).
  - done.
  - by intros m' [= <-].
  - done.
  - lia.
  - rewrite msum_live_only. apply (lo_live _ _ _ _ K).
  - rewrite msum_dead_live_only. pose proof (lo_bound _ _ _ _ K). lia.
  - by rewrite msum_dead_live_only.
Qed.
(** The kernel grants every mapping. *)
Definition granting : Prop := forall i n, map_granted i n = true.

Lemma ensure_ok d M : ledger_ok x B d M ->
  ledger_ok x B (__ensure d) M /\ (granting -> slots (__ensure d) <> None).
Proof using.
  intros K. unfold __ensure. destruct (slots d) eqn:Es; [split; [done|]; intros _; by rewrite Es|].
  destruct (lo_null _ _ _ _ K Es) as (_ & Ec & _). pose proof (lo_bound _ _ _ _ K).
  change (Z.shiftl 1 12) with (2 ^ 12). destruct (rehash_ok d M 12 K) as [K' Hg]; [lia|lia|lia|].
  split; [done|]. intros G. by apply Hg.
Qed.

Definition room (d : __doctor_state) : Prop := slots d <> None /\ occupied d < cap d.

Lemma rehash_double d M : ledger_ok x B d M -> slots d <> None -> below_load d = false ->
  ledger_ok x B (__rehash d (u64 (Z.shiftl (cap d) 1))) M /\ slots (__rehash d (u64 (Z.shiftl (cap d) 1))) <> None /\
  (granting -> room (__rehash d (u64 (Z.shiftl (cap d) 1)))).
Proof using.
  intros K Hs Hl. destruct (slots d) as [m|] eqn:Es; [clear Hs|done].
  destruct (lo_table _ _ _ _ K m Es) as (G & _). pose proof (cap_positive d M m K Es).
  pose proof (lo_bound _ _ _ _ K). pose proof (lo_cap _ _ _ _ K). pose proof (lo_occupied _ _ _ _ K).
  pose proof (live_le x B d M K). unfold below_load in Hl. apply Z.ltb_ge in Hl. rewrite !u64_small in Hl by lia.
  destruct (gt_cap _ _ G) as (e & He & Ec).
  assert (E2 : u64 (Z.shiftl (cap d) 1) = 2 ^ (e + 1)).
  { rewrite Z.shiftl_mul_pow2, Z.pow_1_r, u64_small, Z.pow_add_r by lia. lia. }
  assert (Hd2 : 2 ^ (e + 1) = 2 * cap d) by (rewrite Z.pow_add_r; lia).
  assert (He2 : e + 1 < 62).
  { apply (Z.pow_lt_mono_r_iff 2); [lia|lia|]. rewrite Hd2. assert (2 ^ 62 = 4096 * 2 ^ 50) by done. lia. }
  rewrite E2. destruct (rehash_ok d M (e + 1) K) as [K' Hg]; [lia|lia|lia|]. split; [done|]. split.
  - unfold __rehash. rewrite Es. case_match; [by rewrite Es|].
    destruct (__mmap_bytes _ _) as [[] d1] eqn:Em; cbn [negb]; [|unfold __mmap_bytes in Em; injection Em as _ <-; cbn; by rewrite Es].
    destruct (refill_spec used_rec m (cap d) G d1 (2 ^ (e + 1))) as (m' & -> & _); [lia|done| |done].
    exists (e + 1). split; [lia|done].
  - intros Gr. destruct Hg as (Hc & Hs & Ho); [by apply Gr|]. split; [done|]. lia.
Qed.

Lemma ledger_grow_ok d M : ledger_ok x B d M -> slots d <> None ->
  exists M', (M' = M \/ M' = live_only M) /\ ledger_ok x B (__grow_if_needed d) M' /\
    slots (__grow_if_needed d) <> None /\ (granting -> room (__grow_if_needed d)).
Proof using.
  intros K Hs. unfold __grow_if_needed.
  assert (Hcap : 0 < cap d). { destruct (slots d) as [m|] eqn:Es; [|done]. by destruct (cap_positive d M m K Es). }
  destruct (Z.eqb_spec (cap d) 0); [lia|].
  assert (Hroom : forall d M, ledger_ok x B d M -> slots d <> None -> below_load d = true -> room d).
  { clear. intros d M K Hs Hl. split; [done|]. unfold below_load in Hl. apply Z.ltb_lt in Hl.
    pose proof (lo_bound _ _ _ _ K). pose proof (lo_cap _ _ _ _ K). pose proof (lo_occupied _ _ _ _ K).
    pose proof (live_le x B d M K). destruct (slots d) as [m|] eqn:Es; [|done]. pose proof (cap_positive d M m K Es).
    rewrite !u64_small in Hl by lia. lia. }
  destruct (below_load d) eqn:Hl; [exists M; split; [by left|]; split; [done|]; split; [done|]; intros _; by apply (Hroom d M)|].
  destruct (__default_doctor_max_records <? _).
  - destruct (drop_freed_ok d M K) as (M1 & HM & K1 & Ec & Hs1 & Hl1). specialize (Hs1 Hs).
    destruct (__drop_freed d) as [dropped d1]. cbn [fst snd] in K1, Ec, Hs1, Hl1. destruct (dropped && below_load d1) eqn:Hb.
    + apply andb_true_iff in Hb as [_ Hb]. exists M1. split; [done|]. split; [done|]. split; [done|]. intros _.
      by apply (Hroom d1 M1).
    + exists M1. split; [done|]. rewrite <- Ec. apply rehash_double; [done|done|].
      destruct dropped; [done|]. by rewrite Hl1.
  - exists M. split; [by left|]. by apply rehash_double.
Qed.
End Grow.

(** ** Recording an allocation *)

Lemma set_counts_id d l f : l = n_live d -> f = n_freed d -> set_counts d l f = d.
Proof. intros -> ->. by destruct d. Qed.

(** Where [open_slot] says a record goes *)
Definition opened (d : __doctor_state) (M : gmap Z __rec) (p i : Z) : Prop :=
  exists m, slots d = Some m /\
    ((exists s, m !! i = Some s /\ key s = p) \/
     m !! i = None /\ M !! p = None /\ exists n, 0 <= n < cap d /\ i = pos (cap d) p n /\ busy m (cap d) p n).

Lemma opened_slot x B d M p i : ledger_ok x B d M -> opened d M p i ->
  match M !! p with
  | Some s => slot_of (table d) i = s /\ key s = p
  | None => state (slot_of (table d) i) = rs_empty
  end.
Proof.
  intros K (m & Es & [(s & Ei & <-)|(Ei & -> & _)]).
  - destruct (lo_table _ _ _ _ K m Es) as (G & Em & HK & Eo).
    assert (M !! key s = Some s) as -> by (apply HK; split; [done|by exists i]).
    rewrite (table_some d m Es). split; [by apply slot_some|done].
  - rewrite (table_some d m Es). unfold slot_of. by rewrite Ei.
Qed.

Section Record.
Context `{Mapper}.
Context (x : bool) (B : Z).
Implicit Types (d : __doctor_state) (M : gmap Z __rec).

Lemma open_slot_ok d M p : ledger_ok x B d M ->
  exists M', (M' = M \/ M' = live_only M) /\ ledger_ok x B (open_slot d p).1 M' /\
    match (open_slot d p).2 with
    | Some i => opened (open_slot d p).1 M' p i
    | None => M' !! p = None /\ ~ granting
    end.
Proof using.
  intros K. unfold open_slot. destruct (ensure_ok x B d M K) as [K0 Hg]. destruct (slots (__ensure d)) as [m0|] eqn:E0.
  2:{ exists M. split; [by left|]. split; [done|]. split; [|by intros ?; apply Hg].
      by destruct (lo_null _ _ _ _ K0 E0) as (-> & _). }
  clear Hg. destruct (ledger_grow_ok x B _ M K0) as (M' & HM & K' & Hs & Hroom); [by rewrite E0|].
  exists M'. split; [done|]. cbn [fst snd]. split; [done|].
  destruct (slots (__grow_if_needed (__ensure d))) as [m|] eqn:Es; [|done].
  destruct (lo_table _ _ _ _ K' m Es) as (G & Em & HK & Eo).
  rewrite (proj1 (slot_for_table _ m _ Es eq_refl Em)). destruct (search_slot m _ p) as [i|] eqn:E.
  - exists m. split; [done|]. destruct (search_slot_key m _ G p i E) as [Hf|(Ei & Hp)]; [by left|right].
    split; [done|]. split; [|done]. destruct (M' !! p) as [r|] eqn:Er; [|done].
    apply HK in Er as [<- [j Ej]]. rewrite (search_slot_found m _ G j r Ej) in E. congruence.
  - assert (Hn : ~ Z.of_nat (size m) < cap (__grow_if_needed (__ensure d))).
    { intros Hlt. by apply (search_slot_room m _ G p Hlt). }
    split; [|intros Hg; destruct (Hroom Hg); lia]. destruct (M' !! p) as [r|] eqn:Er; [|done].
    apply HK in Er as [<- [j Ej]]. rewrite (search_slot_found m _ G j r Ej) in E. congruence.
Qed.

(** The counters and the slot written, where the pointer has a record *)
Lemma count_known d s : n_live d - w_live s + 1 < 2 ^ 64 -> 0 <= n_live d - w_live s -> w_dead s <= n_freed d ->
  state s <> rs_empty -> count_alloc d (state s) = set_counts d (n_live d - w_live s + 1) (n_freed d - w_dead s).
Proof using.
  unfold count_alloc, w_live, w_dead, down. intros H1 H2 H3 He.
  destruct (state s) eqn:Ess; [done|..]; states; rewrite ?u64_small by (cbn; lia);
    [symmetry; apply set_counts_id; lia|repeat case_g; unfold set_counts; cbn; f_equal; lia..].
Qed.

Lemma dead_le M k s : M !! k = Some s -> w_dead s <= msum w_dead M.
Proof using.
  intros E. rewrite (msum_delete _ M k s E). assert (0 <= msum w_dead (delete k M)); [|lia].
  apply msum_nonneg. intros; apply w_dead_nonneg.
Qed.

Lemma live_le_sum M k s : M !! k = Some s -> w_live s <= msum w_live M.
Proof using.
  intros E. rewrite (msum_delete _ M k s E). assert (0 <= msum w_live (delete k M)); [|lia].
  apply msum_nonneg. intros; apply w_live_nonneg.
Qed.

Lemma enter_known d M i m s r : ledger_ok x B d M -> B + 1 < 2 ^ 50 -> slots d = Some m -> m !! i = Some s ->
  key r = key s -> state r = rs_live -> ledger_ok x (B + 1) (put_slot (count_alloc d (state s)) i r) (<[key s := r]> M).
Proof using.
  intros K HB Es Ei Hk Hr. destruct (lo_table _ _ _ _ K m Es) as (G & Em & HK & Eo).
  pose proof (lo_freed _ _ _ _ K). pose proof (lo_bound _ _ _ _ K). pose proof (live_le x B d M K).
  pose proof (lo_live _ _ _ _ K) as El. pose proof (lo_occupied _ _ _ _ K).
  assert (Hwl : w_live r = 1) by (unfold w_live; by rewrite bool_decide_eq_true_2).
  assert (Hwd : w_dead r = 0) by (unfold w_dead; by rewrite Hr).
  assert (HMs : M !! key s = Some s) by (apply HK; split; [done|by exists i]).
  pose proof (dead_le M _ s HMs). pose proof (live_le_sum M _ s HMs). pose proof (w_live_nonneg s). pose proof (w_dead_nonneg s).
  rewrite count_known by (lia || apply (gt_used _ _ G _ _ Ei)).
  apply (ok_update x B d M K x i m); rewrite ?Hwl, ?Hwd; try done; [by rewrite Hr| |lia|lia].
  intros Hx. split; [done|lia].
Qed.

(** And where it has none *)
Lemma enter_fresh d M p i m n r : ledger_ok x B d M -> B + 1 < 2 ^ 50 -> slots d = Some m -> m !! i = None ->
  M !! p = None -> 0 <= n < cap d -> i = pos (cap d) p n -> busy m (cap d) p n ->
  key r = p -> p <> 0 -> state r = rs_live -> ledger_ok x (B + 1) (put_slot (count_alloc d rs_empty) i r) (<[p := r]> M).
Proof using.
  intros K HB Es Ei HM Hn Epos Hb Hk Hp Hr. destruct (lo_table _ _ _ _ K m Es) as (G & Em & HK & Eo).
  pose proof (lo_freed _ _ _ _ K). pose proof (lo_bound _ _ _ _ K). pose proof (live_le x B d M K).
  pose proof (lo_live _ _ _ _ K). pose proof (lo_occupied _ _ _ _ K). pose proof (lo_cap _ _ _ _ K).
  assert (Hwl : w_live r = 1) by (unfold w_live; by rewrite bool_decide_eq_true_2).
  assert (Hwd : w_dead r = 0) by (unfold w_dead; by rewrite Hr).
  assert (E : put_slot (count_alloc d rs_empty) i r
              = set_counts (set_table d (Some (<[i := r]> (table d))) (cap d) (mask d) (u64 (occupied d + 1))) (u64 (n_live d + 1)) (n_freed d)) by done.
  rewrite E, (table_some d m Es), !u64_small by lia.
  split; cbn [slots set_table set_counts cap mask occupied n_live n_freed]; rewrite ?msum_insert by done; rewrite ?Hwl, ?Hwd.
  - lia.
  - done.
  - intros m' [= <-]. split; [by apply (good_insert m (cap d) G i r n); rewrite ?Hk, ?Hr|].
    split; [done|]. split; [|rewrite map_size_insert_None by done; lia]. rewrite <- Hk. apply keyed_write; [done|congruence|].
    intros i' s' E' Hk'. by destruct (keyed_none m M p HK HM i' s' E'); rewrite <- Hk.
  - lia.
  - lia.
  - lia.
  - lia.
  - intros Hx. rewrite (lo_exact _ _ _ _ K Hx). lia.
Qed.

Lemma enter_ok d M p i r : ledger_ok x B d M -> B + 1 < 2 ^ 50 -> opened d M p i -> key r = p -> p <> 0 -> state r = rs_live ->
  ledger_ok x (B + 1) (put_slot (count_alloc d (state (slot_of (table d) i))) i r) (<[p := r]> M).
Proof using.
  intros K HB (m & Es & Ho) Hk Hp Hr. rewrite (table_some d m Es). destruct Ho as [(s & Ei & <-)|(Ei & HM & n & Hn & Epos & Hb)].
  - rewrite (slot_some _ _ _ Ei). by apply (enter_known d M i m).
  - assert (state (slot_of m i) = rs_empty) as -> by (unfold slot_of; by rewrite Ei).
    by apply (enter_fresh d M p i m n).
Qed.

(** ** Ending a record *)

Lemma push_event_ledger d kind k size op tid : same_ledger d (__push_event d kind k size op tid).
Proof using. unfold __push_event. destruct (ev d); [by repeat split|]. unfold __mmap_bytes. by destruct (map_granted _ _). Qed.

(** What [__mark_free_locked] makes of the records *)
Definition ended (M M' : gmap Z __rec) (p : Z) (to : __rec_state) : Prop :=
  match M !! p with
  | Some s => if live_rec s then exists r, M' = <[p := r]> M /\ key r = p /\ state r = to else M' = M
  | None => M' = M
  end.

Lemma mark_free_ok d M p to len tid : ledger_ok x B d M -> B + 1 < 2 ^ 50 -> to = rs_freed \/ to = rs_tombstoned ->
  exists M', ended M M' p to /\ ledger_ok x (B + 1) (__mark_free_locked d p to len tid) M'.
Proof using.
  intros K HB Hto. unfold __mark_free_locked, ended.
  assert (Hmono : forall d' M', ledger_ok x B d' M' -> ledger_ok x (B + 1) d' M').
  { intros d' M' []. split; try done; lia. }
  destruct (__find d p) as [i|] eqn:E.
  2:{ exists M. rewrite (find_none x B d M K p E). auto. }
  destruct (find_key x B d M K p i E) as (m & s & Es & Ei & -> & Hk & HM). rewrite HM. unfold live_rec.
  destruct (lo_table _ _ _ _ K m Es) as (G & _). destruct (gt_used _ _ G _ _ Ei) as (_ & Hne & _).
  destruct (bool_decide_reflect (state s = rs_live)) as [Hl|Hl].
  2:{ exists M. split; [done|]. apply Hmono. destruct (state s); done. }
  assert (bool_decide (state s = rs_freed) || bool_decide (state s = rs_tombstoned) || bool_decide (state s = rs_quarantined) = false)
    as -> by (by rewrite Hl).
  pose proof (lo_freed _ _ _ _ K). pose proof (lo_bound _ _ _ _ K). pose proof (live_le x B d M K).
  pose proof (lo_live _ _ _ _ K). pose proof (lo_occupied _ _ _ _ K). pose proof (live_le_sum M p s HM) as Hle.
  assert (Hwl : w_live s = 1) by (unfold w_live; by rewrite bool_decide_eq_true_2).
  assert (Hwd : w_dead s = 0) by (unfold w_dead; by rewrite Hl).
  unfold next_op. cbn beta iota zeta. set (r := Rec _ _ _ _ _ _ _ _ _ _ _ _ _). assert (Hr : w_live r = 0 /\ w_dead r = 1) by (by destruct Hto as [-> | ->]).
  exists (<[p := r]> M). split; [by exists r|].
  eapply ok_same; [apply push_event_ledger|].
  assert (0 <= msum w_dead M) by (apply msum_nonneg; intros; apply w_dead_nonneg).
  rewrite (u64_small (n_freed d + 1)) by lia. unfold down.
  assert (n_live d <> 0) by lia. destruct (Z.eqb_spec (n_live d) 0); [done|].
  eapply (ok_same _ _ (put_slot (set_counts d (n_live d - 1) (n_freed d + 1)) i r)); [done|]. rewrite <- Hk.
  apply (ok_update x B d M K x i m); try done; [by destruct Hto as [-> | ->]|lia| |lia|lia].
  intros Hx. split; [done|lia].
Qed.

(** What [__quarantine_locked] makes of them; [n_freed] is exact no longer. *)
Lemma quarantine_ok d M p : ledger_ok x B d M ->
  ledger_ok false B (__quarantine_locked d p)
    (match M !! p with Some s => <[p := set_state s rs_quarantined]> M | None => M end).
Proof using.
  intros K. unfold __quarantine_locked.
  assert (Hweak : ledger_ok false B d M) by (destruct K; split; done).
  destruct (__find d p) as [i|] eqn:E; [|by rewrite (find_none x B d M K p E)].
  destruct (find_key x B d M K p i E) as (m & s & Es & Ei & -> & Hk & HM). rewrite HM.
  pose proof (lo_freed _ _ _ _ K). pose proof (lo_live _ _ _ _ K). pose proof (lo_bound _ _ _ _ K).
  pose proof (dead_le M p s HM). pose proof (live_le_sum M p s HM). pose proof (w_dead_nonneg s).
  rewrite <- Hk. apply (ok_update x B d M K false i m); try done; [| |lia].
  - unfold down, w_live in *. cbn. states; try case_g; lia.
  - assert (w_dead (set_state s rs_quarantined) = 0) as -> by done. lia.
Qed.

(** A live record refreshed *)
Lemma refresh_ok d M p i r : ledger_ok x B d M -> __find d p = Some i -> key r = p ->
  state r = state (slot_of (table d) i) -> ledger_ok x B (put_slot d i r) (<[p := r]> M).
Proof using.
  intros K E Hk Hr. destruct (find_key x B d M K p i E) as (m & s & Es & Ei & Hs & Hks & HM). rewrite Hs in Hr.
  assert (Hw : w_live r = w_live s /\ w_dead r = w_dead s) by (unfold w_live, w_dead; by rewrite Hr).
  destruct (lo_table _ _ _ _ K m Es) as (G & _). destruct (gt_used _ _ G _ _ Ei) as (_ & Hne & _).
  pose proof (lo_freed _ _ _ _ K). pose proof (lo_bound _ _ _ _ K).
  rewrite <- Hks, <- (set_counts_id d (n_live d) (n_freed d)) by done.
  apply (ok_update x B d M K x i m); try done; [congruence|congruence|lia| |lia|lia].
  intros Hx. split; [done|lia].
Qed.
End Record.
