(* ===== verification/Doctor.v ===== *)
(** * The doctor (src/src/doctor.hpp)

    What the doctor does at the hooks of the allocator and on request: it
    records allocations and frees in its ledger, looks over the heap, validates
    sizes, and decides whether a fault is suppressed.  Everything printed is
    left out, and so are the signal handler and the reports made of text only.

    The allocator is what the class [Allocator] says of it; [DoctorArena] makes
    an arena one.  Every function of the doctor takes the re-entry
    guard and the lock of the doctor ([enter]). *)

From S2P Require Import Prelude.
From S2P Require Import Config.
From S2P Require Import Harden.
From S2P Require Import Kernel.
From S2P Require Import Ledger.

(** The switches of config_amd64.hpp, lines 271-294 *)
Class DoctorSettings := {
  __default_doctor_rescue : bool;
  __default_doctor_rescue_conservative : bool;
  __default_doctor_canary : bool;
  __default_doctor_canary_byte : Z;
  __default_doctor_backtrace : bool
}.

Definition amd64_doctor (rescue conservative : bool) : DoctorSettings := {|
  __default_doctor_rescue := rescue;
  __default_doctor_rescue_conservative := conservative;
  __default_doctor_canary := true;
  __default_doctor_canary_byte := 90;
  __default_doctor_backtrace := true
|}.

(** ** The accumulator of a sweep *)

Record __sweep_ctx := Sweep {
  c_arenas : Z;
  c_sheets : Z;
  live_checked : Z;
  c_blocks : Z;
  freelist_nodes : Z;
  anomalies : Z;
  repairs : Z;
  shown : Z;
  skipped_arenas : Z;
  cross_thread_live : Z;
  repair : bool
}.

Definition sweep_init : __sweep_ctx := Sweep 0 0 0 0 0 0 0 0 0 0 false.
Definition __max_show : Z := 48.

Definition note (c : __sweep_ctx) : __sweep_ctx :=
  Sweep (c_arenas c) (c_sheets c) (live_checked c) (c_blocks c) (freelist_nodes c) (anomalies c + 1) (repairs c)
    (if shown c <? __max_show then shown c + 1 else shown c) (skipped_arenas c) (cross_thread_live c) (repair c).
Definition did_repair (c : __sweep_ctx) : __sweep_ctx :=
  Sweep (c_arenas c) (c_sheets c) (live_checked c) (c_blocks c) (freelist_nodes c) (anomalies c) (repairs c + 1)
    (if shown c <? __max_show then shown c + 1 else shown c) (skipped_arenas c) (cross_thread_live c) (repair c).
Definition saw_arenas (c : __sweep_ctx) (n skipped : Z) : __sweep_ctx :=
  Sweep (c_arenas c + n) (c_sheets c) (live_checked c) (c_blocks c) (freelist_nodes c) (anomalies c) (repairs c)
    (shown c) (skipped_arenas c + skipped) (cross_thread_live c) (repair c).
Definition saw_walk (c : __sweep_ctx) (sheets blocks nodes : Z) : __sweep_ctx :=
  Sweep (c_arenas c) (c_sheets c + sheets) (live_checked c) (c_blocks c + blocks) (freelist_nodes c + nodes) (anomalies c)
    (repairs c) (shown c) (skipped_arenas c) (cross_thread_live c) (repair c).
Definition saw_live (c : __sweep_ctx) (n cross : Z) : __sweep_ctx :=
  Sweep (c_arenas c) (c_sheets c) (live_checked c + n) (c_blocks c) (freelist_nodes c) (anomalies c) (repairs c)
    (shown c) (skipped_arenas c) (cross_thread_live c + cross) (repair c).
Definition set_repair (c : __sweep_ctx) (b : bool) : __sweep_ctx :=
  Sweep (c_arenas c) (c_sheets c) (live_checked c) (c_blocks c) (freelist_nodes c) (anomalies c) (repairs c)
    (shown c) (skipped_arenas c) (cross_thread_live c) b.

(** [if ( bad ) ctx.note(...)] *)
Definition note_if (bad : bool) (c : __sweep_ctx) : __sweep_ctx := if bad then note c else c.

(** ** The allocator, as the doctor sees it *)

(** [al_kind] is [__doctor_tier_kind]: 1 for the two-level tiers, 2 for the
    buddy tiers, 0 for neither.  [al_word w p a] is the 32-bit word at address
    [a] of the sheet that has [p]; [al_bytes] are the bytes of the users.
    [al_walk] is [__doctor_check_struct] and then [__doctor_walk_blocks] on the
    arena of the calling thread. *)
Class Allocator (W : Type) := {
  al_tls : W -> Z;
  al_arenas : W -> list Z;
  al_contains : W -> Z -> bool;
  al_owner_of : W -> Z -> Z;
  al_kind : W -> Z -> res Z;
  al_size : W -> Z -> res Z;
  al_valid : W -> Z -> res bool;
  al_provenance : W -> Z -> res bool;
  al_cached : W -> Z -> res bool;
  al_word : W -> Z -> Z -> res Z;
  al_set_word : W -> Z -> Z -> Z -> res W;
  al_bytes : W -> zmap;
  al_set_bytes : W -> zmap -> W;
  al_walk : __sweep_ctx -> W -> res (__sweep_ctx * W)
}.

(** ** Backtraces *)

(** The frames of the calling thread: the stack by word, and the frame pointer *)
Definition u_window : Z := Z.shiftl 16 20.

Fixpoint walk_frames (stack : zmap) (lo fp : Z) (room guard : nat) : list Z :=
  match guard with
  | O => []
  | S guard =>
      if fp =? 0 then [] else
      match room with
      | O => []
      | S room =>
          if (fp <? lo) || (u64 (lo + u_window) <=? fp) || negb (Z.land fp 7 =? 0) then [] else
          let ret := rd stack (fp + 8) in
          let next := rd stack fp in
          if ret =? 0 then [] else
          ret :: (if next <=? fp then [] else walk_frames stack lo next room guard)
      end
  end.

Definition __capture_backtrace `{DoctorSettings} (stack : zmap) (frame : Z) (maxn : nat) : list Z :=
  let l := if __default_doctor_backtrace then walk_frames stack frame frame maxn 128 else [] in
  l ++ replicate (maxn - length l) 0.

(** What the calling thread brings: its number, its stack, and whether the
    initialisers of the executable have run *)
Record caller := Caller { c_tid : Z; c_stack : zmap; c_frame : Z; __exe_init_done : bool }.

(** ** Flags of a block *)

Definition __alloc_flags_ok (f : Z) : bool :=
  (f =? __block_alloc) || (f =? Z.lor __block_alloc __block_temporal) || (f =? __block_tombstone).
Definition __flags_known (f : Z) : bool := (f =? __block_free) || __alloc_flags_ok f.

(** Marks the shadow of a buddy block, whose order may be 0 *)
Definition __hdr_shadow_buddy_captured : Z := 2147483648.

(** ** The session of a thread *)

(** [__dr], and of the thread [__dr_lock_depth] and [__in_doctor] *)
Record session (W : Type) := Session { s_dr : __doctor_state; __dr_lock_depth : Z; __in_doctor : Z; s_world : W }.
Arguments Session {W}.
Arguments s_dr {W}.
Arguments __dr_lock_depth {W}.
Arguments __in_doctor {W}.
Arguments s_world {W}.

Definition set_lock (d : __doctor_state) (l : bool) : __doctor_state :=
  set_ops d (op_counter d) (corruption_events d) (remote_free_events d) l.
Definition count_corruption (d : __doctor_state) : __doctor_state :=
  set_ops d (op_counter d) (u64 (corruption_events d + 1)) (remote_free_events d) (lock d).
Definition count_remote (d : __doctor_state) : __doctor_state :=
  set_ops d (op_counter d) (corruption_events d) (u64 (remote_free_events d + 1)) (lock d).

(** [__reentry re; if ( !re ) return skip; __scoped_lock g;] and the destructors
    of both at the end.  A nested call returns at once; a second lock on one
    thread ends the process; a lock held by another thread is waited for, which
    a run of one thread cannot show. *)
Definition enter {W X} (skip : X) (s : session W) (body : __doctor_state -> W -> res (X * __doctor_state * W))
    : res (X * session W) :=
  if negb (__in_doctor s =? 0) then Ok (skip, s) else
  if negb (__dr_lock_depth s =? 0) then Abort else
  if lock (s_dr s) then OutOfFuel else
  let* (x, d, w) := body (set_lock (s_dr s) true) (s_world s) in
  Ok (x, Session (set_lock d false) (__dr_lock_depth s) (__in_doctor s) w).

Section Doctor.
Context {W : Type} `{Allocator W} `{Hardening} `{DoctorSettings} `{Mapper}.

(** ** Recording *)

(** The new [blk_size] and [hdr_shadow], and the heap with the canary laid *)
Definition __doctor_arm_canaries (w : W) (p req o : Z) : res (Z * Z * W) :=
  if (o =? 0) || negb (o =? al_tls w) then Ok (0, 0, w) else
  let* kind := al_kind w p in
  let* real := al_size w p in
  if __default_doctor_canary then
    let* shadow := if kind =? 1 then al_word w p (p - __hdr_offset)
                   else if kind =? 2 then
                     let* ord := al_word w p (p + real) in Ok (Z.lor __hdr_shadow_buddy_captured (u32 ord))
                   else Ok 0 in
    if negb __default_redzone && (req <? real)
    then Ok (real, shadow, al_set_bytes w (memset (al_bytes w) (p + req) __default_doctor_canary_byte (real - req)))
    else Ok (real, shadow, w)
  else Ok (real, 0, w).

Definition record_alloc (c : caller) (s : session W) (p req : Z) : res (unit * session W) :=
  if p =? 0 then Ok (tt, s) else
  enter tt s (fun d w =>
    let '(d, o) := open_slot d p in
    match o with
    | None => Ok (tt, d, w)
    | Some i =>
        let d := count_alloc d (state (slot_of (table d) i)) in
        let '(op, d) := next_op d in
        let own := al_owner_of w p in
        let* (blk, shadow, w) := __doctor_arm_canaries w p req own in
        let r := Rec p req blk op 0 own (c_tid c) 0 rs_live (if __exe_init_done c then 0 else __rec_flag_pre_exe_init)
                   shadow 0 (__capture_backtrace (c_stack c) (c_frame c) (Z.to_nat __doctor_bt_depth)) in
        Ok (tt, __push_event (put_slot d i r) 0 p req op (c_tid c), w)
    end).

Definition mark_chunk_alloc (s : session W) (p : Z) : res (unit * session W) :=
  if p =? 0 then Ok (tt, s) else
  enter tt s (fun d w =>
    match __find d p with
    | None => Ok (tt, d, w)
    | Some i =>
        let r := slot_of (table d) i in
        if live_rec r then Ok (tt, put_slot d i (set_flags r (Z.lor (flags r) __rec_flag_chunk)), w) else Ok (tt, d, w)
    end).

Definition record_realloc (c : caller) (s : session W) (p n : Z) : res (unit * session W) :=
  if p =? 0 then Ok (tt, s) else
  enter tt s (fun d w =>
    match __find d p with
    | None => Ok (tt, d, w)
    | Some i =>
        let r := slot_of (table d) i in
        if negb (live_rec r) then Ok (tt, d, w) else
        let* (blk, shadow, w) := __doctor_arm_canaries w p n (owner r) in
        let d := put_slot d i (set_request r n blk shadow) in
        let '(op, d) := next_op d in
        Ok (tt, __push_event d 3 p n op (c_tid c), w)
    end).

(** The four calls that end a record; a remote free is counted first. *)
Definition end_record (c : caller) (s : session W) (p : Z) (to : __rec_state) (len : Z) (remote : bool) : res (unit * session W) :=
  if p =? 0 then Ok (tt, s) else
  enter tt s (fun d w =>
    let d := if remote then count_remote d else d in
    Ok (tt, __mark_free_locked d p to len (c_tid c), w)).

Definition record_free (c : caller) (s : session W) (p len : Z) := end_record c s p rs_freed len false.
Definition record_tombstone (c : caller) (s : session W) (p len : Z) := end_record c s p rs_tombstoned len false.
Definition record_remote_free (c : caller) (s : session W) (p len : Z) := end_record c s p rs_freed len true.
Definition record_remote_tombstone (c : caller) (s : session W) (p : Z) := end_record c s p rs_tombstoned 0 true.

(** ** Questions *)

Definition is_tracked (s : session W) (p : Z) : res (bool * session W) :=
  enter false s (fun d w =>
    Ok (match __find d p with Some i => live_rec (slot_of (table d) i) | None => false end, d, w)).

(** The events of a pointer that the ring still has, the oldest first *)
Definition history (d : __doctor_state) (k : Z) : list __event :=
  match ev d with
  | None => []
  | Some r =>
      let total := ev_total d in
      let start := if __doctor_event_ring_cap <? total then total - __doctor_event_ring_cap else 0 in
      filter (fun e => e_key e = k)
        (map (fun i => default (Event 0 0 0 0 0) (r !! Z.land i (__doctor_event_ring_cap - 1))) (seqZ start (total - start)))
  end.

(** The totals [leaks] prints: live records and their bytes, of these from before
    the initialisers, and number, bytes and largest by class *)
Record census := Census { l_shown : Z; l_bytes : Z; l_pre : Z; l_pre_bytes : Z; cls_cnt : zmap; cls_bytes : zmap; cls_max : zmap }.

(** With neither an owner nor an arena of its own the thread reads through a null
    pointer, which the guarded read turns into class 0. *)
Definition leak_class (w : W) (u : Z) : res Z :=
  let o := if al_contains w u then al_owner_of w u else 0 in
  if negb (o =? 0) && negb (o =? al_tls w) then Ok 3 else
  if o =? al_tls w then
    if o =? 0 then Ok 0 else
    let* kind := al_kind w u in Ok (if kind =? 1 then 1 else if kind =? 2 then 2 else 0)
  else Ok 0.

Definition tally (w : W) (n : census) (r : __rec) : res census :=
  if negb (live_rec r) then Ok n else
  let* cls := leak_class w (key r) in
  let pre := negb (Z.land (flags r) __rec_flag_pre_exe_init =? 0) in
  Ok (Census (l_shown n + 1) (l_bytes n + req_size r) (if pre then l_pre n + 1 else l_pre n)
        (if pre then l_pre_bytes n + req_size r else l_pre_bytes n)
        (wr (cls_cnt n) cls (rd (cls_cnt n) cls + 1)) (wr (cls_bytes n) cls (rd (cls_bytes n) cls + req_size r))
        (if rd (cls_max n) cls <? req_size r then wr (cls_max n) cls (req_size r) else cls_max n)).

Fixpoint fold_res {X Y} (f : X -> Y -> res X) (x : X) (l : list Y) : res X :=
  match l with [] => Ok x | y :: l => let* x := f x y in fold_res f x l end.

(** The records of the table, slot by slot; a null table has none. *)
Definition all_slots (d : __doctor_state) : list __rec :=
  match slots d with None => [] | Some m => map (slot_of m) (seqZ 0 (cap d)) end.

Definition leaks (s : session W) : res (option census * session W) :=
  enter None s (fun d w =>
    let* n := fold_res (tally w) (Census 0 0 0 0 ∅ ∅ ∅) (all_slots d) in Ok (Some n, d, w)).

(** ** The sweep *)

Definition __check_header_ok (w : W) (u sz kind : Z) : res bool :=
  if kind =? 1 then
    let* bsize := al_word w u (u - __hdr_offset) in
    let* flags := al_word w u (u - __hdr_offset + 4) in
    Ok ((bsize =? u32 (sz + __hdr_offset)) && __alloc_flags_ok flags)
  else if kind =? 2 then
    let* order := al_word w u (u + sz) in
    let* flags := al_word w u (u + sz + 4) in
    Ok ((0 <=? order) && (order <=? 25) && __alloc_flags_ok flags)
  else Ok true.

(** [for ( k = req; k < sz; ++k ) if ( u[k] != canary ) { note; break; }] *)
Fixpoint slack_clobbered (m : zmap) (a : Z) (n : nat) : bool :=
  match n with
  | O => false
  | S n => if negb (rd m a =? __default_doctor_canary_byte) then true else slack_clobbered m (a + 1) n
  end.

(** The body of the guarded part for one live record of our own arena *)
Definition probe_live (w : W) (o : Z) (r : __rec) (c : __sweep_ctx) : res __sweep_ctx :=
  let u := key r in
  let* prov := al_provenance w u in
  if negb prov then Ok (note c) else
  let* sz := al_size w u in
  let* kind := al_kind w u in
  let* valid := al_valid w u in
  let* gone := if negb valid then let* cached := al_cached w u in Ok (negb cached) else Ok false in
  let c := note_if gone c in
  let looked := negb (kind =? 0) && negb (sz =? 0) in
  let* hdr_struct_ok := if looked then __check_header_ok w u sz kind else Ok true in
  let c := note_if (looked && negb hdr_struct_ok) c in
  let c := note_if (negb (owner r =? 0) && negb (o =? owner r)) c in
  let c := note_if (negb (sz =? 0) && (sz <? req_size r)) c in
  if __default_doctor_canary then
    let* hdr_shadow_ok :=
      if negb (kind =? 0) && negb (hdr_shadow r =? 0) then
        let* cur := if kind =? 1 then al_word w u (u - __hdr_offset)
                    else let* ord := al_word w u (u + sz) in Ok (Z.lor __hdr_shadow_buddy_captured (u32 ord)) in
        Ok (cur =? hdr_shadow r)
      else Ok true in
    let c := note_if (negb hdr_shadow_ok) c in
    if negb __default_redzone then
      if hdr_struct_ok && hdr_shadow_ok && (req_size r <? sz) && (Z.land (flags r) __rec_flag_chunk =? 0)
      then Ok (note_if (slack_clobbered (al_bytes w) (u + req_size r) (Z.to_nat (sz - req_size r))) c)
      else Ok c
    else Ok c
  else Ok c.

Definition sweep_rec (w : W) (c : __sweep_ctx) (r : __rec) : res __sweep_ctx :=
  if negb (live_rec r) then Ok c else
  let u := key r in
  let c := saw_live c 1 0 in
  if negb (al_contains w u) then Ok (note c) else
  let o := al_owner_of w u in
  if o =? 0 then Ok (note c) else
  if negb (o =? al_tls w) then Ok (saw_live c 0 1) else
  probe_live w o r c.

(** The walk of one arena of the loop over all of them *)
Definition sweep_arena (cw : __sweep_ctx * W) (a : Z) : res (__sweep_ctx * W) :=
  let '(c, w) := cw in
  if negb (a =? al_tls w) then Ok (saw_arenas c 1 1, w)
  else al_walk (set_repair c (__default_doctor_rescue && negb __default_doctor_rescue_conservative)) w.

Definition __sweep_all_locked (d : __doctor_state) (w : W) : res (Z * __sweep_ctx * W) :=
  let* (c, w) := fold_res sweep_arena (sweep_init, w) (al_arenas w) in
  let* c := fold_res (sweep_rec w) (set_repair c false) (all_slots d) in
  Ok (anomalies c + repairs c, c, w).

(** [fsck], which is also [audit] *)
Definition fsck (s : session W) : res (Z * session W) :=
  enter 0 s (fun d w => let* (n, _, w) := __sweep_all_locked d w in Ok (n, d, w)).

(** ** Faults *)

Definition __repair_header_locked (w : W) (u sz kind : Z) : res (bool * W) :=
  if kind =? 1 then
    let* old := al_word w u (u - __hdr_offset + 4) in
    let* w := al_set_word w u (u - __hdr_offset) (u32 (sz + __hdr_offset)) in
    let* w := al_set_word w u (u - __hdr_offset + 4) (Z.lor __block_alloc (Z.land old __block_temporal)) in
    let* ok := __check_header_ok w u sz kind in Ok (ok, w)
  else if kind =? 2 then
    let* old := al_word w u (u + sz + 4) in
    let* w := al_set_word w u (u + sz + 4) (Z.lor __block_alloc (Z.land old __block_temporal)) in
    let* ok := __check_header_ok w u sz kind in Ok (ok, w)
  else Ok (false, w).

(** The answer is whether the caller goes on as if nothing had happened. *)
Definition on_double_free (s : session W) (p : Z) : res (bool * session W) :=
  enter false s (fun d w =>
    let* (_, _, w) := __sweep_all_locked d w in
    if __default_doctor_rescue then Ok (true, __quarantine_locked d p, w) else Ok (false, d, w)).

Definition on_free_result (s : session W) (p : Z) (ok : bool) : res (unit * session W) :=
  if ok then Ok (tt, s) else
  enter tt s (fun d w =>
    let reported := match __find d p with Some i => negb (live_rec (slot_of (table d) i)) | None => false end in
    if reported then Ok (tt, d, w) else
    let* (_, _, w) := __sweep_all_locked d w in Ok (tt, d, w)).

Definition try_repair (w : W) (p usz : Z) : res (bool * W) :=
  let o := if al_contains w p then al_owner_of w p else 0 in
  if negb (o =? 0) && (o =? al_tls w) && negb (usz =? 0) then
    let* kind := al_kind w p in
    let* sz := al_size w p in
    if negb (kind =? 0) && negb (sz =? 0) then __repair_header_locked w p sz kind else Ok (false, w)
  else Ok (false, w).

Definition on_corruption (s : session W) (p : Z) : res (bool * session W) :=
  enter false s (fun d w =>
    let d := count_corruption d in
    let usz := match __find d p with Some i => req_size (slot_of (table d) i) | None => 0 end in
    let* (_, _, w) := __sweep_all_locked d w in
    if __default_doctor_rescue then
      let* (mended, w) := if negb __default_doctor_rescue_conservative then try_repair w p usz else Ok (false, w) in
      if mended : bool then Ok (true, d, w) else Ok (true, __quarantine_locked d p, w)
    else Ok (false, d, w)).

Definition on_bad_free (s : session W) (p : Z) : res (bool * session W) :=
  enter false s (fun d w =>
    let* (_, _, w) := __sweep_all_locked d w in
    if __default_doctor_rescue then Ok (true, __quarantine_locked d p, w) else Ok (false, d, w)).

(** The size a sized free goes on with.  [__default_redzone] is not the effective
    switch here, which is the same constant. *)
Definition check_free_size (s : session W) (p claimed : Z) : res (Z * session W) :=
  if (p =? 0) || (claimed =? 0) then Ok (claimed, s) else
  enter claimed s (fun d w =>
    let r := match __find d p with Some i => Some (slot_of (table d) i) | None => None end in
    let req := from_option req_size 0 r in
    let* real :=
      let blk := from_option blk_size 0 r in
      if (blk =? 0) && al_contains w p then
        let o := al_owner_of w p in
        let o := if o =? 0 then al_tls w else o in
        if negb (o =? 0) && (o =? al_tls w) then al_size w p else Ok blk
      else Ok blk in
    let fits n := negb (n =? 0) && (if __default_redzone then claimed =? n else claimed <=? n) in
    if fits req || fits real then Ok (claimed, d, w) else
    if negb (if r then true else false) && (real =? 0) then Ok (claimed, d, w) else
    let* (_, _, w) := __sweep_all_locked d w in
    let safe := if negb (real =? 0) && (real <? claimed) then real else claimed in
    if __default_doctor_rescue then Ok (safe, d, w) else
    match fail_state with Aborts => Abort | Returns _ => Ok (safe, d, w) end).
End Doctor.
