(* ===== verification/DoctorProps.v ===== *)
(** * What the doctor knows (src/src/doctor.hpp)

    The hooks keep the ledger in step with the history: what the ledger calls
    live is live, and while the kernel grants the doctor's own mappings nothing
    live is missing.  Proved against the interface [Allocator] and its laws. *)

From S2P Require Import Prelude.
From S2P Require Import Config.
From S2P Require Import Harden.
From S2P Require Import Kernel.
From S2P Require Import Ledger.
From S2P Require Import LedgerInv.
From S2P Require Import LedgerOps.
From S2P Require Import Doctor.

(** What the doctor relies on: on a heap in order the questions have answers,
    and a walk that does not repair leaves it in order. *)
Class AllocatorLaws (W : Type) `{Allocator W} := {
  al_good : W -> Prop;
  al_kind_ok w p : al_good w -> exists k, al_kind w p = Ok k;
  al_size_ok w p : al_good w -> exists n, al_size w p = Ok n;
  al_word_ok w p a k : al_good w -> al_kind w p = Ok k -> k <> 0 -> exists v, al_word w p a = Ok v;
  al_valid_ok w p : al_good w -> exists b, al_valid w p = Ok b;
  al_provenance_ok w p : al_good w -> exists b, al_provenance w p = Ok b;
  al_cached_ok w p : al_good w -> exists b, al_cached w p = Ok b;
  al_walk_ok w c : al_good w -> repair c = false -> exists c' w', al_walk c w = Ok (c', w') /\ al_good w'
}.

(** ** Histories *)

(** The calls the allocator makes *)
Inductive hook :=
  | on_alloc (c : caller) (p req : Z)
  | on_chunk (p : Z)
  | on_realloc (c : caller) (p n : Z)
  | on_free (c : caller) (p len : Z)
  | on_tombstone (c : caller) (p len : Z)
  | on_remote_free (c : caller) (p len : Z)
  | on_remote_tombstone (c : caller) (p : Z)
  | on_second_free (p : Z)
  | on_result (p : Z) (ok : bool)
  | on_broken (p : Z)
  | on_unknown (p : Z).

(** The pointers handed out and not ended *)
Definition live_after (L : gset Z) (h : hook) : gset Z :=
  match h with
  | on_alloc _ p _ => if p =? 0 then L else {[ p ]} ∪ L
  | on_free _ p _ | on_tombstone _ p _ | on_remote_free _ p _ | on_remote_tombstone _ p => L ∖ {[ p ]}
  | _ => L
  end.

Section Hooks.
Context {W : Type} `{AllocatorLaws W} `{Hardening} `{DoctorSettings} `{Mapper}.

Definition discard {X} (r : res (X * session W)) : res (session W) := let* (_, s) := r in Ok s.

Definition run_hook (s : session W) (h : hook) : res (session W) :=
  match h with
  | on_alloc c p n => discard (record_alloc c s p n)
  | on_chunk p => discard (mark_chunk_alloc s p)
  | on_realloc c p n => discard (record_realloc c s p n)
  | on_free c p n => discard (record_free c s p n)
  | on_tombstone c p n => discard (record_tombstone c s p n)
  | on_remote_free c p n => discard (record_remote_free c s p n)
  | on_remote_tombstone c p => discard (record_remote_tombstone c s p)
  | on_second_free p => discard (on_double_free s p)
  | on_result p ok => discard (on_free_result s p ok)
  | on_broken p => discard (on_corruption s p)
  | on_unknown p => discard (on_bad_free s p)
  end.

(** Between two calls the allocator takes the heap to any state. *)
Definition in_world (s : session W) (w : W) : session W := Session (s_dr s) (__dr_lock_depth s) (__in_doctor s) w.
Definition run_hooks (s : session W) (hs : list (W * hook)) : res (session W) :=
  fold_res (fun s '(w, h) => run_hook (in_world s w) h) s hs.

(** ** One call *)

(** No call of the doctor is under way on the thread, and no one has the lock. *)
Record quiet (s : session W) : Prop := {
  q_nest : __in_doctor s = 0;
  q_depth : __dr_lock_depth s = 0;
  q_lock : lock (s_dr s) = false
}.

(** The ledger of [s] and the live pointers [L] *)
Definition tracks (B : Z) (s : session W) (L : gset Z) : Prop :=
  quiet s /\ exists M, ledger_ok true B (s_dr s) M /\
    (forall p r, M !! p = Some r -> live_rec r = true -> p ∈ L) /\
    (granting -> forall p, p ∈ L -> exists r, M !! p = Some r /\ live_rec r = true).

Lemma enter_quiet {X} (skip : X) s body x d w : quiet s -> body (set_lock (s_dr s) true) (s_world s) = Ok (x, d, w) ->
  enter skip s body = Ok (x, Session (set_lock d false) 0 0 w) /\ quiet (Session (set_lock d false) 0 0 w).
Proof using.
  intros [Hn Hd Hl] E. unfold enter. rewrite Hn, Hd, Hl. cbn. rewrite E. cbn. done.
Qed.

Lemma lock_ledger d b : same_ledger d (set_lock d b).
Proof using. by repeat split. Qed.

Lemma arm_ok w p n o : al_good w -> exists blk shadow w', __doctor_arm_canaries w p n o = Ok (blk, shadow, w').
Proof using.
  intros G. unfold __doctor_arm_canaries. case_match; [by do 3 eexists|].
  destruct (al_kind_ok w p G) as [k Ek], (al_size_ok w p G) as [m Em]. rewrite Ek, Em. cbn [bind].
  destruct __default_doctor_canary; [|by do 3 eexists].
  assert (Hw : k <> 0 -> forall a, exists v, al_word w p a = Ok v) by (intros; by apply (al_word_ok w p a k)).
  case_b; [subst k; destruct (Hw ltac:(done) (p - __hdr_offset)) as [v ->]|
           case_b; [subst k; destruct (Hw ltac:(done) (p + m)) as [v ->]|]]; cbn [bind]; case_match; by do 3 eexists.
Qed.

(** The records of a map that shrinks to its live records *)
Lemma shrunk_live M M' p r : M' = M \/ M' = live_only M ->
  live_rec r = true -> M' !! p = Some r <-> M !! p = Some r.
Proof using.
  intros [->| ->] Hl; [done|]. unfold live_only. rewrite map_lookup_filter_Some. cbn. intuition.
Qed.

Lemma fold_res_ok {X Y} (P : X -> Prop) (f : X -> Y -> res X) l : forall x,
  (forall x y, P x -> exists x', f x y = Ok x' /\ P x') -> P x -> exists x', fold_res f x l = Ok x' /\ P x'.
Proof using.
  induction l as [|y l IH]; intros x Hf Hx; cbn [fold_res]; [by exists x|].
  destruct (Hf x y Hx) as (x' & -> & Hx'). by apply IH.
Qed.

Lemma check_header_total w u sz k : al_good w -> al_kind w u = Ok k -> exists b, __check_header_ok w u sz k = Ok b.
Proof using.
  intros G Ek. unfold __check_header_ok.
  assert (Hw : k <> 0 -> forall a, exists v, al_word w u a = Ok v) by (intros; by apply (al_word_ok w u a k)).
  case_b; [|case_b; [|by eexists]]; subst k.
  - destruct (Hw ltac:(done) (u - __hdr_offset)) as [v ->], (Hw ltac:(done) (u - __hdr_offset + 4)) as [v' ->]. by eexists.
  - destruct (Hw ltac:(done) (u + sz)) as [v ->], (Hw ltac:(done) (u + sz + 4)) as [v' ->]. by eexists.
Qed.

Lemma probe_live_total w o r c : al_good w -> exists c', probe_live w o r c = Ok c'.
Proof using.
  intros G. unfold probe_live. destruct (al_provenance_ok w (key r) G) as [pv ->]. cbn [bind].
  destruct pv; cbn [negb]; [|by eexists].
  destruct (al_size_ok w (key r) G) as [sz ->], (al_kind_ok w (key r) G) as [k Ek], (al_valid_ok w (key r) G) as [v ->],
    (al_cached_ok w (key r) G) as [ca Eca]. rewrite Ek. cbn [bind].
  assert (exists g, (if negb v then let* cached := al_cached w (key r) in Ok (negb cached) else Ok false) = Ok g) as [g ->].
  { destruct v; cbn [negb]; [by eexists|]. rewrite Eca. by eexists. }
  cbn [bind]. destruct (check_header_total w (key r) sz k G Ek) as [hb Ehb].
  assert (exists hs, (if negb (k =? 0) && negb (sz =? 0) then __check_header_ok w (key r) sz k else Ok true) = Ok hs) as [hs ->].
  { case_match; [rewrite Ehb|]; by eexists. }
  cbn [bind]. destruct __default_doctor_canary; [|by eexists].
  match goal with |- context [bind ?e _] => assert (exists b, e = Ok b) as [b ->] end.
  { destruct (Z.eqb_spec k 0) as [|Hk]; cbn [negb andb]; [by eexists|]. case_match; [|by eexists].
    destruct (al_word_ok w (key r) (key r - __hdr_offset) k G Ek Hk) as [v1 ->],
      (al_word_ok w (key r) (key r + sz) k G Ek Hk) as [v2 ->]. cbn [bind].
    destruct (k =? 1); cbn [bind]; by eexists. }
  cbn [bind]. repeat case_match; by eexists.
Qed.

Lemma sweep_total d w : __default_doctor_rescue = false -> al_good w -> exists n c w', __sweep_all_locked d w = Ok (n, c, w').
Proof using.
  intros Hre G. unfold __sweep_all_locked.
  destruct (fold_res_ok (fun cw : __sweep_ctx * W => al_good cw.2) sweep_arena (al_arenas w) (sweep_init, w)) as ([c w'] & -> & G'); [|done|].
  { intros [c w1] a G1. unfold sweep_arena. case_match; [by eexists|].
    destruct (al_walk_ok w1 (set_repair c (__default_doctor_rescue && negb __default_doctor_rescue_conservative)) G1) as (c' & w2 & -> & G2);
      [cbn; by rewrite Hre|].
    by eexists. }
  cbn [bind snd] in *.
  destruct (fold_res_ok (fun _ : __sweep_ctx => True) (sweep_rec w') (all_slots d) (set_repair c false)) as (c' & -> & _); [|done|].
  { intros c1 r _. unfold sweep_rec. repeat (case_match; [by eexists|]).
    destruct (probe_live_total w' (al_owner_of w' (key r)) r (saw_live c1 1 0) G') as [c2 ->]. by eexists. }
  cbn [bind]. by do 3 eexists.
Qed.

(** A call whose body leaves the ledger as it is, or changes it as stated *)
Lemma tracks_body {X} (skip : X) B' s w L' body x d w' M :
  quiet s -> body (set_lock (s_dr s) true) w = Ok (x, d, w') -> ledger_ok true B' d M ->
  (forall p r, M !! p = Some r -> live_rec r = true -> p ∈ L') ->
  (granting -> forall p, p ∈ L' -> exists r, M !! p = Some r /\ live_rec r = true) ->
  exists s', discard (enter skip (in_world s w) body) = Ok s' /\ tracks B' s' L'.
Proof using.
  intros Q E K Hin Hout. destruct (enter_quiet skip (in_world s w) body x d w') as [E' Q'].
  { by destruct Q. } { done. }
  rewrite E'. eexists. split; [done|]. split; [done|]. exists M.
  split; [by eapply ok_same; [apply lock_ledger|]|done].
Qed.

Lemma tracks_mono B B' s L : tracks B s L -> B <= B' < 2 ^ 50 -> tracks B' s L.
Proof using.
  intros (Q & M & K & T) HB. split; [done|]. exists M. split; [|done]. destruct K as [Hb ? ? ? ? ? ? ?]. split; try done; lia.
Qed.

(** Calls that leave the ledger alone *)
Lemma tracks_same {X} (skip : X) B s w L body x d' w' :
  tracks B s L -> body (set_lock (s_dr s) true) w = Ok (x, d', w') -> same_ledger (s_dr s) d' ->
  exists s', discard (enter skip (in_world s w) body) = Ok s' /\ tracks B s' L.
Proof using.
  intros (Q & M & K & Hin & Hout) E Hd. eapply (tracks_body skip B s w L body); [done|done| |done|done].
  by eapply ok_same.
Qed.

Lemma null_tracks {X} B s w L (x : X) : tracks B s L -> exists s', discard (Ok (x, in_world s w)) = Ok s' /\ tracks B s' L.
Proof using. intros (Q & T). eexists. split; [done|]. split; [by destruct Q|done]. Qed.

Section Step.
Context (B : Z) (HB : 0 <= B) (HB1 : B + 1 < 2 ^ 50) (s : session W) (w : W) (L : gset Z) (T : tracks B s L) (G : al_good w).

Lemma alloc_tracks c p req :
  exists s', discard (record_alloc c (in_world s w) p req) = Ok s' /\ tracks (B + 1) s' (live_after L (on_alloc c p req)).
Proof using All.
  unfold record_alloc. cbn [live_after]. destruct (Z.eqb_spec p 0) as [|Hp].
  { apply null_tracks. apply (tracks_mono B); [done|lia]. }
  destruct T as (Q & M & K & Hin & Hout).
  assert (K1 : ledger_ok true B (set_lock (s_dr s) true) M) by (by eapply ok_same; [apply lock_ledger|]).
  destruct (open_slot_ok true B (set_lock (s_dr s) true) M p K1) as (M' & HM & K' & Hi).
  destruct (open_slot (set_lock (s_dr s) true) p) as [d o] eqn:Eo. cbn [fst snd] in K', Hi.
  destruct o as [i|].
  - destruct (arm_ok w p req (al_owner_of w p) G) as (blk & shadow & w' & Earm).
    set (cd := count_alloc d (state (slot_of (table d) i))).
    set (r := Rec p req blk (op_counter cd) 0 (al_owner_of w p) (c_tid c) 0 rs_live
      (if __exe_init_done c then 0 else __rec_flag_pre_exe_init) shadow 0
      (__capture_backtrace (c_stack c) (c_frame c) (Z.to_nat __doctor_bt_depth))).
    eapply (tracks_body _ _ s w _ _ _ _ _ (<[p := r]> M')); [done|cbn beta; rewrite Eo; cbn beta iota zeta; unfold next_op; rewrite Earm; done| | |].
    + eapply ok_same; [apply push_event_ledger|]. eapply (ok_same _ _ (put_slot cd i r)); [done|].
      by apply (enter_ok true B d M' p i r).
    + intros q x [[<- <-]|[Hq Eq]]%lookup_insert_Some Hl; [set_solver|].
      apply (shrunk_live M M' q x HM Hl) in Eq. specialize (Hin q x Eq Hl). set_solver.
    + intros Gr q Hq. destruct (Z.eq_dec p q) as [<-|Hne]; [exists r; split; [apply lookup_insert_eq|done]|].
      destruct (Hout Gr q) as (x & Ex & Hl); [set_solver|]. exists x. rewrite lookup_insert_ne by done.
      split; [by apply (shrunk_live M M' q x HM Hl)|done].
  - destruct Hi as [Hnone Hg].
    eapply (tracks_body _ _ s w _ _ _ _ _ M'); [done|cbn beta; rewrite Eo; done| | |].
    + destruct K' as [? ? ? ? ? ? ? ?]. split; try done; lia.
    + intros q x Eq Hl. apply (shrunk_live M M' q x HM Hl) in Eq. specialize (Hin q x Eq Hl). set_solver.
    + intros Gr. by destruct Hg.
Qed.

Lemma end_tracks c p to len remote : to = rs_freed \/ to = rs_tombstoned ->
  exists s', discard (end_record c (in_world s w) p to len remote) = Ok s' /\ tracks (B + 1) s' (L ∖ {[ p ]}).
Proof using All.
  intros Hto. destruct T as (Q & M & K & Hin & Hout). unfold end_record. destruct (Z.eqb_spec p 0) as [->|Hp].
  { assert (T' : tracks (B + 1) s (L ∖ {[ 0 ]})); [|by apply null_tracks].
    destruct (tracks_mono B (B + 1) s L T ltac:(lia)) as (Q1 & M1 & K1 & Hin1 & Hout1).
    split; [done|]. exists M1. split; [done|]. split.
    - intros q r Eq Hl. apply elem_of_difference. split; [by apply (Hin1 q r)|]. intros ->%elem_of_singleton.
      destruct (slots (s_dr s)) as [m|] eqn:Es.
      + destruct (lo_table _ _ _ _ K1 m Es) as (Gm & _ & HK & _). apply HK in Eq as [Hk [i Ei]].
        by destruct (gt_used _ _ Gm _ _ Ei) as (_ & _ & ?).
      + destruct (lo_null _ _ _ _ K1 Es) as (-> & _). by rewrite lookup_empty in Eq.
    - intros Gr q Hq. apply (Hout1 Gr). set_solver. }
  set (d0 := if remote then count_remote (set_lock (s_dr s) true) else set_lock (s_dr s) true).
  assert (K0 : ledger_ok true B d0 M) by (eapply (ok_same _ _ (s_dr s)); [unfold d0; by destruct remote|done]).
  destruct (mark_free_ok true B d0 M p to len (c_tid c) K0 HB1 Hto) as (M' & Hend & K').
  eapply (tracks_body _ _ s w _ _ _ _ _ M'); [done|done|done| |]; unfold ended in Hend.
  - intros q r Eq Hl. destruct (M !! p) as [x|] eqn:Ep.
    + destruct (live_rec x) eqn:Hx.
      * destruct Hend as (r' & -> & _ & Hr'). apply lookup_insert_Some in Eq as [[<- <-]|[Hne Eq]].
        { unfold live_rec in Hl. rewrite Hr' in Hl. by destruct Hto as [-> | ->]. }
        specialize (Hin q r Eq Hl). set_solver.
      * subst M'. specialize (Hin q r Eq Hl). assert (q <> p) by (intros ->; congruence). set_solver.
    + subst M'. specialize (Hin q r Eq Hl). assert (q <> p) by (intros ->; congruence). set_solver.
  - intros Gr q Hq. apply elem_of_difference in Hq as [Hq Hne]. rewrite elem_of_singleton in Hne.
    destruct (Hout Gr q Hq) as (x & Ex & Hl). exists x. split; [|done]. destruct (M !! p) as [y|].
    + destruct (live_rec y); [destruct Hend as (r' & -> & _)|by subst M']. by rewrite lookup_insert_ne.
    + by subst M'.
Qed.

(** A live record is rewritten, the pointer and its state kept. *)
Lemma refresh_tracks {X} (x : X) (skip : X) body p i r d' w' :
  __find (set_lock (s_dr s) true) p = Some i -> key r = p -> live_rec (slot_of (table (s_dr s)) i) = true ->
  state r = state (slot_of (table (s_dr s)) i) ->
  body (set_lock (s_dr s) true) w = Ok (x, d', w') -> same_ledger (put_slot (set_lock (s_dr s) true) i r) d' ->
  exists s', discard (enter skip (in_world s w) body) = Ok s' /\ tracks (B + 1) s' L.
Proof using T HB HB1.
  intros Ef Hk Hl Hr E Hd. destruct T as (Q & M & K & Hin & Hout).
  assert (K1 : ledger_ok true B (set_lock (s_dr s) true) M) by (by eapply ok_same; [apply lock_ledger|]).
  assert (K2 := refresh_ok true B (set_lock (s_dr s) true) M p i r K1 Ef Hk Hr).
  destruct (find_key true B _ M K1 p i Ef) as (m & y & Em & Ei & Hs & Hky & HMp).
  change (table (set_lock (s_dr s) true)) with (table (s_dr s)) in Hs. rewrite Hs in *.
  assert (Hlr : live_rec r = true) by (unfold live_rec in *; by rewrite Hr).
  eapply (tracks_body skip (B + 1) s w L body x d' w' (<[p := r]> M)); [done|done| | |].
  - eapply ok_same; [done|]. destruct K2. split; try done; lia.
  - intros q z [[<- <-]|[Hne Eq]]%lookup_insert_Some Hz; [by apply (Hin p y)|by apply (Hin q z)].
  - intros Gr q Hq. destruct (Z.eq_dec p q) as [<-|Hne]; [exists r; split; [apply lookup_insert_eq|done]|].
    rewrite lookup_insert_ne by done. by apply Hout.
Qed.

Lemma same_tracks {X} (skip : X) body x d' w' :
  body (set_lock (s_dr s) true) w = Ok (x, d', w') -> same_ledger (s_dr s) d' ->
  exists s', discard (enter skip (in_world s w) body) = Ok s' /\ tracks (B + 1) s' L.
Proof using T HB HB1.
  intros E Hd. destruct (tracks_same skip B s w L body x d' w' T E Hd) as (s' & Es' & T').
  exists s'. split; [done|]. apply (tracks_mono B); [done|lia].
Qed.

Lemma null_step {X} (x : X) : exists s', discard (Ok (x, in_world s w)) = Ok s' /\ tracks (B + 1) s' L.
Proof using T HB HB1. apply null_tracks, (tracks_mono B); [done|lia]. Qed.

Lemma chunk_tracks p : exists s', discard (mark_chunk_alloc (in_world s w) p) = Ok s' /\ tracks (B + 1) s' L.
Proof using T HB HB1.
  unfold mark_chunk_alloc. case_match; [by apply null_step|].
  destruct (__find (set_lock (s_dr s) true) p) as [i|] eqn:Ef.
  2:{ eapply same_tracks; [cbn beta; by rewrite Ef|done]. }
  change (table (set_lock (s_dr s) true)) with (table (s_dr s)) in *.
  destruct (live_rec (slot_of (table (s_dr s)) i)) eqn:Hl.
  2:{ eapply same_tracks; [cbn beta; rewrite Ef; change (table (set_lock _ _)) with (table (s_dr s)); by rewrite Hl|done]. }
  destruct T as (Q & M & K & _). assert (K1 : ledger_ok true B (set_lock (s_dr s) true) M) by (by eapply ok_same; [apply lock_ledger|]).
  destruct (find_key true B _ M K1 p i Ef) as (m & y & _ & _ & Hs & Hky & _).
  change (table (set_lock (s_dr s) true)) with (table (s_dr s)) in Hs.
  eapply (refresh_tracks tt tt _ p i (set_flags y (Z.lor (Ledger.flags y) __rec_flag_chunk))); [done|done|done|by rewrite Hs| |].
  - cbn beta. rewrite Ef. change (table (set_lock (s_dr s) true)) with (table (s_dr s)). by rewrite Hl, Hs.
  - done.
Qed.

Lemma realloc_tracks c p n : exists s', discard (record_realloc c (in_world s w) p n) = Ok s' /\ tracks (B + 1) s' L.
Proof using T HB HB1 G.
  unfold record_realloc. case_match; [by apply null_step|].
  destruct (__find (set_lock (s_dr s) true) p) as [i|] eqn:Ef.
  2:{ eapply same_tracks; [cbn beta; by rewrite Ef|done]. }
  destruct (live_rec (slot_of (table (s_dr s)) i)) eqn:Hl.
  2:{ eapply same_tracks; [cbn beta; rewrite Ef; change (table (set_lock _ _)) with (table (s_dr s)); by rewrite Hl|done]. }
  destruct T as (Q & M & K & _). assert (K1 : ledger_ok true B (set_lock (s_dr s) true) M) by (by eapply ok_same; [apply lock_ledger|]).
  destruct (find_key true B _ M K1 p i Ef) as (m & y & _ & _ & Hs & Hky & _).
  change (table (set_lock (s_dr s) true)) with (table (s_dr s)) in Hs.
  destruct (arm_ok w p n (owner y) G) as (blk & shadow & w' & Earm).
  eapply (refresh_tracks tt tt _ p i (set_request y n blk shadow)); [done|done|done|by rewrite Hs| |].
  - cbn beta. rewrite Ef. change (table (set_lock (s_dr s) true)) with (table (s_dr s)). rewrite Hl, Hs. cbn [negb].
    by rewrite Earm.
  - etransitivity; [|apply push_event_ledger]. by repeat split.
Qed.
End Step.

(** Without rescue a fault is reported and the ledger stays as it is. *)
Lemma fault_tracks {X} B s w L (skip x : X) (f : __doctor_state -> __doctor_state) :
  __default_doctor_rescue = false -> 0 <= B -> B + 1 < 2 ^ 50 -> tracks B s L -> al_good w -> (forall d, same_ledger d (f d)) ->
  exists s', discard (enter skip (in_world s w) (fun d w =>
    let* (_, _, w) := __sweep_all_locked (f d) w in Ok (x, f d, w))) = Ok s' /\ tracks (B + 1) s' L.
Proof using.
  intros Hre HB HB1 T G Hf. destruct (sweep_total (f (set_lock (s_dr s) true)) w Hre G) as (n & c & w' & E).
  eapply (same_tracks B HB HB1 s w L T); [cbn beta; rewrite E; done|].
  etransitivity; [apply lock_ledger|apply Hf].
Qed.

Lemma hook_tracks B s w L h : __default_doctor_rescue = false -> 0 <= B -> B + 1 < 2 ^ 50 -> tracks B s L -> al_good w ->
  exists s', run_hook (in_world s w) h = Ok s' /\ tracks (B + 1) s' (live_after L h).
Proof using.
  intros Hr HB HB1 T G. destruct h; cbn [run_hook live_after].
  - by apply (alloc_tracks B HB HB1 s w L T G).
  - by apply (chunk_tracks B).
  - by apply (realloc_tracks B).
  - by apply (end_tracks B HB HB1 s w L T G); left.
  - by apply (end_tracks B HB HB1 s w L T G); right.
  - by apply (end_tracks B HB HB1 s w L T G); left.
  - by apply (end_tracks B HB HB1 s w L T G); right.
  - unfold on_double_free. rewrite Hr. by apply (fault_tracks B s w L false false id).
  - unfold on_free_result. destruct ok; [by apply (null_step B)|].
    destruct (match __find (set_lock (s_dr s) true) p with Some i => negb (live_rec (slot_of (table (set_lock (s_dr s) true)) i)) | None => false end) eqn:Ef.
    + eapply (same_tracks B HB HB1 s w L T); [cbn beta; by rewrite Ef|done].
    + destruct (sweep_total (set_lock (s_dr s) true) w Hr G) as (n & c & w' & E).
      eapply (same_tracks B HB HB1 s w L T); [cbn beta; rewrite Ef, E; done|done].
  - unfold on_corruption. rewrite Hr. by apply (fault_tracks B s w L false false count_corruption).
  - unfold on_bad_free. rewrite Hr. by apply (fault_tracks B s w L false false id).
Qed.

Lemma hooks_track hs : forall B s L, __default_doctor_rescue = false -> 0 <= B -> B + Z.of_nat (length hs) < 2 ^ 50 ->
  tracks B s L -> Forall (fun wh => al_good wh.1) hs ->
  exists s', run_hooks s hs = Ok s' /\ tracks (B + Z.of_nat (length hs)) s' (foldl live_after L hs.*2).
Proof using.
  unfold run_hooks. induction hs as [|[w h] hs IH]; intros B s L Hr HB HB1 T Hg; cbn [fold_res length fmap list_fmap foldl].
  { exists s. rewrite Z.add_0_r. done. }
  cbn [length] in HB1. apply Forall_cons in Hg as [G Hg]. cbn [fst] in G.
  destruct (hook_tracks B s w L h Hr HB ltac:(lia) T G) as (s1 & -> & T1). cbn [bind].
  destruct (IH (B + 1) s1 _ Hr ltac:(lia) ltac:(lia) T1 Hg) as (s' & Es & T'). exists s'. split; [done|].
  by replace (B + Z.of_nat (S (length hs))) with (B + 1 + Z.of_nat (length hs)) by lia.
Qed.

(** The doctor before its first call *)
Definition fresh_session (w : W) : session W := Session __dr 0 0 w.

Lemma fresh_tracks w : tracks 0 (fresh_session w) ∅.
Proof using.
  split; [done|]. exists ∅. split; [|split; [intros p r E; by rewrite lookup_empty in E|set_solver]].
  split; cbn; try done; lia.
Qed.

Lemma tracked_ok B s L p : tracks B s L -> exists b s', is_tracked s p = Ok (b, s') /\
  (b = true -> p ∈ L) /\ (granting -> p ∈ L -> b = true).
Proof using.
  intros (Q & M & K & Hin & Hout). unfold is_tracked.
  assert (K1 : ledger_ok true B (set_lock (s_dr s) true) M) by (by eapply ok_same; [apply lock_ledger|]).
  destruct (enter_quiet false s (fun d w => Ok (match __find d p with Some i => live_rec (slot_of (table d) i) | None => false end, d, w))
              _ _ _ Q eq_refl) as [-> _].
  eexists _, _. split; [done|]. destruct (__find (set_lock (s_dr s) true) p) as [i|] eqn:Ef.
  - destruct (find_key true B _ M K1 p i Ef) as (m & r & _ & _ & -> & _ & HM). split; [by apply Hin|].
    intros Gr Hp. destruct (Hout Gr p Hp) as (r' & Er & Hl). congruence.
  - split; [done|]. intros Gr Hp. destruct (Hout Gr p Hp) as (r' & Er & Hl).
    rewrite (find_none true B _ M K1 p Ef) in Er. done.
Qed.

(** ** The number of live records *)

Lemma live_count M : msum w_live M = Z.of_nat (size (live_only M)).
Proof using.
  rewrite <- msum_live_only, <- msum_size. apply msum_ext. intros k r [_ Hl]%map_lookup_filter_Some. cbn in Hl.
  unfold w_live, live_rec in *. by rewrite Hl.
Qed.

Lemma tracks_size B s L : tracks B s L -> n_live (s_dr s) <= Z.of_nat (size L) /\ (granting -> n_live (s_dr s) = Z.of_nat (size L)).
Proof using.
  intros (Q & M & K & Hin & Hout). rewrite (lo_live _ _ _ _ K), live_count, <- size_dom.
  assert (Hsub : dom (live_only M) ⊆ L).
  { intros p [r [Er Hl]%map_lookup_filter_Some]%elem_of_dom. by apply (Hin p r). }
  split; [apply inj_le; by apply subseteq_size|]. intros Gr. do 2 f_equal. apply leibniz_equiv. intros p. split; [apply Hsub|].
  intros Hp. destruct (Hout Gr p Hp) as (r & Er & Hl). apply elem_of_dom. exists r. by apply map_lookup_filter_Some.
Qed.

(** The loop of [leaks] counts the records it meets. *)
Lemma tally_ok w l : al_good w -> forall n, exists n', fold_res (tally w) n l = Ok n' /\
  l_shown n' = l_shown n + Z.of_nat (length (filter (fun r => live_rec r = true) l)).
Proof using.
  intros G. induction l as [|r l IH]; intros n; cbn [fold_res]; [exists n; cbn; split; [done|lia]|].
  unfold tally at 1. rewrite filter_cons. destruct (live_rec r); cbn [negb].
  - assert (exists c, leak_class w (key r) = Ok c) as [c ->].
    { unfold leak_class. destruct (al_kind_ok w (key r) G) as [k ->]. repeat case_match; by eexists. }
    cbn [bind]. destruct (IH (Census (l_shown n + 1) (l_bytes n + req_size r)
      (if negb (Z.land (Ledger.flags r) __rec_flag_pre_exe_init =? 0) then l_pre n + 1 else l_pre n)
      (if negb (Z.land (Ledger.flags r) __rec_flag_pre_exe_init =? 0) then l_pre_bytes n + req_size r else l_pre_bytes n)
      (wr (cls_cnt n) c (rd (cls_cnt n) c + 1)) (wr (cls_bytes n) c (rd (cls_bytes n) c + req_size r))
      (if rd (cls_max n) c <? req_size r then wr (cls_max n) c (req_size r) else cls_max n))) as (n' & E & Hn).
    exists n'. split; [exact E|]. rewrite Hn. cbn [l_shown]. rewrite decide_True by done. cbn [length]. lia.
  - cbn [bind]. destruct (IH n) as (n' & -> & Hn). exists n'. split; [done|]. by rewrite decide_False.
Qed.

Lemma slots_count (m : gmap Z __rec) l : NoDup l -> (forall i r, m !! i = Some r -> i ∈ l) ->
  Z.of_nat (length (filter (fun r => live_rec r = true) (map (slot_of m) l))) = msum w_live m.
Proof using.
  revert m. induction l as [|i l IH]; intros m Hnd Hm.
  - assert (m = ∅) as ->; [|done]. apply map_empty. intros j. destruct (m !! j) as [r|] eqn:E; [|done].
    apply Hm in E. by apply elem_of_nil in E.
  - apply NoDup_cons in Hnd as [Hi Hl]. cbn [map]. rewrite filter_cons.
    assert (Hrest : map (slot_of m) l = map (slot_of (delete i m)) l).
    { apply map_ext_in. intros j Hj. apply list_elem_of_In in Hj. unfold slot_of. rewrite lookup_delete_ne; [done|]. by intros <-. }
    assert (IH' : Z.of_nat (length (filter (fun r => live_rec r = true) (map (slot_of m) l))) = msum w_live (delete i m)).
    { rewrite Hrest. apply IH; [done|]. intros j r [Hne E]%lookup_delete_Some. apply Hm in E.
      by apply elem_of_cons in E as [->|E]. }
    destruct (m !! i) as [r|] eqn:E.
    + rewrite (slot_some m i r E), (msum_delete w_live m i r E), <- IH'. unfold w_live, live_rec.
      case_bool_decide; [rewrite decide_True by done|rewrite decide_False by done]; cbn [length]; lia.
    + assert (slot_of m i = no_rec) as -> by (unfold slot_of; by rewrite E). rewrite decide_False by done.
      rewrite IH'. by rewrite delete_id.
Qed.

(** [leaks] shows the live records, each once. *)
Lemma leaks_ok B s L : tracks B s L -> al_good (s_world s) ->
  exists n s', leaks s = Ok (Some n, s') /\ l_shown n = n_live (s_dr s).
Proof using.
  intros (Q & M & K & _) G.
  assert (K1 : ledger_ok true B (set_lock (s_dr s) true) M) by (by eapply ok_same; [apply lock_ledger|]).
  destruct (tally_ok (s_world s) (all_slots (set_lock (s_dr s) true)) G (Census 0 0 0 0 ∅ ∅ ∅)) as (n & En & Hn).
  exists n. unfold leaks. edestruct (enter_quiet (None : option census) s) as [E _]; [done| |rewrite E].
  { cbn beta. rewrite En. done. }
  eexists. split; [done|]. rewrite Hn. cbn [l_shown]. rewrite Z.add_0_l. unfold all_slots.
  change (n_live (s_dr s)) with (n_live (set_lock (s_dr s) true)). rewrite (lo_live _ _ _ _ K1).
  destruct (slots (set_lock (s_dr s) true)) as [m|] eqn:Es.
  - destruct (lo_table _ _ _ _ K1 m Es) as (Gm & _ & HK & _). rewrite slots_count.
    + by apply msum_keyed; [apply (keys_unique _ _ Gm)|].
    + apply NoDup_seqZ.
    + intros i r Ei. apply elem_of_seqZ. destruct (gt_used _ _ Gm _ _ Ei). lia.
  - by destruct (lo_null _ _ _ _ K1 Es) as (-> & _).
Qed.

(** C7. The doctor without rescue, after any history of its hooks, with any heap at
    each of them: every call returned; a pointer the doctor tracks is live; and
    if the kernel granted the doctor's mappings the tracked pointers are exactly
    the live ones, their number is [n_live], and [leaks] shows as many. *)
Theorem doctor_knows_live hs w : __default_doctor_rescue = false -> Z.of_nat (length hs) < 2 ^ 50 ->
  Forall (fun wh => al_good wh.1) hs -> al_good w ->
  let L := foldl live_after ∅ hs.*2 in
  exists s, run_hooks (fresh_session w) hs = Ok s /\ quiet s /\
    (forall p, exists b s', is_tracked s p = Ok (b, s') /\ (b = true -> p ∈ L) /\ (granting -> p ∈ L -> b = true)) /\
    (granting -> n_live (s_dr s) = Z.of_nat (size L)) /\
    exists n s', leaks (in_world s w) = Ok (Some n, s') /\ l_shown n = n_live (s_dr s).
Proof using.
  intros Hr Hl Hg G. destruct (hooks_track hs 0 (fresh_session w) ∅ Hr) as (s & Es & T);
    [done|lia|apply fresh_tracks|done|].
  exists s. split; [done|]. split; [apply T|]. split; [intros p; by apply (tracked_ok _ s _ p T)|].
  split; [by apply (tracks_size _ s _ T)|].
  destruct T as ([] & T). by apply (leaks_ok (0 + Z.of_nat (length hs)) (in_world s w) (foldl live_after ∅ hs.*2)).
Qed.
End Hooks.
