(* ===== verification/Walk.v ===== *)
(** * Parts of a walk of the doctor

    The walks (free_list.hpp, cache_list.hpp, arena.hpp) note what they find in
    a [__sweep_ctx].  A [part] of a walk that does not repair notes nothing
    exactly when some property holds; parts compose. *)

From S2P Require Import Prelude.
From S2P Require Import Config.
From S2P Require Import Doctor.

(** A part of a walk that only reports: it notes nothing exactly when [P]. *)
Record part (v v' : __sweep_ctx) (P : Prop) : Prop := {
  p_grows : anomalies v <= anomalies v';
  p_mode : repair v' = repair v;
  p_repairs : repairs v' = repairs v;
  p_clean : anomalies v' = anomalies v <-> P
}.

Lemma part_refl v : part v v True.
Proof. split; done || lia. Qed.

Lemma part_trans v1 v2 v3 P Q : part v1 v2 P -> part v2 v3 Q -> part v1 v3 (P /\ Q).
Proof.
  intros [G1 M1 R1 C1] [G2 M2 R2 C2]. split; [lia|congruence|congruence|]. rewrite <- C1, <- C2. lia.
Qed.

Lemma part_iff v v' P Q : (P <-> Q) -> part v v' P -> part v v' Q.
Proof. intros E []. split; try done. by rewrite <- E. Qed.

Lemma part_note v P : ~ P -> part v (note v) P.
Proof. intros HP. split; try done; cbn; [lia|]. split; [lia|done]. Qed.

Lemma part_note_if v b : part v (note_if b v) (b = false).
Proof. destruct b; [by apply part_note|]. eapply part_iff; [|apply part_refl]. done. Qed.

Lemma part_seen v v' n m k P : part (saw_walk v n m k) v' P -> part v v' P.
Proof. intros []. by split. Qed.

(** A loop over parts *)
Lemma part_fold {S} (f : __sweep_ctx * S -> Z -> __sweep_ctx * S) (P : Z -> Prop) s l : forall v, repair v = false ->
  (forall v i, repair v = false -> exists v', f (v, s) i = (v', s) /\ part v v' (P i)) ->
  exists v', foldl f (v, s) l = (v', s) /\ part v v' (forall i, i ∈ l -> P i).
Proof.
  induction l as [|i l IH]; intros v Hr Hf; cbn [foldl].
  { exists v. split; [done|]. eapply part_iff; [|apply part_refl]. split; [by intros _ i Hi%elem_of_nil|done]. }
  destruct (Hf v i Hr) as (v1 & -> & P1). destruct (IH v1) as (v2 & -> & P2); [by rewrite (p_mode _ _ _ P1)|done|].
  exists v2. split; [done|]. eapply part_iff; [|by eapply part_trans]. setoid_rewrite elem_of_cons. split.
  - intros [HP HQ] j [->|Hj]; auto.
  - intros HQ. split; [apply HQ; by left|intros j Hj; apply HQ; by right].
Qed.

