(* ===== verification/TlsfWalk.v ===== *)
(** * The doctor's walk over a two-level list (src/src/cache_list.hpp, lines 654-763)

    [__doctor_walk] looks over sentinels, physical chain, bitmaps and free lists
    of a list and notes what is wrong.  It notes nothing exactly when the
    structure is [sound], which every reachable list is. *)

From S2P Require Import Prelude.
From S2P Require Import Intrusive.
From S2P Require Import Config.
From S2P Require Import Tlsf.
From S2P Require Import TlsfClass.
From S2P Require Import TlsfInv.
From S2P Require Import TlsfOps.
From S2P Require Import TlsfFind.
From S2P Require Import TlsfWf.
From S2P Require Import TlsfSpec.
From S2P Require Import TlsfProps.
From S2P Require Import Doctor.
From S2P Require Import Walk.

(** ** The walk *)

(** The loop over the physical blocks, [n] the rounds left of [maxg]; the result
    has the last block and the rounds left. *)
Fixpoint phys_walk (n : nat) (v : __sweep_ctx) (s : tlsf) (es cur prev : Z) : __sweep_ctx * tlsf * Z * nat :=
  match n with
  | O => (v, s, prev, O)
  | S n =>
      if negb (cur <? es) then (v, s, prev, S n) else
      let v := saw_walk v 0 1 0 in
      let bs := bsize s cur in
      if (bs =? 0) || negb (Z.land bs (__block_align - 1) =? 0) then (note v, s, prev, n) else
      if es <? cur + bs then (note v, s, prev, n) else
      let v := note_if (negb (__flags_known (flags s cur))) v in
      let '(v, s) :=
        if negb (prev_phys s cur =? prev) then
          if repair v then (did_repair (note v), set_prev_phys s cur prev) else (note v, s)
        else (v, s) in
      let nx := next_phys s cur in
      let v := note_if ((flags s cur =? __block_free) && (nx <? es) && (flags s nx =? __block_free)) v in
      phys_walk n v s es nx cur
  end.

(** [if ( heads[idx(fi, si)] != nullptr ) want_sl |= ( 1u << si );] over [si] *)
Definition want_sl (s : tlsf) (fi : Z) : Z :=
  foldl (fun w si => if negb (rd (heads s) (idx fi si) =? 0) then bit_set w si else w) 0 (seqZ 0 __sl_count).
Definition want_fl (s : tlsf) : Z :=
  foldl (fun w fi => if negb (rd (sl_bitmap s) fi =? 0) then bit_set w fi else w) 0 (seqZ 0 __fl_count).

Definition check_sl (vs : __sweep_ctx * tlsf) (fi : Z) : __sweep_ctx * tlsf :=
  let '(v, s) := vs in
  if negb (rd (sl_bitmap s) fi =? want_sl s fi) then
    if repair v then (did_repair v, set_sl s (wr (sl_bitmap s) fi (want_sl s fi))) else (note v, s)
  else (v, s).

Definition check_fl (v : __sweep_ctx) (s : tlsf) : __sweep_ctx * tlsf :=
  if negb (fl_bitmap s =? want_fl s) then
    if repair v then (did_repair v, set_fl s (want_fl s)) else (note v, s)
  else (v, s).

(** The loop along one free list *)
Fixpoint list_walk (n : nat) (v : __sweep_ctx) (s : tlsf) (i lo es nd pr : Z) : __sweep_ctx * tlsf * nat :=
  match n with
  | O => (v, s, O)
  | S n =>
      if nd =? 0 then (v, s, S n) else
      let v := saw_walk v 0 0 1 in
      if (nd <? lo) || (es <=? nd) then
        if repair v then
          (did_repair (note v), if negb (pr =? 0) then set_next_free s pr 0 else set_heads s (wr (heads s) i 0), n)
        else (note v, s, n)
      else
      let v := note_if (negb (flags s nd =? __block_free)) v in
      let '(v, s) :=
        if negb (prev_free s nd =? pr) then
          if repair v then (did_repair (note v), set_prev_free s nd pr) else (note v, s)
        else (v, s) in
      list_walk n v s i lo es (next_free s nd) nd
  end.

(** The rounds a loop may take *)
Definition max_rounds (s : tlsf) : nat := Z.to_nat (total s / __min_block + 8).

Definition check_list (vs : __sweep_ctx * tlsf) (i : Z) : __sweep_ctx * tlsf :=
  let '(v, s) := vs in
  let lo := base s + __block_align in
  let '(v, s, rounds) := list_walk (max_rounds s) v s i lo (lo + total s) (rd (heads s) i) 0 in
  (note_if (bool_decide (rounds = 0%nat)) v, s).

Definition sentinel_ok (s : tlsf) (a : Z) : bool := (bsize s a =? __block_align) && (flags s a =? __block_alloc).

Definition __doctor_walk (v : __sweep_ctx) (s : tlsf) : __sweep_ctx * tlsf :=
  if base s =? 0 then (v, s) else
  let lo := base s + __block_align in
  let es := lo + total s in
  let v := note_if (negb (sentinel_ok s (base s))) v in
  let v := note_if (negb (sentinel_ok s es)) v in
  let '(v, s, last, rounds) := phys_walk (max_rounds s) v s es lo (base s) in
  let v := if bool_decide (rounds = 0%nat) then note v else note_if (negb (prev_phys s es =? last)) v in
  let '(v, s) := foldl check_sl (v, s) (seqZ 0 __fl_count) in
  let '(v, s) := check_fl v s in
  foldl check_list (v, s) (seqZ 0 __list_count).

(** ** What a walk that notes nothing has seen *)

(** The physical blocks from [cur], [prev] before it, up to the end, and the last *)
Inductive physical (s : tlsf) (es : Z) : Z -> Z -> list Z -> Z -> Prop :=
  | ph_end cur prev : es <= cur -> physical s es cur prev [] prev
  | ph_block cur prev l last :
      cur < es -> bsize s cur <> 0 -> Z.land (bsize s cur) (__block_align - 1) = 0 -> cur + bsize s cur <= es ->
      __flags_known (flags s cur) = true -> prev_phys s cur = prev ->
      ~ (flags s cur = __block_free /\ cur + bsize s cur < es /\ flags s (cur + bsize s cur) = __block_free) ->
      physical s es (cur + bsize s cur) cur l last -> physical s es cur prev (cur :: l) last.

(** A free list: inside the region, flagged free, doubly linked *)
Definition free_list (s : tlsf) (i : Z) (l : list Z) : Prop :=
  chain (mem s) 16 (rd (heads s) i) l /\ backs (mem s) 24 0 l /\
  forall b, b ∈ l -> base s + __block_align <= b < base s + __block_align + total s /\ flags s b = __block_free.

Record sound (s : tlsf) : Prop := {
  so_start : sentinel_ok s (base s) = true;
  so_end : sentinel_ok s (base s + __block_align + total s) = true;
  so_blocks : exists l last, physical s (base s + __block_align + total s) (base s + __block_align) (base s) l last /\
    (length l < max_rounds s)%nat /\ prev_phys s (base s + __block_align + total s) = last;
  so_sl fi : 0 <= fi < __fl_count -> rd (sl_bitmap s) fi = want_sl s fi;
  so_fl : fl_bitmap s = want_fl s;
  so_lists i : 0 <= i < __list_count -> exists l, free_list s i l /\ (length l < max_rounds s)%nat
}.

(** ** The physical chain *)

Lemma adjacent_free s es cur :
  (flags s cur =? __block_free) && (next_phys s cur <? es) && (flags s (next_phys s cur) =? __block_free) = false <->
  ~ (flags s cur = __block_free /\ cur + bsize s cur < es /\ flags s (cur + bsize s cur) = __block_free).
Proof.
  unfold next_phys. rewrite <- not_true_iff_false, !andb_true_iff, Z.ltb_lt, !Z.eqb_eq. tauto.
Qed.

(** The checks of one block that stop the walk, and those that do not *)
Definition size_bad (s : tlsf) (es cur : Z) : bool :=
  (bsize s cur =? 0) || negb (Z.land (bsize s cur) (__block_align - 1) =? 0) || (es <? cur + bsize s cur).

Definition block_notes (v : __sweep_ctx) (s : tlsf) (es cur prev : Z) : __sweep_ctx :=
  note_if ((flags s cur =? __block_free) && (next_phys s cur <? es) && (flags s (next_phys s cur) =? __block_free))
    (note_if (negb (prev_phys s cur =? prev)) (note_if (negb (__flags_known (flags s cur))) (saw_walk v 0 1 0))).

Lemma phys_walk_block n v s es cur prev : repair v = false -> cur < es ->
  phys_walk (S n) v s es cur prev =
  if size_bad s es cur then (note (saw_walk v 0 1 0), s, prev, n)
  else phys_walk n (block_notes v s es cur prev) s es (cur + bsize s cur) cur.
Proof.
  intros Hr Hc. cbn [phys_walk]. destruct (Z.ltb_spec cur es); [cbn [negb]|lia]. unfold size_bad.
  destruct ((bsize s cur =? 0) || negb (Z.land (bsize s cur) (__block_align - 1) =? 0)); cbn [orb]; [done|].
  destruct (es <? cur + bsize s cur); [done|]. unfold block_notes. destruct (prev_phys s cur =? prev); cbn [negb note_if]; [done|].
  assert (repair (note_if (negb (__flags_known (flags s cur))) (saw_walk v 0 1 0)) = false) as ->; [|done].
  by destruct (__flags_known _).
Qed.

Definition block_fine (s : tlsf) (es cur prev : Z) : Prop :=
  __flags_known (flags s cur) = true /\ prev_phys s cur = prev /\
  ~ (flags s cur = __block_free /\ cur + bsize s cur < es /\ flags s (cur + bsize s cur) = __block_free).

Lemma block_notes_part v s es cur prev : part v (block_notes v s es cur prev) (block_fine s es cur prev).
Proof.
  unfold block_notes, block_fine. eapply part_iff, part_seen.
  2:{ eapply part_trans; [eapply part_trans|]; apply part_note_if. }
  rewrite adjacent_free, !negb_false_iff, Z.eqb_eq. tauto.
Qed.

Lemma size_bad_false s es cur : size_bad s es cur = false <->
  bsize s cur <> 0 /\ Z.land (bsize s cur) (__block_align - 1) = 0 /\ cur + bsize s cur <= es.
Proof.
  unfold size_bad. rewrite !orb_false_iff, negb_false_iff, Z.eqb_eq, Z.eqb_neq, Z.ltb_ge. tauto.
Qed.

(** [phys_walk] without repairs: what it notes, and where it ends *)
Lemma phys_walk_spec s es n : forall v cur prev v' s' last r, repair v = false ->
  phys_walk n v s es cur prev = (v', s', last, r) ->
  s' = s /\ anomalies v <= anomalies v' /\ repair v' = false /\ repairs v' = repairs v /\
  (anomalies v' = anomalies v -> r <> 0%nat -> exists l, physical s es cur prev l last /\ (length l < n)%nat) /\
  (forall l lst, physical s es cur prev l lst -> (length l < n)%nat -> anomalies v' = anomalies v /\ last = lst /\ r <> 0%nat).
Proof.
  induction n as [|n IH]; intros v cur prev v' s' last r Hr E.
  { cbn in E. injection E as <- <- <- <-. repeat split; try done; lia. }
  destruct (Z.lt_ge_cases cur es) as [Hc|Hc].
  2:{ cbn in E. destruct (Z.ltb_spec cur es); [lia|]. cbn in E. injection E as <- <- <- <-.
      repeat split; try done; try lia.
      - intros _ _. exists []. split; [by constructor|cbn; lia].
      - inversion H0; [done|lia]. }
  rewrite phys_walk_block in E by done. destruct (size_bad s es cur) eqn:Hb.
  { injection E as <- <- <- <-. cbn. repeat split; try done; try lia.
    - inversion H; [lia|]. assert (size_bad s es cur = false) by (by apply size_bad_false). congruence.
    - inversion H; [lia|]. assert (size_bad s es cur = false) by (by apply size_bad_false). congruence.
    - inversion H; [lia|]. assert (size_bad s es cur = false) by (by apply size_bad_false). congruence. }
  destruct (block_notes_part v s es cur prev) as [Pg Pm Pr Pc].
  assert (Hr' : repair (block_notes v s es cur prev) = false) by congruence.
  destruct (IH _ _ _ _ _ _ _ Hr' E) as (-> & Hle & Hm & Hrp & Hto & Hfrom).
  apply size_bad_false in Hb as (Hb1 & Hb2 & Hb3). split; [done|]. split; [lia|]. split; [done|]. split; [congruence|]. split.
  - intros Ea Hr0. destruct (Hto ltac:(lia) Hr0) as (l & Hl & Hn). destruct (proj1 Pc ltac:(lia)) as (F1 & F2 & F3).
    exists (cur :: l). split; [by constructor|cbn; lia].
  - intros l lst Hp Hn. inversion Hp as [|? ? l' ? ? ? ? ? F1 F2 F3 Hl']; subst; [lia|]. cbn in Hn.
    destruct (Hfrom l' lst Hl' ltac:(lia)) as (Ea & -> & Hr0). assert (Ha : block_fine s es cur (prev_phys s cur)) by done.
    apply Pc in Ha. split; [lia|done].
Qed.

Lemma physical_unique s es cur prev l last : physical s es cur prev l last ->
  forall l' last', physical s es cur prev l' last' -> l' = l /\ last' = last.
Proof.
  induction 1 as [cur prev Hc|cur prev l last Hc ? ? ? ? ? ? Hp IH]; intros l' last' H'; inversion H'; subst; try lia; [done|].
  by destruct (IH _ _ ltac:(eassumption)) as [-> ->].
Qed.

(** ** The free lists *)

Definition node_ok (s : tlsf) (lo es b : Z) : Prop := lo <= b < es /\ flags s b = __block_free.

Definition node_notes (v : __sweep_ctx) (s : tlsf) (nd pr : Z) : __sweep_ctx :=
  note_if (negb (prev_free s nd =? pr)) (note_if (negb (flags s nd =? __block_free)) (saw_walk v 0 0 1)).

Lemma tlsf_notes_part v s nd pr : part v (node_notes v s nd pr) (flags s nd = __block_free /\ prev_free s nd = pr).
Proof.
  unfold node_notes. eapply part_iff, part_seen; [|eapply part_trans; apply part_note_if].
  rewrite !negb_false_iff, !Z.eqb_eq. tauto.
Qed.

Lemma list_walk_node n v s i lo es nd pr : repair v = false -> nd <> 0 ->
  list_walk (S n) v s i lo es nd pr =
  if (nd <? lo) || (es <=? nd) then (note (saw_walk v 0 0 1), s, n)
  else list_walk n (node_notes v s nd pr) s i lo es (next_free s nd) nd.
Proof.
  intros Hr Hn. cbn [list_walk]. destruct (Z.eqb_spec nd 0); [done|].
  assert (E : repair (saw_walk v 0 0 1) = false) by done. rewrite E.
  destruct ((nd <? lo) || (es <=? nd)); [done|]. unfold node_notes.
  destruct (prev_free s nd =? pr); cbn [negb note_if]; [done|].
  assert (repair (note_if (negb (flags s nd =? __block_free)) (saw_walk v 0 0 1)) = false) as ->; [|done].
  by destruct (flags s nd =? __block_free).
Qed.

Definition nodes (s : tlsf) (lo es nd pr : Z) (l : list Z) : Prop :=
  chain (mem s) 16 nd l /\ backs (mem s) 24 pr l /\ forall b, b ∈ l -> node_ok s lo es b.

Lemma nodes_cons s lo es nd pr l : nd <> 0 ->
  nodes s lo es nd pr (nd :: l) <->
  lo <= nd < es /\ (flags s nd = __block_free /\ prev_free s nd = pr) /\ nodes s lo es (next_free s nd) nd l.
Proof.
  intros Hn. unfold nodes, chain, node_ok, prev_free, next_free. cbn [lseg backs]. split.
  - intros ((_ & _ & Hc) & (Hp & Hb) & Hok). destruct (Hok nd ltac:(by left)) as [? ?].
    split; [done|]. split; [done|]. split; [done|]. split; [done|]. intros b Hin. apply Hok. by right.
  - intros (Hr & (Hf & Hp) & Hc & Hb & Hok). split; [done|]. split; [done|].
    intros b [->|Hin]%elem_of_cons; [done|by apply Hok].
Qed.

Lemma list_walk_spec s i lo es n : forall v nd pr v' s' r, repair v = false ->
  list_walk n v s i lo es nd pr = (v', s', r) ->
  s' = s /\ anomalies v <= anomalies v' /\ repair v' = false /\ repairs v' = repairs v /\
  (anomalies v' = anomalies v -> r <> 0%nat -> exists l, nodes s lo es nd pr l /\ (length l < n)%nat) /\
  (forall l, nodes s lo es nd pr l -> (length l < n)%nat -> anomalies v' = anomalies v /\ r <> 0%nat).
Proof.
  induction n as [|n IH]; intros v nd pr v' s' r Hr E.
  { cbn in E. injection E as <- <- <-. repeat split; try done; lia. }
  destruct (Z.eq_dec nd 0) as [->|Hn].
  { cbn in E. injection E as <- <- <-. repeat split; try done; try lia.
    intros _ _. exists []. split; [|cbn; lia]. split; [done|]. split; [done|]. by intros b Hb%elem_of_nil. }
  rewrite list_walk_node in E by done.
  assert (Hl : forall l, nodes s lo es nd pr l -> exists l', l = nd :: l').
  { intros l (Hc & _). destruct (chain_cons _ _ _ _ Hc Hn) as (l' & -> & _). by exists l'. }
  destruct ((nd <? lo) || (es <=? nd)) eqn:Hb.
  { injection E as <- <- <-. cbn. split; [done|]. split; [lia|]. split; [done|]. split; [done|].
    split; [lia|]. intros l Hnl _. destruct (Hl l Hnl) as [l' ->]. apply nodes_cons in Hnl as (? & _); [|done].
    revert Hb. rewrite orb_true_iff, Z.ltb_lt, Z.leb_le. lia. }
  destruct (tlsf_notes_part v s nd pr) as [Pg Pm Pr Pc].
  assert (Hr' : repair (node_notes v s nd pr) = false) by congruence.
  destruct (IH _ _ _ _ _ _ Hr' E) as (-> & Hle & Hm & Hrp & Hto & Hfrom).
  apply orb_false_iff in Hb as [Hb1%Z.ltb_ge Hb2%Z.leb_gt].
  split; [done|]. split; [lia|]. split; [done|]. split; [congruence|]. split.
  - intros Ea Hr0. destruct (Hto ltac:(lia) Hr0) as (l & Hnl & Hlen). exists (nd :: l). split; [|cbn; lia].
    apply nodes_cons; [done|]. split; [lia|]. split; [|done]. apply Pc. lia.
  - intros l Hnl Hlen. destruct (Hl l Hnl) as [l' ->]. apply nodes_cons in Hnl as (Hrg & Hnode & Hnl); [|done].
    cbn in Hlen. destruct (Hfrom l' Hnl ltac:(lia)) as [Ea Hr0]. apply Pc in Hnode. split; [lia|done].
Qed.

(** ** The parts together *)

Definition listed (s : tlsf) (i : Z) : Prop := exists l, free_list s i l /\ (length l < max_rounds s)%nat.

Lemma check_list_part v s i : repair v = false ->
  exists v', check_list (v, s) i = (v', s) /\ part v v' (listed s i).
Proof.
  intros Hr. unfold check_list. destruct (list_walk _ _ _ _ _ _ _ _) as [[v1 s1] r] eqn:E.
  destruct (list_walk_spec _ _ _ _ _ _ _ _ _ _ _ Hr E) as (-> & Hle & Hm & Hrp & Hto & Hfrom).
  eexists. split; [done|]. destruct (part_note_if v1 (bool_decide (r = 0%nat))) as [Pg Pm Pr Pc].
  rewrite bool_decide_eq_false in Pc. split; [lia|congruence|congruence|]. split.
  - intros Ea. destruct Hto as (l & Hl & Hn); [lia|apply Pc; lia|]. by exists l.
  - intros (l & Hl & Hn). destruct (Hfrom l Hl Hn) as [Ea Hr0]. apply Pc in Hr0. lia.
Qed.

Lemma check_sl_part v s fi : repair v = false ->
  exists v', check_sl (v, s) fi = (v', s) /\ part v v' (rd (sl_bitmap s) fi = want_sl s fi).
Proof.
  intros Hr. unfold check_sl. destruct (Z.eqb_spec (rd (sl_bitmap s) fi) (want_sl s fi)); cbn [negb].
  - exists v. split; [done|]. eapply part_iff; [|apply part_refl]. done.
  - rewrite Hr. eexists. split; [done|]. by apply part_note.
Qed.

Lemma check_fl_part v s : repair v = false -> exists v', check_fl v s = (v', s) /\ part v v' (fl_bitmap s = want_fl s).
Proof.
  intros Hr. unfold check_fl. destruct (Z.eqb_spec (fl_bitmap s) (want_fl s)); cbn [negb].
  - exists v. split; [done|]. eapply part_iff; [|apply part_refl]. done.
  - rewrite Hr. eexists. split; [done|]. by apply part_note.
Qed.

Lemma phys_part v s : repair v = false -> let es := base s + __block_align + total s in
  let '(v1, s1, last, rounds) := phys_walk (max_rounds s) v s es (base s + __block_align) (base s) in
  s1 = s /\ part v (if bool_decide (rounds = 0%nat) then note v1 else note_if (negb (prev_phys s es =? last)) v1)
    (exists l last, physical s es (base s + __block_align) (base s) l last /\ (length l < max_rounds s)%nat /\ prev_phys s es = last).
Proof.
  intros Hr es. destruct (phys_walk _ _ _ _ _ _) as [[[v1 s1] last] r] eqn:E.
  destruct (phys_walk_spec _ _ _ _ _ _ _ _ _ _ Hr E) as (-> & Hle & Hm & Hrp & Hto & Hfrom). split; [done|].
  destruct (bool_decide_reflect (r = 0%nat)) as [->|Hr0].
  - split; cbn; [lia|congruence|congruence|]. split; [lia|]. intros (l & lst & Hp & Hn & _).
    by destruct (Hfrom l lst Hp Hn) as (_ & _ & ?).
  - destruct (part_note_if v1 (negb (prev_phys s es =? last))) as [Pg Pm Pr Pc].
    rewrite negb_false_iff, Z.eqb_eq in Pc. split; [lia|congruence|congruence|]. split.
    + intros Ea. destruct Hto as (l & Hp & Hn); [lia|done|]. exists l, last. split; [done|]. split; [done|]. apply Pc. lia.
    + intros (l & lst & Hp & Hn & El). destruct (Hfrom l lst Hp Hn) as (Ea & -> & _). apply Pc in El. lia.
Qed.

Lemma tlsf_walk_part v s : repair v = false -> base s <> 0 ->
  exists v', __doctor_walk v s = (v', s) /\ part v v' (sound s).
Proof.
  intros Hr Hb. unfold __doctor_walk. destruct (Z.eqb_spec (base s) 0); [done|].
  set (v0 := note_if _ (note_if _ v)).
  assert (P0 : part v v0 (sentinel_ok s (base s) = true /\ sentinel_ok s (base s + __block_align + total s) = true)).
  { eapply part_iff; [|eapply part_trans; apply part_note_if]. by rewrite !negb_false_iff. }
  assert (Hr0 : repair v0 = false) by (by rewrite (p_mode _ _ _ P0)). pose proof (phys_part v0 s Hr0) as P1. cbn zeta in P1.
  destruct (phys_walk _ _ _ _ _ _) as [[[v1 s1] last] r]. destruct P1 as [-> P1].
  set (v2 := if bool_decide _ then _ else _) in *.
  destruct (part_fold check_sl (fun fi => rd (sl_bitmap s) fi = want_sl s fi) s (seqZ 0 __fl_count) v2) as (v3 & -> & P3);
    [by rewrite (p_mode _ _ _ P1)|intros; by apply check_sl_part|].
  destruct (check_fl_part v3 s) as (v4 & -> & P4); [by rewrite (p_mode _ _ _ P3), (p_mode _ _ _ P1)|].
  destruct (part_fold check_list (listed s) s (seqZ 0 __list_count) v4) as (v5 & -> & P5);
    [by rewrite (p_mode _ _ _ P4), (p_mode _ _ _ P3), (p_mode _ _ _ P1)|intros; by apply check_list_part|].
  exists v5. split; [done|]. eapply part_iff; [|eapply part_trans; [exact P0|eapply part_trans; [exact P1|eapply part_trans; [exact P3|eapply part_trans; [exact P4|exact P5]]]]].
  setoid_rewrite elem_of_seqZ. split.
  - intros ([H1 H2] & H3 & H4 & H5 & H6). split; [done|done|done|intros; apply H4; lia|done|intros; apply H6; lia].
  - intros []. split; [done|]. split; [done|]. split; [intros; apply so_sl0; lia|]. split; [done|]. intros. apply so_lists0. lia.
Qed.

(** ** Well-formed lists are sound *)

(** The bits a loop over [l] sets *)
Lemma testbit_collect (f : Z -> bool) l j : 0 <= j -> (forall i, i ∈ l -> 0 <= i) -> forall w,
  Z.testbit (foldl (fun w i => if f i then bit_set w i else w) w l) j = (Z.testbit w j || existsb (fun i => f i && (i =? j)) l).
Proof.
  intros Hj. induction l as [|i l IH]; intros Hl w; cbn [foldl existsb]; [by rewrite orb_false_r|].
  rewrite IH by (intros; apply Hl; by right). destruct (f i); cbn [andb orb]; [|done].
  rewrite testbit_bit_set by (done || apply Hl; by left). by rewrite orb_assoc.
Qed.

Lemma exists_at (f : Z -> bool) n j : 0 <= j -> existsb (fun i => f i && (i =? j)) (seqZ 0 n) = (j <? n) && f j.
Proof.
  intros Hj. apply eq_true_iff_eq. rewrite existsb_exists, andb_true_iff, Z.ltb_lt. split.
  - intros (i & Hi & Hf). apply list_elem_of_In, elem_of_seqZ in Hi. apply andb_true_iff in Hf as [Hf ->%Z.eqb_eq]. split; [lia|done].
  - intros [Hn Hf]. exists j. split; [apply list_elem_of_In, elem_of_seqZ; lia|]. by rewrite Hf, Z.eqb_refl.
Qed.

Section Sound.
Context (s : tlsf) (B : pblocks) (WF : wf s B).

Local Abbreviation HI := (w_inv _ _ WF).

Lemma sl_beyond fi : 26 <= fi -> rd (sl_bitmap s) fi = 0.
Proof using WF.
  intros Hfi. destruct (i_bits _ _ HI) as [Hs Hb Hf Hfb]. apply zero_of_bits; [apply Hs|]. intros si Hsi.
  destruct (Z.lt_ge_cases si 16) as [H16|H16]; [|by apply (testbit_above _ 16); [apply Hs|]].
  rewrite Hb by lia. destruct (Z.eqb_spec (rd (heads s) (idx fi si)) 0) as [|Hne]; [done|exfalso].
  destruct (tlsf_free_head HI _ Hne) as (z & Hz & Hc & _). destruct (blk_class HI _ _ _ Hz) as (fi' & si' & _ & Hfi' & Hsi' & Hc').
  rewrite Hc in Hc'. apply idx_inj in Hc' as [-> _]; [|lia|lia]. pose proof (fl_count_le HI). lia.
Qed.

Lemma wf_want_sl fi : rd (sl_bitmap s) fi = want_sl s fi.
Proof using WF.
  destruct (i_bits _ _ HI) as [Hs Hb Hf Hfb]. apply Z.bits_inj'. intros j Hj. unfold want_sl.
  rewrite testbit_collect by (done || (intros i Hi%elem_of_seqZ; lia)). rewrite Z.bits_0, exists_at by done. cbn [orb].
  change __sl_count with 16. destruct (Z.ltb_spec j 16); cbn [andb]; [apply Hb; lia|]. by apply (testbit_above _ 16); [apply Hs|].
Qed.

Lemma wf_want_fl : fl_bitmap s = want_fl s.
Proof using WF.
  destruct (i_bits _ _ HI) as [Hs Hb Hf Hfb]. apply Z.bits_inj'. intros j Hj. unfold want_fl.
  rewrite testbit_collect by (done || (intros i Hi%elem_of_seqZ; lia)). rewrite Z.bits_0, exists_at, Hfb by done. cbn [orb].
  change __fl_count with 26. destruct (Z.ltb_spec j 26); cbn [andb]; [done|]. by rewrite sl_beyond.
Qed.

Lemma known_flags k f : tflags k = Some f -> __flags_known f = true.
Proof using. destruct k as [|[]| |]; by intros [= <-]. Qed.

Lemma free_flags k : tflags k = Some __block_free -> k = TFree.
Proof using. by destruct k as [|[]| |]. Qed.

(** From a block on, the blocks are a physical chain. *)
Lemma wf_physical n : forall cur prev, (Z.to_nat (hi s - cur) <= n)%nat ->
  cur = hi s \/ (exists z k, B !! cur = Some (z, k)) -> prev_phys s cur = prev ->
  exists l last, physical s (hi s) cur prev l last /\ 64 * Z.of_nat (length l) <= hi s - cur /\ prev_phys s (hi s) = last.
Proof using WF.
  induction n as [|n IH]; intros cur prev Hn Hcur Hp; (destruct Hcur as [->|(z & k & Hc)];
    [exists [], prev; split; [by constructor|split; [cbn; lia|done]]|]);
    destruct (tlsf_blk_range HI _ _ _ Hc) as (Hlo & Hz & Hd & _ & Hend & _); [lia|].
  pose proof (i_size _ _ HI _ _ _ Hc) as Hs. assert (Hk : k <> THole) by (intros ->; by apply (w_holes _ _ WF cur z)).
  destruct (IH (cur + z) cur) as (l & last & Hph & Hlen & Hlast).
  { lia. } { by apply (pt_next (i_til _ _ HI)) in Hc. } { by apply (i_back _ _ HI _ _ _ Hc). }
  destruct (tflags k) as [f|] eqn:Hf; [|by destruct k as [|[]| |]].
  pose proof (i_flags _ _ HI _ _ _ _ Hc Hf) as Hfl.
  exists (cur :: l), last. split; [|cbn [length]; split; [lia|done]]. rewrite <- Hs in Hph.
  constructor; rewrite ?Hs, ?Hfl; try done; try lia.
  - destruct Hd as [q ->]. change (__block_align - 1) with (2 ^ 5 - 1). rewrite land_mask by lia. by apply Z.mod_mul.
  - by apply (known_flags k).
  - intros (E0 & Hlt & E1). destruct (pt_next (i_til _ _ HI) _ _ _ Hc) as [E|(z' & k' & Hc')]; [lia|].
    assert (k = TFree) as -> by (apply free_flags; congruence).
    assert (k' = TFree) as ->; [|by destruct (w_sep _ _ WF cur z TFree z' TFree Hc Hc')].
    destruct (tflags k') as [f'|] eqn:Hf'; [|by destruct k' as [|[]| |]; try done; destruct (w_holes _ _ WF (cur + z) z')].
    pose proof (i_flags _ _ HI _ _ _ _ Hc' Hf'). apply free_flags. congruence.
  - by rewrite Hs in Hph.
Qed.

Lemma blocks_few : 64 * Z.of_nat (size B) <= total s.
Proof using WF.
  rewrite <- (blocks_total s B HI).
  assert (H : 0 <= msum (fun _ => 64) B <= msum fst B).
  { apply msum_mono. intros i [z k] Hi. destruct (tlsf_blk_range HI _ _ _ Hi) as (_ & ? & _). cbn. lia. }
  assert (E : forall M : pblocks, msum (fun _ => 64) M = 64 * Z.of_nat (size M)); [|rewrite E in H; lia].
  intros M. induction M as [|i x M Hi IHM] using map_ind; [done|]. rewrite msum_insert, map_size_insert_None, IHM by done. lia.
Qed.

Lemma wf_lists i : listed s i.
Proof using WF.
  destruct (i_free _ _ HI i) as (l & Hc & Hnd & Hb & Hl). exists l. split; [split; [done|]; split; [done|]|].
  - intros b Hin. apply Hl in Hin as (z & Hz & _). destruct (tlsf_blk_range HI _ _ _ Hz) as (H1 & H2 & _ & _ & H3 & _).
    unfold lo, hi in *. split; [lia|]. by apply (i_flags _ _ HI b z TFree).
  - assert (Hsub : list_to_set l ⊆ dom B).
    { intros b Hin. apply elem_of_list_to_set, Hl in Hin as (z & Hz & _). by apply elem_of_dom. }
    apply subseteq_size in Hsub. rewrite size_list_to_set, size_dom in Hsub by done. pose proof blocks_few.
    unfold max_rounds. change __min_block with 64. assert (Z.of_nat (length l) <= total s / 64); [|lia].
    apply Z.div_le_lower_bound; lia.
Qed.

Lemma tlsf_wf_sound : sound s.
Proof using WF.
  split.
  - unfold sentinel_ok. rewrite (i_ssize _ _ HI), (i_ss _ _ HI). done.
  - unfold sentinel_ok. fold (hi s). rewrite (i_esize _ _ HI), (i_es _ _ HI). done.
  - fold (lo s) (hi s). destruct (wf_physical (Z.to_nat (hi s - lo s)) (lo s) (base s)) as (l & last & Hp & Hl & He); [done| |apply (i_first _ _ HI)|].
    + destruct (i_geo _ _ HI). unfold lo, hi in *. destruct (pt_cover _ _ _ (i_til _ _ HI) (lo s)) as (a & z & k & Ha & Hr); [unfold lo, hi; lia|].
      destruct (tlsf_blk_range HI _ _ _ Ha) as (? & _). right. exists z, k. by replace (base s + __block_align) with a by (unfold lo in *; lia).
    + exists l, last. split; [done|]. split; [|done]. unfold max_rounds. change __min_block with 64.
      assert (Z.of_nat (length l) <= total s / 64); [|lia]. apply Z.div_le_lower_bound; [lia|]. unfold lo, hi in Hl. lia.
  - intros fi _. apply wf_want_sl.
  - apply wf_want_fl.
  - intros i _. apply wf_lists.
Qed.
End Sound.

(** C38. The walk of the doctor, reporting only, changes nothing and notes nothing
    exactly when the list is [sound]; a list that came about by its operations
    is. *)
Theorem tlsf_walk_exact v s : repair v = false -> base s <> 0 ->
  exists v', __doctor_walk v s = (v', s) /\ repairs v' = repairs v /\
    (anomalies v' = anomalies v <-> sound s) /\ (forall L, reach s L -> anomalies v' = anomalies v).
Proof.
  intros Hr Hb. destruct (tlsf_walk_part v s Hr Hb) as (v' & E & [_ _ Hrep Hc]). exists v'.
  split; [done|]. split; [done|]. split; [done|]. intros L HR. destruct (reach_wf s L HR) as (B & HW & _).
  apply Hc. by apply (tlsf_wf_sound s B).
Qed.

Lemma tlsf_walk_exact_witness : exists v', __doctor_walk sweep_init tdemo2 = (v', tdemo2) /\ anomalies v' = 0.
Proof.
  destruct (tlsf_walk_exact sweep_init tdemo2) as (v' & E & _ & _ & H); [reflexivity|vm_compute; discriminate|].
  exists v'. split; [exact E|]. apply (H tclaims2), tdemo2_reach.
Defined.
