(* ===== verification/BuddyWalk.v ===== *)
(** * The doctor's walk over a buddy list (src/src/free_list.hpp, lines 905-1016)

    [__doctor_walk] looks over the tags with the headers they stand for, the
    mask and the free lists, and notes what is wrong.  It notes nothing exactly
    when the list is [sound], which every reachable list is. *)

From S2P Require Import Prelude.
From S2P Require Import Intrusive.
From S2P Require Import Config.
From S2P Require Import Tiling.
From S2P Require Import Buddy.
From S2P Require Import BuddyInv.
From S2P Require Import BuddyOps.
From S2P Require Import BuddyWf.
From S2P Require Import BuddyReach.
From S2P Require Import BuddySpec.
From S2P Require Import BuddyProps.
From S2P Require Import Doctor.
From S2P Require Import Walk.

Section BuddyWalk.
Context (Min : Z).

(** ** The walk *)

(** The tail header of an allocated block, checked against its tag *)
Definition check_header (v : __sweep_ctx) (s : buddy) (h o : Z) : __sweep_ctx * buddy :=
  let '(v, s) :=
    if negb (hdr_order s h =? o) then
      if repair v then (did_repair (note v), set_mem s (wr (mem s) (h + 0) o)) else (note v, s)
    else (v, s) in
  let f := hdr_flags s h in
  let flags_alloc := (f =? __block_alloc) || (f =? Z.lor __block_alloc __block_temporal) || (f =? __block_tombstone) in
  if negb flags_alloc then
    if repair v then (did_repair (note v), set_mem s (wr (mem s) (h + 4) (Z.lor __block_alloc (Z.land f __block_temporal))))
    else (note v, s)
  else (v, s).

(** The loop over the tags, [n] the rounds left *)
Fixpoint tag_walk (n : nat) (v : __sweep_ctx) (s : buddy) (idx : Z) : __sweep_ctx * buddy * nat :=
  match n with
  | O => (v, s, O)
  | S n =>
      if negb (idx <? tag_count s) then (v, s, S n) else
      let tag := rd (block_tags s) idx in
      if tag =? __tag_none then tag_walk n v s (idx + 1) else
      let o := Z.ldiff tag __tag_free in
      let blk := base s + Z.shiftl idx (__log2_min Min) in
      let v := saw_walk v 0 1 0 in
      if (o <? 0) || (max_order s <=? o) then tag_walk n (note v) s (idx + 1) else
      let osz := order_size Min o in
      if total s <? u64 (u64 (blk - base s) + osz) then (note v, s, n) else
      let v := note_if (negb (Z.land (u64 (blk - base s)) (osz - 1) =? 0)) v in
      let tag_free := negb (Z.land tag __tag_free =? 0) in
      let '(v, s) := if negb tag_free then check_header v s (hdr_of Min blk o) o else (v, s) in
      tag_walk n v s (idx + Z.shiftr osz (__log2_min Min))
  end.

(** The loop along the free list of order [o] *)
Fixpoint free_walk (n : nat) (v : __sweep_ctx) (s : buddy) (o nd pr : Z) : __sweep_ctx * buddy * nat :=
  match n with
  | O => (v, s, O)
  | S n =>
      if nd =? 0 then (v, s, S n) else
      let v := saw_walk v 0 0 1 in
      if negb (__link_valid Min s nd) then
        if repair v then
          let s := if negb (pr =? 0) then set_next s pr 0 else set_free_lists s (wr (free_lists s) o 0) in
          (did_repair (note v), mask_clear_if_empty s o, n)
        else (note v, s, n)
      else
      let v := note_if (negb (tag_is_free_at Min s nd o)) v in
      let '(v, s) :=
        if negb (pr =? 0) && negb (prev s nd =? pr) then
          if repair v then (did_repair (note v), set_prev s nd pr) else (note v, s)
        else (v, s) in
      if negb (next s nd =? 0) && negb (__link_valid Min s (next s nd)) then
        if repair v then (did_repair (note v), set_next s nd 0, n) else (note v, s, n)
      else free_walk n v s o (next s nd) nd
  end.

Definition max_rounds (s : buddy) : nat := Z.to_nat (tag_count s + 4).

Definition mask_bit (s : buddy) (o : Z) : bool := negb (Z.land (Z.shiftr (free_mask s) o) 1 =? 0).
Definition has_free (s : buddy) (o : Z) : bool := negb (rd (free_lists s) o =? 0).

Definition check_order (vs : __sweep_ctx * buddy) (o : Z) : __sweep_ctx * buddy :=
  let '(v, s) := vs in
  let '(v, s) :=
    if negb (Bool.eqb (has_free s o) (mask_bit s o)) then
      if repair v then
        (did_repair (note v), set_mask s (if has_free s o then bit_set (free_mask s) o else bit_clr (free_mask s) o))
      else (note v, s)
    else (v, s) in
  let '(v, s, rounds) := free_walk (max_rounds s) v s o (rd (free_lists s) o) 0 in
  (note_if (bool_decide (rounds = 0%nat)) v, s).

Definition __doctor_walk (v : __sweep_ctx) (s : buddy) : __sweep_ctx * buddy :=
  if (base s =? 0) || (block_tags_at s =? 0) then (v, s) else
  let '(v, s, rounds) := tag_walk (max_rounds s) v s 0 in
  let v := note_if (bool_decide (rounds = 0%nat)) v in
  foldl check_order (v, s) (seqZ 0 (max_order s)).

(** ** What a walk that notes nothing has seen *)

Definition header_ok (s : buddy) (h o : Z) : bool :=
  (hdr_order s h =? o) &&
  ((hdr_flags s h =? __block_alloc) || (hdr_flags s h =? Z.lor __block_alloc __block_temporal) || (hdr_flags s h =? __block_tombstone)).

(** The tag at [idx] starts a block that fits. *)
Definition tag_fits (s : buddy) (idx : Z) : bool :=
  let o := Z.ldiff (rd (block_tags s) idx) __tag_free in
  let off := u64 (base s + Z.shiftl idx (__log2_min Min) - base s) in
  (0 <=? o) && (o <? max_order s) && (u64 (off + order_size Min o) <=? total s).

(** And is aligned, with the header of an allocated block in order *)
Definition tag_fine (s : buddy) (idx : Z) : bool :=
  let tag := rd (block_tags s) idx in
  let o := Z.ldiff tag __tag_free in
  let blk := base s + Z.shiftl idx (__log2_min Min) in
  (Z.land (u64 (blk - base s)) (order_size Min o - 1) =? 0) &&
  (negb (Z.land tag __tag_free =? 0) || header_ok s (hdr_of Min blk o) o).

Definition tag_step (s : buddy) (idx : Z) : Z :=
  idx + Z.shiftr (order_size Min (Z.ldiff (rd (block_tags s) idx) __tag_free)) (__log2_min Min).

(** From [idx] the tags read as blocks, in [n] rounds. *)
Inductive tagged (s : buddy) : Z -> nat -> Prop :=
  | tg_end idx : tag_count s <= idx -> tagged s idx 0
  | tg_none idx n : idx < tag_count s -> rd (block_tags s) idx = __tag_none -> tagged s (idx + 1) n -> tagged s idx (S n)
  | tg_block idx n : idx < tag_count s -> rd (block_tags s) idx <> __tag_none -> tag_fits s idx = true -> tag_fine s idx = true ->
      tagged s (tag_step s idx) n -> tagged s idx (S n).

(** A node of a free list after [pr], which is null at the head *)
Definition node_fine (s : buddy) (o nd pr : Z) : Prop :=
  tag_is_free_at Min s nd o = true /\ (pr <> 0 -> prev s nd = pr).

Inductive freed (s : buddy) (o : Z) : Z -> Z -> nat -> Prop :=
  | fr_end pr : freed s o 0 pr 0
  | fr_node nd pr n : nd <> 0 -> __link_valid Min s nd = true -> node_fine s o nd pr ->
      freed s o (next s nd) nd n -> freed s o nd pr (S n).

Record sound (s : buddy) : Prop := {
  so_tags : exists n, tagged s 0 n /\ (n < max_rounds s)%nat;
  so_mask o : 0 <= o < max_order s -> has_free s o = mask_bit s o;
  so_free o : 0 <= o < max_order s -> exists n, freed s o (rd (free_lists s) o) 0 n /\ (n < max_rounds s)%nat
}.

(** ** The tags *)

Lemma note_if_repair b v : repair (note_if b v) = repair v.
Proof using. by destruct b. Qed.

Lemma check_header_part v s h o : repair v = false ->
  exists v', check_header v s h o = (v', s) /\ part v v' (header_ok s h o = true).
Proof using.
  intros Hr. unfold check_header, header_ok.
  set (fl := (hdr_flags s h =? __block_alloc) || (hdr_flags s h =? Z.lor __block_alloc __block_temporal) || (hdr_flags s h =? __block_tombstone)).
  exists (note_if (negb fl) (note_if (negb (hdr_order s h =? o)) v)). split.
  - destruct (hdr_order s h =? o); cbn [negb note_if]; [|rewrite Hr]; fold fl; destruct fl; cbn [negb note_if]; try done;
      cbn [repair note]; by rewrite Hr.
  - eapply part_iff; [|eapply part_trans; apply part_note_if]. by rewrite !negb_false_iff, andb_true_iff.
Qed.

(** The notes on a block that fits *)
Lemma tag_block_part v s idx : repair v = false ->
  let tag := rd (block_tags s) idx in
  let o := Z.ldiff tag __tag_free in
  let blk := base s + Z.shiftl idx (__log2_min Min) in
  let v1 := note_if (negb (Z.land (u64 (blk - base s)) (order_size Min o - 1) =? 0)) (saw_walk v 0 1 0) in
  exists v', (if negb (negb (Z.land tag __tag_free =? 0)) then check_header v1 s (hdr_of Min blk o) o else (v1, s)) = (v', s) /\
    part v v' (tag_fine s idx = true).
Proof using.
  intros Hr tag o blk v1. assert (Hr1 : repair v1 = false) by (unfold v1; by rewrite note_if_repair).
  assert (P1 : part v v1 (Z.land (u64 (blk - base s)) (order_size Min o - 1) =? 0 = true)).
  { eapply part_seen. eapply part_iff; [|apply part_note_if]. by rewrite negb_false_iff. }
  unfold tag_fine. fold tag o blk. destruct (Z.land tag __tag_free =? 0) eqn:Et; cbn [negb orb].
  - destruct (check_header_part v1 s (hdr_of Min blk o) o Hr1) as (v' & -> & P2). exists v'. split; [done|].
    eapply part_iff; [|by eapply part_trans]. by rewrite andb_true_iff.
  - exists v1. split; [done|]. by rewrite andb_true_r.
Qed.

Lemma tag_walk_spec s n : forall v idx v' s' r, repair v = false -> tag_walk n v s idx = (v', s', r) ->
  s' = s /\ anomalies v <= anomalies v' /\ repair v' = false /\ repairs v' = repairs v /\
  (anomalies v' = anomalies v -> r <> 0%nat -> exists k, tagged s idx k /\ (k < n)%nat) /\
  (forall k, tagged s idx k -> (k < n)%nat -> anomalies v' = anomalies v /\ r <> 0%nat).
Proof using.
  induction n as [|n IH]; intros v idx v' s' r Hr E; cbn [tag_walk] in E.
  { injection E as <- <- <-. repeat split; try done; lia. }
  destruct (Z.ltb_spec idx (tag_count s)) as [Hi|Hi]; cbn [negb] in E.
  2:{ injection E as <- <- <-. repeat split; try done; try lia.
      intros _ _. exists 0%nat. split; [by constructor|lia]. }
  destruct (Z.eqb_spec (rd (block_tags s) idx) __tag_none) as [Ht|Ht].
  { destruct (IH _ _ _ _ _ Hr E) as (-> & Hle & Hm & Hrp & Hto & Hfrom). repeat split; try done.
    - intros Ea Hr0. destruct (Hto Ea Hr0) as (k & Hk & Hn). exists (S k). split; [by constructor|lia].
    - inversion H; subst; [lia| |done]. apply (Hfrom n0); [done|lia].
    - inversion H; subst; [lia| |done]. apply (Hfrom n0); [done|lia]. }
  set (tag := rd (block_tags s) idx) in *. set (o := Z.ldiff tag __tag_free) in *. 
  assert (Hfits : tag_fits s idx = negb ((o <? 0) || (max_order s <=? o))
     && negb (total s <? u64 (u64 (base s + Z.shiftl idx (__log2_min Min) - base s) + order_size Min o))).
  { unfold tag_fits. fold tag o. apply eq_true_iff_eq.
    rewrite !andb_true_iff, !negb_true_iff, orb_false_iff, !Z.leb_le, Z.ltb_lt, !Z.ltb_ge, Z.leb_gt. tauto. }
  destruct ((o <? 0) || (max_order s <=? o)); cbn [negb andb] in Hfits.
  { destruct (IH _ _ _ _ _ (Hr : repair (note (saw_walk v 0 1 0)) = false) E) as (-> & Hle & Hm & Hrp & Hto & Hfrom).
    cbn in Hle, Hrp. repeat split; try done; try lia; inversion H; subst; try lia; try done; congruence. }
  destruct (total s <? _); cbn [negb] in Hfits.
  { injection E as <- <- <-. cbn. repeat split; try done; try lia; inversion H; subst; try lia; try done; congruence. }
  destruct (tag_block_part v s idx Hr) as (v1 & E1 & [Pg Pm Pr Pc]). fold tag o in E1. rewrite E1 in E.
  assert (Hr1 : repair v1 = false) by congruence.
  destruct (IH _ _ _ _ _ Hr1 E) as (-> & Hle & Hm & Hrp & Hto & Hfrom).
  split; [done|]. split; [lia|]. split; [done|]. split; [congruence|]. split.
  - intros Ea Hr0. destruct (Hto ltac:(lia) Hr0) as (k & Hk & Hn). exists (S k). split; [|lia].
    apply tg_block; try done. apply Pc. lia.
  - intros k Hk Hn. inversion Hk; subst; [lia|done|]. destruct (Hfrom n0) as [Ea Hr0]; [done|lia|].
    assert (anomalies v1 = anomalies v) by (by apply Pc). split; [lia|done].
Qed.

(** ** The free lists *)

Definition node_notes (v : __sweep_ctx) (s : buddy) (o nd pr : Z) : __sweep_ctx :=
  note_if (negb (pr =? 0) && negb (prev s nd =? pr)) (note_if (negb (tag_is_free_at Min s nd o)) (saw_walk v 0 0 1)).

Lemma buddy_notes_part v s o nd pr : part v (node_notes v s o nd pr) (node_fine s o nd pr).
Proof using.
  unfold node_notes, node_fine. eapply part_seen. eapply part_iff; [|eapply part_trans; apply part_note_if].
  rewrite negb_false_iff, andb_false_iff, !negb_false_iff, !Z.eqb_eq. split; [intros [? [|]]; tauto|].
  intros [? Hp]. split; [done|]. destruct (Z.eq_dec pr 0); tauto.
Qed.

Lemma free_walk_node n v s o nd pr : repair v = false -> nd <> 0 ->
  free_walk (S n) v s o nd pr =
  if negb (__link_valid Min s nd) then (note (saw_walk v 0 0 1), s, n) else
  if negb (next s nd =? 0) && negb (__link_valid Min s (next s nd)) then (note (node_notes v s o nd pr), s, n)
  else free_walk n (node_notes v s o nd pr) s o (next s nd) nd.
Proof using.
  intros Hr Hn. cbn [free_walk]. destruct (Z.eqb_spec nd 0); [done|].
  assert (E : repair (saw_walk v 0 0 1) = false) by done. rewrite E.
  destruct (__link_valid Min s nd); cbn [negb]; [|done]. unfold node_notes.
  assert (E2 : repair (note_if (negb (tag_is_free_at Min s nd o)) (saw_walk v 0 0 1)) = false) by (by rewrite note_if_repair).
  destruct (negb (pr =? 0) && negb (prev s nd =? pr)); cbn [note_if]; rewrite ?E2; cbn [repair note]; rewrite ?E2; done.
Qed.

(** A node whose next link is bad is not at the end of anything. *)
Lemma freed_next s o nd pr k : freed s o nd pr k -> nd <> 0 ->
  exists n, k = S n /\ __link_valid Min s nd = true /\ node_fine s o nd pr /\
    (negb (next s nd =? 0) && negb (__link_valid Min s (next s nd)) = false) /\ freed s o (next s nd) nd n.
Proof using.
  intros H Hn. inversion H as [|? ? n ? Hv Hf Hrest]; subst; [done|]. exists n. split_and!; try done.
  destruct (Z.eqb_spec (next s nd) 0) as [|Hnx]; [done|]. cbn [negb andb].
  inversion Hrest as [? E|? ? ? ? Hv' ? ? E]; subst; [congruence|]. by rewrite Hv'.
Qed.

Lemma free_walk_spec s o n : forall v nd pr v' s' r, repair v = false -> free_walk n v s o nd pr = (v', s', r) ->
  s' = s /\ anomalies v <= anomalies v' /\ repair v' = false /\ repairs v' = repairs v /\
  (anomalies v' = anomalies v -> r <> 0%nat -> exists k, freed s o nd pr k /\ (k < n)%nat) /\
  (forall k, freed s o nd pr k -> (k < n)%nat -> anomalies v' = anomalies v /\ r <> 0%nat).
Proof using.
  induction n as [|n IH]; intros v nd pr v' s' r Hr E.
  { cbn in E. injection E as <- <- <-. repeat split; try done; lia. }
  destruct (Z.eq_dec nd 0) as [->|Hn].
  { cbn in E. injection E as <- <- <-. repeat split; try done; try lia.
    intros _ _. exists 0%nat. split; [constructor|lia]. }
  rewrite free_walk_node in E by done. destruct (__link_valid Min s nd) eqn:Hv; cbn [negb] in E.
  2:{ injection E as <- <- <-. cbn. split_and!; try done; try lia.
      intros k Hk _. destruct (freed_next _ _ _ _ _ Hk Hn) as (? & _ & ? & _). congruence. }
  destruct (buddy_notes_part v s o nd pr) as [Pg Pm Pr Pc].
  assert (Hr1 : repair (node_notes v s o nd pr) = false) by congruence.
  destruct (negb (next s nd =? 0) && _) eqn:Hx.
  { injection E as <- <- <-. cbn. split_and!; try done; try lia.
    intros k Hk _. destruct (freed_next _ _ _ _ _ Hk Hn) as (? & _ & _ & _ & ? & _). congruence. }
  destruct (IH _ _ _ _ _ _ Hr1 E) as (-> & Hle & Hm & Hrp & Hto & Hfrom).
  split_and!; try done; try lia; try congruence.
  - intros Ea Hr0. destruct (Hto ltac:(lia) Hr0) as (k & Hk & Hlt). exists (S k). split; [|lia].
    constructor; try done. apply Pc. lia.
  - intros k Hk Hlt. destruct (freed_next _ _ _ _ _ Hk Hn) as (k' & -> & _ & Hf & _ & Hk').
    destruct (Hfrom k' Hk' ltac:(lia)) as [Ea Hr0]. apply Pc in Hf. split; [lia|done].
Qed.

(** ** The parts together *)

Definition order_ok (s : buddy) (o : Z) : Prop :=
  has_free s o = mask_bit s o /\ exists n, freed s o (rd (free_lists s) o) 0 n /\ (n < max_rounds s)%nat.

Lemma check_order_part v s o : repair v = false -> exists v', check_order (v, s) o = (v', s) /\ part v v' (order_ok s o).
Proof using.
  intros Hr. unfold check_order.
  set (v1 := note_if (negb (Bool.eqb (has_free s o) (mask_bit s o))) v).
  assert (Hr1 : repair v1 = false) by (unfold v1; by rewrite note_if_repair).
  assert (P1 : part v v1 (has_free s o = mask_bit s o)).
  { eapply part_iff; [|apply part_note_if]. by rewrite negb_false_iff, eqb_true_iff. }
  assert ((if negb (Bool.eqb (has_free s o) (mask_bit s o)) then if repair v then
       (did_repair (note v), set_mask s (if has_free s o then bit_set (free_mask s) o else bit_clr (free_mask s) o))
     else (note v, s) else (v, s)) = (v1, s)) as ->.
  { unfold v1. rewrite Hr. by destruct (negb _). }
  destruct (free_walk _ _ _ _ _ _) as [[v2 s2] r] eqn:E.
  destruct (free_walk_spec _ _ _ _ _ _ _ _ _ Hr1 E) as (-> & Hle & Hm & Hrp & Hto & Hfrom).
  eexists. split; [done|]. destruct P1 as [Pg Pm Pr Pc], (part_note_if v2 (bool_decide (r = 0%nat))) as [Qg Qm Qr Qc].
  rewrite bool_decide_eq_false in Qc. split; [lia|congruence|congruence|]. split.
  - intros Ea. split; [apply Pc; lia|]. apply Hto; [lia|]. apply Qc. lia.
  - intros (Hmk & k & Hk & Hlt). destruct (Hfrom k Hk Hlt) as [Ea Hr0]. apply Qc in Hr0. apply Pc in Hmk. lia.
Qed.

Lemma buddy_walk_part v s : repair v = false -> base s <> 0 -> block_tags_at s <> 0 ->
  exists v', __doctor_walk v s = (v', s) /\ part v v' (sound s).
Proof using.
  intros Hr Hb Ht. unfold __doctor_walk. destruct (Z.eqb_spec (base s) 0); [done|]. destruct (Z.eqb_spec (block_tags_at s) 0); [done|].
  cbn [orb]. destruct (tag_walk _ _ _ _) as [[v1 s1] r] eqn:E.
  destruct (tag_walk_spec _ _ _ _ _ _ _ Hr E) as (-> & Hle & Hm & Hrp & Hto & Hfrom).
  destruct (part_note_if v1 (bool_decide (r = 0%nat))) as [Qg Qm Qr Qc]. rewrite bool_decide_eq_false in Qc.
  assert (P1 : part v (note_if (bool_decide (r = 0%nat)) v1) (exists n, tagged s 0 n /\ (n < max_rounds s)%nat)).
  { split; [lia|congruence|congruence|]. split.
    - intros Ea. apply Hto; [lia|]. apply Qc. lia.
    - intros (k & Hk & Hlt). destruct (Hfrom k Hk Hlt) as [Ea Hr0]. apply Qc in Hr0. lia. }
  destruct (part_fold check_order (order_ok s) s (seqZ 0 (max_order s)) (note_if (bool_decide (r = 0%nat)) v1)) as (v2 & -> & P2).
  { by rewrite note_if_repair. } { intros. by apply check_order_part. }
  exists v2. split; [done|]. eapply part_iff; [|eapply part_trans; [exact P1|exact P2]].
  setoid_rewrite elem_of_seqZ. split.
  - intros [H1 H2]. split; [done| |]; intros o Ho; apply H2; lia.
  - intros []. split; [done|]. intros o Ho. split; [apply so_mask0|apply so_free0]; lia.
Qed.
End BuddyWalk.

(** ** Well-formed lists are sound *)

Section Sound.
Context (Min : Z) {HM : BuddyMin Min} (s : buddy) (B : blocks) (WF : wf Min s B).

Local Abbreviation HI := (w_inv _ _ _ WF).
Local Abbreviation at_ := (at_ Min (base s)).

Lemma unit_address i : base s + Z.shiftl i (__log2_min Min) = at_ i.
Proof using HM.
  unfold BuddyInv.at_. rewrite (log2_min_eq Min). pose proof (lg_range (Min := Min)).
  by rewrite Z.shiftl_mul_pow2, <- (Min_eq (Min := Min)) by lia.
Qed.

(** The tag of a block that is neither cached nor in transit *)
Lemma visible_tag i o k : B !! i = Some (o, k) -> k <> BCached ->
  Z.ldiff (rd (block_tags s) i) __tag_free = o /\ rd (block_tags s) i <> __tag_none /\
  (k = BFree -> Z.land (rd (block_tags s) i) __tag_free <> 0).
Proof using HM WF.
  intros Hi Hk. destruct (blk_range Min HI _ _ _ Hi) as (? & Ho & _ & ? & ?). pose proof (geo_units Min HI) as (_ & _ & Hmo & _).
  pose proof (i_tags _ _ _ HI i ltac:(lia)) as Ht. rewrite Hi in Ht.
  destruct k as [|t| | |]; cbn in Ht; try done.
  - rewrite Ht, ldiff_tag_free by lia. split; [done|]. split; [unfold __tag_free, __tag_none; lia|]. intros _ E.
    assert (Hb : Z.testbit (Z.land (o + __tag_free) __tag_free) 7 = false) by (by rewrite E).
    rewrite <- lor_tag, Z.land_spec, Z.lor_spec in Hb by lia. change (Z.testbit __tag_free 7) with true in Hb.
    by rewrite orb_true_r in Hb.
  - rewrite Ht, ldiff_tag by lia. split; [done|]. split; [unfold __tag_none; lia|done].
  - rewrite Ht, ldiff_tag by lia. split; [done|]. split; [unfold __tag_none; lia|done].
  - by destruct (w_holes _ _ _ WF i o).
Qed.

Lemma wf_header i o k : B !! i = Some (o, k) -> live k = true -> header_ok s (hdr_of Min (at_ i) o) o = true.
Proof using HM WF.
  intros Hi Hk. destruct (kind_flags k) as [f|] eqn:Ef; [|by destruct k as [|[]| | |]].
  destruct (i_hdr _ _ _ HI i o k f Hi Ef) as [Ho Hf]. unfold header_ok. rewrite Ho, Hf, Z.eqb_refl.
  destruct k as [|[]| | |]; try done; by injection Ef as <-.
Qed.

Lemma wf_tag_block i o k : B !! i = Some (o, k) -> k <> BCached ->
  tag_fits Min s i = true /\ tag_fine Min s i = true /\ tag_step Min s i = i + 2 ^ o.
Proof using HM WF.
  intros Hi Hk. destruct (visible_tag i o k Hi Hk) as (Et & _ & Hfr).
  destruct (blk_range Min HI _ _ _ Hi) as (Hi0 & Ho & Hd & Hp & Hend). pose proof (geo_units Min HI) as (Hc & _ & Hmo & Htot).
  pose proof (Min_range Min) as HMr. pose proof (order_size_eq Min HI o Ho) as Eos.
  assert (Eoff : u64 (at_ i - base s) = i * Min) by (apply (u64_at Min HI); lia).
  pose proof (g_end _ _ (i_geo _ _ _ HI)). pose proof (g_base _ _ (i_geo _ _ _ HI)).
  assert (Hle : i * Min + Min * 2 ^ o <= total s) by nia.
  unfold tag_fits, tag_fine, tag_step. rewrite Et, unit_address, Eoff, Eos. split_and!.
  - rewrite u64_small by nia. rewrite !andb_true_iff, Z.leb_le, Z.ltb_lt, Z.leb_le. lia.
  - apply andb_true_iff. split.
    + apply Z.eqb_eq. pose proof (lg_range (Min := Min)). rewrite (Min_eq (Min := Min)), <- Z.pow_add_r, land_mask by lia.
      rewrite Z.pow_add_r by lia. destruct Hd as [q ->]. replace (q * 2 ^ o * 2 ^ lg Min) with (q * (2 ^ lg Min * 2 ^ o)) by lia.
      apply Z.mod_mul. lia.
    + assert (Hh : live k = true -> header_ok s (hdr_of Min (at_ i) o) o = true) by (by apply (wf_header i o k)).
      destruct k as [|t| | |]; [|by rewrite Hh, orb_true_r by done|by rewrite Hh, orb_true_r by done|done|by destruct (w_holes _ _ _ WF i o)].
      destruct (Z.eqb_spec (Z.land (rd (block_tags s) i) __tag_free) 0); [by destruct Hfr|done].
  - f_equal. rewrite Z.mul_comm. apply (shiftr_min Min).
Qed.

Lemma wf_tagged n : forall i, 0 <= i -> (Z.to_nat (tag_count s - i) <= n)%nat ->
  exists k, tagged Min s i k /\ Z.of_nat k <= Z.max 0 (tag_count s - i).
Proof using HM WF.
  induction n as [|n IH]; intros i H0 Hn; (destruct (Z.le_gt_cases (tag_count s) i) as [Hi|Hi];
    [exists 0%nat; split; [by constructor|lia]|]); [lia|].
  pose proof (i_tags _ _ _ HI i ltac:(lia)) as Ht.
  assert (Hskip : rd (block_tags s) i = __tag_none -> exists k, tagged Min s i k /\ Z.of_nat k <= Z.max 0 (tag_count s - i)).
  { intros E. destruct (IH (i + 1)) as (k & Hk & Hl); [lia|lia|]. exists (S k). split; [by apply tg_none|lia]. }
  destruct (B !! i) as [[o k]|] eqn:EB; [|by apply Hskip].
  destruct (decide (k = BCached)) as [->|Hk]; [by apply Hskip|].
  destruct (blk_range Min HI _ _ _ EB) as (_ & _ & _ & Hp & _). destruct (wf_tag_block i o k EB Hk) as (Hf & Hfi & Hs).
  destruct (IH (i + 2 ^ o)) as (m & Hm & Hl); [lia|lia|]. exists (S m). split; [|lia].
  apply tg_block; [done|by apply (visible_tag i o k)|done|done|]. by rewrite Hs.
Qed.

Lemma mask_bit_testbit o : 0 <= o -> mask_bit s o = Z.testbit (free_mask s) o.
Proof using.
  intros Ho. unfold mask_bit. change 1 with (2 ^ 1 - 1). rewrite land_mask by lia. change (2 ^ 1) with 2.
  rewrite Z.testbit_odd, Zmod_odd. by destruct (Z.odd _).
Qed.

Lemma wf_freed o : 0 <= o < max_order s -> forall l nd pr,
  chain (mem s) 0 nd l -> (pr <> 0 -> backs (mem s) 8 pr l) -> hbacks (mem s) l ->
  (forall a, a ∈ l -> is_at Min (base s) B o BFree a) -> freed Min s o nd pr (length l).
Proof using HM WF.
  intros Ho. induction l as [|a l IH]; intros nd pr Hc Hb Hh Hl; [cbn in Hc; subst; constructor|].
  destruct Hc as (-> & Hne & Hc). cbn in Hh. destruct (Hl a ltac:(by left)) as (i & -> & Hi).
  destruct (blk_range Min HI _ _ _ Hi) as (Hi0 & _ & _ & Hp & Hend). cbn [length]. constructor; [done| | |].
  - apply (link_valid_at Min HI). lia.
  - split; [|intros Hpr; destruct (Hb Hpr) as [? _]; done].
    unfold tag_is_free_at, tag_is_free_at_off. rewrite (u64_at Min HI), (shiftr_min Min) by lia.
    pose proof (i_tags _ _ _ HI i ltac:(lia)) as Ht. rewrite Hi in Ht. cbn in Ht. rewrite Ht.
    pose proof (geo_units Min HI) as (_ & _ & Hmo & _). rewrite u8_tag by lia. apply Z.eqb_refl.
  - apply IH; [done|done| |intros a Ha; apply Hl; by right]. destruct l as [|b l]; [done|]. by destruct Hh.
Qed.

Lemma buddy_wf_sound : sound Min s.
Proof using HM WF.
  pose proof (geo_units Min HI) as (Htc & _ & _ & _). split.
  - destruct (wf_tagged (Z.to_nat (tag_count s - 0)) 0) as (k & Hk & Hl); [lia|lia|]. exists k. split; [done|].
    unfold max_rounds. lia.
  - intros o Ho. rewrite mask_bit_testbit, (i_mask _ _ _ HI) by lia. unfold has_free. by destruct (Z.ltb_spec o (max_order s)); [|lia].
  - intros o Ho. destruct (i_free _ _ _ HI o Ho) as (l & Hc & Hnd & Hh & Hl). exists (length l). split.
    + apply wf_freed; try done. intros a Ha. by apply Hl.
    + assert (Hsub : l ⊆+ map at_ (seqZ 0 (tag_count s))).
      { apply NoDup_submseteq; [done|]. intros a (i & -> & Hi)%Hl. destruct (blk_range Min HI _ _ _ Hi) as (? & _ & _ & ? & ?).
        apply list_elem_of_In, in_map, list_elem_of_In, elem_of_seqZ. lia. }
      apply submseteq_length in Hsub. rewrite length_map, length_seqZ in Hsub. unfold max_rounds. lia.
Qed.
End Sound.

(** C39. The walk of the doctor, reporting only, changes nothing and notes nothing
    exactly when the list is [sound]; a list that came about by its operations
    is. *)
Theorem buddy_walk_exact Min `{BuddyMin Min} v s : repair v = false -> base s <> 0 -> block_tags_at s <> 0 ->
  exists v', __doctor_walk Min v s = (v', s) /\ repairs v' = repairs v /\
    (anomalies v' = anomalies v <-> sound Min s) /\ (reachable Min s -> anomalies v' = anomalies v).
Proof.
  intros Hr Hb Ht. destruct (buddy_walk_part Min v s Hr Hb Ht) as (v' & E & [_ _ Hrep Hc]). exists v'.
  split; [done|]. split; [done|]. split; [done|]. intros HR. destruct (reachable_wf Min s HR) as (B & HW).
  apply Hc. by apply (buddy_wf_sound Min s B).
Qed.

Lemma buddy_walk_exact_witness : exists v', __doctor_walk 1024 sweep_init demo2 = (v', demo2) /\ anomalies v' = 0.
Proof.
  destruct (buddy_walk_exact 1024 sweep_init demo2) as (v' & E & _ & _ & H); [reflexivity|vm_compute; discriminate..|].
  exists v'. split; [exact E|]. apply H, demo2_reachable.
Defined.
