(* ===== verification/Meta.v ===== *)
(** * The arena's metadata (src/src/arena.hpp, lines 423-546)

    Nodes and sheet objects of the tiers live in sheets of their own: the tier
    [_arena_tier], whose own nodes live in the single sheet [_arena_memory].
    The memory of the nodes is the [links] map of each tier, the sheet objects
    are kept by the address they were constructed at. *)

From S2P Require Import Prelude.
From S2P Require Import Config.
From S2P Require Import Buddy.
From S2P Require Import VaReserve.
From S2P Require Import Owner.
From S2P Require Import Hooks.
From S2P Require Import Book.
From S2P Require Import BuddyBook.
From S2P Require Import Sheet.
From S2P Require Import Tier.
From S2P Require Import Kernel.

Definition __max_sheets_arena_internal : Z := 64.

(** [_arena_memory], [_arena_tier] and its sheets, in the process *)
Record meta := Meta {
  m_process : process;
  _arena_memory : sheet buddy;
  _arena_tier : tier;
  m_sheets : gmap Z (sheet buddy)
}.

(** The sheet a node holds; a null node or a node without a sheet is not followed. *)
Definition node_sheet {B} (t : tier) (shs : gmap Z (sheet B)) (n : Z) : option (sheet B) :=
  if n =? 0 then None else shs !! rd (links t) (n + 0).

(** [addr()] and [addr_end()] of the sheet at an address *)
Definition addr_at {B} (shs : gmap Z (sheet B)) (a : Z) : Z := from_option addr 0 (shs !! a).
Definition addr_end_at {B} (shs : gmap Z (sheet B)) (a : Z) : Z := from_option addr_end 0 (shs !! a).

(** [new (p) node()] and then [nd->nd = s] *)
Definition new_node (t : tier) (n s : Z) : tier :=
  set_links t (wr (wr (wr (links t) (n + 0) s) (n + 8) 0) (n + 16) 0) (tail t).

Section Meta.
Context `{ChunkOps} `{Settings} `{Platform}.
(** The arena ([this]) and the embedded node [_arena_tier.head] *)
Context (self head : Z).

#[local] Instance internal_book : Book buddy := buddy_book __class_arena_internal.

Definition set_process (e : meta) (p : process) : meta := Meta p (_arena_memory e) (_arena_tier e) (m_sheets e).
Definition set_memory (e : meta) (sh : sheet buddy) : meta := Meta (m_process e) sh (_arena_tier e) (m_sheets e).
Definition set_tier (e : meta) (t : tier) : meta := Meta (m_process e) (_arena_memory e) t (m_sheets e).
Definition put_sheet (e : meta) (a : Z) (sh : sheet buddy) : meta :=
  Meta (m_process e) (_arena_memory e) (_arena_tier e) (<[a := sh]> (m_sheets e)).

(** [_arena_memory.try_mark(...)] *)
Definition mark_memory (e : meta) (sz : Z) : res (chunk * meta) :=
  let* (buf, mem) := or_abort (try_mark (_arena_memory e) sz) in
  Ok (buf, set_memory e mem).

Definition __init_arena_tier (e : meta) (n : Z) : res meta :=
  let* (buf, e) := mark_memory e sizeof_sheet in
  if chunk_failed_allocation buf then Abort else
  let* (chnk, p) := if __default_guard_arena_metadata then __get_guarded_kernel_chunk (m_process e) n
                    else kernel_chunk (m_process e) n in
  let* (sh, p) := new_sheet self __default_guard_arena_metadata p chnk in
  let e := put_sheet (set_process e p) (ptr buf) sh in
  let t := _arena_tier e in
  let t := set_links t (wr (wr (wr (links t) (head + 0) (ptr buf)) (head + 8) 0) (head + 16) 0) head in
  if Sheet.empty sh then Abort else
  Ok (set_tier e (register_sheet __max_sheets_arena_internal (addr_at (m_sheets e)) (addr_end_at (m_sheets e)) t head).2).

Definition __expand_arena_tier (e : meta) (sz : Z) : res meta :=
  let pair_sz := sizeof_node + sizeof_sheet in
  let* (buf, e) := mark_memory e pair_sz in
  if chunk_failed_allocation buf then Abort else
  let nd := ptr buf in
  let s := nd + sizeof_node in
  let* (chnk, p) := if __default_guard_arena_metadata then __get_guarded_kernel_chunk (m_process e) sz
                    else let* (chnk, p) := kernel_chunk (m_process e) sz in
                         if negb (__kernel_chunk_valid chnk) then Abort else Ok (chnk, p) in
  let* (sh, p) := new_sheet self __default_guard_arena_metadata p chnk in
  let e := put_sheet (set_process e p) s sh in
  if Sheet.empty sh then Abort else
  let t := link_at_tail (new_node (_arena_tier e) nd s) nd in
  let '(pos, t) := register_sheet __max_sheets_arena_internal (addr_at (m_sheets e)) (addr_end_at (m_sheets e)) t nd in
  if pos =? __max_sheets_arena_internal then Abort else Ok (set_tier e t).

Definition __reload_arena_buf (e : meta) : res meta :=
  let* sh := or_stuck (node_sheet (_arena_tier e) (m_sheets e) (tail (_arena_tier e))) in
  __expand_arena_tier e (u64 (allocated sh * 2)).

(** [goto retry_mark] *)
Fixpoint __mark_arena (fuel : nat) (e : meta) (sz : Z) : res (chunk * meta) :=
  match fuel with
  | O => OutOfFuel
  | S fuel =>
      let t := _arena_tier e in
      let* sh := or_stuck (node_sheet t (m_sheets e) (tail t)) in
      let* (buf, sh) := or_abort (try_mark sh sz) in
      let e := put_sheet e (rd (links t) (tail t + 0)) sh in
      if chunk_failed_allocation buf then
        let* e := __reload_arena_buf e in
        __mark_arena fuel e sz
      else Ok (buf, e)
  end.

Definition __unmark_from_arena (e : meta) (addr sz : Z) : res meta :=
  let t := _arena_tier e in
  let* idx := or_fuel (find_range t addr) in
  if idx <? 0 then Ok e else
  let n := nd (entry (__idx t) idx) in
  let* sh := or_stuck (node_sheet t (m_sheets e) n) in
  let* (ok, sh) := or_abort (try_unmark sh (Chunk addr sz)) in
  let e := put_sheet e (rd (links t) (n + 0)) sh in
  if ok : bool then Ok (set_tier e (mark_available t idx)) else Ok e.

Definition __available_buffer (e : meta) : Z := available (_arena_memory e).
End Meta.
