(* ===== verification/Bucket.v ===== *)
(** * A tier at work (src/src/arena.hpp, lines 548-735, 756-905, 962-1202)

    A bucket is a tier with its sheets and its cache of freed blocks.  The
    functions of the arena that are templates over the tier are here, once: they
    take the class of the cache and of the book as interfaces, and the metadata
    of the arena ([Meta]) as state. *)

From S2P Require Import Prelude.
From S2P Require Import Config.
From S2P Require Import Buddy.
From S2P Require Import Tcache.
From S2P Require Import Book.
From S2P Require Import Sheet.
From S2P Require Import Tier.
From S2P Require Import Harden.
From S2P Require Import Kernel.
From S2P Require Import Meta.

(** ** The cache of freed blocks, as a tier uses it *)

Class FreeCache (C : Type) := {
  fc_slots : Z;
  fc_probe : C -> Z -> Z;
  fc_probe_ge : C -> Z -> Z;
  fc_push : C -> Z -> Z -> bool * C;
  fc_pop_at : C -> Z -> tchunk * C;
  fc_contains : C -> Z -> bool;
  fc_invalidate_range : C -> Z -> Z -> C
}.

(** [__tier_tcache<Slots>] and [__tier_tcache<0>] *)
Definition linear_cache (Slots : Z) : FreeCache Tcache.TierCache.cache := {|
  fc_slots := Slots;
  fc_probe := Tcache.TierCache.probe;
  fc_probe_ge := Tcache.TierCache.probe_ge;
  fc_push := Tcache.TierCache.push Slots;
  fc_pop_at := Tcache.TierCache.pop_at;
  fc_contains := Tcache.TierCache.contains;
  fc_invalidate_range := Tcache.TierCache.invalidate_range
|}.

Definition no_cache : FreeCache Tcache.Zero.cache := {|
  fc_slots := 0;
  fc_probe := Tcache.Zero.probe;
  fc_probe_ge := Tcache.Zero.probe_ge;
  fc_push := Tcache.Zero.push;
  fc_pop_at := Tcache.Zero.pop_at;
  fc_contains := Tcache.Zero.contains;
  fc_invalidate_range := Tcache.Zero.invalidate_range
|}.

(** [tomb_for<Sz>()] *)
Definition tomb_for `{Settings} (Sz : Z) : bool :=
  if __default_persistent_mode then true else
  if Sz <=? __class_precise then __tombstone_precise else
  if Sz <=? __class_small then __tombstone_small else
  if Sz <=? __class_medium then __tombstone_medium else
  if Sz <=? __class_large then __tombstone_large else __tombstone_huge.

(** [handle_double_free] and [fail_state] end the process or give a result. *)
Definition of_outcome (o : outcome) : res bool := match o with Aborts => Abort | Returns b => Ok b end.

Record bucket (B C : Type) := Bucket { b_tier : tier; b_sheets : gmap Z (sheet B); b_cache : C }.
Arguments Bucket {B C}.
Arguments b_tier {B C}.
Arguments b_sheets {B C}.
Arguments b_cache {B C}.

Section Bucket.
Context {B C : Type} `{ChunkOps} `{!Book B} `{!FreeCache C} `{Hardening} `{Settings} `{Platform}.
(** [MaxSheets], [__size_class] and [sizeof(sheet_type)] of the tier, the address
    of its embedded node, and the arena *)
Context (MaxSheets Sz sizeof : Z) (head : Z) (self : Z).

Abbreviation bkt := (bucket B C).

Definition with_tier (b : bkt) (t : tier) : bkt := Bucket t (b_sheets b) (b_cache b).
Definition with_cache (b : bkt) (c : C) : bkt := Bucket (b_tier b) (b_sheets b) c.
Definition with_sheet (b : bkt) (a : Z) (sh : sheet B) : bkt :=
  Bucket (b_tier b) (<[a := sh]> (b_sheets b)) (b_cache b).
Definition set_last_hit (b : bkt) (pos : Z) : bkt :=
  let t := b_tier b in
  with_tier b (Tier (links t) (Tier.tail t) (__idx t) (__count t) (__space_mask t) pos (__dealloc_count t)).
Definition set_dealloc_count (t : tier) (c : Z) : tier :=
  Tier (links t) (Tier.tail t) (__idx t) (__count t) (__space_mask t) (__last_hit t) c.

(** [*tier.__idx[pos].nd->nd], by the address of the sheet object *)
Definition sheet_of (b : bkt) (pos : Z) : res (Z * sheet B) :=
  let n := nd (entry (__idx (b_tier b)) pos) in
  let* sh := or_stuck (node_sheet (b_tier b) (b_sheets b) n) in
  Ok (rd (links (b_tier b)) (n + 0), sh).

(** ** Serving a request *)

(** [mark] or [temporal_mark] on the sheet at [pos] *)
Definition mark_at (temporal : bool) (b : bkt) (pos sz : Z) : res (chunk * bkt) :=
  let* (a, sh) := sheet_of b pos in
  let '(mem, sh) := if temporal then temporal_mark sh sz else mark sh sz in
  Ok (mem, with_sheet b a sh).

(** [while ( mask )], at most 64 rounds; a null chunk when the word is exhausted *)
Fixpoint word_loop (temporal : bool) (n : nat) (b : bkt) (w mask sz : Z) : res (chunk * bkt) :=
  match n with
  | O => OutOfFuel
  | S n =>
      if mask =? 0 then Ok (null_chunk, b) else
      let bit := ctz mask in
      let pos := Z.lor (Z.shiftl w 6) bit in
      if __count (b_tier b) <=? pos then Ok (null_chunk, b) else
      let* (mem, b) := mark_at temporal b pos sz in
      if negb (chunk_zero mem) then Ok (mem, set_last_hit b pos) else
      word_loop temporal n (with_tier b (mark_exhausted (b_tier b) pos)) w (Z.land mask (mask - 1)) sz
  end.

(** [for ( w = 0; w < __detail_words; ++w )], [n] words left *)
Fixpoint words_loop (temporal : bool) (n : nat) (b : bkt) (w sz : Z) : res (chunk * bkt) :=
  match n with
  | O => Ok (null_chunk, b)
  | S n =>
      let* (mem, b) := word_loop temporal 65 b w (rd (__space_mask (b_tier b)) w) sz in
      if negb (chunk_zero mem) then Ok (mem, b) else words_loop temporal n b (w + 1) sz
  end.

Definition insert_scan (temporal : bool) (b : bkt) (sz : Z) : res (chunk * bkt) :=
  words_loop temporal (Z.to_nat (__detail_words MaxSheets)) b 0 sz.

(** [__bucket_insert] and [__bucket_insert_temporal] differ in the call only. *)
Definition bucket_insert (temporal : bool) (b : bkt) (sz : Z) : res (chunk * bkt) :=
  let lh := __last_hit (b_tier b) in
  if (lh <? __count (b_tier b)) && __mask_get (__space_mask (b_tier b)) lh then
    let* (mem, b) := mark_at temporal b lh sz in
    if negb (chunk_zero mem) then Ok (mem, b) else
    insert_scan temporal (with_tier b (mark_exhausted (b_tier b) lh)) sz
  else insert_scan temporal b sz.

Definition __bucket_insert (b : bkt) (sz : Z) : res (chunk * bkt) := bucket_insert __default_launder b sz.
Definition __bucket_insert_temporal (b : bkt) (sz : Z) : res (chunk * bkt) := bucket_insert true b sz.

Definition caching : bool := __default_per_class_free_cache && (0 <? fc_slots) && negb __default_launder.

Definition __cache_pop_or_insert (b : bkt) (sz : Z) : res (chunk * bkt) :=
  if caching then
    let hit := if __default_redzone then fc_probe (b_cache b) (u32 sz) else fc_probe_ge (b_cache b) (u32 sz) in
    if 0 <=? hit then
      let '(c, fc) := fc_pop_at (b_cache b) (u32 hit) in
      Ok (Chunk (tptr c) (tsize c), with_cache b fc)
    else __bucket_insert b sz
  else __bucket_insert b sz.

(** ** Giving sheets back *)

(** [reset(); unlink_node(nd); unregister(i); __unmark_from_arena(nd, ...)] on the
    sheet at index [i]; the object ends with the memory of its node. *)
Definition reclaim (b : bkt) (e : meta) (i n a : Z) (sh : sheet B) : res (bkt * meta) :=
  let* (_, p) := release_sheet (m_process e) sh in
  let e := set_process e p in
  let t := unregister MaxSheets (unlink_node (b_tier b) n) i in
  let* e := __unmark_from_arena e n (sizeof_node + sizeof) in
  Ok (Bucket t (delete a (b_sheets b)) (b_cache b), e).

(** The loop of [__sweep_tier_tombstones], from index [i - 1] down to 0 *)
Fixpoint sweep_loop (b : bkt) (e : meta) (i : nat) : res (bkt * meta) :=
  match i with
  | O => Ok (b, e)
  | S i =>
      let n := nd (entry (__idx (b_tier b)) (Z.of_nat i)) in
      if (n =? 0) || (rd (links (b_tier b)) (n + 0) =? 0) || (n =? head) then sweep_loop b e i else
      let* (a, sh) := sheet_of b (Z.of_nat i) in
      if negb (used sh =? 0) then sweep_loop b e i else
      if (Z.shiftr (ftotal sh) 1 <? tombstoned sh) && negb __default_persistent_mode then
        let* (b, e) := reclaim b e (Z.of_nat i) n a sh in
        sweep_loop b e i
      else sweep_loop b e i
  end.

Definition __sweep_tier_tombstones (b : bkt) (e : meta) : res (bkt * meta) :=
  let b := with_tier b (set_dealloc_count (b_tier b) 0) in
  sweep_loop b e (Z.to_nat (__count (b_tier b))).

Definition __try_reclaim_empty (b : bkt) (e : meta) (range_idx n : Z) : res (bkt * meta) :=
  let* (a, sh) := sheet_of b range_idx in
  if (used sh =? 0) && negb (n =? head) then
    if negb __default_persistent_mode then reclaim b e range_idx n a sh else Ok (b, e)
  else Ok (b, e).

Definition __tombstone_accounting (b : bkt) (e : meta) (range_idx n : Z) : res (bkt * meta) :=
  let* (a, sh) := sheet_of b range_idx in
  let drained := negb (n =? head) && (used sh =? 0) && (Z.shiftr (ftotal sh) 1 <? tombstoned sh) &&
                 negb __default_persistent_mode in
  if drained then reclaim b e range_idx n a sh else
  if __default_tombstone_sweep_interval =? 0 then Ok (b, e) else
  let '(due, t) := bump_dealloc (b_tier b) in
  let b := with_tier b t in
  if due : bool then __sweep_tier_tombstones b e else Ok (b, e).

(** ** Taking a block back *)

Definition __tier_remove_impl (HasSize ForceTombstone : bool) (b : bkt) (e : meta) (range_idx addr : Z) (memory : chunk)
    : res (bool * bkt * meta) :=
  let n := nd (entry (__idx (b_tier b)) range_idx) in
  let* (a, sh) := sheet_of b range_idx in
  let tomb := ForceTombstone || tomb_for Sz in
  let* (ok, sh) := or_abort (if tomb then if HasSize then try_tombstone sh memory else try_tombstone_no_size sh addr
                             else if HasSize then try_unmark sh memory else try_unmark_no_size sh addr) in
  let b := with_sheet b a sh in
  if ForceTombstone || ok then
    let b := with_tier b (mark_available (b_tier b) range_idx) in
    let* (b, e) := if tomb then __tombstone_accounting b e range_idx n else __try_reclaim_empty b e range_idx n in
    Ok (true, b, e)
  else
    let* r := of_outcome (handle_double_free addr) in
    Ok (r, b, e).

Definition __tier_remove (b : bkt) (e : meta) (range_idx : Z) (memory : chunk) : res (bool * bkt * meta) :=
  __tier_remove_impl true false b e range_idx (ptr memory) memory.

Definition double_free (b : bkt) (e : meta) (addr : Z) : res (bool * bkt * meta) :=
  let* r := of_outcome (handle_double_free addr) in
  Ok (r, b, e).

Definition __tier_remove_at (b : bkt) (e : meta) (range_idx addr : Z) : res (bool * bkt * meta) :=
  let* (a, sh) := sheet_of b range_idx in
  if negb __default_redzone && negb (is_block_allocated sh addr) then double_free b e addr else
  if caching && negb __default_redzone then
    if fc_contains (b_cache b) addr then double_free b e addr else
    if negb (is_temporal_block sh addr) then
      let bsz := block_size_of sh addr in
      if __hdr_offset <? bsz then
        let '(pushed, fc) := fc_push (b_cache b) addr (u32 (bsz - __hdr_offset)) in
        if pushed : bool then Ok (true, with_cache b fc, e)
        else __tier_remove_impl false false (with_cache b fc) e range_idx addr null_chunk
      else __tier_remove_impl false false b e range_idx addr null_chunk
    else __tier_remove_impl false false b e range_idx addr null_chunk
  else __tier_remove_impl false false b e range_idx addr null_chunk.

Definition __tier_tombstone (b : bkt) (e : meta) (range_idx : Z) (memory : chunk) : res (bool * bkt * meta) :=
  __tier_remove_impl true true b e range_idx (ptr memory) memory.
Definition __tier_tombstone_at (b : bkt) (e : meta) (range_idx addr : Z) : res (bool * bkt * meta) :=
  __tier_remove_impl false true b e range_idx addr null_chunk.

Definition __cache_push_or_remove (b : bkt) (e : meta) (range_idx : Z) (c : chunk) : res (bool * bkt * meta) :=
  if caching then
    let* (a, sh) := sheet_of b range_idx in
    if negb (is_block_allocated sh (ptr c)) || fc_contains (b_cache b) (ptr c) then double_free b e (ptr c) else
    let bsz := block_size_of sh (ptr c) in
    if __hdr_offset <? bsz then
      let cap := bsz - __hdr_offset in
      let clen := if cap <? len c then cap else len c in
      let '(pushed, fc) := fc_push (b_cache b) (ptr c) (u32 clen) in
      if pushed : bool then Ok (true, with_cache b fc, e)
      else __tier_remove (with_cache b fc) e range_idx c
    else __tier_remove b e range_idx c
  else __tier_remove b e range_idx c.

(** ** Adding sheets *)

(** [__init_tlsf] and [__init_buddy] once the size is known *)
Definition init_head (b : bkt) (e : meta) (n : Z) : res (bkt * meta) :=
  let* (buf, e) := mark_memory e sizeof in
  if chunk_failed_allocation buf then Abort else
  let* (chnk, p) := kernel_chunk (m_process e) n in
  let* (sh, p) := new_sheet self false p chnk in
  let e := set_process e p in
  let b := with_sheet b (ptr buf) sh in
  let t := b_tier b in
  let t := set_links t (wr (wr (wr (links t) (head + 0) (ptr buf)) (head + 8) 0) (head + 16) 0) head in
  if Sheet.empty sh then Abort else
  Ok (with_tier b (register_sheet MaxSheets (addr_at (b_sheets b)) (addr_end_at (b_sheets b)) t head).2, e).

Definition __init_tlsf (b : bkt) (e : meta) (n : Z) : res (bkt * meta) :=
  let n := if n =? __default_magic_size then __calculate_space_small Sz else n in
  init_head b e (__page_round n).

Definition __init_buddy (b : bkt) (e : meta) (n : Z) : res (bkt * meta) :=
  let n := if n =? __default_magic_size then
             if Sz =? __class_medium then __calculate_space_medium Sz else
             if Sz =? __class_large then __calculate_space_large Sz else
             if Sz =? __class_huge then __calculate_space_huge Sz else __calculate_space_small Sz
           else n in
  init_head b e n.

(** How often [__mark_arena] may add a metadata sheet: as many as the index holds *)
Definition mark_fuel : nat := 66.

(** The rest of [__expand_tlsf] and [__expand_buddy] once the kernel chunk is
    there: a node and a sheet in the block [buf], the tier extended, all of it
    given back when the sheet is empty or the tier full. *)
Definition expand_with (guarded : bool) (b : bkt) (e : meta) (buf chnk : chunk) : res (bool * bkt * meta) :=
  let pair_sz := sizeof_node + sizeof in
  let n := ptr buf in
  let a := n + sizeof_node in
  let* (sh, p) := new_sheet self guarded (m_process e) chnk in
  let e := set_process e p in
  if Sheet.empty sh then
    let* (_, p) := release_sheet (m_process e) sh in
    let* e := __unmark_from_arena (set_process e p) n pair_sz in
    Ok (false, b, e)
  else
    let b := with_sheet (with_tier b (link_at_tail (new_node (b_tier b) n a) n)) a sh in
    let '(pos, t) := register_sheet MaxSheets (addr_at (b_sheets b)) (addr_end_at (b_sheets b)) (b_tier b) n in
    if pos =? MaxSheets then
      let t := unlink_node t n in
      let* (_, p) := release_sheet (m_process e) sh in
      let* e := __unmark_from_arena (set_process e p) n pair_sz in
      Ok (false, Bucket t (delete a (b_sheets b)) (b_cache b), e)
    else Ok (true, with_tier b t, e).

Definition __expand_tlsf (b : bkt) (e : meta) (sz : Z) : res (bool * bkt * meta) :=
  let pair_sz := sizeof_node + sizeof in
  let* (buf, e) := __mark_arena self mark_fuel e pair_sz in
  let* (chnk, p) := kernel_chunk (m_process e) (__page_round sz) in
  let e := set_process e p in
  if negb (__kernel_chunk_valid chnk) then
    let* e := __unmark_from_arena e (ptr buf) pair_sz in
    Ok (false, b, e)
  else expand_with false b e buf chnk.

Definition __expand_buddy (b : bkt) (e : meta) (sz : Z) : res (bool * bkt * meta) :=
  let pair_sz := sizeof_node + sizeof in
  let* (buf, e) := __mark_arena self mark_fuel e pair_sz in
  let* (chnk, p) := kernel_chunk (m_process e)
    (if __default_insert_guard_pages then u64 (sz + __system_pagesize) else sz) in
  let e := set_process e p in
  if negb (__kernel_chunk_valid chnk) then
    let* e := __unmark_from_arena e (ptr buf) pair_sz in
    Ok (false, b, e)
  else
    let* p := if __default_insert_guard_pages then __make_guard (m_process e) chnk else Ok (m_process e) in
    expand_with __default_insert_guard_pages b (set_process e p) buf chnk.

(** [__release_tier], along the list of nodes *)
Fixpoint release_loop (fuel : nat) (b : bkt) (p : process) (n : Z) : res (bkt * process) :=
  match fuel with
  | O => OutOfFuel
  | S fuel =>
      if n =? 0 then Ok (b, p) else
      let a := rd (links (b_tier b)) (n + 0) in
      let* (b, p) :=
        if negb (a =? 0) then
          let* sh := or_stuck (b_sheets b !! a) in
          let* (sh, p) := release_sheet p sh in
          Ok (with_sheet b a sh, p)
        else Ok (b, p) in
      release_loop fuel b p (rd (links (b_tier b)) (n + 16))
  end.
Definition __release_tier (fuel : nat) (b : bkt) (p : process) : res (bkt * process) := release_loop fuel b p head.
End Bucket.
