(* ===== verification/Arena.v ===== *)
(** * The arena (src/src/arena.hpp, lines 408-422, 845-961, 1203-2110)

    Five tiers over the metadata, the predictor, the remote-free queue with its
    overflow list, the counters, and the bytes of user memory that the hardening
    options read and write.  The functions that try the tiers in turn are
    written with one search for the tier and a function applied to it. *)

From S2P Require Import Prelude.
From S2P Require Import Config.
From S2P Require Import Buddy.
From S2P Require Import Tlsf.
From S2P Require Import Tcache.
From S2P Require Import Mpsc.
From S2P Require Import VaReserve.
From S2P Require Import Owner.
From S2P Require Import Hooks.
From S2P Require Import Book.
From S2P Require Import BuddyBook.
From S2P Require Import TlsfBook.
From S2P Require Import Sheet.
From S2P Require Import Tier.
From S2P Require Import Predict.
From S2P Require Import Harden.
From S2P Require Import Stats.
From S2P Require Import Kernel.
From S2P Require Import Meta.
From S2P Require Import Bucket.

Definition __max_sheets_precise : Z := 512.
Definition __max_sheets_small : Z := 512.
Definition __max_sheets_medium : Z := 512.
Definition __max_sheets_large : Z := 128.
Definition __max_sheets_huge : Z := 128.
Definition __cache_slots_precise : Z := 32.
Definition __cache_slots_small : Z := 16.
Definition __cache_slots_medium : Z := 8.
Definition __cache_slots_large : Z := 4.
Definition __remote_tombstone_size : Z := usize_max.

(** [micron::__chunk] of the failing [push] *)
Definition failed_chunk : chunk := Chunk usize_max usize_max.

Inductive tier_id := Precise | Small | Medium | Large | Huge.

#[export] Instance tier_id_eq_dec : EqDecision tier_id.
Proof. solve_decision. Defined.

(** [_arena_memory] and [_arena_tier] are in [a_meta]; [__remote_ovf] is the list
    threaded through the freed blocks, its head first, as pointer and size. *)
Record arena := Arena {
  a_meta : meta;
  __predict : alloc_predictor;
  _precise : bucket tlsf Tcache.TierCache.cache;
  _small : bucket tlsf Tcache.TierCache.cache;
  _medium : bucket buddy Tcache.TierCache.cache;
  _large : bucket buddy Tcache.TierCache.cache;
  _huge : bucket buddy Tcache.Zero.cache;
  __remote_free : queue;
  __remote_ovf : list (Z * Z);
  a_stats : stats_storage;
  a_bytes : zmap
}.

Section Arena.
Context `{ChunkOps} `{Hardening} `{Settings} `{Platform}.
(** [this], and the embedded node of each tier *)
Context (self : Z) (head_of : tier_id -> Z) (internal_head : Z).

Definition set_meta (a : arena) (e : meta) : arena :=
  Arena e (__predict a) (_precise a) (_small a) (_medium a) (_large a) (_huge a) (__remote_free a) (__remote_ovf a) (a_stats a) (a_bytes a).
Definition set_predict (a : arena) (p : alloc_predictor) : arena :=
  Arena (a_meta a) p (_precise a) (_small a) (_medium a) (_large a) (_huge a) (__remote_free a) (__remote_ovf a) (a_stats a) (a_bytes a).
Definition set_precise (a : arena) b : arena :=
  Arena (a_meta a) (__predict a) b (_small a) (_medium a) (_large a) (_huge a) (__remote_free a) (__remote_ovf a) (a_stats a) (a_bytes a).
Definition set_small (a : arena) b : arena :=
  Arena (a_meta a) (__predict a) (_precise a) b (_medium a) (_large a) (_huge a) (__remote_free a) (__remote_ovf a) (a_stats a) (a_bytes a).
Definition set_medium (a : arena) b : arena :=
  Arena (a_meta a) (__predict a) (_precise a) (_small a) b (_large a) (_huge a) (__remote_free a) (__remote_ovf a) (a_stats a) (a_bytes a).
Definition set_large (a : arena) b : arena :=
  Arena (a_meta a) (__predict a) (_precise a) (_small a) (_medium a) b (_huge a) (__remote_free a) (__remote_ovf a) (a_stats a) (a_bytes a).
Definition set_huge (a : arena) b : arena :=
  Arena (a_meta a) (__predict a) (_precise a) (_small a) (_medium a) (_large a) b (__remote_free a) (__remote_ovf a) (a_stats a) (a_bytes a).
Definition set_remote (a : arena) (q : queue) (l : list (Z * Z)) : arena :=
  Arena (a_meta a) (__predict a) (_precise a) (_small a) (_medium a) (_large a) (_huge a) q l (a_stats a) (a_bytes a).
Definition set_stats (a : arena) (s : stats_storage) : arena :=
  Arena (a_meta a) (__predict a) (_precise a) (_small a) (_medium a) (_large a) (_huge a) (__remote_free a) (__remote_ovf a) s (a_bytes a).
Definition set_user_bytes (a : arena) (m : zmap) : arena :=
  Arena (a_meta a) (__predict a) (_precise a) (_small a) (_medium a) (_large a) (_huge a) (__remote_free a) (__remote_ovf a) (a_stats a) m.

(** [collect_stats] is compiled in with [MICRON_ABC_STATS]. *)
Definition count (S : stat_type) (n : Z) (a : arena) : arena :=
  if __default_collect_stats then set_stats a (collect_stats S (a_stats a) n) else a.

(** ** A tier at a time *)

Definition max_of (t : tier_id) : Z :=
  match t with
  | Precise => __max_sheets_precise | Small => __max_sheets_small | Medium => __max_sheets_medium
  | Large => __max_sheets_large | Huge => __max_sheets_huge
  end.
Definition class_of (t : tier_id) : Z :=
  match t with
  | Precise => __class_precise | Small => __class_small | Medium => __class_medium
  | Large => __class_large | Huge => __class_huge
  end.
Definition sizeof_of (t : tier_id) : Z :=
  match t with Precise | Small => sizeof_tlsf_sheet | _ => sizeof_sheet end.

Definition tier_of (a : arena) (t : tier_id) : tier :=
  match t with
  | Precise => b_tier (_precise a) | Small => b_tier (_small a) | Medium => b_tier (_medium a)
  | Large => b_tier (_large a) | Huge => b_tier (_huge a)
  end.

(** A function of the arena that is a template over the tier *)
Definition tier_fn (X : Type) : Type :=
  forall B C (bk : Book B) (fc : FreeCache C), tier_id -> bucket B C -> meta -> res (X * bucket B C * meta).

Definition on_tier {X} (t : tier_id) (fn : tier_fn X) (a : arena) : res (X * arena) :=
  match t with
  | Precise =>
      let* (x, b, e) := fn _ _ (tlsf_book __class_precise) (linear_cache __cache_slots_precise) Precise (_precise a) (a_meta a) in
      Ok (x, set_meta (set_precise a b) e)
  | Small =>
      let* (x, b, e) := fn _ _ (tlsf_book __class_small) (linear_cache __cache_slots_small) Small (_small a) (a_meta a) in
      Ok (x, set_meta (set_small a b) e)
  | Medium =>
      let* (x, b, e) := fn _ _ (buddy_book __class_medium) (linear_cache __cache_slots_medium) Medium (_medium a) (a_meta a) in
      Ok (x, set_meta (set_medium a b) e)
  | Large =>
      let* (x, b, e) := fn _ _ (buddy_book __class_large) (linear_cache __cache_slots_large) Large (_large a) (a_meta a) in
      Ok (x, set_meta (set_large a b) e)
  | Huge =>
      let* (x, b, e) := fn _ _ (buddy_book __class_huge) no_cache Huge (_huge a) (a_meta a) in
      Ok (x, set_meta (set_huge a b) e)
  end.

(** [if ( ( idx = _precise.find_range(addr) ) >= 0 ) ... else if ...] over [ts] *)
Fixpoint find_in (a : arena) (addr : Z) (ts : list tier_id) : res (option (tier_id * Z)) :=
  match ts with
  | [] => Ok None
  | t :: ts =>
      let* idx := or_fuel (find_range (tier_of a t) addr) in
      if 0 <=? idx then Ok (Some (t, idx)) else find_in a addr ts
  end.

Definition find_tier (a : arena) (addr : Z) : res (option (tier_id * Z)) :=
  find_in a addr [Precise; Small; Medium; Large; Huge].

(** [__dispatch_addr], and its callers that spell the search out; [none] is the
    answer when no tier has the address. *)
Definition dispatch {X} (a : arena) (addr : Z) (none : X) (fn : Z -> tier_fn X) : res (X * arena) :=
  let* found := find_tier a addr in
  match found with
  | None => Ok (none, a)
  | Some (t, idx) => on_tier t (fn idx) a
  end.

Definition __dispatch_addr (a : arena) (addr : Z) (fn : Z -> tier_fn bool) : res (bool * arena) := dispatch a addr false fn.

(** A question about the sheet at the address that changes nothing *)
Definition query {X} (a : arena) (addr : Z) (none : X)
    (fn : forall B, Book B -> tier_id -> sheet B -> res X) : res X :=
  let* (x, _) := dispatch a addr none (fun idx B C bk fc t b e =>
    let* (_, sh) := sheet_of b idx in
    let* x := fn B bk t sh in
    Ok (x, b, e)) in
  Ok x.

(** The tiers whose blocks carry canaries *)
Definition is_tlsf (t : tier_id) : bool := match t with Precise | Small => true | _ => false end.

(** A user pointer in a tier as a block pointer *)
Definition shifted (t : tier_id) (p : Z) : Z :=
  if __default_redzone && is_tlsf t then p - __default_redzone_size else p.

(** ** Adding sheets *)

Definition expand_fn (sz : Z) : tier_fn bool := fun B C bk fc t b e =>
  if is_tlsf t then __expand_tlsf (max_of t) (sizeof_of t) self b e sz
  else __expand_buddy (max_of t) (sizeof_of t) self b e sz.
Definition init_fn (n : Z) : tier_fn bool := fun B C bk fc t b e =>
  let* (b, e) := if is_tlsf t then __init_tlsf (max_of t) (class_of t) (sizeof_of t) (head_of t) self b e n
                 else __init_buddy (max_of t) (class_of t) (sizeof_of t) (head_of t) self b e n in
  Ok (true, b, e).

Definition is_empty (a : arena) (t : tier_id) : bool := Tier.empty (head_of t) (tier_of a t).

Definition __buf_expand_exact (a : arena) (class_sz exact_sz : Z) : res (bool * arena) :=
  let lazy_small := __default_lazy_construct && negb __default_eager_hot_tiers in
  if class_sz <=? __class_small then on_tier Precise (expand_fn exact_sz) a else
  if class_sz <? __class_medium then
    if lazy_small && is_empty a Small then on_tier Small (init_fn (__calculate_space_small __class_small)) a
    else on_tier Small (expand_fn exact_sz) a
  else if class_sz <=? __class_large then
    if lazy_small && is_empty a Medium then on_tier Medium (init_fn __default_magic_size) a
    else on_tier Medium (expand_fn exact_sz) a
  else if class_sz <=? __class_huge then
    if is_empty a Large then on_tier Large (init_fn exact_sz) a else on_tier Large (expand_fn exact_sz) a
  else
    if is_empty a Huge then on_tier Huge (init_fn exact_sz) a else on_tier Huge (expand_fn exact_sz) a.

(** ** Serving a request *)

Definition insert_fn (sz : Z) : tier_fn chunk := fun B C bk fc t b e =>
  let* (c, b) := __cache_pop_or_insert (max_of t) b sz in Ok (c, b, e).
Definition insert_temporal_fn (sz : Z) : tier_fn chunk := fun B C bk fc t b e =>
  let* (c, b) := __bucket_insert_temporal (max_of t) b sz in Ok (c, b, e).

Definition __vmap_alloc (a : arena) (sz : Z) : res (chunk * arena) :=
  if sz <=? __class_small then on_tier Precise (insert_fn sz) a else
  if sz <? __class_medium then on_tier Small (insert_fn sz) a else
  if sz <=? __class_large then on_tier Medium (insert_fn sz) a else
  if sz <=? __class_huge then on_tier Large (insert_fn sz) a else
  on_tier Huge (insert_fn sz) a.

Definition __vmap_launder (a : arena) (sz : Z) : res (chunk * arena) :=
  if sz <? __class_medium then on_tier Small (insert_temporal_fn sz) a else
  if sz <=? __class_large then on_tier Medium (insert_temporal_fn sz) a else
  if sz <=? __class_huge then on_tier Large (insert_temporal_fn sz) a else
  on_tier Huge (insert_temporal_fn sz) a.

Definition __rz_inflate (sz : Z) : Z :=
  if __default_redzone then
    let inflated := u64 (sz + 2 * __default_redzone_size) in
    if inflated <? __class_medium then inflated else
    if sz <? __class_medium then __class_medium else sz
  else sz.

Definition __rz_active (sz : Z) : bool :=
  if __default_redzone then u64 (sz + 2 * __default_redzone_size) <? __class_medium else false.

Definition __rz_apply (a : arena) (memory : chunk) (user_sz : Z) : chunk * arena :=
  let p := ptr memory + __default_redzone_size in
  (Chunk p user_sz, set_user_bytes a (write_redzone (a_bytes a) p user_sz)).

(** ** Questions about an address *)

Definition __vmap_within (a : arena) (addr : Z) : res bool :=
  let* found := find_tier a addr in Ok (if found then true else false).

Definition __vmap_valid_block (a : arena) (addr : Z) : res bool :=
  query a addr false (fun B bk t sh => Ok (is_block_allocated sh (shifted t addr))).

Definition __vmap_locate_at (a : arena) (addr : Z) : res bool :=
  query a addr false (fun B bk t sh => or_abort (find sh (shifted t addr))).

Definition __block_ptr_of (a : arena) (user : Z) : res Z :=
  if __default_redzone then
    let* found := find_in a user [Precise; Small] in
    Ok (if found then user - __default_redzone_size else user)
  else Ok user.

(** No sheet object is looked at here, only the cache of the tier. *)
Definition __is_cached (a : arena) (p : Z) : res bool :=
  let* (x, _) := dispatch a p false (fun idx B C bk fc t b e => Ok (fc_contains (b_cache b) p, b, e)) in
  Ok x.

Definition __size_of_alloc (a : arena) (addr : Z) : res Z :=
  query a addr 0 (fun B bk t sh =>
    let bs := block_size_of sh (shifted t addr) in
    let overhead := if __default_redzone && is_tlsf t then __hdr_offset + 2 * __default_redzone_size else __hdr_offset in
    Ok (if overhead <? bs then bs - overhead else 0)).

Definition is_valid_block (a : arena) (mem : Z) : res bool := if negb (mem =? 0) then __vmap_valid_block a mem else Ok false.
Definition has_provenance (a : arena) (mem : Z) : res bool := if negb (mem =? 0) then __vmap_within a mem else Ok false.
Definition present (a : arena) (mem : Z) : res bool :=
  if negb (mem =? 0) then
    let* located := __vmap_locate_at a mem in
    if located : bool then let* cached := __is_cached a mem in Ok (negb cached) else Ok false
  else Ok false.

Definition __stats_release_size (a : arena) (p fallback : Z) : res Z :=
  if __default_collect_stats then
    let* actual := __size_of_alloc a p in Ok (if negb (actual =? 0) then actual else fallback)
  else Ok fallback.
End Arena.
