(* ===== verification/ArenaApi.v ===== *)
(** * The arena's interface (src/src/arena.hpp, lines 1203-2110)

    Taking blocks back, the constructor and destructor, and the public member
    functions.  Diagnostic output is left out, and so are the hooks of the
    doctor, which is not compiled in by default. *)

From S2P Require Import Prelude.
From S2P Require Import Config.
From S2P Require Import Buddy.
From S2P Require Import Tlsf.
From S2P Require Import Tcache.
From S2P Require Import Mpsc.
From S2P Require Import VaReserve.
From S2P Require Import Owner.
From S2P Require Import Hooks.
From S2P Require Import Book.
From S2P Require Import BuddyBook.
From S2P Require Import TlsfBook.
From S2P Require Import Sheet.
From S2P Require Import Tier.
From S2P Require Import Predict.
From S2P Require Import Harden.
From S2P Require Import Stats.
From S2P Require Import Kernel.
From S2P Require Import Meta.
From S2P Require Import Bucket.
From S2P Require Import Arena.

Section ArenaApi.
Context `{ChunkOps} `{Hardening} `{Settings} `{Platform}.
Context (self : Z) (head_of : tier_id -> Z) (internal_head : Z).

(** ** Taking a block back *)

(** The canaries of a block of the two-level tiers are verified first; a block
    with broken ones is left alone. *)
Definition guarded {X} (intact : bool) (b : X) (e : meta) (go : res (bool * X * meta)) : res (bool * X * meta) :=
  if negb intact then let* r := of_outcome fail_state in Ok (r, b, e) else go.

(** The chunk with its canaries *)
Definition with_redzones (t : tier_id) (m : chunk) : chunk :=
  if __default_redzone && is_tlsf t
  then Chunk (ptr m - __default_redzone_size) (u64 (len m + 2 * __default_redzone_size)) else m.

Definition __vmap_remove (a : arena) (m : chunk) : res (bool * arena) :=
  dispatch a (ptr m) false (fun idx B C bk fc t b e =>
    guarded (negb (is_tlsf t) || verify_redzone (a_bytes a) (ptr m) (len m)) b e
      (__cache_push_or_remove (max_of t) (class_of t) (sizeof_of t) (head_of t) b e idx (with_redzones t m))).

Definition __vmap_remove_at (a : arena) (addr : Z) : res (bool * arena) :=
  dispatch a addr false (fun idx B C bk fc t b e =>
    guarded (negb (is_tlsf t) || verify_redzone_leading (a_bytes a) addr) b e
      (__tier_remove_at (max_of t) (class_of t) (sizeof_of t) (head_of t) b e idx (shifted t addr))).

Definition __vmap_tombstone (a : arena) (m : chunk) : res (bool * arena) :=
  dispatch a (ptr m) false (fun idx B C bk fc t b e =>
    guarded (negb (is_tlsf t) || verify_redzone (a_bytes a) (ptr m) (len m)) b e
      (__tier_tombstone (max_of t) (class_of t) (sizeof_of t) (head_of t) b e idx (with_redzones t m))).

Definition __vmap_tombstone_at (a : arena) (addr : Z) : res (bool * arena) :=
  dispatch a addr false (fun idx B C bk fc t b e =>
    guarded (negb (is_tlsf t) || verify_redzone_leading (a_bytes a) addr) b e
      (__tier_tombstone_at (max_of t) (class_of t) (sizeof_of t) (head_of t) b e idx (shifted t addr))).

(** The cached blocks of the sheet are dropped, then its pages made read-only. *)
Definition freeze_fn (idx : Z) : tier_fn bool := fun B C bk fc t b e =>
  let r := entry (__idx (b_tier b)) idx in
  let b := with_cache b (fc_invalidate_range (b_cache b) (lo r) (hi r)) in
  let* (_, sh) := sheet_of b idx in
  let '(ans, p) := ask (m_process e) in
  Ok (Sheet.freeze (fun _ _ _ => if a_protect ans then 0 else -1) 1 sh, b, set_process e p).

Definition __vmap_freeze (a : arena) (m : chunk) : res (bool * arena) := __dispatch_addr a (ptr m) freeze_fn.
Definition __vmap_freeze_at (a : arena) (addr : Z) : res (bool * arena) := __dispatch_addr a addr freeze_fn.

(** [Some r] is the answer of [fail_state] when it returns, [None] admits the block. *)
Definition __free_admit (HasSize : bool) (a : arena) (p len : Z) : res (option bool) :=
  let fail := let* r := of_outcome fail_state in Ok (Some r) in
  let valid := if HasSize then check_chunk_valid p len else check_ptr_valid p in
  if negb valid then fail else
  if negb (check_alignment p) then fail else
  if __default_enforce_provenance then
    let* ok := is_valid_block a p in
    if ok : bool then Ok None else fail
  else Ok None.

Definition __free_scrub (a : arena) (p len : Z) : res arena :=
  if __default_zero_on_free || ABC_EFF_POISON_ON_FREE || __default_full_on_free then
    let* real := __size_of_alloc a p in
    if real =? 0 then Ok a else
    let* blk := __block_ptr_of a p in
    let* cached := __is_cached a blk in
    if cached : bool then Ok a else
    let n := if (len =? 0) || (real <? len) then real else len in
    Ok (set_user_bytes a (zero_on_free (full_on_free (poison_on_free (a_bytes a) p n) p n) p n))
  else Ok a.

(** What the freeing functions share: [HasSize] and [len] for the admission and
    the scrub, [go] for the removal.  [return fail_state()] from an admission
    test makes [__free_admit] answer with its value, which is false or true. *)
Definition take_back (HasSize : bool) (a : arena) (p len : Z) (go : arena -> res (bool * arena)) : res (bool * arena) :=
  let* refused := __free_admit HasSize a p len in
  if match refused with Some r => negb r | None => false end then Ok (false, a) else
  let* released := __stats_release_size a p len in
  let a := count st_total_memory_freed released (count st_dealloc 0 a) in
  let* a := __free_scrub a p len in
  go a.

(** The five overloads of [pop] and [ts_pop], by their arguments *)
Definition pop_chunk (a : arena) (mem : chunk) : res (bool * arena) :=
  if chunk_zero mem then Ok (true, a) else take_back false a (ptr mem) (len mem) (fun a => __vmap_remove a mem).
Definition pop (a : arena) (mem : Z) : res (bool * arena) :=
  if mem =? 0 then Ok (true, a) else take_back false a mem 0 (fun a => __vmap_remove_at a mem).
Definition pop_len (a : arena) (mem len : Z) : res (bool * arena) :=
  if mem =? 0 then Ok (false, a) else take_back true a mem len (fun a => __vmap_remove a (Chunk mem len)).
Definition ts_pop_chunk (a : arena) (mem : chunk) : res (bool * arena) :=
  if chunk_zero mem then Ok (false, a) else take_back false a (ptr mem) (len mem) (fun a => __vmap_tombstone a mem).
Definition ts_pop (a : arena) (mem : Z) : res (bool * arena) :=
  if mem =? 0 then Ok (false, a) else take_back false a mem 0 (fun a => __vmap_tombstone_at a mem).
Definition ts_pop_len (a : arena) (mem len : Z) : res (bool * arena) :=
  if mem =? 0 then Ok (false, a) else take_back true a mem len (fun a => __vmap_tombstone a (Chunk mem len)).

Definition admit_freeze (HasSize : bool) (a : arena) (p len : Z) (go : res (bool * arena)) : res (bool * arena) :=
  let* refused := __free_admit HasSize a p len in
  if match refused with Some r => negb r | None => false end then Ok (false, a) else go.

Definition freeze_chunk (a : arena) (mem : chunk) : res (bool * arena) :=
  if chunk_zero mem then Ok (false, a) else admit_freeze false a (ptr mem) (len mem) (__vmap_freeze a mem).
Definition freeze (a : arena) (mem : Z) : res (bool * arena) :=
  if mem =? 0 then Ok (false, a) else admit_freeze false a mem 0 (__vmap_freeze_at a mem).
Definition freeze_len (a : arena) (mem len : Z) : res (bool * arena) :=
  if mem =? 0 then Ok (false, a) else admit_freeze true a mem len (__vmap_freeze a (Chunk mem len)).

(** ** Frees from other threads *)

(** [__remote_push] by a thread of its own: the queue, then the overflow list *)
Definition __remote_push (a : arena) (p sz : Z) : res (bool * arena) :=
  if negb __default_multithread_safe then Ok (true, a) else
  let* (ok, q) := or_fuel (Mpsc.push 64 (__remote_free a) p sz) in
  if ok : bool then Ok (true, set_remote a q (__remote_ovf a))
  else Ok (true, set_remote a q ((p, sz) :: __remote_ovf a)).

Definition __remote_release (a : arena) (p sz : Z) : res arena :=
  if sz =? __remote_tombstone_size then let* (_, a) := ts_pop a p in Ok a else
  let* refused := if __default_enforce_provenance then __free_admit false a p sz else Ok None in
  if match refused with Some r => negb r | None => false end then Ok a else
  let* released := __stats_release_size a p sz in
  let* a := __free_scrub a p sz in
  let a := count st_total_memory_freed released (count st_dealloc 0 a) in
  let* (_, a) := if negb (sz =? 0) then __vmap_remove a (Chunk p sz) else __vmap_remove_at a p in
  Ok a.

(** [while ( nd != nullptr )] over the detached overflow list *)
Fixpoint release_all (a : arena) (n : Z) (l : list (Z * Z)) : res (Z * arena) :=
  match l with
  | [] => Ok (n, a)
  | (p, sz) :: l => let* a := __remote_release a p sz in release_all a (u32 (n + 1)) l
  end.

(** Nothing the release of a block does touches the queue, so the drain of the
    queue threads the arena beside it. *)
Definition __remote_drain (a : arena) : res (Z * arena) :=
  if negb __default_multithread_safe then Ok (0, a) else
  let '(r, n, q) := Mpsc.drain 64 64 (fun p sz r => let* a := r in __remote_release a p sz) (Ok a) 0 (__remote_free a) in
  let* a := r in
  let l := __remote_ovf a in
  release_all (set_remote a q []) n l.

Definition __maybe_drain (a : arena) : res arena :=
  if negb __default_multithread_safe then Ok a else
  if maybe_nonempty (__remote_free a) || negb (bool_decide (__remote_ovf a = [])) then
    let* (_, a) := __remote_drain a in Ok a
  else Ok a.

(** ** Allocation *)

Definition check_oom (a : arena) : bool * arena :=
  if __default_oom_enable then
    let '(ans, p) := ask (m_process (a_meta a)) in
    (a_pressure ans, set_meta a (set_process (a_meta a) p))
  else (false, a).

(** The size of the sheet to add for a request of the huge tier, and of a bulk one *)
Definition huge_size (a : arena) (alloc_sz : Z) : Z :=
  let base := u64 (__calculate_space_huge alloc_sz * __default_overcommit) in
  let mult := if __class_1mb <=? alloc_sz then 1 else u64 (1 + __count (b_tier (_huge a))) in
  let next_sz := u64 (base * mult) in
  let min_huge := u64 (u64 (Z.shiftl alloc_sz 1) + __class_huge) in
  if next_sz <? min_huge then min_huge else next_sz.
Definition bulk_size (alloc_sz : Z) : Z :=
  let bulk := __calculate_space_bulk alloc_sz in
  let min_bulk := u64 (u64 (Z.shiftl alloc_sz 1) + __class_huge) in
  if bulk <? min_bulk then min_bulk else bulk.

(** The ladder of [push]: the predictor widens every step but the first and the last. *)
Definition push_expand (a : arena) (alloc_sz : Z) : res (bool * arena) :=
  let predicted next_sz :=
    let p := add_request (__predict a) next_sz in
    __buf_expand_exact self head_of (set_predict a p) alloc_sz (predict_size p next_sz) in
  if alloc_sz <=? __class_small then
    __buf_expand_exact self head_of a alloc_sz (__calculate_space_cache __default_cache_step)
  else if alloc_sz <? __class_medium then predicted (u64 (__calculate_space_small alloc_sz * __default_overcommit))
  else if alloc_sz <=? __class_large then predicted (u64 (__calculate_space_medium alloc_sz * __default_overcommit))
  else if alloc_sz <=? __class_huge then predicted (u64 (__calculate_space_large alloc_sz * __default_overcommit))
  else if alloc_sz <? __class_gb then predicted (huge_size a alloc_sz)
  else __buf_expand_exact self head_of a alloc_sz (bulk_size alloc_sz).

(** The ladder of [launder], without the predictor *)
Definition launder_expand (a : arena) (alloc_sz : Z) : res (bool * arena) :=
  let next :=
    if alloc_sz <? __class_medium then u64 (__calculate_space_small alloc_sz * __default_overcommit)
    else if alloc_sz <=? __class_large then u64 (__calculate_space_medium alloc_sz * __default_overcommit)
    else if alloc_sz <=? __class_huge then u64 (__calculate_space_large alloc_sz * __default_overcommit)
    else if alloc_sz <? __class_gb then huge_size a alloc_sz
    else bulk_size alloc_sz in
  __buf_expand_exact self head_of a alloc_sz next.

(** The loop of [push] and [launder], [n] retries left *)
Fixpoint serve_loop (get : arena -> Z -> res (chunk * arena)) (expand : arena -> Z -> res (bool * arena))
    (n : nat) (a : arena) (sz alloc_sz : Z) : res (chunk * arena) :=
  let* (memory, a) := get a alloc_sz in
  if negb (chunk_zero memory) then
    let '(memory, a) := if __rz_active sz then __rz_apply a memory sz else (memory, a) in
    let a := set_user_bytes a (sanitize_on_alloc (zero_on_alloc (a_bytes a) (ptr memory) (len memory)) (ptr memory) (len memory)) in
    let* size := __stats_release_size a (ptr memory) (len memory) in
    Ok (memory, count st_total_memory_throughput size a)
  else
    match n with
    | O => Ok (failed_chunk, a)
    | S n =>
        let* (expanded, a) := expand a alloc_sz in
        if expanded : bool then serve_loop get expand n a sz alloc_sz else Ok (failed_chunk, a)
    end.

Definition serve (get : arena -> Z -> res (chunk * arena)) (expand : arena -> Z -> res (bool * arena))
    (a : arena) (sz : Z) : res (chunk * arena) :=
  let a := count st_total_memory_req sz (count st_alloc 0 a) in
  if check_constraint sz then Abort else
  let '(pressure, a) := check_oom a in
  if pressure : bool then Abort else
  serve_loop get expand (Z.to_nat __default_max_retries) a sz (__rz_inflate sz).

Definition push (a : arena) (sz : Z) : res (chunk * arena) := serve __vmap_alloc push_expand a sz.
Definition launder (a : arena) (sz : Z) : res (chunk * arena) := serve __vmap_launder launder_expand a sz.

Definition __is_sentinel_chunk (c : chunk) : bool := (ptr c =? usize_max) || (ptr c =? 0).

(** [memcpy] on the user bytes *)
Definition copy_bytes (m : zmap) (dst src n : Z) : zmap :=
  foldl (fun m' i => wr m' (dst + i) (rd m (src + i))) m (seqZ 0 n).

(** [resize(ptr, new_sz, preserve_sz)]; 0 is the null pointer. *)
Definition resize_preserve (a : arena) (p new_sz preserve_sz : Z) : res (Z * arena) :=
  let* cached := __is_cached a p in
  if cached : bool then Ok (0, a) else
  let* old_size := __size_of_alloc a p in
  if old_size =? 0 then Ok (0, a) else
  if (new_sz <=? old_size) && (Z.shiftr old_size 1 <? new_sz) then
    let* blk := find_in a p [Precise; Small] in
    Ok (p, if blk then set_user_bytes a (write_redzone (a_bytes a) p new_sz) else a)
  else
    let* (fresh, a) := push a new_sz in
    if __is_sentinel_chunk fresh then Ok (0, a) else
    let copy_size := if old_size <? new_sz then old_size else new_sz in
    let copy_size := if preserve_sz <? copy_size then preserve_sz else copy_size in
    let a := set_user_bytes a (copy_bytes (a_bytes a) (ptr fresh) p copy_size) in
    let* (_, a) := pop a p in
    Ok (ptr fresh, a).
Definition resize (a : arena) (p new_sz : Z) : res (Z * arena) := resize_preserve a p new_sz usize_max.

(** ** Whole sheets *)

Definition reset_fn (idx : Z) : tier_fn bool := fun B C bk fc t b e =>
  let r := entry (__idx (b_tier b)) idx in
  let b := with_cache b (fc_invalidate_range (b_cache b) (lo r) (hi r)) in
  let* (s, sh) := sheet_of b idx in
  let* (sh, p) := release_sheet (m_process e) sh in
  Ok (true, with_sheet b s sh, set_process e p).

(** Every tier is asked, one after the other. *)
Fixpoint reset_in (a : arena) (addr : Z) (ts : list tier_id) : res arena :=
  match ts with
  | [] => Ok a
  | t :: ts =>
      let* idx := or_fuel (find_range (tier_of a t) addr) in
      let* (_, a) := if 0 <=? idx then on_tier t (reset_fn idx) a else Ok (true, a) in
      reset_in a addr ts
  end.

Definition reset_page (a : arena) (p : Z) : res arena :=
  if __default_persistent_mode then let* _ := of_outcome fail_state in Ok a
  else reset_in a p [Precise; Small; Medium; Large; Huge].

Definition usage_fn : tier_fn Z := fun B C bk fc t b e =>
  Ok (Tier.for_each (b_tier b) (fun s => from_option allocated 0 (b_sheets b !! s)), b, e).
Definition usage_of (a : arena) (t : tier_id) : res Z := let* (n, _) := on_tier t usage_fn a in Ok n.

Definition total_usage (a : arena) : res Z :=
  let* n1 := usage_of a Precise in
  let* n2 := usage_of a Small in
  let* n3 := usage_of a Medium in
  let* n4 := usage_of a Large in
  let* n5 := usage_of a Huge in
  Ok (u64 (u64 (u64 (u64 (n1 + n2) + n3) + n4) + n5)).

Definition total_usage_of_class (Sz : Z) (a : arena) : res Z :=
  if Sz =? __class_precise then usage_of a Precise else
  if Sz =? __class_small then usage_of a Small else
  if Sz =? __class_medium then usage_of a Medium else
  if Sz =? __class_large then usage_of a Large else
  if Sz =? __class_huge then usage_of a Huge else Ok 0.

Definition zeroed (a : arena) : bool := Tier.zeroed (head_of Precise) (b_tier (_precise a)).

(** ** Construction and destruction *)

Definition __prealloc_share (Class_ total : Z) : Z :=
  if total =? 0 then __default_magic_size else
  let frac := u64 (total * __weight_for_class Class_ / __class_weight_denom) in
  if negb (frac mod __system_pagesize =? 0)
  then u64 (frac + (__system_pagesize - frac mod __system_pagesize)) else frac.

(** [_arena_memory] is a member, constructed first. *)
Definition first_sheet (p : process) : res (sheet buddy * process) :=
  let sz := u64 (__default_arena_page_buf * __system_pagesize) in
  let bk := buddy_book __class_arena_internal in
  let* (c, p) := if __default_guard_arena_metadata then __get_guarded_kernel_chunk p sz else kernel_chunk p sz in
  if __default_guard_arena_metadata then new_sheet self true p c
  else
    (* the same constructor with an offset of 0 *)
    let '(ans, p) := ask p in
    let* (w, sh) := or_abort (sheet_make_guarded (a_oom ans) (p_world p) self (a_mem ans) c 0) in
    Ok (sh, set_world p w).

Definition no_tier (t : tier_id) (tr : tier) : tier := Tier.init (max_of t) (head_of t) tr.
Definition raw : tier := Tier.Tier ∅ 0 ∅ 0 ∅ 0 0.

Definition init_tier (t : tier_id) (n : Z) (a : arena) : res arena :=
  let* (_, a) := on_tier t (init_fn self head_of n) a in Ok a.

Definition __arena (p : process) : res arena :=
  let* (mem, p) := first_sheet p in
  let blank {B C} (t : tier_id) (c : C) : bucket B C := Bucket (no_tier t raw) ∅ c in
  let cache := Tcache.TierCache.init in
  let a := Arena (Meta p mem (Tier.init __max_sheets_arena_internal internal_head raw) ∅) alloc_predictor_init
    (blank Precise cache) (blank Small cache) (blank Medium cache) (blank Large cache) (blank Huge Tcache.Zero.init)
    (Mpsc.init 64) [] zero_stats ∅ in
  let wants := __default_eager_hot_tiers || negb __default_lazy_construct in
  let prealloc := if wants then prealloc_size else 0 in
  let* e := __init_arena_tier self internal_head (a_meta a) (u64 (__default_arena_page_buf * __system_pagesize)) in
  let* a := init_tier Precise (u64 (__default_cache_size_factor * __class_precise)) (set_meta a e) in
  let* a :=
    if wants then
      let* a := init_tier Small (__saturate_bytes (__prealloc_share __class_small prealloc)) a in
      init_tier Medium (__saturate_bytes (__prealloc_share __class_medium prealloc)) a
    else Ok a in
  if negb __default_lazy_construct && (__default_init_large_pages && negb __is_constrained) then
    let* a := init_tier Large (__saturate_bytes (__prealloc_share __class_large prealloc)) a in
    init_tier Huge (__saturate_bytes (__prealloc_share __class_huge prealloc)) a
  else Ok a.

(** The destructor: [fuel] bounds the lists of nodes. *)
Definition release_fn (fuel : nat) : tier_fn bool := fun B C bk fc t b e =>
  let* (b, p) := __release_tier (head_of t) fuel b (m_process e) in
  Ok (true, b, set_process e p).

Definition arena_destroy (fuel : nat) (a : arena) : res arena :=
  if __default_self_cleanup then
    let* (_, a) := on_tier Precise (release_fn fuel) a in
    let* (_, a) := on_tier Small (release_fn fuel) a in
    let* (_, a) := on_tier Medium (release_fn fuel) a in
    let* (_, a) := on_tier Large (release_fn fuel) a in
    let* (_, a) := on_tier Huge (release_fn fuel) a in
    let e := a_meta a in
    let bk := buddy_book __class_arena_internal in
    let* (b, p) := __release_tier internal_head fuel (Bucket (_arena_tier e) (m_sheets e) tt) (m_process e) in
    let* (mem, p) := release_sheet p (_arena_memory e) in
    Ok (set_meta a (Meta p mem (b_tier b) (b_sheets b)))
  else Ok a.
End ArenaApi.
