(* ===== verification/Client.v ===== *)
(** * What a client holds

    A client has chunks; the allocator has blocks in the hands of clients,
    given as a relation of start, length and temporal mark.  The lemmas keep
    the two together over a request and a free, for a tier and for the arena
    alike. *)

From S2P Require Import Prelude.
From S2P Require Import Config.
From S2P Require Import Book.

(** Blocks in the hands of clients *)
Abbreviation hands := (Z -> Z -> bool -> Prop).

(** The client's chunks are starts of blocks it holds, one chunk for a block. *)
Record owns (H : hands) (L : list chunk) : Prop := {
  ow_once : NoDup (ptr <$> L);
  ow_held c : c ∈ L -> exists n, H (ptr c) n false /\ 0 < len c <= n
}.

(** Two blocks in the hands of clients are apart. *)
Definition parted (H : hands) : Prop := forall p n t q m u, H p n t -> H q m u -> p <> q -> apart p n q m.

Lemma owns_nil H : owns H [].
Proof. split; [by apply NoDup_nil|]. intros c Hc. by apply elem_of_nil in Hc. Qed.

Lemma owns_perm H L L' : owns H L -> L ≡ₚ L' -> owns H L'.
Proof. intros [Hn Hh] HP. split; [by rewrite <- HP|]. intros c Hc. apply Hh. by rewrite HP. Qed.

Lemma owns_same H H' L : owns H L -> (forall p n t, H' p n t <-> H p n t) -> owns H' L.
Proof. intros [Hn Hc] Hs. split; [done|]. intros c Hin. destruct (Hc c Hin) as (n & Hh & Hl). exists n. split; [by apply Hs|done]. Qed.

(** What a client still holds after a free *)
Lemma owns_taken H H' L L' c :
  owns H L -> L ≡ₚ c :: L' -> (forall q m t, H' q m t <-> q <> ptr c /\ H q m t) -> owns H' L'.
Proof.
  intros Ho HP Hh. pose proof (owns_perm _ _ _ Ho HP) as [Hn Hc]. cbn in Hn. apply NoDup_cons in Hn as [Hni Hn].
  split; [done|]. intros d Hd. destruct (Hc d) as (n & Hhd & Hl); [apply elem_of_cons; by right|]. exists n. split; [|done].
  apply Hh. split; [|done]. intros E. apply Hni. rewrite <- E. by apply list_elem_of_fmap_2.
Qed.

(** What a client holds after a request *)
Lemma owns_served H H' L c n :
  owns H L -> 0 < len c <= n -> (forall p m t, H p m t -> apart (ptr c) (len c) p m) ->
  (forall p m t, H' p m t <-> H p m t \/ (p = ptr c /\ m = n /\ t = false)) -> owns H' (c :: L).
Proof.
  intros Ho Hl Ha Hh. split.
  - cbn. apply NoDup_cons. split; [|apply Ho]. intros Hin. apply list_elem_of_fmap in Hin as (d & E & Hd).
    destruct (ow_held _ _ Ho d Hd) as (m & Hm & Hdl). pose proof (Ha _ _ _ Hm) as Hap. unfold apart in Hap. lia.
  - intros d. rewrite elem_of_cons. intros [->|Hd]; [exists n; split; [|done]; apply Hh; by right|].
    destruct (ow_held _ _ Ho d Hd) as (m & Hm & Hdl). exists m. split; [|done]. apply Hh. by left.
Qed.

(** Two chunks of the client do not overlap. *)
Lemma owned_apart H L i j c d :
  parted H -> owns H L -> L !! i = Some c -> L !! j = Some d -> i <> j -> apart (ptr c) (len c) (ptr d) (len d).
Proof.
  intros HP Ho Hc Hd Hij.
  destruct (ow_held _ _ Ho c) as (n & Hn & Hcl); [by eapply list_elem_of_lookup_2|].
  destruct (ow_held _ _ Ho d) as (m & Hm & Hdl); [by eapply list_elem_of_lookup_2|].
  assert (Hne : ptr c <> ptr d).
  { intros E. apply Hij. apply (NoDup_lookup (ptr <$> L) i j (ptr c)); [apply Ho|..]; rewrite list_lookup_fmap, ?Hc, ?Hd; cbn; congruence. }
  pose proof (HP _ _ _ _ _ _ Hn Hm Hne) as Ha. unfold apart in *. lia.
Qed.
