(* ===== verification/BucketInv.v ===== *)
(** * The invariant of a tier at work

    [sheets_ok]: every entry of the index leads through its node to a sheet
    whose bounds the entry repeats and whose book has the grants [gs] of that
    sheet.  [bucket_ok] adds the cache: it holds live grants, each once.  The
    blocks a client holds are the live grants that are not in the cache. *)

From S2P Require Import Prelude.
From S2P Require Import Intrusive.
From S2P Require Import Config.
From S2P Require Import Tcache.
From S2P Require Import Book.
From S2P Require Import Sheet.
From S2P Require Import SheetProps.
From S2P Require Import Tier.
From S2P Require Import Kernel.
From S2P Require Import Meta.
From S2P Require Import Bucket.

(** ** The cache as a bag *)

Class FreeCacheLaws (C : Type) `{FreeCache C} := {
  fc_wf : C -> Prop;
  fc_bag : C -> list tchunk;
  fc_pushed c p sz : fc_wf c ->
    let '(ok, c') := fc_push c p sz in
    if ok : bool then fc_wf c' /\ fc_bag c' ≡ₚ TChunk p sz :: fc_bag c else c' = c;
  fc_probed (ge : bool) c sz : fc_wf c ->
    let hit := if ge then fc_probe_ge c sz else fc_probe c sz in
    (hit < 0 /\ forall x, x ∈ fc_bag c -> if ge then tsize x < sz else tsize x <> sz) \/
    (hit = u32 hit /\ let '(x, c') := fc_pop_at c hit in
     sz <= tsize x /\ fc_wf c' /\ fc_bag c ≡ₚ x :: fc_bag c');
  fc_contained c p : fc_wf c -> fc_contains c p = true <-> exists x, x ∈ fc_bag c /\ tptr x = p
}.

Lemma linear_cache_probed Slots (ge : bool) t sz :
  Tcache.TierCache.wf Slots t ->
  let hit := if ge then Tcache.TierCache.probe_ge t sz else Tcache.TierCache.probe t sz in
  (hit < 0 /\ forall x, x ∈ Tcache.TierCache.bag t -> if ge then tsize x < sz else tsize x <> sz) \/
  (hit = u32 hit /\ let '(x, t') := Tcache.TierCache.pop_at t hit in
   sz <= tsize x /\ Tcache.TierCache.wf Slots t' /\ Tcache.TierCache.bag t ≡ₚ x :: Tcache.TierCache.bag t').
Proof.
  intros HW hit.
  assert (Hhit : (hit = -1 /\ forall x, x ∈ Tcache.TierCache.bag t -> if ge then tsize x < sz else tsize x <> sz) \/ (0 <= hit < Tcache.TierCache._count t /\ sz <= rd (Tcache.TierCache._size t) hit)).
  { subst hit. destruct ge.
    - destruct (Tcache.TierCache.probe_ge_spec Slots t sz HW) as [[-> Hx]|[Hi H]];
        [left; split; [reflexivity|exact (Tcache.TierCache.bag_sizes t (fun x => x < sz) Hx)]|right]. intuition lia.
    - destruct (Tcache.TierCache.probe_spec Slots t sz HW) as [[-> Hx]|[Hi H]];
        [left; split; [reflexivity|exact (Tcache.TierCache.bag_sizes t (fun x => x <> sz) Hx)]|right]. intuition lia. }
  destruct Hhit as [[-> Hx]|[Hi Hs]]; [left; split; [lia|done]|right]. destruct HW as [Hc HS] eqn:EW. split; [rewrite u32_small; lia|].
  pose proof (Tcache.TierCache.pop_at_spec Slots t hit HW Hi) as Hp. destruct (Tcache.TierCache.pop_at t hit) as [x t'].
  destruct Hp as (-> & ? & ?). by split_and!.
Qed.

#[export] Instance linear_cache_laws Slots : @FreeCacheLaws _ (linear_cache Slots).
Proof.
  unshelve esplit; [exact (Tcache.TierCache.wf Slots)|exact Tcache.TierCache.bag|..].
  - intros c p sz HW. cbn. destruct (Tcache.TierCache.push_spec Slots c p sz HW) as [[_ ->]|(t' & -> & HW' & ->)]; [done|].
    split; [done|]. symmetry. apply Permutation_cons_append.
  - intros ge c sz HW. by apply (linear_cache_probed Slots ge).
  - intros c p HW. by apply (Tcache.TierCache.contains_spec Slots).
Defined.

#[export] Instance no_cache_laws : @FreeCacheLaws _ no_cache.
Proof.
  unshelve esplit; [exact (fun _ => True)|exact (fun _ => [])|done| |].
  - intros [] c sz _; left; (split; [reflexivity|]); intros x Hx; by apply elem_of_nil in Hx.
  - intros c p _. cbn. split; [done|]. intros (x & Hx & _). by apply elem_of_nil in Hx.
Defined.

(** ** Sheets behind an index *)

Section SheetsOk.
Context {B : Type} `{CL : ChunkLaws} `{BK : !Book B} `{BL : !BookLaws B}.
Context (MaxSheets : Z) (HM : 0 < MaxSheets).

(** The object address of the sheet at an index *)
Definition object (t : tier) (i : Z) : Z := rd (links t) (nd (entry (__idx t) i) + 0).

Record sheets_ok (t : tier) (shs : gmap Z (sheet B)) (gs : Z -> grants) : Prop := {
  ok_tier : Tier.inv MaxSheets t;
  ok_at i : 0 <= i < __count t ->
    exists sh, node_sheet t shs (nd (entry (__idx t) i)) = Some sh /\ sheet_ok sh (gs (object t i)) /\
      lo (entry (__idx t) i) = addr sh /\ hi (entry (__idx t) i) = addr_end sh
}.

(** The grants of all the sheets *)
Definition grant (t : tier) (gs : Z -> grants) (p n : Z) (u : use) : Prop :=
  exists i, 0 <= i < __count t /\ gs (object t i) !! p = Some (n, u).

Lemma node_sheet_object (t : tier) (shs : gmap Z (sheet B)) i sh :
  node_sheet t shs (nd (entry (__idx t) i)) = Some sh ->
  nd (entry (__idx t) i) <> 0 /\ shs !! object t i = Some sh.
Proof. unfold node_sheet, object. by destruct (Z.eqb_spec (nd (entry (__idx t) i)) 0). Qed.

(** A grant lies between the bounds its entry shows. *)
Lemma grant_range t shs gs i p n u :
  sheets_ok t shs gs -> 0 <= i < __count t -> gs (object t i) !! p = Some (n, u) ->
  lo (entry (__idx t) i) <= p /\ p + n <= hi (entry (__idx t) i) /\ 0 < n.
Proof.
  intros HO Hi Hp. destruct (ok_at _ _ _ HO i Hi) as (sh & _ & [He Hr Hl Hh] & -> & ->).
  destruct (bk_grant _ _ _ _ _ Hr Hp) as (? & ? & ? & _). lia.
Qed.

(** Different entries lead to different objects. *)
Lemma object_inj t shs gs i j :
  sheets_ok t shs gs -> 0 <= i < __count t -> 0 <= j < __count t -> object t i = object t j -> i = j.
Proof.
  intros HO Hi Hj E. destruct (ok_at _ _ _ HO i Hi) as (sh & Hs & _ & El & Eh).
  destruct (ok_at _ _ _ HO j Hj) as (sh' & Hs' & _ & El' & Eh').
  apply node_sheet_object in Hs as [_ Hs]. apply node_sheet_object in Hs' as [_ Hs'].
  rewrite E, Hs' in Hs. injection Hs as <-. pose proof (ok_tier _ _ _ HO) as HT.
  pose proof (i_proper _ _ HT i Hi). pose proof (i_proper _ _ HT j Hj).
  destruct (Z.lt_trichotomy i j) as [Hlt|[|Hlt]]; [|done|].
  - pose proof (i_sorted _ _ HT i j ltac:(lia) Hlt ltac:(lia)). lia.
  - pose proof (i_sorted _ _ HT j i ltac:(lia) Hlt ltac:(lia)). lia.
Qed.

(** What starts in the range of an entry can only be granted by its sheet. *)
Lemma entry_disjoint t i j p :
  Tier.inv MaxSheets t -> 0 <= i < __count t -> 0 <= j < __count t ->
  lo (entry (__idx t) i) <= p < hi (entry (__idx t) i) -> lo (entry (__idx t) j) <= p < hi (entry (__idx t) j) -> i = j.
Proof.
  intros HT Hi Hj Hp Hq. destruct (Z.lt_trichotomy i j) as [Hlt|[|Hlt]]; [|done|].
  - pose proof (i_sorted _ _ HT i j ltac:(lia) Hlt ltac:(lia)). lia.
  - pose proof (i_sorted _ _ HT j i ltac:(lia) Hlt ltac:(lia)). lia.
Qed.

Lemma grant_here t shs gs i p n u :
  sheets_ok t shs gs -> 0 <= i < __count t -> lo (entry (__idx t) i) <= p < hi (entry (__idx t) i) ->
  grant t gs p n u -> gs (object t i) !! p = Some (n, u).
Proof.
  intros HO Hi Hp (j & Hj & Hg). pose proof (grant_range _ _ _ _ _ _ _ HO Hj Hg).
  by rewrite (entry_disjoint t i j p (ok_tier _ _ _ HO) Hi Hj Hp) by lia.
Qed.

Lemma grant_inj t shs gs p n u m v : sheets_ok t shs gs -> grant t gs p n u -> grant t gs p m v -> n = m /\ u = v.
Proof.
  intros HO (i & Hi & Hg) Hg'. pose proof (grant_range _ _ _ _ _ _ _ HO Hi Hg).
  pose proof (grant_here _ _ _ i p m v HO Hi ltac:(lia) Hg'). split; congruence.
Qed.

(** Two grants do not overlap. *)
Lemma grant_apart t shs gs p n u q m v :
  sheets_ok t shs gs -> grant t gs p n u -> grant t gs q m v -> p <> q -> apart p n q m.
Proof.
  intros HO (i & Hi & Hp) (j & Hj & Hq) Hne. destruct (Z.eq_dec i j) as [<-|Hij].
  - destruct (ok_at _ _ _ HO i Hi) as (sh & _ & Hok & _). by eapply bk_apart; [apply Hok|..].
  - pose proof (grant_range _ _ _ _ _ _ _ HO Hi Hp) as (H1 & H2 & H3).
    pose proof (grant_range _ _ _ _ _ _ _ HO Hj Hq) as (H4 & H5 & H6). pose proof (ok_tier _ _ _ HO) as HT.
    unfold apart. destruct (Z.lt_trichotomy i j) as [Hlt|[|Hlt]]; [left|done|right].
    + pose proof (i_sorted _ _ HT i j ltac:(lia) Hlt ltac:(lia)). lia.
    + pose proof (i_sorted _ _ HT j i ltac:(lia) Hlt ltac:(lia)). lia.
Qed.

(** ** Changing one sheet *)

Definition put_grants (gs : Z -> grants) (a : Z) (L : grants) : Z -> grants := fun x => if x =? a then L else gs x.

(** A tier that differs in mask, hint or counter only *)
Definition same_index (t t' : tier) : Prop :=
  (links t' = links t /\ Tier.tail t' = Tier.tail t) /\ __idx t' = __idx t /\ __count t' = __count t.

Lemma same_object t t' i : same_index t t' -> object t' i = object t i.
Proof. intros ((E1 & _) & E2 & _). unfold object. by rewrite E1, E2. Qed.

Lemma sheets_ok_tier t t' shs gs : sheets_ok t shs gs -> same_index t t' -> Tier.inv MaxSheets t' -> sheets_ok t' shs gs.
Proof.
  intros [HT Hat] HS HT'. split; [done|]. intros i Hi. pose proof HS as ((E1 & _) & E2 & E3). rewrite E3 in Hi.
  rewrite (same_object t t' i HS). destruct (Hat i Hi) as (sh & Hn & Hrest). exists sh.
  unfold node_sheet in *. by rewrite E1, E2.
Qed.

Lemma grant_tier t t' gs p n u : same_index t t' -> grant t' gs p n u <-> grant t gs p n u.
Proof.
  intros HS. pose proof HS as (_ & _ & E). unfold grant. rewrite E.
  split; intros (i & Hi & Hg); exists i; rewrite (same_object t t' i HS) in *; done.
Qed.

Lemma sheets_ok_put t shs gs i sh sh' L' :
  sheets_ok t shs gs -> 0 <= i < __count t -> node_sheet t shs (nd (entry (__idx t) i)) = Some sh ->
  sheet_ok sh' L' -> __kernel_memory sh' = __kernel_memory sh -> __guard_offset sh' = __guard_offset sh ->
  sheets_ok t (<[object t i := sh']> shs) (put_grants gs (object t i) L').
Proof.
  intros HO Hi Hn Hok Em Eg. pose proof HO as [HT Hat]. split; [done|]. intros j Hj.
  destruct (Z.eq_dec j i) as [->|Hne].
  - exists sh'. destruct (Hat i Hi) as (sh0 & Hn0 & _ & El & Eh). rewrite Hn in Hn0. injection Hn0 as <-.
    destruct (node_sheet_object _ _ _ _ Hn) as [Hz _]. split_and!.
    + unfold node_sheet. rewrite (proj2 (Z.eqb_neq _ _) Hz). by rewrite lookup_insert_eq.
    + unfold put_grants. by rewrite Z.eqb_refl.
    + rewrite El. unfold addr. by rewrite Em.
    + rewrite Eh. unfold addr_end. by rewrite Em, Eg.
  - destruct (Hat j Hj) as (sh0 & Hn0 & Hok0 & El & Eh).
    assert (Ho : object t j <> object t i) by (intros E; by apply Hne, (object_inj t shs gs)).
    exists sh0. destruct (node_sheet_object _ _ _ _ Hn0) as [Hz Hs]. split_and!; try done.
    + unfold node_sheet. rewrite (proj2 (Z.eqb_neq _ _) Hz). fold (object t j). by rewrite lookup_insert_ne by congruence.
    + unfold put_grants. by rewrite (proj2 (Z.eqb_neq _ _) Ho).
Qed.

(** The grants after sheet [i] got the grants [L'] *)
Lemma grant_put t shs gs i L' p n u :
  sheets_ok t shs gs -> 0 <= i < __count t ->
  grant t (put_grants gs (object t i) L') p n u <->
  L' !! p = Some (n, u) \/ (exists j, 0 <= j < __count t /\ j <> i /\ gs (object t j) !! p = Some (n, u)).
Proof.
  intros HO Hi. unfold grant, put_grants. split.
  - intros (j & Hj & Hg). destruct (Z.eqb_spec (object t j) (object t i)) as [E|E]; [by left|right].
    exists j. split_and!; [lia|lia|by intros ->|done].
  - intros [Hg|(j & Hj & Hne & Hg)].
    + exists i. by rewrite Z.eqb_refl.
    + exists j. destruct (Z.eqb_spec (object t j) (object t i)) as [E|E]; [|done].
      by apply (object_inj _ _ _ _ _ HO) in E.
Qed.

(** Changing the grant at one address of sheet [i] *)
Lemma grant_update t shs gs i L' a p n u :
  sheets_ok t shs gs -> 0 <= i < __count t -> lo (entry (__idx t) i) <= a < hi (entry (__idx t) i) ->
  (forall q, q <> a -> L' !! q = gs (object t i) !! q) ->
  grant t (put_grants gs (object t i) L') p n u <->
  if p =? a then L' !! a = Some (n, u) else grant t gs p n u.
Proof.
  intros HO Hi Ha HL. rewrite (grant_put _ _ _ _ _ _ _ _ HO Hi). destruct (Z.eqb_spec p a) as [->|Hne].
  - split; [|by left]. intros [|(j & Hj & Hji & Hg)]; [done|].
    pose proof (grant_range _ _ _ _ _ _ _ HO Hj Hg). exfalso. apply Hji.
    apply (entry_disjoint t j i a (ok_tier _ _ _ HO)); try done; lia.
  - rewrite HL by done. split.
    + intros [Hg|(j & Hj & _ & Hg)]; [by exists i|by exists j].
    + intros (j & Hj & Hg). destruct (Z.eq_dec j i) as [->|]; [by left|right; by exists j].
Qed.

(** ** The list of nodes *)

Definition node_in (t : tier) (n : Z) : Prop := exists i, 0 <= i < __count t /\ nd (entry (__idx t) i) = n.

(** The nodes of the entries are 24 bytes each, apart, and linked to a list of
    which [tail] is the last. *)
Record nodes_ok (t : tier) : Prop := {
  no_list : exists h, dlist (links t) 16 8 h (node_in t);
  no_apart i j : 0 <= i < __count t -> 0 <= j < __count t -> i <> j ->
    nd (entry (__idx t) i) + 24 <= nd (entry (__idx t) j) \/ nd (entry (__idx t) j) + 24 <= nd (entry (__idx t) i);
  no_tail : ((forall n, ~ node_in t n) /\ Tier.tail t = 0) \/ (node_in t (Tier.tail t) /\ rd (links t) (Tier.tail t + 16) = 0)
}.

Lemma nodes_apart t x y : nodes_ok t -> node_in t x -> node_in t y -> x = y \/ x + 24 <= y \/ y + 24 <= x.
Proof.
  intros HN (i & Hi & <-) (j & Hj & <-). destruct (Z.eq_dec i j) as [->|Hne]; [by left|right].
  by apply (no_apart _ HN).
Qed.

Lemma nodes_ok_same t t' : nodes_ok t -> same_index t t' -> nodes_ok t'.
Proof. intros [[h Hl] Ha Ht] ((E1 & E4) & E2 & E3). split; unfold node_in in *; rewrite ?E1, ?E2, ?E3, ?E4; [by exists h|done|done]. Qed.

(** Unlinking a node leaves what the other nodes hold alone and takes it out of
    the list. *)
Lemma unlink_node_spec t n :
  nodes_ok t -> node_in t n ->
  (forall x, node_in t x -> rd (links (unlink_node t n)) (x + 0) = rd (links t) (x + 0)) /\
  (exists h, dlist (links (unlink_node t n)) 16 8 h (fun x => node_in t x /\ x <> n)) /\
  (((forall x, node_in t x -> x = n) /\ Tier.tail (unlink_node t n) = 0) \/
   (node_in t (Tier.tail (unlink_node t n)) /\ Tier.tail (unlink_node t n) <> n /\
    rd (links (unlink_node t n)) (Tier.tail (unlink_node t n) + 16) = 0)).
Proof.
  intros HN Hn. destruct (no_list _ HN) as [h Hl]. destruct (dlist_inner 16 8 _ _ _ _ Hl Hn) as (Hz & Hp & Hq).
  set (m := links t) in *. set (p := rd m (n + 8)) in *. set (q := rd m (n + 16)) in *.
  set (m1 := if p =? 0 then m else wr m (p + 16) q). set (m2 := if q =? 0 then m1 else wr m1 (q + 8) p).
  assert (Hap : forall x y, node_in t x -> node_in t y -> x = y \/ x + 24 <= y \/ y + 24 <= x) by (intros x y; by apply (nodes_apart t)).
  assert (E1 : rd m1 (n + 8) = p /\ rd m1 (n + 16) = q).
  { subst m1. destruct (Z.eqb_spec p 0) as [|Hp0]; [done|]. destruct (Hp Hp0) as (_ & Hnp & Hpn & _).
    pose proof (Hap _ _ Hnp Hn). rewrite !rd_wr_ne by lia. done. }
  assert (Em : links (unlink_node t n) = m2).
  { unfold unlink_node. cbn [links set_links]. fold m p q. fold m1. destruct E1 as [-> ->]. done. }
  assert (Et : Tier.tail (unlink_node t n) = if n =? Tier.tail t then rd m2 (n + 8) else Tier.tail t).
  { unfold unlink_node in Em |- *. cbn [links Tier.tail set_links] in Em |- *. by rewrite Em. }
  rewrite Em, Et. clear Em Et.
  assert (Hrd : forall x, node_in t x -> rd m2 (x + 0) = rd m (x + 0) /\
    (x <> p -> rd m2 (x + 16) = rd m (x + 16)) /\ (x <> q -> rd m2 (x + 8) = rd m (x + 8))).
  { intros x Hx. subst m2 m1. destruct (Z.eqb_spec p 0) as [|Hp0], (Z.eqb_spec q 0) as [|Hq0]; try done;
      try destruct (Hp Hp0) as (_ & Hnp & _); try destruct (Hq Hq0) as (Hnq & _);
      try pose proof (Hap _ _ Hx Hnp); try pose proof (Hap _ _ Hx Hnq);
      split_and!; intros; rewrite ?rd_wr_ne by lia; done. }
  assert (Hpq : p <> 0 -> rd m2 (p + 16) = q).
  { intros Hp0. destruct (Hp Hp0) as (_ & Hnp & _). subst m2 m1. rewrite (proj2 (Z.eqb_neq p 0) Hp0).
    destruct (Z.eqb_spec q 0) as [|Hq0]; [by rewrite rd_wr_eq|]. destruct (Hq Hq0) as (Hnq & _ & _).
    pose proof (Hap _ _ Hnp Hnq). rewrite rd_wr_ne by lia. by rewrite rd_wr_eq. }
  split; [intros x Hx; by apply Hrd|]. split; [eexists; apply (dlist_remove 16 8 m m2 h (node_in t) n Hl Hn); fold p q|].
  - done.
  - intros Hq0. subst m2. rewrite (proj2 (Z.eqb_neq q 0) Hq0). by rewrite rd_wr_eq.
  - intros x Hx _ Hxp. by apply Hrd.
  - intros x Hx _ Hxq. by apply Hrd.
  - pose proof (dlist_nonzero _ _ _ _ _ _ Hl Hn) as Hn0. destruct (no_tail _ HN) as [[Hno _]|[Ht Ht0]]; [by destruct (Hno n)|].
    destruct (Z.eqb_spec n (Tier.tail t)) as [E|Hnt].
    + assert (Eq : q = 0) by (subst q; by rewrite E). assert (E8 : rd m2 (n + 8) = p) by (subst m2; rewrite Eq; apply E1). rewrite E8.
      destruct (Z.eq_dec p 0) as [Ep|Hp0]; [left; split; [|done]|right; destruct (Hp Hp0) as (_ & Hnp & Hpn & _); by rewrite Hpq].
      intros x Hx. destruct Hl as (l & Hc & _ & _ & HP). rewrite (Hz Ep) in Hc.
      destruct (chain_cons _ _ _ _ Hc Hn0) as (l' & -> & Hc'). fold m q in Hc'. rewrite Eq in Hc'. apply chain_nil in Hc' as ->.
      apply HP in Hx. by apply list_elem_of_singleton in Hx.
    + right. split_and!; [done|done|]. destruct (Hrd _ Ht) as (_ & -> & _); [done|]. intros Ep.
      destruct (Hp ltac:(rewrite <- Ep; by eapply dlist_nonzero)) as (_ & _ & _ & E). fold m in Ht0. congruence.
Qed.

(** ** Removing a sheet *)

(** Where entry [j] was before entry [pos] was removed *)
Definition before (pos j : Z) : Z := if j <? pos then j else j + 1.

(** Taking the node of entry [pos] out of list and index, and its sheet out of
    the store *)
Lemma remove_entry t shs gs pos :
  sheets_ok t shs gs -> nodes_ok t -> 0 <= pos < __count t ->
  let n := nd (entry (__idx t) pos) in
  let t' := unregister MaxSheets (unlink_node t n) pos in
  sheets_ok t' (delete (object t pos) shs) gs /\ nodes_ok t' /\ __count t' = __count t - 1 /\
  (forall j, 0 <= j < __count t' -> entry (__idx t') j = entry (__idx t) (before pos j) /\
     node_sheet t' (delete (object t pos) shs) (nd (entry (__idx t') j)) = node_sheet t shs (nd (entry (__idx t) (before pos j))) /\
     object t' j = object t (before pos j)) /\
  (forall p k u, grant t' gs p k u <-> exists j, 0 <= j < __count t /\ j <> pos /\ gs (object t j) !! p = Some (k, u)).
Proof using HM.
  intros HO HN Hp n t'. pose proof (ok_tier _ _ _ HO) as HT.
  assert (Hn : node_in t n) by (by exists pos). destruct (unlink_node_spec t n HN Hn) as (Hrd & [h Hl] & Htl).
  set (t1 := unlink_node t n) in *. assert (HT1 : Tier.inv MaxSheets t1) by (by destruct HT).
  assert (Hi1 : __idx t1 = __idx t /\ __count t1 = __count t) by done. destruct Hi1 as [Ei Ec].
  assert (Htl' : Tier.tail t' = Tier.tail t1) by (subst t'; unfold unregister; by case_match).
  pose proof (unregister_removed MaxSheets HM t1 pos HT1 ltac:(lia)) as HR. fold t' in HR.
  pose proof (removed_inv MaxSheets HM t1 t' pos HT1 ltac:(lia) HR) as HT'. destruct HR as [Hcnt Hlk Hent _ _ _].
  rewrite Ec, ?Ei in *.
  assert (Hent' : forall j, 0 <= j < __count t' -> entry (__idx t') j = entry (__idx t) (before pos j)).
  { intros j Hj. rewrite Hent by lia. unfold before. by destruct (j <? pos). }
  assert (Hbef : forall j, 0 <= j < __count t' -> 0 <= before pos j < __count t /\ before pos j <> pos).
  { intros j Hj. unfold before. case_g. }
  assert (Hobj : forall j, 0 <= j < __count t' -> object t' j = object t (before pos j)).
  { intros j Hj. unfold object. rewrite Hlk, Hent' by done. apply Hrd. exists (before pos j). by split; [apply Hbef|]. }
  assert (Hback : forall j, 0 <= j < __count t -> j <> pos -> exists j', 0 <= j' < __count t' /\ before pos j' = j).
  { intros j Hj Hne. exists (if j <? pos then j else j - 1). unfold before. repeat case_g. }
  assert (Hsh : forall j, 0 <= j < __count t' ->
    node_sheet t' (delete (object t pos) shs) (nd (entry (__idx t') j)) = node_sheet t shs (nd (entry (__idx t) (before pos j)))).
  { intros j Hj. destruct (Hbef j Hj) as [Hb Hne]. rewrite Hent' by done.
    destruct (ok_at _ _ _ HO _ Hb) as (sh & Hns & _). rewrite Hns.
    destruct (node_sheet_object _ _ _ _ Hns) as [Hz Hs]. unfold node_sheet. rewrite (proj2 (Z.eqb_neq _ _) Hz), Hlk.
    rewrite Hrd by (by exists (before pos j)). fold (object t (before pos j)). rewrite lookup_delete_ne; [done|].
    intros E. apply Hne. symmetry. by apply (object_inj t shs gs). }
  split_and!; try done.
  - split; [done|]. intros j Hj. rewrite Hobj, Hsh, Hent' by done. destruct (Hbef j Hj) as [Hb _]. by apply (ok_at _ _ _ HO).
  - split.
    + exists h. rewrite Hlk. apply (dlist_frame 16 8 _ _ _ _ _ Hl); [|done]. intros x. split.
      * intros [(j & Hj & <-) Hx]. destruct (Hback j Hj) as (j' & Hj' & <-); [intros ->; by apply Hx|].
        exists j'. by rewrite Hent'.
      * intros (j & Hj & <-). rewrite Hent' by done. destruct (Hbef j Hj) as [Hb Hne]. split; [by exists (before pos j)|].
        subst n. pose proof (no_apart _ HN _ _ Hb Hp Hne). lia.
    + intros i j Hi Hj Hij. rewrite !Hent' by done. apply (no_apart _ HN); try apply Hbef; try done.
      unfold before. repeat case_g.
    + rewrite Htl', Hlk. destruct Htl as [[Hall E0]|(Ht & Htn & E0)]; [left|right].
      * split; [|done]. intros m (j & Hj & _). destruct (Hbef j Hj) as [Hb Hne].
        pose proof (no_apart _ HN _ _ Hb Hp Hne) as Ha. rewrite (Hall (nd (entry (__idx t) (before pos j)))) in Ha by (by exists (before pos j)). subst n. lia.
      * split; [|done]. destruct Ht as (j & Hj & Ej). destruct (Hback j Hj) as (j' & Hj' & Eb); [intros ->; by apply Htn|].
        exists j'. by rewrite Hent', Eb.
  - intros j Hj. by rewrite Hsh, Hent', Hobj.
  - intros p k u. split.
    + intros (j & Hj & Hg). rewrite Hobj in Hg by done. exists (before pos j). split_and!; try done; by apply Hbef.
    + intros (j & Hj & Hne & Hg). destruct (Hback j Hj Hne) as (j' & Hj' & <-). exists j'. by rewrite Hobj.
Qed.

(** The search finds the entry around an address. *)
Lemma find_range_at t i a :
  Tier.inv MaxSheets t -> 0 <= i < __count t -> lo (entry (__idx t) i) <= a < hi (entry (__idx t) i) ->
  find_range t a = Some i.
Proof.
  intros HT Hi Ha. pose proof HT as [Hc Hs Hpr _ _ _].
  destruct (find_loop_spec (__idx t) (__count t) a (S (Z.to_nat (__count t))) 0 (__count t - 1)) as (r & E & Hr);
    try done; try lia. unfold find_range. rewrite E. f_equal. destruct Hr as [[_ Hno]|[Hr Hcov]].
  - by destruct (Hno i Hi).
  - by apply (entry_disjoint t r i a HT).
Qed.
End SheetsOk.
