(* ===== verification/Ground.v ===== *)
(** * The ground under the sheets

    Every sheet stands on a run of granules of the address-space reservation.
    [grounded] lists the runs under the sheets of a tier; [va_ok] says that
    the runs listed are in use and apart.  Releasing a sheet gives its run back
    and leaves the others as they are. *)

From S2P Require Import Prelude.
From S2P Require Import Config.
From S2P Require Import VaReserve.
From S2P Require Import Owner.
From S2P Require Import Hooks.
From S2P Require Import Book.
From S2P Require Import Sheet.
From S2P Require Import SheetProps.
From S2P Require Import Tier.
From S2P Require Import Kernel.
From S2P Require Import Meta.
From S2P Require Import BucketInv.

(** A run: its offset in the reservation and its length in granules *)
Abbreviation run := (Z * Z)%type.

(** The reservation is at [base], with room above it in the address space. *)
Record va_ok (base : Z) (s : va) (live : list run) : Prop := {
  va_inv : VaReserve.inv s live;
  va_at : va_base s = base;
  va_room : 0 < base /\ base + __va_reservation_size + 2 ^ 42 < 2 ^ 64
}.

Definition va_of (p : process) : va := w_va (p_world p).

Lemma va_ok_perm base s l l' : va_ok base s l -> l ≡ₚ l' -> va_ok base s l'.
Proof.
  intros [HI Hb Hr] HP. split; [|done|done]. destruct HI as [H1 H2 H3 H4 H5].
  assert (HC : cover (l ++ runs s) ≡ₚ cover (l' ++ runs s)) by (apply cover_perm; by rewrite HP). split; try done.
  - by rewrite <- HC.
  - intros g. rewrite <- HC. apply H2.
  - intros r. rewrite <- HP. apply H3.
Qed.

(** The chunk [km] is the run [r], with a guard page at its end or without. *)
Definition on_run (base : Z) (km : chunk) (guard : Z) (r : run) : Prop :=
  ptr km = base + r.1 /\ len km = r.2 * 2097152 /\ (guard = 0 \/ guard = __system_pagesize).

Lemma run_bounds base s live r :
  va_ok base s live -> r ∈ live -> 0 <= r.1 /\ 1 <= r.2 /\ r.1 + r.2 * 2097152 <= __va_reservation_size.
Proof.
  intros [HI _ _] Hr. destruct r as [off g]. destruct (live_in_range s live off g HI Hr) as [H0 H1].
  destruct (v_run _ _ HI (off, g) ltac:(set_solver)) as [_ Hg]. pose proof (v_off _ _ HI) as [_ Ho]. cbn in *. lia.
Qed.

(** Different places in the list are different runs, and apart. *)
Lemma runs_apart base s live r r' : va_ok base s (r :: r' :: live) -> r.1 + r.2 * 2097152 <= r'.1 \/ r'.1 + r'.2 * 2097152 <= r.1.
Proof.
  intros [HI _ _]. destruct r as [off g], r' as [off' g']. cbn. apply (live_apart s (( off', g') :: live) off g HI). set_solver.
Qed.

(** What a sheet shows of its memory *)
Lemma on_run_bounds {B} base s live (sh : sheet B) r :
  va_ok base s live -> r ∈ live -> on_run base (__kernel_memory sh) (__guard_offset sh) r ->
  addr sh = base + r.1 /\ base + r.1 < addr_end sh <= base + r.1 + r.2 * 2097152.
Proof.
  intros HV Hr (Ep & El & Hg). destruct (run_bounds _ _ _ _ HV Hr) as (H0 & H1 & H2).
  destruct (va_room _ _ _ HV) as [H3 H4]. change __va_reservation_size with (2 ^ 38) in *. unfold addr, addr_end. rewrite Ep, El.
  assert (0 <= __guard_offset sh <= 4096) by (unfold __system_pagesize in Hg; lia). rewrite u64_small by lia. split; [done|lia].
Qed.

(** ** Releasing *)

Section Release.
Context {B : Type} `{CL : ChunkLaws} `{BK : !Book B} `{PL : Platform}.

Lemma granules_exact g : 1 <= g -> g * 2097152 <= __va_reservation_size -> granules_of (g * 2097152) = g /\ round_up (g * 2097152) = g * 2097152.
Proof.
  intros Hg Hr. destruct (round_up_spec (g * 2097152)) as (_ & Hb & E & _); [lia|].
  assert (granules_of (g * 2097152) = g) by lia. lia.
Qed.

(** Releasing the sheet on a run succeeds without the kernel's help. *)
Lemma release_grounded base p (sh : sheet B) r live :
  va_ok base (va_of p) (r :: live) -> on_run base (__kernel_memory sh) (__guard_offset sh) r ->
  exists sh' p', release_sheet p sh = Ok (sh', p') /\ va_ok base (va_of p') live.
Proof.
  intros HV (Ep & El & _). pose proof HV as [HI Hb [Hb0 Hb1]]. change __va_reservation_size with (2 ^ 38) in Hb1.
  destruct (run_bounds _ _ _ r HV ltac:(set_solver)) as (H0 & H1 & H2). change __va_reservation_size with (2 ^ 38) in H2.
  destruct r as [off g]. cbn [fst snd] in *. destruct (granules_exact g H1) as [Eg _]; [change __va_reservation_size with (2 ^ 38); lia|].
  unfold release_sheet, ask, __impl_release. cbn [p_world]. change (w_va (p_world p)) with (va_of p).
  destruct (__kernel_memory sh) as [q n]. cbn [ptr len] in Ep, El. subst q n.
  rewrite chunk_valid_not_zero by (cbn; unfold usize_max; lia). cbn [negb]. unfold __release_kernel_chunk. cbn [ptr len].
  assert (Hc : __va_contains (va_of p) (base + off) = true).
  { unfold __va_contains. rewrite Hb, (proj2 (Z.eqb_neq base 0)) by lia. apply andb_true_iff. rewrite Z.leb_le, Z.ltb_lt.
    change __va_reservation_size with (2 ^ 38). lia. }
  rewrite Hc. cbn [or_abort bind]. eexists _, _. split; [done|]. unfold va_of at 1. cbn [p_world set_world w_va].
  rewrite <- Hb. split.
  - apply (release_spec (va_of p) live off (g * 2097152)); [by rewrite Eg|split_and!; [lia| |done]|lia|].
    + change __va_reservation_size with (2 ^ 38). lia.
    + change __va_reservation_size with (2 ^ 38). lia.
  - unfold __va_release. repeat (case_match; try done).
  - change __va_reservation_size with (2 ^ 38). lia.
Qed.
End Release.

(** ** Taking a run *)

(** The direct mapping behind the reservation is refused. *)
Class Reserved `{Platform} := no_mapping i : a_map (kernel i) = None.

Section Taking.
Context `{PL : Platform} `{RS : !Reserved}.

(** More than the reservation holds is never carved from it. *)
Lemma carve_large os ok1 ok2 s live sz :
  VaReserve.inv s live -> 0 < va_base s -> __va_reservation_size < sz < 2 ^ 52 -> exists s', __va_carve os ok1 ok2 s sz = (0, s').
Proof.
  intros HI Hb Hsz. change __va_reservation_size with (2 ^ 38) in Hsz. destruct (round_up_any sz) as (_ & Hr & Er & Hg); [lia|].
  pose proof (v_off _ _ HI) as [_ Ho]. change __va_reservation_size with (2 ^ 38) in Ho.
  unfold __va_carve. rewrite (proj2 (Z.eqb_neq (va_base s) 0)) by lia. cbn iota. rewrite (proj2 (Z.eqb_neq (va_base s) 0)) by lia.
  destruct (va_reuse_spec s live (granules_of sz) HI) as [[-> _]|(off & g & s' & _ & _ & H0 & HI' & _ & Eo & _)]; [lia| |].
  - change (negb (__va_bump_fail =? __va_bump_fail)) with false. cbn [Z.eqb negb]. unfold __va_bump. change __va_reservation_size with (2 ^ 38).
    rewrite u64_small, (proj2 (Z.ltb_lt _ _)) by lia. change (__va_bump_fail =? __va_bump_fail) with true. by exists s.
  - destruct (live_in_range s' _ off (granules_of sz) HI' ltac:(set_solver)). lia.
Qed.

(** A chunk is a whole run of its own, or the process ends. *)
Lemma kernel_chunk_spec base p live sz :
  va_ok base (va_of p) live -> 0 < sz < 2 ^ 52 ->
  kernel_chunk p sz = Abort \/
  exists r p', kernel_chunk p sz = Ok (Chunk (base + r.1) (r.2 * 2097152), p') /\ va_ok base (va_of p') (r :: live) /\
    sz <= r.2 * 2097152 < sz + 2097152.
Proof using RS.
  intros [HI <- [Hb0 Hb1]] Hsz. unfold kernel_chunk, ask. cbn [p_world]. change (w_va (p_world p)) with (va_of p).
  set (s := va_of p) in *. set (a := kernel (p_tick p)). unfold __get_kernel_chunk. rewrite (no_mapping (p_tick p)) || idtac.
  assert (Ec : exists os, __va_carve (a_os a) (a_commit1 a) (a_commit2 a) s sz = __va_carve os (a_commit1 a) (a_commit2 a) s sz /\ base_ok os s).
  { exists None. split; [unfold __va_carve; by rewrite (proj2 (Z.eqb_neq (va_base s) 0)) by lia|].
    change __va_reservation_size with (2 ^ 38) in *. unfold base_ok. change __va_reservation_size with (2 ^ 38). split_and!; [lia|lia|done]. }
  destruct Ec as (os & -> & Hos). unfold a at 3. rewrite no_mapping. cbn [sys_alloc].
  destruct (Z.le_gt_cases sz __va_reservation_size) as [Hle|Hgt].
  - pose proof (carve_spec os (a_commit1 a) (a_commit2 a) s live sz HI Hos ltac:(lia)) as Hc.
    pose proof (carve_base os (a_commit1 a) (a_commit2 a) s sz ltac:(lia)) as Eb.
    destruct (__va_carve os _ _ s sz) as [q v]. cbn [snd] in Eb. destruct Hc as [(-> & _)|(off & Hc & HI' & _)]; [by left|right].
    pose proof Hc as (-> & _ & _ & _ & H0 & Hend & Hr). rewrite (proj2 (Z.eqb_neq (va_base v + off) 0)) by lia. cbn [negb or_abort bind].
    fold (round_up sz). destruct (round_up_any sz) as (_ & Hru & Er & _); [lia|]. exists (off, granules_of sz), (set_world (Process (p_world p) (S (p_tick p)) (p_guards p)) (World v (w_owners (p_world p)))).
    cbn [fst snd]. rewrite Eb. replace (granules_of sz * 2097152) with (round_up sz) by lia. split_and!; [done| |lia|lia].
    unfold va_of. cbn [p_world set_world w_va]. by split.
  - left. destruct (carve_large os (a_commit1 a) (a_commit2 a) s live sz HI ltac:(lia) ltac:(lia)) as (s' & ->). done.
Qed.

(** A sheet over a run, or the process ends: in place when the run is not longer
    than the book manages. *)
Lemma new_sheet_spec {B} `{CL : ChunkLaws} `{BK : !Book B} `{BL : !BookLaws B} base p live owner (guarded : bool) r :
  va_ok base (va_of p) (r :: live) -> r.2 * 2097152 <= bk_most ->
  new_sheet owner guarded p (Chunk (base + r.1) (r.2 * 2097152)) = Abort \/
  exists (sh : sheet B) p', new_sheet owner guarded p (Chunk (base + r.1) (r.2 * 2097152)) = Ok (sh, p') /\ va_of p' = va_of p /\
    sheet_ok sh ∅ /\ __kernel_memory sh = Chunk (base + r.1) (r.2 * 2097152) /\
    on_run base (__kernel_memory sh) (__guard_offset sh) r.
Proof.
  intros HV Hmost. destruct (run_bounds base _ _ r HV ltac:(set_solver)) as (H0 & H1 & H2). destruct (va_room _ _ _ HV) as [H3 H4].
  change __va_reservation_size with (2 ^ 38) in *. set (c := Chunk (base + r.1) (r.2 * 2097152)).
  assert (Hmade : forall m b g, 0 <= g <= 4096 -> (g = 0 \/ g = __system_pagesize) -> bk_make m (Chunk (ptr c) (len c - g)) = Some b ->
    sheet_ok (Sheet c b g) ∅ /\ on_run base c g r).
  { intros m b g Hg Hg' Em. cbn [ptr len c] in *. assert (Hpl : bk_placed b = true) by (apply (bk_places _ _ _ Em); cbn [ptr len]; lia).
    destruct (bk_made _ _ b Em Hpl) as (Hr & Hlo & Hhi); cbn [ptr len] in *; [lia..|]. split; [split|by split].
    - apply chunk_valid_not_zero; cbn [ptr len __kernel_memory c]; unfold usize_max; lia.
    - done.
    - done.
    - unfold addr_end. cbn [__kernel_memory __guard_offset __book ptr len c]. rewrite u64_small by lia. lia. }
  unfold new_sheet, ask, sheet_make, sheet_make_guarded. cbn [p_world].
  change (ptr c) with (base + r.1) in *. change (len c) with (r.2 * 2097152) in *. rewrite u64_small by (unfold __system_pagesize; lia).
  destruct guarded.
  - destruct (bk_make _ _) as [b|] eqn:Em; [right|by left]. cbn [or_abort bind]. eexists _, _. split; [done|]. cbn [__kernel_memory __guard_offset].
    destruct (Hmade _ b __system_pagesize ltac:(unfold __system_pagesize; lia) ltac:(by right) Em). done.
  - destruct (bk_make _ _) as [b|] eqn:Em; [right|by left]. cbn [or_abort bind]. eexists _, _. split; [done|]. cbn [__kernel_memory __guard_offset].
    assert (Ec : c = Chunk (base + r.1) (r.2 * 2097152 - 0)) by (unfold c; by rewrite Z.sub_0_r). rewrite Ec in Em. destruct (Hmade _ b 0 ltac:(lia) ltac:(by left) Em). done.
Qed.
End Taking.

(** ** The runs under a tier *)

Section Grounded.
Context {B : Type} (base MaxSheets : Z).

(** [R] lists the runs under the sheets, in the order of the index. *)
Record grounded (t : tier) (shs : gmap Z (sheet B)) (R : list run) : Prop := {
  gr_length : length R = Z.to_nat (__count t);
  gr_at i sh : 0 <= i < __count t -> node_sheet t shs (nd (entry (__idx t) i)) = Some sh ->
    exists r, R !! Z.to_nat i = Some r /\ on_run base (__kernel_memory sh) (__guard_offset sh) r
}.

(** Only the memory of the sheets matters. *)
Definition memory (sh : sheet B) : chunk * Z := (__kernel_memory sh, __guard_offset sh).

Lemma grounded_place t t' shs shs' R :
  grounded t shs R -> same_index t t' -> memory <$> shs' = memory <$> shs -> grounded t' shs' R.
Proof.
  intros [Hl Ha] ((E1 & _) & E2 & E3) Em. split; [by rewrite E3|]. intros i sh' Hi Hn'. rewrite E2, E3 in *.
  unfold node_sheet in *. rewrite E1 in Hn'. destruct (nd (entry (__idx t) i) =? 0) eqn:Ez; [done|].
  assert (Hsh : (memory <$> shs) !! rd (links t) (nd (entry (__idx t) i) + 0) = Some (memory sh')) by (by rewrite <- Em, lookup_fmap, Hn').
  rewrite lookup_fmap in Hsh. destruct (shs !! _) as [sh|] eqn:Es; [|done]. injection Hsh as Ek Eg.
  destruct (Ha i sh Hi) as (r & Hr & Hon); [by rewrite Ez|]. exists r. by rewrite <- Ek, <- Eg.
Qed.

(** Taking entry [pos] out takes its run out. *)
Lemma grounded_remove t shs t' shs' R pos :
  grounded t shs R -> 0 <= pos < __count t -> __count t' = __count t - 1 ->
  (forall j, 0 <= j < __count t' ->
     node_sheet t' shs' (nd (entry (__idx t') j)) = node_sheet t shs (nd (entry (__idx t) (before pos j)))) ->
  grounded t' shs' (delete (Z.to_nat pos) R).
Proof.
  intros [Hl Ha] Hp Hc Hs. split.
  - rewrite length_delete, Hl, Hc; [lia|]. apply lookup_lt_is_Some_2. lia.
  - intros j sh Hj Hn. rewrite Hs in Hn by done. destruct (Ha (before pos j) sh) as (r & Hr & Hon); [unfold before; case_g|done|].
    exists r. split; [|done]. rewrite <- Hr. unfold before. destruct (Z.ltb_spec j pos).
    + apply list_lookup_delete_lt. lia.
    + rewrite list_lookup_delete_ge by lia. f_equal. lia.
Qed.

Lemma grounded_run t shs R i sh :
  grounded t shs R -> 0 <= i < __count t -> node_sheet t shs (nd (entry (__idx t) i)) = Some sh ->
  exists r, R ≡ₚ r :: delete (Z.to_nat i) R /\ on_run base (__kernel_memory sh) (__guard_offset sh) r.
Proof. intros [_ Ha] Hi Hn. destruct (Ha i sh Hi Hn) as (r & Hr & Hon). exists r. split; [by apply delete_Permutation|done]. Qed.

(** What an entry shows lies on its run. *)
Lemma grounded_entry `{CL : ChunkLaws} `{BK : !Book B} `{BL : !BookLaws B} s live t shs gs R i :
  sheets_ok MaxSheets t shs gs -> grounded t shs R -> va_ok base s live -> (forall r, r ∈ R -> r ∈ live) -> 0 <= i < __count t ->
  exists r, R !! Z.to_nat i = Some r /\ base + r.1 <= lo (entry (__idx t) i) /\ hi (entry (__idx t) i) <= base + r.1 + r.2 * 2097152.
Proof.
  intros HO [_ Ha] HV HR Hi. destruct (ok_at _ _ _ _ HO i Hi) as (sh & Hn & _ & El & Eh). destruct (Ha i sh Hi Hn) as (r & Hr & Hon).
  exists r. split; [done|]. destruct (on_run_bounds base _ _ sh r HV) as [E1 E2]; [apply HR; by eapply list_elem_of_lookup_2|done|lia].
Qed.

(** A sheet on a run of its own is clear of the entries. *)
Lemma grounded_clear `{CL : ChunkLaws} `{BK : !Book B} `{BL : !BookLaws B} s live t shs gs R (sh : sheet B) r i :
  sheets_ok MaxSheets t shs gs -> grounded t shs R -> va_ok base s (r :: live) -> (exists l, live ≡ₚ R ++ l) ->
  on_run base (__kernel_memory sh) (__guard_offset sh) r -> 0 <= i < __count t ->
  clear_of (entry (__idx t) i) (addr sh) (addr_end sh).
Proof.
  intros HO HG HV (l & HL) Hon Hi. destruct (on_run_bounds base _ _ sh r HV ltac:(set_solver) Hon) as [E1 E2].
  destruct (grounded_entry _ _ t shs gs R i HO HG HV) as (r0 & Hr0 & E3 & E4); [intros x Hx; rewrite HL; set_solver|done|].
  apply list_elem_of_lookup_2, elem_of_Permutation in Hr0 as (R' & HR').
  destruct (runs_apart base s (R' ++ l) r r0) as [|]; [|unfold clear_of; lia..].
  apply (va_ok_perm _ _ _ _ HV). by rewrite HL, HR'.
Qed.
End Grounded.
