(* ===== verification/Enlist.v ===== *)
(** * A tier gets a sheet

    The counterpart of removing an entry: a node is linked behind the last one
    and its sheet registered in the index.  When the index is full the node is
    unlinked again, and nothing is changed. *)

From S2P Require Import Prelude.
From S2P Require Import Intrusive.
From S2P Require Import Config.
From S2P Require Import Book.
From S2P Require Import Sheet.
From S2P Require Import SheetProps.
From S2P Require Import Tier.
From S2P Require Import Kernel.
From S2P Require Import Meta.
From S2P Require Import Bucket.
From S2P Require Import BucketInv.
From S2P Require Import Ground.

(** The node at [n] is 24 bytes apart from the nodes of the tier. *)
Definition node_apart (t : tier) (n : Z) : Prop := forall x, node_in t x -> x + 24 <= n \/ n + 24 <= x.

(** [t1] is [t] with the node [n] linked at the end, which holds the sheet
    object [a]. *)
Record linked (t t1 : tier) (n a : Z) : Prop := {
  lk_idx : __idx t1 = __idx t;
  lk_count : __count t1 = __count t;
  lk_mask : __space_mask t1 = __space_mask t;
  lk_hint : __last_hit t1 = __last_hit t;
  lk_object : rd (links t1) (n + 0) = a;
  lk_keep x : node_in t x -> rd (links t1) (x + 0) = rd (links t) (x + 0);
  lk_list : exists h, dlist (links t1) 16 8 h (fun x => x = n \/ node_in t x);
  lk_tail : Tier.tail t1 = n /\ rd (links t1) (n + 16) = 0
}.

Lemma linked_at_tail t n a :
  nodes_ok t -> n <> 0 -> node_apart t n -> linked t (link_at_tail (new_node t n a) n) n a.
Proof.
  intros HN Hn Hap. destruct (no_list _ HN) as [h Hl].
  assert (Hni : ~ node_in t n) by (intros Hi; specialize (Hap n Hi); lia).
  set (m := links t) in *. set (tl := Tier.tail t).
  assert (E : links (link_at_tail (new_node t n a) n) =
    let m := wr (wr (wr (wr (wr m (n + 0) a) (n + 8) 0) (n + 16) 0) (n + 8) tl) (n + 16) 0 in
    if tl =? 0 then m else wr m (tl + 16) n) by done.
  set (m1 := wr (wr (wr (wr (wr m (n + 0) a) (n + 8) 0) (n + 16) 0) (n + 8) tl) (n + 16) 0) in *. cbv zeta in E.
  assert (Hm1 : forall x k, node_in t x -> 0 <= k <= 16 -> rd m1 (x + k) = rd m (x + k)).
  { intros x k Hx Hk. specialize (Hap x Hx). subst m1. by rewrite !rd_wr_ne by lia. }
  assert (Hn1 : rd m1 (n + 0) = a /\ rd m1 (n + 8) = tl /\ rd m1 (n + 16) = 0).
  { subst m1. split_and!; repeat (rewrite rd_wr_eq || rewrite rd_wr_ne by lia); done. }
  destruct Hn1 as (Ha & Hp & Hz).
  split; try done; rewrite ?E; destruct (no_tail _ HN) as [[Hno Et]|[Ht Ht0]]; fold tl in Et || fold tl in Ht, Ht0.
  - by rewrite Et.
  - destruct (tl =? 0); [done|]. specialize (Hap tl Ht). by rewrite rd_wr_ne by lia.
  - intros x Hx. by destruct (Hno x).
  - intros x Hx. destruct (tl =? 0); [by apply Hm1|]. destruct (nodes_apart t x tl HN Hx Ht); rewrite rd_wr_ne by lia; by apply Hm1.
  - rewrite Et in *. cbn [Z.eqb]. exists n. apply (dlist_push 16 8 m1 m1 0 n (node_in t)); try done. by apply dlist_null.
  - pose proof (dlist_nonzero _ _ _ _ _ _ Hl Ht) as Htz. rewrite (proj2 (Z.eqb_neq tl 0)) by done. exists h. specialize (Hap tl Ht).
    apply (dlist_append 16 8 m _ h tl n (node_in t)); try done; rewrite ?rd_wr_eq, ?rd_wr_ne by lia; try done.
    + intros x Hx Hne. destruct (nodes_apart t x tl HN Hx Ht); [done|]. rewrite rd_wr_ne by lia. by apply Hm1.
    + intros x Hx. destruct (nodes_apart t x tl HN Hx Ht) as [->|]; rewrite rd_wr_ne by lia; by apply Hm1.
  - rewrite Et. by split.
  - split; [done|]. destruct (tl =? 0); [done|]. specialize (Hap tl Ht). by rewrite rd_wr_ne by lia.
Qed.

(** The embedded node, in a tier that has none *)
Lemma linked_first t n a :
  nodes_ok t -> __count t = 0 -> n <> 0 ->
  linked t (set_links t (wr (wr (wr (links t) (n + 0) a) (n + 8) 0) (n + 16) 0) n) n a.
Proof.
  intros HN Hc Hn. assert (Hno : forall x, ~ node_in t x) by (intros x (i & Hi & _); lia).
  set (m := wr (wr (wr (links t) (n + 0) a) (n + 8) 0) (n + 16) 0).
  assert (E : rd m (n + 0) = a /\ rd m (n + 8) = 0 /\ rd m (n + 16) = 0).
  { subst m. split_and!; repeat (rewrite rd_wr_eq || rewrite rd_wr_ne by lia); done. }
  destruct E as (E0 & E8 & E16). split; try done; cbn [set_links links].
  - intros x Hx. by destruct (Hno x).
  - exists n. apply (dlist_push 16 8 m m 0 n (node_in t)); try done. by apply dlist_null.
Qed.

(** ** Into the index *)

Section Enlist.
Context {B : Type} `{CL : ChunkLaws} `{BK : !Book B} `{BL : !BookLaws B}.
Context (MaxSheets : Z) (HM : 0 < MaxSheets).

(** Where entry [j] was before one was put in at [pos] *)
Definition origin (pos j : Z) : Z := if j <? pos then j else j - 1.

(** The tier [t'] and its sheets are [t] with the sheet [sh], object [a], node
    [n], at [pos]. *)
Record enlisted (t t' : tier) (shs shs' : gmap Z (sheet B)) (n a : Z) (sh : sheet B) (pos : Z) : Prop := {
  el_pos : 0 <= pos <= __count t;
  el_count : __count t' = __count t + 1;
  el_new : entry (__idx t') pos = TRange (addr sh) (addr_end sh) n /\ node_sheet t' shs' n = Some sh /\ object t' pos = a;
  el_old j : 0 <= j < __count t' -> j <> pos ->
    entry (__idx t') j = entry (__idx t) (origin pos j) /\
    node_sheet t' shs' (nd (entry (__idx t') j)) = node_sheet t shs (nd (entry (__idx t) (origin pos j))) /\
    object t' j = object t (origin pos j);
  el_tail : Tier.tail t' = n
}.

Lemma origin_bounds t t' shs shs' n a sh pos j :
  enlisted t t' shs shs' n a sh pos -> 0 <= j < __count t' -> j <> pos -> 0 <= origin pos j < __count t.
Proof. intros HE Hj Hne. pose proof (el_pos _ _ _ _ _ _ _ _ HE). rewrite (el_count _ _ _ _ _ _ _ _ HE) in Hj. unfold origin. case_g. Qed.

(** Every old entry has a place. *)
Lemma origin_onto t t' shs shs' n a sh pos i :
  enlisted t t' shs shs' n a sh pos -> 0 <= i < __count t -> exists j, 0 <= j < __count t' /\ j <> pos /\ origin pos j = i.
Proof.
  intros HE Hi. pose proof (el_pos _ _ _ _ _ _ _ _ HE). rewrite (el_count _ _ _ _ _ _ _ _ HE).
  exists (if i <? pos then i else i + 1). unfold origin. repeat case_g; lia.
Qed.

Lemma enlisted_nodes t t' shs shs' n a sh pos x :
  enlisted t t' shs shs' n a sh pos -> node_in t' x <-> x = n \/ node_in t x.
Proof.
  intros HE. pose proof (el_pos _ _ _ _ _ _ _ _ HE) as Hp. pose proof (el_count _ _ _ _ _ _ _ _ HE) as Hc.
  destruct (el_new _ _ _ _ _ _ _ _ HE) as (En & _). split.
  - intros (j & Hj & <-). destruct (Z.eq_dec j pos) as [->|Hne]; [left; by rewrite En|right].
    destruct (el_old _ _ _ _ _ _ _ _ HE j Hj Hne) as (-> & _). exists (origin pos j). split; [by eapply origin_bounds|done].
  - intros [->|(i & Hi & <-)]; [exists pos; rewrite En; split; [lia|done]|].
    destruct (origin_onto _ _ _ _ _ _ _ _ i HE Hi) as (j & Hj & Hne & <-). exists j.
    by destruct (el_old _ _ _ _ _ _ _ _ HE j Hj Hne) as (-> & _).
Qed.

(** Nobody is granted anything by an empty sheet. *)
Lemma enlisted_grants t t' shs shs' gs n a sh pos p k u :
  enlisted t t' shs shs' n a sh pos -> (forall i, 0 <= i < __count t -> object t i <> a) ->
  grant t' (put_grants gs a ∅) p k u <-> grant t gs p k u.
Proof.
  intros HE Hfr. destruct (el_new _ _ _ _ _ _ _ _ HE) as (_ & _ & Ea). unfold grant, put_grants. split.
  - intros (j & Hj & Hg). destruct (Z.eq_dec j pos) as [->|Hne]; [by rewrite Ea, Z.eqb_refl in Hg|].
    destruct (el_old _ _ _ _ _ _ _ _ HE j Hj Hne) as (_ & _ & Eo). pose proof (origin_bounds _ _ _ _ _ _ _ _ j HE Hj Hne) as Hb.
    rewrite Eo, (proj2 (Z.eqb_neq _ _) (Hfr _ Hb)) in Hg. by exists (origin pos j).
  - intros (i & Hi & Hg). destruct (origin_onto _ _ _ _ _ _ _ _ i HE Hi) as (j & Hj & Hne & <-). exists j. split; [done|].
    destruct (el_old _ _ _ _ _ _ _ _ HE j Hj Hne) as (_ & _ & ->). by rewrite (proj2 (Z.eqb_neq _ _) (Hfr _ Hi)).
Qed.

Lemma add_entry t t1 shs gs n a sh :
  sheets_ok MaxSheets t shs gs -> nodes_ok t -> linked t t1 n a -> n <> 0 -> node_apart t n ->
  (forall i, 0 <= i < __count t -> object t i <> a) -> sheet_ok sh ∅ -> addr sh < addr_end sh ->
  (forall i, 0 <= i < __count t -> clear_of (entry (__idx t) i) (addr sh) (addr_end sh)) -> __count t < MaxSheets ->
  let shs' := <[a := sh]> shs in
  let pt := register_sheet MaxSheets (addr_at shs') (addr_end_at shs') t1 n in
  pt.1 <> MaxSheets /\ enlisted t pt.2 shs shs' n a sh pt.1 /\
  sheets_ok MaxSheets pt.2 shs' (put_grants gs a ∅) /\ nodes_ok pt.2.
Proof using HM.
  intros HO HN [Ei Ec Em Eh Ea Hk [h Hl] [Et Ez]] Hn Hap Hfr Hs Hlh Hcl Hcnt shs' pt. pose proof (ok_tier _ _ _ _ HO) as HT.
  assert (HT1 : Tier.inv MaxSheets t1) by (destruct HT; split; rewrite ?Ei, ?Ec, ?Em, ?Eh; done).
  assert (Elo : addr_at shs' (rd (links t1) (n + 0)) = addr sh) by (unfold addr_at, shs'; by rewrite Ea, lookup_insert_eq).
  assert (Ehi : addr_end_at shs' (rd (links t1) (n + 0)) = addr_end sh) by (unfold addr_end_at, shs'; by rewrite Ea, lookup_insert_eq).
  assert (Hins := register_inserted MaxSheets HM (addr_at shs') (addr_end_at shs') t1 n HT1). cbv zeta in Hins.
  rewrite Elo, Ehi, Ei, Ec in Hins. specialize (Hins Hlh Hcl ltac:(lia)).
  assert (Elk : links pt.2 = links t1 /\ Tier.tail pt.2 = Tier.tail t1) by (unfold pt, register_sheet; by case_match).
  fold pt in Hins. set (t' := pt.2) in *. set (pos := pt.1) in *. clearbody t' pos. destruct Elk as [Elk Etl]. rewrite <- Ec in Hcnt.
  pose proof (inserted_inv MaxSheets HM _ _ _ _ _ _ HT1 Hins Hlh Hcnt) as HT'. destruct Hins as [Hpos Hcount _ _ Hent _ _ _]. rewrite Ec, ?Ei in *.
  assert (Hshn : node_sheet t' shs' n = Some sh).
  { unfold node_sheet. rewrite (proj2 (Z.eqb_neq n 0)) by done. rewrite Elk, Ea; apply lookup_insert_eq. }
  assert (HE : enlisted t t' shs shs' n a sh pos).
  { split; [done|done| | |congruence].
    - assert (En : entry (__idx t') pos = TRange (addr sh) (addr_end sh) n) by (rewrite Hent, Z.ltb_irrefl, Z.eqb_refl by lia; done).
      split_and!; [done|done|]. unfold object. rewrite En. cbn [nd]. by rewrite Elk.
    - intros j Hj Hne. assert (Hb : 0 <= origin pos j < __count t) by (unfold origin; case_g).
      assert (En : entry (__idx t') j = entry (__idx t) (origin pos j)).
      { rewrite Hent by lia. rewrite (proj2 (Z.eqb_neq j pos)) by done. unfold origin. by destruct (j <? pos). }
      assert (Hkeep : rd (links t') (nd (entry (__idx t) (origin pos j)) + 0) = object t (origin pos j)) by (rewrite Elk; apply Hk; by exists (origin pos j)).
      split_and!; [done| |unfold object at 1; by rewrite En].
      rewrite En. unfold node_sheet. destruct (_ =? 0); [done|]. rewrite Hkeep. fold (object t (origin pos j)). unfold shs'.
      rewrite lookup_insert_ne; [done|]. intros E. by apply (Hfr _ Hb). }
  split_and!; [lia|done|..].
  - split; [done|]. intros j Hj. destruct (Z.eq_dec j pos) as [->|Hne].
    + destruct (el_new _ _ _ _ _ _ _ _ HE) as (-> & Hsh & ->). exists sh. cbn [nd lo hi]. split_and!; try done.
      unfold put_grants. by rewrite Z.eqb_refl.
    + destruct (el_old _ _ _ _ _ _ _ _ HE j Hj Hne) as (Ej & Ens & Eo).
      pose proof (origin_bounds _ _ _ _ _ _ _ _ j HE Hj Hne) as Hb. destruct (ok_at _ _ _ _ HO _ Hb) as (s0 & H1 & H2 & H3 & H4).
      exists s0. rewrite Ens, Eo, Ej. split_and!; try done. unfold put_grants. by rewrite (proj2 (Z.eqb_neq _ _) (Hfr _ Hb)).
  - split.
    + exists h. rewrite Elk. apply (dlist_frame 16 8 (links t1) (links t1) h _ _ Hl); [|done]. intros x. symmetry. by eapply enlisted_nodes.
    + assert (Hnew : forall j, 0 <= j < __count t' -> j <> pos -> nd (entry (__idx t') j) + 24 <= n \/ n + 24 <= nd (entry (__idx t') j)).
      { intros j Hj Hne. destruct (el_old _ _ _ _ _ _ _ _ HE j Hj Hne) as (-> & _). apply Hap. exists (origin pos j).
        split; [by eapply origin_bounds|done]. }
      destruct (el_new _ _ _ _ _ _ _ _ HE) as (En & _). intros i j Hi Hj Hij.
      destruct (Z.eq_dec i pos) as [->|Hip]; [rewrite En; cbn [nd]; destruct (Hnew j Hj ltac:(congruence)); lia|].
      destruct (Z.eq_dec j pos) as [->|Hjp]; [rewrite En; cbn [nd]; destruct (Hnew i Hi ltac:(congruence)); lia|].
      destruct (el_old _ _ _ _ _ _ _ _ HE i Hi Hip) as (-> & _). destruct (el_old _ _ _ _ _ _ _ _ HE j Hj Hjp) as (-> & _).
      apply (no_apart _ HN); [by eapply origin_bounds..|]. unfold origin. repeat case_g; lia.
    + right. rewrite Etl, Elk, Et. split; [|done]. apply (enlisted_nodes _ _ _ _ _ _ _ _ n HE). by left.
Qed.

(** The run under the new sheet goes to its place. *)
Lemma enlisted_grounded base t t' shs shs' n a sh pos R r :
  grounded base t shs R -> enlisted t t' shs shs' n a sh pos -> on_run base (__kernel_memory sh) (__guard_offset sh) r ->
  grounded base t' shs' (take (Z.to_nat pos) R ++ r :: drop (Z.to_nat pos) R).
Proof.
  intros [Hl Ha] HE Hon. pose proof (el_pos _ _ _ _ _ _ _ _ HE) as Hp. pose proof (el_count _ _ _ _ _ _ _ _ HE) as Hc.
  assert (Ht : length (take (Z.to_nat pos) R) = Z.to_nat pos) by (rewrite length_take; lia). split.
  - rewrite length_app. cbn [length]. rewrite Ht, length_drop. lia.
  - intros j s0 Hj Hn. destruct (Z.eq_dec j pos) as [->|Hne].
    + destruct (el_new _ _ _ _ _ _ _ _ HE) as (En & Hsh & _). rewrite En in Hn. cbn [nd] in Hn. rewrite Hsh in Hn. injection Hn as <-.
      exists r. split; [|done]. rewrite lookup_app_r by lia. by rewrite Ht, Nat.sub_diag.
    + destruct (el_old _ _ _ _ _ _ _ _ HE j Hj Hne) as (_ & Ens & _). rewrite Ens in Hn.
      destruct (Ha (origin pos j) s0) as (r0 & Hr0 & Hon0); [by eapply origin_bounds|done|]. exists r0. split; [|done].
      rewrite <- Hr0. unfold origin. destruct (Z.ltb_spec j pos).
      * rewrite lookup_app_l, lookup_take_lt by lia. done.
      * rewrite lookup_app_r, Ht by lia. replace (Z.to_nat j - Z.to_nat pos)%nat with (S (Z.to_nat (j - 1) - Z.to_nat pos)) by lia.
        change (drop (Z.to_nat pos) R !! (Z.to_nat (j - 1) - Z.to_nat pos)%nat = R !! Z.to_nat (j - 1)). rewrite lookup_drop. f_equal. lia.
Qed.

(** ** Out again *)

(** The same index, and the same cells in its nodes *)
Record same_nodes (t t' : tier) : Prop := {
  sn_idx : __idx t' = __idx t;
  sn_count : __count t' = __count t;
  sn_mask : __space_mask t' = __space_mask t;
  sn_hint : __last_hit t' = __last_hit t;
  sn_tail : Tier.tail t' = Tier.tail t;
  sn_cells x k : node_in t x -> k = 0 \/ k = 8 \/ k = 16 -> rd (links t') (x + k) = rd (links t) (x + k)
}.

(** Unlinking the node that was linked last undoes it. *)
Lemma linked_unlinked t n a :
  nodes_ok t -> n <> 0 -> node_apart t n -> same_nodes t (unlink_node (link_at_tail (new_node t n a) n) n).
Proof.
  intros HN Hn Hap. set (m := links t) in *. set (tl := Tier.tail t).
  set (m1 := wr (wr (wr (wr (wr m (n + 0) a) (n + 8) 0) (n + 16) 0) (n + 8) tl) (n + 16) 0).
  set (m2 := if tl =? 0 then m1 else wr m1 (tl + 16) n).
  assert (El : link_at_tail (new_node t n a) n = set_links t m2 n) by done. rewrite El. clear El.
  assert (Hm1 : forall x k, node_in t x -> k = 0 \/ k = 8 \/ k = 16 -> rd m1 (x + k) = rd m (x + k)).
  { intros x k Hx Hk. specialize (Hap x Hx). subst m1. by rewrite !rd_wr_ne by lia. }
  assert (Hn1 : rd m1 (n + 8) = tl /\ rd m1 (n + 16) = 0).
  { subst m1. split; repeat (rewrite rd_wr_eq || rewrite rd_wr_ne by lia); done. }
  destruct Hn1 as [Hp Hz]. assert (Htl : (node_in t tl /\ tl <> 0 /\ rd m (tl + 16) = 0) \/ ((forall x, ~ node_in t x) /\ tl = 0)).
  { destruct (no_tail _ HN) as [?|[Ht Ht0]]; [by right|left]. destruct (no_list _ HN) as [h Hl]. split_and!; [done|by eapply dlist_nonzero|done]. }
  assert (Hn2 : rd m2 (n + 8) = tl /\ rd m2 (n + 16) = 0).
  { subst m2. destruct Htl as [(Ht & Htz & _)|[_ ->]]; [|done]. rewrite (proj2 (Z.eqb_neq tl 0)) by done.
    specialize (Hap tl Ht). by rewrite !rd_wr_ne by lia. }
  destruct Hn2 as [Hp2 Hz2]. unfold unlink_node. cbn [links Tier.tail set_links]. rewrite Hp2, Hz2.
  assert (Hm3 : rd (if tl =? 0 then m2 else wr m2 (tl + 16) 0) (n + 16) = 0).
  { destruct (tl =? 0); [done|]. destruct (Z.eq_dec (tl + 16) (n + 16)) as [->|]; [by rewrite rd_wr_eq|by rewrite rd_wr_ne]. }
  rewrite Hm3. cbn [Z.eqb]. rewrite Z.eqb_refl. split; try done; cbn [links Tier.tail set_links].
  - destruct Htl as [(Ht & Htz & _)|[_ Et]]; [|rewrite (proj2 (Z.eqb_eq tl 0) Et); exact Hp2].
    rewrite (proj2 (Z.eqb_neq tl 0)) by done. specialize (Hap tl Ht). by rewrite rd_wr_ne by lia.
  - intros x k Hx Hk. destruct Htl as [(Ht & Htz & E0)|[Hno _]]; [|by destruct (Hno x)]. subst m2. rewrite (proj2 (Z.eqb_neq tl 0)) by done.
    destruct (Z.eq_dec (x + k) (tl + 16)) as [E|E]; [|rewrite !rd_wr_ne by done; by apply Hm1].
    rewrite E, rd_wr_eq, <- E. destruct (nodes_apart t x tl HN Hx Ht) as [->|]; [|lia]. by replace k with 16 by lia.
Qed.

Lemma same_nodes_index t t' i : same_nodes t t' -> 0 <= i < __count t -> object t' i = object t i.
Proof. intros HS Hi. unfold object. rewrite (sn_idx _ _ HS). apply (sn_cells _ _ HS); [by exists i|by left]. Qed.

Lemma same_nodes_sheet t t' (shs : gmap Z (sheet B)) i :
  same_nodes t t' -> 0 <= i < __count t -> node_sheet t' shs (nd (entry (__idx t') i)) = node_sheet t shs (nd (entry (__idx t) i)).
Proof.
  intros HS Hi. pose proof (same_nodes_index t t' i HS Hi) as Eo. unfold object in Eo. unfold node_sheet. rewrite (sn_idx _ _ HS) in *.
  by rewrite Eo.
Qed.

Lemma same_nodes_ok t t' shs gs :
  sheets_ok MaxSheets t shs gs -> nodes_ok t -> same_nodes t t' -> sheets_ok MaxSheets t' shs gs /\ nodes_ok t'.
Proof.
  intros [HT Hat] [[h Hl] Hap Htl] HS. pose proof HS as [Ei Ec Em Eh Et Hce]. split; split.
  - destruct HT; split; rewrite ?Ei, ?Ec, ?Em, ?Eh; done.
  - intros i Hi. rewrite Ec in Hi. destruct (Hat i Hi) as (sh & H1 & H2 & H3 & H4). exists sh.
    rewrite (same_nodes_sheet t t' shs i HS Hi), (same_nodes_index t t' i HS Hi), Ei. done.
  - exists h. apply (dlist_frame 16 8 _ _ _ _ _ Hl); [unfold node_in; by rewrite Ei, Ec|]. intros x Hx. split; apply Hce; tauto.
  - rewrite Ei, Ec. done.
  - unfold node_in. rewrite Ei, Ec, Et. destruct Htl as [?|[Ht E0]]; [by left|right]. split; [done|]. rewrite Hce; tauto.
Qed.

Lemma same_nodes_grounded base t t' (shs : gmap Z (sheet B)) R : same_nodes t t' -> grounded base t shs R -> grounded base t' shs R.
Proof.
  intros HS [Hl Ha]. pose proof HS as [Ei Ec _ _ _ _]. split; [by rewrite Ec|]. intros i sh Hi Hn. rewrite Ec in Hi.
  rewrite (same_nodes_sheet t t' shs i HS Hi) in Hn. by apply Ha.
Qed.

(** Dropping what is no sheet of the tier *)
Lemma drop_other t (shs : gmap Z (sheet B)) a i :
  (forall i, 0 <= i < __count t -> object t i <> a) -> 0 <= i < __count t ->
  node_sheet t (delete a shs) (nd (entry (__idx t) i)) = node_sheet t shs (nd (entry (__idx t) i)).
Proof.
  intros Hfr Hi. unfold node_sheet. destruct (_ =? 0); [done|]. fold (object t i). rewrite lookup_delete_ne; [done|].
  intros E. by apply (Hfr i Hi).
Qed.

Lemma drop_ok base t shs gs a R :
  sheets_ok MaxSheets t shs gs -> grounded base t shs R -> (forall i, 0 <= i < __count t -> object t i <> a) ->
  sheets_ok MaxSheets t (delete a shs) gs /\ grounded base t (delete a shs) R.
Proof.
  intros [HT Hat] [Hl Ha] Hfr. split; split; try done.
  - intros i Hi. rewrite drop_other by done. by apply Hat.
  - intros i sh Hi Hn. rewrite drop_other in Hn by done. by apply Ha.
Qed.
End Enlist.
