(* ===== verification/BucketProps.v ===== *)
(** * Tiers serve and take back blocks

    What the functions of [Bucket] do to the blocks a client holds.  Proved for
    every book and every cache that keeps its laws. *)

From S2P Require Import Prelude.
From S2P Require Import Config.
From S2P Require Import Tcache.
From S2P Require Import Book.
From S2P Require Import Sheet.
From S2P Require Import SheetProps.
From S2P Require Import Tier.
From S2P Require Import Harden.
From S2P Require Import Kernel.
From S2P Require Import Meta.
From S2P Require Import Bucket.
From S2P Require Import BucketInv.
From S2P Require Import Ground.

(** [mask &= mask - 1] clears the lowest set bit. *)
Lemma clear_lowest v :
  0 < v -> let v' := Z.land v (v - 1) in 0 <= v' <= v /\ forall i, 0 <= i <= ctz v -> Z.testbit v' i = false.
Proof.
  intros Hv v'. destruct (ctz_spec v Hv) as (Hc & Ht & Hlow). split.
  - subst v'. split; [apply Z.land_nonneg; lia|]. apply Z.ldiff_le; [lia|].
    apply Z.bits_inj'. intros i Hi. rewrite Z.ldiff_spec, Z.land_spec, Z.bits_0. destruct (Z.testbit v i); by rewrite ?andb_false_r, ?andb_true_r, ?andb_negb_r.
  - intros i Hi. subst v'. rewrite Z.land_spec. destruct (Z.eq_dec i (ctz v)) as [->|]; [|by rewrite Hlow by lia].
    apply andb_false_iff. right. set (c := ctz v) in *. set (w := v / 2 ^ c).
    assert (Hpos : 0 < 2 ^ c) by (apply Z.pow_pos_nonneg; lia).
    assert (Hm : v mod 2 ^ c = 0).
    { apply Z.bits_inj'. intros j Hj. rewrite Z.bits_0. destruct (Z.lt_ge_cases j c).
      - rewrite Z.mod_pow2_bits_low by lia. apply Hlow. lia.
      - apply Z.mod_pow2_bits_high. lia. }
    assert (Ev : v = 2 ^ c * w) by (subst w; pose proof (Z.div_mod v (2 ^ c) ltac:(lia)); lia).
    assert (Hodd : Z.odd w = true) by (subst w; by rewrite <- Z.bit0_odd, Z.div_pow2_bits, Z.add_0_l by lia).
    rewrite <- (Z.add_0_l c), <- Z.div_pow2_bits, Z.bit0_odd by lia.
    replace ((v - 1) / 2 ^ c) with (w - 1); [by rewrite Z.odd_sub, Hodd|].
    apply (Z.div_unique _ _ _ (2 ^ c - 1)); lia.
Qed.

Section Serve.
Context {B C : Type} `{CL : ChunkLaws} `{BK : !Book B} `{BL : !BookLaws B} `{FC : !FreeCache C} `{FL : !FreeCacheLaws C}.
Context `{HD : Hardening} `{ST : Settings} `{PL : Platform}.
Context (MaxSheets : Z) (HM : 0 < MaxSheets).

Abbreviation bkt := (bucket B C).

Definition cached (b : bkt) (p : Z) : Prop := exists x, x ∈ fc_bag (b_cache b) /\ tptr x = p.

Record bucket_ok (b : bkt) (gs : Z -> grants) : Prop := {
  bo_sheets : sheets_ok MaxSheets (b_tier b) (b_sheets b) gs;
  bo_cache : fc_wf (b_cache b);
  bo_once : NoDup (tptr <$> fc_bag (b_cache b));
  bo_live x : x ∈ fc_bag (b_cache b) -> exists n, grant (b_tier b) gs (tptr x) n (Live false) /\ 0 < tsize x <= n
}.

(** The block [p] of [n] bytes is in the client's hands; [t] when it is temporal. *)
Definition held (b : bkt) (gs : Z -> grants) (p n : Z) (t : bool) : Prop :=
  ~ cached b p /\ grant (b_tier b) gs p n (Live t).

Definition same_held (b : bkt) gs (b' : bkt) gs' : Prop := forall p n t, held b' gs' p n t <-> held b gs p n t.

(** The memory under the sheets, by object *)
Definition ground (b : bkt) : gmap Z (chunk * Z) := memory <$> b_sheets b.

(** Index, list and memory are as before. *)
Definition same_place (b b' : bkt) : Prop := same_index (b_tier b) (b_tier b') /\ ground b' = ground b.

Lemma same_place_trans b1 b2 b3 : same_place b1 b2 -> same_place b2 b3 -> same_place b1 b3.
Proof. intros [((E1 & E4) & E2 & E3) E5] [((F1 & F4) & F2 & F3) F5]. split; [split_and!|]; congruence. Qed.

(** The chunk [c] lies in a sheet of the tier. *)
Definition in_sheet (t : tier) (c : chunk) : Prop :=
  exists i, 0 <= i < __count t /\ lo (entry (__idx t) i) <= ptr c /\ ptr c + len c <= hi (entry (__idx t) i).

(** A request of [sz] bytes was answered with [c]: a chunk apart from all that
    was held, or, for a temporal request, a block held before.  [n] is the
    length of the block, of which [c] is the start. *)
Definition served (temporal : bool) (b : bkt) gs (b' : bkt) gs' (sz : Z) (c : chunk) (n : Z) : Prop :=
  chunk_zero c = false /\ 0 < len c <= n /\ in_sheet (b_tier b) c /\
  (forall p m t, held b' gs' p m t <-> held b gs p m t \/ (p = ptr c /\ m = n /\ t = temporal)) /\
  ((sz <= len c /\ forall p m t, held b gs p m t -> apart (ptr c) (len c) p m) \/
   (temporal = true /\ held b gs (ptr c) n true)).

(** What a serving function does: the bucket stays well formed and either
    nothing changes hands or the request is served. *)
Definition serves (temporal : bool) (b : bkt) gs (sz : Z) (r : res (chunk * bkt)) : Prop :=
  exists c b' gs', r = Ok (c, b') /\ bucket_ok b' gs' /\ same_place b b' /\
    ((c = null_chunk /\ same_held b gs b' gs') \/ exists n, served temporal b gs b' gs' sz c n).

(** ** Steps that change nobody's blocks *)

Lemma with_tier_ok b gs t :
  bucket_ok b gs -> same_index (b_tier b) t -> Tier.inv MaxSheets t ->
  bucket_ok (with_tier b t) gs /\ same_held b gs (with_tier b t) gs.
Proof.
  intros [Hs Hc Hn Hl] HS HT. split.
  - split; cbn; try done; [by eapply sheets_ok_tier|]. intros x Hx. destruct (Hl x Hx) as (n & Hg & Hz).
    exists n. split; [|done]. by apply (grant_tier (b_tier b)).
  - intros p n u. unfold held, cached. cbn. by rewrite (grant_tier (b_tier b) t gs p n _ HS).
Qed.


Lemma exhausted_ok b gs pos :
  bucket_ok b gs -> 0 <= pos < __count (b_tier b) ->
  let b' := with_tier b (mark_exhausted (b_tier b) pos) in
  bucket_ok b' gs /\ same_held b gs b' gs /\ same_place b b'.
Proof using HM.
  intros Hb Hp b'. assert (HS : same_index (b_tier b) (mark_exhausted (b_tier b) pos)) by done.
  destruct (mark_spec MaxSheets HM (b_tier b) pos false (ok_tier _ _ _ _ (bo_sheets _ _ Hb)) Hp) as (HT & _ & _).
  destruct (with_tier_ok b gs _ Hb HS HT). done.
Qed.

Lemma available_ok b gs pos :
  bucket_ok b gs -> 0 <= pos < __count (b_tier b) ->
  let b' := with_tier b (mark_available (b_tier b) pos) in
  bucket_ok b' gs /\ same_held b gs b' gs /\ same_place b b'.
Proof using HM.
  intros Hb Hp b'. assert (HS : same_index (b_tier b) (mark_available (b_tier b) pos)) by done.
  destruct (mark_spec MaxSheets HM (b_tier b) pos true (ok_tier _ _ _ _ (bo_sheets _ _ Hb)) Hp) as (HT & _ & _).
  destruct (with_tier_ok b gs _ Hb HS HT). done.
Qed.

Lemma last_hit_ok b gs pos :
  bucket_ok b gs -> 0 <= pos < __count (b_tier b) ->
  bucket_ok (set_last_hit b pos) gs /\ same_held b gs (set_last_hit b pos) gs.
Proof.
  intros Hb Hp. apply with_tier_ok; [done|done|].
  destruct (ok_tier _ _ _ _ (bo_sheets _ _ Hb)) as [H1 H2 H3 H4 H5 H6]. split; cbn; try done. by right.
Qed.

(** A serving step after steps that change nobody's blocks *)
Lemma serves_after temporal b gs b1 gs1 sz r :
  same_held b gs b1 gs1 -> same_place b b1 -> serves temporal b1 gs1 sz r -> serves temporal b gs sz r.
Proof.
  intros Hh HS (c & b' & gs' & -> & Hok & HS' & Hres). exists c, b', gs'. split_and!; try done; [by eapply same_place_trans|].
  destruct Hres as [[-> Hsame]|(n & Hz & Hl & Hin & Hheld & Hfresh)]; [left|right; exists n].
  - split; [done|]. intros p n t. by rewrite (Hsame p n t), (Hh p n t).
  - split_and!; try done; try lia.
    + destruct HS as ((_ & E2 & E3) & _). unfold in_sheet in *. by rewrite E2, E3 in Hin.
    + intros p m t. by rewrite (Hheld p m t), (Hh p m t).
    + destruct Hfresh as [[Hsz Ha]|[Ht Hp]]; [left; split; [done|]|right; split; [done|by apply Hh]].
      intros p m t Hp. apply (Ha p m t). by apply Hh.
Qed.

(** ** One sheet *)

Lemma grant_valid t shs gs p n u :
  sheets_ok MaxSheets t shs gs -> grant t gs p n u -> 0 < p /\ 0 < n /\ p + n < 2 ^ 64.
Proof.
  intros HO (i & Hi & Hg). destruct (ok_at _ _ _ _ HO i Hi) as (sh & _ & [He Hr Hl Hh] & _).
  destruct (bk_grant _ _ _ _ _ Hr Hg) as (H1 & H2 & H3 & _). destruct (bk_region _ _ Hr). lia.
Qed.

Lemma sheet_of_ok b gs pos :
  bucket_ok b gs -> 0 <= pos < __count (b_tier b) ->
  exists sh, sheet_of b pos = Ok (object (b_tier b) pos, sh) /\
    node_sheet (b_tier b) (b_sheets b) (nd (entry (__idx (b_tier b)) pos)) = Some sh /\
    sheet_ok sh (gs (object (b_tier b) pos)) /\
    lo (entry (__idx (b_tier b)) pos) = addr sh /\ hi (entry (__idx (b_tier b)) pos) = addr_end sh.
Proof.
  intros Hb Hp. destruct (ok_at _ _ _ _ (bo_sheets _ _ Hb) pos Hp) as (sh & Hn & Hok & El & Eh).
  exists sh. unfold sheet_of. rewrite Hn. by split_and!.
Qed.

(** A change of the grants of one sheet at one address which is no cached block *)
Lemma with_sheet_ok b gs pos sh sh' L' a :
  bucket_ok b gs -> 0 <= pos < __count (b_tier b) ->
  node_sheet (b_tier b) (b_sheets b) (nd (entry (__idx (b_tier b)) pos)) = Some sh ->
  sheet_ok sh' L' -> __kernel_memory sh' = __kernel_memory sh -> __guard_offset sh' = __guard_offset sh ->
  lo (entry (__idx (b_tier b)) pos) <= a < hi (entry (__idx (b_tier b)) pos) -> ~ cached b a ->
  (forall q, q <> a -> L' !! q = gs (object (b_tier b) pos) !! q) ->
  let b' := with_sheet b (object (b_tier b) pos) sh' in
  let gs' := put_grants gs (object (b_tier b) pos) L' in
  bucket_ok b' gs' /\
  forall p n t, held b' gs' p n t <-> if p =? a then L' !! a = Some (n, Live t) else held b gs p n t.
Proof.
  intros Hb Hp Hn Hok Em Eg Ha Hnc HL b' gs'. pose proof (bo_sheets _ _ Hb) as HO.
  assert (Hg : forall p n u, grant (b_tier b) gs' p n u <-> if p =? a then L' !! a = Some (n, u) else grant (b_tier b) gs p n u)
    by (intros p n u; by apply (grant_update MaxSheets _ (b_sheets b))).
  split.
  - split; cbn; try apply Hb; [by eapply sheets_ok_put|]. intros x Hx. destruct (bo_live _ _ Hb x Hx) as (n & Hgx & Hz).
    exists n. split; [|done]. apply Hg. rewrite (proj2 (Z.eqb_neq _ _)); [done|]. intros <-. apply Hnc. by exists x.
  - intros p n t. unfold held, cached. cbn. fold (cached b p). rewrite Hg.
    destruct (Z.eqb_spec p a) as [->|]; [|done]. naive_solver.
Qed.

(** A sheet that changes on its memory leaves all in place. *)
Lemma same_place_put b pos sh sh' :
  node_sheet (b_tier b) (b_sheets b) (nd (entry (__idx (b_tier b)) pos)) = Some sh ->
  __kernel_memory sh' = __kernel_memory sh -> __guard_offset sh' = __guard_offset sh ->
  same_place b (with_sheet b (object (b_tier b) pos) sh').
Proof.
  intros Hn Em Eg. split; [done|]. unfold ground. cbn [with_sheet b_sheets]. rewrite fmap_insert. unfold memory at 1. rewrite Em, Eg.
  apply node_sheet_object in Hn as [_ Hs]. apply insert_id. by rewrite lookup_fmap, Hs.
Qed.

Lemma mark_at_spec (temporal : bool) b gs pos sz :
  bucket_ok b gs -> 0 <= pos < __count (b_tier b) -> requested sz ->
  serves temporal b gs sz (mark_at temporal b pos sz).
Proof.
  intros Hb Hp Hsz. destruct (sheet_of_ok b gs pos Hb Hp) as (sh & Es & Hn & Hok & El & Eh).
  pose proof (bo_sheets _ _ Hb) as HO. set (L := gs (object (b_tier b) pos)) in *.
  unfold mark_at. rewrite Es. cbn [bind].
  assert (Hm : let '(c, sh') := if temporal then temporal_mark sh sz else mark sh sz in
    (c = null_chunk /\ sh' = sh) \/
    ((fresh L (addr sh) (addr_end sh) sz c \/ (temporal = true /\ L !! ptr c = Some (len c, Live true))) /\
     granted sh sh' L c (Live temporal))).
  { destruct temporal.
    - pose proof (temporal_mark_spec sh L sz Hok Hsz) as Hm. destruct (temporal_mark sh sz) as [c sh'].
      destruct Hm as [?|[[?|?] ?]]; [by left|right; split; [by left|done]|right; split; [by right|done]].
    - pose proof (sheet_mark_spec sh L sz Hok Hsz) as Hm. destruct (mark sh sz) as [c sh'].
      destruct Hm as [?|[? ?]]; [by left|right; split; [by left|done]]. }
  destruct (if temporal then _ else _) as [c sh']. exists c. eexists. destruct Hm as [[-> ->]|[Hc (Hok' & Hat & Em & Eg)]].
  - exists gs. split; [done|]. destruct (node_sheet_object _ _ _ _ Hn) as [_ Hlk].
    unfold with_sheet. rewrite insert_id by done. destruct b as [t shs cc]. split_and!; try done. by left.
  - assert (Hg0 : (<[ptr c := (len c, Live temporal)]> L) !! ptr c = Some (len c, Live temporal)) by apply lookup_insert_eq.
    destruct (bk_grant _ _ _ _ _ (so_rep _ _ Hok') Hg0) as (H1 & H2 & H3 & _).
    pose proof (so_lo _ _ Hok') as Hl'. pose proof (so_hi _ _ Hok') as Hh'. unfold addr in Hl'. unfold addr_end in Hh'.
    rewrite Em in Hl', Hh'. rewrite Eg in Hh'. fold (addr sh) in Hl'. fold (addr_end sh) in Hh'.
    assert (Hin : lo (entry (__idx (b_tier b)) pos) <= ptr c < hi (entry (__idx (b_tier b)) pos)) by lia.
    assert (Hcase : (fresh L (addr sh) (addr_end sh) sz c /\ forall n u, ~ grant (b_tier b) gs (ptr c) n u) \/
      (temporal = true /\ grant (b_tier b) gs (ptr c) (len c) (Live true))).
    { destruct Hc as [Hf|[Ht Hf]]; [left; split; [done|]|right; split; [done|by exists pos]].
      intros n u Hg. apply (grant_here MaxSheets _ _ _ pos _ _ _ HO Hp) in Hg; [|lia]. fold L in Hg.
      pose proof (f_new _ _ _ _ _ Hf). congruence. }
    assert (Hnc : ~ cached b (ptr c)).
    { intros (x & Hx & Ex). destruct (bo_live _ _ Hb x Hx) as (n & Hg & _). rewrite Ex in Hg.
      destruct Hcase as [[_ Hno]|[_ Hg']]; [by apply Hno in Hg|]. by destruct (grant_inj MaxSheets _ _ _ _ _ _ _ _ HO Hg Hg'). }
    exists (put_grants gs (object (b_tier b) pos) (<[ptr c := (len c, Live temporal)]> L)). split; [done|].
    destruct (with_sheet_ok b gs pos sh sh' _ (ptr c) Hb Hp Hn Hok' Em Eg Hin Hnc) as [Hb' Hheld];
      [intros q Hq; by rewrite lookup_insert_ne|]. cbv zeta in Hb', Hheld.
    split; [done|]. split; [by eapply same_place_put|]. right. exists (len c). split_and!; try lia.
    + apply chunk_valid_not_zero; [|done]. destruct (bk_region _ _ (so_rep _ _ Hok')). unfold usize_max. lia.
    + exists pos. lia.
    + intros p m t. rewrite Hheld. destruct (Z.eqb_spec p (ptr c)) as [->|Hne].
      * rewrite Hg0. split.
        -- intros [= <- <-]. by right.
        -- intros [[_ Hg]|(_ & -> & ->)]; [|done]. destruct Hcase as [[_ Hno]|[-> Hg']]; [by apply Hno in Hg|].
           by destruct (grant_inj MaxSheets _ _ _ _ _ _ _ _ HO Hg Hg') as [-> [= ->]].
      * split; [by left|]. by intros [|[-> _]].
    + destruct Hcase as [[Hf Hno]|[-> Hg']]; [left|right].
      * split; [apply Hf|]. intros p m t (_ & j & Hj & Hg). destruct (Z.eq_dec j pos) as [->|Hjp].
        -- by apply (f_apart _ _ _ _ _ Hf) with (Live t).
        -- pose proof (grant_range MaxSheets _ _ _ _ _ _ _ HO Hj Hg) as (? & ? & ?). unfold apart.
           pose proof (ok_tier _ _ _ _ HO) as HT. destruct (Z.lt_ge_cases j pos); [right|left].
           ++ pose proof (i_sorted _ _ HT j pos ltac:(lia) ltac:(lia) ltac:(lia)). lia.
           ++ pose proof (i_sorted _ _ HT pos j ltac:(lia) ltac:(lia) ltac:(lia)). lia.
      * by split_and!.
Qed.
(** ** The scans *)

Lemma serves_null temporal b gs sz : bucket_ok b gs -> serves temporal b gs sz (Ok (null_chunk, b)).
Proof. intros Hb. exists null_chunk, b, gs. split_and!; try done. by left. Qed.

(** The result of a step that may have been served: return it, or go on. *)
Lemma serves_bind temporal b gs sz r f g :
  serves temporal b gs sz r ->
  (forall c b' gs', bucket_ok b' gs' -> same_place b b' -> chunk_zero c = false ->
     exists b'', f c b' = Ok (c, b'') /\ bucket_ok b'' gs' /\ same_held b' gs' b'' gs' /\ same_place b' b'') ->
  (forall b' gs', bucket_ok b' gs' -> same_held b gs b' gs' -> same_place b b' ->
     serves temporal b gs sz (g b')) ->
  serves temporal b gs sz (let* (c, b') := r in if negb (chunk_zero c) then f c b' else g b').
Proof.
  intros (c & b' & gs' & -> & Hok & HS & Hres) Hf Hg. cbn [bind].
  destruct Hres as [[-> Hsame]|(n & Hz & Hl & Hin & Hheld & Hfresh)].
  - rewrite chunk_zero_null. cbn [negb]. by apply (Hg b' gs').
  - rewrite Hz. cbn [negb]. destruct (Hf c b' gs' Hok HS Hz) as (b'' & -> & Hok'' & Hs'' & HS'').
    exists c, b'', gs'. split_and!; try done; [by eapply same_place_trans|]. right. exists n. split_and!; try done; try lia.
    intros p m t. by rewrite (Hs'' p m t), (Hheld p m t).
Qed.

Lemma serves_return (c : chunk) (b' : bkt) gs' :
  bucket_ok b' gs' -> exists b'', Ok (c, b') = Ok (c, b'') /\ bucket_ok b'' gs' /\ same_held b' gs' b'' gs' /\
    same_place b' b''.
Proof. intros Hok. by exists b'. Qed.

Lemma word_loop_spec (temporal : bool) w sz n : forall b gs mask k,
  bucket_ok b gs -> requested sz -> 0 <= w -> 0 <= mask < 2 ^ 64 -> 0 <= k <= 64 ->
  (forall i, 0 <= i < k -> Z.testbit mask i = false) -> 64 - k < Z.of_nat n ->
  serves temporal b gs sz (word_loop temporal n b w mask sz).
Proof using HM FL BL CL.
  induction n as [|n IH]; intros b gs mask k Hb Hsz Hw Hm Hk Hlow Hn; cbn [word_loop].
  - exfalso. lia.
  - destruct (Z.eqb_spec mask 0) as [->|Hm0]; [by apply serves_null|].
    destruct (ctz_spec mask ltac:(lia)) as (Hc0 & Hct & Hcl). pose proof (ctz_lt mask 64 ltac:(lia)) as Hc64.
    assert (Hkc : k <= ctz mask).
    { destruct (Z.lt_ge_cases (ctz mask) k); [|done]. rewrite Hlow in Hct by lia. done. }
    set (pos := Z.lor (Z.shiftl w 6) (ctz mask)).
    assert (Hpos : 0 <= pos) by (apply Z.lor_nonneg; split; [by apply Z.shiftl_nonneg|done]).
    destruct (Z.leb_spec (__count (b_tier b)) pos); [by apply serves_null|].
    apply serves_bind; [apply mark_at_spec; [done|lia|done]|..].
    + intros c b' gs' Hb' ((_ & _ & Ec) & _) _. exists (set_last_hit b' pos).
      destruct (last_hit_ok b' gs' pos Hb' ltac:(lia)) as [H1 H2]. done.
    + intros b' gs' Hb' Hsame HS. pose proof HS as ((_ & _ & Ec) & _).
      destruct (exhausted_ok b' gs' pos Hb' ltac:(lia)) as (Hb'' & Hsame' & HS').
      destruct (clear_lowest mask ltac:(lia)) as [Hr Hcl'].
      eapply serves_after; [|eapply same_place_trans; [exact HS|exact HS']|].
      * intros p m t. by rewrite (Hsame' p m t), (Hsame p m t).
      * apply (IH _ gs' _ (ctz mask + 1)); try done; try lia. intros i Hi. apply Hcl'. lia.
Qed.

Lemma words_loop_spec (temporal : bool) sz n : forall b gs w,
  bucket_ok b gs -> requested sz -> 0 <= w -> serves temporal b gs sz (words_loop temporal n b w sz).
Proof using HM FL BL CL.
  induction n as [|n IH]; intros b gs w Hb Hsz Hw; cbn [words_loop]; [by apply serves_null|].
  apply serves_bind.
  - apply (word_loop_spec temporal w sz 65 b gs _ 0); try done; [|lia]. apply (i_words _ _ (ok_tier _ _ _ _ (bo_sheets _ _ Hb))).
  - intros c b' gs' Hb' _ _. by apply serves_return.
  - intros b' gs' Hb' Hsame HS. apply (serves_after _ _ _ _ _ _ _ Hsame HS). apply IH; [done|done|lia].
Qed.

(** The scan of a tier ends, whatever the bitmap holds, and serves. *)
Lemma bucket_insert_spec (temporal : bool) b gs sz :
  bucket_ok b gs -> requested sz -> serves temporal b gs sz (bucket_insert MaxSheets temporal b sz).
Proof using HM FL BL CL.
  intros Hb Hsz. unfold bucket_insert, insert_scan. pose proof (ok_tier _ _ _ _ (bo_sheets _ _ Hb)) as HT.
  destruct (Z.ltb_spec (__last_hit (b_tier b)) (__count (b_tier b))) as [Hlh|]; cbn [andb]; [|by apply words_loop_spec].
  destruct (__mask_get _ _); [|by apply words_loop_spec].
  assert (Hpos : 0 <= __last_hit (b_tier b) < __count (b_tier b)).
  { destruct (i_hint _ _ HT) as [E|]; [|done]. pose proof (i_count _ _ HT). unfold __no_hit, __max_sheets in E. lia. }
  apply serves_bind; [by apply mark_at_spec| |].
  - intros c b' gs' Hb' _ _. by apply serves_return.
  - intros b' gs' Hb' Hsame HS. pose proof HS as ((_ & _ & Ec) & _).
    destruct (exhausted_ok b' gs' (__last_hit (b_tier b)) Hb' ltac:(lia)) as (Hb'' & Hsame' & HS').
    eapply serves_after; [|eapply same_place_trans; [exact HS|exact HS']|by apply words_loop_spec].
    intros p m t. by rewrite (Hsame' p m t), (Hsame p m t).
Qed.

(** ** The cache *)

Lemma cached_pop b gs x fc sz :
  bucket_ok b gs -> fc_wf fc -> fc_bag (b_cache b) ≡ₚ x :: fc_bag fc -> sz <= tsize x ->
  serves false b gs sz (Ok (Chunk (tptr x) (tsize x), with_cache b fc)).
Proof.
  intros Hb Hwf Hbag Hsz. pose proof (bo_sheets _ _ Hb) as HO.
  assert (Hin : x ∈ fc_bag (b_cache b)) by (rewrite Hbag; apply elem_of_cons; by left).
  destruct (bo_live _ _ Hb x Hin) as (n & Hg & Hx).
  destruct (grant_valid _ _ _ _ _ _ HO Hg) as (H1 & H2 & H3).
  assert (Hnd : ~ cached (with_cache b fc) (tptr x) /\ NoDup (tptr <$> fc_bag fc)).
  { pose proof (bo_once _ _ Hb) as Hnd. rewrite Hbag in Hnd. cbn in Hnd. apply NoDup_cons in Hnd as [Hni Hnd].
    split; [|done]. intros (y & Hy & Ey). apply Hni. rewrite <- Ey. by apply list_elem_of_fmap_2. }
  assert (Hca : forall p, cached b p <-> p = tptr x \/ cached (with_cache b fc) p).
  { intros p. unfold cached. cbn. setoid_rewrite Hbag. setoid_rewrite elem_of_cons. naive_solver. }
  eexists _, _, gs. split; [done|]. split; [|split; [done|]].
  - split; cbn; try done; [apply Hnd|]. intros y Hy. apply (bo_live _ _ Hb y). rewrite Hbag. apply elem_of_cons. by right.
  - right. exists n. split_and!; cbn [ptr len]; try lia.
    + apply chunk_valid_not_zero; cbn; unfold usize_max; lia.
    + destruct Hg as (i & Hi & Hg). exists i. cbn [ptr len]. pose proof (grant_range MaxSheets _ _ _ _ _ _ _ HO Hi Hg). lia.
    + intros p m t. unfold held. cbn. rewrite Hca. split.
      * intros [Hnc Hgp]. destruct (Z.eq_dec p (tptr x)) as [->|Hne]; [right|left; naive_solver].
        by destruct (grant_inj MaxSheets _ _ _ _ _ _ _ _ HO Hgp Hg) as [-> [= ->]].
      * intros [[Hnc Hgp]|(-> & -> & ->)]; (split; [|done]); [by intros Hc; apply Hnc; right|apply Hnd].
    + left. split; [done|]. intros p m t [Hnc Hgp].
      assert (Hne : tptr x <> p) by (intros <-; apply Hnc; rewrite Hca; by left).
      pose proof (grant_apart MaxSheets _ _ _ _ _ _ _ _ _ HO Hg Hgp Hne) as Hap. unfold apart in *. lia.
Qed.

(** The cache first, then the sheets *)
Lemma pop_or_insert_serves b gs sz :
  bucket_ok b gs -> requested sz -> __default_launder = false -> (caching = true -> sz < 2 ^ 32) ->
  serves false b gs sz (__cache_pop_or_insert MaxSheets b sz).
Proof using HM FL BL CL.
  intros Hb Hsz Hl Hc. unfold __cache_pop_or_insert, __bucket_insert. rewrite Hl. destruct caching; [|by apply bucket_insert_spec].
  rewrite u32_small by (unfold requested in Hsz; specialize (Hc eq_refl); lia).
  pose proof (fc_probed (negb __default_redzone) (b_cache b) sz (bo_cache _ _ Hb)) as Hp.
  replace (if negb __default_redzone then fc_probe_ge (b_cache b) sz else fc_probe (b_cache b) sz)
    with (if __default_redzone then fc_probe (b_cache b) sz else fc_probe_ge (b_cache b) sz) in Hp by (by destruct __default_redzone).
  set (hit := if __default_redzone then _ else _) in *. cbv zeta in Hp.
  destruct (Z.leb_spec 0 hit) as [Hh|Hh]; [|by apply bucket_insert_spec].
  destruct Hp as [[? _]|[E Hp]]; [lia|]. rewrite <- E. destruct (fc_pop_at (b_cache b) hit) as [x fc].
  destruct Hp as (Hx & Hwf & Hbag). by apply cached_pop.
Qed.
End Serve.

#[export] Hint Resolve ok_tier bo_sheets bo_cache : abc.
