(* ===== verification/BucketFree.v ===== *)
(** * Tiers take blocks back

    Removing a block from a tier with all that follows from it: the sheet that
    runs empty is released and leaves list and index, its node goes back to the
    metadata, tombstones are swept.  [tier_ok] joins the tier's invariant with
    that of the metadata its nodes live in. *)

From S2P Require Import Prelude.
From S2P Require Import Intrusive.
From S2P Require Import Config.
From S2P Require Import Buddy.
From S2P Require Import Tcache.
From S2P Require Import Hooks.
From S2P Require Import Book.
From S2P Require Import BuddyInv.
From S2P Require Import BuddyBook.
From S2P Require Import Sheet.
From S2P Require Import SheetProps.
From S2P Require Import Tier.
From S2P Require Import Harden.
From S2P Require Import Kernel.
From S2P Require Import Meta.
From S2P Require Import Bucket.
From S2P Require Import BucketInv.
From S2P Require Import BucketProps.
From S2P Require Import Ground.

(** ** The metadata *)

Section MetaInv.
Context `{CL : ChunkLaws}.

#[local] Instance meta_book : Book buddy := buddy_book __class_arena_internal.
#[local] Instance meta_laws : BookLaws buddy := buddy_book_laws 1024.

Definition meta_ok (e : meta) (gm : Z -> grants) : Prop :=
  sheets_ok __max_sheets_arena_internal (_arena_tier e) (m_sheets e) gm.

(** The block [a] of the metadata is in use, by a node and more. *)
Definition in_meta (e : meta) (gm : Z -> grants) (a : Z) : Prop :=
  exists n, grant (_arena_tier e) gm a n (Live false) /\ sizeof_node < n.

(** The sheets of the metadata are where they were. *)
Definition meta_place (e e' : meta) : Prop :=
  _arena_memory e' = _arena_memory e /\ same_index (_arena_tier e) (_arena_tier e') /\ memory <$> m_sheets e' = memory <$> m_sheets e.

Lemma meta_place_refl e : meta_place e e.
Proof. by split_and!. Qed.

Lemma meta_place_trans e1 e2 e3 : meta_place e1 e2 -> meta_place e2 e3 -> meta_place e1 e3.
Proof. intros (E1 & ((E2 & E3) & E4 & E5) & E6) (F1 & ((F2 & F3) & F4 & F5) & F6). unfold meta_place, same_index. split_and!; congruence. Qed.

Lemma unmark_ok e gm a k :
  meta_ok e gm -> in_meta e gm a -> 0 < k ->
  exists e' gm', __unmark_from_arena e a k = Ok e' /\ meta_ok e' gm' /\ m_process e' = m_process e /\ meta_place e e' /\
    forall x, in_meta e' gm' x <-> x <> a /\ in_meta e gm x.
Proof.
  intros HO (n & (i & Hi & Hg) & Hns) Hk.
  pose proof (grant_range _ _ _ _ _ _ _ _ HO Hi Hg) as (Hlo & Hhi & Hn).
  destruct (ok_at _ _ _ _ HO i Hi) as (sh & Hsh & Hok & _).
  destruct (unmark_spec sh _ a n false k Hok Hg Hk) as (sh' & E & _ & Hok' & Em & Eg).
  pose proof (sheets_ok_put _ _ _ _ _ _ _ _ HO Hi Hsh Hok' Em Eg) as HO'.
  unfold __unmark_from_arena. cbv zeta.
  rewrite (find_range_at __max_sheets_arena_internal (_arena_tier e) i a (ok_tier _ _ _ _ HO) Hi) by lia. cbn [or_fuel bind].
  rewrite (proj2 (Z.ltb_ge i 0)) by lia. rewrite Hsh. cbn [or_stuck bind]. change (Meta.internal_book) with meta_book.
  rewrite E. cbn [or_abort bind]. eexists _, _. split; [done|].
  pose proof (mark_spec __max_sheets_arena_internal ltac:(done) (_arena_tier e) i true (ok_tier _ _ _ _ HO) Hi) as (HT & _ & _).
  assert (HS : same_index (_arena_tier e) (mark_available (_arena_tier e) i)) by done. split.
  - apply (sheets_ok_tier _ _ _ _ _ HO' HS HT).
  - split; [done|]. split.
    { split; [done|]. split; [done|]. cbn [set_tier put_sheet m_sheets]. rewrite fmap_insert. unfold memory at 1. rewrite Em, Eg.
      apply node_sheet_object in Hsh as [_ Hsh]. unfold object in Hsh. apply insert_id. by rewrite lookup_fmap, Hsh. }
    intros x. unfold in_meta. cbn [set_tier put_sheet _arena_tier].
    setoid_rewrite (grant_tier (_arena_tier e) (mark_available (_arena_tier e) i) _ x _ _ HS).
    setoid_rewrite (grant_update __max_sheets_arena_internal (_arena_tier e) (m_sheets e) gm i _ a x _ _ HO Hi ltac:(lia)
      ltac:(intros q Hq; by rewrite lookup_delete_ne)).
    destruct (Z.eqb_spec x a) as [->|]; [|naive_solver]. rewrite lookup_delete_eq. naive_solver.
Qed.
End MetaInv.

(** What the rest of the arena has and a tier must leave alone: the runs in use
    besides those of the tier, nodes of others, each embedded or in the metadata,
    and the places of the metadata; [fr_object] holds of where the sheet object
    of the embedded node may be, [fr_fresh] of tiers that may be unused. *)
Record frame := Frame {
  fr_base : Z;
  fr_runs : list run;
  fr_nodes : Z -> Prop;
  fr_embedded : Z -> Prop;
  fr_object : Z -> Prop;
  fr_fresh : Prop;
  fr_meta : meta
}.

(** ** Giving a sheet back *)

Section Free.
Context {B C : Type} `{CL : ChunkLaws} `{BK : !Book B} `{BL : !BookLaws B} `{FC : !FreeCache C} `{FL : !FreeCacheLaws C}.
Context `{HD : Hardening} `{ST : Settings} `{PL : Platform}.
Context (MaxSheets Sz sizeof head : Z) (HM : 0 < MaxSheets) (Hsizeof : 0 <= sizeof).
Context (F : frame).

Abbreviation bkt := (bucket B C).

(** A tier at work: its sheets and cache, its list of nodes, the metadata, a
    block of the metadata under every node but the embedded one, a run of the
    reservation under every sheet, all apart from what the rest has.  The
    embedded node is in the list, unless the tier was never used.  The cache
    keeps sizes in 32 bits, so the sheets of a tier that caches are below 4 GiB. *)
Record tier_ok (b : bkt) (e : meta) (gs gm : Z -> grants) : Prop := {
  to_bucket : bucket_ok MaxSheets b gs;
  to_nodes : nodes_ok (b_tier b);
  to_meta : meta_ok e gm;
  to_backed n : node_in (b_tier b) n -> n <> head -> in_meta e gm n;
  to_small i : caching = true -> 0 <= i < __count (b_tier b) -> hi (entry (__idx (b_tier b)) i) - lo (entry (__idx (b_tier b)) i) < 2 ^ 32;
  to_ground : exists R, grounded (fr_base F) (b_tier b) (b_sheets b) R /\ va_ok (fr_base F) (va_of (m_process e)) (R ++ fr_runs F);
  to_keep x : fr_nodes F x -> ~ node_in (b_tier b) x /\ (fr_embedded F x \/ in_meta e gm x);
  to_place : meta_place (fr_meta F) e;
  to_objects i : 0 <= i < __count (b_tier b) ->
    object (b_tier b) i = nd (entry (__idx (b_tier b)) i) + sizeof_node \/
    (nd (entry (__idx (b_tier b)) i) = head /\ fr_object F (object (b_tier b) i));
  to_head : node_in (b_tier b) head \/ (fr_fresh F /\ __count (b_tier b) = 0 /\ rd (links (b_tier b)) (head + 0) = 0)
}.

(** A step that changes nobody's blocks *)
Definition calm (b : bkt) gs (r : res (bkt * meta)) : Prop :=
  exists b' e' gm', r = Ok (b', e') /\ tier_ok b' e' gs gm' /\ same_held b gs b' gs.

Lemma calm_here b e gs gm : tier_ok b e gs gm -> calm b gs (Ok (b, e)).
Proof. intros Hok. by exists b, e, gm. Qed.

Lemma calm_after b gs b1 r : same_held b gs b1 gs -> calm b1 gs r -> calm b gs r.
Proof.
  intros Hs (b' & e' & gm' & -> & Hok & Hs'). exists b', e', gm'. split_and!; try done.
  intros p n t. by rewrite (Hs' p n t), (Hs p n t).
Qed.

(** Mask, hint and counter of the tier may change. *)
Lemma tier_ok_with b e gs gm t :
  tier_ok b e gs gm -> same_index (b_tier b) t -> Tier.inv MaxSheets t ->
  tier_ok (with_tier b t) e gs gm /\ same_held b gs (with_tier b t) gs.
Proof.
  intros [Hb Hn Hm Hk Hsm Hgr Hkp Hpl Hobj Hhd] HS HT. destruct (with_tier_ok MaxSheets b gs t Hb HS HT) as [Hb' Hs]. split; [|done].
  pose proof HS as ((E1 & _) & E2 & E3).
  assert (Hin : forall n, node_in t n <-> node_in (b_tier b) n) by (intros n; unfold node_in; by rewrite E2, E3).
  split; cbn; try done; [by eapply nodes_ok_same|setoid_rewrite Hin; done|by rewrite E2, E3| |setoid_rewrite Hin; done| |].
  - destruct Hgr as (R & HR & Hva). exists R. split; [by eapply grounded_place|done].
  - intros i Hi. rewrite E3 in Hi. rewrite (same_object (b_tier b) t i HS), E2. by apply Hobj.
  - by rewrite Hin, E1, E3.
Qed.

(** Releasing a sheet of which nothing is used: its node leaves list and index
    and returns to the metadata, and no client loses a block. *)
Lemma reclaim_spec b e gs gm i sh :
  tier_ok b e gs gm -> 0 <= i < __count (b_tier b) ->
  let n := nd (entry (__idx (b_tier b)) i) in
  node_sheet (b_tier b) (b_sheets b) n = Some sh -> used sh = 0 -> n <> head ->
  exists b' e' gm', reclaim MaxSheets sizeof b e i n (object (b_tier b) i) sh = Ok (b', e') /\
    tier_ok b' e' gs gm' /\ same_held b gs b' gs /\ __count (b_tier b') = __count (b_tier b) - 1.
Proof using HM Hsizeof CL BL FL.
  intros [Hb Hno Hmeta Hback Hsm (R & HR & Hva) Hkeep Hpl Hobj Hhd] Hi n Hn Hu Hh. pose proof (bo_sheets _ _ _ Hb) as HO.
  destruct (remove_entry MaxSheets HM _ _ gs i HO Hno Hi) as (HO' & Hno' & Hc & Hent' & Hg). fold n in HO', Hno', Hc, Hent', Hg.
  set (t' := unregister MaxSheets (unlink_node (b_tier b) n) i) in *.
  assert (Hent : forall j, 0 <= j < __count t' -> entry (__idx t') j = entry (__idx (b_tier b)) (before i j)) by (intros j Hj; by apply Hent').
  destruct (grounded_run (fr_base F) _ _ R i sh HR Hi Hn) as (r & HPr & Hon).
  destruct (release_grounded (fr_base F) (m_process e) sh r (delete (Z.to_nat i) R ++ fr_runs F)) as (sh' & p & Er & Hva');
    [apply (va_ok_perm _ _ _ _ Hva); rewrite HPr at 1; done|done|]. unfold reclaim. rewrite Er. cbn [bind].
  assert (Hnode : node_in (b_tier b) n) by (by exists i).
  destruct (unmark_ok (set_process e p) gm n (sizeof_node + sizeof)) as (e' & gm' & Eu & Hmeta' & Ep & Hpl' & Hin);
    [done|by apply Hback|unfold sizeof_node; lia|]. rewrite Eu. cbn [bind].
  assert (Hlive : forall q k t, grant (b_tier b) gs q k (Live t) ->
    grant t' gs q k (Live t)).
  { intros q k t (j & Hj & Hq). apply Hg. exists j. split_and!; try done; try lia. intros ->.
    destruct (ok_at _ _ _ _ HO i Hi) as (sh0 & Hn0 & Hok & _). fold n in Hn0. rewrite Hn in Hn0. injection Hn0 as <-.
    pose proof (bk_idle _ _ _ _ _ (so_rep _ _ Hok) Hu Hq) as E; discriminate E. }
  assert (Hless : forall q k u, grant t' gs q k u -> grant (b_tier b) gs q k u).
  { intros q k u Hq. apply Hg in Hq as (j & Hj & _ & Hq). by exists j. }
  assert (Hbef : forall j, 0 <= j < __count (b_tier b) - 1 -> 0 <= before i j < __count (b_tier b) /\ before i j <> i)
    by (intros j Hj; unfold before; case_g).
  eexists _, e', gm'. split; [done|]. fold t'. split; [|split; [|exact Hc]].
  - split; cbn [b_tier b_sheets b_cache]; try done.
    + split; cbn [b_tier b_sheets b_cache]; try apply Hb; [done|]. intros x Hx.
      destruct (bo_live _ _ _ Hb x Hx) as (k & Hk & Hz). exists k. split; [by apply Hlive|done].
    + intros m (j & Hj & <-) Hm. rewrite Hent in Hm |- * by done. apply Hin.
      destruct (Hbef j ltac:(lia)) as [Hj' Hne].
      split; [|apply Hback; [by exists (before i j)|done]].
      pose proof (no_apart _ Hno _ _ Hj' Hi Hne) as Hap. fold n in Hap. lia.
    + intros j Hcc Hj. rewrite Hent by done. apply Hsm; [done|]. apply Hbef. lia.
    + exists (delete (Z.to_nat i) R). rewrite Ep. split; [|done]. apply (grounded_remove (fr_base F) (b_tier b) (b_sheets b)); try done.
      intros j Hj. by apply Hent'.
    + intros x Hx. destruct (Hkeep x Hx) as [Hxn Hxm]. split.
      * intros (j & Hj & Ej). apply Hxn. exists (before i j). rewrite <- Hent by done. split; [apply Hbef; lia|done].
      * destruct Hxm as [|Hxm]; [by left|right]. apply Hin. split; [by intros ->|done].
    + apply (meta_place_trans _ _ _ Hpl). apply (meta_place_trans _ (set_process e p)); [by split_and!|done].
    + intros j Hj. rewrite Hent by done. destruct (Hent' j Hj) as (_ & _ & ->). apply Hobj, Hbef. lia.
    + left. destruct Hhd as [(k & Hk & Ek)|(_ & Hz & _)]; [|lia].
      assert (Hki : k <> i) by (intros ->; by apply Hh). exists (if k <? i then k else k - 1).
      assert (Eb : before i (if k <? i then k else k - 1) = k) by (unfold before; repeat case_g). rewrite Hent, Eb; case_g.
  - intros q k t. unfold held, cached. cbn [b_tier b_cache]. split; (intros [Hnc Hq]; split; [done|]); [by apply Hless|by apply Hlive].
Qed.

(** The sheet at an index of a tier at work *)
Lemma sheet_at b e gs gm i :
  tier_ok b e gs gm -> 0 <= i < __count (b_tier b) ->
  exists sh, sheet_of b i = Ok (object (b_tier b) i, sh) /\
    node_sheet (b_tier b) (b_sheets b) (nd (entry (__idx (b_tier b)) i)) = Some sh /\
    sheet_ok sh (gs (object (b_tier b) i)).
Proof.
  intros Hok Hi. destruct (sheet_of_ok MaxSheets b gs i (to_bucket _ _ _ _ Hok) Hi) as (sh & E & Hn & Hs & _). by exists sh.
Qed.

Lemma try_reclaim_calm b e gs gm i :
  tier_ok b e gs gm -> 0 <= i < __count (b_tier b) ->
  calm b gs (__try_reclaim_empty MaxSheets sizeof head b e i (nd (entry (__idx (b_tier b)) i))).
Proof using HM Hsizeof CL BL FL.
  intros Hok Hi. destruct (sheet_at b e gs gm i Hok Hi) as (sh & E & Hn & _). unfold __try_reclaim_empty. rewrite E. cbn [bind].
  destruct (Z.eqb_spec (used sh) 0) as [Hu|], (Z.eqb_spec (nd (entry (__idx (b_tier b)) i)) head) as [|Hh];
    cbn [negb andb]; try by eapply calm_here.
  destruct (negb __default_persistent_mode); [|by eapply calm_here].
  destruct (reclaim_spec b e gs gm i sh Hok Hi Hn Hu Hh) as (b' & e' & gm' & -> & Hok' & Hs & _). by exists b', e', gm'.
Qed.

(** A sweep from any index down ends, and takes no client's block. *)
Lemma sweep_calm gs i : forall b e gm,
  tier_ok b e gs gm -> Z.of_nat i <= __count (b_tier b) -> calm b gs (sweep_loop MaxSheets sizeof head b e i).
Proof using HM Hsizeof CL BL FL.
  induction i as [|i IH]; intros b e gm Hok Hi; cbn [sweep_loop]; [by eapply calm_here|].
  destruct (sheet_at b e gs gm (Z.of_nat i) Hok ltac:(lia)) as (sh & E & Hn & _).
  assert (Hskip : calm b gs (sweep_loop MaxSheets sizeof head b e i)) by (eapply IH; [done|lia]).
  destruct (_ || _) eqn:Eskip; [done|]. rewrite E. cbn [bind]. destruct (Z.eqb_spec (used sh) 0) as [Hu|]; cbn [negb]; [|done].
  destruct (_ && _); [|done]. apply orb_false_iff in Eskip as [_ Hh]. apply Z.eqb_neq in Hh.
  destruct (reclaim_spec b e gs gm (Z.of_nat i) sh Hok ltac:(lia) Hn Hu Hh) as (b' & e' & gm' & -> & Hok' & Hs & Hc).
  cbn [bind]. apply (calm_after _ _ _ _ Hs). eapply IH; [done|lia].
Qed.

(** The sweep counter is no part of the invariant. *)
Lemma count_inv t c : Tier.inv MaxSheets t -> Tier.inv MaxSheets (set_dealloc_count t c).
Proof. intros [H1 H2 H3 H4 H5 H6]. by split. Qed.

Lemma accounting_calm b e gs gm i :
  tier_ok b e gs gm -> 0 <= i < __count (b_tier b) ->
  calm b gs (__tombstone_accounting MaxSheets sizeof head b e i (nd (entry (__idx (b_tier b)) i))).
Proof using HM Hsizeof CL BL FL.
  intros Hok Hi. destruct (sheet_at b e gs gm i Hok Hi) as (sh & E & Hn & _). unfold __tombstone_accounting. rewrite E. cbn [bind].
  destruct (negb (nd (entry (__idx (b_tier b)) i) =? head) && (used sh =? 0) && _ && _) eqn:Ed.
  - apply andb_true_iff in Ed as [Ed _]. apply andb_true_iff in Ed as [Ed _]. apply andb_true_iff in Ed as [Hh Hu].
    apply negb_true_iff, Z.eqb_neq in Hh. apply Z.eqb_eq in Hu.
    destruct (reclaim_spec b e gs gm i sh Hok Hi Hn Hu Hh) as (b' & e' & gm' & -> & Hok' & Hs & _). by exists b', e', gm'.
  - destruct (__default_tombstone_sweep_interval =? 0); [by eapply calm_here|].
    pose proof (ok_tier _ _ _ _ (bo_sheets _ _ _ (to_bucket _ _ _ _ Hok))) as HT.
    destruct (tier_ok_with b e gs gm (bump_dealloc (b_tier b)).2 Hok) as [Hok1 Hs1]; [done|by apply count_inv|].
    unfold bump_dealloc in *. cbn [snd] in *. apply (calm_after _ _ _ _ Hs1). case_match; [|by eapply calm_here].
    unfold __sweep_tier_tombstones. set (b1 := with_tier b _) in *.
    destruct (tier_ok_with b1 e gs gm (set_dealloc_count (b_tier b1) 0) Hok1) as [Hok2 Hs2]; [done|by apply count_inv, count_inv|].
    apply (calm_after _ _ _ _ Hs2). eapply sweep_calm; [done|]. pose proof (i_count _ _ HT). cbn. lia.
Qed.

(** ** Taking a block back *)

(** The block [p] left the client's hands, and nothing else did. *)
Definition taken (b : bkt) gs (p : Z) (r : res (bool * bkt * meta)) : Prop :=
  exists b' e' gs' gm', r = Ok (true, b', e') /\ tier_ok b' e' gs' gm' /\
    forall q m t, held b' gs' q m t <-> q <> p /\ held b gs q m t.

(** Entry [i] of the index is that of the sheet around [p]. *)
Definition around (t : tier) (i p : Z) : Prop :=
  0 <= i < __count t /\ lo (entry (__idx t) i) <= p < hi (entry (__idx t) i).

Lemma taken_calm b gs p b1 gs1 r :
  (forall q m t, held b1 gs1 q m t <-> q <> p /\ held b gs q m t) -> calm b1 gs1 r ->
  taken b gs p (let* (b', e') := r in Ok (true, b', e')).
Proof.
  intros Hh (b' & e' & gm' & -> & Hok & Hs). exists b', e', gs1, gm'. split_and!; try done.
  intros q m t. by rewrite (Hs q m t), (Hh q m t).
Qed.

(** Whatever the way of removal, the sheet loses the live grant at [p] only. *)
Lemma sheet_removes (HasSize tomb : bool) sh L p n t c :
  sheet_ok sh L -> L !! p = Some (n, Live t) -> (HasSize = true -> exists k, 0 < k /\ c = Chunk p k) -> (tomb = true -> t = false) ->
  exists sh' L',
    (if tomb then if HasSize then try_tombstone sh c else try_tombstone_no_size sh p
     else if HasSize then try_unmark sh c else try_unmark_no_size sh p) = Some (true, sh') /\
    sheet_ok sh' L' /\ __kernel_memory sh' = __kernel_memory sh /\ __guard_offset sh' = __guard_offset sh /\
    (forall q, q <> p -> L' !! q = L !! q) /\ (forall m u, L' !! p <> Some (m, Live u)).
Proof.
  intros Hs Hp Hc Ht. destruct tomb.
  - rewrite Ht in Hp by done. destruct HasSize; [destruct Hc as (k & Hk & ->); [done|]|];
      [destruct (sheet_tombstone_spec sh L p n k Hs Hp Hk) as (sh' & E1 & E2 & Hs' & Em & Eg)
      |destruct (sheet_tombstone_spec sh L p n 1 Hs Hp ltac:(lia)) as (sh' & E1 & E2 & Hs' & Em & Eg)];
      exists sh', (<[p := (n, Dead)]> L); (split_and!; try done; [intros; by rewrite lookup_insert_ne|intros; by rewrite lookup_insert_eq]).
  - destruct HasSize; [destruct Hc as (k & Hk & ->); [done|]|];
      [destruct (unmark_spec sh L p n t k Hs Hp Hk) as (sh' & E1 & E2 & Hs' & Em & Eg)
      |destruct (unmark_spec sh L p n t 1 Hs Hp ltac:(lia)) as (sh' & E1 & E2 & Hs' & Em & Eg)];
      exists sh', (delete p L); (split_and!; try done; [intros; by rewrite lookup_delete_ne|intros; by rewrite lookup_delete_eq]).
Qed.

Lemma remove_taken (HasSize Force : bool) b e gs gm i p n t c :
  tier_ok b e gs gm -> around (b_tier b) i p -> ~ cached b p -> grant (b_tier b) gs p n (Live t) ->
  (HasSize = true -> exists k, 0 < k /\ c = Chunk p k) -> (Force || tomb_for Sz = true -> t = false) ->
  taken b gs p (__tier_remove_impl MaxSheets Sz sizeof head HasSize Force b e i p c).
Proof using HM Hsizeof CL BL FL.
  intros Hok [Hi Hp] Hnc Hg Hc Ht. pose proof (to_bucket _ _ _ _ Hok) as Hb. pose proof (bo_sheets _ _ _ Hb) as HO.
  destruct (sheet_at b e gs gm i Hok Hi) as (sh & Es & Hn & Hs).
  pose proof (grant_here MaxSheets _ _ _ i p n _ HO Hi Hp Hg) as HL.
  destruct (sheet_removes HasSize (Force || tomb_for Sz) sh _ p n t c Hs HL Hc Ht) as (sh' & L' & Er & Hs' & Em & Eg & Hne & Hgone).
  unfold __tier_remove_impl. rewrite Es. cbn [bind]. cbv zeta. rewrite Er. cbn [or_abort bind]. rewrite orb_true_r.
  destruct (with_sheet_ok MaxSheets b gs i sh sh' L' p Hb Hi Hn Hs' Em Eg Hp Hnc Hne) as [Hb1 Hh1]. cbv zeta in Hb1, Hh1.
  set (b1 := with_sheet b (object (b_tier b) i) sh') in *. set (gs1 := put_grants gs (object (b_tier b) i) L') in *.
  assert (Hok1 : tier_ok b1 e gs1 gm).
  { split; try apply Hok; [done|]. destruct (to_ground _ _ _ _ Hok) as (R & HR & Hva). exists R. split; [|done].
    destruct (same_place_put b i sh sh' Hn Em Eg) as [HS1 HG1]. by eapply grounded_place. }
  assert (Hh : forall q m u, held b1 gs1 q m u <-> q <> p /\ held b gs q m u).
  { intros q m u. rewrite Hh1. destruct (Z.eqb_spec q p) as [->|]; [|naive_solver]. split; [intros Hu; by apply Hgone in Hu|naive_solver]. }
  destruct (mark_spec MaxSheets HM (b_tier b1) i true (ok_tier _ _ _ _ HO) Hi) as (HT2 & _ & _).
  destruct (tier_ok_with b1 e gs1 gm (mark_available (b_tier b1) i) Hok1) as [Hok2 Hs2]; [done|done|].
  set (b2 := with_tier b1 _) in *. apply (taken_calm b gs p b2 gs1).
  - intros q m u. by rewrite (Hs2 q m u), (Hh q m u).
  - change (nd (entry (__idx (b_tier b)) i)) with (nd (entry (__idx (b_tier b2)) i)).
    destruct (Force || tomb_for Sz); [by apply accounting_calm with gm|by apply try_reclaim_calm with gm].
Qed.

(** ** The cache takes a block first *)

Lemma cached_iff b gs p : bucket_ok MaxSheets b gs -> fc_contains (b_cache b) p = true <-> cached b p.
Proof. intros Hb. apply fc_contained. apply Hb. Qed.

Lemma not_cached b gs p : bucket_ok MaxSheets b gs -> ~ cached b p -> fc_contains (b_cache b) p = false.
Proof. intros Hb Hn. apply not_true_iff_false. by rewrite (cached_iff b gs p Hb). Qed.

(** Pushing a live block on the cache, or removing it when the cache is full *)
Lemma push_taken b e gs gm p n k r :
  tier_ok b e gs gm -> ~ cached b p -> grant (b_tier b) gs p n (Live false) -> 0 < k <= n ->
  taken b gs p (r b e) ->
  taken b gs p (let '(pushed, fc) := fc_push (b_cache b) p k in
    if pushed : bool then Ok (true, with_cache b fc, e) else r (with_cache b fc) e).
Proof.
  intros Hok Hnc Hg Hk Hr. pose proof (to_bucket _ _ _ _ Hok) as Hb.
  pose proof (fc_pushed (b_cache b) p k (bo_cache _ _ _ Hb)) as Hp. destruct (fc_push (b_cache b) p k) as [[] fc].
  - destruct Hp as [Hwf Hbag]. exists (with_cache b fc), e, gs, gm.
    assert (Hca : forall q, cached (with_cache b fc) q <-> q = p \/ cached b q).
    { intros q. unfold cached. cbn. setoid_rewrite Hbag. setoid_rewrite elem_of_cons. naive_solver. }
    split; [done|]. split; [split; try apply Hok; split; cbn; try apply Hb; try done|].
    + rewrite Hbag. cbn. apply NoDup_cons. split; [|apply Hb]. intros Hin. apply list_elem_of_fmap in Hin as (x & E & Hx). apply Hnc. by exists x.
    + intros x. rewrite Hbag, elem_of_cons. intros [->|Hx]; [exists n; cbn; done|by apply (bo_live _ _ _ Hb)].
    + intros q m t. unfold held. cbn. rewrite Hca. naive_solver.
  - subst fc. by replace (with_cache b (b_cache b)) with b by (by destruct b).
Qed.

(** What the sheet answers about a live block *)
Lemma live_answers b e gs gm i p n t :
  tier_ok b e gs gm -> around (b_tier b) i p -> grant (b_tier b) gs p n (Live t) ->
  exists sh, sheet_of b i = Ok (object (b_tier b) i, sh) /\ is_block_allocated sh p = true /\
    is_temporal_block sh p = t /\ block_size_of sh p = n + __hdr_offset /\ 0 < n.
Proof.
  intros Hok [Hi Hp] Hg. pose proof (bo_sheets _ _ _ (to_bucket _ _ _ _ Hok)) as HO.
  destruct (sheet_at b e gs gm i Hok Hi) as (sh & Es & Hn & Hs). exists sh.
  pose proof (grant_here MaxSheets _ _ _ i p n _ HO Hi Hp Hg) as HL.
  destruct (sheet_grant sh _ p n _ Hs HL) as (_ & _ & _ & _ & _ & Ea & Et & Eb).
  destruct (grant_valid MaxSheets _ _ _ _ _ _ HO Hg) as (_ & Hn0 & _).
  rewrite Ea, Et, bool_decide_true by done. split_and!; try done. by destruct t.
Qed.

Lemma live_small b e gs gm i p n t :
  tier_ok b e gs gm -> around (b_tier b) i p -> grant (b_tier b) gs p n (Live t) -> caching = true -> n < 2 ^ 32.
Proof.
  intros Hok [Hi Hp] Hg Hca. pose proof (bo_sheets _ _ _ (to_bucket _ _ _ _ Hok)) as HO.
  pose proof (grant_range MaxSheets _ _ _ _ _ _ _ HO Hi (grant_here MaxSheets _ _ _ i p n _ HO Hi Hp Hg)).
  pose proof (to_small _ _ _ _ Hok i Hca Hi). lia.
Qed.

(** Without a size: the cache is tried when the block is not temporal. *)
Lemma remove_at_taken b e gs gm i p n t :
  tier_ok b e gs gm -> around (b_tier b) i p -> held b gs p n t -> (tomb_for Sz = true -> t = false) ->
  taken b gs p (__tier_remove_at MaxSheets Sz sizeof head b e i p).
Proof using HM Hsizeof CL BL FL.
  intros Hok Hcov [Hnc Hg] Ht. destruct (live_answers b e gs gm i p n t Hok Hcov Hg) as (sh & Es & Ea & Et & Eb & Hn).
  assert (Hr : forall c, taken b gs p (__tier_remove_impl MaxSheets Sz sizeof head false false b e i p c))
    by (intros c; by eapply remove_taken).
  assert (Hhdr : (__hdr_offset <? n + __hdr_offset) = true) by case_g.
  unfold __tier_remove_at. rewrite Es. cbn [bind].
  rewrite Ea, andb_false_r, (not_cached b gs p (to_bucket _ _ _ _ Hok) Hnc), Et, Eb, Hhdr.
  destruct (caching && negb __default_redzone) eqn:Eca; [|done]. apply andb_true_iff in Eca as [Eca _].
  pose proof (live_small b e gs gm i p n t Hok Hcov Hg Eca). destruct t; cbn [negb]; [done|].
  rewrite Z.add_simpl_r, u32_small by lia.
  apply (push_taken b e gs gm p n n (fun b e => __tier_remove_impl MaxSheets Sz sizeof head false false b e i p null_chunk)); try done; lia.
Qed.

(** With a size: the cache is tried whatever the block is. *)
Lemma push_or_remove_taken b e gs gm i p n t k :
  tier_ok b e gs gm -> around (b_tier b) i p -> held b gs p n t -> (tomb_for Sz = true -> t = false) ->
  0 < k -> (caching = true -> t = false) ->
  taken b gs p (__cache_push_or_remove MaxSheets Sz sizeof head b e i (Chunk p k)).
Proof using HM Hsizeof CL BL FL.
  intros Hok Hcov [Hnc Hg] Ht Hk Hct. destruct (live_answers b e gs gm i p n t Hok Hcov Hg) as (sh & Es & Ea & Et & Eb & Hn).
  assert (Hrs : taken b gs p (__tier_remove MaxSheets Sz sizeof head b e i (Chunk p k)))
    by (eapply remove_taken; try done; intros _; by exists k).
  assert (Hhdr : (__hdr_offset <? n + __hdr_offset) = true) by case_g.
  unfold __cache_push_or_remove. destruct caching eqn:Eca; [|done]. rewrite Es. cbn [bind ptr len].
  rewrite Ea, (not_cached b gs p (to_bucket _ _ _ _ Hok) Hnc), Eb, Hhdr. cbn [negb orb]. rewrite Z.add_simpl_r.
  pose proof (live_small b e gs gm i p n t Hok Hcov Hg Eca). rewrite Hct in Hg by done.
  assert (Hcl : 0 < (if n <? k then n else k) <= n) by case_g. rewrite u32_small by lia.
  apply (push_taken b e gs gm p n _ (fun b e => __tier_remove MaxSheets Sz sizeof head b e i (Chunk p k))); done.
Qed.

(** C22. A block in a client's hands is taken back, whichever way it is freed: the
    answer is true and the client has exactly the other blocks, while the tier
    and its metadata stay well formed, whether the block goes to the cache, to
    its sheet, or makes its sheet run empty and be released.  With a size, a
    tier that caches wants a block that is not temporal; a tombstoning tier
    always does. *)
Theorem bucket_takes_back b e gs gm i p n t :
  tier_ok b e gs gm -> around (b_tier b) i p -> held b gs p n t -> (tomb_for Sz = true -> t = false) ->
  taken b gs p (__tier_remove_at MaxSheets Sz sizeof head b e i p) /\
  forall k, 0 < k -> (caching = true -> t = false) ->
    taken b gs p (__cache_push_or_remove MaxSheets Sz sizeof head b e i (Chunk p k)).
Proof using HM Hsizeof CL BL FL.
  intros Hok Hcov Hh Ht. split; [by eapply remove_at_taken|]. intros k Hk Hct. by eapply push_or_remove_taken.
Qed.

(** C23. Freeing a block twice goes to the double-free handler and changes nothing,
    whether the block waits in the cache or is a tombstone; with the action 2 of
    the default settings the process ends there. *)
Theorem bucket_double_free b e gs gm i p n :
  tier_ok b e gs gm -> around (b_tier b) i p -> __default_redzone = false -> caching = true ->
  cached b p \/ grant (b_tier b) gs p n Dead ->
  __tier_remove_at MaxSheets Sz sizeof head b e i p = double_free b e p /\
  (forall k, __cache_push_or_remove MaxSheets Sz sizeof head b e i (Chunk p k) = double_free b e p) /\
  (__default_double_free_action = 2 -> double_free b e p = Abort).
Proof using HM CL BL FL.
  intros Hok Hcov Hrz Hca Hwhy. pose proof (to_bucket _ _ _ _ Hok) as Hb. pose proof Hcov as [Hi Hp].
  destruct (sheet_at b e gs gm i Hok Hi) as (sh & Es & Hns & Hs).
  assert (Hans : is_block_allocated sh p = false \/ fc_contains (b_cache b) p = true).
  { destruct Hwhy as [Hc|Hd]; [right; by apply (cached_iff b gs)|left].
    pose proof (grant_here MaxSheets _ _ _ i p n _ (bo_sheets _ _ _ Hb) Hi Hp Hd) as HL.
    destruct (sheet_grant sh _ p n Dead Hs HL) as (_ & _ & _ & _ & _ & -> & _). by rewrite bool_decide_false by tauto. }
  split_and!.
  - unfold __tier_remove_at. rewrite Es, Hrz, Hca. cbn [bind negb andb].
    destruct Hans as [->| ->]; [done|]. by destruct (is_block_allocated sh p).
  - intros k. unfold __cache_push_or_remove. rewrite Es, Hca. cbn [bind ptr].
    destruct Hans as [->| ->]; [done|]. by rewrite orb_true_r.
  - intros Ha. unfold double_free, handle_double_free. by rewrite Ha.
Qed.

(** ** A temporal block freed with its size *)

(** Freed with a size, a temporal block goes where every block goes. *)
Lemma temporal_pushed b e gs gm i p n k fc :
  tier_ok b e gs gm -> around (b_tier b) i p -> held b gs p n true -> caching = true -> 0 < k ->
  fc_push (b_cache b) p (Z.min k n) = (true, fc) ->
  __cache_push_or_remove MaxSheets Sz sizeof head b e i (Chunk p k) = Ok (true, with_cache b fc, e) /\
  fc_wf fc /\ fc_bag fc ≡ₚ TChunk p (Z.min k n) :: fc_bag (b_cache b) /\
  exists sh, sheet_of b i = Ok (object (b_tier b) i, sh) /\ is_block_allocated sh p = true /\ is_temporal_block sh p = true.
Proof using CL BL FL.
  intros Hok Hcov [Hnc Hg] Hca Hk Ep. destruct (live_answers b e gs gm i p n true Hok Hcov Hg) as (sh & Es & Ea & Et & Eb & Hn).
  pose proof (to_bucket _ _ _ _ Hok) as Hb. pose proof (live_small b e gs gm i p n true Hok Hcov Hg Hca).
  pose proof (fc_pushed (b_cache b) p (Z.min k n) (bo_cache _ _ _ Hb)) as Hp. rewrite Ep in Hp. destruct Hp as [Hwf Hbag].
  split_and!; [|done|done|by exists sh]. unfold __cache_push_or_remove. rewrite Hca, Es. cbn [bind ptr len].
  rewrite Ea, (not_cached b gs p Hb Hnc), Eb. cbn [negb orb]. rewrite Z.add_simpl_r.
  replace (if n <? k then n else k) with (Z.min k n) by case_g. rewrite u32_small by lia.
  destruct (Z.ltb_spec __hdr_offset (n + __hdr_offset)); [|lia]. by rewrite Ep.
Qed.

(** The cache answers with the only entry that is long enough. *)
Lemma cache_answers b fc p m L sz :
  caching = true -> __default_redzone = false -> requested sz -> sz < 2 ^ 32 -> sz <= m ->
  fc_wf fc -> fc_bag fc ≡ₚ TChunk p m :: L -> (forall x, x ∈ L -> tsize x < sz) ->
  exists fc', __cache_pop_or_insert MaxSheets (with_cache b fc) sz = Ok (Chunk p m, with_cache b fc') /\ fc_bag fc' ≡ₚ L.
Proof using FL.
  intros Hca Hrz Hsz Hu Hm Hwf Hbag HL. unfold __cache_pop_or_insert. rewrite Hca, Hrz. cbn [b_cache with_cache].
  rewrite u32_small by (unfold requested in Hsz; lia). cbv zeta.
  destruct (fc_probed true fc sz Hwf) as [[_ Hno]|[E Hp]].
  - exfalso. specialize (Hno (TChunk p m)). rewrite Hbag in Hno. specialize (Hno (list_elem_of_here _ _)). cbn in Hno. lia.
  - pose proof (u32_range (fc_probe_ge fc sz)). rewrite <- E. destruct (Z.leb_spec 0 (fc_probe_ge fc sz)); [|lia].
    destruct (fc_pop_at fc _) as [x fc']. destruct Hp as (Hx & _ & Hbag'). exists fc'. rewrite Hbag in Hbag'.
    assert (Hin : x ∈ TChunk p m :: L) by (rewrite Hbag'; apply list_elem_of_here).
    apply elem_of_cons in Hin as [->|Hin]; [|apply HL in Hin; lia].
    split; [done|]. symmetry. by apply Permutation_cons_inv in Hbag'.
Qed.

(** C24. A temporal block that is freed with its size to a tier that caches is not
    returned to its sheet: when the cache has room it keeps the block, while the
    sheet goes on counting it as a live temporal block, and the tier is no
    longer well formed.  The next request that the block is long enough for and
    nothing else in the cache is gets it, while the sheet still has it as the
    temporal block that its other holders share. *)
Theorem sized_free_shares_temporal b e gs gm i p n k fc :
  tier_ok b e gs gm -> around (b_tier b) i p -> held b gs p n true -> caching = true -> 0 < k ->
  fc_push (b_cache b) p (Z.min k n) = (true, fc) ->
  __cache_push_or_remove MaxSheets Sz sizeof head b e i (Chunk p k) = Ok (true, with_cache b fc, e) /\
  cached (with_cache b fc) p /\ ~ bucket_ok MaxSheets (with_cache b fc) gs /\
  forall sz, __default_redzone = false -> requested sz -> sz <= Z.min k n ->
    (forall x, x ∈ fc_bag (b_cache b) -> tsize x < sz) ->
    exists fc' sh, __cache_pop_or_insert MaxSheets (with_cache b fc) sz = Ok (Chunk p (Z.min k n), with_cache b fc') /\
      ~ cached (with_cache b fc') p /\ sheet_of (with_cache b fc') i = Ok (object (b_tier b) i, sh) /\
      is_block_allocated sh p = true /\ is_temporal_block sh p = true.
Proof using CL BL FL.
  intros Hok Hcov Hh Hca Hk Ep. destruct (temporal_pushed b e gs gm i p n k fc Hok Hcov Hh Hca Hk Ep) as (E & Hwf & Hbag & sh & Es & Ea & Et).
  pose proof Hh as [Hnc Hg]. pose proof (to_bucket _ _ _ _ Hok) as Hb.
  pose proof (live_small b e gs gm i p n true Hok Hcov Hg Hca).
  assert (Hin : TChunk p (Z.min k n) ∈ fc_bag fc) by (rewrite Hbag; apply list_elem_of_here).
  split_and!; [done|by exists (TChunk p (Z.min k n))| |].
  - intros Hb'. destruct (bo_live _ _ _ Hb' _ Hin) as (m & Hg' & _). cbn [tptr b_tier with_cache] in Hg'.
    by destruct (grant_inj MaxSheets _ _ _ _ _ _ _ _ (bo_sheets _ _ _ Hb) Hg Hg') as [_ [=]].
  - intros sz Hrz Hsz Hle Hother.
    destruct (cache_answers b fc p (Z.min k n) _ sz Hca Hrz Hsz ltac:(lia) Hle Hwf Hbag Hother) as (fc' & Eg & Hbag').
    exists fc', sh. split_and!; try done. intros (x & Hx & Ex). apply Hnc. exists x. split; [|done]. by rewrite <- Hbag'.
Qed.

(** ** A client of the tier *)

(** What serving keeps of the tier *)
Lemma serves_tier t b e gs gm sz r :
  tier_ok b e gs gm -> serves MaxSheets t b gs sz r ->
  exists c b' gs', r = Ok (c, b') /\ tier_ok b' e gs' gm /\
    ((c = null_chunk /\ same_held b gs b' gs') \/ exists n, served t b gs b' gs' sz c n).
Proof using CL BL FL.
  intros Hok Hsv. pose proof Hok as [Hb Hno Hmeta Hback Hsm Hgr Hkp Hpl Hobj Hhd].
  destruct Hsv as (c & b' & gs' & E & Hb' & HS & Hres).
  exists c, b', gs'. split; [done|]. split; [|done]. destruct HS as [HS HG]. pose proof HS as ((E1 & _) & E2 & E3).
  split; try done; [by eapply nodes_ok_same|..]; unfold node_in; rewrite ?E1, ?E2, ?E3; try done.
  - destruct Hgr as (R & HR & Hva). exists R. split; [by eapply grounded_place|done].
  - intros i Hi. rewrite (same_object _ _ i HS). by apply Hobj.
Qed.

Lemma tier_serves b e gs gm sz :
  tier_ok b e gs gm -> requested sz -> __default_launder = false -> (caching = true -> sz < 2 ^ 32) ->
  exists c b' gs', __cache_pop_or_insert MaxSheets b sz = Ok (c, b') /\ tier_ok b' e gs' gm /\
    ((c = null_chunk /\ same_held b gs b' gs') \/ exists n, served false b gs b' gs' sz c n).
Proof using HM CL BL FL.
  intros Hok Hsz Hl Hc. eapply serves_tier; [done|]. apply pop_or_insert_serves; try done. by apply to_bucket in Hok.
Qed.

(** C21. A request to a tier is answered from its cache or from its sheets: with a
    chunk that is long enough, lies in a sheet of the tier and overlaps no block
    a client holds; or with null, and then nothing changed hands.  The search
    always ends, and leaves the tier and its metadata well formed. *)
Theorem bucket_serves b e gs gm sz :
  tier_ok b e gs gm -> requested sz -> __default_launder = false -> (caching = true -> sz < 2 ^ 32) ->
  exists c b' gs', __cache_pop_or_insert MaxSheets b sz = Ok (c, b') /\ tier_ok b' e gs' gm /\
    ((c = null_chunk /\ same_held b gs b' gs') \/
     (sz <= len c /\ in_sheet (b_tier b) c /\ (forall p m t, held b gs p m t -> apart (ptr c) (len c) p m) /\
      exists n, len c <= n /\ forall p m t, held b' gs' p m t <-> held b gs p m t \/ (p = ptr c /\ m = n /\ t = false))).
Proof using HM CL BL FL.
  intros Hok Hsz Hl Hc. destruct (tier_serves b e gs gm sz Hok Hsz Hl Hc) as (c & b' & gs' & E & Hok' & Hres).
  exists c, b', gs'. split_and!; [done..|]. destruct Hres as [|(n & _ & Hn & Hin & Hh & [[Hs Ha]|[? _]])]; [by left|right|done].
  split_and!; try done. exists n. split; [lia|done].
Qed.
End Free.

#[export] Hint Resolve to_bucket to_nodes to_meta : abc.
