(* ===== verification/MetaGrow.v ===== *)
(** * The metadata at work

    Blocks for nodes and sheet objects come from the sheets of [_arena_tier],
    which gets a new sheet, its node and object in [_arena_memory], when the
    last one is full.  [meta_at] is the invariant of both levels; marking a
    block keeps it and ends, or ends the process. *)

From S2P Require Import Prelude.
From S2P Require Import Intrusive.
From S2P Require Import Config.
From S2P Require Import Buddy.
From S2P Require Import VaReserve.
From S2P Require Import Hooks.
From S2P Require Import Book.
From S2P Require Import BuddyInv.
From S2P Require Import BuddyBook.
From S2P Require Import Sheet.
From S2P Require Import SheetProps.
From S2P Require Import Tier.
From S2P Require Import Kernel.
From S2P Require Import Meta.
From S2P Require Import Bucket.
From S2P Require Import BucketInv.
From S2P Require Import Ground.
From S2P Require Import Enlist.
From S2P Require Import BucketFree.

#[local] Existing Instance meta_book.
#[local] Existing Instance meta_laws.

(** The node at [x] has no byte in the reservation at [base]. *)
Definition outside (base x : Z) : Prop := 0 < x /\ (x + 24 <= base \/ base + __va_reservation_size <= x).

Section MetaGrow.
Context `{CL : ChunkLaws} `{ST : Settings} `{PL : Platform} `{RS : !Reserved}.
(** The reservation, the arena, and the embedded node of [_arena_tier] *)
Context (base self mhead : Z) (Hmh : outside base mhead) (Hsz : 0 < sizeof_sheet < 2 ^ 40).

(** A block in use of [_arena_memory] that holds a node and more *)
Definition in_first (gM : grants) (n : Z) : Prop := exists k, gM !! n = Some (k, Live false) /\ sizeof_node < k.

Record meta_at (e : meta) (gm : Z -> grants) (gM : grants) (rM : run) (RM : list run) : Prop := {
  ma_ok : meta_ok e gm;
  ma_nodes : nodes_ok (_arena_tier e);
  ma_memory : sheet_ok (_arena_memory e) gM;
  ma_run : on_run base (__kernel_memory (_arena_memory e)) (__guard_offset (_arena_memory e)) rM;
  ma_ground : grounded base (_arena_tier e) (m_sheets e) RM;
  ma_some : 1 <= __count (_arena_tier e);
  ma_backed n : node_in (_arena_tier e) n -> n = mhead \/ in_first gM n;
  ma_objects i : 0 <= i < __count (_arena_tier e) ->
    object (_arena_tier e) i = nd (entry (__idx (_arena_tier e)) i) + sizeof_node \/
    exists k, gM !! object (_arena_tier e) i = Some (k, Live false)
}.

(** The runs of the metadata and of everything else are in use. *)
Definition meta_va (e : meta) (rM : run) (RM live : list run) : Prop :=
  va_ok base (va_of (m_process e)) (rM :: RM ++ live).

(** Frees in the metadata keep all of it. *)
Lemma meta_at_place e e' gm gm' gM rM RM :
  meta_at e gm gM rM RM -> meta_place e e' -> meta_ok e' gm' -> meta_at e' gm' gM rM RM.
Proof.
  intros [H1 H2 H3 H4 H5 H6 H7 H8] (EM & HS & HG) Hm. pose proof HS as (_ & E2 & E3).
  split; rewrite ?EM; try done; [by eapply nodes_ok_same|by eapply grounded_place|lia|unfold node_in; by rewrite E2, E3|].
  intros i Hi. rewrite E3 in Hi. rewrite (same_object _ _ i HS), E2. by apply H8.
Qed.

(** A chunk for a sheet of the metadata, with a guard page or without *)
Lemma guarded_chunk_spec (guarded : bool) p live sz :
  va_ok base (va_of p) live -> 0 < sz < 2 ^ 51 ->
  let r := if guarded then __get_guarded_kernel_chunk p sz else kernel_chunk p sz in
  r = Abort \/
  exists r0 p', r = Ok (Chunk (base + r0.1) (r0.2 * 2097152), p') /\ va_ok base (va_of p') (r0 :: live) /\
    r0.2 * 2097152 < sz + 2 ^ 22.
Proof using RS.
  intros HV Hs. cbv zeta. destruct guarded.
  - unfold __get_guarded_kernel_chunk. rewrite u64_small by (unfold __system_pagesize; lia).
    destruct (kernel_chunk_spec base p live (sz + __system_pagesize) HV) as [->|(r & p' & -> & HV' & Hr)]; [unfold __system_pagesize; lia|by left|].
    cbn [bind]. unfold __system_pagesize in Hr. case_match; [by left|]. unfold __make_guard, ask. case_match; [by left|right].
    cbn [bind]. eexists r, _. split; [done|]. split; [exact HV'|lia].
  - destruct (kernel_chunk_spec base p live sz HV) as [->|(r & p' & -> & HV' & Hr)]; [lia|by left|].
    right. exists r, p'. split; [done|]. split; [done|lia].
Qed.

Lemma meta_chunk_spec p live sz :
  va_ok base (va_of p) live -> 0 < sz < 2 ^ 51 ->
  let r := if __default_guard_arena_metadata then __get_guarded_kernel_chunk p sz
           else let* (chnk, p) := kernel_chunk p sz in
                if negb (__kernel_chunk_valid chnk) then Abort else Ok (chnk, p) in
  r = Abort \/
  exists r0 p', r = Ok (Chunk (base + r0.1) (r0.2 * 2097152), p') /\ va_ok base (va_of p') (r0 :: live) /\
    r0.2 * 2097152 < sz + 2 ^ 22.
Proof using RS.
  intros HV Hs. pose proof (guarded_chunk_spec __default_guard_arena_metadata p live sz HV Hs) as Hc. cbv zeta in *.
  destruct __default_guard_arena_metadata; [done|]. destruct Hc as [->|(r & p' & -> & HV' & Hr)]; [by left|].
  cbn [bind]. case_match; [by left|right]. by exists r, p'.
Qed.

(** A new block of [_arena_memory]: for a sheet object, or for a node and its
    sheet object *)
Lemma first_block e gm gM rM RM sz :
  meta_at e gm gM rM RM -> (exists live, meta_va e rM RM live) -> requested sz ->
  exists buf e', mark_memory e sz = Ok (buf, e') /\
    (chunk_failed_allocation buf = true \/
     (chunk_failed_allocation buf = false /\
      exists gM', meta_at e' gm gM' rM RM /\ _arena_tier e' = _arena_tier e /\ m_sheets e' = m_sheets e /\ m_process e' = m_process e /\
        memory (_arena_memory e') = memory (_arena_memory e) /\ is_at (_arena_memory e) (ptr buf) = true /\ ptr buf <> 0 /\
        (sizeof_node < sz -> in_first gM' (ptr buf) /\ node_apart (_arena_tier e) (ptr buf) /\
           forall i, 0 <= i < __count (_arena_tier e) -> object (_arena_tier e) i <> ptr buf + sizeof_node))).
Proof using Hmh Hsz CL PL RS.
  intros HA (live & HV) Hreq. pose proof HA as [H1 H2 H3 H4 H5 H6 H7 H8]. unfold mark_memory. change Meta.internal_book with meta_book.
  destruct (try_mark_spec (_arena_memory e) gM sz H3 Hreq) as (c & sh & -> & Hres). cbn [or_abort bind]. eexists c, _. split; [done|].
  destruct Hres as [[Hf _]|(Hf & Hfr & Hok & Hat & Em & Eg)]; [by left|right; split; [done|]]. pose proof Hfr as [Hnew Hlen Hreg Hap].
  destruct (on_run_bounds base _ _ (_arena_memory e) rM HV ltac:(set_solver) H4) as [E1 E2].
  destruct (run_bounds base _ _ rM HV ltac:(set_solver)) as (B0 & B1 & B2). destruct (va_room _ _ _ HV) as [B3 _].
  assert (Hc : base <= ptr c /\ ptr c + len c <= base + __va_reservation_size) by lia.
  assert (Hkeep : forall q k, gM !! q = Some (k, Live false) -> <[ptr c := (len c, Live false)]> gM !! q = Some (k, Live false)).
  { intros q k Hq. rewrite lookup_insert_ne; [done|]. intros <-. by rewrite Hnew in Hq. }
  exists (<[ptr c := (len c, Live false)]> gM). cbn [set_memory _arena_memory _arena_tier m_sheets m_process].
  split_and!; try done.
  - split; cbn [set_memory _arena_memory _arena_tier m_sheets]; rewrite ?Em, ?Eg; try done.
    + intros n Hn. destruct (H7 n Hn) as [|(k & Hk & Hk32)]; [by left|right]. exists k. split; [by apply Hkeep|done].
    + intros i Hi. destruct (H8 i Hi) as [|(k & Hk)]; [by left|right]. exists k. by apply Hkeep.
  - unfold memory. by rewrite Em, Eg.
  - lia.
  - intros Hbig. assert (Hnode : node_apart (_arena_tier e) (ptr c)).
    { intros x Hx. destruct (H7 x Hx) as [->|(k & Hk & Hk32)]; [destruct Hmh as [_ Hm]; unfold sizeof_node in *; lia|].
      pose proof (Hap _ _ _ Hk) as Ha. unfold apart, sizeof_node in *. lia. }
    split; [exists (len c); split; [apply lookup_insert_eq|lia]|split; [done|]]. intros i Hi E. destruct (H8 i Hi) as [Eo|(k & Hk)].
    + assert (Hn : node_in (_arena_tier e) (nd (entry (__idx (_arena_tier e)) i))) by (by exists i). specialize (Hnode _ Hn). lia.
    + pose proof (Hap _ _ _ Hk) as Ha. destruct (bk_grant _ _ _ _ _ (so_rep _ _ H3) Hk) as (_ & _ & Hpos & _).
      rewrite E in Ha. unfold apart, sizeof_node in *. lia.
Qed.

(** Nobody's block changes hands. *)
Definition same_blocks (e : meta) gm (e' : meta) gm' : Prop := forall x k u, grant (_arena_tier e') gm' x k u <-> grant (_arena_tier e) gm x k u.

(** Another sheet for the metadata, or the process ends. *)
Lemma expand_meta_spec e gm gM rM RM live sz :
  meta_at e gm gM rM RM -> meta_va e rM RM live -> 0 < sz < 2 ^ 51 ->
  __expand_arena_tier self e sz = Abort \/
  exists e' gm' gM' RM', __expand_arena_tier self e sz = Ok e' /\ meta_at e' gm' gM' rM RM' /\ meta_va e' rM RM' live /\
    __count (_arena_tier e') = __count (_arena_tier e) + 1 /\ same_blocks e gm e' gm' /\
    memory (_arena_memory e') = memory (_arena_memory e).
Proof using Hmh Hsz CL PL RS.
  intros HA HV Hs. unfold __expand_arena_tier. cbv zeta.
  destruct (first_block e gm gM rM RM (sizeof_node + sizeof_sheet) HA (ex_intro _ live HV)) as
    (buf & e1 & -> & [Ef|(Ef & gM' & HA1 & Et & Esh & Ep & EM & _ & Hn0 & Hnew)]); [unfold requested, sizeof_node; lia|..];
    cbn [bind]; rewrite Ef; [by left|]. destruct Hnew as (Hin & Hap & Hfr); [lia|]. set (n := ptr buf) in *. unfold meta_va in HV. rewrite <- Ep in HV.
  destruct (meta_chunk_spec (m_process e1) _ sz HV Hs) as [->|(r & p1 & -> & HV1 & Hr)]; [by left|]. cbn [bind].
  assert (Hrb : r.2 * 2097152 <= @bk_most _ _ _ meta_laws) by (cbn; lia). change Meta.internal_book with meta_book.
  destruct (new_sheet_spec base p1 _ self __default_guard_arena_metadata r HV1 Hrb) as [->|(sh & p2 & -> & Ev & Hok & Ek & Hon)]; [by left|].
  cbn [bind]. rewrite (so_full _ _ Hok). cbn [put_sheet set_process _arena_tier m_sheets]. rewrite Et, Esh.
  pose proof HA1 as [H1 H2 H3 H4 H5 H6 H7 H8]. unfold meta_ok in H1. rewrite Et, Esh in *. set (t := _arena_tier e) in *. set (a := n + sizeof_node) in *.
  pose proof (linked_at_tail t n a H2 Hn0 Hap) as HL. set (t1 := link_at_tail _ n) in *. set (shs' := <[a := sh]> (m_sheets e)).
  destruct (Z.eq_dec (__count t) __max_sheets_arena_internal) as [E|E].
  { left. unfold register_sheet. rewrite (lk_count _ _ _ _ HL), E. done. }
  assert (Hlt : __count t < __max_sheets_arena_internal) by (pose proof (i_count _ _ (ok_tier _ _ _ _ H1)); lia).
  destruct (on_run_bounds base _ _ sh r HV1 ltac:(set_solver) Hon) as [Ea [Eb _]].
  destruct (add_entry __max_sheets_arena_internal ltac:(done) t t1 (m_sheets e) gm n a sh H1 H2 HL Hn0 Hap Hfr Hok ltac:(lia)) as (Hpos & HE & HO' & HN');
    [|done|]. { intros i Hi. apply (grounded_clear base _ _ _ t (m_sheets e) gm RM sh r i H1 H5 HV1); [exists (rM :: live); apply Permutation_middle|done|done]. }
  destruct (register_sheet _ _ _ t1 n) as [pos t']. cbn [fst snd] in *. rewrite (proj2 (Z.eqb_neq pos __max_sheets_arena_internal)) by done. right.
  eexists _, (put_grants gm a ∅), gM', (take (Z.to_nat pos) RM ++ r :: drop (Z.to_nat pos) RM). split; [done|].
  cbn [set_tier _arena_tier m_sheets m_process _arena_memory]. split_and!.
  - split; unfold meta_ok; cbn [set_tier _arena_tier m_sheets _arena_memory put_sheet set_process]; rewrite ?Esh; try done.
    + by eapply enlisted_grounded.
    + rewrite (el_count _ _ _ _ _ _ _ _ HE). lia.
    + intros x Hx. apply (enlisted_nodes _ _ _ _ _ _ _ _ x HE) in Hx as [->|Hx]; [by right|by apply H7].
    + intros j Hj. destruct (Z.eq_dec j pos) as [->|Hne].
      * destruct (el_new _ _ _ _ _ _ _ _ HE) as (-> & _ & ->). by left.
      * destruct (el_old _ _ _ _ _ _ _ _ HE j Hj Hne) as (-> & _ & ->). apply H8. by eapply origin_bounds.
  - unfold meta_va. cbn [set_tier m_process put_sheet set_process]. rewrite Ev. apply (va_ok_perm _ _ _ _ HV1).
    rewrite <- (take_drop (Z.to_nat pos) RM) at 1. rewrite <- !app_assoc. cbn. solve_Permutation.
  - by rewrite (el_count _ _ _ _ _ _ _ _ HE).
  - intros x k u. by apply (enlisted_grants t t' _ _ gm n a sh pos x k u HE).
  - done.
Qed.

(** The block [buf] is new: in the reservation, outside the first sheet, apart
    from every block of the metadata. *)
Record marked (e : meta) gm (e' : meta) gm' (rM : run) (sz : Z) (buf : chunk) : Prop := {
  mk_size : sz <= len buf /\ 0 < len buf;
  mk_place : base <= ptr buf /\ ptr buf + len buf <= base + __va_reservation_size;
  mk_first : apart (ptr buf) (len buf) (base + rM.1) (rM.2 * 2097152);
  mk_apart x k u : grant (_arena_tier e) gm x k u -> apart (ptr buf) (len buf) x k;
  mk_grants x k u : grant (_arena_tier e') gm' x k u <-> grant (_arena_tier e) gm x k u \/ (x = ptr buf /\ k = len buf /\ u = Live false)
}.

(** Marking in the sheet at entry [i] *)
Lemma mark_entry e gm gM rM RM live i sh sh' sz c :
  meta_at e gm gM rM RM -> meta_va e rM RM live -> 0 <= i < __count (_arena_tier e) ->
  node_sheet (_arena_tier e) (m_sheets e) (nd (entry (__idx (_arena_tier e)) i)) = Some sh ->
  fresh (gm (object (_arena_tier e) i)) (addr sh) (addr_end sh) sz c ->
  granted sh sh' (gm (object (_arena_tier e) i)) c (Live false) ->
  let e' := put_sheet e (object (_arena_tier e) i) sh' in
  let gm' := put_grants gm (object (_arena_tier e) i) (<[ptr c := (len c, Live false)]> (gm (object (_arena_tier e) i))) in
  meta_at e' gm' gM rM RM /\ marked e gm e' gm' rM sz c.
Proof.
  intros HA HV Hi Hn [Hnew Hlen Hreg Hap] (Hok & _ & Em & Eg) e' gm'. pose proof HA as [H1 H2 H3 H4 H5 H6 H7 H8].
  destruct (ok_at _ _ _ _ H1 i Hi) as (sh0 & Hn0 & _ & El & Eh). rewrite Hn in Hn0. injection Hn0 as <-.
  unfold meta_ok in H1. set (t := _arena_tier e) in *. set (L := gm (object t i)) in *.
  assert (Hupd : forall x k u, grant t gm' x k u <-> if x =? ptr c then <[ptr c := (len c, Live false)]> L !! ptr c = Some (k, u) else grant t gm x k u).
  { intros x k u. apply (grant_update __max_sheets_arena_internal t (m_sheets e) gm i _ (ptr c) x k u H1 Hi); [lia|].
    intros q Hq. by rewrite lookup_insert_ne. }
  assert (Hother : forall x k u, grant t gm x k u -> apart (ptr c) (len c) x k).
  { intros x k u (j & Hj & Hg). destruct (Z.eq_dec j i) as [->|Hne]; [by apply (Hap _ _ _ Hg)|].
    pose proof (grant_range _ _ _ _ _ _ _ _ H1 Hj Hg) as (G1 & G2 & G3). pose proof (ok_tier _ _ _ _ H1) as HT. unfold apart.
    destruct (Z.lt_trichotomy i j) as [Hlt|[|Hlt]]; [|congruence|].
    - pose proof (i_sorted _ _ HT i j ltac:(lia) Hlt ltac:(lia)). lia.
    - pose proof (i_sorted _ _ HT j i ltac:(lia) Hlt ltac:(lia)). lia. }
  split.
  - apply (meta_at_place e e' gm gm'); [done| |by apply sheets_ok_put with sh]. split; [done|]. split; [done|].
    cbn [e' put_sheet m_sheets]. rewrite fmap_insert. unfold memory at 1. rewrite Em, Eg. destruct (node_sheet_object _ _ _ _ Hn) as [_ Hs].
    apply insert_id. by rewrite lookup_fmap, Hs.
  - destruct (grounded_entry base __max_sheets_arena_internal _ _ t (m_sheets e) gm RM i H1 H5 HV) as (r & Hr & E3 & E4); [intros x Hx; set_solver|done|].
    assert (HrR : r ∈ RM) by (by eapply list_elem_of_lookup_2). destruct (run_bounds base _ _ r HV ltac:(set_solver)) as (B0 & B1 & B2).
    assert (Hrun : rM.1 + rM.2 * 2097152 <= r.1 \/ r.1 + r.2 * 2097152 <= rM.1).
    { apply elem_of_Permutation in HrR as (R' & HR'). apply (runs_apart base (va_of (m_process e)) (R' ++ live)).
      apply (va_ok_perm _ _ _ _ HV). by rewrite HR'. }
    split; [done|lia|unfold apart; lia|done|]. intros x k u. change (_arena_tier e') with t. rewrite Hupd. destruct (Z.eqb_spec x (ptr c)) as [->|Hne].
    + rewrite lookup_insert_eq. split; [intros [= <- <-]; by right|]. intros [Hg|(_ & -> & ->)]; [|done].
      apply (grant_here __max_sheets_arena_internal t (m_sheets e) gm i) in Hg; [|done|done|lia]. fold L in Hg. congruence.
    + split; [by left|]. by intros [|(? & _)].
Qed.

(** A block for a node and a sheet object: the loop ends within its bound. *)
Lemma mark_arena_spec rM live sz fuel : forall e gm gM RM,
  meta_at e gm gM rM RM -> meta_va e rM RM live -> requested sz -> 65 - __count (_arena_tier e) <= Z.of_nat fuel ->
  __mark_arena self fuel e sz = Abort \/
  exists buf e' gm' gM' RM', __mark_arena self fuel e sz = Ok (buf, e') /\ meta_at e' gm' gM' rM RM' /\ meta_va e' rM RM' live /\
    memory (_arena_memory e') = memory (_arena_memory e) /\ marked e gm e' gm' rM sz buf.
Proof using Hmh Hsz CL PL RS.
  induction fuel as [|fuel IH]; intros e gm gM RM HA HV Hs Hf; pose proof HA as [H1 H2 H3 H4 H5 H6 H7 H8].
  { pose proof (i_count _ _ (ok_tier _ _ _ _ H1)) as Hc. unfold __max_sheets_arena_internal in Hc. lia. }
  cbn [__mark_arena]. change Meta.internal_book with meta_book.
  destruct (no_tail _ H2) as [[Hno _]|[(i & Hi & Ei) _]]; [destruct (Hno (nd (entry (__idx (_arena_tier e)) 0))); exists 0; split; [lia|done]|].
  destruct (ok_at _ _ _ _ H1 i Hi) as (sh & Hn & Hok & El & Eh). rewrite <- Ei, Hn. cbn [or_stuck bind].
  destruct (try_mark_spec sh _ sz Hok Hs) as (c & sh' & -> & Hres). cbn [or_abort bind]. fold (object (_arena_tier e) i).
  destruct Hres as [[-> ->]|(-> & Hfr & Hgr)].
  - assert (Ee : put_sheet e (object (_arena_tier e) i) sh = e).
    { unfold put_sheet. destruct (node_sheet_object _ _ _ _ Hn) as [_ Hsh]. rewrite insert_id by done. by destruct e. }
    rewrite Ee. unfold __reload_arena_buf. rewrite <- Ei, Hn. cbn [or_stuck bind].
    assert (Hsize : 0 < u64 (allocated sh * 2) < 2 ^ 51).
    { destruct (gr_at _ _ _ _ H5 i sh Hi Hn) as (r & Hr & (_ & Elen & Hg)). apply list_elem_of_lookup_2 in Hr.
      destruct (run_bounds base _ _ r HV ltac:(set_solver)) as (B0 & B1 & B2). change __va_reservation_size with (2 ^ 38) in *.
      unfold allocated. rewrite Elen. unfold __system_pagesize in Hg. rewrite (u64_small (_ - _)), u64_small by lia. lia. }
    destruct (expand_meta_spec e gm gM rM RM live _ HA HV Hsize) as [->|(e1 & gm1 & gM1 & RM1 & -> & HA1 & HV1 & Hc & Hsame & Hm)]; [by left|].
    cbn [bind]. destruct (IH e1 gm1 gM1 RM1 HA1 HV1 Hs ltac:(lia)) as [->|(buf & e2 & gm2 & gM2 & RM2 & -> & HA2 & HV2 & Hm2 & [K1 K2 K3 K4 K5])]; [by left|right].
    exists buf, e2, gm2, gM2, RM2. split_and!; try done; [congruence|]. split; try done.
    + intros x k u Hx. apply (K4 x k u). by apply Hsame.
    + intros x k u. by rewrite K5, (Hsame x k u).
  - right. destruct (mark_entry e gm gM rM RM live i sh sh' sz c HA HV Hi Hn Hfr Hgr) as [HA' HM].
    by eexists c, _, _, gM, RM.
Qed.

Lemma mark_arena_more fuel fuel' e sz :
  __mark_arena self fuel e sz <> OutOfFuel -> (fuel <= fuel')%nat -> __mark_arena self fuel' e sz = __mark_arena self fuel e sz.
Proof.
  revert fuel' e. induction fuel as [|fuel IH]; intros fuel' e Hne Hle; [done|]. destruct fuel' as [|fuel']; [lia|].
  cbn [__mark_arena] in *. destruct (or_stuck _) as [sh| | |]; try done. cbn [bind] in *. destruct (or_abort _) as [[buf sh']| | |]; try done.
  cbn [bind] in *. case_match; [|done]. destruct (__reload_arena_buf _ _) as [e1| | |]; try done. cbn [bind] in *. apply IH; [done|lia].
Qed.

(** C5. The metadata always finds room for a node and a sheet object, in the last
    sheet or in a new one, or the process ends: the retry of [__mark_arena] ends
    within the rounds given, more rounds change nothing, and the block is apart
    from every block the metadata handed out and from its first sheet. *)
Theorem mark_arena_returns e gm gM rM RM live sz :
  meta_at e gm gM rM RM -> meta_va e rM RM live -> requested sz ->
  exists r, (forall fuel, (mark_fuel <= fuel)%nat -> __mark_arena self fuel e sz = r) /\
    (r = Abort \/
     exists buf e' gm' gM' RM', r = Ok (buf, e') /\ meta_at e' gm' gM' rM RM' /\ meta_va e' rM RM' live /\ marked e gm e' gm' rM sz buf).
Proof using Hmh Hsz CL PL RS.
  intros HA HV Hs. assert (Hf : 65 - __count (_arena_tier e) <= Z.of_nat mark_fuel).
  { pose proof (ma_some _ _ _ _ _ HA). unfold mark_fuel. lia. }
  pose proof (mark_arena_spec rM live sz mark_fuel e gm gM RM HA HV Hs Hf) as Hr. exists (__mark_arena self mark_fuel e sz). split.
  - intros fuel Hle. apply mark_arena_more; [|done]. intros E. by destruct Hr as [E'|(buf & e' & gm' & gM' & RM' & E' & _)]; rewrite E in E'.
  - destruct Hr as [|(buf & e' & gm' & gM' & RM' & E' & H1 & H2 & _ & H3)]; [by left|right]. by exists buf, e', gm', gM', RM'.
Qed.
End MetaGrow.
