(* ===== verification/BucketGrow.v ===== *)
(** * Tiers grow

    [__expand_tlsf], [__expand_buddy] and the first sheet of a tier: a block of
    the metadata for node and sheet object, a run of the reservation for the
    sheet, both kept or both given back.  What the growing takes is parked in
    the frame until the tier has it. *)

From S2P Require Import Prelude.
From S2P Require Import Intrusive.
From S2P Require Import Config.
From S2P Require Import Buddy.
From S2P Require Import Tcache.
From S2P Require Import VaReserve.
From S2P Require Import Hooks.
From S2P Require Import Book.
From S2P Require Import BuddyInv.
From S2P Require Import BuddyBook.
From S2P Require Import Sheet.
From S2P Require Import SheetProps.
From S2P Require Import Tier.
From S2P Require Import Harden.
From S2P Require Import Kernel.
From S2P Require Import Meta.
From S2P Require Import Bucket.
From S2P Require Import BucketInv.
From S2P Require Import Ground.
From S2P Require Import Enlist.
From S2P Require Import BucketProps.
From S2P Require Import BucketFree.
From S2P Require Import MetaGrow.

(** Another list of runs, another metadata *)
Definition set_runs (F : frame) (l : list run) : frame :=
  Frame (fr_base F) l (fr_nodes F) (fr_embedded F) (fr_object F) (fr_fresh F) (fr_meta F).
Definition set_home (F : frame) (e : meta) : frame :=
  Frame (fr_base F) (fr_runs F) (fr_nodes F) (fr_embedded F) (fr_object F) (fr_fresh F) e.

(** Rounding to pages adds less than a page. *)
Lemma page_round_spec sz : 0 < sz < 2 ^ 50 -> sz <= __page_round sz <= sz + 4096 /\ 0 < __page_round sz.
Proof.
  intros Hs. unfold __page_round, __system_pagesize. rewrite (u64_small (sz + 4096)), u64_small by (rewrite ?u64_small; lia).
  change (4096 - 1) with (2 ^ 12 - 1). rewrite ldiff_mask by lia. set (v := sz + 4096 - 1).
  pose proof (Z.div_mod v (2 ^ 12) ltac:(lia)). pose proof (Z.mod_pos_bound v (2 ^ 12) ltac:(lia)). lia.
Qed.

Section Grow.
Context {B C : Type} `{CL : ChunkLaws} `{BK : !Book B} `{BL : !BookLaws B} `{FC : !FreeCache C} `{FL : !FreeCacheLaws C}.
Context `{HD : Hardening} `{ST : Settings} `{PL : Platform} `{RS : !Reserved}.
Context (MaxSheets Sz sizeof head self mhead : Z) (HM : 0 < MaxSheets) (Hsizeof : 0 < sizeof < 2 ^ 40).
Context (Hobj : 0 < sizeof_sheet < 2 ^ 40).

Abbreviation bkt := (bucket B C).
Abbreviation tier_ok := (tier_ok MaxSheets head).

(** Runs and metadata of the frame may change together with the metadata. *)
Lemma tier_ok_meta F b e gs gm R e' gm' runs :
  tier_ok F b e gs gm -> grounded (fr_base F) (b_tier b) (b_sheets b) R -> va_ok (fr_base F) (va_of (m_process e')) (R ++ runs) ->
  meta_ok e' gm' -> (forall x, in_meta e gm x -> in_meta e' gm' x) -> tier_ok (set_runs (set_home F e') runs) b e' gs gm'.
Proof.
  intros [H1 H2 H3 H4 H5 _ H7 H8 H9 H10] HR HV Hm Hin. split; try done.
  - intros n Hn Hh. by apply Hin, H4.
  - by exists R.
  - intros x Hx. destruct (H7 x Hx) as [Hno [|Hx']]; (split; [done|]); [by left|right; by apply Hin].
Qed.

Lemma tier_ok_home F b e gs gm : tier_ok F b e gs gm -> tier_ok (set_home F e) b e gs gm.
Proof. intros [H1 H2 H3 H4 H5 H6 H7 H8 H9 H10]. by split. Qed.

(** A block of the metadata the rest does not use: for the tier's next node *)
Record spare F (b : bkt) (e : meta) gm (n : Z) : Prop := {
  sp_meta : in_meta e gm n;
  sp_nonzero : n <> 0;
  sp_apart : node_apart (b_tier b) n;
  sp_object i : 0 <= i < __count (b_tier b) -> object (b_tier b) i <> n + sizeof_node;
  sp_other : ~ fr_nodes F n;
  sp_head : n <> head
}.

(** Returning the spare block *)
Lemma unmark_spare F b e gs gm n :
  tier_ok F b e gs gm -> spare F b e gm n ->
  exists e' gm', __unmark_from_arena e n (sizeof_node + sizeof) = Ok e' /\ tier_ok F b e' gs gm' /\ meta_place e e' /\ meta_ok e' gm'.
Proof using Hsizeof CL.
  intros Hok [Hin Hn0 Hap _ Hoth _]. destruct (unmark_ok e gm n (sizeof_node + sizeof) (to_meta _ _ _ _ _ _ _ Hok) Hin) as (e' & gm' & E & Hm & Ep & Hpl & Hin');
    [unfold sizeof_node; lia|]. exists e', gm'. split_and!; try done.
  destruct Hok as [H1 H2 H3 H4 H5 (R & HR & HV) H7 H8 H9 H10]. split; try done.
  - intros x Hx Hh. apply Hin'. split; [|by apply H4]. intros ->. specialize (Hap _ Hx). lia.
  - exists R. by rewrite Ep.
  - intros x Hx. destruct (H7 x Hx) as [Hno [|Hx']]; (split; [done|]); [by left|right]. apply Hin'. split; [by intros ->|done].
  - by apply (meta_place_trans _ e).
Qed.

(** The tier with its new sheet *)
Lemma grown_ok F b e gs gm t1 n a sh r runs p :
  tier_ok F b e gs gm -> fr_runs F = r :: runs -> linked (b_tier b) t1 n a -> n <> 0 -> node_apart (b_tier b) n ->
  (forall i, 0 <= i < __count (b_tier b) -> object (b_tier b) i <> a) ->
  sheet_ok sh ∅ -> on_run (fr_base F) (__kernel_memory sh) (__guard_offset sh) r -> __count (b_tier b) < MaxSheets ->
  (n <> head -> in_meta e gm n) -> ~ fr_nodes F n -> (caching = true -> r.2 * 2097152 < 2 ^ 32) ->
  (a = n + sizeof_node \/ (n = head /\ fr_object F a)) -> (n = head \/ node_in (b_tier b) head) -> va_of p = va_of (m_process e) ->
  let shs' := <[a := sh]> (b_sheets b) in
  let pt := register_sheet MaxSheets (addr_at shs') (addr_end_at shs') t1 n in
  let b' := Bucket pt.2 shs' (b_cache b) in
  pt.1 <> MaxSheets /\ tier_ok (set_runs F runs) b' (set_process e p) (put_grants gs a ∅) gm /\
  same_held b gs b' (put_grants gs a ∅) /\ forall x, node_in (b_tier b') x <-> x = n \/ node_in (b_tier b) x.
Proof using HM Hobj Hsizeof PL RS CL BL.
  intros [H1 H2 H3 H4 H5 (R & HR & HV) H7 H8 H9 H10] Er HL Hn0 Hap Hfr Hs Hon Hlt Hmeta Hoth Hsmall Ha Hhd Ev shs' pt b'.
  pose proof (bo_sheets _ _ _ H1) as HO. rewrite Er in HV.
  assert (HV' : va_ok (fr_base F) (va_of (m_process e)) (r :: R ++ runs)) by (apply (va_ok_perm _ _ _ _ HV); by rewrite Permutation_middle).
  destruct (on_run_bounds (fr_base F) _ _ sh r HV' ltac:(set_solver) Hon) as [Ea Eb].
  destruct (add_entry MaxSheets HM (b_tier b) t1 (b_sheets b) gs n a sh HO H2 HL Hn0 Hap Hfr Hs ltac:(lia)) as (Hpos & HE & HO' & HN');
    [|done|]. { intros i Hi. apply (grounded_clear (fr_base F) _ _ _ (b_tier b) (b_sheets b) gs R sh r i HO HR HV'); [by exists runs|done|done]. }
  assert (Hg : forall q k u, grant pt.2 (put_grants gs a ∅) q k u <-> grant (b_tier b) gs q k u)
    by (intros q k u; by apply (enlisted_grants (b_tier b) pt.2 (b_sheets b) shs' gs n a sh pt.1)).
  fold shs' in HE, HO', HN', Hpos. fold pt in HE, HO', HN', Hpos. clearbody pt. split; [done|].
  assert (Hnodes : forall x, node_in pt.2 x <-> x = n \/ node_in (b_tier b) x) by (intros x; by eapply enlisted_nodes).
  destruct (el_new _ _ _ _ _ _ _ _ HE) as (En & _ & Eo). split; [|split; [|done]].
  - split; cbn [b' b_tier b_sheets b_cache set_runs fr_base fr_runs fr_nodes fr_embedded fr_object fr_meta set_process m_process]; try done.
    + split; cbn; try apply H1; [done|]. intros x Hx. destruct (bo_live _ _ _ H1 x Hx) as (k & Hk & Hz). exists k. split; [by apply Hg|done].
    + intros x Hx Hh. apply Hnodes in Hx as [->|Hx]; [by apply Hmeta|by apply H4].
    + intros j Hc Hj. destruct (Z.eq_dec j pt.1) as [->|Hne].
      * rewrite En. cbn [lo hi]. specialize (Hsmall Hc). lia.
      * destruct (el_old _ _ _ _ _ _ _ _ HE j Hj Hne) as (-> & _). apply H5; [done|]. by eapply origin_bounds.
    + exists (take (Z.to_nat pt.1) R ++ r :: drop (Z.to_nat pt.1) R). split; [by eapply enlisted_grounded|].
      rewrite Ev. apply (va_ok_perm _ _ _ _ HV'). rewrite <- (take_drop (Z.to_nat pt.1) R) at 1. rewrite <- !app_assoc. cbn. solve_Permutation.
    + intros x Hx. destruct (H7 x Hx) as [Hno Hx']. split; [|done]. intros [->|]%Hnodes; done.
    + intros j Hj. destruct (Z.eq_dec j pt.1) as [->|Hne].
      * by rewrite En, Eo.
      * destruct (el_old _ _ _ _ _ _ _ _ HE j Hj Hne) as (-> & _ & ->). apply H9. by eapply origin_bounds.
    + left. apply Hnodes. destruct Hhd as [->|]; [by left|by right].
  - intros q k u. unfold held, cached. cbn [b' b_tier b_cache]. by rewrite Hg.
Qed.

(** The tier is as before when the node is out again. *)
Lemma ungrown_ok F b e gs gm t2 a :
  tier_ok F b e gs gm -> same_nodes (b_tier b) t2 -> (forall i, 0 <= i < __count (b_tier b) -> object (b_tier b) i <> a) ->
  node_in (b_tier b) head ->
  let b' := Bucket t2 (delete a (b_sheets b)) (b_cache b) in tier_ok F b' e gs gm /\ same_held b gs b' gs.
Proof using CL BL.
  intros [H1 H2 H3 H4 H5 (R & HR & HV) H7 H8 H9 _] HS Hfr Hhd b'. pose proof HS as [Ei Ec _ _ _ _].
  destruct (drop_ok MaxSheets (fr_base F) (b_tier b) (b_sheets b) gs a R (bo_sheets _ _ _ H1) HR Hfr) as [HO HR'].
  destruct (same_nodes_ok MaxSheets (b_tier b) t2 _ gs HO H2 HS) as [HO' HN'].
  assert (Hg : forall q k u, grant t2 gs q k u <-> grant (b_tier b) gs q k u).
  { intros q k u. unfold grant. rewrite Ec. split; intros (i & Hi & Hg); exists i; rewrite (same_nodes_index (b_tier b) t2 i HS Hi) in *; done. }
  assert (Hin : forall x, node_in t2 x <-> node_in (b_tier b) x) by (intros x; unfold node_in; by rewrite Ei, Ec). split.
  - split; cbn [b' b_tier b_sheets b_cache]; try done; try setoid_rewrite Hin; try done.
    + split; cbn; try apply H1; [done|]. intros x Hx. destruct (bo_live _ _ _ H1 x Hx) as (k & Hk & Hz). exists k. split; [by apply Hg|done].
    + by rewrite Ei, Ec.
    + exists R. split; [by eapply same_nodes_grounded|done].
    + intros i Hi. rewrite Ec in Hi. rewrite (same_nodes_index (b_tier b) t2 i HS Hi), Ei. by apply H9.
    + by left.
  - intros q k u. unfold held, cached. cbn [b' b_tier b_cache]. by rewrite Hg.
Qed.

(** With block and run at hand: the tier takes both or gives both back. *)
Lemma expand_with_spec F b e gs gm guarded buf r runs :
  tier_ok F b e gs gm -> fr_runs F = r :: runs -> spare F b e gm (ptr buf) -> r.2 * 2097152 <= bk_most ->
  (caching = true -> r.2 * 2097152 < 2 ^ 32) -> node_in (b_tier b) head ->
  let res := expand_with MaxSheets sizeof self guarded b e buf (Chunk (fr_base F + r.1) (r.2 * 2097152)) in
  res = Abort \/
  exists ok b' e' gs' gm', res = Ok (ok, b', e') /\ tier_ok (set_runs F runs) b' e' gs' gm' /\ same_held b gs b' gs' /\
    meta_place e e' /\ meta_ok e' gm' /\ node_in (b_tier b') head.
Proof using HM Hobj Hsizeof RS CL BL.
  intros Hok Er Hsp Hmost Hsmall Hhd res. subst res. unfold expand_with. cbv zeta.
  pose proof Hok as [_ _ Hm _ _ (R & HR & HV) _ _ _ _]. rewrite Er in HV.
  assert (HV' : va_ok (fr_base F) (va_of (m_process e)) (r :: R ++ runs)) by (apply (va_ok_perm _ _ _ _ HV); by rewrite Permutation_middle).
  destruct (new_sheet_spec (fr_base F) (m_process e) _ self guarded r HV' Hmost) as [->|(sh & p & -> & Ev & Hs & Ek & Hon)]; [by left|].
  right. cbn [bind]. rewrite (so_full _ _ Hs). pose proof Hsp as [Hin Hn0 Hap Hfr Hoth Hnh]. set (n := ptr buf) in *. set (a := n + sizeof_node) in *.
  cbn [with_sheet with_tier b_tier b_sheets b_cache]. pose proof (linked_at_tail (b_tier b) n a (to_nodes _ _ _ _ _ _ _ Hok) Hn0 Hap) as HL.
  destruct (Z.eq_dec (__count (b_tier b)) MaxSheets) as [E|E].
  - unfold register_sheet. rewrite (lk_count _ _ _ _ HL), E. unfold __max_sheets. rewrite Z.leb_refl, Z.eqb_refl.
    destruct (release_grounded (fr_base F) p sh r (R ++ runs)) as (sh' & p' & Erel & HV2); [by rewrite Ev|done|].
    change (m_process (set_process e p)) with p. rewrite Erel. cbn [bind]. rewrite delete_insert_eq.
    set (t2 := unlink_node _ n). pose proof (linked_unlinked (b_tier b) n a (to_nodes _ _ _ _ _ _ _ Hok) Hn0 Hap) as HS. fold t2 in HS.
    assert (Hok1 : tier_ok (set_runs F runs) b (set_process e p') gs gm).
    { destruct Hok as [H1 H2 H3 H4 H5 _ H7 H8 H9 H10]. split; try done. by exists R. }
    destruct (ungrown_ok _ _ _ _ _ t2 a Hok1 HS Hfr Hhd) as [Hok2 Hsame].
    destruct (unmark_spare (set_runs F runs) _ (set_process e p') gs gm n Hok2) as (e' & gm' & Eu & Hok3 & Hpl & Hm').
    { pose proof HS as [Ei Ec _ _ _ _]. split; cbn [b_tier]; [exact Hin|done|..|done|done].
      - intros x (i & Hi & <-). rewrite Ec in Hi. rewrite Ei. apply Hap. by exists i.
      - intros i Hi. rewrite Ec in Hi. rewrite (same_nodes_index (b_tier b) t2 i HS Hi). by apply Hfr. }
    change (set_process (set_process e p) p') with (set_process e p'). rewrite Eu. cbn [bind].
    eexists false, _, e', gs, gm'. split; [done|]. split; [done|]. split; [done|]. split; [done|]. split; [done|].
    cbn [b_tier]. destruct Hhd as (i & Hi & Ei). exists i. by rewrite (sn_idx _ _ HS), (sn_count _ _ HS).
  - assert (Hlt : __count (b_tier b) < MaxSheets) by (pose proof (i_count _ _ (ok_tier _ _ _ _ (bo_sheets _ _ _ (to_bucket _ _ _ _ _ _ _ Hok)))); lia).
    destruct (grown_ok F b e gs gm _ n a sh r runs p Hok Er HL Hn0 Hap Hfr Hs Hon Hlt (fun _ => Hin) Hoth Hsmall (or_introl eq_refl) (or_intror Hhd) Ev) as (Hpos & Hok' & Hsame & Hnodes).
    destruct (register_sheet _ _ _ _ n) as [pos t']. cbn [fst snd] in *. rewrite (proj2 (Z.eqb_neq pos MaxSheets)) by done.
    eexists true, _, _, _, gm. split; [done|]. split; [exact Hok'|]. split; [exact Hsame|]. split; [done|]. split; [done|].
    cbn [with_tier b_tier]. by apply Hnodes; right.
Qed.

(** ** From the request on *)

Section Request.
Context (F : frame) (rM : run) (X : list run) (Hhead : outside (fr_base F) head).
Context (Hemb : forall x, fr_embedded F x -> outside (fr_base F) x).
Context (Hfirst : forall x, fr_object F x -> fr_base F + rM.1 <= x < fr_base F + rM.1 + rM.2 * 2097152).

(** A block just marked is spare. *)
Lemma marked_spare b e gs gm e1 gm1 live buf :
  tier_ok F b e gs gm -> va_ok (fr_base F) (va_of (m_process e)) live -> marked (fr_base F) e gm e1 gm1 rM (sizeof_node + sizeof) buf ->
  spare F b e1 gm1 (ptr buf) /\ forall x, in_meta e gm x -> in_meta e1 gm1 x.
Proof using Hhead Hemb Hfirst Hsizeof.
  intros [H1 H2 H3 H4 H5 H6 H7 H8 H9 H10] HV [Ksz Kpl Kfi Kap Kgr]. destruct (va_room _ _ _ HV) as [B0 _]. assert (H32 : sizeof_node = 32) by done.
  assert (Hmono : forall x, in_meta e gm x -> in_meta e1 gm1 x).
  { intros x (k & Hk & Hkn). exists k. split; [apply Kgr; by left|done]. }
  assert (Hout : forall x, outside (fr_base F) x -> x + 24 <= ptr buf \/ ptr buf + 24 <= x) by (unfold outside, sizeof_node in *; intros x [_ Hx]; lia).
  assert (Hin : forall x, in_meta e gm x -> x + sizeof_node < ptr buf \/ ptr buf + sizeof_node < x).
  { intros x (k & Hk & Hkn). pose proof (Kap _ _ _ Hk) as Ha. unfold apart in Ha. lia. }
  assert (Hap : node_apart (b_tier b) (ptr buf)).
  { intros x Hx. destruct (Z.eq_dec x head) as [->|Hne]; [by apply Hout|]. specialize (Hin x (H4 x Hx Hne)). unfold sizeof_node in Hin. lia. }
  split; [split|done].
  - exists (len buf). split; [apply Kgr; by right|lia].
  - lia.
  - done.
  - intros i Hi E. destruct (H9 i Hi) as [Eo|[_ Ho]].
    + assert (Hn : node_in (b_tier b) (nd (entry (__idx (b_tier b)) i))) by (by exists i). specialize (Hap _ Hn). lia.
    + specialize (Hfirst _ Ho). rewrite E in Hfirst. unfold apart in Kfi. lia.
  - intros Hx. destruct (H7 _ Hx) as [_ [Hx'|Hx']]; [specialize (Hout _ (Hemb _ Hx')); lia|specialize (Hin _ Hx'); lia].
  - intros E. specialize (Hout _ Hhead). lia.
Qed.

(** What growing gives: the tier has its embedded node and has grown or not, nobody's blocks changed, and
    runs that are lost stay in the frame. *)
Definition grown (b : bkt) gs (mem0 : chunk * Z) (r : res (bool * bkt * meta)) : Prop :=
  exists ok b' e' gs' gm' gM' RM' lost,
    r = Ok (ok, b', e') /\ tier_ok (set_runs (set_home F e') (rM :: RM' ++ lost ++ X)) b' e' gs' gm' /\
    meta_at (fr_base F) mhead e' gm' gM' rM RM' /\ same_held b gs b' gs' /\ memory (_arena_memory e') = mem0 /\
    node_in (b_tier b') head.

(** The end, from a tier whose frame has block and run *)
Lemma grown_end b e1 gs gm1 gM1 RM1 mem0 b' e' gs' gm' ok r :
  meta_at (fr_base F) mhead e1 gm1 gM1 rM RM1 -> memory (_arena_memory e1) = mem0 ->
  forall lost, tier_ok (set_runs (set_home F e1) (rM :: RM1 ++ lost ++ X)) b' e' gs' gm' -> meta_place e1 e' -> meta_ok e' gm' ->
  same_held b gs b' gs' -> node_in (b_tier b') head -> r = Ok (ok, b', e') -> grown b gs mem0 r.
Proof.
  intros HA Em lost Hok Hpl Hm Hs Hn ->. exists ok, b', e', gs', gm', gM1, RM1, lost. split; [done|]. split; [by apply tier_ok_home in Hok|].
  split; [by apply (meta_at_place (fr_base F) mhead e1 e' gm1 gm')|]. split; [done|]. split; [by destruct Hpl as [-> _]|done].
Qed.

(** With a block marked: a run for the sheet, with a guard page or without *)
Lemma after_mark (guarded : bool) b e gs gm e1 gm1 gM1 RM1 R buf sz :
  tier_ok F b e gs gm -> grounded (fr_base F) (b_tier b) (b_sheets b) R ->
  meta_at (fr_base F) mhead e1 gm1 gM1 rM RM1 -> meta_va (fr_base F) e1 rM RM1 (R ++ X) ->
  spare F b e1 gm1 (ptr buf) -> (forall x, in_meta e gm x -> in_meta e1 gm1 x) -> node_in (b_tier b) head ->
  0 < sz < 2 ^ 52 -> sz + 2 ^ 21 <= bk_most -> (caching = true -> sz + 2 ^ 21 < 2 ^ 32) ->
  let res :=
    let* (chnk, p) := kernel_chunk (m_process e1) sz in
    let e := set_process e1 p in
    if negb (__kernel_chunk_valid chnk) then
      let* e := __unmark_from_arena e (ptr buf) (sizeof_node + sizeof) in Ok (false, b, e)
    else
      let* p := if guarded then __make_guard (m_process e) chnk else Ok (m_process e) in
      expand_with MaxSheets sizeof self guarded b (set_process e p) buf chnk in
  res = Abort \/ grown b gs (memory (_arena_memory e1)) res.
Proof using HM Hobj Hsizeof RS CL BL.
  intros Hok HR HA HV Hsp Hmono Hhd Hsz Hmost Hsmall res. subst res.
  destruct (kernel_chunk_spec (fr_base F) (m_process e1) _ sz HV Hsz) as [->|(r & p & -> & HV1 & Hr)]; [by left|]. cbn [bind].
  assert (Hok1 : forall p', va_of p' = va_of p ->
    tier_ok (set_runs (set_home F e1) (r :: rM :: RM1 ++ X)) b (set_process e1 p') gs gm1).
  { intros p' Ep. destruct (tier_ok_meta F b e gs gm R (set_process e1 p') gm1 (r :: rM :: RM1 ++ X) Hok HR) as [? ? ? ? ? ? ? ? ? ?]; [|apply HA|done|by split].
    cbn [set_process m_process]. rewrite Ep. apply (va_ok_perm _ _ _ _ HV1). solve_Permutation. }
  assert (Hsp1 : forall p', spare (set_runs (set_home F e1) (r :: rM :: RM1 ++ X)) b (set_process e1 p') gm1 (ptr buf)) by (intros p'; by destruct Hsp).
  destruct (__kernel_chunk_valid _); cbn [negb].
  - assert (Hg : (if guarded then __make_guard (m_process (set_process e1 p)) (Chunk (fr_base F + r.1) (r.2 * 2097152)) else Ok (m_process (set_process e1 p))) = Abort \/
      exists p', (if guarded then __make_guard (m_process (set_process e1 p)) (Chunk (fr_base F + r.1) (r.2 * 2097152)) else Ok (m_process (set_process e1 p))) = Ok p' /\ va_of p' = va_of p).
    { destruct guarded; [|right; by eexists]. unfold __make_guard, ask. case_match; [by left|right; by eexists]. }
    destruct Hg as [->|(p' & -> & Ep)]; [by left|]. cbn [bind]. change (set_process (set_process e1 p) p') with (set_process e1 p').
    destruct (expand_with_spec _ b (set_process e1 p') gs gm1 guarded buf r (rM :: RM1 ++ X) (Hok1 p' Ep) eq_refl (Hsp1 p')) as
      [E|(ok & b' & e' & gs' & gm' & E & Hok' & Hs & Hpl & Hm' & Hn)]; [lia|intros Hc; specialize (Hsmall Hc); lia|done|left; exact E|right].
    by apply (grown_end b e1 gs gm1 gM1 RM1 _ b' e' gs' gm' ok _ HA eq_refl []).
  - destruct (unmark_spare _ b _ gs gm1 _ (Hok1 p eq_refl) (Hsp1 p)) as (e' & gm' & -> & Hok' & Hpl & Hm'). right. cbn [bind].
    apply (grown_end b e1 gs gm1 gM1 RM1 _ b e' gs gm' false _ HA eq_refl [r]); try done.
    destruct Hok' as [G1 G2 G3 G4 G5 (R' & HR' & HV') G7 G8 G9 G10]. split; try done. exists R'. split; [done|].
    apply (va_ok_perm _ _ _ _ HV'). cbn [set_runs fr_runs]. solve_Permutation.
Qed.

Context (Hmh : outside (fr_base F) mhead).

(** Growing a tier: the process ends, or block and run are taken and used or
    given back.  The search for a block never exceeds its bound. *)
Lemma expand_spec b e gs gm gM RM sz :
  tier_ok F b e gs gm -> meta_at (fr_base F) mhead e gm gM rM RM -> fr_runs F ≡ₚ rM :: RM ++ X -> node_in (b_tier b) head ->
  0 < sz < 2 ^ 50 -> sz + 2 ^ 22 <= bk_most -> (caching = true -> sz + 2 ^ 22 < 2 ^ 32) ->
  (let r := __expand_tlsf MaxSheets sizeof self b e sz in r = Abort \/ grown b gs (memory (_arena_memory e)) r) /\
  (let r := __expand_buddy MaxSheets sizeof self b e sz in r = Abort \/ grown b gs (memory (_arena_memory e)) r).
Proof using HM Hobj Hsizeof RS CL BL Hmh Hhead Hemb Hfirst.
  intros Hok HA HX Hhd Hsz Hmost Hsmall. pose proof (to_ground _ _ _ _ _ _ _ Hok) as (R & HR & HV).
  assert (HVm : meta_va (fr_base F) e rM RM (R ++ X)).
  { unfold meta_va. apply (va_ok_perm _ _ _ _ HV). rewrite HX. solve_Permutation. }
  destruct (mark_arena_spec (fr_base F) self mhead Hmh Hobj rM (R ++ X) (sizeof_node + sizeof) mark_fuel e gm gM RM HA HVm) as
    [E|(buf & e1 & gm1 & gM1 & RM1 & E & HA1 & HV1 & Em & HM1)];
    [unfold requested, sizeof_node; lia|pose proof (ma_some _ _ _ _ _ _ _ HA); unfold mark_fuel; lia| |].
  { split; left; [unfold __expand_tlsf|unfold __expand_buddy]; by rewrite E. }
  destruct (marked_spare b e gs gm e1 gm1 _ buf Hok HV HM1) as [Hsp Hmono]. rewrite <- Em.
  assert (Hpr : sz <= __page_round sz <= sz + 4096 /\ 0 < __page_round sz) by (by apply page_round_spec).
  unfold __expand_tlsf, __expand_buddy. rewrite E. cbn [bind]. split.
  - apply (after_mark false b e gs gm e1 gm1 gM1 RM1 R buf (__page_round sz)); try done; [lia|lia|intros Hc; specialize (Hsmall Hc); lia].
  - assert (Hsz' : sz <= (if __default_insert_guard_pages then u64 (sz + __system_pagesize) else sz) <= sz + 4096)
      by (case_match; [rewrite u64_small by (unfold __system_pagesize; lia); unfold __system_pagesize|]; lia).
    apply (after_mark __default_insert_guard_pages b e gs gm e1 gm1 gM1 RM1 R buf); try done; [lia|lia|intros Hc; specialize (Hsmall Hc); lia].
Qed.

(** The first sheet of a tier, its object in the first sheet of the metadata *)
Lemma init_head_spec b e gs gm gM RM sz :
  tier_ok F b e gs gm -> meta_at (fr_base F) mhead e gm gM rM RM -> fr_runs F ≡ₚ rM :: RM ++ X -> __count (b_tier b) = 0 ->
  ~ fr_nodes F head -> (forall x, is_at (_arena_memory e) x = true -> fr_object F x) ->
  0 < sz < 2 ^ 50 -> sz + 2 ^ 22 <= bk_most -> (caching = true -> sz + 2 ^ 22 < 2 ^ 32) ->
  let r := (let* (b, e) := init_head MaxSheets sizeof head self b e sz in Ok (true, b, e)) in
  r = Abort \/ grown b gs (memory (_arena_memory e)) r.
Proof using HM Hobj Hsizeof RS CL BL Hmh Hhead.
  intros Hok HA HX Hc Hnh Hat Hsz Hmost Hsmall r. subst r. pose proof (to_ground _ _ _ _ _ _ _ Hok) as (R & HR & HV).
  assert (HVm : meta_va (fr_base F) e rM RM (R ++ X)).
  { unfold meta_va. apply (va_ok_perm _ _ _ _ HV). rewrite HX. solve_Permutation. }
  unfold init_head. destruct (first_block (fr_base F) mhead Hmh Hobj e gm gM rM RM sizeof HA (ex_intro _ _ HVm)) as
    (buf & e1 & -> & [Ef|(Ef & gM1 & HA1 & Et & Esh & Ep & Em & Hbuf & Hn0 & _)]); [unfold requested; lia|..]; cbn [bind]; rewrite Ef; [by left|].
  rewrite Ep. destruct (kernel_chunk_spec (fr_base F) (m_process e) _ sz HVm) as [->|(r & p & -> & HV1 & Hr)]; [lia|by left|]. cbn [bind].
  assert (Hrb : r.2 * 2097152 <= bk_most) by lia.
  destruct (new_sheet_spec (fr_base F) p _ self false r HV1 Hrb) as [->|(sh & p2 & -> & Ev & Hs & Ek & Hon)]; [by left|]. cbn [bind].
  rewrite (so_full _ _ Hs). right.
  assert (Hok1 : tier_ok (set_runs (set_home F (set_process e1 p)) (r :: rM :: RM ++ X)) b (set_process e1 p) gs gm).
  { apply (tier_ok_meta F b e gs gm R); [done|done| |apply HA1|intros x Hx; unfold in_meta; cbn [set_process _arena_tier]; by rewrite Et].
    cbn [set_process m_process]. apply (va_ok_perm _ _ _ _ HV1). solve_Permutation. }
  assert (Hh0 : head <> 0) by (destruct Hhead; lia).
  pose proof (linked_first (b_tier b) head (ptr buf) (to_nodes _ _ _ _ _ _ _ Hok) Hc Hh0) as HL.
  destruct (grown_ok _ b _ gs gm _ head (ptr buf) sh r (rM :: RM ++ X) p2 Hok1 eq_refl HL Hh0) as (_ & Hok' & Hsame & Hnodes);
    [intros x (i & Hi & _); lia|intros i Hi; lia|done|done|lia|done|done|intros Hcc; specialize (Hsmall Hcc); lia| |by left|done|].
  { right. split; [done|]. by apply Hat. }
  cbn [with_sheet with_tier b_tier b_sheets b_cache bind].
  eexists true, _, _, _, gm, gM1, RM, []. split; [done|]. split; [by apply tier_ok_home in Hok'|].
  split; [|split; [exact Hsame|split; [exact Em|by apply Hnodes; left]]]. apply (meta_at_place (fr_base F) mhead e1 _ gm gm); [exact HA1|by split_and!|apply HA1].
Qed.
End Request.
End Grow.
