(* ===== verification/BucketRun.v ===== *)
(** * A client of a tier

    Every run of requests and frees on a tier, from a tier that is well formed:
    no two chunks the client holds ever overlap, every request is answered and
    every chunk can be given back.  The steps call the functions of the arena;
    the client may free a chunk with its size or without. *)

From S2P Require Import Prelude.
From S2P Require Import Intrusive.
From S2P Require Import Config.
From S2P Require Import Tcache.
From S2P Require Import Book.
From S2P Require Import Sheet.
From S2P Require Import SheetProps.
From S2P Require Import Tier.
From S2P Require Import Harden.
From S2P Require Import Kernel.
From S2P Require Import Meta.
From S2P Require Import Bucket.
From S2P Require Import Client.
From S2P Require Import BucketInv.
From S2P Require Import BucketProps.
From S2P Require Import Ground.
From S2P Require Import BucketFree.

Section Run.
Context {B C : Type} `{CL : ChunkLaws} `{BK : !Book B} `{BL : !BookLaws B} `{FC : !FreeCache C} `{FL : !FreeCacheLaws C}.
Context `{HD : Hardening} `{ST : Settings} `{PL : Platform}.
Context (MaxSheets Sz sizeof head : Z) (HM : 0 < MaxSheets) (Hsizeof : 0 <= sizeof).
Context (F : frame).

Abbreviation state := (bucket B C * meta * list chunk)%type.

(** A tier, its metadata and the chunks the client holds *)
Inductive step : state -> state -> Prop :=
  | step_get b e L sz c b' :
      requested sz -> (caching = true -> sz < 2 ^ 32) -> __cache_pop_or_insert MaxSheets b sz = Ok (c, b') ->
      step (b, e, L) (b', e, if chunk_zero c then L else c :: L)
  | step_free b e L L' c i ok b' e' :
      L ≡ₚ c :: L' -> find_range (b_tier b) (ptr c) = Some i ->
      __tier_remove_at MaxSheets Sz sizeof head b e i (ptr c) = Ok (ok, b', e') -> step (b, e, L) (b', e', L')
  | step_free_sized b e L L' c i ok b' e' :
      L ≡ₚ c :: L' -> find_range (b_tier b) (ptr c) = Some i ->
      __cache_push_or_remove MaxSheets Sz sizeof head b e i c = Ok (ok, b', e') -> step (b, e, L) (b', e', L').

Lemma step_got b e L sz c b' :
  requested sz -> (caching = true -> sz < 2 ^ 32) -> __cache_pop_or_insert MaxSheets b sz = Ok (c, b') ->
  chunk_zero c = false -> step (b, e, L) (b', e, c :: L).
Proof. intros Hsz Hc E Ez. pose proof (step_get b e L sz c b' Hsz Hc E) as Hs. by rewrite Ez in Hs. Qed.

(** The entry around a chunk the client holds is what the search finds. *)
Lemma owned_entry b e gs gm L c :
  tier_ok MaxSheets head F b e gs gm -> owns (held b gs) L -> c ∈ L ->
  exists i, find_range (b_tier b) (ptr c) = Some i /\ around (b_tier b) i (ptr c) /\
    ptr c + len c <= hi (entry (__idx (b_tier b)) i).
Proof.
  intros Hok Ho Hc. destruct (ow_held _ _ Ho c Hc) as (n & [_ (i & Hi & Hg)] & Hl).
  assert (HO : sheets_ok MaxSheets (b_tier b) (b_sheets b) gs) by eauto with abc. exists i.
  pose proof (grant_range _ _ _ _ _ _ _ _ HO Hi Hg) as (H1 & H2 & H3). split; [|split; [split|]; lia].
  apply (find_range_at MaxSheets); eauto with abc; lia.
Qed.

(** Blocks of a tier are apart. *)
Lemma held_parted b e gs gm : tier_ok MaxSheets head F b e gs gm -> parted (held b gs).
Proof.
  intros Hok p n t q m u [_ Hp] [_ Hq] Hne. assert (HO : sheets_ok MaxSheets (b_tier b) (b_sheets b) gs) by eauto with abc.
  by apply (grant_apart MaxSheets _ _ _ _ _ _ _ _ _ HO Hp Hq).
Qed.

(** Both ways to free take a chunk of the client back. *)
Lemma owned_free b e gs gm L c i :
  tier_ok MaxSheets head F b e gs gm -> owns (held b gs) L -> c ∈ L -> find_range (b_tier b) (ptr c) = Some i ->
  taken MaxSheets head F b gs (ptr c) (__tier_remove_at MaxSheets Sz sizeof head b e i (ptr c)) /\
  taken MaxSheets head F b gs (ptr c) (__cache_push_or_remove MaxSheets Sz sizeof head b e i c).
Proof using HM Hsizeof CL BL FL.
  intros Hok Ho Hc Hi. destruct (owned_entry b e gs gm L c Hok Ho Hc) as (j & Hj & Har & _).
  assert (i = j) as -> by congruence. destruct (ow_held _ _ Ho c Hc) as (n & Hh & Hl).
  split; [by eapply remove_at_taken|]. destruct c as [p k]. cbn [ptr len] in *. eapply push_or_remove_taken; try done. lia.
Qed.

(** The states of a run *)
Definition good (s : state) : Prop :=
  let '(b, e, L) := s in exists gs gm, tier_ok MaxSheets head F b e gs gm /\ owns (held b gs) L.

Lemma step_good s s' : __default_launder = false -> good s -> step s s' -> good s'.
Proof using HM Hsizeof CL BL FL.
  intros Hl Hg Hs. destruct Hs as [b e L sz c b' Hsz Hc E|b e L L' c i ok b' e' HP Hi E|b e L L' c i ok b' e' HP Hi E];
    destruct Hg as (gs & gm & Hok & Ho).
  - destruct (tier_serves MaxSheets head HM F b e gs gm sz Hok Hsz Hl Hc) as (c1 & b1 & gs1 & E1 & Hok1 & Hres).
    rewrite E in E1. injection E1 as <- <-. exists gs1, gm. split; [done|].
    destruct Hres as [[-> Hs]|(n & Hsv)]; [rewrite chunk_zero_null; by apply (owns_same (held b gs))|].
    destruct Hsv as (-> & Hlen & _ & Hh & [[_ Ha]|[? _]]); [|done]. by apply (owns_served (held b gs) _ _ _ n).
  - destruct (owned_free b e gs gm L c i Hok Ho) as [(b1 & e1 & gs1 & gm1 & E1 & Hok1 & Hh) _]; [rewrite HP; apply elem_of_cons; by left|done|].
    rewrite E in E1. injection E1 as -> <- <-. exists gs1, gm1. split; [done|]. by apply (owns_taken (held b gs) _ L _ c).
  - destruct (owned_free b e gs gm L c i Hok Ho) as [_ (b1 & e1 & gs1 & gm1 & E1 & Hok1 & Hh)]; [rewrite HP; apply elem_of_cons; by left|done|].
    rewrite E in E1. injection E1 as -> <- <-. exists gs1, gm1. split; [done|]. by apply (owns_taken (held b gs) _ L _ c).
Qed.

(** In every run that starts with a well-formed tier of which the client holds
    nothing: the chunks the client holds never overlap and each lies in the
    sheet the search finds for it; every further request is answered, every
    chunk can be freed with its size or without, and the answer is true. *)
Theorem tier_run_safe b0 e0 gs0 gm0 b e L :
  tier_ok MaxSheets head F b0 e0 gs0 gm0 -> __default_launder = false -> rtc step (b0, e0, []) (b, e, L) ->
  (forall i j c d, L !! i = Some c -> L !! j = Some d -> i <> j -> apart (ptr c) (len c) (ptr d) (len d)) /\
  (forall c, c ∈ L -> exists i, find_range (b_tier b) (ptr c) = Some i /\ around (b_tier b) i (ptr c) /\
     ptr c + len c <= hi (entry (__idx (b_tier b)) i) /\
     (exists b' e', __tier_remove_at MaxSheets Sz sizeof head b e i (ptr c) = Ok (true, b', e')) /\
     (exists b' e', __cache_push_or_remove MaxSheets Sz sizeof head b e i c = Ok (true, b', e'))) /\
  (forall sz, requested sz -> (caching = true -> sz < 2 ^ 32) ->
     exists c b', __cache_pop_or_insert MaxSheets b sz = Ok (c, b') /\ (chunk_zero c = true \/ sz <= len c)).
Proof using HM Hsizeof CL BL FL.
  intros Hok0 Hl Hrun.
  assert (Hg : good (b, e, L)).
  { revert Hrun. apply (rtc_ind_r (fun s => good s)); [|intros s s' _ Hs Hg; by eapply step_good].
    exists gs0, gm0. split; [done|]. apply owns_nil. }
  destruct Hg as (gs & gm & Hok & Ho). split_and!.
  - intros i j c d. apply owned_apart with (held b gs); [by eapply held_parted|done].
  - intros c Hc. destruct (owned_entry b e gs gm L c Hok Ho Hc) as (i & Hi & Har & Hend). exists i.
    destruct (owned_free b e gs gm L c i Hok Ho Hc Hi) as [(b1 & e1 & ? & ? & E1 & _) (b2 & e2 & ? & ? & E2 & _)].
    split_and!; try done; by eexists _, _.
  - intros sz Hsz Hc. destruct (tier_serves MaxSheets head HM F b e gs gm sz Hok Hsz Hl Hc) as (c & b' & gs' & E & _ & Hres).
    exists c, b'. split; [done|]. destruct Hres as [[-> _]|(n & _ & _ & _ & _ & [[? _]|[? _]])]; [left; apply chunk_zero_null|by right|done].
Qed.
End Run.
