(* ===== verification/BucketDemo.v ===== *)
(** * A tier that runs

    The precise tier with the settings of config_amd64.hpp and one sheet under
    its embedded node, on a kernel that grants every call.  It witnesses that
    the hypotheses about tiers can hold. *)

From S2P Require Import Prelude.
From S2P Require Import Intrusive.
From S2P Require Import Config.
From S2P Require Import Tcache.
From S2P Require Import VaReserve.
From S2P Require Import Owner.
From S2P Require Import Book.
From S2P Require Import Tlsf.
From S2P Require Import TlsfBook.
From S2P Require Import Sheet.
From S2P Require Import SheetProps.
From S2P Require Import Tier.
From S2P Require Import Harden.
From S2P Require Import Kernel.
From S2P Require Import Meta.
From S2P Require Import Bucket.
From S2P Require Import BucketInv.
From S2P Require Import BucketProps.
From S2P Require Import Ground.
From S2P Require Import BucketFree.
From S2P Require Import BucketRun.

#[local] Existing Instance PlainChunk.ops.
#[local] Existing Instance PlainChunk.laws.
#[local] Existing Instance demo_book.
#[local] Existing Instance demo_laws.
#[local] Instance demo_slots : FreeCache Tcache.TierCache.cache := linear_cache 32.
#[local] Instance demo_slots_laws : FreeCacheLaws Tcache.TierCache.cache := linear_cache_laws 32.
#[local] Instance demo_hardening : Hardening := Amd64.hardening false.
#[local] Instance demo_settings : Settings := amd64_settings.

#[local] Instance demo_platform : Platform := {|
  kernel := fun _ => Answers (Some 4096) true true None true true true ∅ false;
  mmap_failed := fun a => a =? usize_max;
  __calculate_space_cache := fun n => n * 4096;
  __calculate_space_small := fun n => n * 4096;
  __calculate_space_medium := fun n => n * 4096;
  __calculate_space_large := fun n => n * 4096;
  __calculate_space_huge := fun n => n * 64;
  __calculate_space_bulk := fun n => n * 2;
  __weight_for_class := fun _ => 1;
  __class_weight_denom := 5;
  prealloc_size := 2 ^ 30;
  sizeof_sheet := 2048;
  sizeof_tlsf_sheet := 1024
|}.

Definition demo_head : Z := 4096.
Definition demo_object : Z := 8192.

(** The embedded node leads to the sheet of [SheetProps], the only entry. *)
Definition demo_tier : tier :=
  (register_sheet 512 (fun _ => addr demo_sheet) (fun _ => addr_end demo_sheet)
    (set_links (Tier.init 512 demo_head (Tier.Tier ∅ 0 ∅ 0 ∅ 0 0)) (wr ∅ demo_head demo_object) demo_head) demo_head).2.
Definition demo_bucket : bucket tlsf Tcache.TierCache.cache := Bucket demo_tier {[ demo_object := demo_sheet ]} Tcache.TierCache.init.
(** Metadata of which nothing is in use *)
Definition demo_meta : meta :=
  Meta (Process demo_world1 0 []) (Sheet null_chunk (Buddy.blank ∅ true) 0) (Tier.init 64 0 (Tier.Tier ∅ 0 ∅ 0 ∅ 0 0)) ∅.

Definition raw_tier : tier := Tier.Tier ∅ 0 ∅ 0 ∅ 0 0.
Definition no_grants : Z -> grants := fun _ => ∅.

Lemma raw_init Max h : 0 < Max -> Tier.inv Max (Tier.init Max h raw_tier).
Proof. intros HMax. apply Tier.init_inv; [done|]. intros i. by rewrite rd_empty. Qed.

Lemma demo_tier_inv : Tier.inv 512 demo_tier.
Proof.
  set (t := set_links (Tier.init 512 demo_head raw_tier) (wr ∅ demo_head demo_object) demo_head).
  assert (Ht : Tier.inv 512 t) by (by destruct (raw_init 512 demo_head eq_refl)).
  assert (Hins := register_inserted 512 eq_refl (fun _ => addr demo_sheet) (fun _ => addr_end demo_sheet) t demo_head Ht
    ltac:(by vm_compute) ltac:(intros i Hi; cbn in Hi; lia) ltac:(done)). cbv zeta in Hins.
  by apply (inserted_inv 512 eq_refl _ _ _ _ _ _ Ht Hins); [vm_compute|].
Qed.

(** The only entry *)
Lemma demo_entry i : 0 <= i < __count demo_tier -> i = 0.
Proof. intros Hi. change (__count demo_tier) with 1 in Hi. lia. Qed.

Lemma demo_bucket_ok : bucket_ok 512 demo_bucket no_grants.
Proof.
  assert (Hbag : fc_bag (b_cache demo_bucket) = []) by (vm_compute; reflexivity).
  split; rewrite ?Hbag; [|by split|by apply NoDup_nil|intros x Hx; by apply elem_of_nil in Hx].
  split; [exact demo_tier_inv|]. intros i ->%demo_entry. exists demo_sheet. split; [|split; [exact demo_sheet_ok|split; by vm_compute]].
  unfold node_sheet. change (nd (entry (__idx (b_tier demo_bucket)) 0)) with demo_head.
  change (rd (links (b_tier demo_bucket)) (demo_head + 0)) with demo_object. apply lookup_singleton_eq.
Qed.

(** The rest of the process has the first run of the reservation and no node. *)
Definition demo_base : Z := 4096.
Definition demo_others : list run := [(0, 1)].
Definition demo_keep (_ : Z) : Prop := False.

Definition demo_frame : frame := Frame demo_base demo_others demo_keep demo_keep (fun x => x = demo_object) False demo_meta.

Abbreviation demo_ok_at := (tier_ok 512 demo_head demo_frame).

Lemma demo_va : w_va demo_world1 = Va 4096 4194304 ∅ ∅ 0.
Proof. vm_compute. reflexivity. Qed.

Lemma demo_va_ok : va_ok demo_base (va_of (m_process demo_meta)) ([(2097152, 1)] ++ demo_others).
Proof.
  unfold va_of. cbn [m_process demo_meta p_world]. rewrite demo_va. split; [|done|by vm_compute].
  split; change (runs _) with (@nil run).
  - vm_compute. apply NoDup_cons. split; [|apply NoDup_singleton]. intros H%list_elem_of_singleton. discriminate H.
  - intros g Hg. change (g ∈ [1; 0]) in Hg. change (va_offset _ / 2097152) with 2. repeat (apply elem_of_cons in Hg as [->|Hg]; [lia|]). by apply elem_of_nil in Hg.
  - intros r Hr. repeat (apply elem_of_cons in Hr as [->|Hr]; [cbn [fst snd]; split; [|lia]|]).
    + apply Z.divide_refl.
    + apply Z.divide_0_r.
    + by apply elem_of_nil in Hr.
  - split; [by exists 2|by vm_compute].
  - done.
Qed.

Lemma demo_memory : __kernel_memory demo_sheet = Chunk 2101248 2097152 /\ __guard_offset demo_sheet = 0.
Proof. split; vm_compute; reflexivity. Qed.

Lemma demo_ok : demo_ok_at demo_bucket demo_meta no_grants no_grants.
Proof.
  split; [exact demo_bucket_ok|..].
  - split; [|intros i j ->%demo_entry ->%demo_entry; done|right; split; [by exists 0|done]]. exists demo_head.
    apply (dlist_frame 16 8 (links demo_tier) _ _ (fun x => x = demo_head \/ False)); [|intros x; unfold node_in|done].
    + apply (dlist_push 16 8 (links demo_tier) (links demo_tier) 0 demo_head (fun _ => False)); try done; [by apply dlist_null; tauto|tauto].
    + split; [intros [->|[]]; by exists 0|intros (i & ->%demo_entry & <-); by left].
  - split; [by apply raw_init|]. intros i Hi. change (__count _) with 0 in Hi. lia.
  - intros n (i & ->%demo_entry & <-) Hn. by destruct Hn.
  - intros i _ ->%demo_entry. by vm_compute.
  - exists [(2097152, 1)]. split; [|exact demo_va_ok]. split; [done|]. intros i sh ->%demo_entry Hn. exists (2097152, 1).
    unfold node_sheet in Hn. change (nd (entry (__idx (b_tier demo_bucket)) 0)) with demo_head in Hn.
    change (rd (links (b_tier demo_bucket)) (demo_head + 0)) with demo_object in Hn. cbn [Z.eqb demo_head b_sheets demo_bucket] in Hn.
    change (({[ demo_object := demo_sheet ]} : gmap Z (sheet tlsf)) !! demo_object = Some sh) in Hn.
    rewrite lookup_singleton_eq in Hn. injection Hn as <-. split; [done|]. destruct demo_memory as [-> ->]. split; [done|]. split; [done|by left].
  - by intros x [].
  - apply meta_place_refl.
  - intros i ->%demo_entry. by right.
  - left. by exists 0.
Qed.

(** ** A block is requested, freed, and freed again *)

Abbreviation get := (__cache_pop_or_insert 512).
Definition demo_b1 : bucket tlsf Tcache.TierCache.cache := match get demo_bucket 1000 with Ok (_, b) => b | _ => demo_bucket end.
Abbreviation free_at b p := (__tier_remove_at 512 __class_precise 1024 demo_head b demo_meta 0 p).

Lemma demo_get : get demo_bucket 1000 = Ok (demo_c, demo_b1).
Proof.
  assert (E : exists b, get demo_bucket 1000 = Ok (demo_c, b)) by (eexists; vm_compute; reflexivity).
  unfold demo_b1. by destruct E as [b ->].
Qed.

Lemma bucket_serves_witness :
  demo_ok_at demo_bucket demo_meta no_grants no_grants /\
  exists gs, demo_ok_at demo_b1 demo_meta gs no_grants /\ 1000 <= len demo_c /\
    exists n, forall p m t, held demo_b1 gs p m t <-> held demo_bucket no_grants p m t \/ (p = ptr demo_c /\ m = n /\ t = false).
Proof.
  split; [exact demo_ok|].
  destruct (bucket_serves 512 demo_head eq_refl demo_frame demo_bucket demo_meta no_grants no_grants 1000 demo_ok
    ltac:(unfold requested; lia) eq_refl ltac:(done)) as (c & b & gs & E & Hok & Hres).
  pose proof demo_get as Eg.  rewrite Eg in E. apply Ok_pair in E as [<- <-]. exists gs. split; [exact Hok|].
  destruct Hres as [[Ec _]|(Hs & _ & _ & n & _ & Hh)]; [discriminate Ec|]. split; [exact Hs|]. exists n. exact Hh.
Defined.

(** The client holds the block it got. *)
Lemma demo_held : exists gs n, demo_ok_at demo_b1 demo_meta gs no_grants /\ held demo_b1 gs (ptr demo_c) n false.
Proof.
  destruct (tier_serves 512 demo_head eq_refl demo_frame demo_bucket demo_meta no_grants no_grants 1000 demo_ok
    ltac:(unfold requested; lia) eq_refl ltac:(done)) as (c & b & gs & E & Hok & Hres).
  pose proof demo_get as Eg.  rewrite Eg in E. apply Ok_pair in E as [<- <-].
  destruct Hres as [[Ec _]|(n & _ & _ & _ & Hh & _)]; [discriminate Ec|]. exists gs, n. split; [done|]. apply Hh. right. split; [reflexivity|split; reflexivity].
Qed.

Lemma demo_around : around (b_tier demo_b1) 0 (ptr demo_c).
Proof. by vm_compute. Qed.

Lemma bucket_takes_back_witness :
  exists gs n, held demo_b1 gs (ptr demo_c) n false /\
    taken 512 demo_head demo_frame demo_b1 gs (ptr demo_c) (free_at demo_b1 (ptr demo_c)) /\
    taken 512 demo_head demo_frame demo_b1 gs (ptr demo_c)
      (__cache_push_or_remove 512 __class_precise 1024 demo_head demo_b1 demo_meta 0 (Chunk (ptr demo_c) 1000)).
Proof.
  destruct demo_held as (gs & n & Hok & Hh). exists gs, n. split; [exact Hh|].
  destruct (bucket_takes_back 512 __class_precise 1024 demo_head eq_refl ltac:(done) demo_frame
    demo_b1 demo_meta gs no_grants 0 (ptr demo_c) n false Hok demo_around Hh (fun _ => eq_refl)) as [H1 H2].
  split; [exact H1|apply H2; [lia|done]].
Defined.

(** The freed block waits in the cache; freeing it again ends the process. *)
Definition demo_b2 : bucket tlsf Tcache.TierCache.cache :=
  match free_at demo_b1 (ptr demo_c) with Ok (_, b, _) => b | _ => demo_b1 end.

Lemma demo_free : free_at demo_b1 (ptr demo_c) = Ok (true, demo_b2, demo_meta).
Proof.
  assert (E : exists b, free_at demo_b1 (ptr demo_c) = Ok (true, b, demo_meta)) by (eexists; vm_compute; reflexivity).
  unfold demo_b2. by destruct E as [b ->].
Qed.

Lemma demo_in_cache : fc_contains (b_cache demo_b2) (ptr demo_c) = true.
Proof. vm_compute. reflexivity. Qed.

Lemma demo_cached : exists gs gm, demo_ok_at demo_b2 demo_meta gs gm /\ cached demo_b2 (ptr demo_c).
Proof.
  destruct demo_held as (gs & n & Hok & Hh).
  destruct (remove_at_taken 512 __class_precise 1024 demo_head eq_refl ltac:(done) demo_frame
    demo_b1 demo_meta gs no_grants 0 (ptr demo_c) n false Hok demo_around Hh (fun _ => eq_refl)) as (b' & e' & gs' & gm' & E & Hok' & _).
  rewrite demo_free in E. apply Ok_pair in E as [Em <-]. apply pair_equal_spec in Em as [_ <-].
  exists gs', gm'. split; [exact Hok'|]. apply (cached_iff 512 demo_b2 gs'); [apply Hok'|exact demo_in_cache].
Qed.

Lemma bucket_double_free_witness :
  cached demo_b2 (ptr demo_c) /\ free_at demo_b2 (ptr demo_c) = Abort /\
  __cache_push_or_remove 512 __class_precise 1024 demo_head demo_b2 demo_meta 0 demo_c = Abort.
Proof.
  destruct demo_cached as (gs & gm & Hok & Hc). split; [exact Hc|].
  assert (Har : around (b_tier demo_b2) 0 (ptr demo_c)) by (split; by vm_compute).
  destruct (bucket_double_free (HD := demo_hardening) 512 __class_precise 1024 demo_head eq_refl demo_frame
    demo_b2 demo_meta gs gm 0 (ptr demo_c) 0 Hok Har eq_refl eq_refl (or_introl Hc)) as (E1 & E2 & E3).
  specialize (E3 eq_refl). split; [by rewrite <- E3|]. rewrite <- E3. apply (E2 (len demo_c)).
Defined.

Abbreviation demo_step := (step 512 __class_precise 1024 demo_head).

(** Two requests, a free of the first chunk, and a request it serves *)
Definition demo_b3 : bucket tlsf Tcache.TierCache.cache := match get demo_b1 500 with Ok (_, b) => b | _ => demo_b1 end.
Definition demo_d : chunk := match get demo_b1 500 with Ok (d, _) => d | _ => null_chunk end.

Lemma demo_get2 : get demo_b1 500 = Ok (demo_d, demo_b3).
Proof.
  assert (E : exists d b, get demo_b1 500 = Ok (d, b)) by (eexists _, _; vm_compute; reflexivity).
  unfold demo_d, demo_b3. by destruct E as (d & b & ->).
Qed.

Lemma demo_d_eq : demo_d = Chunk 2102400 544.
Proof. vm_compute. reflexivity. Qed.

Lemma demo_requested n : 0 <= n <= 1000 -> requested n.
Proof. unfold requested. lia. Qed.

Lemma demo_run : rtc demo_step (demo_bucket, demo_meta, []) (demo_b3, demo_meta, [demo_d; demo_c]).
Proof.
  apply (rtc_l _ _ (demo_b1, demo_meta, [demo_c]));
    [exact (step_got _ _ _ _ _ _ _ 1000 _ _ (demo_requested 1000 ltac:(done)) (fun _ => eq_refl) demo_get eq_refl)|].
  apply rtc_once. refine (step_got _ _ _ _ _ _ _ 500 _ _ (demo_requested 500 ltac:(done)) (fun _ => eq_refl) demo_get2 _).
  rewrite demo_d_eq. reflexivity.
Qed.

Lemma demo_entry3 : find_range (b_tier demo_b3) (ptr demo_c) = Some 0.
Proof. vm_compute. reflexivity. Qed.

Lemma second_in {A} (x y : A) : y ∈ [x; y].
Proof. set_solver. Qed.

Lemma tier_run_safe_witness :
  apart (ptr demo_d) (len demo_d) (ptr demo_c) (len demo_c) /\
  exists b' e', __tier_remove_at 512 __class_precise 1024 demo_head demo_b3 demo_meta 0 (ptr demo_c) = Ok (true, b', e').
Proof.
  destruct (tier_run_safe 512 __class_precise 1024 demo_head eq_refl ltac:(done) demo_frame
    demo_bucket demo_meta no_grants no_grants demo_b3 demo_meta [demo_d; demo_c] demo_ok eq_refl demo_run) as (Ha & Hf & _).
  split; [exact (Ha 0%nat 1%nat demo_d demo_c eq_refl eq_refl (O_S 0))|].
  destruct (Hf demo_c (second_in demo_d demo_c)) as (i & Ei & _ & _ & Hr & _).
  rewrite demo_entry3 in Ei. injection Ei as <-. exact Hr.
Defined.

(** ** A temporal block freed with its size *)

Definition demo_bt : bucket tlsf Tcache.TierCache.cache :=
  match __bucket_insert_temporal 512 demo_bucket 1000 with Ok (_, b) => b | _ => demo_bucket end.
Definition demo_cache : Tcache.TierCache.cache := (fc_push (b_cache demo_bt) (ptr demo_c) 1000).2.

Lemma demo_temporal : __bucket_insert_temporal 512 demo_bucket 1000 = Ok (demo_c, demo_bt).
Proof.
  assert (E : exists b, __bucket_insert_temporal 512 demo_bucket 1000 = Ok (demo_c, b)) by (eexists; vm_compute; reflexivity).
  unfold demo_bt. by destruct E as [b ->].
Qed.

Lemma demo_held_temporal :
  exists gs n, demo_ok_at demo_bt demo_meta gs no_grants /\ held demo_bt gs (ptr demo_c) n true /\ 1000 <= n.
Proof.
  destruct (serves_tier 512 demo_head demo_frame true demo_bucket demo_meta no_grants no_grants 1000
    (__bucket_insert_temporal 512 demo_bucket 1000) demo_ok) as (c & b & gs & E & Hok & Hres).
  { apply bucket_insert_spec; [done|apply demo_ok|unfold requested; lia]. }
  rewrite demo_temporal in E. apply Ok_pair in E as [<- <-].
  destruct Hres as [[Ec _]|(n & _ & Hn & _ & Hh & _)]; [discriminate Ec|]. exists gs, n. split; [done|].
  split; [|change (len demo_c) with 1056 in Hn; lia]. apply Hh. right. split; [reflexivity|split; reflexivity].
Qed.

Lemma demo_around_temporal : around (b_tier demo_bt) 0 (ptr demo_c).
Proof. by vm_compute. Qed.

Lemma demo_cache_takes : fc_push (b_cache demo_bt) (ptr demo_c) 1000 = (true, demo_cache).
Proof. vm_compute. reflexivity. Qed.

Lemma demo_cache_empty : fc_bag (b_cache demo_bt) = [].
Proof. vm_compute. reflexivity. Qed.

Lemma demo_caches : caching (C := Tcache.TierCache.cache) = true.
Proof. reflexivity. Qed.

(** A temporal block of 1000 bytes is freed with that size, and the next request
    gets it, while the sheet still shares it. *)
Lemma sized_free_shares_temporal_witness :
  __cache_push_or_remove 512 __class_precise 1024 demo_head demo_bt demo_meta 0 (Chunk (ptr demo_c) 1000) =
    Ok (true, with_cache demo_bt demo_cache, demo_meta) /\
  exists fc' sh, __cache_pop_or_insert 512 (with_cache demo_bt demo_cache) 900 = Ok (Chunk (ptr demo_c) 1000, with_cache demo_bt fc') /\
    sheet_of (with_cache demo_bt fc') 0 = Ok (object (b_tier demo_bt) 0, sh) /\ is_temporal_block sh (ptr demo_c) = true.
Proof.
  destruct demo_held_temporal as (gs & n & Hok & Hh & Hn).
  assert (Em : Z.min 1000 n = 1000) by lia.
  destruct (sized_free_shares_temporal 512 __class_precise 1024 demo_head demo_frame demo_bt demo_meta gs no_grants 0 (ptr demo_c) n 1000 demo_cache
    Hok demo_around_temporal Hh demo_caches eq_refl) as (E1 & _ & _ & Hnext); [rewrite Em; exact demo_cache_takes|].
  split; [exact E1|]. destruct (Hnext 900 eq_refl ltac:(unfold requested; lia) ltac:(lia)) as (fc' & sh & E2 & _ & E3 & _ & E4).
  - intros x Hx. rewrite demo_cache_empty in Hx. destruct (not_elem_of_nil _ Hx).
  - rewrite Em in E2. exists fc', sh. split; [exact E2|split; [exact E3|exact E4]].
Defined.

(** The next temporal request gets it too. *)
Example temporal_freed_demo :
  (let* (c, b) := __bucket_insert_temporal 512 demo_bucket 1000 in
   let* (freed, b, e) := __cache_push_or_remove 512 __class_precise 1024 demo_head b demo_meta 0 c in
   let* (d, b) := __cache_pop_or_insert 512 b 1000 in
   let* (t, b) := __bucket_insert_temporal 512 b 1000 in
   Ok (freed, c, d, t)) = Ok (true, demo_c, demo_c, demo_c).
Proof. vm_compute. reflexivity. Qed.
