(* ===== verification/ArenaInv.v ===== *)
(** * The invariant of the arena

    Five tiers over one metadata and one reservation.  [arena_ok] says that
    every tier is well formed and that what they share is shared without
    overlap: every sheet on a run of its own, every node in one tier only.
    [focus] gives the view one tier has of the arena, with the rest as a frame;
    [unfocus] puts the tier back. *)

From stdpp Require Import functions.
From S2P Require Import Prelude.
From S2P Require Import Intrusive.
From S2P Require Import Config.
From S2P Require Import Buddy.
From S2P Require Import BuddyInv.
From S2P Require Import Tlsf.
From S2P Require Import Tcache.
From S2P Require Import VaReserve.
From S2P Require Import Book.
From S2P Require Import BuddyBook.
From S2P Require Import TlsfBook.
From S2P Require Import Sheet.
From S2P Require Import SheetProps.
From S2P Require Import Tier.
From S2P Require Import Harden.
From S2P Require Import Kernel.
From S2P Require Import Meta.
From S2P Require Import Bucket.
From S2P Require Import Arena.
From S2P Require Import BucketInv.
From S2P Require Import Ground.
From S2P Require Import BucketProps.
From S2P Require Import BucketFree.

#[local] Open Scope Z_scope.

Definition tiers : list tier_id := [Precise; Small; Medium; Large; Huge].

(** Once an arena is constructed, these tiers may be without a sheet until they
    are first used. *)
Definition lazy `{Settings} (t : tier_id) : Prop :=
  match t with
  | Precise => False
  | Small | Medium => __default_lazy_construct && negb __default_eager_hot_tiers = true
  | Large | Huge => True
  end.

Section ArenaInv.
Context `{CL : ChunkLaws} `{HD : Hardening} `{ST : Settings} `{PL : Platform}.

(** ** Tiers by name *)

(** The book and the cache a tier is an instance of *)
Record tview := TView {
  tv_B : Type;
  tv_C : Type;
  tv_book : Book tv_B;
  tv_laws : @BookLaws tv_B _ tv_book;
  tv_cache : FreeCache tv_C;
  tv_cache_laws : @FreeCacheLaws tv_C tv_cache
}.

Definition view (t : tier_id) : tview :=
  match t with
  | Precise => TView _ _ (tlsf_book __class_precise) (tlsf_book_laws __class_precise) (linear_cache __cache_slots_precise) _
  | Small => TView _ _ (tlsf_book __class_small) (tlsf_book_laws __class_small) (linear_cache __cache_slots_small) _
  | Medium => TView _ _ (buddy_book __class_medium) (buddy_book_laws 4096) (linear_cache __cache_slots_medium) _
  | Large => TView _ _ (buddy_book __class_large) (buddy_book_laws 32768) (linear_cache __cache_slots_large) _
  | Huge => TView _ _ (buddy_book __class_huge) (buddy_book_laws 262144) no_cache _
  end.

#[export] Instance view_book t : Book (tv_B (view t)) := tv_book (view t).
#[export] Instance view_laws t : BookLaws (tv_B (view t)) := tv_laws (view t).
#[export] Instance view_cache t : FreeCache (tv_C (view t)) := tv_cache (view t).
#[export] Instance view_cache_laws t : FreeCacheLaws (tv_C (view t)) := tv_cache_laws (view t).

Abbreviation bucket_in t := (bucket (tv_B (view t)) (tv_C (view t))).

Definition bucket_at (a : arena) (t : tier_id) : bucket_in t :=
  match t with
  | Precise => _precise a | Small => _small a | Medium => _medium a | Large => _large a | Huge => _huge a
  end.
Definition set_bucket (a : arena) (t : tier_id) : bucket_in t -> arena :=
  match t with
  | Precise => set_precise a | Small => set_small a | Medium => set_medium a | Large => set_large a | Huge => set_huge a
  end.

Lemma tier_of_at a t : tier_of a t = b_tier (bucket_at a t).
Proof. by destruct t. Qed.

Lemma bucket_at_eq a t b : bucket_at (set_bucket a t b) t = b.
Proof. by destruct t. Qed.

Lemma bucket_at_ne a t b t' : t' <> t -> bucket_at (set_bucket a t b) t' = bucket_at a t'.
Proof. by destruct t, t'. Qed.

Lemma bucket_at_meta a e t : bucket_at (set_meta a e) t = bucket_at a t.
Proof. by destruct t. Qed.

Lemma meta_set_bucket a t b : a_meta (set_bucket a t b) = a_meta a.
Proof. by destruct t. Qed.

(** A function of the tiers runs on the tier at its name. *)
Lemma on_tier_at {X} t (fn : tier_fn X) a :
  on_tier t fn a =
  let* (x, b, e) := fn _ _ (view_book t) (view_cache t) t (bucket_at a t) (a_meta a) in
  Ok (x, set_meta (set_bucket a t b) e).
Proof. by destruct t. Qed.

(** ** The invariant *)

(** The embedded nodes of the tiers, where the reservation is, and the tiers
    that may be unused, without a sheet *)
Context (head_of : tier_id -> Z) (base : Z) (fresh : tier_id -> Prop).

Definition all_runs (runs : tier_id -> list run) : list run := concat (runs <$> tiers).
Definition other_runs (runs : tier_id -> list run) (t : tier_id) : list run :=
  concat (runs <$> filter (fun t' => t' <> t) tiers).

Lemma all_runs_perm runs t : all_runs runs ≡ₚ runs t ++ other_runs runs t.
Proof.
  unfold all_runs, other_runs. transitivity (concat (runs <$> t :: filter (fun t' => t' <> t) tiers)); [|done].
  assert (HP : tiers ≡ₚ t :: filter (fun t' => t' <> t) tiers) by (destruct t; vm_compute; solve_Permutation).
  by rewrite <- HP.
Qed.

Lemma other_runs_insert runs t R : other_runs (<[t := R]> runs) t = other_runs runs t.
Proof.
  unfold other_runs. f_equal. apply list_fmap_ext. intros i t' Ht'. apply list_elem_of_lookup_2, list_elem_of_filter in Ht' as [Hne _].
  by apply fn_lookup_insert_ne.
Qed.

(** A node some tier has, embedded in the arena or not *)
Definition node_of (a : arena) (t : tier_id) (n : Z) : Prop := node_in (b_tier (bucket_at a t)) n.

(** The sheet object of an embedded node is in the first sheet of the metadata. *)
Definition in_memory (e : meta) (x : Z) : Prop := is_at (_arena_memory e) x = true.

Record part_ok (a : arena) (t : tier_id) (gs : Z -> grants) (R : list run) : Prop := {
  pa_bucket : bucket_ok (max_of t) (bucket_at a t) gs;
  pa_nodes : nodes_ok (b_tier (bucket_at a t));
  pa_small i : @caching _ (view_cache t) _ = true -> 0 <= i < __count (b_tier (bucket_at a t)) ->
    hi (entry (__idx (b_tier (bucket_at a t))) i) - lo (entry (__idx (b_tier (bucket_at a t))) i) < 2 ^ 32;
  pa_ground : grounded base (b_tier (bucket_at a t)) (b_sheets (bucket_at a t)) R;
  pa_objects i : 0 <= i < __count (b_tier (bucket_at a t)) ->
    object (b_tier (bucket_at a t)) i = nd (entry (__idx (b_tier (bucket_at a t))) i) + sizeof_node \/
    (nd (entry (__idx (b_tier (bucket_at a t))) i) = head_of t /\ in_memory (a_meta a) (object (b_tier (bucket_at a t)) i));
  pa_head : node_in (b_tier (bucket_at a t)) (head_of t) \/
    (fresh t /\ __count (b_tier (bucket_at a t)) = 0 /\ rd (links (b_tier (bucket_at a t))) (head_of t + 0) = 0)
}.

(** [rest] lists the runs of everything that is no sheet of a tier. *)
Record arena_ok (rest : list run) (a : arena) (gs : tier_id -> Z -> grants) (gm : Z -> grants) (runs : tier_id -> list run) : Prop := {
  ao_part t : part_ok a t (gs t) (runs t);
  ao_meta : meta_ok (a_meta a) gm;
  ao_backed t n : node_of a t n -> n <> head_of t -> in_meta (a_meta a) gm n;
  ao_nodes t t' n : node_of a t n -> node_of a t' n -> t = t';
  ao_va : va_ok base (va_of (m_process (a_meta a))) (all_runs runs ++ rest)
}.

(** What tier [t] sees of the others *)
Definition frame_of (rest : list run) (a : arena) (runs : tier_id -> list run) (t : tier_id) : frame :=
  Frame base (other_runs runs t ++ rest)
    (fun n => exists t', t' <> t /\ node_of a t' n) (fun n => exists t', t' <> t /\ node_of a t' n /\ n = head_of t') (in_memory (a_meta a))
    (fresh t) (a_meta a).

Lemma focus rest a gs gm runs t :
  arena_ok rest a gs gm runs -> tier_ok (max_of t) (head_of t) (frame_of rest a runs t) (bucket_at a t) (a_meta a) (gs t) gm.
Proof.
  intros [Hp Hm Hb Hn Hv]. destruct (Hp t) as [H1 H2 H3 H4 H5 H6]. split; try done.
  - intros n. apply Hb.
  - exists (runs t). split; [done|]. cbn [fr_base fr_runs frame_of]. apply (va_ok_perm _ _ _ _ Hv).
    by rewrite app_assoc, <- all_runs_perm.
  - intros x (t' & Hne & Hx). split; [intros Hx'; by destruct (Hne (Hn t' t x Hx Hx'))|].
    destruct (decide (x = head_of t')) as [->|Hh]; [left; by exists t'|right; by apply (Hb t')].
Qed.

(** The arena with a tier and the metadata changed as the frame allows, the
    runs outside the tiers changed as well *)
Lemma unfocus rest rest' a gs gm runs t b e gst gm' l home :
  arena_ok rest a gs gm runs ->
  let F := frame_of rest a runs t in
  tier_ok (max_of t) (head_of t) (Frame base l (fr_nodes F) (fr_embedded F) (fr_object F) (fr_fresh F) home) b e gst gm' ->
  l ≡ₚ other_runs runs t ++ rest' -> memory (_arena_memory e) = memory (_arena_memory (a_meta a)) ->
  exists runs', arena_ok rest' (set_meta (set_bucket a t b) e) (<[t := gst]> gs) gm' runs'.
Proof.
  intros [Hp Hm Hb Hn Hv] F [H1 H2 H3 H4 H5 (R & HR & HV) H7 _ H9 H10] Hl Hmem.
  exists (<[t := R]> runs). subst F. cbn [fr_base fr_runs fr_nodes fr_embedded fr_object fr_fresh fr_meta frame_of] in *. set (a' := set_meta (set_bucket a t b) e).
  assert (Eb : bucket_at a' t = b) by (unfold a'; by rewrite bucket_at_meta, bucket_at_eq).
  assert (En : forall t', t' <> t -> bucket_at a' t' = bucket_at a t') by (intros; unfold a'; by rewrite bucket_at_meta, bucket_at_ne).
  assert (Em : forall x, in_memory e x <-> in_memory (a_meta a) x).
  { unfold memory in Hmem. injection Hmem as E1 E2. intros x. unfold in_memory, is_at, addr, addr_end. by rewrite E1, E2. }
  assert (Hmine : forall n t', node_in (b_tier b) n -> t' <> t -> node_of a t' n -> False).
  { intros n t' Hx Hne Hx'. destruct (H7 n) as [Hno _]; [by exists t'|by apply Hno]. }
  split; cbn [set_meta a_meta].
  - intros t'. destruct (decide (t' = t)) as [->|Hne].
    + rewrite !fn_lookup_insert. split; rewrite ?Eb; try done. intros i Hi. destruct (H9 i Hi) as [|[Ho Hx]]; [by left|right]. by split; [|apply Em].
    + rewrite !fn_lookup_insert_ne by done. destruct (Hp t') as [G1 G2 G3 G4 G5 G6]. split; rewrite ?(En t' Hne); try done.
      intros i Hi. destruct (G5 i Hi) as [|[Ho Hx]]; [by left|right]. by split; [|apply Em].
  - done.
  - intros t' n. unfold node_of. destruct (decide (t' = t)) as [->|Hne]; [rewrite Eb; apply H4|]. rewrite (En t' Hne).
    intros Hx Hh. destruct (H7 n) as [_ [(t2 & _ & Hx2 & ->)|]]; [by exists t'| |done].
    by destruct Hh; rewrite (Hn t' t2 _ Hx Hx2).
  - intros t1 t2 n. unfold node_of. destruct (decide (t1 = t)) as [->|H1'], (decide (t2 = t)) as [->|H2']; rewrite ?Eb, ?En by done; try done.
    + intros Hx Hx'. by destruct (Hmine n t2 Hx H2').
    + intros Hx Hx'. by destruct (Hmine n t1 Hx' H1').
    + apply Hn.
  - apply (va_ok_perm _ _ _ _ HV). rewrite Hl, (all_runs_perm _ t), fn_lookup_insert, other_runs_insert. by rewrite app_assoc.
Qed.

(** The usual case: the frame is as it was. *)
Lemma unfocus_same rest a gs gm runs t b e gst gm' :
  arena_ok rest a gs gm runs -> tier_ok (max_of t) (head_of t) (frame_of rest a runs t) b e gst gm' ->
  meta_place (a_meta a) e /\ exists runs', arena_ok rest (set_meta (set_bucket a t b) e) (<[t := gst]> gs) gm' runs'.
Proof.
  intros Hok Ht. pose proof (to_place _ _ _ _ _ _ _ Ht) as Hpl. split; [done|].
  apply (unfocus rest rest a gs gm runs t b e gst gm' (other_runs runs t ++ rest) (a_meta a)); [done|done|done|].
  by destruct Hpl as [-> _].
Qed.
End ArenaInv.
