(* ===== verification/ArenaProps.v ===== *)
(** * The arena serves and takes back blocks

    [__vmap_alloc], [__vmap_remove_at] and [__vmap_remove]: the tier for a size,
    the tier of an address, and what happens there, seen from a client of the
    arena.  The canaries of [__default_redzone] are off. *)

From stdpp Require Import functions.
From S2P Require Import Prelude.
From S2P Require Import Intrusive.
From S2P Require Import Config.
From S2P Require Import VaReserve.
From S2P Require Import Book.
From S2P Require Import Sheet.
From S2P Require Import SheetProps.
From S2P Require Import Tier.
From S2P Require Import Harden.
From S2P Require Import Kernel.
From S2P Require Import Meta.
From S2P Require Import Bucket.
From S2P Require Import Arena.
From S2P Require Import ArenaApi.
From S2P Require Import BucketInv.
From S2P Require Import Ground.
From S2P Require Import BucketProps.
From S2P Require Import BucketFree.
From S2P Require Import ArenaInv.

#[local] Open Scope Z_scope.

Section ArenaProps.
Context `{CL : ChunkLaws} `{HD : Hardening} `{ST : Settings} `{PL : Platform}.
Context (head_of : tier_id -> Z) (base : Z) (fresh : tier_id -> Prop) (rest : list run).

Abbreviation arena_ok := (arena_ok head_of base fresh rest).
Abbreviation frame_of := (frame_of head_of base fresh rest).

Lemma max_pos t : 0 < max_of t.
Proof. by destruct t. Qed.

(** The block [p] of [n] bytes of some tier is in the client's hands. *)
Definition aheld (a : arena) (gs : tier_id -> Z -> grants) (p n : Z) (u : bool) : Prop :=
  exists t, held (bucket_at a t) (gs t) p n u.

(** ** Where blocks lie *)

(** What an entry covers is on a run of its tier. *)
Lemma entry_run a gs gm runs t i :
  arena_ok a gs gm runs -> 0 <= i < __count (b_tier (bucket_at a t)) ->
  exists r, r ∈ runs t /\ base + r.1 <= lo (entry (__idx (b_tier (bucket_at a t))) i) /\
    hi (entry (__idx (b_tier (bucket_at a t))) i) <= base + r.1 + r.2 * 2097152.
Proof.
  intros Hok Hi. destruct (ao_part _ _ _ _ _ _ _ _ Hok t) as [Hb _ _ Hg _].
  destruct (ok_at _ _ _ _ (bo_sheets _ _ _ Hb) i Hi) as (sh & Hn & _ & El & Eh).
  destruct (gr_at _ _ _ _ Hg i sh Hi Hn) as (r & Hr & Hon). apply list_elem_of_lookup_2 in Hr. exists r. split; [done|].
  destruct (on_run_bounds base _ _ sh r (ao_va _ _ _ _ _ _ _ _ Hok)) as [E1 E2]; [|done|lia].
  rewrite (all_runs_perm runs t), !elem_of_app. by left; left.
Qed.

(** Runs of two tiers are apart. *)
Lemma runs_of_tiers_apart a gs gm runs t t' r r' :
  arena_ok a gs gm runs -> t <> t' -> r ∈ runs t -> r' ∈ runs t' ->
  r.1 + r.2 * 2097152 <= r'.1 \/ r'.1 + r'.2 * 2097152 <= r.1.
Proof.
  intros Hok Hne Hr Hr'. pose proof (ao_va _ _ _ _ _ _ _ _ Hok) as HV.
  assert (Ho : r' ∈ other_runs runs t).
  { unfold other_runs. apply list_elem_of_In, in_concat. exists (runs t'). split; [|by apply list_elem_of_In].
    apply list_elem_of_In, list_elem_of_fmap. exists t'. split; [done|]. apply list_elem_of_filter. split; [congruence|].
    destruct t'; unfold tiers; set_solver. }
  apply elem_of_Permutation in Hr as (l & El). apply elem_of_Permutation in Ho as (l' & El').
  apply (runs_apart base (va_of (m_process (a_meta a))) (l ++ l' ++ rest) r r'). apply (va_ok_perm _ _ _ _ HV).
  rewrite (all_runs_perm runs t), El, El'. cbn. rewrite <- !app_assoc. cbn. by rewrite <- Permutation_middle.
Qed.

(** A grant is on a run of its tier. *)
Lemma grant_run a gs gm runs t p n u :
  arena_ok a gs gm runs -> grant (b_tier (bucket_at a t)) (gs t) p n u ->
  exists r, r ∈ runs t /\ base + r.1 <= p /\ p + n <= base + r.1 + r.2 * 2097152 /\ 0 < n.
Proof.
  intros Hok (i & Hi & Hg). destruct (entry_run a gs gm runs t i Hok Hi) as (r & Hr & H1 & H2). exists r.
  destruct (ao_part _ _ _ _ _ _ _ _ Hok t) as [Hb _ _ _ _].
  pose proof (grant_range _ _ _ _ _ _ _ _ (bo_sheets _ _ _ Hb) Hi Hg). split; [done|lia].
Qed.

(** Blocks of two tiers are apart. *)
Lemma held_apart a gs gm runs t t' r p n q m u :
  arena_ok a gs gm runs -> t <> t' -> r ∈ runs t -> base + r.1 <= p -> p + n <= base + r.1 + r.2 * 2097152 ->
  held (bucket_at a t') (gs t') q m u -> apart p n q m.
Proof.
  intros Hok Hne Hr H1 H2 [_ Hg]. destruct (grant_run a gs gm runs t' q m _ Hok Hg) as (r' & Hr' & H3 & H4 & H5).
  pose proof (runs_of_tiers_apart a gs gm runs t t' r r' Hok Hne Hr Hr'). unfold apart. lia.
Qed.

(** ** The tier of an address *)

Lemma find_range_total (t : tier) Max x : Tier.inv Max t -> exists i, find_range t x = Some i.
Proof.
  intros HT. pose proof HT as [Hc Hs Hpr _ _ _].
  destruct (find_loop_spec (__idx t) (__count t) x (S (Z.to_nat (__count t))) 0 (__count t - 1)) as (r & E & Hr);
    try done; try lia. unfold find_range. rewrite E. by eexists.
Qed.

Lemma find_range_none (t : tier) Max x :
  Tier.inv Max t -> (forall i, 0 <= i < __count t -> ~ (lo (entry (__idx t) i) <= x < hi (entry (__idx t) i))) ->
  find_range t x = Some (-1).
Proof.
  intros HT Hno. pose proof HT as [Hc Hs Hpr _ _ _].
  destruct (find_loop_spec (__idx t) (__count t) x (S (Z.to_nat (__count t))) 0 (__count t - 1)) as (r & E & Hr);
    try done; try lia. unfold find_range. rewrite E. f_equal. destruct Hr as [[-> _]|[Hr Hcov]]; [done|]. by destruct (Hno r Hr).
Qed.

Lemma find_tier_at a gs gm runs t p n u :
  arena_ok a gs gm runs -> grant (b_tier (bucket_at a t)) (gs t) p n u ->
  exists i, find_tier a p = Ok (Some (t, i)) /\ around (b_tier (bucket_at a t)) i p.
Proof.
  intros Hok Hg. destruct (grant_run a gs gm runs t p n u Hok Hg) as (r & Hr & H1 & H2 & H3). destruct Hg as (i & Hi & Hg).
  pose proof (pa_bucket _ _ _ _ _ _ _ (ao_part _ _ _ _ _ _ _ _ Hok t)) as Hb.
  pose proof (grant_range _ _ _ _ _ _ _ _ (bo_sheets _ _ _ Hb) Hi Hg) as Hp.
  assert (Hat : around (b_tier (bucket_at a t)) i p) by (split; [done|lia]). exists i. split; [|done].
  assert (Hin : t ∈ tiers) by (destruct t; unfold tiers; set_solver). unfold find_tier. fold tiers. revert Hin.
  induction tiers as [|t0 ts IH]; intros Hin; [by apply elem_of_nil in Hin|]. cbn [find_in]. rewrite tier_of_at.
  pose proof (pa_bucket _ _ _ _ _ _ _ (ao_part _ _ _ _ _ _ _ _ Hok t0)) as Hb0.
  pose proof (ok_tier _ _ _ _ (bo_sheets _ _ _ Hb0)) as HT0. destruct (decide (t0 = t)) as [->|Hne].
  - rewrite (find_range_at (max_of t) _ i p HT0 Hi) by lia. cbn [or_fuel bind]. by rewrite (proj2 (Z.leb_le 0 i)) by lia.
  - rewrite (find_range_none _ (max_of t0) p HT0); [cbn [or_fuel bind]; apply IH; set_solver|].
    intros j Hj Hx. destruct (entry_run a gs gm runs t0 j Hok Hj) as (r' & Hr' & H4 & H5).
    pose proof (runs_of_tiers_apart a gs gm runs t t0 r r' Hok ltac:(congruence) Hr Hr'). lia.
Qed.

(** ** What changes hands *)

Definition same_aheld (a : arena) gs (a' : arena) gs' : Prop := forall p n u, aheld a' gs' p n u <-> aheld a gs p n u.

(** One tier changed: the blocks of the others are as before. *)
Lemma aheld_change a gs t b e g p n u :
  aheld (set_meta (set_bucket a t b) e) (<[t := g]> gs) p n u <->
  held b g p n u \/ exists t', t' <> t /\ held (bucket_at a t') (gs t') p n u.
Proof.
  unfold aheld. split.
  - intros (t' & Hh). rewrite bucket_at_meta in Hh. destruct (decide (t' = t)) as [->|Hne].
    + rewrite bucket_at_eq, fn_lookup_insert in Hh. by left.
    + rewrite bucket_at_ne, fn_lookup_insert_ne in Hh by done. right. by exists t'.
  - intros [Hh|(t' & Hne & Hh)]; [exists t|exists t']; rewrite bucket_at_meta.
    + by rewrite bucket_at_eq, fn_lookup_insert.
    + by rewrite bucket_at_ne, fn_lookup_insert_ne.
Qed.

Lemma aheld_split a gs t p n u :
  aheld a gs p n u <-> held (bucket_at a t) (gs t) p n u \/ exists t', t' <> t /\ held (bucket_at a t') (gs t') p n u.
Proof.
  split; [|intros [?|(t' & _ & ?)]; by eexists]. intros (t' & Hh). destruct (decide (t' = t)) as [->|]; [by left|right; by exists t'].
Qed.

(** ** Serving *)

(** The tier [__vmap_alloc] asks *)
Definition route (sz : Z) : tier_id :=
  if sz <=? __class_small then Precise else if sz <? __class_medium then Small else
  if sz <=? __class_large then Medium else if sz <=? __class_huge then Large else Huge.

Lemma vmap_alloc_route a sz : __vmap_alloc a sz = on_tier (route sz) (insert_fn sz) a.
Proof. unfold __vmap_alloc, route. by repeat case_match. Qed.

Lemma caching_huge : @caching _ (view_cache Huge) _ = false.
Proof. unfold caching, view_cache. cbn [view tv_cache no_cache fc_slots]. by rewrite andb_false_r. Qed.

Lemma route_small sz : @caching _ (view_cache (route sz)) _ = true -> sz < 2 ^ 32.
Proof.
  intros Hc. destruct (Z.ltb_spec sz (2 ^ 32)) as [|Hs]; [done|].
  assert (Er : route sz = Huge); [|by rewrite Er, caching_huge in Hc].
  unfold route. change __class_small with 512 in *. change __class_medium with 4096 in *. change __class_large with 32768 in *.
  change __class_huge with 262144 in *. rewrite !(proj2 (Z.leb_gt _ _)), (proj2 (Z.ltb_ge _ _)) by lia. done.
Qed.

Context (Hla : __default_launder = false).

(** The answer to a request of [sz] bytes *)
Definition answered (a : arena) gs (sz : Z) (c : chunk) (a' : arena) gs' : Prop :=
  sz <= len c /\ 0 < len c /\ chunk_zero c = false /\
  (forall p m u, aheld a gs p m u -> apart (ptr c) (len c) p m) /\
  exists n, len c <= n /\ forall p m u, aheld a' gs' p m u <-> aheld a gs p m u \/ (p = ptr c /\ m = n /\ u = false).

Lemma alloc_serves a gs gm runs sz :
  arena_ok a gs gm runs -> requested sz ->
  exists c a' gs' runs', __vmap_alloc a sz = Ok (c, a') /\ arena_ok a' gs' gm runs' /\ a_meta a' = a_meta a /\
    ((c = null_chunk /\ same_aheld a gs a' gs') \/ answered a gs sz c a' gs').
Proof using Hla CL PL.
  intros Hok Hreq. rewrite vmap_alloc_route. set (t := route sz). pose proof (focus head_of base fresh rest a gs gm runs t Hok) as HF.
  destruct (tier_serves (max_of t) (head_of t) (max_pos t) _ _ _ _ _ sz HF Hreq Hla (route_small sz)) as (c & b & g & E & Hok' & Hres).
  destruct (unfocus_same head_of base fresh rest a gs gm runs t b (a_meta a) g gm Hok Hok') as (_ & runs' & Hok2).
  exists c, (set_meta (set_bucket a t b) (a_meta a)), (<[t := g]> gs), runs'.
  rewrite on_tier_at. unfold insert_fn. fold t. rewrite E. cbn [bind]. split; [done|]. split; [done|]. split; [done|].
  destruct Hres as [[-> Hs]|(n & Hz & [Hl0 Hln] & Hin & Hh & Hf)]; [left; split; [done|]|right].
  - intros p n u. rewrite aheld_change, (aheld_split a gs t), (Hs p n u). done.
  - destruct Hf as [[Hs Hf]|[? _]]; [|done]. split_and!; try done.
    + intros p m u Hp. apply (aheld_split a gs t) in Hp as [Hp|(t' & Hne & Hp)]; [by apply (Hf p m u)|].
      destruct Hin as (i & Hi & H1 & H2). destruct (entry_run a gs gm runs t i Hok Hi) as (r & Hr & H3 & H4).
      apply (held_apart a gs gm runs t t' r _ _ _ _ u Hok ltac:(congruence) Hr); [lia|lia|done].
    + exists n. split; [done|]. intros p m u. rewrite aheld_change, (aheld_split a gs t), (Hh p m u). tauto.
Qed.

(** ** Taking back *)

Context (Hrz : __default_redzone = false) (Hsz : forall t, 0 <= sizeof_of t).

(** The block [p] left the client's hands, and nothing else did. *)
Definition ataken (a : arena) gs (p : Z) (r : res (bool * arena)) : Prop :=
  exists a' gs' gm' runs', r = Ok (true, a') /\ arena_ok a' gs' gm' runs' /\ meta_place (a_meta a) (a_meta a') /\
    forall q m u, aheld a' gs' q m u <-> q <> p /\ aheld a gs q m u.

(** A removal on the tier of the block *)
Lemma taken_at a gs gm runs t p n u (fn : tier_fn bool) :
  arena_ok a gs gm runs -> held (bucket_at a t) (gs t) p n u ->
  taken (max_of t) (head_of t) (frame_of a runs t) (bucket_at a t) (gs t) p
    (fn _ _ (view_book t) (view_cache t) t (bucket_at a t) (a_meta a)) ->
  ataken a gs p (on_tier t fn a).
Proof using CL.
  intros Hok Hp (b & e & g & gm' & E & Hok' & Hh). destruct (unfocus_same head_of base fresh rest a gs gm runs t b e g gm' Hok Hok') as (Hpl & runs' & Hok2).
  exists (set_meta (set_bucket a t b) e), (<[t := g]> gs), gm', runs'. rewrite on_tier_at, E. cbn [bind]. split; [done|]. split; [done|]. split; [done|].
  intros q m v. rewrite aheld_change, (aheld_split a gs t), (Hh q m v). split; [|tauto].
  intros [[? ?]|(t' & Hne & Hq)]; [tauto|]. split; [|right; by exists t']. intros ->.
  destruct Hp as [_ Hp]. destruct (grant_run a gs gm runs t p n _ Hok Hp) as (r & Hr & H1 & H2 & H3).
  pose proof (held_apart a gs gm runs t t' r p n p m v Hok ltac:(congruence) Hr H1 H2 Hq) as Ha. destruct Hq as [_ Hq].
  destruct (grant_run a gs gm runs t' p m _ Hok Hq) as (_ & _ & _ & _ & ?). unfold apart in Ha. lia.
Qed.

(** Without canaries the block is where the client says. *)
Lemma canaries_off t m p n :
  verify_redzone m p n = true /\ verify_redzone_leading m p = true /\ shifted t p = p /\ with_redzones t (Chunk p n) = Chunk p n.
Proof using Hrz. unfold verify_redzone, verify_redzone_leading, shifted, with_redzones. by rewrite Hrz. Qed.

Lemma remove_takes a gs gm runs p n k :
  arena_ok a gs gm runs -> aheld a gs p n false -> 0 < k ->
  (ataken a gs p (__vmap_remove_at head_of a p) /\ ataken a gs p (__vmap_remove head_of a (Chunk p k))) /\
  (ataken a gs p (__vmap_tombstone_at head_of a p) /\ ataken a gs p (__vmap_tombstone head_of a (Chunk p k))).
Proof using Hrz Hsz CL.
  intros Hok (t & Hp) Hk. pose proof (focus head_of base fresh rest a gs gm runs t Hok) as HF. pose proof Hp as [_ Hg].
  destruct (find_tier_at a gs gm runs t p n _ Hok Hg) as (i & Ef & Har).
  destruct (canaries_off t (a_bytes a) p 0) as (_ & E1 & E2 & _). destruct (canaries_off t (a_bytes a) p k) as (E3 & _ & _ & E4).
  unfold __vmap_remove_at, __vmap_remove, __vmap_tombstone_at, __vmap_tombstone, dispatch. cbn [ptr len]. rewrite Ef. cbn [bind].
  split; split; apply (taken_at a gs gm runs t p n false); try done; cbv beta; rewrite ?E1, ?E2, ?E3, ?E4, orb_true_r; unfold guarded; cbn [negb].
  - by apply (remove_at_taken _ _ _ _ (max_pos t) (Hsz t) _ _ _ _ gm i p n false).
  - by apply (push_or_remove_taken _ _ _ _ (max_pos t) (Hsz t) _ _ _ _ gm i p n false).
  - destruct Hp as [Hnc _]. by apply (remove_taken _ _ _ _ (max_pos t) (Hsz t) _ false true _ _ _ gm i p n false).
  - destruct Hp as [Hnc _]. apply (remove_taken _ _ _ _ (max_pos t) (Hsz t) _ true true _ _ _ gm i p n false); try done. intros _. by exists k.
Qed.
End ArenaProps.
