(* ===== verification/ArenaGrow.v ===== *)
(** * The arena grows

    [__buf_expand_exact] at the tier a request goes to: the first sheet of a
    tier that was never used, or another one.  [heap_ok] joins the invariant of
    the tiers with that of the metadata, whose runs are among those in use. *)

From stdpp Require Import functions.
From S2P Require Import Prelude.
From S2P Require Import Intrusive.
From S2P Require Import Config.
From S2P Require Import Buddy.
From S2P Require Import Tlsf.
From S2P Require Import Tcache.
From S2P Require Import VaReserve.
From S2P Require Import Hooks.
From S2P Require Import Book.
From S2P Require Import BuddyBook.
From S2P Require Import TlsfBook.
From S2P Require Import Sheet.
From S2P Require Import SheetProps.
From S2P Require Import Tier.
From S2P Require Import Harden.
From S2P Require Import Kernel.
From S2P Require Import Meta.
From S2P Require Import Bucket.
From S2P Require Import Arena.
From S2P Require Import ArenaApi.
From S2P Require Import BucketInv.
From S2P Require Import Ground.
From S2P Require Import BucketProps.
From S2P Require Import BucketFree.
From S2P Require Import MetaGrow.
From S2P Require Import BucketGrow.
From S2P Require Import ArenaInv.
From S2P Require Import ArenaProps.

#[local] Open Scope Z_scope.

Section ArenaGrow.
Context `{CL : ChunkLaws} `{HD : Hardening} `{ST : Settings} `{PL : Platform} `{RS : !Reserved}.
(** The arena, its embedded nodes, where the reservation is, and the tiers that
    may be unused *)
Context (self : Z) (head_of : tier_id -> Z) (ihead base : Z).

(** The embedded nodes are members of the arena: outside the reservation, and
    different for different tiers. *)
Record members_ok : Prop := {
  mo_head t : outside base (head_of t);
  mo_internal : outside base ihead;
  mo_inj t t' : head_of t = head_of t' -> t = t';
  mo_size t : 0 < sizeof_of t < 2 ^ 40;
  mo_object : 0 < sizeof_sheet < 2 ^ 40
}.

Context (fresh : tier_id -> Prop).

(** The tiers and the metadata are well formed, with the grants [gs]. *)
Definition heap_ok (a : arena) (gs : tier_id -> Z -> grants) : Prop :=
  exists gm runs gM rM RM X, arena_ok head_of base fresh (rM :: RM ++ X) a gs gm runs /\ meta_at base ihead (a_meta a) gm gM rM RM.

(** Sizes a sheet may have: the caches keep sizes in 32 bits and the two-level
    list those of blocks, so all but the huge tier stay below 4 GiB. *)
Definition admissible (t : tier_id) (sz : Z) : Prop := 0 < sz < 2 ^ 49 /\ (t <> Huge -> sz + 2 ^ 23 < 2 ^ 32).

Lemma admissible_fits t sz sz' :
  admissible t sz -> sz <= sz' <= sz + 4096 ->
  0 < sz' < 2 ^ 50 /\ sz' + 2 ^ 22 <= @bk_most _ _ _ (view_laws t) /\ (@caching _ (view_cache t) _ = true -> sz' + 2 ^ 22 < 2 ^ 32).
Proof.
  intros [H1 H2] Hs. split; [lia|]. destruct (decide (t = Huge)) as [->|Hne]; [split; [cbn; lia|by rewrite caching_huge]|].
  specialize (H2 Hne). split; [|lia]. destruct t; cbn; lia || done.
Qed.

Context (MO : members_ok).

(** What the frame of a tier says about where things are *)
Lemma frame_places a gs gm runs gM rM RM X t :
  arena_ok head_of base fresh (rM :: RM ++ X) a gs gm runs -> meta_at base ihead (a_meta a) gm gM rM RM ->
  let F := frame_of head_of base fresh (rM :: RM ++ X) a runs t in
  (forall x, fr_embedded F x -> outside base x) /\
  (forall x, fr_object F x -> base + rM.1 <= x < base + rM.1 + rM.2 * 2097152) /\
  fr_runs F ≡ₚ rM :: RM ++ other_runs runs t ++ X /\ ~ fr_nodes F (head_of t).
Proof using MO CL RS.
  intros Hok HA F. pose proof (ao_va _ _ _ _ _ _ _ _ Hok) as HV. split_and!.
  - intros x (t' & _ & _ & ->). apply MO.
  - intros x Hx. destruct (on_run_bounds base _ _ (_arena_memory (a_meta a)) rM HV ltac:(set_solver) (ma_run _ _ _ _ _ _ _ HA)) as [E1 E2].
    cbn in Hx. unfold in_memory, is_at in Hx. repeat case_match; try done. apply andb_true_iff in H0 as [H0 H1]. lia.
  - cbn. rewrite (assoc_L (++)), (comm (++) (other_runs runs t)). solve_Permutation.
  - intros (t' & Hne & Hn). destruct (decide (head_of t = head_of t')) as [E|E]; [by apply (mo_inj MO) in E|].
    destruct (ao_backed _ _ _ _ _ _ _ _ Hok t' _ Hn E) as (k & (i & Hi & Hg) & Hk).
    pose proof (ma_ok _ _ _ _ _ _ _ HA) as HO. unfold meta_ok in HO. pose proof (grant_range _ _ _ _ _ _ _ _ HO Hi Hg) as (G1 & G2 & G3).
    destruct (grounded_entry base __max_sheets_arena_internal _ _ _ _ gm RM i HO (ma_ground _ _ _ _ _ _ _ HA) HV) as (r & Hr & E3 & E4);
      [intros x Hx; set_solver|done|]. apply list_elem_of_lookup_2 in Hr.
    destruct (run_bounds base _ _ r HV ltac:(set_solver)) as (B0 & B1 & B2). destruct (mo_head MO t) as [_ Ho]. unfold sizeof_node in Hk. lia.
Qed.

(** Growing tier [t] keeps the arena well formed and everybody's blocks, and the
    tier is in use then, or it ends the process. *)
Definition keeps (a : arena) gs (t : tier_id) (r : res (bool * arena)) : Prop :=
  r = Abort \/ exists ok a' gs', r = Ok (ok, a') /\ heap_ok a' gs' /\ same_aheld a gs a' gs' /\
    node_of a' t (head_of t) /\ forall t', t' <> t -> bucket_at a' t' = bucket_at a t'.

(** A tier that grows, in its arena *)
Lemma grow_tier a gs gm runs rM RM X t (fn : tier_fn bool) :
  arena_ok head_of base fresh (rM :: RM ++ X) a gs gm runs ->
  (let r := fn _ _ (view_book t) (view_cache t) t (bucket_at a t) (a_meta a) in
   r = Abort \/ grown (max_of t) (head_of t) ihead (frame_of head_of base fresh (rM :: RM ++ X) a runs t) rM (other_runs runs t ++ X)
                  (bucket_at a t) (gs t) (memory (_arena_memory (a_meta a))) r) ->
  keeps a gs t (on_tier t fn a).
Proof using CL.
  intros Hok Hr. rewrite on_tier_at. destruct Hr as [->|(ok & b & e & g & gm' & gM' & RM' & lost & -> & Ht & HA & Hs & Em & Hn)]; [by left|right].
  cbn [bind]. exists ok, (set_meta (set_bucket a t b) e), (<[t := g]> gs). split; [done|].
  destruct (unfocus head_of base fresh (rM :: RM ++ X) (rM :: RM' ++ lost ++ X) a gs gm runs t b e g gm' (rM :: RM' ++ lost ++ other_runs runs t ++ X) e Hok Ht)
    as (runs' & Hok'); [solve_Permutation|done|]. split_and!.
  - by exists gm', runs', gM', rM, RM', (lost ++ X).
  - intros p n u. by rewrite aheld_change, (aheld_split a gs t), (Hs p n u).
  - unfold node_of. by rewrite bucket_at_meta, bucket_at_eq.
  - intros t' Ht'. by rewrite bucket_at_meta, bucket_at_ne.
Qed.

Lemma expand_keeps a gs t sz :
  heap_ok a gs -> node_of a t (head_of t) -> admissible t sz -> keeps a gs t (on_tier t (expand_fn self sz) a).
Proof using MO CL RS.
  intros (gm & runs & gM & rM & RM & X & Hok & HA) Hn Hsz. apply (grow_tier a gs gm runs rM RM X t _ Hok).
  destruct (frame_places a gs gm runs gM rM RM X t Hok HA) as (F1 & F2 & F3 & _). destruct (admissible_fits t sz sz Hsz ltac:(lia)) as (S1 & S2 & S3).
  destruct (expand_spec (max_of t) (sizeof_of t) (head_of t) self ihead (max_pos t) (mo_size MO t) (mo_object MO)
    (frame_of head_of base fresh (rM :: RM ++ X) a runs t) rM (other_runs runs t ++ X) (mo_head MO t) F1 F2 (mo_internal MO)
    _ _ _ _ gM RM sz (focus head_of base fresh _ a gs gm runs t Hok) HA F3 Hn S1 S2 S3) as [E1 E2].
  unfold expand_fn. destruct (is_tlsf t); [exact E1|exact E2].
Qed.

(** The size of the first sheet, when it is asked for by [__default_magic_size] *)
Definition first_size (t : tier_id) (n : Z) : Z :=
  if n =? __default_magic_size then
    match t with
    | Precise | Small => __calculate_space_small (class_of t)
    | Medium => __calculate_space_medium __class_medium
    | Large => __calculate_space_large __class_large
    | Huge => __calculate_space_huge __class_huge
    end
  else n.

Lemma init_keeps a gs t n :
  heap_ok a gs -> rd (links (tier_of a t)) (head_of t + 0) = 0 -> admissible t (first_size t n) -> keeps a gs t (on_tier t (init_fn self head_of n) a).
Proof using MO CL RS.
  intros (gm & runs & gM & rM & RM & X & Hok & HA) Hn Hsz. apply (grow_tier a gs gm runs rM RM X t _ Hok).
  destruct (frame_places a gs gm runs gM rM RM X t Hok HA) as (F1 & F2 & F3 & F4). rewrite tier_of_at in Hn.
  assert (Hc : __count (b_tier (bucket_at a t)) = 0).
  { destruct (pa_head _ _ _ _ _ _ _ (ao_part _ _ _ _ _ _ _ _ Hok t)) as [(i & Hi & Ei)|(_ & Hc & _)]; [|done]. exfalso.
    fold (object (b_tier (bucket_at a t)) i) in Hn || (rewrite <- Ei in Hn; fold (object (b_tier (bucket_at a t)) i) in Hn).
    destruct (mo_head MO t) as [Hh _]. destruct (pa_objects _ _ _ _ _ _ _ (ao_part _ _ _ _ _ _ _ _ Hok t) i Hi) as [Eo|[_ Ho]].
    - unfold sizeof_node in Eo. lia.
    - apply F2 in Ho. pose proof (ao_va _ _ _ _ _ _ _ _ Hok) as HV. destruct (run_bounds base _ _ rM HV ltac:(set_solver)) as (B0 & _).
      destruct (va_room _ _ _ HV). lia. }
  assert (Hgo : forall sz', first_size t n <= sz' <= first_size t n + 4096 -> forall r,
    r = (let* (b, e) := init_head (max_of t) (sizeof_of t) (head_of t) self (bucket_at a t) (a_meta a) sz' in Ok (true, b, e)) ->
    r = Abort \/ grown (max_of t) (head_of t) ihead (frame_of head_of base fresh (rM :: RM ++ X) a runs t) rM (other_runs runs t ++ X)
                  (bucket_at a t) (gs t) (memory (_arena_memory (a_meta a))) r).
  { intros sz' Hs r ->. destruct (admissible_fits t (first_size t n) sz' Hsz Hs) as (S1 & S2 & S3).
    apply (init_head_spec (max_of t) (sizeof_of t) (head_of t) self ihead (max_pos t) (mo_size MO t) (mo_object MO)
    (frame_of head_of base fresh (rM :: RM ++ X) a runs t) rM (other_runs runs t ++ X) (mo_head MO t) (mo_internal MO)
      _ _ _ gm gM RM sz' (focus head_of base fresh _ a gs gm runs t Hok) HA F3 Hc F4 (fun _ H => H) S1 S2 S3). }
  intros r. destruct Hsz as [Hpos _]. pose proof (page_round_spec (first_size t n) ltac:(lia)) as Hpr.
  assert (Hr : exists sz', first_size t n <= sz' <= first_size t n + 4096 /\
    r = (let* (b, e) := init_head (max_of t) (sizeof_of t) (head_of t) self (bucket_at a t) (a_meta a) sz' in Ok (true, b, e))).
  { destruct t; [exists (__page_round (first_size Precise n))|exists (__page_round (first_size Small n))
                |exists (first_size Medium n)|exists (first_size Large n)|exists (first_size Huge n)]; (split; [lia|reflexivity]). }
  destruct Hr as (sz' & Hs & Er). by apply (Hgo sz' Hs).
Qed.

(** Sizes of the first sheets of the tiers that are started small *)
Record initial_ok : Prop := {
  io_small : admissible Small (first_size Small (__calculate_space_small __class_small));
  io_medium : admissible Medium (first_size Medium __default_magic_size)
}.
Context (IO : initial_ok) (Hfresh : forall t, fresh t -> lazy t).

(** A tier that is not empty, or never may be, has its embedded node. *)
Lemma not_empty_started a gs t : heap_ok a gs -> is_empty head_of a t = false \/ ~ fresh t -> node_of a t (head_of t).
Proof.
  intros (gm & runs & gM & rM & RM & X & Hok & HA) Hwhy.
  destruct (pa_head _ _ _ _ _ _ _ (ao_part _ _ _ _ _ _ _ _ Hok t)) as [Hn|(Hl & _ & E)]; [done|exfalso]. destruct Hwhy as [He|Hnl]; [|done].
  unfold is_empty, Tier.empty in He. by rewrite tier_of_at, E in He.
Qed.

Lemma buf_expand_keeps a gs class_sz sz :
  heap_ok a gs -> admissible (route class_sz) sz -> keeps a gs (route class_sz) (__buf_expand_exact self head_of a class_sz sz).
Proof using MO IO Hfresh CL RS.
  intros Hok Hsz.
  assert (Hmagic : forall t, admissible t sz -> first_size t sz = sz).
  { intros t [Hs _]. unfold first_size, __default_magic_size, usize_max. case_g. }
  assert (Hinit : forall t n, is_empty head_of a t = true -> admissible t (first_size t n) -> keeps a gs t (on_tier t (init_fn self head_of n) a)).
  { intros t n He. apply (init_keeps a gs t n Hok). unfold is_empty, Tier.empty in He. by apply Z.eqb_eq in He. }
  assert (Hexp : forall t, is_empty head_of a t = false \/ ~ fresh t -> admissible t sz -> keeps a gs t (on_tier t (expand_fn self sz) a)).
  { intros t Hn Ha. apply expand_keeps; [done|by eapply not_empty_started|done]. }
  unfold __buf_expand_exact. cbv zeta. unfold route in *. set (ls := __default_lazy_construct && negb __default_eager_hot_tiers) in *.
  assert (Hls : forall t, (t = Small \/ t = Medium) -> (ls && is_empty head_of a t = false) -> is_empty head_of a t = false \/ ~ fresh t).
  { intros t Ht Hf. apply andb_false_iff in Hf as [Hf|Hf]; [right|by left]. intros Hl%Hfresh. unfold lazy in Hl. fold ls in Hl. destruct Ht as [-> | ->]; by rewrite Hf in Hl. }
  destruct (class_sz <=? __class_small); [by apply Hexp; [right; intros Hl%Hfresh|]|].
  destruct (class_sz <? __class_medium).
  { destruct (ls && is_empty head_of a Small) eqn:E; [apply andb_true_iff in E as [_ E]; apply Hinit; [done|apply IO]|apply Hexp; [apply Hls; [by left|done]|done]]. }
  destruct (class_sz <=? __class_large).
  { destruct (ls && is_empty head_of a Medium) eqn:E; [apply andb_true_iff in E as [_ E]; apply Hinit; [done|apply IO]|apply Hexp; [apply Hls; [by right|done]|done]]. }
  destruct (class_sz <=? __class_huge).
  - destruct (is_empty head_of a Large) eqn:E; [apply Hinit; [done|by rewrite Hmagic]|apply Hexp; [by left|done]].
  - destruct (is_empty head_of a Huge) eqn:E; [apply Hinit; [done|by rewrite Hmagic]|apply Hexp; [by left|done]].
Qed.
End ArenaGrow.
