(* ===== verification/ArenaStart.v ===== *)
(** * The constructor

    [__arena] from a process that has its reservation: the first sheet of the
    metadata, the first of [_arena_tier], and the first sheets of the tiers that
    are not left for later.  What it returns is [heap_ok] with nothing granted,
    or the process ends. *)

From stdpp Require Import functions.
From S2P Require Import Prelude.
From S2P Require Import Intrusive.
From S2P Require Import Config.
From S2P Require Import Buddy.
From S2P Require Import Tlsf.
From S2P Require Import Tcache.
From S2P Require Import Mpsc.
From S2P Require Import VaReserve.
From S2P Require Import Hooks.
From S2P Require Import Book.
From S2P Require Import BuddyInv.
From S2P Require Import BuddyBook.
From S2P Require Import TlsfBook.
From S2P Require Import Sheet.
From S2P Require Import SheetProps.
From S2P Require Import Tier.
From S2P Require Import Predict.
From S2P Require Import Harden.
From S2P Require Import Stats.
From S2P Require Import Kernel.
From S2P Require Import Meta.
From S2P Require Import Bucket.
From S2P Require Import Arena.
From S2P Require Import ArenaApi.
From S2P Require Import BucketInv.
From S2P Require Import Ground.
From S2P Require Import Enlist.
From S2P Require Import BucketProps.
From S2P Require Import BucketFree.
From S2P Require Import MetaGrow.
From S2P Require Import ArenaInv.
From S2P Require Import ArenaProps.
From S2P Require Import ArenaGrow.

#[local] Open Scope Z_scope.
#[local] Existing Instance meta_book.
#[local] Existing Instance meta_laws.

(** ** A tier without sheets *)

Section Blank.
Context {B : Type} `{CL : ChunkLaws} `{BK : !Book B} `{BL : !BookLaws B}.
Context (MaxSheets : Z) (HM : 0 < MaxSheets) (head base : Z).

Definition blank_tier : tier := Tier.init MaxSheets head raw.

Lemma blank_nodes x : ~ node_in blank_tier x.
Proof. intros (i & Hi & _). cbn in Hi. lia. Qed.

Lemma blank_ok (gs : Z -> grants) :
  sheets_ok MaxSheets blank_tier (∅ : gmap Z (sheet B)) gs /\ nodes_ok blank_tier /\ grounded base blank_tier (∅ : gmap Z (sheet B)) [].
Proof using HM.
  split_and!; split; try (intros; cbn in *; lia).
  - apply Tier.init_inv; [done|]. intros i. cbn. by rewrite rd_empty.
  - exists 0. apply dlist_null. apply blank_nodes.
  - left. split; [apply blank_nodes|done].
Qed.

Lemma blank_head : rd (links blank_tier) (head + 0) = 0.
Proof. unfold blank_tier, Tier.init, raw. cbn [links]. by rewrite rd_wr_ne, rd_wr_ne, rd_wr_eq by lia. Qed.
End Blank.

Section ArenaStart.
Context `{CL : ChunkLaws} `{HD : Hardening} `{ST : Settings} `{PL : Platform} `{RS : !Reserved}.
Context (self : Z) (head_of : tier_id -> Z) (ihead base : Z).

(** ** The metadata *)

Lemma first_sheet_spec p live :
  va_ok base (va_of p) live -> 0 < __default_arena_page_buf < 2 ^ 30 ->
  first_sheet self p = Abort \/
  exists (sh : sheet buddy) p' r, first_sheet self p = Ok (sh, p') /\ va_ok base (va_of p') (r :: live) /\ sheet_ok sh ∅ /\
    on_run base (__kernel_memory sh) (__guard_offset sh) r.
Proof using RS CL.
  intros HV Hbuf. unfold first_sheet. cbv zeta. set (sz := u64 (__default_arena_page_buf * __system_pagesize)).
  assert (Hsz : 0 < sz < 2 ^ 51) by (subst sz; unfold __system_pagesize; rewrite u64_small; lia).
  pose proof (guarded_chunk_spec base __default_guard_arena_metadata p live sz HV Hsz) as Hc. cbv zeta in Hc.
  destruct Hc as [->|(r & p1 & -> & HV1 & Hr)]; [by left|]. cbn [bind].
  assert (Hrb : r.2 * 2097152 <= @bk_most _ _ _ meta_laws) by (cbn; lia).
  destruct (new_sheet_spec base p1 _ self __default_guard_arena_metadata r HV1 Hrb) as [E|(sh & p2 & E & Ev & Hok & _ & Hon)].
  - left. destruct __default_guard_arena_metadata; [exact E|]. destruct (run_bounds base _ _ r HV1 ltac:(set_solver)) as (B0 & B1 & B2).
    change __va_reservation_size with (2 ^ 38) in B2. unfold new_sheet, sheet_make, ask in E. unfold sheet_make_guarded, ask. cbn [ptr len] in *.
    rewrite Z.sub_0_r, u64_small by lia. exact E.
  - right. exists sh, p2, r. split; [|by rewrite Ev]. destruct __default_guard_arena_metadata; [exact E|].
    destruct (run_bounds base _ _ r HV1 ltac:(set_solver)) as (B0 & B1 & B2).
    change __va_reservation_size with (2 ^ 38) in B2. unfold new_sheet, sheet_make, ask in E. unfold sheet_make_guarded, ask. cbn [ptr len] in *.
    rewrite Z.sub_0_r, u64_small by lia. exact E.
Qed.

Context (MO : members_ok head_of ihead base).

(** The metadata as the members' initialisers leave it *)
Definition blank_meta (p : process) (mem : sheet buddy) : meta := Meta p mem (blank_tier __max_sheets_arena_internal ihead) ∅.

Lemma init_arena_tier_spec p mem rM live n :
  sheet_ok mem ∅ -> on_run base (__kernel_memory mem) (__guard_offset mem) rM -> va_ok base (va_of p) (rM :: live) -> 0 < n < 2 ^ 51 ->
  __init_arena_tier self ihead (blank_meta p mem) n = Abort \/
  exists e gm gM r, __init_arena_tier self ihead (blank_meta p mem) n = Ok e /\ meta_at base ihead e gm gM rM [r] /\ meta_va base e rM [r] live.
Proof using MO RS CL.
  intros Hmem Hon HV Hn. unfold __init_arena_tier, mark_memory, blank_meta. cbn [_arena_memory]. change Meta.internal_book with meta_book.
  pose proof (mo_object _ _ _ MO) as Hobj. destruct (mo_internal _ _ _ MO) as [Hih _].
  destruct (try_mark_spec mem ∅ sizeof_sheet Hmem) as (c & mem' & -> & Hres); [unfold requested; lia|]. cbn [or_abort bind].
  destruct Hres as [[-> _]|(-> & _ & Hok & _ & Em & Eg)]; [by left|]. cbn [set_memory m_process _arena_tier].
  destruct (guarded_chunk_spec base __default_guard_arena_metadata p _ n HV Hn) as [->|(r & p1 & -> & HV1 & Hr)]; [by left|]. cbn [bind].
  assert (Hrb : r.2 * 2097152 <= @bk_most _ _ _ meta_laws).
  { destruct (run_bounds base _ _ r HV1 ltac:(set_solver)) as (_ & _ & Hb). change __va_reservation_size with (2 ^ 38) in Hb. cbn. lia. }
  destruct (new_sheet_spec base p1 _ self __default_guard_arena_metadata r HV1 Hrb) as [->|(sh & p2 & -> & Ev & Hsh & _ & Hon')]; [by left|].
  cbn [bind]. rewrite (so_full _ _ Hsh). right. cbn [put_sheet set_process set_memory m_process _arena_tier _arena_memory m_sheets set_tier].
  set (t := blank_tier _ ihead). destruct (blank_ok (B := buddy) (BL := meta_laws) __max_sheets_arena_internal ltac:(done) ihead base (fun _ => ∅)) as (H1 & H2 & H3).
  fold t in H1, H2, H3. pose proof (linked_first t ihead (ptr c) H2 eq_refl ltac:(lia)) as HL.
  destruct (on_run_bounds base _ _ sh r HV1 ltac:(set_solver) Hon') as [Ea Eb].
  destruct (add_entry (B := buddy) (BL := meta_laws) __max_sheets_arena_internal ltac:(done) t _ (∅ : gmap Z (sheet buddy)) _ ihead (ptr c) sh H1 H2 HL ltac:(lia)) as (Hpos & HE & HO' & HN');
    [intros x (i & Hi & _); cbn in Hi; lia|intros i Hi; cbn in Hi; lia|done|lia|intros i Hi; cbn in Hi; lia|done|].
  destruct (register_sheet _ _ _ _ _) as [pos t']. cbn [fst snd] in *. exists (Meta p2 mem' t' {[ptr c := sh]}), (put_grants (fun _ => ∅) (ptr c) ∅), {[ptr c := (len c, Live false)]}, r.
  split; [done|]. pose proof (el_count _ _ _ _ _ _ _ _ HE) as Hc. pose proof (el_pos _ _ _ _ _ _ _ _ HE) as Hp. change (__count t) with 0 in Hc, Hp. split.
  - split; cbn [_arena_tier m_sheets _arena_memory]; try done.
    + by rewrite Em, Eg.
    + pose proof (enlisted_grounded base _ _ _ _ _ _ _ _ _ r H3 HE Hon') as HG. by rewrite take_nil, drop_nil in HG.
    + lia.
    + intros x Hx. apply (enlisted_nodes _ _ _ _ _ _ _ _ x HE) in Hx as [->|(i & Hi & _)]; [by left|cbn in Hi; lia].
    + intros i Hi. right. assert (i = pos) as -> by lia. destruct (el_new _ _ _ _ _ _ _ _ HE) as (_ & _ & ->).
      exists (len c). apply lookup_insert_eq.
  - unfold meta_va. cbn [m_process]. rewrite Ev. apply (va_ok_perm _ _ _ _ HV1). solve_Permutation.
Qed.

(** ** The tiers *)

(** The arena before any of its tiers is started *)
Definition blank_bucket {B C} (t : tier_id) (c : C) : bucket B C := Bucket (no_tier head_of t raw) ∅ c.
Definition blank_arena (e : meta) : arena :=
  let cache := Tcache.TierCache.init in
  Arena e alloc_predictor_init (blank_bucket Precise cache) (blank_bucket Small cache) (blank_bucket Medium cache) (blank_bucket Large cache)
    (blank_bucket Huge Tcache.Zero.init) (Mpsc.init 64) [] zero_stats ∅.

(** The tiers the constructor starts, and what it asks for them *)
Definition wants : bool := __default_eager_hot_tiers || negb __default_lazy_construct.
Definition starts (t : tier_id) : bool :=
  match t with
  | Precise => true
  | Small | Medium => wants
  | Large | Huge => negb __default_lazy_construct && (__default_init_large_pages && negb __is_constrained)
  end.
Definition start_size (t : tier_id) : Z :=
  match t with
  | Precise => u64 (__default_cache_size_factor * __class_precise)
  | t => __saturate_bytes (__prealloc_share (class_of t) (if wants then prealloc_size else 0))
  end.

Fixpoint start (ts : list tier_id) (a : arena) : res arena :=
  match ts with
  | [] => Ok a
  | t :: ts => if starts t then let* a := init_tier self head_of t (start_size t) a in start ts a else start ts a
  end.

Lemma arena_stages p :
  __arena self head_of ihead p =
  let* (mem, p) := first_sheet self p in
  let* e := __init_arena_tier self ihead (blank_meta p mem) (u64 (__default_arena_page_buf * __system_pagesize)) in
  start tiers (blank_arena e).
Proof.
  unfold __arena. destruct (first_sheet self p) as [[mem p']| | |]; try done. cbn [bind a_meta]. change (Meta p' mem _ ∅) with (blank_meta p' mem).
  destruct (__init_arena_tier _ _ _ _) as [e| | |]; try done. cbn [bind start tiers starts]. fold wants.
  change (set_meta _ e) with (blank_arena e). change (start_size Precise) with (u64 (__default_cache_size_factor * __class_precise)).
  destruct (init_tier _ _ Precise _ _) as [a| | |]; try done. cbn [bind]. destruct wants eqn:Ew; cbn [bind].
  - unfold start_size, class_of. rewrite Ew. destruct (init_tier _ _ Small _ a) as [a1| | |]; try done. cbn [bind].
    destruct (init_tier _ _ Medium _ a1) as [a2| | |]; try done. cbn [bind]. destruct (_ && _); [|done].
    destruct (init_tier _ _ Large _ a2) as [a3| | |]; try done. cbn [bind]. by destruct (init_tier _ _ Huge _ a3).
  - destruct (_ && _); [|done]. unfold start_size, class_of. rewrite Ew.
    destruct (init_tier _ _ Large _ a) as [a3| | |]; try done. cbn [bind]. by destruct (init_tier _ _ Huge _ a3).
Qed.

(** Well formed, with nobody holding anything, and the tiers of [S] started *)
Definition warm (S : tier_id -> Prop) (a : arena) : Prop :=
  exists gs, heap_ok head_of ihead base (fun _ => True) a gs /\ (forall p n u, ~ aheld a gs p n u) /\
    (forall t, S t -> node_of a t (head_of t)) /\ (forall t, ~ S t -> rd (links (tier_of a t)) (head_of t + 0) = 0).

Lemma blank_part t e : part_ok head_of base (fun _ => True) (blank_arena e) t (fun _ => ∅) [].
Proof.
  assert (Hsh : sheets_ok (max_of t) (b_tier (bucket_at (blank_arena e) t)) (b_sheets (bucket_at (blank_arena e) t)) (fun _ => ∅) /\
    nodes_ok (b_tier (bucket_at (blank_arena e) t)) /\
    grounded base (b_tier (bucket_at (blank_arena e) t)) (b_sheets (bucket_at (blank_arena e) t)) []).
  { pose proof (blank_ok (max_of t) (max_pos t) (head_of t) base (BL := view_laws t) (fun _ => ∅)) as Hb. by destruct t. }
  destruct Hsh as (H1 & H2 & H3). assert (Hc : __count (b_tier (bucket_at (blank_arena e) t)) = 0) by (by destruct t).
  assert (Hcache : fc_wf (b_cache (bucket_at (blank_arena e) t)) /\ fc_bag (b_cache (bucket_at (blank_arena e) t)) = []) by (by destruct t).
  destruct Hcache as [Hw Hb]. split; try done; try (intros; lia).
  - split; rewrite ?Hb; try done; [apply NoDup_nil_2|by intros x ?%elem_of_nil].
  - right. split_and!; [done|done|]. pose proof (blank_head (max_of t) (head_of t)) as Hh. by destruct t.
Qed.

Lemma blank_warm e gm gM rM RM live :
  meta_at base ihead e gm gM rM RM -> meta_va base e rM RM live -> warm (fun _ => False) (blank_arena e).
Proof using CL.
  intros HA HV. exists (fun _ _ => ∅).
  assert (Hno : forall t x, ~ node_of (blank_arena e) t x) by (intros t x; unfold node_of; intros (i & Hi & _); destruct t; cbn in Hi; lia).
  split_and!; [|by intros p n u (t & _ & i & _ & Hg)|done|].
  - exists gm, (fun _ => []), gM, rM, RM, live. split; [|done].
    split; [intros t; apply blank_part|apply HA|intros t x Hx; by destruct (Hno t x)|intros t t' x Hx; by destruct (Hno t x)|exact HV].
  - intros t _. pose proof (blank_head (max_of t) (head_of t)) as Hh. by destruct t.
Qed.

Lemma warm_init S a t n :
  warm S a -> ~ S t -> admissible t (first_size t n) ->
  init_tier self head_of t n a = Abort \/ exists a', init_tier self head_of t n a = Ok a' /\ warm (fun x => x = t \/ S x) a'.
Proof using MO RS CL.
  intros (gs & Hok & Hno & Hin & Hout) Ht Hn. unfold init_tier.
  destruct (init_keeps self head_of ihead base (fun _ => True) MO a gs t n Hok (Hout t Ht) Hn) as [->|(ok & a' & gs' & -> & Hok' & Hs & Ht' & Hb)]; [by left|right].
  cbn [bind]. exists a'. split; [done|]. exists gs'. split_and!; [done| | |].
  - intros p m u Hp. apply (Hno p m u). by apply Hs.
  - intros x [->|Hx]; [done|]. unfold node_of. rewrite Hb by (intros ->; done). by apply Hin.
  - intros x Hx. rewrite tier_of_at, Hb, <- tier_of_at by (intros ->; auto). apply Hout. auto.
Qed.

(** Nothing is asked for that a sheet cannot have. *)
Record start_ok : Prop := {
  so_buf : 0 < __default_arena_page_buf < 2 ^ 30;
  so_size t : starts t = true -> admissible t (first_size t (start_size t))
}.

Lemma start_warm (SO : start_ok) ts S a :
  warm S a -> NoDup ts -> (forall t, t ∈ ts -> ~ S t) ->
  start ts a = Abort \/ exists a', start ts a = Ok a' /\ warm (fun t => S t \/ (t ∈ ts /\ starts t = true)) a'.
Proof using MO RS CL.
  revert S a. induction ts as [|t ts IH]; intros S a HW Hnd Hout; cbn [start].
  - right. exists a. split; [done|]. destruct HW as (gs & H1 & H2 & H3 & H4). exists gs. split_and!; [done|done| |intros x Hx; apply H4; auto].
    intros x [Hx|[Hx _]]; [by apply H3|by apply elem_of_nil in Hx].
  - apply NoDup_cons in Hnd as [Hni Hnd].
    assert (Hgo : forall S' a', warm S' a' -> (forall x, S' x <-> S x \/ (x = t /\ starts t = true)) ->
      start ts a' = Abort \/ exists a2, start ts a' = Ok a2 /\ warm (fun x => S x \/ (x ∈ t :: ts /\ starts x = true)) a2).
    { intros S' a' HW' HS. destruct (IH S' a' HW' Hnd) as [->|(a2 & -> & gs & H1 & H2 & H3 & H4)]; [|by left|right].
      - intros x Hx [HSx|[-> _]]%HS; [|done]. apply (Hout x); [by right|done].
      - exists a2. split; [done|]. exists gs. split_and!; [done|done|..].
        + intros x [Hx|[[->|Hx]%elem_of_cons Hs]]; apply H3; rewrite ?HS; auto.
        + intros x Hx. apply H4. rewrite HS. intros [[|[-> Hs]]|[Hx' Hs]]; apply Hx; [by left|right; split; [by left|done]|right; split; [by right|done]]. }
    destruct (starts t) eqn:Es; [|apply (Hgo S a HW); intros x; split; [auto|by intros [|[_ ?]]]].
    destruct (warm_init S a t (start_size t) HW) as [->|(a' & -> & HW')]; [apply Hout; by left|by apply so_size|by left|]. cbn [bind].
    apply (Hgo _ a' HW'). intros x. split; [intros [->|]|intros [|[-> _]]]; auto.
Qed.

(** Which tiers may be unused matters for the unused ones only. *)
Lemma heap_ok_fresh (fresh fresh' : tier_id -> Prop) a gs :
  heap_ok head_of ihead base fresh a gs -> (forall t, fresh t -> fresh' t \/ node_of a t (head_of t)) -> heap_ok head_of ihead base fresh' a gs.
Proof.
  intros (gm & runs & gM & rM & RM & X & [Hp Hm Hb Hn Hv] & HA) Hf. exists gm, runs, gM, rM, RM, X. split; [|done]. split; try done.
  intros t. destruct (Hp t) as [H1 H2 H3 H4 H5 H6]. split; try done. destruct H6 as [|(Hfr & Hc & Hl)]; [by left|].
  destruct (Hf t Hfr) as [|]; [right|left]; done.
Qed.

Lemma arena_started p live :
  va_ok base (va_of p) live -> start_ok ->
  __arena self head_of ihead p = Abort \/
  exists a gs, __arena self head_of ihead p = Ok a /\ heap_ok head_of ihead base lazy a gs /\ (forall x n u, ~ aheld a gs x n u) /\
    forall t, starts t = true -> node_of a t (head_of t).
Proof using MO RS CL.
  intros HV SO. rewrite arena_stages. pose proof (so_buf SO) as Hbuf.
  destruct (first_sheet_spec p live HV Hbuf) as [->|(mem & p1 & rM & -> & HV1 & Hmem & Hon)]; [by left|]. cbn [bind].
  destruct (init_arena_tier_spec p1 mem rM live (u64 (__default_arena_page_buf * __system_pagesize)) Hmem Hon HV1) as
    [->|(e & gm & gM & r & -> & HA & HVe)]; [unfold __system_pagesize; rewrite u64_small; lia|by left|]. cbn [bind].
  destruct (start_warm SO tiers _ _ (blank_warm e gm gM rM [r] live HA HVe)) as [->|(a & -> & gs & Hok & Hno & Hin & Hout)];
    [apply (bool_decide_unpack _); by vm_compute|by intros t _ []|by left|right].
  exists a, gs. split_and!; [done| |done|].
  - apply (heap_ok_fresh _ _ _ _ Hok). intros t _. destruct (starts t) eqn:Es.
    + right. apply Hin. right. split; [destruct t; set_solver|done].
    + left. destruct t; try done; cbn in Es |- *; unfold wants in Es; by destruct __default_lazy_construct, __default_eager_hot_tiers.
  - intros t Ht. apply Hin. right. split; [destruct t; set_solver|done].
Qed.

(** A process that has no reservation yet takes one with its first call, and
    everything is as if it had it. *)
Definition reserved (p : process) : process := set_world p (World (Va base 0 ∅ ∅ 0) (w_owners (p_world p))).

Lemma arena_reserves p :
  va_of p = va_init -> a_os (kernel (p_tick p)) = Some base -> base <> 0 ->
  __arena self head_of ihead p = __arena self head_of ihead (reserved p).
Proof.
  intros Hv Ho Hb. rewrite !arena_stages. f_equal. unfold first_sheet. cbv zeta.
  assert (Ek : forall sz, kernel_chunk p sz = kernel_chunk (reserved p) sz).
  { intros sz. unfold kernel_chunk, ask. cbn [p_world p_tick p_guards reserved set_world w_va w_owners]. change (w_va (p_world p)) with (va_of p).
    rewrite Hv. set (a := kernel (p_tick p)) in *. unfold __get_kernel_chunk, __va_carve. cbn [va_base va_init].
    rewrite Ho. unfold __va_reserve_once. cbn [va_base va_init Z.eqb negb]. rewrite (proj2 (Z.eqb_neq base 0)) by done. done. }
  unfold __get_guarded_kernel_chunk. by rewrite !Ek.
Qed.

Lemma reserved_ok p : va_of p = va_init -> 0 < base -> base + __va_reservation_size + 2 ^ 42 < 2 ^ 64 -> va_ok base (va_of (reserved p)) [].
Proof.
  intros Hv H0 H1. split; [|done|done]. split; cbn; try (by intros ? ?%elem_of_nil); [apply NoDup_nil_2|split; [apply Z.divide_0_r|done]|done].
Qed.

(** The process has its reservation, with [live] in use, or will get it. *)
Definition ready (p : process) (live : list run) : Prop :=
  va_ok base (va_of p) live \/
  (live = [] /\ va_of p = va_init /\ a_os (kernel (p_tick p)) = Some base /\ 0 < base /\ base + __va_reservation_size + 2 ^ 42 < 2 ^ 64).

Lemma ready_started p live :
  ready p live -> start_ok ->
  __arena self head_of ihead p = Abort \/
  exists a gs, __arena self head_of ihead p = Ok a /\ heap_ok head_of ihead base lazy a gs /\ (forall x n u, ~ aheld a gs x n u) /\
    forall t, starts t = true -> node_of a t (head_of t).
Proof using MO RS CL.
  intros [HV|(-> & Hv & Ho & H0 & H1)] SO; [by apply arena_started with live|]. rewrite (arena_reserves p Hv Ho ltac:(lia)).
  apply arena_started with []; [by apply reserved_ok|done].
Qed.

(** A process whose reservation is refused, and whose direct mappings are too,
    does not get past the first sheet of the metadata. *)
Lemma chunk_refused p sz :
  va_of p = va_init -> a_os (kernel (p_tick p)) = None -> kernel_chunk p sz = Abort.
Proof using RS.
  intros Hv Ho. unfold kernel_chunk, ask. cbn [p_world]. change (w_va (p_world p)) with (va_of p).
  rewrite Hv, Ho, (no_mapping (p_tick p)). done.
Qed.

Lemma arena_refused p :
  va_of p = va_init -> a_os (kernel (p_tick p)) = None -> __arena self head_of ihead p = Abort.
Proof using RS.
  intros Hv Ho. rewrite arena_stages. unfold first_sheet, __get_guarded_kernel_chunk. cbv zeta.
  rewrite !(chunk_refused p _ Hv Ho). by destruct __default_guard_arena_metadata.
Qed.

(** C4. In a process that holds its reservation, or gets it at its first request
    for memory, the constructor ends the process or returns an arena that is well
    formed, with nothing handed out, whose hot tiers and, unless they are left
    for later, whose large ones have their first sheet.  In a process that asks
    for its reservation and is refused, where no direct mapping is granted
    either, the constructor ends the process: there is no half built arena. *)
Theorem arena_starts p live :
  start_ok ->
  (ready p live ->
   __arena self head_of ihead p = Abort \/
   exists a gs, __arena self head_of ihead p = Ok a /\ heap_ok head_of ihead base lazy a gs /\ (forall x n u, ~ aheld a gs x n u) /\
     (forall t, starts t = true -> is_empty head_of a t = false) /\ zeroed head_of a = false) /\
  (va_of p = va_init -> a_os (kernel (p_tick p)) = None -> __arena self head_of ihead p = Abort).
Proof using MO RS CL.
  intros SO. split; [intros HR|apply arena_refused]. destruct (ready_started p live HR SO) as [->|(a & gs & -> & Hok & Hno & Hst)]; [by left|right].
  assert (He : forall t, starts t = true -> is_empty head_of a t = false).
  { intros t Ht. specialize (Hst t Ht). destruct Hok as (gm & runs & gM & rM & RM & X & Hok & HA).
    destruct (frame_places head_of ihead base _ MO a gs gm runs gM rM RM X t Hok HA) as (_ & F2 & _).
    unfold is_empty, Tier.empty. rewrite tier_of_at. destruct Hst as (i & Hi & Ei). apply Z.eqb_neq. rewrite <- Ei.
    fold (object (b_tier (bucket_at a t)) i). pose proof (ao_part _ _ _ _ _ _ _ _ Hok t) as HP.
    destruct (pa_objects _ _ _ _ _ _ _ HP i Hi) as [->|[_ Ho]].
    - rewrite Ei. destruct (mo_head _ _ _ MO t). unfold sizeof_node. lia.
    - apply F2 in Ho. pose proof (ao_va _ _ _ _ _ _ _ _ Hok) as HV. destruct (run_bounds base _ _ rM HV ltac:(set_solver)) as (B0 & _).
      destruct (va_room _ _ _ HV). lia. }
  exists a, gs. split_and!; [done|done|done|done|]. specialize (He Precise eq_refl). unfold is_empty, Tier.empty, tier_of in He. unfold zeroed, Tier.zeroed.
  by rewrite He.
Qed.
End ArenaStart.
