(* ===== verification/ArenaRun.v ===== *)
(** * A client of the arena

    Every run of requests, frees and growth of one client, whatever tiers they
    go to, from an arena that is well formed. *)

From S2P Require Import Prelude.
From S2P Require Import Intrusive.
From S2P Require Import Config.
From S2P Require Import Book.
From S2P Require Import Sheet.
From S2P Require Import SheetProps.
From S2P Require Import Tier.
From S2P Require Import Harden.
From S2P Require Import Kernel.
From S2P Require Import Meta.
From S2P Require Import Bucket.
From S2P Require Import Arena.
From S2P Require Import ArenaApi.
From S2P Require Import Client.
From S2P Require Import BucketInv.
From S2P Require Import Ground.
From S2P Require Import BucketProps.
From S2P Require Import BucketFree.
From S2P Require Import ArenaInv.
From S2P Require Import MetaGrow.
From S2P Require Import ArenaProps.
From S2P Require Import ArenaGrow.
From S2P Require Import ArenaStart.

#[local] Open Scope Z_scope.

Section ArenaRun.
Context `{CL : ChunkLaws} `{HD : Hardening} `{ST : Settings} `{PL : Platform} `{RS : !Reserved}.
Context (self : Z) (head_of : tier_id -> Z) (ihead base : Z) (MO : members_ok head_of ihead base) (IO : initial_ok).
Context (Hla : __default_launder = false) (Hrz : __default_redzone = false).

Abbreviation heap_ok := (heap_ok head_of ihead base lazy).

(** The arena and the chunks of the client.  Growth is a step of its own: when
    and how much is the caller's choice, within the sizes a sheet may have. *)
Inductive heap_step : arena * list chunk -> arena * list chunk -> Prop :=
  | heap_get a L sz c a' :
      requested sz -> __vmap_alloc a sz = Ok (c, a') -> heap_step (a, L) (a', if chunk_zero c then L else c :: L)
  | heap_grow a L class_sz sz ok a' :
      admissible (route class_sz) sz -> __buf_expand_exact self head_of a class_sz sz = Ok (ok, a') -> heap_step (a, L) (a', L)
  | heap_free a L L' c ok a' :
      L ≡ₚ c :: L' -> __vmap_remove_at head_of a (ptr c) = Ok (ok, a') -> heap_step (a, L) (a', L')
  | heap_free_sized a L L' c ok a' :
      L ≡ₚ c :: L' -> __vmap_remove head_of a c = Ok (ok, a') -> heap_step (a, L) (a', L').

Definition heap_good (s : arena * list chunk) : Prop :=
  exists gs, heap_ok s.1 gs /\ owns (aheld s.1 gs) s.2.

(** Blocks of the arena are apart. *)
Lemma aheld_parted a gs : heap_ok a gs -> parted (aheld a gs).
Proof.
  intros (gm & runs & gM & rM & RM & X & Hok & _) p n u q m v (t & Hp) (t' & Hq) Hne. destruct (decide (t' = t)) as [->|Ht].
  - pose proof (bo_sheets _ _ _ (pa_bucket _ _ _ _ _ _ _ (ao_part _ _ _ _ _ _ _ _ Hok t))) as HO.
    destruct Hp as [_ Hp], Hq as [_ Hq]. by apply (grant_apart _ _ _ _ _ _ _ _ _ _ HO Hp Hq).
  - destruct Hp as [_ Hp]. destruct (grant_run head_of base lazy _ a gs gm runs t p n _ Hok Hp) as (r & Hr & H1 & H2 & _).
    by apply (held_apart head_of base lazy _ a gs gm runs t t' r p n q m v Hok ltac:(congruence) Hr H1 H2).
Qed.

(** Both ways to free a block take it back, and so do both ways to tombstone it. *)
Lemma heap_removes a gs p n k :
  heap_ok a gs -> aheld a gs p n false -> 0 < k ->
  let taken r := exists a' gs', r = Ok (true, a') /\ heap_ok a' gs' /\ forall q m u, aheld a' gs' q m u <-> q <> p /\ aheld a gs q m u in
  (taken (__vmap_remove_at head_of a p) /\ taken (__vmap_remove head_of a (Chunk p k))) /\
  (taken (__vmap_tombstone_at head_of a p) /\ taken (__vmap_tombstone head_of a (Chunk p k))).
Proof using Hrz MO CL.
  intros (gm & runs & gM & rM & RM & X & Hok & HA) Hp Hk taken.
  assert (Hsz : forall t, 0 <= sizeof_of t) by (intros t; destruct (mo_size _ _ _ MO t); lia).
  assert (Ht : forall r, ataken head_of base lazy (rM :: RM ++ X) a gs p r -> taken r).
  { intros r (a' & gs' & gm' & runs' & -> & Hok' & Hpl & Hh). exists a', gs'. split; [done|]. split; [|done].
    exists gm', runs', gM, rM, RM, X. split; [done|].
    apply (meta_at_place base ihead (a_meta a) (a_meta a') gm gm' gM rM RM HA Hpl). apply Hok'. }
  destruct (remove_takes head_of base lazy _ Hrz Hsz a gs gm runs p n k Hok Hp Hk) as [[] []]. by split; split; apply Ht.
Qed.

(** The block leaves the client's: true, and the arena is as good as before. *)
Definition frees (L' : list chunk) (r : res (bool * arena)) : Prop := exists a', r = Ok (true, a') /\ heap_good (a', L').

Lemma heap_frees a L L' c :
  heap_good (a, L) -> L ≡ₚ c :: L' ->
  (frees L' (__vmap_remove_at head_of a (ptr c)) /\ frees L' (__vmap_remove head_of a c)) /\
  (frees L' (__vmap_tombstone_at head_of a (ptr c)) /\ frees L' (__vmap_tombstone head_of a c)).
Proof using Hrz MO CL.
  intros (gs & Hok & Ho) HP. cbn [fst snd] in *.
  destruct (ow_held _ _ Ho c) as (n & Hp & Hl); [rewrite HP; apply elem_of_cons; by left|].
  pose proof (heap_removes a gs (ptr c) n (len c) Hok Hp ltac:(lia)) as [[H1 H2] [H3 H4]].
  replace (Chunk (ptr c) (len c)) with c in * by (by destruct c).
  split; split; [clear H2 H3 H4|clear H1 H3 H4|clear H1 H2 H4|clear H1 H2 H3];
    match goal with H : exists _ _, _ |- _ => destruct H as (a1 & g1 & E & Hok1 & Hh) end;
    exists a1; (split; [done|]); exists g1; (split; [done|]); by apply (owns_taken (aheld a gs) _ L _ c).
Qed.

(** A request is answered, and the arena is as good as before. *)
Lemma heap_serves a L sz :
  heap_good (a, L) -> requested sz ->
  exists c a', __vmap_alloc a sz = Ok (c, a') /\ heap_good (a', if chunk_zero c then L else c :: L) /\
    (chunk_zero c = true \/ sz <= len c).
Proof using Hla CL RS.
  intros (gs & (gm & runs & gM & rM & RM & X & Hok & HA) & Ho) Hreq. cbn [fst snd] in *.
  destruct (alloc_serves head_of base lazy _ Hla a gs gm runs sz Hok Hreq) as (c & a' & gs' & runs' & E & Hok' & Em & Hres).
  assert (Hheap : heap_ok a' gs') by (exists gm, runs', gM, rM, RM, X; split; [done|by rewrite Em]).
  exists c, a'. split; [done|]. destruct Hres as [[-> Hs]|(Hn & Hl & -> & Ha & n & Hln & Hh)].
  - rewrite chunk_zero_null. split; [|by left]. exists gs'. split; [done|]. by apply (owns_same (aheld a gs)).
  - split; [|by right]. exists gs'. split; [done|]. by apply (owns_served (aheld a gs) _ _ _ n).
Qed.

(** Growing changes nothing for the client. *)
Lemma heap_grows a L class_sz sz :
  heap_good (a, L) -> admissible (route class_sz) sz ->
  __buf_expand_exact self head_of a class_sz sz = Abort \/
  exists ok a', __buf_expand_exact self head_of a class_sz sz = Ok (ok, a') /\ heap_good (a', L).
Proof using MO IO CL RS.
  intros (gs & Hok & Ho) Hsz. destruct (buf_expand_keeps self head_of ihead base lazy MO IO (fun _ H => H) a gs class_sz sz Hok Hsz) as [->|(ok & a' & gs' & -> & Hok' & Hs & _)];
    [by left|right]. exists ok, a'. split; [done|]. exists gs'. split; [done|]. by apply (owns_same (aheld a gs)).
Qed.

Lemma heap_step_good s s' : heap_good s -> heap_step s s' -> heap_good s'.
Proof using Hla Hrz MO IO CL RS.
  intros Hg Hs. destruct Hs as [a L sz c a' Hreq E|a L cs sz ok a' Hsz E|a L L' c ok a' HP E|a L L' c ok a' HP E].
  - destruct (heap_serves a L sz Hg Hreq) as (c1 & a1 & E1 & Hg1 & _). rewrite E in E1. by injection E1 as <- <-.
  - destruct (heap_grows a L cs sz Hg Hsz) as [E1|(ok1 & a1 & E1 & Hg1)]; rewrite E in E1; [done|]. by injection E1 as <- <-.
  - destruct (heap_frees a L L' c Hg HP) as [[(a1 & E1 & Hg1) _] _]. rewrite E in E1. by injection E1 as _ <-.
  - destruct (heap_frees a L L' c Hg HP) as [[_ (a1 & E1 & Hg1)] _]. rewrite E in E1. by injection E1 as _ <-.
Qed.

(** C2. In every run of a client that starts with the arena a constructor returned,
    whatever tiers serve it and however they grow: the client's chunks never
    overlap, those of different tiers included; the tiers are searched to
    the one sheet around a chunk; every further request is answered, with null
    or with enough; every chunk can be freed, with its size or without, and the
    answer is true; every growth gives an answer or ends the process. *)
Theorem arena_run_safe p live a0 a L :
  ready base p live -> start_ok -> __arena self head_of ihead p = Ok a0 -> rtc heap_step (a0, []) (a, L) ->
  (forall i j c d, L !! i = Some c -> L !! j = Some d -> i <> j -> apart (ptr c) (len c) (ptr d) (len d)) /\
  (forall c, c ∈ L ->
     (exists t i, find_tier a (ptr c) = Ok (Some (t, i)) /\ around (tier_of a t) i (ptr c) /\
        ptr c + len c <= hi (entry (__idx (tier_of a t)) i)) /\
     (exists a', __vmap_remove_at head_of a (ptr c) = Ok (true, a')) /\
     (exists a', __vmap_remove head_of a c = Ok (true, a'))) /\
  (forall sz, requested sz -> exists c a', __vmap_alloc a sz = Ok (c, a') /\ (chunk_zero c = true \/ sz <= len c)) /\
  (forall class_sz sz, admissible (route class_sz) sz ->
     __buf_expand_exact self head_of a class_sz sz = Abort \/ exists ok a', __buf_expand_exact self head_of a class_sz sz = Ok (ok, a')).
Proof using Hla Hrz MO IO CL RS.
  intros HR SO E0 Hrun. destruct (ready_started self head_of ihead base MO p live HR SO) as [E|(a1 & gs0 & E & Hok0 & _)]; rewrite E0 in E; [done|].
  injection E as <-.
  assert (Hg : heap_good (a, L)).
  { revert Hrun. apply (rtc_ind_r heap_good); [|intros s s' _ Hs Hg; by eapply heap_step_good].
    exists gs0. split; [done|]. apply owns_nil. }
  split_and!.
  - destruct Hg as (gs & Hok & Ho). intros i j c d. apply owned_apart with (aheld a gs); [by apply aheld_parted|done].
  - intros c Hc. apply elem_of_Permutation in Hc as Hp. destruct Hp as (L' & HP).
    destruct (heap_frees a L L' c Hg HP) as [[(a1 & E1 & _) (a2 & E2 & _)] _].
    split_and!; [|by exists a1|by exists a2]. destruct Hg as (gs & (gm & runs & gM & rM & RM & X & Hok & HA) & Ho). cbn [fst snd] in *.
    destruct (ow_held _ _ Ho c Hc) as (n & (t & Hcn & Hgr) & Hl).
    destruct (find_tier_at head_of base lazy _ a gs gm runs t _ n _ Hok Hgr) as (i & Ef & Har). exists t, i. rewrite tier_of_at.
    split_and!; [done|done|]. destruct Har as [Hi Hx].
    pose proof (bo_sheets _ _ _ (pa_bucket _ _ _ _ _ _ _ (ao_part _ _ _ _ _ _ _ _ Hok t))) as HO.
    destruct (grant_range _ _ _ _ _ _ _ _ HO Hi (grant_here _ _ _ _ i _ n _ HO Hi Hx Hgr)) as (_ & Hend & _). lia.
  - intros sz Hreq. destruct (heap_serves a L sz Hg Hreq) as (c & a' & E & _ & Hn). by exists c, a'.
  - intros cs sz Hsz. destruct (heap_grows a L cs sz Hg Hsz) as [->|(ok & a' & -> & _)]; [by left|right; by exists ok, a'].
Qed.
End ArenaRun.
