(* ===== verification/ArenaPublic.v ===== *)
(** * The public members at work

    [push] and the overloads of [pop] and [ts_pop] over the arena's invariant:
    the predictor decides how much a tier grows, the options of hardening write
    to blocks, and what is asked about a block in hand is answered from its
    sheet. *)

From S2P Require Import Prelude.
From S2P Require Import Intrusive.
From S2P Require Import Config.
From S2P Require Import VaReserve.
From S2P Require Import Book.
From S2P Require Import Sheet.
From S2P Require Import SheetProps.
From S2P Require Import Tier.
From S2P Require Import Predict.
From S2P Require Import Harden.
From S2P Require Import Stats.
From S2P Require Import Kernel.
From S2P Require Import Meta.
From S2P Require Import Bucket.
From S2P Require Import Arena.
From S2P Require Import ArenaApi.
From S2P Require Import Client.
From S2P Require Import BucketInv.
From S2P Require Import Ground.
From S2P Require Import BucketProps.
From S2P Require Import BucketFree.
From S2P Require Import MetaGrow.
From S2P Require Import ArenaInv.
From S2P Require Import ArenaProps.
From S2P Require Import ArenaGrow.
From S2P Require Import ArenaStart.
From S2P Require Import ArenaRun.

#[local] Open Scope Z_scope.

(** ** The predictor *)

(** The ring's sum and count are those of its entries, which are bounded. *)
Definition mild (b : Z) (p : alloc_predictor) : Prop := sums_ok p /\ forall x, x ∈ allocs p -> x <= b.

Lemma mild_init b : 0 <= b -> mild b alloc_predictor_init.
Proof. intros Hb. split; [apply init_ok|]. by intros x [-> _]%elem_of_replicate. Qed.

Lemma mild_add b p n : mild b p -> 0 <= n <= b -> b < 2 ^ 58 -> mild b (add_request p n).
Proof.
  intros [Hs Hb] Hn Hb58. split; [apply add_request_ok; [done|lia]|]. intros x (j & Hj)%list_elem_of_lookup. cbn [add_request allocs] in Hj.
  destruct (decide (Z.to_nat (index p) = j)) as [<-|Hne].
  - apply list_lookup_insert_Some in Hj as [(_ & -> & _)|[]]; [lia|done].
  - rewrite list_lookup_insert_ne in Hj by done. apply Hb. by eapply list_elem_of_lookup_2.
Qed.

(** A prediction is at most a page above the request or the entries, and above
    the request only within its class. *)
Lemma mild_predicts b p n :
  mild b p -> 0 < n <= b -> b < 2 ^ 58 ->
  n <= predict_size p n < b + 4096 /\ (n < __class_gb -> predict_size p n < __class_gb + 4096).
Proof.
  intros [[Hl Hi Hr Hs Hd] Hb] Hn Hb58. pose proof (count_bounds (allocs p)) as Hc. rewrite Hl in Hc.
  pose proof (total_le (allocs p) b ltac:(lia)) as Ht. ospecialize (Ht _).
  { intros x Hx. specialize (Hr x Hx). specialize (Hb x Hx). lia. }
  rewrite u64_small in Hs by nia. pose proof (align_to_page_bounds n ltac:(lia) ltac:(lia)) as [Han _].
  unfold predict_size. rewrite Hs, Hd. destruct (Z.eqb_spec (count_of (allocs p)) 0); [lia|].
  set (mean := total_of (allocs p) / count_of (allocs p)).
  assert (Hm : 0 <= mean <= b) by (subst mean; split; [apply Z.div_pos; lia|apply Z.div_le_upper_bound; lia]).
  destruct ((mean =? 0) || (u64 (mean * 3) <? n) || negb (of_class n =? of_class mean)) eqn:E; [lia|].
  apply orb_false_iff in E as [_ E]. apply negb_false_iff, Z.eqb_eq in E. destruct (Z.ltb_spec n mean); [|lia].
  pose proof (align_to_page_bounds mean ltac:(lia) ltac:(lia)) as [Ham _]. split; [lia|]. intros Hgb.
  assert (Hmg : mean < __class_gb); [|lia].
  destruct (Z.lt_ge_cases mean __class_gb) as [|Hge]; [done|exfalso]. revert E. unfold of_class.
  change __class_gb with 536870912 in *. change __class_precise with 256. change __class_small with 512. change __class_medium with 4096.
  change __class_large with 32768. change __class_1mb with 1048576. repeat case_g.
Qed.

Section ArenaPublic.
Context `{CL : ChunkLaws} `{HD : Hardening} `{ST : Settings} `{PL : Platform} `{RS : !Reserved}.
Context (self : Z) (head_of : tier_id -> Z) (ihead base : Z).

Abbreviation heap_ok := (heap_ok head_of ihead base lazy).

(** ** What the tiers do not see *)

(** The buckets are the same, and the process but for the reservation *)
Record same_heap (a a' : arena) : Prop := {
  sm_bucket t : bucket_at a' t = bucket_at a t;
  sm_meta : exists p, a_meta a' = set_process (a_meta a) p /\ va_of p = va_of (m_process (a_meta a))
}.

Lemma same_heap_meta a a' : (forall t, bucket_at a' t = bucket_at a t) -> a_meta a' = a_meta a -> same_heap a a'.
Proof. intros Hb Hm. split; [done|]. exists (m_process (a_meta a)). split; [|done]. rewrite Hm. by destruct (a_meta a). Qed.

Lemma same_heap_trans a a1 a2 : same_heap a a1 -> same_heap a1 a2 -> same_heap a a2.
Proof.
  intros [H1 (p1 & E1 & V1)] [H2 (p2 & E2 & V2)]. split; [intros t; by rewrite H2|]. exists p2. rewrite E2, V2, E1. by cbn.
Qed.

Lemma same_heap_ok a a' gs : heap_ok a gs -> same_heap a a' -> heap_ok a' gs /\ same_aheld a gs a' gs.
Proof.
  intros (gm & runs & gM & rM & RM & X & [Hp Hm Hb Hn Hv] & HA) [Hbk (p & Em & Ev)]. split.
  - exists gm, runs, gM, rM, RM, X. rewrite Em. split.
    + split; rewrite ?Em; cbn [set_process m_process]; rewrite ?Ev; try done.
      * intros t. destruct (Hp t) as [H1 H2 H3 H4 H5 H6]. split; rewrite ?(Hbk t), ?Em; done.
      * intros t n. unfold node_of. rewrite (Hbk t). apply Hb.
      * intros t t' n. unfold node_of. rewrite !Hbk. apply Hn.
    + destruct HA as [H1 H2 H3 H4 H5 H6 H7 H8]. by split.
  - intros x n u. unfold aheld. by setoid_rewrite Hbk.
Qed.

Lemma set_user_bytes_same a m : same_heap a (set_user_bytes a m).
Proof. apply same_heap_meta; [by intros []|done]. Qed.

Lemma count_same S n a : same_heap a (count S n a) /\ a_bytes (count S n a) = a_bytes a /\ __predict (count S n a) = __predict a.
Proof. unfold count. case_match; (split; [apply same_heap_meta; [by intros []|done]|done]). Qed.

Lemma check_oom_same a : let '(_, a') := check_oom a in same_heap a a' /\ a_bytes a' = a_bytes a /\ __predict a' = __predict a.
Proof.
  unfold check_oom. destruct __default_oom_enable; [|split; [by apply same_heap_meta|done]]. cbn [ask]. split; [|done].
  split; [by intros []|]. by eexists.
Qed.

(** Functions on a tier leave bytes and predictor alone. *)
Definition keeps_rest {X} (a : arena) (r : res (X * arena)) : Prop :=
  forall x a', r = Ok (x, a') -> a_bytes a' = a_bytes a /\ __predict a' = __predict a.

Lemma on_tier_rest {X} t (fn : tier_fn X) a : keeps_rest a (on_tier t fn a).
Proof.
  intros x a'. rewrite on_tier_at. destruct (fn _ _ _ _ _ _ _) as [[[x0 b] e]| | |]; try done. cbn [bind]. intros [= <- <-]. by destruct t.
Qed.

Lemma dispatch_rest {X} a addr (none : X) fn : keeps_rest a (dispatch a addr none fn).
Proof.
  unfold dispatch. destruct (find_tier a addr) as [[[t i]|]| | |]; try done; cbn [bind]; [apply on_tier_rest|by intros x a' [= <- <-]].
Qed.

Lemma alloc_rest a sz : keeps_rest a (__vmap_alloc a sz).
Proof. rewrite vmap_alloc_route. apply on_tier_rest. Qed.

Lemma grow_rest a class_sz sz : keeps_rest a (__buf_expand_exact self head_of a class_sz sz).
Proof. unfold __buf_expand_exact. repeat case_match; apply on_tier_rest. Qed.

(** ** Questions about a block in hand *)

Context (MO : members_ok head_of ihead base) (Hrz : __default_redzone = false).

Lemma held_query {X} a gs p n u (none x : X) (fn : forall B, Book B -> tier_id -> sheet B -> res X) :
  heap_ok a gs -> aheld a gs p n u ->
  (forall t sh, is_block_allocated sh p = true -> find sh p = Some true -> block_size_of sh p = n + __hdr_offset -> fn _ (view_book t) t sh = Ok x) ->
  query a p none fn = Ok x.
Proof using CL.
  intros (gm & runs & gM & rM & RM & X0 & Hok & HA) (t & Hc & Hg) Hfn.
  destruct (find_tier_at head_of base lazy _ a gs gm runs t p n _ Hok Hg) as (i & Ef & Hi & Hp).
  unfold query, dispatch. rewrite Ef. cbn [bind]. rewrite on_tier_at.
  pose proof (focus head_of base lazy _ a gs gm runs t Hok) as HF. destruct (sheet_at _ _ _ _ _ _ _ i HF Hi) as (sh & Es & _ & Hs).
  pose proof (bo_sheets _ _ _ (to_bucket _ _ _ _ _ _ _ HF)) as HO. pose proof (grant_here _ _ _ _ i p n _ HO Hi Hp Hg) as HL.
  destruct (sheet_grant sh _ p n _ Hs HL) as (_ & _ & _ & _ & Efi & Ea & _ & Eb).
  cbv beta. rewrite Es. cbn [bind]. rewrite (Hfn t sh); [done| | |done]; by rewrite ?Ea, ?Efi, bool_decide_true.
Qed.

(** The size the arena tells is the size of the block; the block is valid, and
    present. *)
Lemma held_answers a gs p n u :
  heap_ok a gs -> aheld a gs p n u -> 0 < p ->
  __size_of_alloc a p = Ok n /\ is_valid_block a p = Ok true /\ __is_cached a p = Ok false /\ present a p = Ok true.
Proof using Hrz CL.
  intros Hok Hp Hp0. assert (Hn : 0 < n).
  { destruct Hok as (gm & runs & gM & rM & RM & X0 & Hok & HA), Hp as (t & _ & Hg). by destruct (grant_run head_of base lazy _ a gs gm runs t p n _ Hok Hg) as (_ & _ & _ & _ & ?). }
  assert (Hsh : forall t, shifted t p = p) by (intros t; unfold shifted; by rewrite Hrz).
  assert (Hca : __is_cached a p = Ok false).
  { destruct Hok as (gm & runs & gM & rM & RM & X0 & Hok & HA), Hp as (t & Hc & Hg).
    destruct (find_tier_at head_of base lazy _ a gs gm runs t p n _ Hok Hg) as (i & Ef & _).
    unfold __is_cached, dispatch. rewrite Ef. cbn [bind]. rewrite on_tier_at. cbn [bind]. f_equal.
    pose proof (bo_cache _ _ _ (pa_bucket _ _ _ _ _ _ _ (ao_part _ _ _ _ _ _ _ _ Hok t))) as Hw.
    apply not_true_is_false. rewrite (fc_contained _ p Hw). exact Hc. }
  assert (Hv : __vmap_valid_block a p = Ok true).
  { apply (held_query a gs p n u); [done|done|]. intros t sh Ha _ _. by rewrite Hsh, Ha. }
  assert (Hl : __vmap_locate_at a p = Ok true).
  { apply (held_query a gs p n u); [done|done|]. intros t sh _ Hf _. by rewrite Hsh, Hf. }
  split_and!; [|by unfold is_valid_block; rewrite (proj2 (Z.eqb_neq p 0)) by lia|done|].
  - apply (held_query a gs p n u); [done|done|]. intros t sh _ _ Hb. rewrite Hsh, Hb, Hrz. cbn [andb]. rewrite (proj2 (Z.ltb_lt _ _)) by lia. f_equal. lia.
  - unfold present. rewrite (proj2 (Z.eqb_neq p 0)) by lia. cbn [negb]. rewrite Hl. cbn [bind]. by rewrite Hca.
Qed.

(** Where blocks in hand are *)
Lemma held_bounds a gs p n u : heap_ok a gs -> aheld a gs p n u -> 0 < p /\ 0 < n /\ p + n < usize_max.
Proof using CL.
  intros (gm & runs & gM & rM & RM & X0 & Hok & HA) (t & _ & Hg).
  destruct (grant_run head_of base lazy _ a gs gm runs t p n _ Hok Hg) as (r & Hr & H1 & H2 & H3). pose proof (ao_va _ _ _ _ _ _ _ _ Hok) as HV.
  destruct (run_bounds base _ _ r HV) as (B0 & B1 & B2); [rewrite (all_runs_perm runs t), !elem_of_app; by left; left|].
  destruct (va_room _ _ _ HV). unfold usize_max. lia.
Qed.

(** What the arena tells about a chunk of a client *)
Lemma owned_known a gs L c :
  heap_ok a gs -> owns (aheld a gs) L -> c ∈ L ->
  (exists n, __size_of_alloc a (ptr c) = Ok n /\ len c <= n) /\ is_valid_block a (ptr c) = Ok true /\ present a (ptr c) = Ok true.
Proof using Hrz CL.
  intros Hok Ho Hc. destruct (ow_held _ _ Ho c Hc) as (n & Hn & Hl). destruct (held_bounds a gs _ n false Hok Hn) as (B0 & _).
  destruct (held_answers a gs _ n false Hok Hn B0) as (E1 & E2 & _ & E4). split; [exists n; split; [done|lia]|done].
Qed.

(** What the statistics count for a block in hand *)
Lemma stats_answers a gs p n u k : heap_ok a gs -> aheld a gs p n u -> exists m, __stats_release_size a p k = Ok m.
Proof using Hrz CL.
  intros Hok Hp. unfold __stats_release_size. destruct __default_collect_stats; [|by eexists].
  destruct (held_bounds a gs p n u Hok Hp) as [B0 _]. destruct (held_answers a gs p n u Hok Hp B0) as [-> _]. by eexists.
Qed.

(** Bytes outside a block stay as they are. *)
Definition same_bytes_but (c : chunk) (a a' : arena) : Prop :=
  forall x, (x < ptr c \/ ptr c + len c <= x) -> rd (a_bytes a') x = rd (a_bytes a) x.

Lemma memset_outside m p byte n x : (x < p \/ p + n <= x) -> rd (memset m p byte n) x = rd m x.
Proof. intros Hx. unfold memset. rewrite rd_fill. repeat case_b; lia || done. Qed.

(** What the arena asks of a block before it takes it back *)
Lemma admits HasSize a gs p n k :
  __default_check_alignment = false -> heap_ok a gs -> aheld a gs p n false -> (HasSize = true -> 0 < k <= n) ->
  __free_admit HasSize a p k = Ok None.
Proof using Hrz CL.
  intros Hal Hok Hp Hk. destruct (held_bounds a gs p n false Hok Hp) as (H0 & Hn & H1). unfold __free_admit.
  assert (Hpv : check_ptr_valid p = true) by (unfold check_ptr_valid; rewrite (proj2 (Z.eqb_neq p 0)), (proj2 (Z.eqb_neq p usize_max)) by lia; done).
  assert (Hv : (if HasSize then check_chunk_valid p k else check_ptr_valid p) = true).
  { destruct HasSize; [|done]. specialize (Hk eq_refl). unfold usize_max in H1. apply check_chunk_valid_spec; unfold usize_max; lia. }
  rewrite Hv. unfold check_alignment. rewrite Hal. cbn [negb]. destruct __default_enforce_provenance; [|done].
  destruct (held_answers a gs p n false Hok Hp H0) as (_ & -> & _). done.
Qed.

(** Scrubbing writes to the block only. *)
Lemma scrubs a gs p n k :
  heap_ok a gs -> aheld a gs p n false -> exists a', __free_scrub a p k = Ok a' /\ same_heap a a' /\ same_bytes_but (Chunk p n) a a' /\ __predict a' = __predict a.
Proof using Hrz CL.
  intros Hok Hp. destruct (held_bounds a gs p n false Hok Hp) as (H0 & Hn & H1). destruct (held_answers a gs p n false Hok Hp H0) as (E1 & _ & E2 & _).
  unfold __free_scrub. destruct (_ || _); [|exists a; split; [done|]; split; [by apply same_heap_meta|by split]].
  rewrite E1. cbn [bind]. rewrite (proj2 (Z.eqb_neq n 0)) by lia. unfold __block_ptr_of. rewrite Hrz. cbn [bind]. rewrite E2. cbn [bind].
  eexists. split; [done|]. split; [apply set_user_bytes_same|]. split; [|done]. intros x Hx. cbn [ptr len] in Hx. cbn [set_user_bytes a_bytes].
  set (m := if (k =? 0) || (n <? k) then n else k). assert (Hm : x < p \/ p + m <= x) by (subst m; destruct (k =? 0); cbn [orb]; [lia|case_g; lia]).
  unfold zero_on_free, full_on_free, poison_on_free. repeat case_match; by rewrite ?memset_outside.
Qed.

(** ** Serving *)

Context (IO : initial_ok) (Hla : __default_launder = false).

Abbreviation heap_good := (heap_good head_of ihead base).

Lemma heap_good_same a a' L : heap_good (a, L) -> same_heap a a' -> heap_good (a', L).
Proof.
  intros (gs & Hok & Ho) Hs. destruct (same_heap_ok a a' gs Hok Hs) as [Hok' Hh]. exists gs. split; [done|]. by apply (owns_same (aheld a gs)).
Qed.

(** Well formed, for the client with [L], with a predictor that was asked for
    sizes below [2^48] *)
Definition serves_well (a : arena) (L : list chunk) : Prop := heap_good (a, L) /\ mild (2 ^ 48) (__predict a).

(** What a tier grows by for a request of [sz] bytes, by the platform's curves,
    is a size a sheet may have. *)
Definition growable (sz : Z) : Prop :=
  match route sz with
  | Precise => admissible Precise (__calculate_space_cache __default_cache_step)
  | Small => 0 < u64 (__calculate_space_small sz * __default_overcommit) < __class_gb
  | Medium => 0 < u64 (__calculate_space_medium sz * __default_overcommit) < __class_gb
  | Large => 0 < u64 (__calculate_space_large sz * __default_overcommit) < __class_gb
  | Huge =>
      if sz <? __class_gb then forall a, 0 <= __count (b_tier (_huge a)) <= __max_sheets_huge -> 0 < huge_size a sz <= 2 ^ 48
      else admissible Huge (bulk_size sz)
  end.

Definition grows_well (L : list chunk) (a : arena) (r : res (bool * arena)) : Prop :=
  r = Abort \/ exists ok a', r = Ok (ok, a') /\ serves_well a' L /\ a_bytes a' = a_bytes a.

Lemma grow_well a L class_sz sz : serves_well a L -> admissible (route class_sz) sz -> grows_well L a (__buf_expand_exact self head_of a class_sz sz).
Proof using MO IO CL RS.
  intros [Hg Hp] Hsz. destruct (heap_grows self head_of ihead base MO IO a L class_sz sz Hg Hsz) as [->|(ok & a' & E & Hg')]; [by left|right].
  destruct (grow_rest a class_sz sz ok a' E) as [Eb Ep]. exists ok, a'. split; [done|]. split; [split; [done|by rewrite Ep]|done].
Qed.

Lemma predicted_well a L sz next :
  serves_well a L -> 0 < next <= 2 ^ 48 -> (route sz <> Huge -> next < __class_gb) ->
  let p := add_request (__predict a) next in
  grows_well L a (__buf_expand_exact self head_of (set_predict a p) sz (predict_size p next)).
Proof using MO IO CL RS.
  intros [Hg Hp] Hn Hc p. assert (Hp' : mild (2 ^ 48) p) by (by apply mild_add; [|lia|]).
  destruct (mild_predicts (2 ^ 48) p next Hp' Hn ltac:(done)) as [H1 H2].
  assert (Hw : serves_well (set_predict a p) L).
  { split; [|done]. apply (heap_good_same a); [done|]. apply same_heap_meta; [by intros []|done]. }
  destruct (grow_well (set_predict a p) L sz (predict_size p next) Hw) as [->|(ok & a' & -> & H3 & H4)]; [|by left|right; by exists ok, a'].
  split; [lia|]. intros Hne%Hc. specialize (H2 Hne). change __class_gb with (2 ^ 29) in H2. lia.
Qed.

Lemma push_expand_well a L sz : serves_well a L -> growable sz -> grows_well L a (push_expand self head_of a sz).
Proof using MO IO CL RS.
  intros Hw Hgr. pose proof Hw as [(gs & (gm & runs & gM & rM & RM & X & Hok & HA) & _) _]. cbn [fst] in Hok.
  assert (Hc : 0 <= __count (b_tier (_huge a)) <= __max_sheets_huge).
  { exact (i_count _ _ (ok_tier _ _ _ _ (bo_sheets _ _ _ (pa_bucket _ _ _ _ _ _ _ (ao_part _ _ _ _ _ _ _ _ Hok Huge))))). }
  assert (Hgb : forall next, 0 < next < __class_gb -> 0 < next <= 2 ^ 48) by (intros next; change __class_gb with (2 ^ 29); lia).
  unfold push_expand. cbv zeta. unfold growable in Hgr.
  assert (Er : route sz = if sz <=? __class_small then Precise else if sz <? __class_medium then Small else if sz <=? __class_large then Medium
    else if sz <=? __class_huge then Large else Huge) by done.
  destruct (sz <=? __class_small). { rewrite Er in Hgr. apply (grow_well a L sz); [done|by rewrite Er]. }
  destruct (sz <? __class_medium). { rewrite Er in Hgr. apply predicted_well; [done|auto|lia]. }
  destruct (sz <=? __class_large). { rewrite Er in Hgr. apply predicted_well; [done|auto|lia]. }
  destruct (sz <=? __class_huge). { rewrite Er in Hgr. apply predicted_well; [done|auto|lia]. }
  rewrite Er in Hgr. destruct (sz <? __class_gb); [apply predicted_well; [done|by apply Hgr|by rewrite Er]|apply (grow_well a L sz); [done|by rewrite Er]].
Qed.

(** An answer of [push]: the failed chunk, or a chunk that is the client's now.
    Bytes outside the chunk are as before. *)
Definition answers (a : arena) (L : list chunk) (sz : Z) (r : res (chunk * arena)) : Prop :=
  exists c a', r = Ok (c, a') /\
    ((c = failed_chunk /\ serves_well a' L /\ a_bytes a' = a_bytes a) \/
     (serves_well a' (c :: L) /\ sz <= len c /\ same_bytes_but c a a')).

(** The last steps for a chunk that was found: the options of hardening write
    to it, and the statistics count it. *)
Lemma hand_over a L c :
  serves_well a (c :: L) ->
  exists a', (let a := set_user_bytes a (sanitize_on_alloc (zero_on_alloc (a_bytes a) (ptr c) (len c)) (ptr c) (len c)) in
              let* size := __stats_release_size a (ptr c) (len c) in
              Ok (c, count st_total_memory_throughput size a)) = Ok (c, a') /\
    serves_well a' (c :: L) /\ same_bytes_but c a a'.
Proof using MO Hrz CL.
  intros [Hg Hp]. pose proof Hg as (gs & Hok & Ho). cbn [fst snd] in *. destruct (ow_held _ _ Ho c) as (m & Hm & Hml); [by left|].
  set (m' := sanitize_on_alloc _ _ _). pose proof (set_user_bytes_same a m') as Hs1. destruct (same_heap_ok a _ gs Hok Hs1) as [Hok1 Hh1].
  destruct (held_bounds a gs (ptr c) m false Hok Hm) as (B0 & B1 & B2). cbv zeta.
  destruct (stats_answers _ gs (ptr c) m false (len c) Hok1 (proj2 (Hh1 _ _ _) Hm)) as (k & ->). cbn [bind]. destruct (count_same st_total_memory_throughput k (set_user_bytes a m')) as (Hs2 & Eb2 & Ep2).
  eexists. split; [done|]. split.
  - split; [|by rewrite Ep2]. apply (heap_good_same a); [done|by eapply same_heap_trans].
  - intros x Hx. rewrite Eb2. cbn [set_user_bytes a_bytes]. subst m'. unfold sanitize_on_alloc, zero_on_alloc. repeat case_match; by rewrite ?memset_outside.
Qed.

Lemma serve_loop_well n sz : forall a L,
  serves_well a L -> requested sz -> growable sz ->
  let r := serve_loop __vmap_alloc (push_expand self head_of) n a sz sz in r = Abort \/ answers a L sz r.
Proof using MO IO Hrz Hla CL RS.
  assert (Hrza : __rz_active sz = false) by (unfold __rz_active; by rewrite Hrz).
  assert (Hget : forall a L, serves_well a L -> requested sz -> exists c a1, __vmap_alloc a sz = Ok (c, a1) /\
    serves_well a1 (if chunk_zero c then L else c :: L) /\ (chunk_zero c = true \/ sz <= len c) /\ a_bytes a1 = a_bytes a).
  { intros a L [Hg Hp] Hreq. destruct (heap_serves head_of ihead base Hla a L sz Hg Hreq) as (c & a1 & E & Hg1 & Hlen).
    destruct (alloc_rest a sz c a1 E) as [Eb Ep]. exists c, a1. split; [done|]. split; [split; [done|by rewrite Ep]|done]. }
  assert (Hgiven : forall a a1 L c, serves_well a1 (c :: L) -> sz <= len c -> a_bytes a1 = a_bytes a -> forall r,
    r = (let a := set_user_bytes a1 (sanitize_on_alloc (zero_on_alloc (a_bytes a1) (ptr c) (len c)) (ptr c) (len c)) in
         let* size := __stats_release_size a (ptr c) (len c) in Ok (c, count st_total_memory_throughput size a)) -> answers a L sz r).
  { intros a a1 L c Hw Hl Eb r ->. destruct (hand_over a1 L c Hw) as (a' & -> & Hw' & Hs). exists c, a'. split; [done|right].
    split; [done|]. split; [done|]. unfold same_bytes_but in *. by rewrite Eb in Hs. }
  induction n as [|n IH]; intros a L Hw Hreq Hgr; cbn [serve_loop];
    destruct (Hget a L Hw Hreq) as (c & a1 & -> & Hw1 & Hlen & Eb); cbn [bind]; rewrite Hrza;
    destruct (chunk_zero c) eqn:Ez; cbn [negb]; try (right; destruct Hlen as [|Hlen]; [done|by apply (Hgiven a a1 L c)]).
  - right. exists failed_chunk, a1. split; [done|by left].
  - destruct (push_expand_well a1 L sz Hw1 Hgr) as [->|(ok & a2 & -> & Hw2 & Eb2)]; [by left|]. cbn [bind]. destruct ok.
    + destruct (IH a2 L Hw2 Hreq Hgr) as [->|(c2 & a3 & -> & Hres)]; [by left|right]. exists c2, a3. split; [done|].
      unfold same_bytes_but in *. rewrite Eb2, Eb in Hres. exact Hres.
    + right. exists failed_chunk, a2. split; [done|left]. split; [done|]. split; [done|congruence].
Qed.

Lemma push_well a L sz :
  serves_well a L -> requested sz -> growable sz -> push self head_of a sz = Abort \/ answers a L sz (push self head_of a sz).
Proof using MO IO Hrz Hla CL RS.
  intros [Hg Hp] Hreq Hgr. unfold push, serve. cbv zeta.
  destruct (count_same st_alloc 0 a) as (H1 & Eb1 & Ep1). set (a1 := count st_alloc 0 a) in *.
  destruct (count_same st_total_memory_req sz a1) as (H2 & Eb2 & Ep2). set (a2 := count st_total_memory_req sz a1) in *.
  destruct (check_constraint sz); [by left|]. pose proof (check_oom_same a2) as Hoom. destruct (check_oom a2) as [[] a3]; [by left|].
  destruct Hoom as (H3 & Eb3 & Ep3). assert (Er : __rz_inflate sz = sz) by (unfold __rz_inflate; by rewrite Hrz). rewrite Er.
  assert (Hw : serves_well a3 L).
  { split; [|by rewrite Ep3, Ep2, Ep1]. apply (heap_good_same a); [done|]. by apply (same_heap_trans a a1), (same_heap_trans a1 a2). }
  destruct (serve_loop_well (Z.to_nat __default_max_retries) sz a3 L Hw Hreq Hgr) as [E|(c & a' & E & Hres)]; [by left|right].
  exists c, a'. split; [done|]. unfold same_bytes_but in *. rewrite Eb3, Eb2, Eb1 in Hres. exact Hres.
Qed.

(** ** Taking back *)

Context (Hal : __default_check_alignment = false).

(** The chunk [c] is taken back: true, and the bytes of the others stay. *)
Definition returns (a : arena) (L' : list chunk) (r : res (bool * arena)) : Prop :=
  exists a', r = Ok (true, a') /\ serves_well a' L' /\ forall d, d ∈ L' -> forall x, ptr d <= x < ptr d + len d -> rd (a_bytes a') x = rd (a_bytes a) x.

(** After the scrub and the removal the client has the other chunks, and their
    bytes are as they were. *)
Lemma removed_well a a2 a' gs L L' c n :
  heap_ok a gs -> owns (aheld a gs) L -> mild (2 ^ 48) (__predict a) -> L ≡ₚ c :: L' -> aheld a gs (ptr c) n false ->
  same_bytes_but (Chunk (ptr c) n) a a2 -> a_bytes a' = a_bytes a2 -> heap_good (a', L') -> __predict a' = __predict a ->
  serves_well a' L' /\ forall d, d ∈ L' -> forall x, ptr d <= x < ptr d + len d -> rd (a_bytes a') x = rd (a_bytes a) x.
Proof using CL.
  intros Hok Ho Hp HP Hn Hb Eb Hg Ep. split; [split; [done|by rewrite Ep]|]. intros d Hd x Hx. rewrite Eb. apply Hb. cbn [ptr len].
  destruct (ow_held _ _ Ho d) as (nd & Hnd & Hdl); [rewrite HP; by right|].
  assert (Hne : ptr c <> ptr d).
  { pose proof (ow_once _ _ Ho) as Hnd'. rewrite HP in Hnd'. cbn in Hnd'. apply NoDup_cons in Hnd' as [Hnd' _]. intros Ee. apply Hnd'. rewrite Ee. by apply list_elem_of_fmap_2. }
  pose proof (aheld_parted head_of ihead base a gs Hok _ _ _ _ _ _ Hn Hnd Hne) as Ha. unfold apart in Ha. lia.
Qed.

(** What is admitted is counted, scrubbed and removed. *)
Lemma take_back_goes HasSize a gs p n k go :
  heap_ok a gs -> aheld a gs p n false -> (HasSize = true -> 0 < k <= n) ->
  exists a', take_back HasSize a p k go = go a' /\ same_heap a a' /\ same_bytes_but (Chunk p n) a a' /\ __predict a' = __predict a.
Proof using Hrz Hal CL.
  intros Hok Hn Hk. unfold take_back. rewrite (admits HasSize a gs p n k Hal Hok Hn Hk). cbn [bind].
  destruct (stats_answers a gs p n false k Hok Hn) as (m & ->). cbn [bind]. destruct (count_same st_dealloc 0 a) as (H1 & Eb1 & Ep1). set (a1 := count st_dealloc 0 a) in *.
  destruct (count_same st_total_memory_freed m a1) as (H2 & Eb2 & Ep2). set (a2 := count st_total_memory_freed m a1) in *.
  pose proof (same_heap_trans a a1 a2 H1 H2) as H12. destruct (same_heap_ok a a2 gs Hok H12) as [Hok2 Hh2].
  destruct (scrubs a2 gs p n k Hok2 (proj2 (Hh2 _ _ _) Hn)) as (a3 & -> & H3 & Hb3 & Ep3). cbn [bind].
  exists a3. split; [done|]. split; [by apply (same_heap_trans a a2)|]. split; [|by rewrite Ep3, Ep2, Ep1].
  intros x Hx. by rewrite (Hb3 x Hx), Eb2, Eb1.
Qed.

Lemma take_back_well HasSize a L L' c k go :
  serves_well a L -> L ≡ₚ c :: L' -> (HasSize = true -> k = len c) ->
  (forall a1, heap_good (a1, L) -> exists a', go a1 = Ok (true, a') /\ heap_good (a', L')) -> (forall a1, keeps_rest a1 (go a1)) ->
  returns a L' (take_back HasSize a (ptr c) k go).
Proof using Hrz Hal CL.
  intros [Hg Hp] HP Hk Hgo Hrest. pose proof Hg as (gs & Hok & Ho). cbn [fst snd] in *.
  destruct (ow_held _ _ Ho c) as (n & Hn & Hl); [rewrite HP; by left|].
  destruct (take_back_goes HasSize a gs (ptr c) n k go Hok Hn) as (a3 & -> & Hs & Hb & Ep); [intros E; rewrite (Hk E); lia|].
  destruct (Hgo a3) as (a' & E & Hg'); [by apply (heap_good_same a)|]. destruct (Hrest a3 true a' E) as [Eb' Ep'].
  exists a'. split; [done|]. apply (removed_well a a3 a' gs L L' c n); try done. by rewrite Ep', Ep.
Qed.

(** Each way to give a chunk back, and each way to leave a tombstone for it *)
Definition takes_back (a : arena) (L' : list chunk) (c : chunk) : Prop :=
  (returns a L' (pop head_of a (ptr c)) /\ returns a L' (pop_chunk head_of a c) /\ returns a L' (pop_len head_of a (ptr c) (len c))) /\
  (returns a L' (ts_pop head_of a (ptr c)) /\ returns a L' (ts_pop_chunk head_of a c) /\ returns a L' (ts_pop_len head_of a (ptr c) (len c))).

Lemma pop_well a L L' c : serves_well a L -> L ≡ₚ c :: L' -> takes_back a L' c.
Proof using MO Hrz Hal CL.
  intros Hw HP. pose proof Hw as [(gs & Hok & Ho) Hp]. cbn [fst snd] in *.
  destruct (ow_held _ _ Ho c) as (n & Hn & Hl); [rewrite HP; by left|]. destruct (held_bounds a gs (ptr c) n false Hok Hn) as (B0 & B1 & B2).
  assert (Hz : chunk_zero c = false) by (apply chunk_valid_not_zero; lia).
  assert (Hf : forall a1, heap_good (a1, L) ->
    (frees head_of ihead base L' (__vmap_remove_at head_of a1 (ptr c)) /\ frees head_of ihead base L' (__vmap_remove head_of a1 c)) /\
    (frees head_of ihead base L' (__vmap_tombstone_at head_of a1 (ptr c)) /\ frees head_of ihead base L' (__vmap_tombstone head_of a1 c)))
    by (intros a1 Hg1; by apply (heap_frees head_of ihead base MO Hrz a1 L)).
  unfold takes_back, pop, pop_chunk, pop_len, ts_pop, ts_pop_chunk, ts_pop_len. rewrite Hz, (proj2 (Z.eqb_neq (ptr c) 0)) by lia.
  replace (Chunk (ptr c) (len c)) with c by (by destruct c).
  split_and!; apply (take_back_well _ a L L' c); try done; try (intros a1; apply dispatch_rest); intros a1 Hg1; by apply Hf.
Qed.

(** ** Resizing *)

Lemma rd_copy m dst src n x :
  0 <= n -> rd (copy_bytes m dst src n) x = if (dst <=? x) && (x <? dst + n) then rd m (src + (x - dst)) else rd m x.
Proof.
  intros Hn. unfold copy_bytes. replace n with (Z.of_nat (Z.to_nat n)) by lia. generalize (Z.to_nat n) as k. clear n Hn.
  induction k as [|k IH]; [cbn -[rd]; repeat case_b; lia || done|]. rewrite Nat2Z.inj_succ, <- Z.add_1_r, seqZ_app, foldl_app by lia. cbn [foldl seqZ].
  change (seqZ (0 + Z.of_nat k) 1) with [0 + Z.of_nat k]. cbn [foldl]. rewrite Z.add_0_l, rd_wr. destruct (Z.eqb_spec (dst + Z.of_nat k) x) as [<-|Hne].
  - rewrite (proj2 (Z.leb_le _ _)), (proj2 (Z.ltb_lt _ _)) by lia. cbn [andb]. f_equal. lia.
  - rewrite IH. repeat case_g; lia.
Qed.

(** What resizing the chunk [c] to [sz] bytes, of which at most [k] are kept,
    gives: null, and nothing changed; the same block; or a new one with the
    bytes of the old. *)
Definition resized (a : arena) (L L' : list chunk) (c : chunk) (sz k : Z) (r : res (Z * arena)) : Prop :=
  exists q a', r = Ok (q, a') /\
    (forall d, d ∈ L' -> forall x, ptr d <= x < ptr d + len d -> rd (a_bytes a') x = rd (a_bytes a) x) /\
    ((q = 0 /\ serves_well a' L /\ a_bytes a' = a_bytes a) \/
     (q <> 0 /\ serves_well a' (Chunk q sz :: L') /\
      forall i, 0 <= i < len c -> i < sz -> i < k -> rd (a_bytes a') (q + i) = rd (a_bytes a) (ptr c + i))).

(** The client may see a block as shorter than it is. *)
Lemma serves_well_shorter a L c k : serves_well a (c :: L) -> 0 < k <= len c -> serves_well a (Chunk (ptr c) k :: L).
Proof.
  intros [(gs & Hok & [Ho1 Ho2]) Hp] Hk. split; [|done]. exists gs. split; [done|]. cbn [fst snd] in *. split; [done|].
  intros d [->|Hd]%elem_of_cons; [|apply Ho2; by right]. destruct (Ho2 c) as (n & Hn & Hl); [by left|]. exists n. split; [done|cbn; lia].
Qed.

Lemma resize_well a L L' c sz k :
  serves_well a L -> L ≡ₚ c :: L' -> requested sz -> growable sz -> 0 < sz ->
  resize_preserve self head_of a (ptr c) sz k = Abort \/ resized a L L' c sz k (resize_preserve self head_of a (ptr c) sz k).
Proof using MO IO Hrz Hla Hal CL RS.
  intros Hw HP Hreq Hgr Hsz. pose proof Hw as [(gs & Hok & Ho) Hp]. cbn [fst snd] in *.
  destruct (ow_held _ _ Ho c) as (n & Hn & Hl); [rewrite HP; by left|]. destruct (held_bounds a gs (ptr c) n false Hok Hn) as (B0 & B1 & B2).
  destruct (held_answers a gs (ptr c) n false Hok Hn B0) as (E1 & _ & E2 & _). unfold resize_preserve. rewrite E2. cbn [bind]. rewrite E1. cbn [bind].
  rewrite (proj2 (Z.eqb_neq n 0)) by lia. destruct ((sz <=? n) && (Z.shiftr n 1 <? sz)) eqn:Efit.
  - apply andb_true_iff in Efit as [Hle%Z.leb_le _].
    assert (Hblk : exists found, find_in a (ptr c) [Precise; Small] = Ok found).
    { destruct Hok as (gm & runs & gM & rM & RM & X & Hok & HA). assert (Ht : forall t, exists i, find_range (tier_of a t) (ptr c) = Some i).
      { intros t. rewrite tier_of_at. eapply find_range_total.
        exact (ok_tier _ _ _ _ (bo_sheets _ _ _ (pa_bucket _ _ _ _ _ _ _ (ao_part _ _ _ _ _ _ _ _ Hok t)))). }
      destruct (Ht Precise) as (i1 & Ei1), (Ht Small) as (i2 & Ei2). cbn [find_in]. rewrite Ei1, Ei2. cbn [or_fuel bind]. repeat case_match; by eexists. }
    destruct Hblk as (found & ->). right. cbn [bind]. set (m := write_redzone (a_bytes a) (ptr c) sz).
    assert (Hm : m = a_bytes a) by (unfold m, write_redzone; by rewrite Hrz).
    exists (ptr c), (if found then set_user_bytes a m else a). split; [done|]. assert (Eb : a_bytes (if found then set_user_bytes a m else a) = a_bytes a) by (by destruct found).
    split; [by rewrite Eb|right]. split; [lia|]. split; [|by rewrite Eb].
    assert (Hw1 : serves_well (if found then set_user_bytes a m else a) (Chunk (ptr c) n :: L')).
    { split; [|by destruct found]. apply (heap_good_same a); [|destruct found; [apply set_user_bytes_same|by apply same_heap_meta]].
      exists gs. split; [done|]. cbn [fst snd]. destruct Ho as [Ho1 Ho2]. rewrite HP in Ho1. split; [done|].
      intros d [->|Hd]%elem_of_cons; [exists n; cbn; split; [done|lia]|apply Ho2; rewrite HP; by right]. }
    apply (serves_well_shorter _ _ _ sz Hw1). cbn. lia.
  - destruct (push_well a L sz Hw Hreq Hgr) as [->|(d & a1 & -> & Hres)]; [by left|]. cbn [bind]. destruct Hres as [(-> & Hw1 & Eb)|(Hw1 & Hld & Hb)].
    + right. exists 0, a1. split; [done|]. split; [by rewrite Eb|by left].
    + pose proof Hw1 as [(g1 & Hok1 & Ho1) Hp1]. cbn [fst snd] in *. destruct (ow_held _ _ Ho1 d) as (nd & Hnd & Hdl); [by left|].
      destruct (held_bounds a1 g1 (ptr d) nd false Hok1 Hnd) as (D0 & D1 & D2).
      unfold __is_sentinel_chunk. rewrite (proj2 (Z.eqb_neq (ptr d) usize_max)), (proj2 (Z.eqb_neq (ptr d) 0)) by lia. cbn [orb].
      set (cs := if n <? sz then n else sz). set (cs' := if k <? cs then k else cs). set (m := copy_bytes _ _ _ _).
      assert (Hap : forall x, x ∈ L -> apart (ptr d) (len d) (ptr x) (len x)).
      { intros x (j & Hj)%list_elem_of_lookup. by apply (owned_apart (aheld a1 g1) (d :: L) 0%nat (S j) d x (aheld_parted head_of ihead base a1 g1 Hok1) Ho1). }
      assert (Hcs0 : cs <= n /\ cs <= sz /\ (n <= cs \/ sz <= cs)) by (subst cs; repeat case_g; lia).
      assert (Hcs : cs' <= cs /\ cs' <= k /\ (cs <= cs' \/ k <= cs')) by (subst cs'; repeat case_g; lia).
      clearbody cs cs'.
      assert (Hm : forall x, rd m x = if (ptr d <=? x) && (x <? ptr d + cs') then rd (a_bytes a1) (ptr c + (x - ptr d)) else rd (a_bytes a1) x).
      { intros x. subst m. destruct (Z.le_gt_cases 0 cs'); [by apply rd_copy|]. unfold copy_bytes. rewrite seqZ_nil by lia. cbn -[rd]. repeat case_b; lia || done. }
      assert (Hw2 : serves_well (set_user_bytes a1 m) (c :: d :: L')).
      { split; [|done]. apply (heap_good_same a1); [|apply set_user_bytes_same]. exists g1. split; [done|]. cbn [fst snd].
        destruct Ho1 as [O1 O2]. rewrite HP in O1. split; [cbn in O1 |- *; by rewrite Permutation_swap|].
        intros x Hx. apply O2. rewrite HP. set_solver. }
      destruct (pop_well (set_user_bytes a1 m) (c :: d :: L') (d :: L') c Hw2 (Permutation_refl _)) as [[(a2 & -> & Hw3 & Hb3) _] _]. right. cbn [bind].
      exists (ptr d), a2. split; [done|]. split.
      * intros x Hx y Hy. rewrite (Hb3 x ltac:(by right) y Hy). cbn [set_user_bytes a_bytes]. rewrite Hm.
        assert (HxL : x ∈ L) by (rewrite HP; by right). specialize (Hap x HxL). unfold apart in Hap. rewrite (Hb y) by lia. repeat case_b; lia || done.
      * right. split; [lia|]. split; [apply (serves_well_shorter _ _ _ sz Hw3); lia|]. intros i Hi His Hik.
        rewrite (Hb3 d ltac:(by left)) by lia. cbn [set_user_bytes a_bytes]. rewrite Hm.
        rewrite (proj2 (Z.leb_le _ _)), (proj2 (Z.ltb_lt _ _)) by lia. cbn [andb]. replace (ptr d + i - ptr d) with i by lia.
        apply Hb. specialize (Hap c ltac:(rewrite HP; by left)). unfold apart in Hap. lia.
Qed.

(** ** Runs of a client *)

(** The calls of a client that minds what it was given *)
Inductive call : arena * list chunk -> arena * list chunk -> Prop :=
  | call_push a L sz c a' :
      requested sz -> growable sz -> push self head_of a sz = Ok (c, a') -> c <> failed_chunk -> call (a, L) (a', c :: L)
  | call_push_failed a L sz a' :
      requested sz -> growable sz -> push self head_of a sz = Ok (failed_chunk, a') -> call (a, L) (a', L)
  | call_pop a L L' c ok a' : L ≡ₚ c :: L' -> pop head_of a (ptr c) = Ok (ok, a') -> call (a, L) (a', L')
  | call_pop_chunk a L L' c ok a' : L ≡ₚ c :: L' -> pop_chunk head_of a c = Ok (ok, a') -> call (a, L) (a', L')
  | call_pop_len a L L' c ok a' : L ≡ₚ c :: L' -> pop_len head_of a (ptr c) (len c) = Ok (ok, a') -> call (a, L) (a', L')
  | call_ts_pop a L L' c ok a' : L ≡ₚ c :: L' -> ts_pop head_of a (ptr c) = Ok (ok, a') -> call (a, L) (a', L')
  | call_ts_pop_chunk a L L' c ok a' : L ≡ₚ c :: L' -> ts_pop_chunk head_of a c = Ok (ok, a') -> call (a, L) (a', L')
  | call_ts_pop_len a L L' c ok a' : L ≡ₚ c :: L' -> ts_pop_len head_of a (ptr c) (len c) = Ok (ok, a') -> call (a, L) (a', L')
  | call_resize a L L' c sz k q a' :
      L ≡ₚ c :: L' -> requested sz -> growable sz -> 0 < sz -> resize_preserve self head_of a (ptr c) sz k = Ok (q, a') ->
      call (a, L) (a', if q =? 0 then L else Chunk q sz :: L').

Lemma call_well s s' : serves_well s.1 s.2 -> call s s' -> serves_well s'.1 s'.2.
Proof using MO IO Hrz Hla Hal CL RS.
  intros Hw Hc. destruct Hc as [a L sz c a' Hreq Hgr E Hne|a L sz a' Hreq Hgr E|a L L' c ok a' HP E|a L L' c ok a' HP E|a L L' c ok a' HP E|a L L' c ok a' HP E|a L L' c ok a' HP E|a L L' c ok a' HP E|a L L' c sz k q a' HP Hreq Hgr Hsz E]; cbn [fst snd] in *.
  3-8: destruct (pop_well a L L' c Hw HP) as [(P1 & P2 & P3) (P4 & P5 & P6)];
    match goal with E : ?r = Ok _, P : returns _ _ ?r |- _ => destruct P as (a1 & E1 & Hw1 & _); rewrite E in E1; by injection E1 as _ <- end.
  1,2: destruct (push_well a L sz Hw Hreq Hgr) as [E1|(c1 & a1 & E1 & Hres)]; rewrite E in E1; [done|]; injection E1 as <- <-.
  - by destruct Hres as [(-> & _)|(? & _)].
  - destruct Hres as [(_ & ? & _)|([(gs & Hok & Ho) _] & _)]; [done|exfalso]. cbn [fst snd] in *.
    destruct (ow_held _ _ Ho failed_chunk) as (n & Hn & _); [by left|].
    destruct (held_bounds _ gs _ n false Hok Hn) as (_ & B1 & B2). cbn [ptr failed_chunk] in B2. lia.
  - destruct (resize_well a L L' c sz k Hw HP Hreq Hgr Hsz) as [E1|(q1 & a1 & E1 & _ & Hres)]; rewrite E in E1; [done|]. injection E1 as <- <-.
    destruct Hres as [(-> & ? & _)|(Hq & ? & _)]; [done|]. by rewrite (proj2 (Z.eqb_neq q 0)).
Qed.

Lemma arena_predict_init p a : __arena self head_of ihead p = Ok a -> __predict a = alloc_predictor_init.
Proof.
  rewrite arena_stages. destruct (first_sheet self p) as [[mem p1]| | |]; try done. cbn [bind]. destruct (__init_arena_tier _ _ _ _) as [e| | |]; try done. cbn [bind].
  assert (Hst : forall ts a0, start self head_of ts a0 = Ok a -> __predict a = __predict a0).
  { induction ts as [|t ts IH]; intros a0; cbn [start]; [by intros [= ->]|]. destruct (starts t); [|apply IH].
    unfold init_tier. destruct (on_tier t _ a0) as [[x a1]| | |] eqn:E; try done. cbn [bind]. intros E1. rewrite (IH a1 E1).
    apply (on_tier_rest t _ a0 x a1 E). }
  intros E. by rewrite (Hst tiers _ E).
Qed.

(** C1. Every run of calls to [push], [pop], [ts_pop] and [resize_preserve], from the
    constructor on, whatever tiers serve the requests and however the predictor
    makes them grow: the client's chunks never overlap; the arena knows each as a
    valid block that is present and at least as long; every chunk is taken back
    by each overload of [pop] and of [ts_pop], which answers true; every further
    [push] returns the failed chunk or a chunk that is long enough and new, or
    ends the process; and no call writes a byte of a chunk that stays with the
    client. *)
Theorem arena_calls_safe p live a0 a L :
  ready base p live -> start_ok -> __arena self head_of ihead p = Ok a0 -> rtc call (a0, []) (a, L) ->
  (forall i j c d, L !! i = Some c -> L !! j = Some d -> i <> j -> apart (ptr c) (len c) (ptr d) (len d)) /\
  (forall c, c ∈ L ->
     (exists n, __size_of_alloc a (ptr c) = Ok n /\ len c <= n) /\ is_valid_block a (ptr c) = Ok true /\ present a (ptr c) = Ok true) /\
  (forall c L', L ≡ₚ c :: L' -> takes_back a L' c) /\
  (forall sz, requested sz -> growable sz ->
     push self head_of a sz = Abort \/
     exists c a', push self head_of a sz = Ok (c, a') /\
       (c = failed_chunk \/ (sz <= len c /\ forall d, d ∈ L -> apart (ptr c) (len c) (ptr d) (len d))) /\
       forall d, d ∈ L -> forall x, ptr d <= x < ptr d + len d -> rd (a_bytes a') x = rd (a_bytes a) x) /\
  (forall c L' sz k, L ≡ₚ c :: L' -> requested sz -> growable sz -> 0 < sz ->
     resize_preserve self head_of a (ptr c) sz k = Abort \/ resized a L L' c sz k (resize_preserve self head_of a (ptr c) sz k)).
Proof using MO IO Hrz Hla Hal CL RS.
  intros HR SO E0 Hrun.
  assert (Hw : serves_well a L).
  { change (serves_well (a, L).1 (a, L).2). revert Hrun. apply (rtc_ind_r (fun s => serves_well s.1 s.2)); [|intros s s' _ Hs Hw; by eapply call_well].
    destruct (ready_started self head_of ihead base MO p live HR SO) as [E|(a1 & gs0 & E & Hok0 & _)]; rewrite E0 in E; [done|]. injection E as <-.
    split; [exists gs0; split; [done|apply owns_nil]|]. cbn [fst]. rewrite (arena_predict_init p a0 E0). by apply mild_init. }
  pose proof Hw as [(gs & Hok & Ho) Hp]. cbn [fst snd] in *. split_and!.
  - intros i j c d. apply owned_apart with (aheld a gs); [by apply (aheld_parted head_of ihead base)|done].
  - intros c. by apply (owned_known a gs L).
  - intros c L' HP. by apply (pop_well a L).
  - intros sz Hreq Hgr. destruct (push_well a L sz Hw Hreq Hgr) as [E|(c & a' & E & Hres)]; [by left|right]. exists c, a'. split; [done|].
    destruct Hres as [(-> & _ & ->)|([(gs' & Hok' & Ho') _] & Hl & Hb)]; [by split; [left|]|]. cbn [fst snd] in *.
    assert (Hap : forall d, d ∈ L -> apart (ptr c) (len c) (ptr d) (len d)).
    { intros d (j & Hj)%list_elem_of_lookup. by apply (owned_apart (aheld a' gs') (c :: L) 0%nat (S j) c d (aheld_parted head_of ihead base a' gs' Hok') Ho'). }
    split; [by right|]. intros d Hd x Hx. apply Hb. specialize (Hap d Hd). unfold apart in Hap. lia.
  - intros c L' sz k. by apply resize_well.
Qed.
End ArenaPublic.
