(* ===== verification/ArenaRemote.v ===== *)
(** * Frees from other threads (src/src/arena.hpp, lines 1467-1535)

    Threads that do not own an arena push the blocks they free onto its queue, or,
    when the ring is full, onto its overflow list; the owner takes them back
    between its own calls.  [shared_step] interleaves the accesses of any number
    of pushing threads with the owner's calls and with the accesses by which the
    owner empties the queue and the list. *)

From S2P Require Import Prelude.
From S2P Require Import Config.
From S2P Require Import Mpsc.
From S2P Require Import VaReserve.
From S2P Require Import Book.
From S2P Require Import Sheet.
From S2P Require Import SheetProps.
From S2P Require Import Tier.
From S2P Require Import Predict.
From S2P Require Import Harden.
From S2P Require Import Stats.
From S2P Require Import Kernel.
From S2P Require Import Meta.
From S2P Require Import Bucket.
From S2P Require Import Arena.
From S2P Require Import ArenaApi.
From S2P Require Import Client.
From S2P Require Import BucketInv.
From S2P Require Import Ground.
From S2P Require Import BucketProps.
From S2P Require Import BucketFree.
From S2P Require Import MetaGrow.
From S2P Require Import ArenaInv.
From S2P Require Import ArenaProps.
From S2P Require Import ArenaGrow.
From S2P Require Import ArenaStart.
From S2P Require Import ArenaRun.
From S2P Require Import ArenaPublic.

#[local] Open Scope Z_scope.

Create HintDb queue.

(** ** The owner's calls leave the queue alone *)

Section Kept.
Context `{CK : ChunkOps} `{HD : Hardening} `{ST : Settings} `{PL : Platform}.
Context (self : Z) (head_of : tier_id -> Z).

Definition queue_kept (a a' : arena) : Prop := __remote_free a' = __remote_free a /\ __remote_ovf a' = __remote_ovf a.

(** A function that, when it answers, has kept the queue of [a] *)
Definition keeps_queue {X} (a : arena) (r : res (X * arena)) : Prop := forall x a', r = Ok (x, a') -> queue_kept a a'.

Lemma queue_kept_refl a : queue_kept a a.
Proof. by split. Qed.

Lemma queue_kept_trans a a1 a2 : queue_kept a a1 -> queue_kept a1 a2 -> queue_kept a a2.
Proof. intros [H1 H2] [H3 H4]. split; congruence. Qed.

Lemma keeps_ok {X} a (x : X) a' : queue_kept a a' -> keeps_queue a (Ok (x, a')).
Proof. intros Hk y b [= <- <-]. exact Hk. Qed.

Lemma keeps_bind {X Y} a (r : res (X * arena)) (k : X * arena -> res (Y * arena)) :
  keeps_queue a r -> (forall x a1, queue_kept a a1 -> keeps_queue a (k (x, a1))) -> keeps_queue a (bind r k).
Proof. intros Hr Hk y b. destruct r as [[x a1]| | |]; try done. cbn [bind]. apply Hk. by apply (Hr x). Qed.

Lemma keeps_ask {X Y} a (r : res X) (k : X -> res (Y * arena)) : (forall x, keeps_queue a (k x)) -> keeps_queue a (bind r k).
Proof. intros Hk y b. destruct r as [x| | |]; try done. cbn [bind]. apply Hk. Qed.

Lemma keeps_on_tier {X} t (fn : tier_fn X) a a1 : queue_kept a a1 -> keeps_queue a (on_tier t fn a1).
Proof.
  intros Hq x a'. rewrite on_tier_at. destruct (fn _ _ _ _ _ _ _) as [[[x0 b] e]| | |]; try done. cbn [bind]. intros [= <- <-]. by destruct t.
Qed.

Lemma keeps_dispatch {X} a a1 addr (none : X) fn : queue_kept a a1 -> keeps_queue a (dispatch a1 addr none fn).
Proof.
  intros Hq. unfold dispatch. apply keeps_ask. intros [[t i]|]; [by apply keeps_on_tier|by apply keeps_ok].
Qed.

Lemma kept_count a a1 S n : queue_kept a a1 -> queue_kept a (count S n a1).
Proof. unfold count. by destruct __default_collect_stats. Qed.

Lemma kept_bytes a a1 m : queue_kept a a1 -> queue_kept a (set_user_bytes a1 m).
Proof. done. Qed.

Lemma kept_predict a a1 p : queue_kept a a1 -> queue_kept a (set_predict a1 p).
Proof. done. Qed.

Lemma kept_oom a a1 : queue_kept a a1 -> queue_kept a (check_oom a1).2.
Proof. unfold check_oom. by destruct __default_oom_enable. Qed.

Lemma kept_scrub a a1 p k a' : queue_kept a a1 -> __free_scrub a1 p k = Ok a' -> queue_kept a a'.
Proof.
  intros Hq. unfold __free_scrub. destruct (_ || _); [|by intros [= <-]]. destruct (__size_of_alloc a1 p) as [n| | |]; try done. cbn [bind].
  destruct (n =? 0); [by intros [= <-]|]. destruct (__block_ptr_of a1 p) as [q| | |]; try done. cbn [bind].
  destruct (__is_cached a1 q) as [[]| | |]; try done; cbn [bind]; by intros [= <-].
Qed.

Hint Resolve keeps_ok keeps_on_tier keeps_dispatch kept_count kept_bytes kept_predict kept_oom queue_kept_refl queue_kept_trans : queue.

Lemma keeps_grow a a1 class_sz sz : queue_kept a a1 -> keeps_queue a (__buf_expand_exact self head_of a1 class_sz sz).
Proof. intros Hq. unfold __buf_expand_exact. repeat case_match; auto with queue. Qed.

Lemma keeps_expand a a1 sz : queue_kept a a1 -> keeps_queue a (push_expand self head_of a1 sz).
Proof. intros Hq. unfold push_expand. repeat case_match; apply keeps_grow; auto with queue. Qed.

Lemma keeps_serve_loop n sz : forall a a1, queue_kept a a1 -> keeps_queue a (serve_loop __vmap_alloc (push_expand self head_of) n a1 sz (__rz_inflate sz)).
Proof.
  induction n as [|n IH]; intros a a1 Hq; cbn [serve_loop];
    (apply keeps_bind; [rewrite vmap_alloc_route; auto with queue|]); intros c a2 Hq2;
    (destruct (negb (chunk_zero c)); [unfold __rz_apply; destruct (__rz_active sz); apply keeps_ask; auto with queue|]).
  - by apply keeps_ok.
  - apply keeps_bind; [by apply keeps_expand|]. intros [] a3 Hq3; [by apply IH|by apply keeps_ok].
Qed.

Lemma keeps_push a a1 sz : queue_kept a a1 -> keeps_queue a (push self head_of a1 sz).
Proof.
  intros Hq. unfold push, serve. destruct (check_constraint sz); [done|].
  pose proof (kept_oom a (count st_total_memory_req sz (count st_alloc 0 a1))) as Ho.
  destruct (check_oom _) as [[] a2]; [done|]. apply keeps_serve_loop. apply Ho. auto with queue.
Qed.

Lemma keeps_take_back HasSize a a1 p k go :
  queue_kept a a1 -> (forall a2, queue_kept a a2 -> keeps_queue a (go a2)) -> keeps_queue a (take_back HasSize a1 p k go).
Proof.
  intros Hq Hgo. unfold take_back. apply keeps_ask. intros r. destruct (match r with Some _ => _ | None => _ end); [by apply keeps_ok|].
  apply keeps_ask. intros n. destruct (__free_scrub _ p k) as [a2| | |] eqn:E; try done. cbn [bind]. apply Hgo.
  eapply kept_scrub; [|exact E]. auto with queue.
Qed.

Lemma keeps_pop a a1 p n :
  queue_kept a a1 ->
  (keeps_queue a (pop head_of a1 p) /\ keeps_queue a (pop_chunk head_of a1 (Chunk p n)) /\ keeps_queue a (pop_len head_of a1 p n)) /\
  (keeps_queue a (ts_pop head_of a1 p) /\ keeps_queue a (ts_pop_chunk head_of a1 (Chunk p n)) /\ keeps_queue a (ts_pop_len head_of a1 p n)).
Proof.
  intros Hq. unfold pop, pop_chunk, pop_len, ts_pop, ts_pop_chunk, ts_pop_len.
  split_and!; (case_match; [by apply keeps_ok|]); apply keeps_take_back; auto with queue; intros a2 Hq2; by apply keeps_dispatch.
Qed.

Lemma keeps_resize a a1 p sz k : queue_kept a a1 -> keeps_queue a (resize_preserve self head_of a1 p sz k).
Proof.
  intros Hq. unfold resize_preserve. apply keeps_ask. intros []; [by apply keeps_ok|]. apply keeps_ask. intros old.
  destruct (old =? 0); [by apply keeps_ok|]. destruct (_ && _).
  - apply keeps_ask. intros []; by apply keeps_ok.
  - apply keeps_bind; [by apply keeps_push|]. intros c a2 Hq2. destruct (__is_sentinel_chunk c); [by apply keeps_ok|].
    apply keeps_bind; [by apply keeps_pop|]. intros b a3 Hq3. by apply keeps_ok.
Qed.

Lemma call_keeps s s' : call self head_of s s' -> queue_kept s.1 s'.1.
Proof.
  intros [a L sz c a' _ _ E _|a L sz a' _ _ E|a L L' [p n] ok a' _ E|a L L' [p n] ok a' _ E|a L L' [p n] ok a' _ E
    |a L L' [p n] ok a' _ E|a L L' [p n] ok a' _ E|a L L' [p n] ok a' _ E|a L L' c sz k q a' _ _ _ _ E]; cbn [fst].
  1,2: by eapply keeps_push; [apply queue_kept_refl|exact E].
  7: by eapply keeps_resize; [apply queue_kept_refl|exact E].
  all: destruct (keeps_pop a a p n (queue_kept_refl a)) as ((H1 & H2 & H3) & H4 & H5 & H6); eauto.
Qed.

Lemma kept_release a p sz a' : __remote_release head_of a p sz = Ok a' -> queue_kept a a'.
Proof.
  unfold __remote_release. destruct (sz =? __remote_tombstone_size).
  - destruct (ts_pop head_of a p) as [[ok a1]| | |] eqn:E; try done. intros [= <-].
    destruct (keeps_pop a a p 0 (queue_kept_refl a)) as (_ & Ht & _). by apply (Ht ok).
  - destruct (if __default_enforce_provenance then _ else _) as [r| | |]; try done. cbn [bind].
    destruct (match r with Some _ => _ | None => _ end); [by intros [= <-]|]. destruct (__stats_release_size a p sz) as [m| | |]; try done. cbn [bind].
    destruct (__free_scrub a p sz) as [a1| | |] eqn:Es; try done. cbn [bind]. pose proof (kept_scrub a a p sz a1 (queue_kept_refl a) Es) as Hq.
    set (a2 := count _ _ _). assert (Hq2 : queue_kept a a2) by (by apply kept_count, kept_count).
    match goal with |- bind ?r _ = _ -> _ => destruct r as [[ok a3]| | |] eqn:E end; try done. intros [= <-].
    destruct (negb (sz =? 0)); by eapply keeps_dispatch; [exact Hq2|exact E].
Qed.
End Kept.

(** ** The arena, its queue, and who frees what *)

(** A free names the client's chunk by its start, with its length or with 0, or
    with the size that asks for a tombstone. *)
Definition names (b : Z * Z) (c : chunk) : Prop := b.1 = ptr c /\ (b.2 = __remote_tombstone_size \/ b.2 = 0 \/ b.2 = len c).

(** The chunks named by [bs] leave the client's. *)
Definition leaves (bs : list (Z * Z)) (L L' : list chunk) : Prop := exists G, Forall2 names bs G /\ L ≡ₚ G ++ L'.

(** The bytes of the chunks in [L] are the same in both. *)
Definition bytes_kept (L : list chunk) (a a' : arena) : Prop :=
  forall d, d ∈ L -> forall x, ptr d <= x < ptr d + len d -> rd (a_bytes a') x = rd (a_bytes a) x.

Lemma bytes_kept_trans L a a1 a2 : bytes_kept L a a1 -> bytes_kept L a1 a2 -> bytes_kept L a a2.
Proof. intros H1 H2 d Hd x Hx. by rewrite (H2 d Hd x Hx), (H1 d Hd x Hx). Qed.

(** The arena, its queue with the threads that push, the blocks of the overflow
    list the owner has detached, and the chunks that clients have *)
Record site := Site {
  s_arena : arena;
  s_queue : sys;
  s_detached : list (Z * Z);
  s_live : list chunk
}.

(** What the owner has popped and not yet released *)
Definition in_hand (pc : cpc) : list (Z * Z) := match pc with CRet (Some b) => [b] | _ => [] end.

(** The blocks that were freed and are not yet back *)
Definition underway (x : site) : list (Z * Z) :=
  in_hand (cons (s_queue x)) ++ drop (length (deq (s_queue x))) (enq (s_queue x)) ++ __remote_ovf (s_arena x) ++ s_detached x.

Section Remote.
Context `{CL : ChunkLaws} `{HD : Hardening} `{ST : Settings} `{PL : Platform} `{RS : !Reserved}.
Context (self : Z) (head_of : tier_id -> Z) (ihead base : Z).

Definition with_queue (a : arena) (q : queue) : arena := set_remote a q (__remote_ovf a).

(** A thread may push any block; it gives the chunk up with the compare-and-swap
    that puts it into the ring, or with the one that puts it onto the overflow
    list.  The owner's accesses to the queue, the releases of what it popped, the
    detaching of the list and the releases of what was on it are steps of their
    own, and its other calls do not touch the queue. *)
Inductive shared_step : site -> site -> Prop :=
  | sh_call a s D L a' L' : call self head_of (a, L) (a', L') -> shared_step (Site a s D L) (Site a' s D L')
  | sh_start a s D L i p sz :
      (prods s !! i = None \/ exists r, prods s !! i = Some (PRet r)) ->
      shared_step (Site a s D L) (Site a (Sys (sq s) (<[i := PLoad p sz]> (prods s)) (cons s) (enq s) (deq s)) D L)
  | sh_push a s D L i pc fail q pc' L' :
      prods s !! i = Some pc -> push_step 64 fail (sq s) pc = (q, pc') -> leaves (pushed pc pc') L L' ->
      shared_step (Site a s D L)
        (Site (with_queue a q) (Sys q (<[i := pc']> (prods s)) (cons s) (enq s ++ pushed pc pc') (deq s)) D L')
  | sh_overflow a s D L b L' :
      leaves [b] L L' -> shared_step (Site a s D L) (Site (set_remote a (__remote_free a) (b :: __remote_ovf a)) s D L')
  | sh_pop a s D L q pc' :
      pop_step 64 (sq s) (cons s) = (q, pc') ->
      shared_step (Site a s D L) (Site (with_queue a q) (Sys q (prods s) pc' (enq s) (deq s ++ popped (cons s))) D L)
  | sh_release a s D L p sz a' :
      cons s = CRet (Some (p, sz)) -> __remote_release head_of a p sz = Ok a' ->
      shared_step (Site a s D L) (Site a' (Sys (sq s) (prods s) CLook (enq s) (deq s)) D L)
  | sh_again a s D L :
      cons s = CRet None -> shared_step (Site a s D L) (Site a (Sys (sq s) (prods s) CLook (enq s) (deq s)) D L)
  | sh_detach a s L : shared_step (Site a s [] L) (Site (set_remote a (__remote_free a) []) s (__remote_ovf a) L)
  | sh_release_next a s p sz D L a' :
      __remote_release head_of a p sz = Ok a' -> shared_step (Site a s ((p, sz) :: D) L) (Site a' s D L).

(** ** Releasing a block *)

(** The removal of a block by the tiers, and the removal of blocks one after the
    other, each answered with true, with nothing in between that the tiers see *)
Definition removal (a : arena) (b : Z * Z) : res (bool * arena) :=
  if b.2 =? __remote_tombstone_size then __vmap_tombstone_at head_of a b.1 else
  if b.2 =? 0 then __vmap_remove_at head_of a b.1 else __vmap_remove head_of a (Chunk b.1 b.2).
Fixpoint removes (a : arena) (bs : list (Z * Z)) (a' : arena) : Prop :=
  match bs with
  | [] => same_heap a a'
  | b :: bs => exists a1 a2, same_heap a a1 /\ removal a1 b = Ok (true, a2) /\ removes a2 bs a'
  end.

Lemma removes_same a a1 bs a' : same_heap a a1 -> removes a1 bs a' -> removes a bs a'.
Proof.
  destruct bs as [|b bs]; cbn [removes]; [by apply same_heap_trans|]. intros Hs (a2 & a3 & H2 & E & H3). exists a2, a3.
  split; [by eapply same_heap_trans|done].
Qed.

Lemma removes_app bs bs' a1 a' : removes a1 bs' a' -> forall a, removes a bs a1 -> removes a (bs ++ bs') a'.
Proof.
  intros H'. induction bs as [|b bs IH]; intros a; cbn [removes app]; [intros Hs; by apply (removes_same a a1)|].
  intros (a2 & a3 & H2 & E & H3). exists a2, a3. split; [done|]. split; [done|]. by apply IH.
Qed.

Lemma same_heap_remote a q l : same_heap a (set_remote a q l).
Proof. apply same_heap_meta; [by intros []|done]. Qed.

Context (MO : members_ok head_of ihead base) (IO : initial_ok).
Context (Hrz : __default_redzone = false) (Hla : __default_launder = false) (Hal : __default_check_alignment = false).

Abbreviation serves_well := (serves_well head_of ihead base).
Abbreviation heap_good := (heap_good head_of ihead base).

Lemma serves_well_perm a L L' : serves_well a L -> L ≡ₚ L' -> serves_well a L'.
Proof. intros [(gs & Hok & Ho) Hp] HP. split; [|done]. exists gs. split; [done|]. by eapply owns_perm. Qed.

Lemma serves_well_remote a L q l : serves_well a L -> serves_well (set_remote a q l) L.
Proof. intros [Hg Hp]. split; [|done]. apply (heap_good_same head_of ihead base a); [done|apply same_heap_remote]. Qed.

Lemma removal_well a K K' c b :
  heap_good (a, K) -> K ≡ₚ c :: K' -> names b c ->
  exists a', removal a b = Ok (true, a') /\ heap_good (a', K') /\ a_bytes a' = a_bytes a /\ __predict a' = __predict a.
Proof using MO Hrz CL.
  intros Hg HP [E1 E2].
  assert (Hf : keeps_rest a (removal a b) /\ frees head_of ihead base K' (removal a b)).
  { destruct (heap_frees head_of ihead base MO Hrz a K K' c Hg HP) as [[F1 F2] [F3 _]]. unfold removal. rewrite E1.
    destruct (Z.eqb_spec b.2 __remote_tombstone_size); [split; [apply dispatch_rest|done]|].
    destruct (Z.eqb_spec b.2 0); [split; [apply dispatch_rest|done]|]. destruct E2 as [?|[?|El]]; try done. rewrite El.
    replace (Chunk (ptr c) (len c)) with c by (by destruct c). split; [apply dispatch_rest|done]. }
  destruct Hf as [Hr (a' & E & Hg')]. exists a'. split; [done|]. split; [done|]. by apply (Hr true).
Qed.

(** A release is a removal of the block, after its scrub. *)
Lemma release_goes a gs c n b :
  heap_ok head_of ihead base lazy a gs -> aheld a gs (ptr c) n false -> 0 < len c <= n -> names b c ->
  exists a1, __remote_release head_of a b.1 b.2 = (let* (_, a') := removal a1 b in Ok a') /\ same_heap a a1 /\
    same_bytes_but (Chunk (ptr c) n) a a1 /\ __predict a1 = __predict a.
Proof using Hrz Hal CL.
  intros Hok Hn Hl [E1 E2]. destruct (held_bounds head_of ihead base a gs (ptr c) n false Hok Hn) as (B0 & B1 & B2).
  unfold __remote_release, removal. rewrite E1. destruct (Z.eqb_spec b.2 __remote_tombstone_size) as [_|Et].
  { unfold ts_pop. rewrite (proj2 (Z.eqb_neq _ _)) by lia.
    destruct (take_back_goes head_of ihead base Hrz Hal false a gs (ptr c) n 0 (fun a => __vmap_tombstone_at head_of a (ptr c)) Hok Hn) as (a1 & -> & Hs); [done|].
    by exists a1. }
  pose proof (admits head_of ihead base Hrz false a gs (ptr c) n b.2 Hal Hok Hn ltac:(done)) as Ead.
  assert (Ead' : (if __default_enforce_provenance then __free_admit false a (ptr c) b.2 else Ok None) = Ok None) by (by destruct __default_enforce_provenance).
  rewrite Ead'. cbn [bind]. destruct (stats_answers head_of ihead base Hrz a gs (ptr c) n false b.2 Hok Hn) as (m & ->). cbn [bind].
  destruct (scrubs head_of ihead base Hrz a gs (ptr c) n b.2 Hok Hn) as (a1 & -> & H1 & Hb1 & Ep1). cbn [bind].
  destruct (count_same st_dealloc 0 a1) as (H2 & Eb2 & Ep2). set (a2 := count st_dealloc 0 a1) in *.
  destruct (count_same st_total_memory_freed m a2) as (H3 & Eb3 & Ep3). set (a3 := count st_total_memory_freed m a2) in *.
  exists a3. split; [by destruct (b.2 =? 0)|]. split; [by apply (same_heap_trans a a1), (same_heap_trans a1 a2)|].
  split; [|by rewrite Ep3, Ep2, Ep1]. intros x Hx. by rewrite Eb3, Eb2, (Hb1 x Hx).
Qed.

(** The release of a block is the free of its chunk. *)
Lemma release_well a K K' c b :
  serves_well a K -> K ≡ₚ c :: K' -> names b c ->
  exists a', __remote_release head_of a b.1 b.2 = Ok a' /\ serves_well a' K' /\ bytes_kept K' a a' /\ queue_kept a a' /\ removes a [b] a'.
Proof using MO Hrz Hal CL.
  intros Hw HP Hb. pose proof Hw as [(gs & Hok & Ho) Hp]. cbn [fst snd] in Ho.
  destruct (ow_held _ _ Ho c) as (n & Hn & Hl); [rewrite HP; by left|].
  destruct (release_goes a gs c n b Hok Hn Hl Hb) as (a1 & E & Hs & Hb1 & Ep1).
  destruct (removal_well a1 K K' c b) as (a' & E' & Hg' & Eb' & Ep'); [by apply (heap_good_same head_of ihead base a); [exists gs|]|done|done|].
  assert (Er : __remote_release head_of a b.1 b.2 = Ok a') by (by rewrite E, E').
  destruct (removed_well head_of ihead base a a1 a' gs K K' c n Hok Ho Hp HP Hn) as [Hw' Hb']; try done; [by rewrite Ep', Ep1|].
  exists a'. split; [done|]. split; [done|]. split; [done|]. split; [by eapply kept_release|].
  exists a1, a'. split; [done|]. split; [done|]. by apply same_heap_meta.
Qed.

(** ** Emptying the queue and the list *)

(** What a release does to the arena, the blocks [bs] one after the other *)
Definition released (a : arena) (bs : list (Z * Z)) (L : list chunk) (a' : arena) : Prop :=
  serves_well a' L /\ bytes_kept L a a' /\ queue_kept a a' /\ removes a bs a'.

Lemma releases_well bs : forall a L G,
  serves_well a (G ++ L) -> Forall2 names bs G ->
  exists a', foldl (fun x b => let* a := x in __remote_release head_of a b.1 b.2) (Ok a) bs = Ok a' /\ released a bs L a'.
Proof using MO Hrz Hal CL.
  induction bs as [|b bs IH]; intros a L G Hw HG.
  - apply Forall2_nil_inv_l in HG as ->. exists a. split; [done|]. split; [done|]. split; [done|]. split; [done|]. by apply same_heap_meta.
  - apply Forall2_cons_inv_l in HG as (c & G' & Hb & HG & ->). cbn [foldl bind].
    destruct (release_well a _ (G' ++ L) c b Hw (Permutation_refl _) Hb) as (a1 & -> & Hw1 & Hb1 & Hq1 & Hr1).
    destruct (IH a1 L G' Hw1 HG) as (a2 & -> & Hw2 & Hb2 & Hq2 & Hr2). exists a2. split; [done|]. split; [done|]. split; [|split].
    + eapply bytes_kept_trans; [|exact Hb2]. intros d Hd. apply Hb1. apply elem_of_app. by right.
    + by eapply queue_kept_trans.
    + exact (removes_app [b] bs a1 a2 Hr2 a Hr1).
Qed.

Lemma u32_succ n : u32 (u32 n + 1) = u32 (n + 1).
Proof. unfold u32. apply Zplus_mod_idemp_l. Qed.

Lemma release_all_fold l : forall a n a',
  foldl (fun x b => let* a := x in __remote_release head_of a b.1 b.2) (Ok a) l = Ok a' ->
  release_all head_of a (u32 n) l = Ok (u32 (n + Z.of_nat (length l)), a').
Proof.
  induction l as [|[p sz] l IH]; intros a n a'; cbn [foldl release_all length bind].
  - intros [= <-]. by rewrite Z.add_0_r.
  - destruct (__remote_release head_of a p sz) as [a1| | |] eqn:E; cbn [fst snd bind]; rewrite E; cbn [bind].
    { intros E1. rewrite u32_succ, (IH a1 (n + 1) a' E1). do 3 f_equal. lia. }
    all: clear IH; intros Hf; exfalso; induction l as [|b l IH]; [done|]; apply IH, Hf.
Qed.

Context (Hmt : __default_multithread_safe = true).

(** The drain takes back what is in a settled queue and on the list. *)
Lemma drain_well a s L G :
  sq s = __remote_free a -> Mpsc.inv 64 s -> few s -> cons s = CLook -> settled s ->
  Forall2 names (drop (length (deq s)) (enq s) ++ __remote_ovf a) G -> serves_well a (G ++ L) ->
  exists a', __remote_drain head_of a = Ok (u32 (Z.of_nat (length (drop (length (deq s)) (enq s) ++ __remote_ovf a))), a') /\
    serves_well a' L /\ bytes_kept L a a' /\ removes a (drop (length (deq s)) (enq s) ++ __remote_ovf a) a' /\ maybe_nonempty (__remote_free a') = false /\ __remote_ovf a' = [].
Proof using MO Hrz Hal Hmt CL.
  intros Eq HI Hf Ec Hset HG Hw. unfold __remote_drain. rewrite Hmt. cbn [negb]. rewrite <- Eq.
  pose proof (v_tail _ _ HI). pose proof (v_head _ _ HI). pose proof (v_gap _ _ HI) as Hg. unfold low in Hg. rewrite Ec in Hg.
  set (ring := drop _ _) in *.
  destruct (drain_all 64 6 eq_refl ltac:(lia) (fun p sz (r : res arena) => let* a := r in __remote_release head_of a p sz) 64 s (Ok a) 0
    HI Hf Ec Hset ltac:(lia) ltac:(lia) ltac:(lia)) as (q' & -> & HI'). fold ring.
  apply Forall2_app_inv_l in HG as (G1 & G2 & HG1 & HG2 & ->). rewrite <- app_assoc in Hw.
  destruct (releases_well ring a (G2 ++ L) G1 Hw HG1) as (a1 & E1 & Hw1 & Hb1 & Hq1 & Hr1). rewrite E1. cbn [bind].
  destruct (releases_well (__remote_ovf a1) (set_remote a1 q' []) L G2) as (a2 & E2 & Hw2 & Hb2 & Hq2 & Hr2).
  { by apply serves_well_remote. }
  { by rewrite (proj2 Hq1). }
  exists a2. assert (Hk : 0 + Z.of_nat (length ring) = u32 (Z.of_nat (length ring))).
  { rewrite u32_small; [lia|]. subst ring. rewrite length_drop. lia. }
  rewrite Hk, (release_all_fold _ _ _ _ E2), (proj2 Hq1), length_app. split; [do 3 f_equal; lia|]. split; [done|]. split; [|split].
  - eapply bytes_kept_trans; [|exact Hb2]. intros d Hd. apply Hb1. apply elem_of_app. by right.
  - apply (removes_app _ _ a1); [|done]. rewrite <- (proj2 Hq1). apply (removes_same _ (set_remote a1 q' [])); [apply same_heap_remote|done].
  - destruct Hq2 as [-> ->]. cbn [set_remote __remote_free __remote_ovf]. split; [|done].
    pose proof (v_tail _ _ HI') as Ht. pose proof (v_head _ _ HI') as Hh. cbn [sq enq deq] in Ht, Hh. unfold maybe_nonempty.
    by rewrite Ht, Hh, Z.eqb_refl.
Qed.

(** ** Every interleaving *)

(** The arena serves well the clients and the blocks underway together: none of
    these is handed out before it is back. *)
Record shared_ok (x : site) : Prop := {
  so_queue : sq (s_queue x) = __remote_free (s_arena x);
  so_inv : Mpsc.inv 64 (s_queue x);
  so_back : exists G, Forall2 names (underway x) G /\ serves_well (s_arena x) (G ++ s_live x)
}.

(** A call of the owner keeps what is underway. *)
Lemma call_frame a L a' L' G : call self head_of (a, L) (a', L') -> call self head_of (a, L ++ G) (a', L' ++ G).
Proof.
  assert (HP : forall L L' c, L ≡ₚ c :: L' -> L ++ G ≡ₚ c :: L' ++ G) by (intros K K' c ->; done). intros Hc.
  inversion Hc; subst.
  - by eapply call_push.
  - by eapply call_push_failed.
  - by eapply call_pop; [apply HP|].
  - by eapply call_pop_chunk; [apply HP|].
  - by eapply call_pop_len; [apply HP|].
  - by eapply call_ts_pop; [apply HP|].
  - by eapply call_ts_pop_chunk; [apply HP|].
  - by eapply call_ts_pop_len; [apply HP|].
  - match goal with |- call _ _ _ (_, (if ?b then _ else ?x :: ?K) ++ _) =>
      replace ((if b then L else x :: K) ++ G) with (if b then L ++ G else x :: (K ++ G)) by (by destruct b) end.
    by eapply call_resize; [apply HP|..].
Qed.

(** More is underway. *)
Lemma back_more a U1 U2 bs G L L' :
  Forall2 names (U1 ++ U2) G -> serves_well a (G ++ L) -> leaves bs L L' ->
  exists G', Forall2 names (U1 ++ bs ++ U2) G' /\ serves_well a (G' ++ L').
Proof.
  intros HG Hw (N & HN & HP). apply Forall2_app_inv_l in HG as (G1 & G2 & H1 & H2 & ->). exists (G1 ++ N ++ G2).
  split; [by repeat apply Forall2_app|]. apply (serves_well_perm a _ _ Hw). rewrite HP. solve_Permutation.
Qed.

(** A block underway is released. *)
Lemma back_less a U1 U2 b G L :
  Forall2 names (U1 ++ b :: U2) G -> serves_well a (G ++ L) ->
  exists a' G', __remote_release head_of a b.1 b.2 = Ok a' /\ Forall2 names (U1 ++ U2) G' /\ serves_well a' (G' ++ L) /\
    bytes_kept (G' ++ L) a a' /\ queue_kept a a' /\ removes a [b] a'.
Proof using MO Hrz Hal CL.
  intros HG Hw. apply Forall2_app_inv_l in HG as (G1 & G2 & H1 & H2 & ->). apply Forall2_cons_inv_l in H2 as (c & G3 & Hb & H3 & ->).
  destruct (release_well a _ (G1 ++ G3 ++ L) c b Hw) as (a' & E & Hw' & Hb' & Hq'); [solve_Permutation|done|].
  exists a', (G1 ++ G3). rewrite <- app_assoc. split; [done|]. split; [by apply Forall2_app|done].
Qed.

(** The accesses of a pop keep what is underway. *)
Lemma pop_underway a s D L q pc' :
  Mpsc.inv 64 s -> pop_step 64 (sq s) (cons s) = (q, pc') ->
  underway (Site (with_queue a q) (Sys q (prods s) pc' (enq s) (deq s ++ popped (cons s))) D L) = underway (Site a s D L).
Proof.
  intros HI E. unfold underway. cbn [s_queue s_arena s_detached with_queue set_remote __remote_ovf Mpsc.cons Mpsc.deq Mpsc.enq].
  pose proof (v_cons _ _ HI) as Hc. unfold consumer_ok in Hc.
  destruct (cons s) as [|h|h out|h out|r] eqn:Ec; cbn [pop_step popped in_hand] in *; rewrite ?app_nil_r.
  - destruct (negb _); by injection E as <- <-.
  - by injection E as <- <-.
  - by injection E as <- <-.
  - injection E as <- <-. cbn [in_hand]. destruct Hc as (Eh & _ & Hx). rewrite (v_head _ _ HI) in Eh. subst h. rewrite Nat2Z.id in Hx.
    rewrite (drop_S _ _ _ Hx), length_app. cbn [length]. by rewrite Nat.add_1_r.
  - by injection E as <- <-.
Qed.

Lemma deq_le s : Mpsc.inv 64 s -> (length (deq s) <= length (enq s))%nat.
Proof. intros HI. pose proof (v_tail _ _ HI). pose proof (v_head _ _ HI). pose proof (v_gap _ _ HI). lia. Qed.

Lemma shared_few x x' : shared_step x x' -> few (s_queue x') -> few (s_queue x).
Proof. intros [] Hf; unfold few in *; cbn in *; try done. rewrite length_app in Hf. lia. Qed.

Lemma shared_step_ok x x' : shared_step x x' -> few (s_queue x) -> shared_ok x -> shared_ok x'.
Proof using MO IO Hrz Hla Hal CL RS.
  assert (Hst : forall s s', sstep 64 s s' -> Mpsc.inv 64 s -> few s -> Mpsc.inv 64 s') by (apply (sstep_inv 64 6); [done|lia]).
  intros Hs Hf [Hq HI (G & HG & Hw)].
  destruct Hs as [a s D L a' L' Hc|a s D L i p sz Hi|a s D L i pc fail q pc' L' Hi E Hl|a s D L b L' Hl|a s D L q pc' E|a s D L p sz a' Ec Er|a s D L Ec|a s L|a s p sz D L a' Er];
    cbn [s_queue s_arena s_live] in *.
  - destruct (call_keeps self head_of _ _ Hc) as [E1 E2]. cbn [fst] in E1, E2. split; cbn [s_queue s_arena s_live]; [congruence|done|]. exists G.
    split; [unfold underway in *; cbn [s_queue s_arena s_detached] in *; by rewrite E2|].
    apply (serves_well_perm a' (L' ++ G)); [|apply Permutation_app_comm].
    apply (call_well self head_of ihead base MO Hrz IO Hla Hal (a, L ++ G) (a', L' ++ G)); [|by apply call_frame].
    apply (serves_well_perm a (G ++ L)); [done|apply Permutation_app_comm].
  - split; cbn [s_queue s_arena s_live]; [done| |by exists G]. eapply Hst; [by apply ss_start|done..].
  - split; cbn [s_queue s_arena s_live]; [done|eapply Hst; [by eapply ss_push|done..]|].
    assert (HU : underway (Site (with_queue a q) (Sys q (<[i := pc']> (prods s)) (cons s) (enq s ++ pushed pc pc') (deq s)) D L') =
      (in_hand (cons s) ++ drop (length (deq s)) (enq s)) ++ pushed pc pc' ++ __remote_ovf a ++ D).
    { unfold underway. cbn. rewrite drop_app_le by (by apply deq_le). by rewrite <- !app_assoc. }
    rewrite HU. unfold underway in HG. cbn [s_queue s_arena s_detached] in HG. rewrite app_assoc in HG.
    destruct (back_more a _ _ _ G L L' HG Hw Hl) as (G' & HG' & Hw'). exists G'. split; [done|by apply serves_well_remote].
  - split; cbn [s_queue s_arena s_live]; [done|done|]. unfold underway in *. cbn [s_queue s_arena s_detached set_remote __remote_ovf] in *.
    rewrite app_assoc in HG. destruct (back_more a _ _ _ G L L' HG Hw Hl) as (G' & HG' & Hw'). exists G'.
    split; [by rewrite app_assoc|by apply serves_well_remote].
  - split; cbn [s_queue s_arena s_live]; [done|eapply Hst; [by eapply ss_pop|done..]|]. exists G.
    split; [by rewrite pop_underway|by apply serves_well_remote].
  - unfold underway in HG. cbn [s_queue s_arena s_detached] in HG. rewrite Ec in HG. cbn [in_hand] in HG.
    destruct (back_less a [] _ (p, sz) G L HG Hw) as (a1 & G' & E1 & HG' & Hw' & _ & [E2 E3] & _). cbn [fst snd] in E1. rewrite Er in E1. injection E1 as <-.
    split; cbn [s_queue s_arena s_live]; [cbn; congruence|eapply Hst; [by eapply ss_call|done..]|].
    exists G'. split; [|done]. unfold underway. cbn. by rewrite E3.
  - split; cbn [s_queue s_arena s_live]; [done|eapply Hst; [by eapply ss_call|done..]|]. exists G. split; [|done].
    unfold underway in *. cbn [s_queue s_arena s_detached] in *. rewrite Ec in HG. done.
  - split; cbn [s_queue s_arena s_live]; [done|done|]. exists G. split; [|by apply serves_well_remote].
    unfold underway in *. cbn [s_queue s_arena s_detached set_remote __remote_ovf] in *. by rewrite app_nil_r in HG.
  - unfold underway in HG. cbn [s_queue s_arena s_detached] in HG. rewrite !app_assoc in HG.
    destruct (back_less a _ D (p, sz) G L HG Hw) as (a1 & G' & E1 & HG' & Hw' & _ & [E2 E3] & _). cbn [fst snd] in E1. rewrite Er in E1. injection E1 as <-.
    split; cbn [s_queue s_arena s_live]; [congruence|done|].
    exists G'. split; [|done]. unfold underway. cbn [s_queue s_arena s_detached]. rewrite E3, !app_assoc. exact HG'.
Qed.

Lemma arena_queue_init p a : __arena self head_of ihead p = Ok a -> __remote_free a = Mpsc.init 64 /\ __remote_ovf a = [].
Proof.
  rewrite arena_stages. destruct (first_sheet self p) as [[mem p1]| | |]; try done. cbn [bind]. destruct (__init_arena_tier _ _ _ _) as [e| | |]; try done. cbn [bind].
  assert (Hst : forall ts a0, start self head_of ts a0 = Ok a -> queue_kept a0 a).
  { induction ts as [|t ts IH]; intros a0; cbn [start]; [by intros [= ->]|]. destruct (starts t); [|apply IH].
    unfold init_tier. destruct (on_tier t _ a0) as [[x a1]| | |] eqn:E; try done. cbn [bind]. intros E1.
    eapply queue_kept_trans; [|exact (IH a1 E1)]. by eapply keeps_on_tier; [apply queue_kept_refl|exact E]. }
  intros E. exact (Hst tiers _ E).
Qed.

Lemma shared_run_ok p live a0 x :
  ready base p live -> start_ok -> __arena self head_of ihead p = Ok a0 ->
  rtc shared_step (Site a0 (Mpsc.start 64) [] []) x -> few (s_queue x) -> shared_ok x.
Proof using MO IO Hrz Hla Hal CL RS.
  intros HR SO E0 Hrun. apply (rtc_ind_r (R := shared_step) (fun x => few (s_queue x) -> shared_ok x) (Site a0 (Mpsc.start 64) [] []));
    [| |exact Hrun]; clear x Hrun.
  - intros _. destruct (arena_queue_init p a0 E0) as [Eq Eo]. split; cbn [s_queue s_arena s_live]; [by rewrite Eq|by apply (inv_start 64 6)|].
    exists []. split; [unfold underway; cbn [s_arena]; rewrite Eo; by cbn|].
    destruct (ready_started self head_of ihead base MO p live HR SO) as [E|(a1 & gs0 & E & Hok0 & _)]; rewrite E0 in E; [done|]. injection E as <-.
    split; [exists gs0; split; [done|apply owns_nil]|]. cbn [fst]. rewrite (arena_predict_init self head_of ihead p a0 E0). by apply mild_init.
  - intros x x' _ Hs IH Hf. pose proof (shared_few x x' Hs Hf) as Hf'. by apply (shared_step_ok x); [|done|apply IH].
Qed.

(** C3. Frees from any number of threads, in any interleaving of their accesses with
    the owner's calls and takes, from the constructor on, for the first [2^62]
    pushes: the chunks of the clients and the blocks underway never overlap, and
    the arena knows all of them as valid blocks; a [push] of the owner gives
    nothing that overlaps one of them; a block underway, when the owner releases it,
    is removed by its tier, and no byte of a client's chunk changes; and once no
    push is under way a drain removes every block underway, each once and with
    the answer true, says how many they were, and leaves nothing. *)
Theorem remote_frees_safe p live a0 x :
  ready base p live -> start_ok -> __arena self head_of ihead p = Ok a0 ->
  rtc shared_step (Site a0 (Mpsc.start 64) [] []) x -> few (s_queue x) ->
  let a := s_arena x in
  exists G, Forall2 names (underway x) G /\
  (forall i j c d, (G ++ s_live x) !! i = Some c -> (G ++ s_live x) !! j = Some d -> i <> j -> apart (ptr c) (len c) (ptr d) (len d)) /\
  (forall c, c ∈ G ++ s_live x ->
     (exists n, __size_of_alloc a (ptr c) = Ok n /\ len c <= n) /\ is_valid_block a (ptr c) = Ok true /\ present a (ptr c) = Ok true) /\
  (forall sz, requested sz -> growable sz ->
     push self head_of a sz = Abort \/
     exists c a', push self head_of a sz = Ok (c, a') /\
       (c = failed_chunk \/ (sz <= len c /\ forall d, d ∈ G ++ s_live x -> apart (ptr c) (len c) (ptr d) (len d)))) /\
  (forall b, b ∈ underway x -> exists a', __remote_release head_of a b.1 b.2 = Ok a' /\ removes a [b] a' /\ bytes_kept (s_live x) a a') /\
  (settled (s_queue x) -> cons (s_queue x) = CLook -> s_detached x = [] ->
     exists a', __remote_drain head_of a = Ok (u32 (Z.of_nat (length (underway x))), a') /\ removes a (underway x) a' /\ bytes_kept (s_live x) a a' /\
       maybe_nonempty (__remote_free a') = false /\ __remote_ovf a' = [] /\
       forall c, c ∈ s_live x -> is_valid_block a' (ptr c) = Ok true /\ present a' (ptr c) = Ok true).
Proof using MO IO Hrz Hla Hal Hmt CL RS.
  intros HR SO E0 Hrun Hf a. destruct (shared_run_ok p live a0 x HR SO E0 Hrun Hf) as [Hq HI (G & HG & Hw)]. fold a in Hq, Hw.
  pose proof Hw as [(gs & Hok & Ho) _]. cbn [fst snd] in *. exists G. split; [done|].
  split_and!.
  - intros i j c d. apply owned_apart with (aheld a gs); [by apply (aheld_parted head_of ihead base)|done].
  - intros c. by apply (owned_known head_of ihead base Hrz a gs).
  - intros sz Hreq Hgr. destruct (push_well self head_of ihead base MO Hrz IO Hla a _ sz Hw Hreq Hgr) as [E|(c & a' & E & Hres)]; [by left|right].
    exists c, a'. split; [done|]. destruct Hres as [(-> & _)|([(gs' & Hok' & Ho') _] & Hl & _)]; [by left|right]. split; [done|].
    intros d (j & Hj)%list_elem_of_lookup. cbn [fst snd] in *.
    by apply (owned_apart (aheld a' gs') (c :: _) 0%nat (S j) c d (aheld_parted head_of ihead base a' gs' Hok') Ho').
  - intros b (U1 & U2 & E)%list_elem_of_split. rewrite E in HG. destruct (back_less a U1 U2 b G _ HG Hw) as (a' & G' & E' & _ & _ & Hb & _ & Hr).
    exists a'. split; [done|]. split; [done|]. intros d Hd. apply Hb. apply elem_of_app. by right.
  - intros Hset Ec ED. unfold underway in *. rewrite Ec, ED in *. cbn [in_hand app] in *. rewrite app_nil_r in *.
    destruct (drain_well a (s_queue x) (s_live x) G Hq HI Hf Ec Hset HG Hw) as (a' & E & [(gs' & Hok' & Ho') _] & Hb & Hr & H1 & H2).
    exists a'. split_and!; try done. intros c Hc. by destruct (owned_known head_of ihead base Hrz a' gs' _ c Hok' Ho' Hc) as (_ & ? & ?).
Qed.
End Remote.
