(* ===== verification/DoctorArena.v ===== *)
(** * The doctor on an arena (src/src/arena.hpp, lines 2159-2225)

    The members of the arena the doctor asks, and the arena as an [Allocator].
    On a well-formed arena the questions have answers, and the check of the
    tiers with the walks over their books notes nothing but granules that
    another arena owns. *)

From S2P Require Import Prelude.
From S2P Require Import Config.
From S2P Require Import Buddy.
From S2P Require Import BuddyInv.
From S2P Require Import Tlsf.
From S2P Require Import VaReserve.
From S2P Require Import Owner.
From S2P Require Import Book.
From S2P Require Import BuddyBook.
From S2P Require Import TlsfInv.
From S2P Require Import TlsfWf.
From S2P Require Import TlsfSpec.
From S2P Require Import BuddyOps.
From S2P Require Import BuddyWf.
From S2P Require Import TlsfBook.
From S2P Require Import Sheet.
From S2P Require Import SheetProps.
From S2P Require Import Tier.
From S2P Require Import Harden.
From S2P Require Import Kernel.
From S2P Require Import Meta.
From S2P Require Import Bucket.
From S2P Require Import Arena.
From S2P Require Import Doctor.
From S2P Require Import DoctorProps.
From S2P Require Import Walk.
From S2P Require Import TlsfWalk.
From S2P Require Import BuddyWalk.
From S2P Require Import BucketInv.
From S2P Require Import Ground.
From S2P Require Import BucketProps.
From S2P Require Import BucketFree.
From S2P Require Import ArenaInv.
From S2P Require Import ArenaProps.

#[local] Open Scope Z_scope.

(** ** Books, as the doctor looks at them *)

(** The walk, and the 32-bit words of the sheet's memory *)
Class Walked (B : Type) := {
  wk_walk : __sweep_ctx -> B -> __sweep_ctx * B;
  wk_word : B -> Z -> Z;
  wk_set_word : B -> Z -> Z -> B
}.

#[export] Instance tlsf_walked : Walked tlsf := {|
  wk_walk := TlsfWalk.__doctor_walk;
  wk_word s a := u32 (rd (Tlsf.mem s) a);
  wk_set_word s a x := Tlsf.set_mem s (wr (Tlsf.mem s) a x)
|}.

#[export] Instance buddy_walked (Sz : Z) : Walked buddy := {|
  wk_walk := BuddyWalk.__doctor_walk Sz;
  wk_word s a := u32 (rd (Buddy.mem s) a);
  wk_set_word s a x := Buddy.set_mem s (wr (Buddy.mem s) a x)
|}.

(** ** A tier *)

Section WalkTier.
Context {B C : Type} `{!Walked B}.

(** [nd->nd->__doctor_walk(v)] for the sheet at [i] *)
Definition walk_sheet (vb : __sweep_ctx * bucket B C) (i : Z) : res (__sweep_ctx * bucket B C) :=
  let '(v, b) := vb in
  let* (a, sh) := sheet_of b i in
  let '(v, k) := wk_walk v (__book sh) in
  Ok (v, with_sheet b a (set_book sh k)).

Definition __doctor_walk_tier (v : __sweep_ctx) (b : bucket B C) : res (__sweep_ctx * bucket B C) :=
  fold_res walk_sheet (v, b) (seqZ 0 (__count (b_tier b))).

(** The loop over the granules of a sheet: whether one is not ours *)
Fixpoint foreign_granule (n : nat) (owner_of : Z -> Z) (self a e : Z) : res bool :=
  match n with
  | O => OutOfFuel
  | S n =>
      if a <? e then
        if negb (owner_of a =? self) then Ok true
        else foreign_granule n owner_of self (u64 (a + __sheet_align)) e
      else Ok false
  end.

Definition granule_rounds (lo hi : Z) : nat := S (S (Z.to_nat ((hi - lo) / __sheet_align))).

Definition check_entry (owner_of : Z -> Z) (self : Z) (b : bucket B C) (v : __sweep_ctx) (i : Z) : res __sweep_ctx :=
  let t := b_tier b in
  let l := lo (entry (__idx t) i) in
  let h := hi (entry (__idx t) i) in
  let v := saw_walk v 1 0 0 in
  let v := note_if (negb (l <? h)) v in
  let v := note_if ((u32 (i + 1) <? __count t) && negb (h <=? lo (entry (__idx t) (u32 (i + 1))))) v in
  let* (_, sh) := sheet_of b i in
  let v := note_if (negb (addr sh =? l)) v in
  let v := note_if (negb (addr_end sh =? h)) v in
  let* foreign := foreign_granule (granule_rounds l h) owner_of self l h in
  Ok (note_if foreign v).

Definition __doctor_check_tier (owner_of : Z -> Z) (self : Z) (b : bucket B C) (v : __sweep_ctx) : res __sweep_ctx :=
  fold_res (check_entry owner_of self b) v (seqZ 0 (__count (b_tier b))).
End WalkTier.

(** ** The arena *)

(** A function of a tier whose books can be walked *)
Definition walked_fn (X : Type) : Type := forall B C, Walked B -> bucket B C -> res (X * bucket B C).

Definition on_walked {X} (t : tier_id) (fn : walked_fn X) (a : arena) : res (X * arena) :=
  match t with
  | Precise => let* (x, b) := fn _ _ tlsf_walked (_precise a) in Ok (x, set_precise a b)
  | Small => let* (x, b) := fn _ _ tlsf_walked (_small a) in Ok (x, set_small a b)
  | Medium => let* (x, b) := fn _ _ (buddy_walked __class_medium) (_medium a) in Ok (x, set_medium a b)
  | Large => let* (x, b) := fn _ _ (buddy_walked __class_large) (_large a) in Ok (x, set_large a b)
  | Huge => let* (x, b) := fn _ _ (buddy_walked __class_huge) (_huge a) in Ok (x, set_huge a b)
  end.

Definition all_tiers : list tier_id := [Precise; Small; Medium; Large; Huge].

Section DoctorArena.
Context `{ChunkOps} `{Hardening} `{Settings} `{Platform}.
Context (self : Z).

Definition __doctor_tier_kind (a : arena) (p : Z) : res Z :=
  let* found := find_tier a p in
  Ok (match found with Some (t, _) => if is_tlsf t then 1 else 2 | None => 0 end).

(** [__va_contains] and [__owner_of] in the arena's process *)
Definition contains (a : arena) (p : Z) : bool := __va_contains (w_va (p_world (m_process (a_meta a)))) p.
Definition owner_of (a : arena) (p : Z) : Z :=
  __owner_of (w_va (p_world (m_process (a_meta a)))) (w_owners (p_world (m_process (a_meta a)))) p.

Definition check_fn (own : Z -> Z) (v : __sweep_ctx) : walked_fn __sweep_ctx := fun B C w b =>
  let* v := __doctor_check_tier own self b v in Ok (v, b).
Definition walk_fn (v : __sweep_ctx) : walked_fn __sweep_ctx := fun B C w b => __doctor_walk_tier v b.

Definition __doctor_check_struct (v : __sweep_ctx) (a : arena) : res (__sweep_ctx * arena) :=
  fold_res (fun '(v, a) t => on_walked t (check_fn (owner_of a) v) a) (saw_arenas v 1 0, a) all_tiers.
Definition __doctor_walk_blocks (v : __sweep_ctx) (a : arena) : res (__sweep_ctx * arena) :=
  fold_res (fun '(v, a) t => on_walked t (walk_fn v) a) (v, a) all_tiers.

Definition walk_arena (v : __sweep_ctx) (a : arena) : res (__sweep_ctx * arena) :=
  let* (v, a) := __doctor_check_struct v a in __doctor_walk_blocks v a.

(** The word at [x] of the sheet that has [p] *)
Definition word_fn (idx x : Z) : walked_fn Z := fun B C w b =>
  let* (_, sh) := sheet_of b idx in Ok (wk_word (__book sh) x, b).
Definition set_word_fn (idx x y : Z) : walked_fn unit := fun B C w b =>
  let* (a, sh) := sheet_of b idx in Ok (tt, with_sheet b a (set_book sh (wk_set_word (__book sh) x y))).

Definition word_at (a : arena) (p x : Z) : res Z :=
  let* found := find_tier a p in
  match found with
  | None => Stuck
  | Some (t, idx) => let* (n, _) := on_walked t (word_fn idx x) a in Ok n
  end.
Definition set_word_at (a : arena) (p x y : Z) : res arena :=
  let* found := find_tier a p in
  match found with
  | None => Stuck
  | Some (t, idx) => let* (_, a) := on_walked t (set_word_fn idx x y) a in Ok a
  end.

(** The calling thread has the arena [self] and there is no other.  The words of
    headers are those of the books: with canaries, where the doctor takes parts
    of the free links for a header, this is not what it reads. *)
#[export] Instance arena_allocator : Allocator arena := {|
  al_tls _ := self;
  al_arenas _ := [self];
  al_contains := contains;
  al_owner_of := owner_of;
  al_kind := __doctor_tier_kind;
  al_size := __size_of_alloc;
  al_valid := is_valid_block;
  al_provenance := has_provenance;
  al_cached := __is_cached;
  al_word := word_at;
  al_set_word := set_word_at;
  al_bytes := a_bytes;
  al_set_bytes := set_user_bytes;
  al_walk := walk_arena
|}.
End DoctorArena.

(** ** Walks that only report *)

(** A loop over parts that may fail to return; [mk] is the rest of its state. *)
Lemma part_fold_res {S X} (mk : __sweep_ctx -> S) (f : S -> X -> res S) (P : X -> Prop) l : forall v, repair v = false ->
  (forall v x, x ∈ l -> repair v = false -> exists v', f (mk v) x = Ok (mk v') /\ part v v' (P x)) ->
  exists v', fold_res f (mk v) l = Ok (mk v') /\ part v v' (forall x, x ∈ l -> P x).
Proof.
  induction l as [|x l IH]; intros v Hr Hf; cbn [fold_res].
  { exists v. split; [done|]. eapply part_iff; [|apply part_refl]. split; [by intros _ i Hi%elem_of_nil|done]. }
  destruct (Hf v x ltac:(by left) Hr) as (v1 & -> & P1). cbn [bind].
  destruct (IH v1) as (v2 & -> & P2); [by rewrite (p_mode _ _ _ P1)|intros; apply Hf; [by right|done]|].
  exists v2. split; [done|]. eapply part_iff; [|by eapply part_trans]. setoid_rewrite elem_of_cons. split.
  - intros [HP HQ] j [->|Hj]; auto.
  - intros HQ. split; [apply HQ; by left|intros j Hj; apply HQ; by right].
Qed.

(** What the walk over a book sees, that it sees nothing on what the operations
    of the book leave, and what the header of a grant of [n] bytes has: its size
    before the block, or its order behind it *)
Class WalkLaws (B : Type) `{BookLaws B} `{!Walked B} := {
  wk_sound : B -> Prop;
  wk_exact v b : repair v = false -> exists v', wk_walk v b = (v', b) /\ part v v' (wk_sound b);
  wk_rep b L : bk_rep b L -> wk_sound b;
  wk_sized : bool;
  wk_mark : Z -> Z;
  wk_header b L p n u : bk_rep b L -> L !! p = Some (n, u) ->
    let h := if wk_sized then p - __hdr_offset else p + n in
    wk_word b h = wk_mark n /\ __alloc_flags_ok (wk_word b (h + 4)) = true;
  wk_mark_size n : wk_sized = true -> wk_mark n = u32 (n + __hdr_offset);
  wk_mark_order n : wk_sized = false -> n < 2 ^ 37 -> 0 <= wk_mark n <= 25
}.

Lemma tlsf_walk_any v s : repair v = false ->
  exists v', TlsfWalk.__doctor_walk v s = (v', s) /\ part v v' (Tlsf.base s = 0 \/ TlsfWalk.sound s).
Proof.
  intros Hr. destruct (Z.eq_dec (Tlsf.base s) 0) as [E|Hb].
  - exists v. unfold TlsfWalk.__doctor_walk. rewrite E. split; [done|]. eapply part_iff; [|apply part_refl]. tauto.
  - destruct (tlsf_walk_part v s Hr Hb) as (v' & -> & P). exists v'. split; [done|]. eapply part_iff; [|exact P]. tauto.
Qed.

Lemma buddy_walk_any Min v s : repair v = false ->
  exists v', BuddyWalk.__doctor_walk Min v s = (v', s) /\
    part v v' ((Buddy.base s = 0 \/ block_tags_at s = 0) \/ BuddyWalk.sound Min s).
Proof.
  intros Hr. destruct (decide (Buddy.base s = 0 \/ block_tags_at s = 0)) as [E|Hb].
  - exists v. unfold BuddyWalk.__doctor_walk.
    assert ((Buddy.base s =? 0) || (block_tags_at s =? 0) = true) as -> by (apply orb_true_iff; rewrite !Z.eqb_eq; done).
    split; [done|]. eapply part_iff; [|apply part_refl]. tauto.
  - destruct (buddy_walk_part Min v s Hr) as (v' & -> & P); [tauto|tauto|].
    exists v'. split; [done|]. eapply part_iff; [|exact P]. tauto.
Qed.

Lemma live_flags f : f = __block_alloc \/ f = Z.lor __block_alloc __block_temporal \/ f = __block_tombstone ->
  __alloc_flags_ok (u32 f) = true.
Proof. by intros [->|[->| ->]]. Qed.

Lemma tlsf_header s G p n u : tlsf_rep s G -> G !! p = Some (n, u) ->
  u32 (rd (Tlsf.mem s) (p - 32)) = u32 (n + 32) /\ __alloc_flags_ok (u32 (rd (Tlsf.mem s) (p - 32 + 4))) = true.
Proof.
  intros (L & P & HW & HR & ->) Hp. apply (grant_claim P) in Hp as (k & Hp & Hk & _); [|done]. apply HR in Hp as [_ Hp].
  pose proof (TlsfWf.w_inv _ _ HW) as HI. pose proof (TlsfInv.i_size _ _ HI _ _ _ Hp) as Es. unfold Tlsf.bsize in Es. rewrite Z.add_0_r in Es.
  split; [by rewrite Es|]. destruct (tflags k) as [f|] eqn:Ef; [|by destruct k as [|[]| |]].
  pose proof (TlsfInv.i_flags _ _ HI _ _ _ _ Hp Ef) as Efl. unfold Tlsf.flags in Efl. rewrite Efl. apply live_flags.
  destruct k as [|[]| |]; try done; injection Ef as <-; tauto.
Qed.

#[export] Instance tlsf_walk_laws `{ChunkOps} (Sz : Z) : @WalkLaws tlsf _ (tlsf_book Sz) (tlsf_book_laws Sz) tlsf_walked.
Proof.
  refine (Build_WalkLaws tlsf _ (tlsf_book Sz) (tlsf_book_laws Sz) tlsf_walked (fun s => Tlsf.base s = 0 \/ TlsfWalk.sound s) tlsf_walk_any _
    true (fun n => u32 (n + __hdr_offset)) tlsf_header _ _); [|done|done].
  intros s L (M & P & HW & _). right. by apply (tlsf_wf_sound s P).
Defined.

Section BuddyHeader.
Context (Min : Z) `{!BuddyMin Min}.

Definition order_of (n : Z) : Z := Z.log2 ((n + 32) / Min).

Lemma order_of_block o : 0 <= o -> order_of (Min * 2 ^ o - 32) = o.
Proof.
  intros Ho. unfold order_of. pose proof (Min_range Min). replace (Min * 2 ^ o - 32 + 32) with (2 ^ o * Min) by lia.
  rewrite Z.div_mul by lia. by apply Z.log2_pow2.
Qed.

Lemma buddy_header s G p n u : buddy_rep Min s G -> G !! p = Some (n, u) ->
  u32 (rd (Buddy.mem s) (p + n)) = order_of n /\ __alloc_flags_ok (u32 (rd (Buddy.mem s) (p + n + 4))) = true.
Proof.
  intros (P & HW & HG) Hp. apply HG in Hp as (i & o & k & Hi & Hk & -> & -> & _). pose proof (BuddyWf.w_inv _ _ _ HW) as HI.
  destruct (blk_range Min HI _ _ _ Hi) as (Hi0 & Ho & _). destruct (geo_units Min HI) as (_ & _ & Hmo & _).
  destruct (kind_flags k) as [f|] eqn:Ef; [|by destruct k as [|[]| | |]].
  destruct (i_hdr _ _ _ HI i o k f Hi Ef) as [E1 E2]. unfold hdr_order, hdr_flags, Buddy.hdr_of in E1, E2.
  rewrite (order_size_eq Min HI) in E1, E2 by lia. change __hdr_offset with 32 in *. rewrite Z.add_0_r in E1.
  rewrite order_of_block by lia. set (h := BuddyInv.at_ Min (Buddy.base s) i + (Min * 2 ^ o - 32)).
  replace (BuddyInv.at_ Min (Buddy.base s) i + Min * 2 ^ o - 32) with h in E1, E2 by (subst h; lia).
  rewrite E1, E2. split; [apply u32_small; lia|]. apply live_flags. destruct k as [|[]| | |]; try done; injection Ef as <-; tauto.
Qed.

Lemma order_small n : 4096 <= Min -> n < 2 ^ 37 -> 0 <= order_of n <= 25.
Proof.
  intros HM Hn. unfold order_of. split; [apply Z.log2_nonneg|].
  destruct (Z.le_gt_cases ((n + 32) / Min) 0) as [Hq|Hq]; [rewrite Z.log2_nonpos by done; lia|].
  apply Z.lt_succ_r, Z.log2_lt_pow2; [done|]. apply Z.div_lt_upper_bound; lia.
Qed.

Lemma buddy_walk_laws `{ChunkOps} : 4096 <= Min -> @WalkLaws buddy _ (buddy_book Min) (buddy_book_laws Min) (buddy_walked Min).
Proof.
  intros HM. refine (Build_WalkLaws buddy _ (buddy_book Min) (buddy_book_laws Min) (buddy_walked Min)
    (fun s => (Buddy.base s = 0 \/ block_tags_at s = 0) \/ BuddyWalk.sound Min s) (buddy_walk_any Min) _
    false order_of buddy_header _ _); [|done|intros n _; by apply order_small].
  intros s L (P & HW & _). right. by apply (buddy_wf_sound Min s P).
Defined.
End BuddyHeader.

(** ** A tier *)

Section TierWalk.
Context {B C : Type} `{CK : ChunkOps} `{BK : !Book B} `{BL : !BookLaws B} `{WK : !Walked B} `{WL : !WalkLaws B}.
Implicit Types b : bucket B C.

(** Every entry leads to a sheet, below the end of the address space. *)
Record led b : Prop := {
  le_count : 0 <= __count (b_tier b) < 2 ^ 32 - 1;
  le_sheet i : 0 <= i < __count (b_tier b) -> exists x sh, sheet_of b i = Ok (x, sh) /\ b_sheets b !! x = Some sh;
  le_range i : 0 <= i < __count (b_tier b) -> 0 <= lo (entry (__idx (b_tier b)) i) /\ hi (entry (__idx (b_tier b)) i) + __sheet_align < 2 ^ 64
}.

Lemma walk_sheet_part b v i x sh : repair v = false -> sheet_of b i = Ok (x, sh) -> b_sheets b !! x = Some sh ->
  exists v', walk_sheet (v, b) i = Ok (v', b) /\ part v v' (wk_sound (__book sh)).
Proof using.
  intros Hr Es Ex. destruct (wk_exact v (__book sh) Hr) as (v' & E & P). exists v'. split; [|done].
  unfold walk_sheet. rewrite Es. cbn [bind]. rewrite E. do 2 f_equal. destruct b as [t m c], sh as [km k g]. unfold with_sheet, set_book. cbn in *.
  by rewrite insert_id.
Qed.

(** The granules from [a] on belong to [self]. *)
Definition owned (own : Z -> Z) (self a e : Z) : Prop := forall k, 0 <= k -> a + k * __sheet_align < e -> own (a + k * __sheet_align) = self.

Lemma owned_next own self a e : a < e -> owned own self a e <-> own a = self /\ owned own self (a + __sheet_align) e.
Proof using.
  intros Ha. unfold owned. split.
  - intros Ho. split; [specialize (Ho 0 ltac:(lia)); rewrite Z.mul_0_l, Z.add_0_r in Ho; by apply Ho|].
    intros k Hk Hlt. specialize (Ho (k + 1) ltac:(lia)). rewrite (Z.mul_add_distr_r k 1), Z.mul_1_l, (Z.add_comm (k * _)), Z.add_assoc in Ho. by apply Ho.
  - intros [H0 Ho] k Hk Hlt. destruct (Z.eq_dec k 0) as [->|]; [by rewrite Z.mul_0_l, Z.add_0_r|].
    specialize (Ho (k - 1) ltac:(lia)). rewrite Z.mul_sub_distr_r, Z.mul_1_l in Ho.
    replace (a + __sheet_align + (k * __sheet_align - __sheet_align)) with (a + k * __sheet_align) in Ho by lia. by apply Ho.
Qed.

Lemma foreign_spec own self e n : forall a, 0 <= a -> e + __sheet_align < 2 ^ 64 ->
  (0 < n)%nat -> (e - a) / __sheet_align + 1 < Z.of_nat n ->
  exists f, foreign_granule n own self a e = Ok f /\ (f = false <-> owned own self a e).
Proof using.
  assert (Hal : 0 < __sheet_align < 2 ^ 64) by (vm_compute; done).
  induction n as [|n IH]; intros a Ha He Hn0 Hn; [lia|].
  cbn [foreign_granule]. destruct (Z.ltb_spec a e) as [Hlt|Hge].
  - setoid_rewrite (owned_next own self a e Hlt). destruct (Z.eqb_spec (own a) self) as [Ho|Ho]; cbn [negb].
    + rewrite u64_small by lia. pose proof (Z.div_pos (e - a) __sheet_align ltac:(lia) ltac:(lia)).
      destruct (IH (a + __sheet_align)) as (f & Ef & Hf); [lia|done|lia| |].
      * replace (e - (a + __sheet_align)) with (e - a + (-1) * __sheet_align) by lia. rewrite Z.div_add by lia. lia.
      * exists f. split; [done|]. rewrite Hf. tauto.
    + exists true. split; [done|]. split; [done|]. tauto.
  - exists false. split; [done|]. split; [|done]. intros _ k Hk Hlt. nia.
Qed.

(** What the check of an entry asks *)
Record entry_sound (own : Z -> Z) (self : Z) b (i : Z) : Prop := {
  es_proper : lo (entry (__idx (b_tier b)) i) < hi (entry (__idx (b_tier b)) i);
  es_order : i + 1 < __count (b_tier b) -> hi (entry (__idx (b_tier b)) i) <= lo (entry (__idx (b_tier b)) (i + 1));
  es_bounds x sh : sheet_of b i = Ok (x, sh) -> addr sh = lo (entry (__idx (b_tier b)) i) /\ addr_end sh = hi (entry (__idx (b_tier b)) i);
  es_owned : owned own self (lo (entry (__idx (b_tier b)) i)) (hi (entry (__idx (b_tier b)) i))
}.

Lemma check_entry_part own self b v i : led b -> 0 <= i < __count (b_tier b) -> repair v = false ->
  exists v', check_entry own self b v i = Ok v' /\ part v v' (entry_sound own self b i).
Proof using.
  intros [Hc Hs Hr] Hi Hv. destruct (Hs i Hi) as (x & sh & Es & _). destruct (Hr i Hi) as [H0 Hhi]. unfold check_entry.
  rewrite Es, (u32_small (i + 1)) by lia. cbn [bind].
  set (l := lo (entry (__idx (b_tier b)) i)) in *. set (h := hi (entry (__idx (b_tier b)) i)) in *.
  destruct (foreign_spec own self h (granule_rounds l h) l) as (f & -> & Hf); [done|done| | |].
  { unfold granule_rounds. lia. } { unfold granule_rounds. lia. }
  cbn [bind]. eexists. split; [done|]. eapply part_seen. eapply part_iff;
    [|eapply part_trans; [eapply part_trans; [eapply part_trans; [eapply part_trans|]|]|]; apply part_note_if].
  subst l h. rewrite Hf, andb_false_iff, !negb_false_iff, !Z.ltb_lt, Z.ltb_ge, Z.leb_le, !Z.eqb_eq. split.
  - intros ((((H1 & H2) & H3) & H4) & H5). split; try done; [lia|]. intros x' sh' E. rewrite Es in E. by injection E as <- <-.
  - intros [H1 H2 H3 H4]. destruct (H3 x sh Es). split_and!; try done. lia.
Qed.

(** Check and walk of a tier *)
Lemma check_tier_part own self b v : led b -> repair v = false ->
  exists v', __doctor_check_tier own self b v = Ok v' /\
    part v v' (forall i, 0 <= i < __count (b_tier b) -> entry_sound own self b i).
Proof using.
  intros HL Hr. unfold __doctor_check_tier.
  destruct (part_fold_res id (check_entry own self b) (entry_sound own self b) (seqZ 0 (__count (b_tier b))) v Hr) as (v' & E & P).
  { intros v1 i Hi%elem_of_seqZ Hr1. by apply check_entry_part; [|lia|]. }
  exists v'. split; [done|]. eapply part_iff; [|exact P]. setoid_rewrite elem_of_seqZ.
  split; intros Hp i Hi; apply Hp; lia.
Qed.

Definition books_sound b : Prop := forall i x sh, 0 <= i < __count (b_tier b) -> sheet_of b i = Ok (x, sh) -> wk_sound (__book sh).

Lemma walk_tier_part b v : led b -> repair v = false ->
  exists v', __doctor_walk_tier v b = Ok (v', b) /\ part v v' (books_sound b).
Proof using.
  intros HL Hr. unfold __doctor_walk_tier.
  destruct (part_fold_res (fun v => (v, b)) walk_sheet (fun i => forall x sh, sheet_of b i = Ok (x, sh) -> wk_sound (__book sh))
    (seqZ 0 (__count (b_tier b))) v Hr) as (v' & E & P).
  { intros v1 i Hi%elem_of_seqZ Hr1. destruct (le_sheet b HL i ltac:(lia)) as (x & sh & Es & Ex).
    destruct (walk_sheet_part b v1 i x sh Hr1 Es Ex) as (v2 & E2 & P2). exists v2. split; [done|].
    eapply part_iff; [|exact P2]. rewrite Es. split; [by intros ? ? ? [= <- <-]|by intros Hp; eapply Hp]. }
  exists v'. split; [done|]. eapply part_iff; [|exact P]. unfold books_sound. setoid_rewrite elem_of_seqZ.
  split; [intros Hp i x sh Hi; apply Hp; lia|intros Hp i Hi x sh; apply Hp; lia].
Qed.
End TierWalk.

(** ** The arena *)

Section ArenaWalk.
Context `{CL : ChunkLaws} `{HD : Hardening} `{ST : Settings} `{PL : Platform}.
Context (self : Z).

#[export] Instance view_walked (t : tier_id) : Walked (tv_B (view t)) :=
  match t with
  | Precise | Small => tlsf_walked
  | Medium => buddy_walked __class_medium
  | Large => buddy_walked __class_large
  | Huge => buddy_walked __class_huge
  end.

#[export] Instance view_walk_laws (t : tier_id) : @WalkLaws (tv_B (view t)) _ (view_book t) (view_laws t) (view_walked t).
Proof.
  destruct t.
  - exact (tlsf_walk_laws __class_precise).
  - exact (tlsf_walk_laws __class_small).
  - exact (buddy_walk_laws 4096 ltac:(done)).
  - exact (buddy_walk_laws 32768 ltac:(done)).
  - exact (buddy_walk_laws 262144 ltac:(done)).
Defined.

Lemma on_walked_at {X} t (fn : walked_fn X) a :
  on_walked t fn a = let* (x, b) := fn _ _ (view_walked t) (bucket_at a t) in Ok (x, set_bucket a t b).
Proof. by destruct t. Qed.

Lemma set_bucket_same a t : set_bucket a t (bucket_at a t) = a.
Proof. by destruct a, t. Qed.

(** Everything the doctor asks of an arena *)
Record arena_sound (a : arena) : Prop := {
  as_entries t i : 0 <= i < __count (b_tier (bucket_at a t)) -> entry_sound (owner_of a) self (bucket_at a t) i;
  as_books t : books_sound (bucket_at a t)
}.

Lemma every_tier (P : tier_id -> Prop) : (forall t, t ∈ all_tiers -> P t) <-> forall t, P t.
Proof. split; [|auto]. intros Hp t. apply Hp. destruct t; unfold all_tiers; set_solver. Qed.

Lemma walk_arena_part v a : repair v = false -> (forall t, led (bucket_at a t)) ->
  exists v', walk_arena self v a = Ok (v', a) /\ part v v' (arena_sound a).
Proof using CL.
  intros Hr HL. unfold walk_arena, __doctor_check_struct, __doctor_walk_blocks.
  destruct (part_fold_res (fun v => (v, a)) (fun '(v, a) t => on_walked t (check_fn self (owner_of a) v) a)
    (fun t => forall i, 0 <= i < __count (b_tier (bucket_at a t)) -> entry_sound (owner_of a) self (bucket_at a t) i)
    all_tiers (saw_arenas v 1 0) Hr) as (v1 & -> & P1).
  { intros v1 t _ Hr1. destruct (check_tier_part (owner_of a) self (bucket_at a t) v1 (HL t) Hr1) as (v2 & E & P).
    exists v2. split; [|done]. rewrite on_walked_at. unfold check_fn. rewrite E. cbn [bind]. by rewrite set_bucket_same. }
  cbn [bind]. assert (Hr1 : repair v1 = false) by (by rewrite (p_mode _ _ _ P1)).
  destruct (part_fold_res (fun v => (v, a)) (fun '(v, a) t => on_walked t (walk_fn v) a) (fun t => books_sound (bucket_at a t))
    all_tiers v1 Hr1) as (v2 & -> & P2).
  { intros v3 t _ Hr3. destruct (walk_tier_part (bucket_at a t) v3 (HL t) Hr3) as (v4 & E & P).
    exists v4. split; [|done]. rewrite on_walked_at. unfold walk_fn. rewrite E. cbn [bind]. by rewrite set_bucket_same. }
  exists v2. split; [done|]. apply part_iff with
    ((forall t, t ∈ all_tiers -> forall i, 0 <= i < __count (b_tier (bucket_at a t)) -> entry_sound (owner_of a) self (bucket_at a t) i) /\
     (forall t, t ∈ all_tiers -> books_sound (bucket_at a t))).
  { rewrite !every_tier. split; [intros []; by split|intros []; by split]. }
  eapply part_trans; [|exact P2]. destruct P1 as [G M R K]. by split.
Qed.

(** The owner table has the granules of every sheet as the arena's. *)
Definition granules_owned (a : arena) : Prop := forall t i, 0 <= i < __count (b_tier (bucket_at a t)) ->
  owned (owner_of a) self (lo (entry (__idx (b_tier (bucket_at a t))) i)) (hi (entry (__idx (b_tier (bucket_at a t))) i)).

(** ** A well-formed arena *)

Section Good.
Context (head_of : tier_id -> Z) (base : Z) (fresh : tier_id -> Prop) (rest : list run).
Context (a : arena) (gs : tier_id -> Z -> grants) (gm : Z -> grants) (runs : tier_id -> list run).
Context (OK : arena_ok head_of base fresh rest a gs gm runs).

Abbreviation tier_at t := (b_tier (bucket_at a t)).

Lemma good_sheets t : sheets_ok (max_of t) (tier_at t) (b_sheets (bucket_at a t)) (gs t).
Proof using OK. apply (bo_sheets _ _ _ (pa_bucket _ _ _ _ _ _ _ (ao_part _ _ _ _ _ _ _ _ OK t))). Qed.

Lemma good_sheet t i : 0 <= i < __count (tier_at t) -> exists sh, sheet_of (bucket_at a t) i = Ok (object (tier_at t) i, sh) /\
  b_sheets (bucket_at a t) !! object (tier_at t) i = Some sh /\ bk_rep (__book sh) (gs t (object (tier_at t) i)) /\
  addr sh = lo (entry (__idx (tier_at t)) i) /\ addr_end sh = hi (entry (__idx (tier_at t)) i).
Proof using OK CL.
  intros Hi. destruct (ok_at _ _ _ _ (good_sheets t) i Hi) as (sh & Hn & Hs & El & Eh). exists sh.
  destruct (node_sheet_object _ _ _ _ Hn) as [_ Hx]. unfold sheet_of. rewrite Hn. cbn [or_stuck bind].
  split; [done|]. split; [done|]. split; [apply Hs|done].
Qed.

Lemma good_led t : led (bucket_at a t).
Proof using OK CL.
  pose proof (ok_tier _ _ _ _ (good_sheets t)) as HT. split.
  - destruct (i_count _ _ HT) as [H0 H1]. split; [done|]. assert (max_of t < 2 ^ 32 - 1); [by destruct t|lia].
  - intros i Hi. destruct (good_sheet t i Hi) as (sh & Es & Ex & _). by exists (object (tier_at t) i), sh.
  - intros i Hi. destruct (entry_run head_of base fresh rest a gs gm runs t i OK Hi) as (r & Hr & H1 & H2).
    pose proof (ao_va _ _ _ _ _ _ _ _ OK) as HV. destruct (run_bounds base _ _ r HV) as (R0 & R1 & R2).
    { rewrite (all_runs_perm runs t), !elem_of_app. by left; left. }
    destruct (va_room _ _ _ HV) as [V0 V1]. change __sheet_align with 2097152. lia.
Qed.

(** Ownership apart, a well-formed arena is sound. *)
Lemma good_sound : granules_owned a -> arena_sound a.
Proof using OK CL.
  intros Ho. split.
  - intros t i Hi. pose proof (ok_tier _ _ _ _ (good_sheets t)) as HT. split.
    + by apply (i_proper _ _ HT).
    + intros Hn. apply (i_sorted _ _ HT); lia.
    + intros x sh E. destruct (good_sheet t i Hi) as (sh' & E' & _ & _ & H1 & H2). rewrite E in E'. injection E' as -> ->. done.
    + by apply Ho.
  - intros t i x sh Hi E. destruct (good_sheet t i Hi) as (sh' & E' & _ & HR & _). rewrite E in E'. injection E' as -> ->. by eapply wk_rep.
Qed.

(** ** Questions have answers *)

Lemma find_in_total p ts : exists r, find_in a p ts = Ok r /\ forall t i, r = Some (t, i) -> 0 <= i < __count (tier_at t).
Proof using OK CL.
  induction ts as [|t ts IH]; cbn [find_in]; [by exists None|]. rewrite tier_of_at.
  pose proof (ok_tier _ _ _ _ (good_sheets t)) as [Hc Hs Hp _ _ _].
  destruct (find_loop_spec (__idx (tier_at t)) (__count (tier_at t)) p (S (Z.to_nat (__count (tier_at t)))) 0 (__count (tier_at t) - 1))
    as (r & E & Hr); try done; try lia.
  unfold find_range. rewrite E. cbn [or_fuel bind]. destruct (Z.leb_spec 0 r) as [H0|H0]; [|done].
  exists (Some (t, r)). split; [done|]. intros t' i [= <- <-]. destruct Hr as [[-> _]|[Hr _]]; [lia|done].
Qed.

Lemma dispatch_total {X} p (none : X) (fn : Z -> tier_fn X) :
  (forall t i, 0 <= i < __count (tier_at t) -> exists x b e, fn i _ _ (view_book t) (view_cache t) t (bucket_at a t) (a_meta a) = Ok (x, b, e)) ->
  exists r, dispatch a p none fn = Ok r.
Proof using OK CL.
  intros Hf. unfold dispatch, find_tier. destruct (find_in_total p [Precise; Small; Medium; Large; Huge]) as (r & -> & Hr). cbn [bind].
  destruct r as [[t i]|]; [|by eexists]. rewrite on_tier_at. destruct (Hf t i (Hr t i eq_refl)) as (x & b & e & ->). by eexists.
Qed.

Lemma query_total {X} p (none : X) (fn : forall B, Book B -> tier_id -> sheet B -> res X) :
  (forall t sh, exists x, fn _ (view_book t) t sh = Ok x) -> exists x, query a p none fn = Ok x.
Proof using OK CL.
  intros Hf. unfold query.
  match goal with |- context [dispatch a p none ?g] => destruct (dispatch_total p none g) as ([x a'] & ->) end; [|by eexists].
  intros t i Hi. destruct (good_sheet t i Hi) as (sh & Es & _). cbv beta. rewrite Es. cbn [bind].
  destruct (Hf t sh) as (x & ->). by do 3 eexists.
Qed.

Lemma kind_total p : exists k, __doctor_tier_kind a p = Ok k /\
  (k <> 0 -> exists t i, find_tier a p = Ok (Some (t, i)) /\ 0 <= i < __count (tier_at t)).
Proof using OK CL.
  unfold __doctor_tier_kind, find_tier. destruct (find_in_total p [Precise; Small; Medium; Large; Huge]) as (r & -> & Hr). cbn [bind].
  eexists. split; [done|]. destruct r as [[t i]|]; [|done]. intros _. exists t, i. split; [done|]. by apply Hr.
Qed.

Lemma word_total p x : (exists t i, find_tier a p = Ok (Some (t, i)) /\ 0 <= i < __count (tier_at t)) -> exists n, word_at a p x = Ok n.
Proof using OK CL.
  intros (t & i & E & Hi). unfold word_at. rewrite E. cbn [bind]. rewrite on_walked_at. unfold word_fn.
  destruct (good_sheet t i Hi) as (sh & -> & _). cbn [bind]. by eexists.
Qed.
End Good.

(** An arena in order: the doctor may ask it anything. *)
Definition arena_good (a : arena) : Prop :=
  exists head_of base fresh rest gs gm runs, arena_ok head_of base fresh rest a gs gm runs.

#[export] Instance arena_laws : @AllocatorLaws arena (arena_allocator self).
Proof.
  refine (Build_AllocatorLaws arena (arena_allocator self) arena_good _ _ _ _ _ _ _).
  all: cbn [al_kind al_size al_word al_valid al_provenance al_cached al_walk arena_allocator].
  - intros a p (ho & bs & fr & re & gs & gm & ru & OK). destruct (kind_total _ _ _ _ _ _ _ _ OK p) as (k & E & _). by exists k.
  - intros a p (ho & bs & fr & re & gs & gm & ru & OK). apply (query_total _ _ _ _ _ _ _ _ OK). intros t sh. by eexists.
  - intros a p x k (ho & bs & fr & re & gs & gm & ru & OK) E Hk. apply (word_total _ _ _ _ _ _ _ _ OK).
    destruct (kind_total _ _ _ _ _ _ _ _ OK p) as (k' & E' & Hx). rewrite E in E'. injection E' as <-. by apply Hx.
  - intros a p (ho & bs & fr & re & gs & gm & ru & OK). unfold is_valid_block. case_match; [|by eexists].
    apply (query_total _ _ _ _ _ _ _ _ OK). intros t sh. by eexists.
  - intros a p (ho & bs & fr & re & gs & gm & ru & OK). unfold has_provenance, __vmap_within, find_tier. case_match; [|by eexists].
    destruct (find_in_total _ _ _ _ _ _ _ _ OK p [Precise; Small; Medium; Large; Huge]) as (r & -> & _). by eexists.
  - intros a p (ho & bs & fr & re & gs & gm & ru & OK). unfold __is_cached.
    match goal with |- context [dispatch a p false ?g] => destruct (dispatch_total _ _ _ _ _ _ _ _ OK p false g) as ([x a'] & ->) end; [|by eexists].
    intros t i Hi. by do 3 eexists.
  - intros a c G Hr. pose proof G as (ho & bs & fr & re & gs & gm & ru & OK).
    destruct (walk_arena_part c a Hr (good_led _ _ _ _ _ _ _ _ OK)) as (c' & E & _). by exists c', a.
Defined.

(** C37. The check of the tiers and the walks over their books, reporting only, on an
    arena whose entries lead to sheets: it returns, changes nothing, and notes
    nothing exactly when the arena is [arena_sound]; which a well-formed arena is
    that owns the granules of its sheets. *)
Theorem arena_walk_exact v a : repair v = false -> (forall t, led (bucket_at a t)) ->
  exists v', walk_arena self v a = Ok (v', a) /\ repairs v' = repairs v /\
    (anomalies v' = anomalies v <-> arena_sound a) /\
    (arena_good a -> granules_owned a -> anomalies v' = anomalies v).
Proof.
  intros Hr HL. destruct (walk_arena_part v a Hr HL) as (v' & E & [_ _ Hrep Hc]). exists v'.
  split; [done|]. split; [done|]. split; [done|]. intros (ho & bs & fr & re & gs & gm & ru & OK) Ho.
  apply Hc. by apply (good_sound _ _ _ _ _ _ _ _ OK).
Qed.
End ArenaWalk.
