(* ===== verification/DoctorSweep.v ===== *)
(** * What a sweep reports (src/src/doctor.hpp, lines 1671-1793)

    A sweep over a well-formed arena reports nothing but records that are not
    true of their blocks: the owner changed, the size recorded exceeds the block,
    the header is not what it was, or a byte between the size asked for and the
    end of the block is not the canary. *)

From S2P Require Import Prelude.
From S2P Require Import Config.
From S2P Require Import VaReserve.
From S2P Require Import Owner.
From S2P Require Import Book.
From S2P Require Import Sheet.
From S2P Require Import SheetProps.
From S2P Require Import Tier.
From S2P Require Import Harden.
From S2P Require Import Kernel.
From S2P Require Import Meta.
From S2P Require Import Bucket.
From S2P Require Import Arena.
From S2P Require Import Ledger.
From S2P Require Import Doctor.
From S2P Require Import DoctorProps.
From S2P Require Import Walk.
From S2P Require Import BucketInv.
From S2P Require Import Ground.
From S2P Require Import BucketProps.
From S2P Require Import BucketFree.
From S2P Require Import ArenaInv.
From S2P Require Import ArenaProps.
From S2P Require Import ArenaGrow.
From S2P Require Import ArenaPublic.
From S2P Require Import DoctorArena.

#[local] Open Scope Z_scope.

(** The loop over the slack of a block *)
Lemma slack_clean `{DoctorSettings} m n : forall a, slack_clobbered m a n = false <->
  forall x, a <= x < a + Z.of_nat n -> rd m x = __default_doctor_canary_byte.
Proof.
  induction n as [|n IH]; intros a; cbn [slack_clobbered]; [split; [intros _ x Hx; lia|done]|].
  destruct (Z.eqb_spec (rd m a) __default_doctor_canary_byte) as [E|E]; cbn [negb].
  - rewrite IH. split; intros Hx x Hr; [destruct (Z.eq_dec x a) as [->|]; [done|]|]; apply Hx; lia.
  - split; [done|]. intros Hx. exfalso. apply E, Hx. lia.
Qed.

(** A recorded allocation leaves the heap alone but for the bytes of the canary. *)
Lemma record_alloc_world {W} `{Allocator W} `{Hardening} `{DoctorSettings} `{Mapper} c s p req s' :
  record_alloc c s p req = Ok (tt, s') -> s_world s' = s_world s \/ exists m, s_world s' = al_set_bytes (s_world s) m.
Proof.
  unfold record_alloc. destruct (p =? 0); [intros [_ <-]%Ok_pair; by left|]. unfold enter.
  destruct (negb (__in_doctor s =? 0)); [intros [_ <-]%Ok_pair; by left|]. destruct (negb (__dr_lock_depth s =? 0)); [done|].
  destruct (lock (s_dr s)); [done|]. destruct (open_slot _ p) as [d [i|]]; cbn [bind]; [|intros [_ <-]%Ok_pair; by left].
  destruct (next_op _) as [op d'].
  match goal with |- context [__doctor_arm_canaries ?w ?p ?n ?o] => destruct (__doctor_arm_canaries w p n o) as [[[blk sh] w']| | |] eqn:E end;
    cbn [bind]; try done. intros [_ <-]%Ok_pair.
  cbn [s_world]. revert E. unfold __doctor_arm_canaries. case_match; [intros [= _ _ <-]; by left|].
  destruct (al_kind _ _) as [k| | |]; cbn [bind]; try done. destruct (al_size _ _) as [n| | |]; cbn [bind]; try done.
  destruct __default_doctor_canary; [|intros [= _ _ <-]; by left].
  match goal with |- bind ?e _ = _ -> _ => destruct e as [x| | |] end; cbn [bind]; try done.
  case_match; intros [= _ _ <-]; [right; by eexists|by left].
Qed.

Section DoctorSweep.
Context `{CL : ChunkLaws} `{HD : Hardening} `{ST : Settings} `{PL : Platform} `{DS : DoctorSettings}.
Context (self : Z) (head_of : tier_id -> Z) (ihead base : Z).
Context (a : arena) (gs : tier_id -> Z -> grants).
Context (OK : heap_ok head_of ihead base lazy a gs) (OW : granules_owned self a) (Hself : self <> 0).
Context (Hrz : __default_redzone = false).

#[local] Instance the_allocator : Allocator arena := arena_allocator self.

Abbreviation held_in t := (held (bucket_at a t) (gs t)).

(** ** A block in hand *)

(** The owner of a granule owns the addresses in it. *)
Lemma held_owner t p n u : held_in t p n u -> contains a p = true /\ owner_of a p = self.
Proof using OK OW CL.
  intros [_ (i & Hi & Hg)]. destruct OK as (gm & runs & gM & rM & RM & X & Hok & HA).
  pose proof (ao_part _ _ _ _ _ _ _ _ Hok t) as HP. pose proof (pa_bucket _ _ _ _ _ _ _ HP) as Hb.
  destruct (grant_range _ _ _ _ _ _ _ _ (bo_sheets _ _ _ Hb) Hi Hg) as (G1 & G2 & G3).
  destruct (ok_at _ _ _ _ (bo_sheets _ _ _ Hb) i Hi) as (sh & Hn & _ & El & Eh).
  destruct (gr_at _ _ _ _ (pa_ground _ _ _ _ _ _ _ HP) i sh Hi Hn) as (r & Hr & Hon). apply list_elem_of_lookup_2 in Hr.
  pose proof (ao_va _ _ _ _ _ _ _ _ Hok) as HV.
  assert (Hall : r ∈ all_runs runs ++ rM :: RM ++ X) by (rewrite (all_runs_perm runs t), !elem_of_app; by left; left).
  destruct (on_run_bounds base _ _ sh r HV Hall Hon) as [E1 E2]. destruct (run_bounds base _ _ r HV Hall) as (R0 & R1 & R2).
  destruct (va_room _ _ _ HV) as [V0 V1]. pose proof (va_at _ _ _ HV) as Vb. unfold va_of in Vb.
  destruct (v_run _ _ (va_inv _ _ _ HV) r) as [[q Eq] _]; [by apply elem_of_app; left|].
  set (v := w_va (p_world (m_process (a_meta a)))) in *.
  assert (Hc : forall x, base <= x < base + __va_reservation_size -> __va_contains v x = true /\
    __block_index (va_base v) x = (x - base) / 2097152).
  { intros x Hx. split; [apply contains_iff; lia|]. rewrite block_index_eq; rewrite ?Vb; lia || done. }
  unfold contains, owner_of, __owner_of. fold v. destruct (Hc p ltac:(lia)) as [-> Ip]. split; [done|]. cbn [negb].
  set (l := lo (entry (__idx (b_tier (bucket_at a t))) i)) in *. remember ((p - l) / 2097152) as k eqn:Ek.
  assert (Hk : 0 <= k /\ k * 2097152 <= p - l).
  { rewrite Ek. split; [apply Z.div_pos; lia|]. rewrite Z.mul_comm. apply Z.mul_div_le. lia. }
  assert (Hlk : base <= l + k * 2097152 < base + __va_reservation_size) by (clear Ek; lia).
  pose proof (OW t i Hi k) as Ho. fold l in Ho. change __sheet_align with 2097152 in Ho. specialize (Ho ltac:(lia) ltac:(lia)).
  unfold owner_of, __owner_of in Ho. fold v in Ho. destruct (Hc _ Hlk) as [Hx Ix].
  rewrite Hx in Ho. cbn [negb] in Ho. rewrite Ix in Ho. rewrite Ip, <- Ho. f_equal.
  replace (l + k * 2097152 - base) with ((q + k) * 2097152) by lia. rewrite Z.div_mul by lia.
  replace (p - base) with (p - l + q * 2097152) by lia. rewrite Z.div_add, <- Ek by lia. lia.
Qed.

Lemma held_sheet t p n u : held_in t p n u ->
  exists i sh, find_tier a p = Ok (Some (t, i)) /\ (exists x, sheet_of (bucket_at a t) i = Ok (x, sh)) /\
    exists L, bk_rep (__book sh) L /\ L !! p = Some (n, Live u).
Proof using OK CL.
  intros [_ Hg]. destruct OK as (gm & runs & gM & rM & RM & X & Hok & HA).
  destruct (find_tier_at _ _ _ _ a gs gm runs t p n _ Hok Hg) as (i & Ef & Hi & Hp).
  destruct (good_sheet _ _ _ _ a gs gm runs Hok t i Hi) as (sh & Es & _ & HR & _).
  pose proof (bo_sheets _ _ _ (pa_bucket _ _ _ _ _ _ _ (ao_part _ _ _ _ _ _ _ _ Hok t))) as HO.
  pose proof (grant_here _ _ _ _ i p n _ HO Hi Hp Hg) as HL. exists i, sh.
  split; [done|]. split; [by eexists|]. by eexists.
Qed.

Lemma sized_view t : wk_sized (B := tv_B (view t)) = is_tlsf t.
Proof. by destruct t. Qed.

(** The header of a block of [n] bytes, as the doctor keeps it *)
Definition mark_of (t : tier_id) (n : Z) : Z := wk_mark (B := tv_B (view t)) n.
Definition shadow_of (t : tier_id) (n : Z) : Z :=
  if is_tlsf t then mark_of t n else Z.lor __hdr_shadow_buddy_captured (u32 (mark_of t n)).

Lemma held_header t p n u : held_in t p n u ->
  let h := if is_tlsf t then p - __hdr_offset else p + n in
  word_at a p h = Ok (mark_of t n) /\ exists f, word_at a p (h + 4) = Ok f /\ __alloc_flags_ok f = true.
Proof using OK CL.
  intros Hh h. destruct (held_sheet t p n u Hh) as (i & sh & Ef & (x & Es) & L & HR & HL).
  destruct (wk_header _ _ _ _ _ HR HL) as [E1 E2]. rewrite sized_view in E1, E2. fold h in E1, E2. unfold word_at, word_fn.
  rewrite Ef. cbn [bind]. rewrite !on_walked_at, Es. cbn [bind]. rewrite E1. split; [done|]. by eexists.
Qed.

Lemma held_kind t p n u : held_in t p n u -> 0 < p ->
  __doctor_tier_kind a p = Ok (if is_tlsf t then 1 else 2) /\ has_provenance a p = Ok true.
Proof using OK CL.
  intros Hh Hp. destruct (held_sheet t p n u Hh) as (i & sh & Ef & _). unfold __doctor_tier_kind, has_provenance, __vmap_within.
  rewrite Ef. cbn [bind]. destruct (Z.eqb_spec p 0); [lia|]. by destruct (is_tlsf t).
Qed.

(** The check of the header passes. *)
Lemma held_header_ok t p n u : held_in t p n u -> n < 2 ^ 37 -> __check_header_ok a p n (if is_tlsf t then 1 else 2) = Ok true.
Proof using OK CL.
  intros Hh Hn. destruct (held_header t p n u Hh) as (E1 & f & E2 & Hf). unfold __check_header_ok, al_word. cbn [the_allocator arena_allocator].
  destruct (is_tlsf t) eqn:Et; cbn [Z.eqb Pos.eqb]; rewrite E1, E2; cbn [bind]; rewrite Hf, andb_true_r.
  - unfold mark_of. rewrite wk_mark_size by (by rewrite sized_view). by rewrite Z.eqb_refl.
  - destruct (wk_mark_order (B := tv_B (view t)) n) as [H0 H25]; [by rewrite sized_view|done|].
    unfold mark_of. by rewrite (proj2 (Z.leb_le _ _) H0), (proj2 (Z.leb_le _ _) H25).
Qed.

(** ** A record and its block *)

(** What the record [r] says of its block of [n] bytes in tier [t] *)
Record record_true (t : tier_id) (n : Z) (r : __rec) : Prop := {
  rt_owner : owner r = 0 \/ owner r = self;
  rt_size : req_size r <= n;
  rt_header : hdr_shadow r = 0 \/ hdr_shadow r = shadow_of t n;
  rt_slack x : Z.land (Ledger.flags r) __rec_flag_chunk = 0 ->
    key r + req_size r <= x < key r + n -> rd (a_bytes a) x = __default_doctor_canary_byte
}.

Context (Hcan : __default_doctor_canary = true).

(** The header as the sweep reads it *)
Lemma held_shadow t p n u : held_in t p n u ->
  (if (if is_tlsf t then 1 else 2) =? 1 then word_at a p (p - __hdr_offset)
   else let* ord := word_at a p (p + n) in Ok (Z.lor __hdr_shadow_buddy_captured (u32 ord))) = Ok (shadow_of t n).
Proof using OK CL.
  intros Hh. destruct (held_header t p n u Hh) as (E & _). unfold shadow_of.
  destruct (is_tlsf t); cbn [Z.eqb Pos.eqb]; by rewrite E.
Qed.

Lemma sweep_held t n u r v : live_rec r = true -> held_in t (key r) n u -> 0 <= req_size r -> n < 2 ^ 37 -> repair v = false ->
  exists v', sweep_rec a v r = Ok v' /\ part v v' (record_true t n r).
Proof using Hcan Hrz Hself OW OK CL.
  intros Hl Hh Hq Hn Hr. pose proof (ex_intro _ t Hh : aheld a gs (key r) n u) as Ha.
  destruct (held_bounds head_of ihead base a gs (key r) n u OK Ha) as (Hp & Hn0 & _).
  destruct (held_answers head_of ihead base Hrz a gs (key r) n u OK Ha Hp) as (Es & Ev & Ec & _).
  destruct (held_owner t _ n u Hh) as [Eco Eow]. destruct (held_kind t _ n u Hh Hp) as [Ek Epr].
  pose proof (held_header_ok t _ n u Hh Hn) as Eh. pose proof (held_shadow t _ n u Hh) as Esh.
  unfold sweep_rec, probe_live. cbn [al_contains al_owner_of al_tls al_provenance al_size al_kind al_valid al_word al_bytes the_allocator arena_allocator].
  rewrite Hl, Eco, Eow, Z.eqb_refl, (proj2 (Z.eqb_neq _ _) Hself), Epr. cbn [negb bind]. rewrite Es, Ek. cbn [bind]. rewrite Ev. cbn [negb bind].
  assert (Enz : negb (n =? 0) = true) by (apply negb_true_iff, Z.eqb_neq; lia).
  assert (Ekz : negb ((if is_tlsf t then 1 else 2) =? 0) = true) by (by destruct (is_tlsf t)).
  rewrite Enz, Ekz. cbn [andb]. cbn [the_allocator] in Eh. rewrite Eh. cbn [bind negb andb]. rewrite Hcan, Hrz. cbn [negb note_if].
  assert (Esd : (if negb (hdr_shadow r =? 0) then let* cur := (if (if is_tlsf t then 1 else 2) =? 1 then word_at a (key r) (key r - __hdr_offset)
      else let* ord := word_at a (key r) (key r + n) in Ok (Z.lor __hdr_shadow_buddy_captured (u32 ord))) in Ok (cur =? hdr_shadow r) else Ok true)
    = Ok ((hdr_shadow r =? 0) || (shadow_of t n =? hdr_shadow r))).
  { destruct (hdr_shadow r =? 0); cbn [negb orb]; [done|]. by rewrite Esh. }
  rewrite Esd. cbn [bind]. set (so := (hdr_shadow r =? 0) || (shadow_of t n =? hdr_shadow r)).
  set (v3 := note_if (negb so) _).
  assert (P3 : part v v3 ((owner r = 0 \/ owner r = self) /\ req_size r <= n /\ so = true)).
  { subst v3. eapply part_iff with (((negb (owner r =? 0) && negb (self =? owner r)) = false /\ (n <? req_size r) = false) /\ negb so = false).
    - rewrite andb_false_iff, !negb_false_iff, !Z.eqb_eq, Z.ltb_ge. intuition congruence.
    - destruct (part_note_if (saw_live v 1 0) (negb (owner r =? 0) && negb (self =? owner r))) as [G M R K].
      eapply part_trans; [eapply part_trans|]; [by split; [exact G|exact M|exact R|exact K]|apply part_note_if|apply part_note_if]. }
  assert (Hso : so = true <-> hdr_shadow r = 0 \/ hdr_shadow r = shadow_of t n).
  { subst so. rewrite orb_true_iff, !Z.eqb_eq. intuition congruence. }
  destruct (so && (req_size r <? n) && (Z.land (Ledger.flags r) __rec_flag_chunk =? 0)) eqn:Eg.
  - apply andb_true_iff in Eg as [[Eso Elt%Z.ltb_lt]%andb_true_iff Efl%Z.eqb_eq]. eexists. split; [done|].
    eapply part_iff; [|eapply part_trans; [exact P3|apply part_note_if]]. rewrite slack_clean.
    replace (key r + req_size r + Z.of_nat (Z.to_nat (n - req_size r))) with (key r + n) by lia. split.
    + intros [(H1 & H2 & H3) H4]. split; [done|done|by apply Hso|]. intros x _. apply H4.
    + intros [H1 H2 H3 H4]. split; [|by intros; apply H4]. by rewrite Hso.
  - exists v3. split; [done|]. eapply part_iff; [|exact P3]. rewrite Hso. split.
    + intros (H1 & H2 & H3). split; try done. intros x Hfl Hx. exfalso. revert Eg. apply not_false_iff_true.
      rewrite Hfl, (proj2 Hso H3), (proj2 (Z.ltb_lt _ _)) by lia. done.
    + intros [H1 H2 H3 _]. done.
Qed.

(** ** The sweep *)

Context (Hre : __default_doctor_rescue = false).

(** The records the sweep looks at are of blocks in hand, of less than 128 GiB. *)
Definition of_blocks (d : __doctor_state) : Prop := forall r, r ∈ all_slots d -> live_rec r = true ->
  0 <= req_size r /\ exists t n u, held_in t (key r) n u /\ n < 2 ^ 37.

Definition all_true (d : __doctor_state) : Prop := forall r t n u, r ∈ all_slots d -> live_rec r = true ->
  held_in t (key r) n u -> record_true t n r.

Lemma held_unique t n u t' n' u' p : held_in t p n u -> held_in t' p n' u' -> t = t' /\ n = n'.
Proof using OK CL.
  intros Hh Hh'. destruct (held_sheet t p n u Hh) as (i & sh & E & (x & Es) & L & HR & HL).
  destruct (held_sheet t' p n' u' Hh') as (i' & sh' & E' & (x' & Es') & L' & HR' & HL'). rewrite E in E'. injection E' as <- <-.
  rewrite Es in Es'. injection Es' as _ <-. split; [done|].
  destruct (bk_grant _ _ _ _ _ HR HL) as (_ & _ & _ & _ & _ & _ & E1). destruct (bk_grant _ _ _ _ _ HR' HL') as (_ & _ & _ & _ & _ & _ & E2). lia.
Qed.

Lemma sweep_exact d : of_blocks d -> exists m c, __sweep_all_locked d a = Ok (m, c, a) /\ (m = 0 <-> all_true d).
Proof using Hre Hcan Hrz Hself OW OK CL.
  intros Hof. unfold __sweep_all_locked. cbn [al_arenas the_allocator arena_allocator fold_res]. unfold sweep_arena at 1.
  cbn [al_tls al_walk the_allocator arena_allocator]. rewrite Z.eqb_refl, Hre. cbn [negb andb].
  pose proof OK as (gm & runs & gM & rM & RM & X & Hok & HA).
  destruct (walk_arena_part self (set_repair sweep_init false) a eq_refl (good_led _ _ _ _ _ _ _ _ Hok)) as (c & E & P).
  rewrite E. cbn [bind].
  assert (Ec : anomalies c = 0 /\ repairs c = 0).
  { destruct P as [_ _ R K]. split; [|exact R]. apply K. by apply (good_sound self _ _ _ _ _ _ _ _ Hok). }
  destruct (part_fold_res id (sweep_rec a) (fun r => live_rec r = true -> forall t n u, held_in t (key r) n u -> record_true t n r)
    (all_slots d) (set_repair c false) eq_refl) as (c' & E' & [_ _ R' K']).
  { intros v r Hin Hr. destruct (live_rec r) eqn:Hl.
    - destruct (Hof r Hin Hl) as (Hq & t & n & u & Hh & Hn). destruct (sweep_held t n u r v Hl Hh Hq Hn Hr) as (v' & Ev & Pv).
      exists v'. split; [exact Ev|]. eapply part_iff; [|exact Pv]. split; [|intros Ht; by apply (Ht eq_refl t n u)].
      intros Ht _ t' n' u' Hh'. by destruct (held_unique t n u t' n' u' _ Hh Hh') as [<- <-].
    - exists v. unfold sweep_rec. rewrite Hl. cbn [negb]. split; [done|]. eapply part_iff; [|apply part_refl]. done. }
  unfold id in E'. rewrite E'. cbn [bind]. eexists _, c'. split; [done|]. cbn [set_repair anomalies repairs] in *.
  destruct Ec as [Ea Er]. rewrite Ea in K'. rewrite R', Er, Z.add_0_r, K'. unfold all_true.
  split; [intros Hx r t n u Hin Hl Hh; by apply (Hx r Hin Hl t n u)|intros Hx r Hin Hl t n u Hh; by apply (Hx r t n u)].
Qed.

(** C6. [fsck] without rescue, on a well-formed arena that owns its granules, with a
    ledger whose live records are of blocks in hand: it returns, changes nothing,
    and the answer is 0 exactly when every record is true of its block.  So it
    raises no alarm without cause, and a byte written into the slack of a block
    is noticed. *)
Theorem fsck_exact s : quiet s -> s_world s = a -> of_blocks (s_dr s) ->
  exists m s', fsck s = Ok (m, s') /\ s_world s' = a /\ quiet s' /\ (m = 0 <-> all_true (s_dr s)).
Proof using Hre Hcan Hrz Hself OW OK CL.
  intros Hq Hw Hof. destruct (sweep_exact (set_lock (s_dr s) true) Hof) as (m & c & E & Hm).
  destruct (enter_quiet 0 s (fun d w => let* (n, _, w) := __sweep_all_locked d w in Ok (n, d, w)) m (set_lock (s_dr s) true) a Hq)
    as [E' Hq']; [rewrite Hw, E; done|].
  exists m. eexists. unfold fsck. rewrite E'. split; [done|]. split; [done|]. split; [done|]. exact Hm.
Qed.
End DoctorSweep.
