(* ===== verification/Tapi.v ===== *)
(** * Which thread has which arena (src/src/tapi.hpp)

    Threads claim arenas from a pool of slots and, when the pool is exhausted,
    from a list of further arenas that only grows; they give them back when they
    exit, and an arena whose thread died without doing so is taken over.  Each
    access to shared memory is a step; between the steps of one thread the
    others may do any.  Memory is sequentially consistent in the model. *)

From stdpp Require Import functions.
From S2P Require Import Prelude.

#[local] Open Scope Z_scope.

Definition __max_arenas : Z := 64.
Definition __arena_slot_free : Z := -1.

(** An arena by where it is: a slot of the pool or a node of the overflow list *)
Inductive aref := Slot (i : Z) | Node (k : Z).

#[export] Instance aref_eq_dec : EqDecision aref.
Proof. solve_decision. Defined.

(** Where a thread is in [__claim_arena_slow] or [__release_tls_arena].  [Out] is
    outside of both. *)
Inductive pc :=
  | Out
  | Start                                       (* load [__arena_pool_next] *)
  | Scan (lim i : Z)                            (* first loop: exchange the owner of slot [i] *)
  | Take (i : Z)                                (* read [__arena_pool[i]] of the slot won *)
  | Start2                                      (* load [__arena_pool_next] again *)
  | Dead (lim i : Z)                            (* second loop: read [__arena_pool[i]] *)
  | DeadOwner (lim i : Z)                       (* load its owner *)
  | DeadAlive (lim i o : Z)                     (* [__owner_alive(owner)] *)
  | DeadCas (lim i o : Z)                       (* exchange it *)
  | Grow0                                       (* [cur] is loaded *)
  | Grow (cur : Z)                              (* exchange [__arena_pool_next] *)
  | Make (cur : Z)                              (* construct, then write [__arena_pool[cur]] *)
  | Own (cur : Z)                               (* store the owner of the new slot *)
  | Walk0                                       (* load [__overflow_head] *)
  | Walk (l : list Z)                           (* load the owner of the first node of [l] *)
  | WalkAlive (k o : Z) (l : list Z)
  | WalkCas (k o : Z) (l : list Z)
  | Build                                       (* a node is made, its owner stored *)
  | Push0 (k : Z)                               (* [node->next] is loaded *)
  | Push (k : Z) (l : list Z)                   (* exchange [__overflow_head] *)
  | Won (a : aref)                              (* drain *)
  | Done (a : aref)                             (* write [__tls_arena] and return *)
  | RStart                                      (* read [__tls_arena] *)
  | RScan (a : aref) (i : Z)                    (* compare [__arena_pool[i]] *)
  | RWalk0 (a : aref)
  | RWalk (a : aref) (l : list Z)
  | RRead (a : aref)                            (* load the owner *)
  | RDrain (a : aref)
  | RStore (a : aref)                           (* store [__arena_slot_free] *)
  | RClear                                      (* [__tls_arena = nullptr] *)
  | Crash.                                      (* a null arena is followed *)

(** The shared variables, the thread-local ones by thread, and the threads alive
    and ever alive.  [overflow] is the list from [__overflow_head] along [next]. *)
Record pool := Pool {
  __arena_pool_next : Z;
  __arena_pool : Z -> bool;
  owner : aref -> Z;
  overflow : list Z;
  new_node : Z;
  pcs : Z -> pc;
  __tls_arena : Z -> option aref;
  alive : gset Z;
  ever : gset Z
}.

Definition set_next s v := Pool v (__arena_pool s) (owner s) (overflow s) (new_node s) (pcs s) (__tls_arena s) (alive s) (ever s).
Definition set_pool s i := Pool (__arena_pool_next s) (<[i := true]> (__arena_pool s)) (owner s) (overflow s) (new_node s) (pcs s) (__tls_arena s) (alive s) (ever s).
Definition set_owner s a v := Pool (__arena_pool_next s) (__arena_pool s) (<[a := v]> (owner s)) (overflow s) (new_node s) (pcs s) (__tls_arena s) (alive s) (ever s).
Definition set_overflow s l := Pool (__arena_pool_next s) (__arena_pool s) (owner s) l (new_node s) (pcs s) (__tls_arena s) (alive s) (ever s).
Definition bump_node s := Pool (__arena_pool_next s) (__arena_pool s) (owner s) (overflow s) (new_node s + 1) (pcs s) (__tls_arena s) (alive s) (ever s).
Definition goto s t p := Pool (__arena_pool_next s) (__arena_pool s) (owner s) (overflow s) (new_node s) (<[t := p]> (pcs s)) (__tls_arena s) (alive s) (ever s).
Definition set_tls s t a := Pool (__arena_pool_next s) (__arena_pool s) (owner s) (overflow s) (new_node s) (pcs s) (<[t := a]> (__tls_arena s)) (alive s) (ever s).
Definition set_threads s l e := Pool (__arena_pool_next s) (__arena_pool s) (owner s) (overflow s) (new_node s) (pcs s) (__tls_arena s) l e.

(** [tgkill(pid, tid, 0)] succeeds for a thread that lives. *)
Definition __owner_alive (s : pool) (tid : Z) : bool := if tid =? 0 then false else bool_decide (tid ∈ alive s).

Definition lim_of (n : Z) : Z := if __max_arenas <? n then __max_arenas else n.

(** [compare_exchange_strong] on the owner of [a] *)
Definition cas_owner (s : pool) (t : Z) (a : aref) (expect : Z) (won lost : pc) : pool :=
  if owner s a =? expect then goto (set_owner s a t) t won else goto s t lost.

(** A step of thread [t] in [__claim_arena_slow]; [fail] is a spurious failure of
    the weak exchange, which [Push] is; the others are strong.  Where memory for a
    slot or a node is refused the process ends, and no thread has a next step: at
    [Make] and [Build] the step is the one of the process that goes on. *)
Definition claim_step (t : Z) (fail : bool) (s : pool) : pool :=
  match pcs s t with
  | Start => goto s t (Scan (lim_of (__arena_pool_next s)) 0)
  | Scan lim i =>
      if i <? lim then cas_owner s t (Slot i) __arena_slot_free (Take i) (Scan lim (i + 1)) else goto s t Start2
  | Take i => goto s t (if __arena_pool s i then Won (Slot i) else Crash)
  | Start2 => goto s t (Dead (lim_of (__arena_pool_next s)) 0)
  | Dead lim i =>
      if i <? lim then goto s t (if __arena_pool s i then DeadOwner lim i else Dead lim (i + 1)) else goto s t Grow0
  | DeadOwner lim i =>
      let o := owner s (Slot i) in
      goto s t (if (o <=? 0) || (o =? t) then Dead lim (i + 1) else DeadAlive lim i o)
  | DeadAlive lim i o => goto s t (if __owner_alive s o then Dead lim (i + 1) else DeadCas lim i o)
  | DeadCas lim i o => cas_owner s t (Slot i) o (Won (Slot i)) (Dead lim (i + 1))
  | Grow0 => goto s t (Grow (__arena_pool_next s))
  | Grow cur =>
      if cur <? __max_arenas then
        if __arena_pool_next s =? cur then goto (set_next s (u32 (cur + 1))) t (Make cur)
        else goto s t (Grow (__arena_pool_next s))
      else goto s t Walk0
  | Make cur => goto (set_pool s cur) t (Own cur)
  | Own cur => goto (set_owner s (Slot cur) t) t (Done (Slot cur))
  | Walk0 => goto s t (Walk (overflow s))
  | Walk [] => goto s t Build
  | Walk (k :: l) =>
      let o := owner s (Node k) in
      goto s t (if o =? __arena_slot_free then WalkCas k o l
                else if (0 <? o) && negb (o =? t) then WalkAlive k o l else Walk l)
  | WalkAlive k o l => goto s t (if __owner_alive s o then Walk l else WalkCas k o l)
  | WalkCas k o l => cas_owner s t (Node k) o (Won (Node k)) (Walk l)
  | Build => goto (set_owner (bump_node s) (Node (new_node s)) t) t (Push0 (new_node s))
  | Push0 k => goto s t (Push k (overflow s))
  | Push k l =>
      if negb fail && bool_decide (head (overflow s) = head l)
      then goto (set_overflow s (k :: l)) t (Done (Node k)) else goto s t (Push k (overflow s))
  | Won a => goto s t (Done a)
  | Done a => goto (set_tls s t (Some a)) t Out
  | _ => s
  end.

(** A step in [__release_tls_arena]; [initial] is the thread that only ends with
    the process. *)
Definition release_step (initial t : Z) (s : pool) : pool :=
  match pcs s t with
  | RStart =>
      match __tls_arena s t with
      | None => goto s t Out
      | Some a => if t =? initial then goto s t Out else goto s t (RScan a 0)
      end
  | RScan a i =>
      if i <? __max_arenas then
        goto s t (if __arena_pool s i && bool_decide (a = Slot i) then RRead a else RScan a (i + 1))
      else goto s t (RWalk0 a)
  | RWalk0 a => goto s t (RWalk a (overflow s))
  | RWalk a [] => goto s t RClear
  | RWalk a (k :: l) => goto s t (if bool_decide (a = Node k) then RRead a else RWalk a l)
  | RRead a => goto s t (if owner s a =? t then RDrain a else RClear)
  | RDrain a => goto s t (RStore a)
  | RStore a => goto (set_owner s a __arena_slot_free) t RClear
  | RClear => goto (set_tls s t None) t Out
  | _ => s
  end.

(** The owner that the next exchange of a thread expects: one that was dead when
    the thread looked *)
Definition expects (p : pc) : option Z := match p with DeadCas _ _ o | WalkCas _ o _ => Some o | _ => None end.

(** The number [t] was never used, or no living thread is about to exchange it. *)
Definition harmless (s : pool) (t : Z) : Prop := t ∉ ever s \/ set_Forall (fun u => expects (pcs s u) <> Some t) (alive s).

(** Everything that can happen next.  The kernel may give a new thread the number
    of a dead one; [reuse] says whether it may do so even while another thread
    stands between the look at that number and the exchange that expects it. *)
Inductive pool_step (initial : Z) (reuse : bool) : pool -> pool -> Prop :=
  | ps_claim s t fail : t ∈ alive s -> pool_step initial reuse s (claim_step t fail s)
  | ps_release s t : t ∈ alive s -> pool_step initial reuse s (release_step initial t s)
  | ps_call s t : t ∈ alive s -> pcs s t = Out -> __tls_arena s t = None -> pool_step initial reuse s (goto s t Start)
  | ps_exit s t : t ∈ alive s -> pcs s t = Out -> pool_step initial reuse s (goto s t RStart)
  | ps_die s t : pool_step initial reuse s (set_threads s (alive s ∖ {[ t ]}) (ever s))
  | ps_spawn s t : 0 < t -> t ∉ alive s -> (reuse = false -> harmless s t) ->
      pool_step initial reuse s (set_threads (set_tls (goto s t Out) t None) ({[ t ]} ∪ alive s) ({[ t ]} ∪ ever s)).

Definition pool_init : pool := Pool 0 (fun _ => false) (fun _ => 0) [] 0 (fun _ => Out) (fun _ => None) ∅ ∅.

(** The arena thread [t] may touch at this moment *)
Definition mine (p : pc) (tl : option aref) : option aref :=
  match p with
  | Out | RStart => tl
  | Take i => Some (Slot i)
  | Push0 k | Push k _ => Some (Node k)
  | Won a | Done a | RScan a _ | RWalk0 a | RWalk a _ | RRead a | RDrain a | RStore a => Some a
  | _ => None
  end.
Definition has (s : pool) (t : Z) (a : aref) : Prop := t ∈ alive s /\ mine (pcs s t) (__tls_arena s t) = Some a.

(** ** The invariant *)





(** ** Every step keeps it *)














(** ** Claiming and releasing keep it *)










(** ** What the interface promises *)






(** The steps of a claim that runs alone, from its end back to its start; [I]
    holds of the states the thread goes through. *)
Section Alone.
Context (t : Z).


















End Alone.


(** ** Runs *)

#[export] Instance harmless_dec s t : Decision (harmless s t).
Proof. unfold harmless. apply _. Defined.

(** What the environment may do, for executing runs *)
Inductive act := AClaim (t : Z) | ARelease (t : Z) | ACall (t : Z) | AExit (t : Z) | ADie (t : Z) | ASpawn (t : Z).

Definition act_step (initial : Z) (s : pool) (x : act) : pool :=
  match x with
  | AClaim t => claim_step t false s
  | ARelease t => release_step initial t s
  | ACall t => goto s t Start
  | AExit t => goto s t RStart
  | ADie t => set_threads s (alive s ∖ {[ t ]}) (ever s)
  | ASpawn t => set_threads (set_tls (goto s t Out) t None) ({[ t ]} ∪ alive s) ({[ t ]} ∪ ever s)
  end.

Definition act_ok (reuse : bool) (s : pool) (x : act) : bool :=
  match x with
  | AClaim t | ARelease t => bool_decide (t ∈ alive s)
  | ACall t => bool_decide (t ∈ alive s /\ __tls_arena s t = None) && match pcs s t with Out => true | _ => false end
  | AExit t => bool_decide (t ∈ alive s) && match pcs s t with Out => true | _ => false end
  | ADie t => true
  | ASpawn t => (0 <? t) && bool_decide (t ∉ alive s) && (reuse || bool_decide (harmless s t))
  end.

Fixpoint run (initial : Z) (reuse : bool) (s : pool) (l : list act) : option pool :=
  match l with
  | [] => Some s
  | x :: l => if act_ok reuse s x then run initial reuse (act_step initial s x) l else None
  end.

Lemma run_sound initial reuse l : forall s s', run initial reuse s l = Some s' -> rtc (pool_step initial reuse) s s'.
Proof.
  induction l as [|x l IH]; intros s s' E; cbn [run] in E; [injection E as ->; apply rtc_refl|].
  destruct (act_ok reuse s x) eqn:Ea; [|done]. apply rtc_l with (act_step initial s x); [|by apply IH]. clear E.
  destruct x as [t|t|t|t|t|t]; cbn [act_ok act_step] in *; rewrite ?andb_true_iff, ?bool_decide_eq_true in Ea.
  - by constructor.
  - by constructor.
  - destruct Ea as [[Ha Hn] Hp]. constructor; try done. by destruct (pcs s t).
  - destruct Ea as [Ha Hp]. constructor; try done. by destruct (pcs s t).
  - by constructor.
  - destruct Ea as [[Ha Hn] Hr]. apply Z.ltb_lt in Ha. constructor; try done. intros ->. by apply bool_decide_eq_true in Hr.
Qed.

Lemma living s t : bool_decide (t ∈ alive s) = true -> t ∈ alive s.
Proof. apply bool_decide_eq_true. Qed.

(** Thread [t] starts and claims with [n] steps. *)
Definition claims (t : Z) (n : nat) : list act := ASpawn t :: ACall t :: repeat (AClaim t) n.







(** Thread 5 dies with slot 0; 2 sees that and is about to take the slot over; 3
    takes it over, exits and gives it back; a new thread gets the number 5 and
    the slot; and 2 completes its exchange, which expects the owner 5. *)
Definition taking_over : list act :=
  [ASpawn 1] ++ claims 5 9 ++ [ADie 5] ++ claims 2 7 ++ claims 3 10 ++ AExit 3 :: repeat (ARelease 3) 6 ++
  claims 5 5 ++ repeat (AClaim 2) 3.

(** C27. If the kernel reuses a thread number while another thread is about to
    exchange it, two living threads can have the same arena. *)
Theorem reused_number_shares_arena :
  exists s, rtc (pool_step 1 true) pool_init s /\ has s 2 (Slot 0) /\ has s 5 (Slot 0).
Proof.
  assert (E : is_Some (run 1 true pool_init taking_over)) by (vm_compute; eauto).
  exists (default pool_init (run 1 true pool_init taking_over)). split; [|split; split].
  - apply (run_sound 1 true taking_over). by destruct E as [s ->].
  - apply living; vm_compute; reflexivity.
  - vm_compute. reflexivity.
  - apply living; vm_compute; reflexivity.
  - vm_compute. reflexivity.
Qed.
