(* ===== verification/Malloc.v ===== *)
(** * The public interface (src/src/malloc.hpp, malloc-c.hpp and the routing of tapi.hpp)

    One call at a time, from the thread at hand: a call is routed to the arena of
    the thread or to the one that owns the address.  The arenas share the process
    and the user memory, which an arena is handed when it is entered.  An
    exception ([micron::exc]) ends the run like an abort; diagnostic hooks are
    left out, and so are the overloads that only cast a pointer.

    [h_bytes] holds what clients and this interface write.  The headers of the
    books are not in it, so what [read_prefix] finds in front of a block that is
    not over-aligned is what a client wrote there; the source finds a header,
    and tells it from a prefix by the guard. *)

From S2P Require Import Prelude.
From S2P Require Import Config.
From S2P Require Import Owner.
From S2P Require Import Sheet.
From S2P Require Import External.
From S2P Require Import Harden.
From S2P Require Import Kernel.
From S2P Require Import Meta.
From S2P Require Import Arena.
From S2P Require Import ArenaApi.

(** The arenas by address, the one of this thread, and what they share *)
Record heap := Heap {
  h_arenas : gmap Z arena;
  h_tls : option Z;
  h_process : process;
  h_bytes : zmap;
  h_ext : registry
}.

(** ** Words in byte memory *)

Fixpoint st_bytes (m : zmap) (a v : Z) (n : nat) : zmap :=
  match n with O => m | S n => st_bytes (wr m a (u8 v)) (a + 1) (Z.shiftr v 8) n end.
Fixpoint ld_bytes (m : zmap) (a : Z) (n : nat) : Z :=
  match n with O => 0 | S n => u8 (rd m a) + Z.shiftl (ld_bytes m (a + 1) n) 8 end.

(** A pointer-sized store and load, little endian *)
Definition st64 (m : zmap) (a v : Z) : zmap := st_bytes m a v 8.
Definition ld64 (m : zmap) (a : Z) : Z := ld_bytes m a 8.

(** [micron::exc] *)
Definition exc {A} : res A := Abort.

Section Malloc.
Context `{ChunkOps} `{Hardening} `{Settings} `{Platform}.
(** The embedded nodes of each arena; which arena the pool gives a thread that
    has none and whether it must be constructed ([Tapi]); slots in a page of the
    external registry *)
Context (heads : Z -> tier_id -> Z) (internal_heads : Z -> Z) (pick : heap -> Z * bool) (page_size : Z).

Definition set_bytes (h : heap) (m : zmap) : heap := Heap (h_arenas h) (h_tls h) (h_process h) m (h_ext h).
Definition set_ext (h : heap) (r : registry) : heap := Heap (h_arenas h) (h_tls h) (h_process h) (h_bytes h) r.

(** An arena with the process and the memory of the moment, and back *)
Definition enter (h : heap) (x : arena) : arena := set_user_bytes (set_meta x (set_process (a_meta x) (h_process h))) (h_bytes h).
Definition leave (h : heap) (a : Z) (x : arena) : heap :=
  Heap (<[a := x]> (h_arenas h)) (h_tls h) (m_process (a_meta x)) (a_bytes x) (h_ext h).

(** A member function of the arena at [a] *)
Definition on_arena {X} (h : heap) (a : Z) (f : arena -> res (X * arena)) : res (X * heap) :=
  let* x := or_stuck (h_arenas h !! a) in
  let* (r, x) := f (enter h x) in
  Ok (r, leave h a x).
Definition ask_arena {X} (h : heap) (a : Z) (f : arena -> res X) : res X :=
  let* x := or_stuck (h_arenas h !! a) in f (enter h x).

(** ** Routing (tapi.hpp) *)

Definition drain_arena (h : heap) (a : Z) : res heap :=
  let* (_, h) := on_arena h a (fun x => let* x := __maybe_drain (heads a) x in Ok (tt, x)) in Ok h.

(** What [__claim_arena_slow] does with the arena the pool gives *)
Definition claim_arena (h : heap) : res (Z * heap) :=
  let '(a, fresh) := pick h in
  let* h := if fresh : bool then let* x := __arena a (heads a) (internal_heads a) (h_process h) in Ok (leave h a x)
            else drain_arena h a in
  Ok (a, Heap (h_arenas h) (Some a) (h_process h) (h_bytes h) (h_ext h)).

Definition __current_arena (h : heap) : res (Z * heap) :=
  match h_tls h with
  | Some a => let* h := drain_arena h a in Ok (a, h)
  | None => claim_arena h
  end.

Definition arena_owner (h : heap) (p : Z) : Z := let w := p_world (h_process h) in __owner_of (w_va w) (w_owners w) p.

Definition __route_dealloc (h : heap) (p sz : Z) : res (bool * heap) :=
  let* (me, h) := __current_arena h in
  let here := on_arena h me (fun x => if negb (sz =? 0) then pop_chunk (heads me) x (Chunk p sz) else pop (heads me) x p) in
  if negb __default_multithread_safe then here else
  let owner := arena_owner h p in
  if (owner =? 0) || (owner =? me) then here else
  let* (_, h) := on_arena h owner (fun x => __remote_push x p sz) in
  Ok (true, h).

Definition __route_retire (h : heap) (p : Z) : res (bool * heap) :=
  let* (me, h) := __current_arena h in
  let here := on_arena h me (fun x => ts_pop (heads me) x p) in
  if negb __default_multithread_safe then here else
  let owner := arena_owner h p in
  if (owner =? 0) || (owner =? me) then here else
  let* (_, h) := on_arena h owner (fun x => __remote_push x p __remote_tombstone_size) in
  Ok (true, h).

Definition __query_arena (h : heap) (p : Z) : res (Z * heap) :=
  if negb __default_multithread_safe then __current_arena h else
  let owner := arena_owner h p in
  if negb (owner =? 0) then Ok (owner, h) else __current_arena h.

(** ** Questions *)

Definition is_present (h : heap) (p : Z) : res (bool * heap) :=
  if external_is_present (h_ext h) p then Ok (true, h) else
  let* (a, h) := __query_arena h p in
  let* b := ask_arena h a (fun x => present x p) in Ok (b, h).

Definition within (h : heap) (p : Z) : res (bool * heap) :=
  if external_within (h_ext h) p then Ok (true, h) else
  let* (a, h) := __query_arena h p in
  let* b := ask_arena h a (fun x => has_provenance x p) in Ok (b, h).

(** The size of a block of another arena is read under that arena's lock. *)
Definition query_size (h : heap) (p : Z) : res (Z * heap) :=
  if p =? 0 then Ok (0, h) else
  let external := external_query_size (h_ext h) p in
  if negb (external =? 0) then Ok (external, h) else
  let* (owner, h) := __query_arena h p in
  let* h := if __default_multithread_safe then let* (_, h) := __current_arena h in Ok h else Ok h in
  let* n := ask_arena h owner (fun x => __size_of_alloc x p) in Ok (n, h).

(** [musage()] over the arenas that are live, in the order of the pool *)
Fixpoint sum_arenas (f : arena -> res Z) (h : heap) (l : list Z) (total : Z) : res Z :=
  match l with
  | [] => Ok total
  | a :: l => let* n := ask_arena h a f in sum_arenas f h l (u64 (total + n))
  end.
Definition musage (h : heap) (live : list Z) : res Z := sum_arenas total_usage h live 0.
Definition musage_of_class (Sz : Z) (h : heap) (live : list Z) : res Z := sum_arenas (total_usage_of_class Sz) h live 0.

(** ** Whole sheets and foreign memory *)

Definition relinquish (h : heap) (p : Z) : res heap :=
  if p =? 0 then Ok h else
  let* (a, h) := __query_arena h p in
  let* (_, h) := on_arena h a (fun x => let* x := reset_page x p in Ok (tt, x)) in Ok h.

Definition freeze_sheet (h : heap) (p : Z) : res heap :=
  if p =? 0 then Ok h else
  let* (a, h) := __query_arena h p in
  let* (ok, h) := on_arena h a (fun x => ArenaApi.freeze x p) in
  if negb ok then exc else Ok h.

Definition mark_at (h : heap) (p size : Z) : res (Z * heap) :=
  if (p =? 0) || (size =? 0) then Ok (0, h) else
  let* (a, h) := __query_arena h p in
  let* known := ask_arena h a (fun x => has_provenance x p) in
  if known : bool then exc else
  let '(ans, pr) := ask (h_process h) in
  let '(ok, r) := register_external page_size (a_oom ans) (h_ext h) p size p_caller in
  if negb ok then exc else Ok (p, set_ext (Heap (h_arenas h) (h_tls h) pr (h_bytes h) (h_ext h)) r).

Definition unmark_at (h : heap) (p size : Z) : res (Z * heap) :=
  if (p =? 0) || (size =? 0) then Ok (0, h) else
  if negb (external_is_present (h_ext h) p) then exc else
  let '(ok, r) := unregister_external (h_ext h) p size in
  if negb ok then exc else Ok (p, set_ext h r).

(** ** Allocation *)

Definition __is_sentinel (p : Z) : bool := p =? usize_max.

Definition push_current (h : heap) (size : Z) : res (chunk * heap) :=
  let* (a, h) := __current_arena h in on_arena h a (fun x => push a (heads a) x size).

Definition balloc (h : heap) (size : Z) : res (chunk * heap) :=
  if size =? 0 then Ok (null_chunk, h) else
  let* (mem, h) := push_current h size in
  Ok (if __is_sentinel (ptr mem) then null_chunk else mem, h).
Definition fetch := balloc.

Definition alloc (h : heap) (size : Z) : res (Z * heap) :=
  if size =? 0 then Ok (0, h) else let* (mem, h) := balloc h size in Ok (ptr mem, h).

Definition salloc (h : heap) (size : Z) : res (Z * heap) :=
  if size =? 0 then Ok (0, h) else
  let* (mem, h) := push_current h size in
  if __is_sentinel (ptr mem) then exc else
  Ok (ptr mem, set_bytes h (memset (h_bytes h) (ptr mem) 0 (len mem))).

Definition launder_chunk (h : heap) (size : Z) : res (chunk * heap) :=
  if size =? 0 then Ok (null_chunk, h) else
  let* (a, h) := __current_arena h in
  let* (mem, h) := on_arena h a (fun x => ArenaApi.launder a (heads a) x size) in
  if __is_sentinel (ptr mem) then exc else Ok (mem, h).
Definition launder (h : heap) (size : Z) : res (Z * heap) := let* (mem, h) := launder_chunk h size in Ok (ptr mem, h).

(** ** Giving back *)

(** A pointer no arena knows is dropped silently. *)
Definition dealloc (h : heap) (p : Z) : res heap :=
  if p =? 0 then Ok h else let* (_, h) := __route_dealloc h p 0 in Ok h.

Definition dealloc_len (h : heap) (p len : Z) : res heap :=
  if p =? 0 then Ok h else
  if len =? 0 then exc else
  let* (ok, h) := __route_dealloc h p len in
  if negb ok then exc else Ok h.

Definition retire (h : heap) (p : Z) : res heap :=
  if p =? 0 then Ok h else
  let* (ok, h) := __route_retire h p in
  if negb ok then exc else Ok h.

(** ** Aligned blocks

    Above the native alignment a block carries a prefix of two words below the
    aligned address: the start of the block and a guard. *)

Definition native_block_alignment : Z := if __default_redzone then 16 else __hdr_offset.
Definition sizeof_prefix : Z := 16.

Definition __aligned_guard (aligned raw : Z) : Z := Z.lxor aligned raw.

Definition __aligned_prefix_readable (h : heap) (p : Z) : bool := negb (arena_owner h (u64 (p - sizeof_prefix)) =? 0).

Definition __aligned_verify (h : heap) (raw : Z) : res (Z * heap) :=
  let* (b, h) := is_present h raw in Ok (if b : bool then raw else 0, h).

(** The prefix below [p], when it is one *)
Definition read_prefix (m : zmap) (p : Z) : option Z :=
  let raw := ld64 m (p - sizeof_prefix) in
  if (p <=? raw) || negb (ld64 m (p - 8) =? __aligned_guard p raw) then None else Some raw.

Definition __aligned_base_of (h : heap) (p : Z) : res (Z * heap) :=
  if negb (__aligned_prefix_readable h p) then Ok (0, h) else
  match read_prefix (h_bytes h) p with
  | None => Ok (0, h)
  | Some raw => __aligned_verify h raw
  end.

(** The aligned address in a block, and the prefix written below it *)
Definition aligned_in (raw alignment : Z) : Z :=
  let first := u64 (raw + sizeof_prefix) in
  Z.land (u64 (u64 (first + alignment) - 1)) (Z.lxor usize_max (alignment - 1)).
Definition write_prefix (m : zmap) (aligned raw : Z) : zmap :=
  st64 (st64 m (aligned - sizeof_prefix) raw) (aligned - 8) (__aligned_guard aligned raw).

Definition power_of_two (a : Z) : bool := negb (a =? 0) && (Z.land a (a - 1) =? 0).

(** [aligned_balloc] and [aligned_launder] differ in where the block comes from. *)
Definition aligned_get (get : heap -> Z -> res (chunk * heap)) (h : heap) (alignment size : Z) : res (chunk * heap) :=
  if negb (power_of_two alignment) || (size =? 0) then Ok (null_chunk, h) else
  if alignment <=? native_block_alignment then get h size else
  let '(o1, overhead) := check_add_overflow (alignment - 1) sizeof_prefix in
  if o1 : bool then Ok (null_chunk, h) else
  let '(o2, total) := check_add_overflow size overhead in
  if o2 : bool then Ok (null_chunk, h) else
  let* (raw, h) := get h total in
  if ptr raw =? 0 then Ok (null_chunk, h) else
  let aligned := aligned_in (ptr raw) alignment in
  let h := set_bytes h (write_prefix (h_bytes h) aligned (ptr raw)) in
  Ok (Chunk aligned (u64 (len raw - u64 (aligned - ptr raw))), h).

Definition aligned_balloc := aligned_get balloc.
Definition aligned_launder := aligned_get launder_chunk.

(** [prefix->raw] is trusted. *)
Definition aligned_dealloc (h : heap) (p alignment : Z) : res heap :=
  if p =? 0 then Ok h else
  if alignment <=? native_block_alignment then dealloc h p else dealloc h (ld64 (h_bytes h) (p - sizeof_prefix)).
Definition aligned_retire (h : heap) (p alignment : Z) : res heap :=
  if p =? 0 then Ok h else
  if alignment <=? native_block_alignment then retire h p else retire h (ld64 (h_bytes h) (p - sizeof_prefix)).

(** ** Resizing *)

(** [memcpy] of [n] bytes *)
Definition copy (h : heap) (dst src n : Z) : heap := set_bytes h (copy_bytes (h_bytes h) dst src n).

Definition resize_chunk (h : heap) (old : chunk) (size preserve_bytes : Z) : res (chunk * heap) :=
  if ptr old =? 0 then balloc h size else
  if size =? 0 then let* h := dealloc h (ptr old) in Ok (null_chunk, h) else
  let* (owner, h) := __query_arena h (ptr old) in
  let* (me, h) := if __default_multithread_safe then __current_arena h else Ok (owner, h) in
  if negb (owner =? me) then
    let* (next, h) := balloc h size in
    if ptr next =? 0 then Ok (null_chunk, h) else
    let retained := Z.min preserve_bytes (Z.min (len old) (len next)) in
    let h := if negb (retained =? 0) then copy h (ptr next) (ptr old) retained else h in
    let* h := dealloc_len h (ptr old) (len old) in
    Ok (next, h)
  else
    let* (p, h) := on_arena h owner (fun x => resize_preserve owner (heads owner) x (ptr old) size preserve_bytes) in
    if p =? 0 then Ok (null_chunk, h) else
    let* (a, h) := __query_arena h p in
    let* n := ask_arena h a (fun x => __size_of_alloc x p) in
    Ok (Chunk p n, h).

Definition aligned_resize (h : heap) (old : chunk) (size preserve_bytes alignment : Z) : res (chunk * heap) :=
  if ptr old =? 0 then aligned_balloc h alignment size else
  if size =? 0 then let* h := aligned_dealloc h (ptr old) alignment in Ok (null_chunk, h) else
  if alignment <=? native_block_alignment then resize_chunk h old size preserve_bytes else
  let* (next, h) := aligned_balloc h alignment size in
  if ptr next =? 0 then Ok (null_chunk, h) else
  let copied := if len old <? len next then len old else len next in
  let copied := if preserve_bytes <? copied then preserve_bytes else copied in
  let h := if negb (copied =? 0) then copy h (ptr next) (ptr old) copied else h in
  let* h := aligned_dealloc h (ptr old) alignment in
  Ok (next, h).

(** ** The C names in the namespace [abc] *)

Definition malloc := alloc.

Definition calloc (h : heap) (num size : Z) : res (Z * heap) :=
  if (num =? 0) || (size =? 0) then Ok (0, h) else
  let '(overflow, total) := check_mul_overflow num size in
  if overflow : bool then Ok (0, h) else
  let* (mem, h) := alloc h total in
  if mem =? 0 then Ok (0, h) else Ok (mem, set_bytes h (memset (h_bytes h) mem 0 total)).

Definition realloc (h : heap) (old size : Z) : res (Z * heap) :=
  if old =? 0 then alloc h size else
  if size =? 0 then let* h := dealloc h old in Ok (0, h) else
  let* (raw, h) := __aligned_base_of h old in
  if negb (raw =? 0) then
    let* (block, h) := query_size h raw in
    let displacement := u64 (old - raw) in
    let usable := if displacement <? block then block - displacement else 0 in
    let* (next, h) := alloc h size in
    if next =? 0 then Ok (0, h) else
    let kept := if usable <? size then usable else size in
    let h := if negb (kept =? 0) then copy h next old kept else h in
    let* h := dealloc h raw in
    Ok (next, h)
  else
    let* (old_size, h) := query_size h old in
    let* (result, h) := resize_chunk h (Chunk old old_size) size old_size in
    if ptr result =? 0 then exc else Ok (ptr result, h).

Definition free (h : heap) (p : Z) : res heap :=
  if p =? 0 then Ok h else
  let* (raw, h) := __aligned_base_of h p in
  if negb (raw =? 0) then dealloc h raw else dealloc h p.

Definition aligned_alloc (h : heap) (alignment size : Z) : res (Z * heap) :=
  if negb (power_of_two alignment) then Ok (0, h) else
  if negb (size mod alignment =? 0) then Ok (0, h) else
  if size =? 0 then Ok (0, h) else
  let* (c, h) := aligned_balloc h alignment size in Ok (ptr c, h).

Definition aligned_free (h : heap) (p : Z) : res heap :=
  if p =? 0 then Ok h else
  let* (b, h) := is_present h p in
  if b : bool then dealloc h p else
  let* (raw, h) := __aligned_base_of h p in
  if negb (raw =? 0) then dealloc h raw else exc.

(** ** The C interface (malloc-c.hpp) *)

(** [size != 0 && (size * num) / size != num] *)
Definition c_overflows (num size : Z) : bool := negb (size =? 0) && negb (u64 (size * num) / size =? num).

Definition c_calloc (h : heap) (num size : Z) : res (Z * heap) :=
  if c_overflows num size then Ok (0, h) else
  let* (mem, h) := alloc h (u64 (size * num)) in
  if mem =? 0 then Ok (0, h) else Ok (mem, set_bytes h (memset (h_bytes h) mem 0 (u64 (size * num)))).

Definition c_realloc (h : heap) (old size : Z) : res (Z * heap) :=
  if old =? 0 then alloc h size else
  if size =? 0 then let* h := free h old in Ok (0, h) else
  let* (base, h) := __aligned_base_of h old in
  let* (block, h) := query_size h (if negb (base =? 0) then base else old) in
  let displacement := if negb (base =? 0) then u64 (old - base) else 0 in
  let old_size := if displacement <? block then block - displacement else 0 in
  let* (new_block, h) := alloc h size in
  if new_block =? 0 then Ok (0, h) else
  let copy_size := if old_size <? size then old_size else size in
  let h := if negb (copy_size =? 0) then copy h new_block old copy_size else h in
  let* h := if negb (base =? 0) then dealloc h base else dealloc h old in
  Ok (new_block, h).

Definition c_aligned_alloc (h : heap) (alignment size : Z) : res (Z * heap) :=
  let* (c, h) := aligned_balloc h alignment size in Ok (ptr c, h).
Definition memalign := c_aligned_alloc.
Definition valloc (h : heap) (size : Z) : res (Z * heap) := c_aligned_alloc h __system_pagesize size.
Definition pvalloc (h : heap) (size : Z) : res (Z * heap) :=
  c_aligned_alloc h __system_pagesize (Z.land (u64 (u64 (size + __system_pagesize) - 1)) (Z.lxor usize_max (__system_pagesize - 1))).

(** The result code and, when the caller's pointer is written, its new value; a
    null pointer to write to is refused. *)
Definition posix_memalign (h : heap) (out_null : bool) (alignment size : Z) : res (Z * option Z * heap) :=
  if out_null then Ok (22, None, h) else
  if (alignment <? 8) || negb (Z.land alignment (alignment - 1) =? 0) then Ok (22, None, h) else
  if size =? 0 then Ok (0, Some 0, h) else
  let* (c, h) := aligned_balloc h alignment size in
  if ptr c =? 0 then Ok (12, None, h) else Ok (0, Some (ptr c), h).
End Malloc.
