(* ===== verification/MallocProps.v ===== *)
(** * Properties of the public interface *)

From S2P Require Import Prelude.
From S2P Require Import Config.
From S2P Require Import Harden.
From S2P Require Import Kernel.
From S2P Require Import Arena.
From S2P Require Import ArenaApi.
From S2P Require Import Malloc.

(** ** Words in byte memory *)

Lemma rd_st_bytes n : forall m a v b, ~ (a <= b < a + Z.of_nat n) -> rd (st_bytes m a v n) b = rd m b.
Proof.
  induction n as [|n IH]; intros m a v b Hb; cbn [st_bytes]; [done|]. rewrite IH by lia. apply rd_wr_ne. lia.
Qed.

Lemma ld_bytes_ext n : forall m m' a, (forall b, a <= b < a + Z.of_nat n -> rd m b = rd m' b) -> ld_bytes m a n = ld_bytes m' a n.
Proof.
  induction n as [|n IH]; intros m m' a Hb; cbn [ld_bytes]; [done|]. rewrite (Hb a) by lia. f_equal. f_equal. apply IH. intros b ?. apply Hb. lia.
Qed.

Lemma ld_st_bytes n : forall m a v, 0 <= v < 2 ^ (8 * Z.of_nat n) -> ld_bytes (st_bytes m a v n) a n = v.
Proof.
  induction n as [|n IH]; intros m a v Hv; cbn [ld_bytes st_bytes]; [cbn in Hv; lia|].
  rewrite rd_st_bytes by lia. rewrite rd_wr_eq. rewrite Nat2Z.inj_succ in Hv.
  replace (8 * Z.succ (Z.of_nat n)) with (8 * Z.of_nat n + 8) in Hv by lia. rewrite Z.pow_add_r in Hv by lia.
  assert (E : Z.shiftr v 8 = v / 2 ^ 8) by (by apply Z.shiftr_div_pow2).
  rewrite IH; [|rewrite E; split; [apply Z.div_pos|apply Z.div_lt_upper_bound]; lia].
  rewrite E, Z.shiftl_mul_pow2 by lia. rewrite (u8_small (u8 v)) by apply Z.mod_pos_bound, eq_refl. unfold u8.
  pose proof (Z.div_mod v (2 ^ 8) ltac:(lia)). lia.
Qed.

Lemma ld_st64 m a v : 0 <= v < 2 ^ 64 -> ld64 (st64 m a v) a = v.
Proof. apply (ld_st_bytes 8). Qed.

Lemma ld_st64_other m a v b : b + 8 <= a \/ a + 8 <= b -> ld64 (st64 m a v) b = ld64 m b.
Proof. intros Hb. apply ld_bytes_ext. intros c Hc. apply rd_st_bytes. lia. Qed.

(** ** Aligned addresses *)

(** [p & ~(alignment - 1)] rounds down to the alignment. *)
Lemma land_align p k : 0 <= p < 2 ^ 64 -> 0 <= k < 64 -> Z.land p (Z.lxor usize_max (2 ^ k - 1)) = p - p mod 2 ^ k.
Proof.
  intros Hp Hk. assert (H2 : 0 < 2 ^ k) by (apply Z.pow_pos_nonneg; lia).
  transitivity (Z.ldiff p (2 ^ k - 1)); [|rewrite ldiff_mask by lia; pose proof (Z.div_mod p (2 ^ k) ltac:(lia)); lia].
  apply Z.bits_inj'. intros i Hi. rewrite Z.land_spec, Z.lxor_spec, Z.ldiff_spec.
  assert (Eu : usize_max = Z.ones 64) by reflexivity. assert (Ek : 2 ^ k - 1 = Z.ones k) by (rewrite Z.ones_equiv; lia).
  rewrite Eu, Ek, !Z.testbit_ones_nonneg by lia. destruct (Z.ltb_spec i 64); [by destruct (i <? k)|].
  rewrite (testbit_above p 64 i) by lia. by destruct (i <? k).
Qed.

Lemma power_of_two_log a : 0 < a -> power_of_two a = true -> a = 2 ^ Z.log2 a.
Proof.
  intros Ha Hp. apply andb_true_iff in Hp as [_ Hp]. apply Z.eqb_eq in Hp. set (k := Z.log2 a) in *.
  destruct (Z.log2_spec a Ha) as [Hl Hu]. fold k in Hl, Hu. destruct (Z.eq_dec a (2 ^ k)) as [|Hne]; [done|exfalso].
  assert (Hk : 0 <= k) by apply Z.log2_nonneg. assert (Hlog : Z.log2 (a - 1) = k) by (apply Z.log2_unique; lia).
  assert (Hb : Z.testbit (Z.land a (a - 1)) k = true).
  { rewrite Z.land_spec. pose proof (Z.bit_log2 a Ha) as H1. pose proof (Z.bit_log2 (a - 1) ltac:(lia)) as H2.
    rewrite Hlog in H2. fold k in H1. by rewrite H1, H2. }
  by rewrite Hp, Z.bits_0 in Hb.
Qed.

(** The aligned address leaves room for the prefix and lies less than the
    alignment above it. *)
Lemma aligned_in_spec raw a :
  0 < raw -> 0 < a -> power_of_two a = true -> raw + 16 + a < 2 ^ 64 ->
  raw + 16 <= aligned_in raw a < raw + 16 + a /\ (a | aligned_in raw a).
Proof.
  intros Hr Ha Hp Hb. pose proof (power_of_two_log a Ha Hp) as E. set (k := Z.log2 a) in *.
  assert (Hk : 0 <= k < 64) by (split; [apply Z.log2_nonneg|apply Z.log2_lt_pow2; lia]).
  unfold aligned_in, sizeof_prefix. rewrite (u64_small (raw + 16)) by lia. rewrite (u64_small (raw + 16 + a)) by lia.
  set (p := raw + 16 + a - 1). rewrite (u64_small p) by lia.
  replace (Z.lxor usize_max (a - 1)) with (Z.lxor usize_max (2 ^ k - 1)) by (by rewrite <- E).
  rewrite land_align, <- E by lia. pose proof (Z.mod_pos_bound p a Ha). pose proof (Z.div_mod p a ltac:(lia)). split; [lia|].
  exists (p / a). lia.
Qed.

(** The prefix is read back. *)
Lemma prefix_read m p raw :
  0 < raw < p -> p < 2 ^ 64 -> 16 <= p -> read_prefix (write_prefix m p raw) p = Some raw.
Proof.
  intros Hr Hp H16. unfold read_prefix, write_prefix, sizeof_prefix, __aligned_guard.
  rewrite ld_st64_other by lia. rewrite ld_st64 by lia. rewrite ld_st64.
  - rewrite Z.eqb_refl, (proj2 (Z.leb_gt _ _)) by lia. done.
  - split; [apply Z.lxor_nonneg; lia|]. destruct (Z.eq_dec (Z.lxor p raw) 0) as [->|]; [done|].
    apply Z.log2_lt_pow2; [assert (0 <= Z.lxor p raw) by (apply Z.lxor_nonneg; lia); lia|].
    eapply Z.le_lt_trans; [apply Z.log2_lxor; lia|]. apply Z.max_lub_lt; (apply Z.log2_lt_pow2; lia).
Qed.

Lemma prefix_bytes m p raw b : ~ (p - 16 <= b < p) -> rd (write_prefix m p raw) b = rd m b.
Proof. intros Hb. unfold write_prefix, st64, sizeof_prefix. rewrite !rd_st_bytes by lia. done. Qed.

Section Props.
Context `{ChunkOps} `{Hardening} `{Settings} `{Platform}.
Context (heads : Z -> tier_id -> Z) (internal_heads : Z -> Z) (pick : heap -> Z * bool).

Abbreviation balloc := (balloc heads internal_heads pick).
Abbreviation aligned_balloc := (aligned_balloc heads internal_heads pick).
Abbreviation dealloc := (dealloc heads internal_heads pick).
Abbreviation free := (free heads internal_heads pick).

Lemma native_positive : 0 < native_block_alignment.
Proof. unfold native_block_alignment. by destruct __default_redzone. Qed.

(** What [free] makes of a pointer with a prefix to a block that is present *)
Lemma free_prefixed h h' p raw :
  p <> 0 -> raw <> 0 -> arena_owner h (u64 (p - 16)) <> 0 -> read_prefix (h_bytes h) p = Some raw ->
  is_present heads internal_heads pick h raw = Ok (true, h') -> free h p = dealloc h' raw.
Proof.
  intros Hp Hr Ho Hpre Hpres. unfold Malloc.free, __aligned_base_of, __aligned_prefix_readable, sizeof_prefix, __aligned_verify.
  rewrite (proj2 (Z.eqb_neq p 0) Hp), (proj2 (Z.eqb_neq _ 0) Ho), Hpre, Hpres. cbn [negb bind].
  by rewrite (proj2 (Z.eqb_neq raw 0) Hr).
Qed.

Lemma read_prefix_ext m m' p : (forall b, p - 16 <= b < p -> rd m b = rd m' b) -> read_prefix m p = read_prefix m' p.
Proof.
  intros Hb. unfold read_prefix, ld64, sizeof_prefix.
  rewrite (ld_bytes_ext 8 m m' (p - 16)), (ld_bytes_ext 8 m m' (p - 8)); [done|..]; intros b ?; apply Hb; lia.
Qed.

(** C28. An aligned request above the native alignment: when the block for it can be
    had, the answer is aligned, at least as long as asked for, and ends with the
    block; only the 16 bytes of the prefix were written.  As long as they stay as
    they are and the block is present, [free] and [aligned_dealloc] give back the
    whole block. *)
Theorem aligned_roundtrip h alignment size raw h1 :
  power_of_two alignment = true -> native_block_alignment < alignment -> 0 < size ->
  size + (alignment - 1 + 16) <= usize_max ->
  balloc h (size + (alignment - 1 + 16)) = Ok (raw, h1) ->
  0 < ptr raw -> size + (alignment - 1 + 16) <= len raw -> ptr raw + len raw < 2 ^ 64 ->
  exists c h', aligned_balloc h alignment size = Ok (c, h') /\
    (alignment | ptr c) /\ size <= len c /\ ptr raw + 16 <= ptr c /\ ptr c + len c = ptr raw + len raw /\
    (forall b, ~ (ptr c - 16 <= b < ptr c) -> rd (h_bytes h') b = rd (h_bytes h1) b) /\
    (forall h2, (forall b, ptr c - 16 <= b < ptr c -> rd (h_bytes h2) b = rd (h_bytes h') b) ->
       aligned_dealloc heads internal_heads pick h2 (ptr c) alignment = dealloc h2 (ptr raw) /\
       (forall h3, arena_owner h2 (ptr c - 16) <> 0 -> is_present heads internal_heads pick h2 (ptr raw) = Ok (true, h3) ->
          free h2 (ptr c) = dealloc h3 (ptr raw))).
Proof.
  intros Hp Hnat Hs Hov Hb Hr Hl Hend. pose proof native_positive as Hn0. unfold usize_max in Hov.
  destruct (aligned_in_spec (ptr raw) alignment Hr ltac:(lia) Hp ltac:(lia)) as [Hin Hdiv].
  set (al := aligned_in (ptr raw) alignment) in *.
  exists (Chunk al (len raw - (al - ptr raw))), (set_bytes h1 (write_prefix (h_bytes h1) al (ptr raw))). cbn [ptr len].
  assert (Hread : read_prefix (write_prefix (h_bytes h1) al (ptr raw)) al = Some (ptr raw)) by (apply prefix_read; lia).
  split; [|split_and!; try done; try lia].
  - unfold Malloc.aligned_balloc, aligned_get. rewrite Hp, (proj2 (Z.eqb_neq size 0)), (proj2 (Z.leb_gt _ _)) by lia. cbn [negb orb].
    unfold check_add_overflow, sizeof_prefix. rewrite (proj2 (Z.ltb_ge _ _)) by (unfold usize_max; lia).
    rewrite (u64_small (alignment - 1 + 16)), (proj2 (Z.ltb_ge _ _)) by (unfold usize_max; lia). rewrite u64_small, Hb by lia.
    cbn [bind]. rewrite (proj2 (Z.eqb_neq (ptr raw) 0)) by lia. fold al. by rewrite (u64_small (al - _)), u64_small by lia.
  - intros b Hb'. by apply prefix_bytes.
  - intros h2 Hsame. cbn [set_bytes h_bytes] in Hsame. pose proof (read_prefix_ext _ _ al Hsame) as Hpre. rewrite Hread in Hpre. split.
    + unfold aligned_dealloc, sizeof_prefix. rewrite (proj2 (Z.eqb_neq al 0)), (proj2 (Z.leb_gt _ _)) by lia.
      unfold read_prefix, sizeof_prefix in Hpre. case_match; [done|]. by injection Hpre as ->.
    + intros h3 Ho Hpres. apply (free_prefixed h2 h3 al (ptr raw)); try done; try lia. by rewrite u64_small by lia.
Qed.

(** C29. The division test of the C [calloc] finds exactly the overflows the builtin
    finds, so both do the same. *)
Theorem calloc_agrees h num size :
  0 <= num <= usize_max -> 0 <= size <= usize_max ->
  c_calloc heads internal_heads pick h num size = calloc heads internal_heads pick h num size.
Proof.
  intros Hn Hs. unfold c_calloc, calloc, c_overflows, check_mul_overflow.
  destruct (Z.eqb_spec size 0) as [->|Hs0]; cbn [negb andb]; [by rewrite orb_true_r|]. rewrite orb_false_r.
  destruct (Z.eqb_spec num 0) as [->|Hn0].
  - rewrite Z.mul_0_r. change (u64 0) with 0. by rewrite Z.div_0_l.
  - destruct (Z.ltb_spec usize_max (num * size)) as [Hov|Hov].
    + assert (E : u64 (size * num) / size <> num).
      { intros E. pose proof (Z.mul_div_le (u64 (size * num)) size ltac:(lia)). rewrite E in *.
        pose proof (u64_range (size * num)). unfold usize_max in *. lia. }
      by rewrite (proj2 (Z.eqb_neq _ _) E).
    + rewrite u64_small by (unfold usize_max in *; nia). rewrite Z.mul_comm, Z.div_mul by done. rewrite Z.eqb_refl.
      cbn [negb]. by rewrite u64_small by (unfold usize_max in *; nia).
Qed.
End Props.
