(* ===== verification/ArenaDemo.v ===== *)
(** * A whole heap that runs

    The public functions over an arena with its five tiers, from construction
    on, with the settings of config_amd64.hpp on a kernel that grants every
    call.  The runs check the model end to end, and the heaps they reach witness
    that the hypotheses about public functions can hold. *)

From S2P Require Import Prelude.
From S2P Require Import Config.
From S2P Require Import VaReserve.
From S2P Require Import Owner.
From S2P Require Import External.
From S2P Require Import Book.
From S2P Require Import Sheet.
From S2P Require Import Tier.
From S2P Require Import Harden.
From S2P Require Import Kernel.
From S2P Require Import Meta.
From S2P Require Import Bucket.
From S2P Require Import Arena.
From S2P Require Import ArenaApi.
From S2P Require Import Malloc.
From S2P Require Import MallocProps.
From S2P Require Import Sheet.
From S2P Require Import SheetProps.
From S2P Require Import Ground.
From S2P Require Import MetaGrow.
From S2P Require Import ArenaInv.
From S2P Require Import ArenaProps.
From S2P Require Import ArenaGrow.
From S2P Require Import ArenaStart.
From S2P Require Import ArenaRun.
From S2P Require Import ArenaPublic.

#[local] Existing Instance PlainChunk.ops.
#[local] Existing Instance PlainChunk.laws.
#[local] Instance demo_hardening : Hardening := Amd64.hardening false.
#[local] Instance demo_settings : Settings := amd64_settings.

#[local] Instance demo_platform : Platform := {|
  kernel := fun _ => Answers (Some (2 ^ 40)) true true None true true true ∅ false;
  mmap_failed := fun a => a =? usize_max;
  __calculate_space_cache := fun n => n * 4096;
  __calculate_space_small := fun n => n * 4096;
  __calculate_space_medium := fun n => n * 4096;
  __calculate_space_large := fun n => n * 4096;
  __calculate_space_huge := fun n => n * 64;
  __calculate_space_bulk := fun n => n * 2;
  __weight_for_class := fun _ => 1;
  __class_weight_denom := 5;
  prealloc_size := 2 ^ 20;
  sizeof_sheet := 2048;
  sizeof_tlsf_sheet := 1024
|}.

Definition demo_heads (_ : Z) (t : tier_id) : Z :=
  match t with Precise => 4096 | Small => 8192 | Medium => 12288 | Large => 16384 | Huge => 20480 end.
Definition demo_internal (_ : Z) : Z := 24576.
Definition demo_pick (_ : heap) : Z * bool := (7, true).

(** No arena yet *)
Definition demo_empty : heap := Heap ∅ None (Process (World va_init owners_init) 0 []) ∅ (Registry [] 0).

Abbreviation malloc := (malloc demo_heads demo_internal demo_pick).
Abbreviation free := (free demo_heads demo_internal demo_pick).
Abbreviation calloc := (calloc demo_heads demo_internal demo_pick).
Abbreviation realloc := (realloc demo_heads demo_internal demo_pick).
Abbreviation balloc := (balloc demo_heads demo_internal demo_pick).
Abbreviation aligned_alloc := (aligned_alloc demo_heads demo_internal demo_pick).
Abbreviation query_size := (query_size demo_heads demo_internal demo_pick).
Abbreviation is_present := (is_present demo_heads demo_internal demo_pick).

(** What a run answers, without the heap it ends with *)
Definition answer {X} (r : res (X * heap)) : res X := let* (x, _) := r in Ok x.

(** ** Runs *)

(** The first call constructs the arena; a block given back answers the next
    request it is long enough for. *)
Example reuse :
  answer (let* (p, h) := malloc demo_empty 1000 in
          let* h := free h p in
          let* (q, h) := malloc h 900 in Ok ((p, q), h)) = Ok (1099522113600, 1099522113600).
Proof. by vm_compute. Qed.

(** The default handler of a double free stops the program. *)
Example double_free_stops :
  answer (let* (p, h) := malloc demo_empty 1000 in
          let* h := free h p in
          let* h := free h p in Ok (p, h)) = Abort.
Proof. by vm_compute. Qed.

(** Small, large and huge blocks come from the sheets of their tiers; the large
    and the huge one are reserved at the first request. *)
Example tiers_apart :
  answer (let* (p, h) := malloc demo_empty 100 in
          let* (q, h) := malloc h 300000 in
          let* (r, h) := malloc h 3000000 in
          let* h := free h r in
          let* h := free h q in
          let* (b, h) := is_present h p in
          let* (c, h) := is_present h q in Ok ((p, q, r, b, c), h)) =
    Ok (1099520016448, 1099526569984, 1099530764288, true, false).
Proof. by vm_compute. Qed.

(** [realloc] across tiers keeps the bytes and gives the old block back. *)
Example realloc_moves :
  answer (let* (p, h) := malloc demo_empty 100 in
          let h := set_bytes h (wr (h_bytes h) p 42) in
          let* (q, h) := realloc h p 5000 in
          let* (b, h) := is_present h p in
          let* (c, h) := is_present h q in
          let* (n, h) := query_size h q in Ok ((p, q, rd (h_bytes h) q, b, c, n), h)) =
    Ok (1099520016448, 1099524214784, 42, false, true, 8160).
Proof. by vm_compute. Qed.

(** [free] takes an aligned block without being told the alignment. *)
Example aligned_then_free :
  answer (let* (p, h) := aligned_alloc demo_empty 64 1024 in
          let* h := free h p in
          let* (q, h) := malloc h 1024 in Ok ((p, q), h)) = Ok (1099522113664, 1099522113600).
Proof. by vm_compute. Qed.

(** Products that do not fit are refused. *)
Example calloc_refuses : answer (calloc demo_empty (2 ^ 63) 2) = Ok 0.
Proof. by vm_compute. Qed.

(** ** Witnesses *)

(** The block a request for 1000 bytes aligned to 64 is cut from *)
Abbreviation demo_raw := (Chunk 1099522113600 1120).
Definition demo_heap : heap := match balloc demo_empty 1079 with Ok (_, h) => h | _ => demo_empty end.

Lemma answer_ok {X} (r : res (X * heap)) x h0 : answer r = Ok x -> r = Ok (x, match r with Ok (_, h) => h | _ => h0 end).
Proof. destruct r as [[y h]| | |]; cbn; intros E; try discriminate E. injection E as ->. reflexivity. Qed.

Lemma demo_balloc : balloc demo_empty 1079 = Ok (demo_raw, demo_heap).
Proof. apply answer_ok. vm_compute. reflexivity. Qed.

Lemma aligned_roundtrip_witness :
  exists c h', aligned_balloc demo_heads demo_internal demo_pick demo_empty 64 1000 = Ok (c, h') /\ (64 | ptr c) /\ 1000 <= len c.
Proof.
  destruct (aligned_roundtrip demo_heads demo_internal demo_pick demo_empty 64 1000 demo_raw demo_heap)
    as (c & h' & E & Hd & Hl & _).
  - reflexivity.
  - reflexivity.
  - reflexivity.
  - vm_compute. intros X. discriminate X.
  - exact demo_balloc.
  - reflexivity.
  - vm_compute. intros X. discriminate X.
  - reflexivity.
  - exists c, h'. split; [exact E|]. split; [exact Hd|exact Hl].
Defined.

Lemma calloc_agrees_witness :
  answer (c_calloc demo_heads demo_internal demo_pick demo_empty 3 5) = Ok 1099520016448.
Proof.
  rewrite (calloc_agrees demo_heads demo_internal demo_pick demo_empty 3 5); [vm_compute; reflexivity|unfold usize_max; lia..].
Defined.

(** ** The two [realloc] disagree on aligned blocks *)

(** A block aligned to 64, and the heap after *)
Definition demo_aligned : heap := match aligned_alloc demo_empty 64 1024 with Ok (_, h) => h | _ => demo_empty end.

(** A resize to nothing frees the block: the C [realloc] does, with the prefix of
    an aligned block looked up, and [abc::realloc] hands the aligned address to
    the arena as if it were the start of a block, which the admission of [pop]
    refuses by stopping the program. *)
Theorem realloc_zero_refuses_aligned :
  exists p h, aligned_alloc demo_empty 64 1024 = Ok (p, h) /\ realloc h p 0 = Abort /\
    answer (let* (_, h) := c_realloc demo_heads demo_internal demo_pick h p 0 in is_present h 1099522113600) = Ok false.
Proof.
  exists 1099522113664, demo_aligned. split; [|split].
  - apply answer_ok. vm_compute. reflexivity.
  - vm_compute. reflexivity.
  - vm_compute. reflexivity.
Qed.

(** ** An arena and its client *)

#[local] Instance demo_reserved : Reserved.
Proof. intros i. reflexivity. Defined.

Abbreviation demo_head := (demo_heads 7).
Definition demo_process : process := Process (World va_init owners_init) 0 [].

Lemma demo_members : members_ok demo_head 24576 (2 ^ 40).
Proof. split; unfold outside; cbn; try lia; intros []; cbn; try lia; by intros []. Qed.

Lemma demo_initial : initial_ok.
Proof. split; unfold admissible; (split; [vm_compute; by split|intros _; vm_compute; reflexivity]). Qed.

Lemma demo_start : start_ok.
Proof. split; [vm_compute; by split|]. intros t _. unfold admissible. destruct t; (split; [vm_compute; by split|]); intros; vm_compute; try reflexivity. Qed.

Lemma demo_ready : ready (2 ^ 40) demo_process [].
Proof. right. split_and!; try reflexivity. Qed.

(** Addresses are not reused on purpose, and blocks carry no canaries. *)
Lemma demo_plain : __default_launder = false /\ __default_redzone = false.
Proof. by split. Qed.

(** Two blocks, a large tier that grows, a block from it, and the first block
    given back and asked for again *)
Abbreviation demo_arena := (__arena 7 demo_head 24576 demo_process).
Definition demo_run (a0 : arena) : res (arena * list chunk) :=
  let* (c1, a1) := __vmap_alloc a0 1000 in
  let* (c2, a2) := __vmap_alloc a1 100 in
  let* (_, a3) := __buf_expand_exact 7 demo_head a2 300000 (2 ^ 20) in
  let* (c3, a4) := __vmap_alloc a3 300000 in
  let* (_, a5) := __vmap_remove_at demo_head a4 (ptr c1) in
  let* (c4, a6) := __vmap_alloc a5 900 in
  if chunk_zero c1 || chunk_zero c2 || chunk_zero c3 || chunk_zero c4 then Stuck else Ok (a6, [c4; c3; c2]).

Lemma bind_ok {X Y} (r : res X) (f : X -> res Y) y : bind r f = Ok y -> exists x, r = Ok x /\ f x = Ok y.
Proof. destruct r as [x| | |]; cbn; intros E; try discriminate E. by exists x. Qed.

Definition succeeds {X} (r : res X) : bool := match r with Ok _ => true | _ => false end.
Lemma succeeds_ok {X} (r : res X) : succeeds r = true -> exists x, r = Ok x.
Proof. destruct r as [x| | |]; cbn; intros E; try discriminate E. by exists x. Qed.

Lemma demo_runs : exists a0 a c d e, demo_arena = Ok a0 /\ rtc (heap_step 7 demo_head) (a0, []) (a, [c; d; e]).
Proof.
  destruct (succeeds_ok (let* a0 := demo_arena in let* x := demo_run a0 in Ok (a0, x))) as [y Ey]; [vm_compute; reflexivity|].
  apply bind_ok in Ey as (a0 & E0 & Ey). apply bind_ok in Ey as (z & Ez & _). exists a0. unfold demo_run in Ez.
  apply bind_ok in Ez as ([c1 a1] & E1 & Ez). apply bind_ok in Ez as ([c2 a2] & E2 & Ez). apply bind_ok in Ez as ([o3 a3] & E3 & Ez).
  apply bind_ok in Ez as ([c3 a4] & E4 & Ez). apply bind_ok in Ez as ([o5 a5] & E5 & Ez). apply bind_ok in Ez as ([c4 a6] & E6 & Ez).
  destruct (chunk_zero c1) eqn:Z1; [discriminate Ez|]. destruct (chunk_zero c2) eqn:Z2; [discriminate Ez|].
  destruct (chunk_zero c3) eqn:Z3; [discriminate Ez|]. destruct (chunk_zero c4) eqn:Z4; [discriminate Ez|].
  exists a6, c4, c3, c2. split; [exact E0|].
  eapply rtc_l; [apply (heap_get _ _ a0 [] 1000 c1 a1); [unfold requested; lia|exact E1]|]. rewrite Z1.
  eapply rtc_l; [apply (heap_get _ _ a1 _ 100 c2 a2); [unfold requested; lia|exact E2]|]. rewrite Z2.
  eapply rtc_l; [apply (heap_grow _ _ a2 _ 300000 (2 ^ 20) o3 a3); [split; [lia|intros _; lia]|exact E3]|].
  eapply rtc_l; [apply (heap_get _ _ a3 _ 300000 c3 a4); [unfold requested; lia|exact E4]|]. rewrite Z3.
  eapply rtc_l; [apply (heap_free _ _ a4 _ [c3; c2] c1 o5 a5); [solve_Permutation|exact E5]|].
  eapply rtc_l; [apply (heap_get _ _ a5 _ 900 c4 a6); [unfold requested; lia|exact E6]|]. rewrite Z4. apply rtc_refl.
Qed.

Lemma arena_starts_witness :
  exists a, demo_arena = Ok a /\ forall t, starts t = true -> is_empty demo_head a t = false.
Proof.
  destruct (succeeds_ok demo_arena) as [a E]; [vm_compute; reflexivity|].
  destruct (proj1 (arena_starts 7 demo_head 24576 (2 ^ 40) demo_members demo_process [] demo_start) demo_ready) as [E1|(a1 & gs & E1 & _ & _ & Hs & _)].
  - rewrite E1 in E. discriminate E.
  - exists a1. split; [exact E1|exact Hs].
Defined.

Lemma arena_run_safe_witness :
  exists a0 a c d e, demo_arena = Ok a0 /\ rtc (heap_step 7 demo_head) (a0, []) (a, [c; d; e]) /\
    apart (ptr c) (len c) (ptr d) (len d) /\ apart (ptr d) (len d) (ptr e) (len e) /\
    exists a', __vmap_remove_at demo_head a (ptr d) = Ok (true, a').
Proof.
  destruct demo_runs as (a0 & a & c & d & e & E0 & Hrun). exists a0, a, c, d, e. split; [exact E0|]. split; [exact Hrun|].
  destruct (arena_run_safe 7 demo_head 24576 (2 ^ 40) demo_members demo_initial (proj1 demo_plain) (proj2 demo_plain) demo_process [] a0 a [c; d; e]
    demo_ready demo_start E0 Hrun) as (Hap & Hfree & _).
  split; [apply (Hap 0%nat 1%nat); [reflexivity|reflexivity|discriminate]|].
  split; [apply (Hap 1%nat 2%nat); [reflexivity|reflexivity|discriminate]|].
  destruct (Hfree d) as (_ & Hf & _); [apply list_elem_of_further, list_elem_of_here|exact Hf].
Defined.

Lemma mark_arena_returns_witness :
  exists e gm gM rM RM live, meta_at (2 ^ 40) 24576 e gm gM rM RM /\ meta_va (2 ^ 40) e rM RM live /\
    exists r, (forall fuel, (mark_fuel <= fuel)%nat -> __mark_arena 7 fuel e 1056 = r) /\ r <> OutOfFuel.
Proof.
  destruct (succeeds_ok demo_arena) as [a E]; [vm_compute; reflexivity|].
  destruct (ready_started 7 demo_head 24576 (2 ^ 40) demo_members demo_process [] demo_ready demo_start) as [E1|(a1 & gs & E1 & Hok & _)];
    [rewrite E1 in E; discriminate E|].
  clear E E1. destruct Hok as (gm & runs & gM & rM & RM & X & Hok & HA).
  assert (HV : meta_va (2 ^ 40) (a_meta a1) rM RM (X ++ all_runs runs)).
  { unfold meta_va. apply (va_ok_perm _ _ _ _ (ao_va _ _ _ _ _ _ _ _ Hok)). solve_Permutation. }
  exists (a_meta a1), gm, gM, rM, RM, (X ++ all_runs runs). split; [exact HA|]. split; [exact HV|].
  destruct (mark_arena_returns (2 ^ 40) 7 24576 (mo_internal _ _ _ demo_members) (mo_object _ _ _ demo_members) (a_meta a1) gm gM rM RM _ 1056 HA HV)
    as (r & Hf & Hr); [unfold requested; lia|].
  exists r. split; [exact Hf|]. intros ->. destruct Hr as [Hr|(buf & e' & gm' & gM' & RM' & Hr & _)]; discriminate Hr.
Defined.

(** Blocks of three tiers, two of them given back, and one resized *)
Definition demo_calls (a0 : arena) : res (arena * list chunk) :=
  let* (c1, a1) := push 7 demo_head a0 100 in
  let* (c2, a2) := push 7 demo_head a1 5000 in
  let* (c3, a3) := push 7 demo_head a2 40000 in
  let* (_, a4) := pop demo_head a3 (ptr c2) in
  let* (_, a5) := pop_len demo_head a4 (ptr c1) (len c1) in
  let* (c4, a6) := push 7 demo_head a5 4500 in
  let* (q, a7) := resize_preserve 7 demo_head a6 (ptr c4) 40000 usize_max in
  if (ptr c1 =? usize_max) || (ptr c2 =? usize_max) || (ptr c3 =? usize_max) || (ptr c4 =? usize_max) || (q =? 0) then Stuck
  else Ok (a7, [Chunk q 40000; c3]).

Lemma not_failed c : (ptr c =? usize_max) = false -> c <> failed_chunk.
Proof. intros E ->. discriminate E. Qed.

Lemma demo_growable : growable 100 /\ growable 5000 /\ growable 40000 /\ growable 4500.
Proof. split_and!; (split; [vm_compute; by split|intros _; vm_compute; reflexivity]) || (vm_compute; by split). Qed.

Lemma demo_called : exists a0 a c d, demo_arena = Ok a0 /\ rtc (call 7 demo_head) (a0, []) (a, [c; d]).
Proof.
  destruct (succeeds_ok (let* a0 := demo_arena in let* x := demo_calls a0 in Ok (a0, x))) as [y Ey]; [vm_compute; reflexivity|].
  apply bind_ok in Ey as (a0 & E0 & Ey). apply bind_ok in Ey as (z & Ez & _). exists a0. unfold demo_calls in Ez.
  apply bind_ok in Ez as ([c1 a1] & E1 & Ez). apply bind_ok in Ez as ([c2 a2] & E2 & Ez). apply bind_ok in Ez as ([c3 a3] & E3 & Ez).
  apply bind_ok in Ez as ([o4 a4] & E4 & Ez). apply bind_ok in Ez as ([o5 a5] & E5 & Ez). apply bind_ok in Ez as ([c4 a6] & E6 & Ez).
  apply bind_ok in Ez as ([q a7] & E7 & Ez). destruct (ptr c1 =? usize_max) eqn:N1; [discriminate Ez|]. destruct (ptr c2 =? usize_max) eqn:N2; [discriminate Ez|].
  destruct (ptr c3 =? usize_max) eqn:N3; [discriminate Ez|]. destruct (ptr c4 =? usize_max) eqn:N4; [discriminate Ez|].
  destruct (q =? 0) eqn:Nq; [discriminate Ez|]. destruct demo_growable as (G1 & G2 & G3 & G4). exists a7, (Chunk q 40000), c3. split; [exact E0|].
  eapply rtc_l; [apply (call_push _ _ a0 [] 100 c1 a1); [unfold requested; lia|exact G1|exact E1|by apply not_failed]|].
  eapply rtc_l; [apply (call_push _ _ a1 _ 5000 c2 a2); [unfold requested; lia|exact G2|exact E2|by apply not_failed]|].
  eapply rtc_l; [apply (call_push _ _ a2 _ 40000 c3 a3); [unfold requested; lia|exact G3|exact E3|by apply not_failed]|].
  eapply rtc_l; [apply (call_pop _ _ a3 _ [c3; c1] c2 o4 a4); [solve_Permutation|exact E4]|].
  eapply rtc_l; [apply (call_pop_len _ _ a4 _ [c3] c1 o5 a5); [solve_Permutation|exact E5]|].
  eapply rtc_l; [apply (call_push _ _ a5 _ 4500 c4 a6); [unfold requested; lia|exact G4|exact E6|by apply not_failed]|].
  eapply rtc_l; [apply (call_resize _ _ a6 _ [c3] c4 40000 usize_max q a7); [apply Permutation_refl|unfold requested; lia|exact G3|lia|exact E7]|].
  rewrite Nq. apply rtc_refl.
Qed.

Lemma demo_unaligned : __default_check_alignment = false.
Proof. reflexivity. Qed.

Lemma arena_calls_safe_witness :
  exists a0 a c d, demo_arena = Ok a0 /\ rtc (call 7 demo_head) (a0, []) (a, [c; d]) /\
    apart (ptr c) (len c) (ptr d) (len d) /\ present a (ptr d) = Ok true /\ returns demo_head 24576 (2 ^ 40) a [c] (pop demo_head a (ptr d)).
Proof.
  destruct demo_called as (a0 & a & c & d & E0 & Hrun). exists a0, a, c, d. split; [exact E0|]. split; [exact Hrun|].
  destruct (arena_calls_safe 7 demo_head 24576 (2 ^ 40) demo_members (proj2 demo_plain) demo_initial (proj1 demo_plain) demo_unaligned
    demo_process [] a0 a [c; d] demo_ready demo_start E0 Hrun) as (Hap & Hin & Hpop & _).
  split; [apply (Hap 0%nat 1%nat); [reflexivity|reflexivity|discriminate]|].
  split; [apply (Hin d); apply list_elem_of_further, list_elem_of_here|].
  apply (Hpop d [c]). apply Permutation_swap.
Defined.
