(* ===== verification/RemoteDemo.v ===== *)
(** * Other threads free into a running arena

    Thread 7 pushes a block onto the queue of the arena of [ArenaDemo]; another
    asks for a tombstone for its block through the overflow list; the owner
    drains. *)

From S2P Require Import Prelude.
From S2P Require Import Config.
From S2P Require Import Mpsc.
From S2P Require Import Book.
From S2P Require Import SheetProps.
From S2P Require Import Harden.
From S2P Require Import Kernel.
From S2P Require Import Meta.
From S2P Require Import Arena.
From S2P Require Import ArenaApi.
From S2P Require Import ArenaPublic.
From S2P Require Import ArenaRemote.
From S2P Require Import ArenaDemo.

#[local] Open Scope Z_scope.

#[local] Existing Instance PlainChunk.ops.
#[local] Existing Instance PlainChunk.laws.
#[local] Existing Instance demo_hardening.
#[local] Existing Instance demo_settings.
#[local] Existing Instance demo_platform.
#[local] Existing Instance demo_reserved.

(** The queue after the push of the block [p] with the size [sz] *)
Definition ring_of (p sz : Z) : queue :=
  Queue (wr (seqs (Mpsc.init 64)) (cell 64 0) 1) (wr ∅ (cell 64 0) p) (wr ∅ (cell 64 0) sz) 1 0.
Definition thread_at (pc : ppc) (ps : gmap nat ppc) : gmap nat ppc := <[7%nat := pc]> ps.
Definition pusher (p sz : Z) : gmap nat ppc :=
  thread_at (PRet true) (thread_at (PPub p sz 0) (thread_at (PSize p sz 0) (thread_at (PPtr p sz 0)
    (thread_at (PCas p sz 0) (thread_at (PSeq p sz 0) (thread_at (PLoad p sz) ∅)))))).
Definition queued (p sz : Z) : sys := Sys (ring_of p sz) (pusher p sz) CLook [(p, sz)] [].

Lemma leaves_none L : leaves [] L L.
Proof. exists []. split; [apply Forall2_nil_2|done]. Qed.

Lemma leaves_one b c L L' : names b c -> L ≡ₚ c :: L' -> leaves [b] L L'.
Proof. intros Hb HP. exists [c]. split; [by apply Forall2_cons_2; [|apply Forall2_nil_2]|done]. Qed.

(** The push of a chunk, access by access *)
Lemma demo_push a c L :
  __remote_free a = Mpsc.init 64 ->
  rtc (shared_step 7 demo_head) (Site a (Mpsc.start 64) [] (c :: L))
    (Site (set_remote a (ring_of (ptr c) (len c)) (__remote_ovf a)) (queued (ptr c) (len c)) [] L).
Proof.
  intros Eq. set (p := ptr c). set (sz := len c).
  assert (Hq : set_remote a (Mpsc.init 64) (__remote_ovf a) = a) by (destruct a; cbn in *; by rewrite Eq).
  eapply rtc_l; [apply (sh_start _ _ a _ [] _ 7%nat p sz); by left|]. cbn [Mpsc.start sq prods cons enq deq].
  assert (Hstep : forall a ps pc fail q q' pc' e L', set_remote a q (__remote_ovf a) = a -> push_step 64 fail q pc = (q', pc') -> pushed pc pc' = [] ->
    shared_step 7 demo_head (Site a (Sys q (thread_at pc ps) CLook e []) [] L')
      (Site (set_remote a q' (__remote_ovf a)) (Sys q' (thread_at pc' (thread_at pc ps)) CLook e []) [] L')).
  { intros b ps pc fail q q' pc' e L' _ E Hp.
    pose proof (sh_push 7 demo_head b (Sys q (thread_at pc ps) CLook e []) [] L' 7%nat pc fail q' pc' L') as Hs. rewrite Hp, app_nil_r in Hs.
    apply Hs; [apply lookup_insert_eq|done|apply leaves_none]. }
  eapply rtc_l; [apply (Hstep a ∅ (PLoad p sz) false (Mpsc.init 64) (Mpsc.init 64) (PSeq p sz 0) [] (c :: L)); done|].
  rewrite Hq.
  eapply rtc_l; [apply (Hstep a (thread_at (PLoad p sz) ∅) (PSeq p sz 0) false (Mpsc.init 64) (Mpsc.init 64) (PCas p sz 0) [] (c :: L)); [done| |done]|].
  { assert (E : s64 (rd (seqs (Mpsc.init 64)) (cell 64 0)) - s64 0 = 0) by (vm_compute; reflexivity). cbn [push_step]. by rewrite E. }
  rewrite Hq.
  eapply rtc_l; [eapply (sh_push _ _ a _ [] (c :: L) 7%nat (PCas p sz 0) false (set_tail (Mpsc.init 64) 1) (PPtr p sz 0) L);
    [apply lookup_insert_eq|reflexivity|by apply (leaves_one _ c); [split; [|right; right]|]]|]. cbn [pushed app prods cons enq deq].
  set (a1 := with_queue a _).
  eapply rtc_l; [apply (Hstep a1 (thread_at (PCas p sz 0) (thread_at (PSeq p sz 0) (thread_at (PLoad p sz) ∅))) (PPtr p sz 0) false _
    (set_ptrs (set_tail (Mpsc.init 64) 1) (wr ∅ (cell 64 0) p)) (PSize p sz 0)); done|].
  eapply rtc_l; [apply (Hstep _ (thread_at (PPtr p sz 0) (thread_at (PCas p sz 0) (thread_at (PSeq p sz 0) (thread_at (PLoad p sz) ∅)))) (PSize p sz 0) false _
    (set_sizes (set_ptrs (set_tail (Mpsc.init 64) 1) (wr ∅ (cell 64 0) p)) (wr ∅ (cell 64 0) sz)) (PPub p sz 0)); done|].
  eapply rtc_l; [apply (Hstep _ (thread_at (PSize p sz 0) (thread_at (PPtr p sz 0) (thread_at (PCas p sz 0) (thread_at (PSeq p sz 0) (thread_at (PLoad p sz) ∅)))))
    (PPub p sz 0) false _ (ring_of p sz) (PRet true)); done|].
  apply rtc_refl.
Qed.

Lemma queued_settled p sz : settled (queued p sz).
Proof.
  intros i pc Hi. cbn [queued prods] in Hi. unfold pusher, thread_at in Hi. destruct (decide (i = 7%nat)) as [->|Hne].
  - rewrite lookup_insert_eq in Hi. by injection Hi as <-.
  - rewrite !lookup_insert_ne, lookup_empty in Hi by congruence. done.
Qed.

(** Two blocks freed by others: one on the ring, one on the overflow list *)
Lemma demo_freed : exists a0 x c d e, demo_arena = Ok a0 /\
  rtc (shared_step 7 demo_head) (Site a0 (Mpsc.start 64) [] []) x /\
  s_queue x = queued (ptr c) (len c) /\ __remote_ovf (s_arena x) = [(ptr d, __remote_tombstone_size)] /\ s_detached x = [] /\ s_live x = [e].
Proof.
  destruct (succeeds_ok (let* a0 := demo_arena in
    let* (c1, a1) := push 7 demo_head a0 100 in let* (c2, a2) := push 7 demo_head a1 5000 in let* (c3, a3) := push 7 demo_head a2 40000 in
    if (ptr c1 =? usize_max) || (ptr c2 =? usize_max) || (ptr c3 =? usize_max) then Stuck else Ok (a0, a3))) as [y Ey]; [vm_compute; reflexivity|].
  apply bind_ok in Ey as (a0 & E0 & Ey). apply bind_ok in Ey as ([c1 a1] & E1 & Ey). apply bind_ok in Ey as ([c2 a2] & E2 & Ey).
  apply bind_ok in Ey as ([c3 a3] & E3 & Ey).
  destruct (ptr c1 =? usize_max) eqn:N1; [discriminate Ey|]. destruct (ptr c2 =? usize_max) eqn:N2; [discriminate Ey|].
  destruct (ptr c3 =? usize_max) eqn:N3; [discriminate Ey|]. destruct demo_growable as (G1 & G2 & G3 & _).
  destruct (arena_queue_init 7 demo_head 24576 demo_process a0 E0) as [Q0 O0].
  assert (HQ : __remote_free a3 = Mpsc.init 64 /\ __remote_ovf a3 = []).
  { pose proof (keeps_push 7 demo_head a0 a0 100 (queue_kept_refl _) c1 a1 E1) as H1.
    pose proof (keeps_push 7 demo_head a0 a1 5000 H1 c2 a2 E2) as H2. destruct (keeps_push 7 demo_head a0 a2 40000 H2 c3 a3 E3). split; congruence. }
  destruct HQ as [Q3 O3]. clear Ey.
  exists a0, (Site (set_remote a3 (ring_of (ptr c1) (len c1)) [(ptr c2, __remote_tombstone_size)]) (queued (ptr c1) (len c1)) [] [c3]), c1, c2, c3.
  split; [exact E0|]. split; [|split; [reflexivity|split; [reflexivity|split; reflexivity]]].
  eapply rtc_l; [apply sh_call, (call_push _ _ a0 [] 100 c1 a1); [unfold requested; lia|exact G1|exact E1|by apply not_failed]|].
  eapply rtc_l; [apply sh_call, (call_push _ _ a1 _ 5000 c2 a2); [unfold requested; lia|exact G2|exact E2|by apply not_failed]|].
  eapply rtc_l; [apply sh_call, (call_push _ _ a2 _ 40000 c3 a3); [unfold requested; lia|exact G3|exact E3|by apply not_failed]|].
  eapply rtc_l; [apply (sh_overflow _ _ a3 _ [] _ (ptr c2, __remote_tombstone_size) [c1; c3]); apply (leaves_one _ c2); [split; [|left]; reflexivity|solve_Permutation]|].
  etrans; [apply demo_push; exact Q3|]. cbn [set_remote __remote_ovf __remote_free]. rewrite O3. apply rtc_refl.
Qed.

Lemma remote_frees_safe_witness : exists a0 x, demo_arena = Ok a0 /\
  rtc (shared_step 7 demo_head) (Site a0 (Mpsc.start 64) [] []) x /\ length (underway x) = 2%nat /\
  exists a', __remote_drain demo_head (s_arena x) = Ok (2, a') /\ removes demo_head (s_arena x) (underway x) a' /\
    maybe_nonempty (__remote_free a') = false.
Proof.
  destruct demo_freed as (a0 & x & c & d & e & E0 & Hrun & Es & Eo & Ed & _). exists a0, x. split; [exact E0|]. split; [exact Hrun|].
  assert (EU : length (underway x) = 2%nat) by (unfold underway; rewrite Es, Eo, Ed; reflexivity). split; [exact EU|].
  destruct (remote_frees_safe 7 demo_head 24576 (2 ^ 40) demo_members demo_initial (proj2 demo_plain) (proj1 demo_plain) demo_unaligned eq_refl
    demo_process [] a0 x demo_ready demo_start E0 Hrun) as (G & _ & _ & _ & _ & _ & Hdr).
  - rewrite Es. unfold few, queued. cbn [enq length]. lia.
  - destruct Hdr as (a' & E & Hr & _ & Hn & _); [rewrite Es; apply queued_settled|by rewrite Es|exact Ed|].
    exists a'. rewrite EU in E. split; [exact E|]. split; [exact Hr|exact Hn].
Defined.
