(* ===== verification/DoctorDemo.v ===== *)
(** * A doctor that runs

    The doctor over the arena of [ArenaDemo], with the defaults of
    config_amd64.hpp, reporting only: a block is handed out and recorded, the
    sweep is clean, and it is not once a byte past the request is written. *)

From S2P Require Import Prelude.
From S2P Require Import Config.
From S2P Require Import Book.
From S2P Require Import Tier.
From S2P Require Import Harden.
From S2P Require Import Kernel.
From S2P Require Import Bucket.
From S2P Require Import Arena.
From S2P Require Import ArenaApi.
From S2P Require Import Client.
From S2P Require Import Ledger.
From S2P Require Import Doctor.
From S2P Require Import DoctorProps.
From S2P Require Import ArenaInv.
From S2P Require Import ArenaProps.
From S2P Require Import ArenaGrow.
From S2P Require Import ArenaStart.
From S2P Require Import ArenaRun.
From S2P Require Import ArenaPublic.
From S2P Require Import DoctorArena.
From S2P Require Import DoctorSweep.
From S2P Require Import ArenaDemo.

#[local] Existing Instance PlainChunk.ops.
#[local] Existing Instance PlainChunk.laws.
#[local] Existing Instance demo_hardening.
#[local] Existing Instance demo_settings.
#[local] Existing Instance demo_platform.
#[local] Existing Instance demo_reserved.
#[local] Instance demo_doctor : DoctorSettings := amd64_doctor false false.
#[local] Instance demo_mapper : Mapper := {| map_granted _ _ := true |}.
#[local] Instance demo_allocator : Allocator arena := arena_allocator 7.

Definition demo_caller : caller := Caller 42 ∅ 0 true.

Definition demo_block : Z := 1099522113600.

(** An arena that has served one block of 1000 bytes *)
Abbreviation demo_served := (let* a0 := demo_arena in __vmap_alloc a0 1000).

Definition demo_good : arena -> Prop := fun a => exists c gs,
  heap_ok demo_head 24576 (2 ^ 40) lazy a gs /\ ptr c = demo_block /\ exists n, aheld a gs demo_block n false.

Lemma demo_served_at : (let* (c, _) := demo_served in Ok (ptr c, chunk_zero c)) = Ok (demo_block, false).
Proof. vm_compute. reflexivity. Qed.

Lemma demo_served_good c a : demo_served = Ok (c, a) -> demo_good a.
Proof.
  intros E. pose proof demo_served_at as Ec. rewrite E in Ec. cbn [bind] in Ec. apply Ok_pair in Ec as [Ep Ez]. apply bind_ok in E as (a0 & E0 & E1).
  destruct (ready_started 7 demo_head 24576 (2 ^ 40) demo_members demo_process [] demo_ready demo_start)
    as [E2|(a2 & gs & E2 & Hok & _)]; rewrite E0 in E2; [discriminate E2|]. injection E2 as <-.
  assert (Hg : heap_good demo_head 24576 (2 ^ 40) (a0, [])) by (exists gs; split; [exact Hok|apply owns_nil]).
  destruct (heap_serves demo_head 24576 (2 ^ 40) (proj1 demo_plain) a0 [] 1000 Hg) as (c' & a' & E3 & (gs' & Hok' & Ho) & _);
    [unfold requested; lia|].
  rewrite E1 in E3. injection E3 as <- <-. cbn [fst snd] in *. rewrite Ez in Ho.
  destruct (ow_held _ _ Ho c) as (n & Hn & _); [apply list_elem_of_here|]. rewrite Ep in Hn. exists c, gs'. split; [exact Hok'|].
  split; [exact Ep|]. by exists n.
Qed.

(** ** Ownership, looked up *)

Definition owned_check (a : arena) : bool :=
  forallb (fun t => let r := tier_of a t in
    forallb (fun i => match foreign_granule (granule_rounds (lo (entry (__idx r) i)) (hi (entry (__idx r) i))) (owner_of a) 7
                              (lo (entry (__idx r) i)) (hi (entry (__idx r) i)) with Ok false => true | _ => false end)
      (seqZ 0 (__count r))) all_tiers.

Lemma owned_check_ok a gs : heap_ok demo_head 24576 (2 ^ 40) lazy a gs -> owned_check a = true -> granules_owned 7 a.
Proof.
  intros (gm & runs & gM & rM & RM & X & Hok & _) Hc t i Hi. unfold owned_check in Hc. rewrite forallb_forall in Hc.
  specialize (Hc t ltac:(destruct t; cbn; tauto)). cbv zeta in Hc. rewrite forallb_forall in Hc. rewrite tier_of_at in Hc.
  specialize (Hc i). destruct (le_range _ (good_led _ _ _ _ _ _ _ _ Hok t) i Hi) as [R0 R1].
  destruct (foreign_spec (owner_of a) 7 (hi (entry (__idx (b_tier (bucket_at a t))) i))
    (granule_rounds (lo (entry (__idx (b_tier (bucket_at a t))) i)) (hi (entry (__idx (b_tier (bucket_at a t))) i)))
    (lo (entry (__idx (b_tier (bucket_at a t))) i)) R0 R1) as (f & Ef & Hf); [unfold granule_rounds; lia|unfold granule_rounds; lia|].
  rewrite Ef in Hc. apply Hf. destruct f; [|done]. discriminate Hc. apply list_elem_of_In, elem_of_seqZ. lia.
Qed.

(** ** The sweep *)

(** The block recorded by the hook *)
Abbreviation demo_recorded :=
  (let* (c, a) := demo_served in
   let* (_, s) := record_alloc demo_caller (fresh_session a) (ptr c) 1000 in Ok s).

(** Everything is in order after a recorded allocation, and a byte past the 1000
    asked for raises an alarm, one within does not. *)
Example alarm_on_overflow :
  (let* s := demo_recorded in
   let write k := set_user_bytes (s_world s) (wr (a_bytes (s_world s)) (demo_block + k) 7) in
   let* (m0, _) := fsck s in
   let* (m1, _) := fsck (in_world s (write 999)) in
   let* (m2, _) := fsck (in_world s (write 1000)) in
   Ok (m0, m1, m2)) = Ok (0, 0, 1).
Proof. by vm_compute. Qed.

(** ** Witnesses *)

Definition only_block (s : session arena) : bool :=
  forallb (fun r => negb (live_rec r) || ((key r =? demo_block) && (req_size r =? 1000))) (all_slots (s_dr s)).

Definition is_quiet (s : session arena) : bool := (__in_doctor s =? 0) && (__dr_lock_depth s =? 0) && negb (lock (s_dr s)).

Lemma is_quiet_ok s : is_quiet s = true -> quiet s.
Proof. unfold is_quiet. rewrite !andb_true_iff, !Z.eqb_eq, negb_true_iff. intros [[? ?] ?]. by split. Qed.

Lemma demo_checked :
  (let* s := demo_recorded in
   let* n := __size_of_alloc (s_world s) demo_block in
   Ok (is_quiet s && owned_check (s_world s) && only_block s, n <? 2 ^ 37)) = Ok (true, true).
Proof. vm_compute. reflexivity. Qed.

(** The recorded session: everything the theorem on [fsck] asks *)
Lemma demo_recorded_ok s : demo_recorded = Ok s -> exists gs,
  heap_ok demo_head 24576 (2 ^ 40) lazy (s_world s) gs /\ granules_owned 7 (s_world s) /\ quiet s /\ of_blocks (s_world s) gs (s_dr s).
Proof.
  intros E. pose proof demo_checked as Ec. rewrite E in Ec. cbn [bind] in Ec.
  apply bind_ok in E as ([c a] & E0 & E1). apply bind_ok in E1 as ([[] s'] & E1 & E2). injection E2 as <-.
  destruct (demo_served_good c a E0) as (c' & gs & Hok & _ & n & Hn).
  assert (Hs : same_heap a (s_world s')).
  { destruct (record_alloc_world _ _ _ _ _ E1) as [-> |[m ->]]; [by apply same_heap_meta|apply set_user_bytes_same]. }
  destruct (same_heap_ok demo_head 24576 (2 ^ 40) a _ gs Hok Hs) as [Hok' Hh]. apply Hh in Hn.
  destruct (held_bounds _ _ _ _ _ _ _ _ Hok' Hn) as [Hp _].
  destruct (held_answers _ _ _ (proj2 demo_plain) _ _ _ _ _ Hok' Hn Hp) as [En _]. rewrite En in Ec. cbn [bind] in Ec.
  apply Ok_pair in Ec as [Ec Hlt%Z.ltb_lt]. apply andb_true_iff in Ec as [Ec Hb]. apply andb_true_iff in Ec as [Hq Hw].
  exists gs. split; [exact Hok'|]. split; [by apply (owned_check_ok _ gs)|]. split; [by apply is_quiet_ok|].
  intros r Hin Hl. unfold only_block in Hb. rewrite forallb_forall in Hb. specialize (Hb r (proj1 (list_elem_of_In _ _) Hin)).
  rewrite Hl in Hb. cbn [negb orb] in Hb. apply andb_true_iff in Hb as [Hk%Z.eqb_eq Hr%Z.eqb_eq]. rewrite Hk, Hr.
  split; [lia|]. destruct Hn as (t & Hn). exists t, n, false. by split.
Qed.

Lemma fsck_exact_witness : exists s gs m s', demo_recorded = Ok s /\ fsck s = Ok (m, s') /\ s_world s' = s_world s /\
  (m = 0 <-> all_true 7 (s_world s) gs (s_dr s)).
Proof.
  destruct (succeeds_ok demo_recorded) as [s E]; [vm_compute; reflexivity|].
  destruct (demo_recorded_ok s E) as (gs & Hok & Ho & Hq & Hb).
  destruct (fsck_exact 7 demo_head 24576 (2 ^ 40) (s_world s) gs Hok Ho ltac:(discriminate) (proj2 demo_plain) eq_refl eq_refl s Hq eq_refl Hb)
    as (m & s' & Ef & Hw & _ & Hm).
  exists s, gs, m, s'. split; [exact E|]. split; [exact Ef|]. split; [exact Hw|exact Hm].
Defined.

Lemma arena_walk_exact_witness : exists s v', demo_recorded = Ok s /\ walk_arena 7 sweep_init (s_world s) = Ok (v', s_world s) /\ anomalies v' = 0.
Proof.
  destruct (succeeds_ok demo_recorded) as [s E]; [vm_compute; reflexivity|].
  destruct (demo_recorded_ok s E) as (gs & (gm & runs & gM & rM & RM & X & Hok & HA) & Ho & _).
  destruct (arena_walk_exact 7 sweep_init (s_world s) eq_refl (good_led _ _ _ _ _ _ _ _ Hok)) as (v' & Ew & _ & _ & Hc).
  exists s, v'. split; [exact E|]. split; [exact Ew|]. apply Hc; [|exact Ho].
  exists demo_head, (2 ^ 40), lazy, (rM :: RM ++ X), gs, gm, runs. exact Hok.
Defined.

(** A block handed out, ended by a free and handed out again, and another one *)
Definition demo_hooks (a : arena) : list (arena * hook) :=
  [(a, on_alloc demo_caller demo_block 1000); (a, on_free demo_caller demo_block 0);
   (a, on_alloc demo_caller demo_block 900); (a, on_alloc demo_caller 64 10)].

Lemma doctor_knows_live_witness : exists c a s, demo_served = Ok (c, a) /\
  run_hooks (fresh_session a) (demo_hooks a) = Ok s /\ n_live (s_dr s) = 2 /\
  exists s', is_tracked s demo_block = Ok (true, s').
Proof.
  destruct (succeeds_ok demo_served) as [[c a] E]; [vm_compute; reflexivity|].
  destruct (demo_served_good c a E) as (c' & gs & (gm & runs & gM & rM & RM & X & Hok & HA) & _).
  assert (G : al_good (AllocatorLaws := arena_laws 7) a).
  { exists demo_head, (2 ^ 40), lazy, (rM :: RM ++ X), gs, gm, runs. exact Hok. }
  destruct (doctor_knows_live (demo_hooks a) a) as (s & Es & _ & Ht & Hn & _).
  - reflexivity.
  - vm_compute. reflexivity.
  - repeat constructor; exact G.
  - exact G.
  - exists c, a, s. split; [exact E|]. split; [exact Es|]. split; [apply Hn; intros i n; reflexivity|].
    destruct (Ht demo_block) as (b & s' & Eb & _ & Hb). rewrite Hb in Eb.
    + exists s'. exact Eb.
    + intros i n. reflexivity.
    + vm_compute. tauto.
Defined.
